(* ===== verification/_CoqProject ===== *)
-Q . S2P
Prelude.v
Float64.v
GoTime.v
GoErrors.v
GoStrings.v
GoUrl.v
Retry.v
CircuitBreaker.v
Hystrix.v
Vegas.v
Sres.v
TokenBucket.v
Bbr.v
SentinelAdapters.v
Metrics.v
Http.v
NetPacket.v
Servers.v
HttpCircuitBreaker.v
HttpObserve.v
Http3.v
HttpRetry.v
HttpRecovery.v
HttpRequestId.v
HttpCors.v
HttpRateLimit.v
Grpc.v
GrpcRetry.v
GrpcGuard.v
Health.v
HealthCheckers.v
SseEvent.v
SseStream.v
SseServer.v
Cache.v
CacheRedis.v
Broker.v
Encoding.v
HttpCodec.v
HttpGuards.v
GrpcContext.v
GrpcCalls.v
GrpcObserve.v
Crypto.v
BrokerCodec.v
BrokerOptions.v
Nats.v
Redis.v
Mqtt.v
Rocket.v
Registry.v
Kafka.v
KafkaConfig.v
Config.v
ConfigSources.v
WebSocket.v
WsSession.v
WebRtcSfu.v
WebRtcMessage.v
WebRtcSession.v
WebRtcSignal.v
WebTransport.v
MessageServer.v
Lifecycle.v
Asynq.v
Cron.v
Log.v
Rabbit.v
Argo.v
RabbitOptions.v
BrokerTracing.v
Workflow.v
Mcp.v
Fluent.v
Trpc.v
Oss.v
Clients.v
