(* ===== verification/Prelude.v ===== *)
(** * Verification of lulu-ext

    [lulu-ext] is a collection of Go packages for building services: resilience
    primitives (retry, circuit breakers, rate limiters), HTTP and gRPC
    middlewares built on them, transports, caches, brokers and adapters to
    third-party systems.  This development models the parts with logic of their
    own and proves what they guarantee, and where the code does not do what it
    means to, exhibits it.

    ** Parts and files

    - [Prelude] (this file): 64-bit integers with wrap-around, functional
      options, list lemmas, the [Go] monad of state and panics, tactics and the
      [lulu] hint database.
    - [Float64]: IEEE doubles on the Standard Library's [SpecFloat], with
      comparison, rounding and exactness lemmas; [int64(x)] of a value out of
      range is left to the architecture (class [Arch]).  Fused multiply-add, which
      a Go compiler may use on some architectures, is not modelled.
    - [GoTime]: durations, times with wall and monotonic readings, and the
      [Runtime] that yields clock readings and random draws.
    - [GoErrors]: error trees with [errors.Is], [errors.As], [errors.Join], and
      [errors/errors.go].  [GoStrings]: what is used of [strings] and [strconv];
      [GoUrl]: what is used of [net/url].
    - [Retry]: [retry/retry.go].  [Do] over a world of operation results, context
      and clock; it returns with its trace of calls and sleeps.
    - [CircuitBreaker]: [circuitbreaker/circuitbreaker.go], the interface as a
      class, and the bucket window its implementations share.
    - [Hystrix], [Vegas], [Sres]: [circuitbreaker/hystrix], [vegas], [sres]; one
      definition per method, each a state transformer.  A method holds the
      breaker's mutex, so concurrent use is a sequence of method calls.
    - [TokenBucket], [Bbr]: [ratelimit/tokenbucket], [ratelimit/bbr], likewise.
    - [SentinelAdapters]: [circuitbreaker/sentinel], [ratelimit/sentinel], over a
      class of Sentinel with laws on its open entries.
    - [Http]: what is used of [net/http] (headers, requests, response writers as
      programs of calls) and [transport/http]: server, chains, standard driver.
    - [Servers]: [Endpoint], [Start] and [Stop] of the HTTP-based servers
      ([transport/http/driver/std], [sse], [graphql], [websocket], [signalr],
      [socketio]) as a machine of callers and goroutines, and the construction of
      [transport/grpc/server].
    - [HttpCircuitBreaker], [HttpRetry], [HttpRecovery], [HttpRequestId] (with
      metadata), [HttpCors], [HttpRateLimit]: the packages of
      [transport/http/middleware] of those names, proved against the breaker and
      limiter classes, for every handler.
    - [Grpc]: [transport/grpc/middleware/errors]; [GrpcRetry], [GrpcGuard]: the
      retry, circuit-breaker and rate-limit interceptors.  grpc-go's status
      functions are a parameter with their documented laws ([GrpcLaws]).
    - [Health]: [health/health.go], [health/handler.go]; [HealthCheckers]:
      [health/checkers.go].
    - [SseEvent], [SseStream], [SseServer]: [transport/sse]: events and wire
      format, the stream goroutine as a step relation over shared events, and the
      manager, publishing and subscription handler.
    - [Cache]: [cache], [cache/local] over a FreeCache parameter with laws;
      [CacheRedis]: [cache/redis] over a Redis client with laws.
    - [Broker]: [broker/message.go], [broker/subscriber.go]; [BrokerCodec]:
      encoding of bodies, typed handlers and middleware chains of [broker], and
      [encoding/proto]; [BrokerOptions]: the options of brokers, publishes and
      requests.
    - [NetPacket]: the little-endian packets of [transport/websocket/message.go].
    - [Encoding], [HttpCodec]: the codec registry of [encoding] and the content
      negotiation of [transport/http/middleware/codec].
    - [HttpGuards]: the timeout, errors and validate middlewares, a module each; the
      timeout's handler is a goroutine whose calls interleave with the timeout response.
    - [GrpcContext]: the request-id and metadata interceptors over a class of gRPC
      metadata; [GrpcCalls]: timeout, recovery, validate and codec interceptors.
    - [Metrics]: [metrics], with its Prometheus and OpenTelemetry providers.
    - [HttpObserve], [GrpcObserve]: the logging, metrics and tracing middlewares of
      [transport/http/middleware] and [transport/grpc/middleware], which write to a log,
      a metrics provider and a tracer as lists of events.
    - [Http3]: [transport/http3].
    - [Crypto]: the registries of [security/crypto], the HTTP middleware that decrypts
      and encrypts, and the encrypting gRPC codec.
    - [Kafka]: [broker/kafka]: publishing with its writers, locks and retries, and
      the consumer loops; [KafkaConfig]: its options and how they configure writers and
      readers.  [Rabbit]: [broker/rabbitmq]: exchanges, the connection and
      its reconnecting goroutine as a step machine, publishing, deliveries and the
      resubscribe loop; [RabbitOptions]: its options, its channel and the broker over
      them.  [Nats]: [broker/nats], core and JetStream.  [Redis]:
      [broker/redis], streams and pub/sub with their receive loops.  [Mqtt]:
      [broker/mqtt], addresses, settings, and subscriptions through losses of the
      connection, each call in its two steps.  [Rocket]: the three drivers of [broker/rocketmq], a module each.
    - [BrokerTracing]: [tracer/otlp/tracer.go], and the carriers and spans of the brokers
      that trace, over records of tracers and propagators.
    - [Registry]: [registry/kubernetes] and [registry/nacos], a module each.
    - [MessageServer]: [transport/kafka], [mqtt], [nats], [rabbitmq], [redis] and
      [rocketmq], six servers with one text, over the class [Broker] of
      [broker.Broker], of which only new subscribers are asked; [broker/subscribe_options.go].
    - [Lifecycle]: servers whose [Start] waits under the mutex, as a machine of calls;
      [Asynq]: [transport/asynq] and [Cron]: [transport/cron], over parameters for
      the libraries they wrap.
    - [Config]: [config/fallback.go], with the watching goroutines as a machine;
      [ConfigSources]: the eight sources of [config], a module each, and the goroutine
      that watches a source.
    - [Log]: [log/level_filter.go], [log/multi_logger.go]; [Fluent]: [log/fluent] and the
      [slog] adapter.
    - [Argo]: [workflow/argo], a client of a server that is a parameter; [Workflow]: the
      other engines of [workflow], a module each.  [Mcp]: [transport/mcp].
    - [Trpc]: [transport/trpc], the server as a machine and the client whose calls append
      to a shared slice.  [Oss]: [oss/minio] and [oss/s3] over a class of SDKs.  [Clients]:
      [transport/grpc/client], the model clients of [ai], [tracer/otlp/otlp.go] and
      [pprof], a module each.
    - [WebSocket], [WsSession]: [transport/websocket]: messages, dispatch and options;
      sessions and their manager as a step relation over shared sessions.
    - [WebRtcSfu]: tracks, router and the server's use of it in [transport/webrtc],
      with [Subscribe]'s map write in its steps, as it is made under a read lock;
      [WebRtcMessage]: packets and dispatch; [WebRtcSession]: sessions and their
      manager as a step relation; [WebRtcSignal]: the signalling handler and client.
    - [WebTransport]: [transport/webtransport]: messages, framed sessions, the count
      of sessions.

    ** What the theorems show

    - Retry (C1-C2): a run is one the retry protocol allows, and each ending has its
      cause; total wait.  Exhaustion,
      delay bounds, the exact default schedule and the cap that fails beyond [int64]
      are further theorems of the file.
    - Breakers (C3-C4, C6): Hystrix never panics and trips exactly at its thresholds;
      the SRE breaker's decision in integer counts, which is not the one its comment
      promises for [K = 2].  That Hystrix recovers through
      [State] is a further theorem.
    - Metrics (C5): the series a Prometheus provider keeps for names and labels the
      library accepts.
    - Limiters (C7-C9): the token count stays within the burst; the rate is that
      of an ideal integer bucket while the wait for a token is a nanosecond or more,
      and unlimited beyond; the adaptive limiter's accounting.
    - HTTP (C10-C12): one mark per admitted request, one response per retried request,
      the race of a handler with its deadline, call by call.  Middleware order, recovery, CORS,
      negotiation, propagation and isolation of keys are theorems of their files.
    - gRPC (C13-C14): error codes across a call, the result of a retried call, and the
      empty success when its context is already done.
    - Health (C15): the aggregate is independent of arrival order.
    - SSE (C16-C17): round trip of the wire format for any chunking, delivery in order
      without loss.
    - Brokers (C18-C24): what a Kafka publish does to its writers and consumption in
      order; a RabbitMQ connection that heals, and the way of a message with its
      settlement; the trace that goes on across a broker; MQTT subscriptions that survive the
      connection, and those that do not; RocketMQ's producer cache under concurrent
      publishes and disconnections, failed ones too.  JetStream
      messages are settled once, by a further theorem.
    - Registries (C25-C27): register, discover and deregister on Kubernetes, the
      watcher's announcements, and Nacos as a table of addresses of which [GetService]
      lists those of positive weight.
    - Message servers (C28): subscriptions accounted for, whichever the driver.
    - Asynq (C29-C31): a task reaches its handler, periodic tasks are accounted for,
      waiting ends.
    - Configuration (C32-C33): the fallback order, and what a polling watch announces,
      through failures of its requests.
    - Redis cache (C34): the cache as a map, for requests that succeed.
    - WebSocket (C35-C36): delivery per session, and that closing ends.
    - WebRTC (C37-C38): the router's invariant as long as no two subscriptions write at
      once, the registry of sessions.  WebTransport (C39): a session delivers, whatever
      the frames.
    - Servers (C40): [Stop] ends [Start] in every order of their steps, and before
      [Start] it only cleans.

    What the code does not do as it means to is exhibited by further theorems and
    examples next to these.

    ** Bounds and fuel

    [Do]'s loop recurses on the number of attempts, which the code bounds too.
    [TokenBucket.Wait] takes the number of passes of its loop as fuel; its
    theorems hold for every fuel.  [SseEvent.drain] has the buffer's length plus
    one as fuel, and each token consumes at least two bytes.  [Asynq.waitResult] has
    the number of polls as fuel, and 302 are enough.  [WebTransport.frames] has the
    stream's length plus one, and each frame consumes at least four bytes;
    [GoStrings.Split] has the text's length plus one, more than it has parts.  Consumer loops and goroutines
    take the events they meet as a list.  Exactness results on doubles are for
    integers below 2^53.

    ** Not modelled

    Network and file I/O and TLS; the client libraries of brokers, registries, workflow
    engines, object stores, models, pion, QUIC and trpc-go, which answer as inputs of the
    models; building blocks for AI and transactions that pass each call on to a library;
    the gin driver and the codecs that are a call of an encoder; options that only pass a
    value on; generated code; the text of log lines that nothing reads. *)
From Stdlib Require Import ZArith Lia.
From stdpp Require Import base gmap strings list fin_maps numbers.

(** * Shared notation and automation *)

Declare Scope lulu_scope.
Delimit Scope lulu_scope with lulu.
Open Scope lulu_scope.
Open Scope Z_scope.

Create HintDb lulu.
Create Rewrite HintDb lulu.

(** A number that is not in a set. *)
Definition next_nat (s : gset nat) : nat := S (set_fold Nat.max 0%nat s).
Lemma next_nat_fresh s : next_nat s ∉ s.
Proof.
  unfold next_nat. assert (forall x, x ∈ s -> (x <= set_fold Nat.max 0 s)%nat) as Hle.
  { apply (set_fold_ind_L (fun m (X : gset nat) => forall x, x ∈ X -> (x <= m)%nat)); [set_solver|].
    intros x X m _ IH y Hy. destruct (decide (y = x)) as [->|]; [lia|].
    assert (y ∈ X) as Hy' by set_solver. specialize (IH y Hy'). lia. }
  intros Hin. specialize (Hle _ Hin). lia.
Qed.

(** * Go integers

    [int] and [int64] are 64-bit two's complement: arithmetic wraps.  Division
    and remainder truncate toward zero ([Z.quot], [Z.rem]). *)

Definition int64_min : Z := - 2 ^ 63.
Definition int64_max : Z := 2 ^ 63 - 1.

Definition in_int64 (z : Z) : Prop := int64_min <= z <= int64_max.

Definition in_int64b (z : Z) : bool := (int64_min <=? z) && (z <=? int64_max).

Definition wrap64 (z : Z) : Z := (z + 2 ^ 63) mod 2 ^ 64 - 2 ^ 63.

(** Saturating conversion, as used by [time.Time.Sub]. *)
Definition sat64 (z : Z) : Z := Z.max int64_min (Z.min int64_max z).

Definition add64 (a b : Z) : Z := wrap64 (a + b).
Definition sub64 (a b : Z) : Z := wrap64 (a - b).
Definition mul64 (a b : Z) : Z := wrap64 (a * b).

(** The quotient of [int64_min] by [-1] wraps; every other quotient is exact. *)
Definition quot64 (a b : Z) : Z := wrap64 (Z.quot a b).
Definition rem64 (a b : Z) : Z := Z.rem a b.

Lemma wrap64_range z : in_int64 (wrap64 z).
Proof.
  unfold in_int64, wrap64, int64_min, int64_max.
  pose proof (Z.mod_pos_bound (z + 2 ^ 63) (2 ^ 64)). lia.
Qed.

Lemma wrap64_id z : in_int64 z -> wrap64 z = z.
Proof.
  unfold in_int64, wrap64, int64_min, int64_max. intros H.
  rewrite Z.mod_small; lia.
Qed.

Lemma wrap64_add a b : wrap64 (wrap64 a + b) = wrap64 (a + b).
Proof.
  unfold wrap64. f_equal. replace ((a + 2 ^ 63) mod 2 ^ 64 - 2 ^ 63 + b + 2 ^ 63) with ((a + 2 ^ 63) mod 2 ^ 64 + b) by lia.
  rewrite Zplus_mod_idemp_l. f_equal. lia.
Qed.

Lemma sat64_range z : in_int64 (sat64 z).
Proof. unfold in_int64, sat64, int64_min, int64_max. lia. Qed.

Lemma sat64_id z : in_int64 z -> sat64 z = z.
Proof. unfold in_int64, sat64. lia. Qed.

Lemma in_int64b_spec z : in_int64b z = true <-> in_int64 z.
Proof. unfold in_int64b, in_int64. lia. Qed.

#[export] Instance in_int64_dec z : Decision (in_int64 z).
Proof. unfold in_int64. apply _. Defined.

#[export] Hint Resolve wrap64_range sat64_range : lulu.
#[export] Hint Rewrite wrap64_id sat64_id using (unfold in_int64, int64_min, int64_max; lia) : lulu.

(** Unfolds the 64-bit operations and removes the wrap-arounds that do nothing
    because their argument is provably in range. *)
Ltac simpl64 :=
  unfold add64, sub64, mul64, quot64, rem64 in *;
  repeat rewrite wrap64_id in * by (unfold in_int64, int64_min, int64_max in *; lia).

(** Boolean tests of the source as propositions. *)
Ltac bool_to_prop :=
  repeat match goal with
  | H : _ && _ = true |- _ => apply andb_prop in H; destruct H
  | H : _ && _ = false |- _ => apply andb_false_iff in H
  | H : _ || _ = false |- _ => apply orb_false_iff in H; destruct H
  | H : _ || _ = true |- _ => apply orb_prop in H
  | H : negb _ = true |- _ => apply negb_true_iff in H
  | H : negb _ = false |- _ => apply negb_false_iff in H
  | H : (_ <=? _) = true |- _ => apply Z.leb_le in H
  | H : (_ <=? _) = false |- _ => apply Z.leb_gt in H
  | H : (_ <? _) = true |- _ => apply Z.ltb_lt in H
  | H : (_ <? _) = false |- _ => apply Z.ltb_ge in H
  | H : (_ =? _) = true |- _ => apply Z.eqb_eq in H
  | H : (_ =? _) = false |- _ => apply Z.eqb_neq in H
  end.

(** Case analysis on the next test of the goal, keeping the equation. *)
Ltac case_if :=
  match goal with
  | |- context [if ?b then _ else _] => let E := fresh "E" in destruct b eqn:E
  end.

Ltac case_match_goal :=
  match goal with
  | |- context [match ?x with _ => _ end] => let E := fresh "E" in destruct x eqn:E
  end.

(** * Functional options

    [for _, opt := range opts { opt(cfg) }], the constructor idiom of every
    package of the repository. *)

Definition apply_opts {C : Type} (opts : list (C -> C)) (cfg : C) : C :=
  fold_left (fun c opt => opt c) opts cfg.

Lemma apply_opts_preserves {C : Type} (P : C -> Prop) (opts : list (C -> C)) cfg :
  Forall (fun opt => forall c, P c -> P (opt c)) opts -> P cfg -> P (apply_opts opts cfg).
Proof.
  intros Hopts. revert cfg. unfold apply_opts.
  induction Hopts as [|opt opts Hopt _ IH]; simpl; auto.
Qed.

Lemma apply_opts_app {A} (o1 o2 : list (A -> A)) a : apply_opts (o1 ++ o2) a = apply_opts o2 (apply_opts o1 a).
Proof. apply fold_left_app. Qed.

(** * Strings *)

Lemma string_app_nil (s : string) : (s ++ "")%string = s.
Proof. induction s as [|c s IH]; [done|]. change (String c (s ++ "") = String c s). by rewrite IH. Qed.

Lemma string_length_app (p q : string) : String.length (p ++ q) = (String.length p + String.length q)%nat.
Proof. induction p as [|x p IH]; [done|]. simpl. by rewrite <- IH. Qed.

Lemma string_app_assoc (a b c : string) : ((a ++ b) ++ c)%string = (a ++ (b ++ c))%string.
Proof. induction a as [|x a IH]; [done|]. change (String x ((a ++ b) ++ c) = String x (a ++ (b ++ c))). by rewrite IH. Qed.

(** * Lists *)

Fixpoint sumZ (l : list Z) : Z :=
  match l with
  | [] => 0
  | x :: l' => x + sumZ l'
  end.

Lemma sumZ_app l1 l2 : sumZ (l1 ++ l2) = sumZ l1 + sumZ l2.
Proof. induction l1; simpl; lia. Qed.

Lemma sumZ_nonneg l : Forall (fun x => 0 <= x) l -> 0 <= sumZ l.
Proof. induction 1; simpl; lia. Qed.

Lemma sumZ_insert (l : list Z) (i : nat) (x y : Z) :
  l !! i = Some x -> sumZ (<[i := y]> l) = sumZ l - x + y.
Proof.
  revert i. induction l as [|a l IH]; intros [|i] H; simpl in *; simplify_eq; [lia|].
  rewrite (IH _ H). lia.
Qed.

Lemma sumZ_lookup_le (l : list Z) (i : nat) (x : Z) :
  Forall (fun x => 0 <= x) l -> l !! i = Some x -> x <= sumZ l.
Proof.
  intros Hl. revert i. induction Hl as [|a l Ha Hl IH]; intros [|i] H; simpl in *; simplify_eq.
  - pose proof (sumZ_nonneg l Hl). lia.
  - specialize (IH _ H). lia.
Qed.

Lemma list_insert_map {A B} (f : A -> B) (l : list A) (i : nat) (x : A) :
  map f (<[i := x]> l) = <[i := f x]> (map f l).
Proof. apply list_fmap_insert. Qed.

#[export] Hint Resolve sumZ_nonneg : lulu.

(** * State and panics

    A Go function that mutates a store [S] and may panic: the store is kept on
    a panic, since a deferred or recovering caller sees it. *)

Inductive result (A : Type) :=
| Returned (a : A)
| Panicked.
Arguments Returned {A}.
Arguments Panicked {A}.

Definition Go (S A : Type) : Type := S -> result A * S.

#[export] Instance Go_ret {S} : MRet (Go S) := fun A a s => (Returned a, s).

#[export] Instance Go_bind {S} : MBind (Go S) := fun A B f m s =>
  match m s with
  | (Returned a, s') => f a s'
  | (Panicked, s') => (Panicked, s')
  end.

Definition go_panic {S A} : Go S A := fun s => (Panicked, s).
Definition go_get {S} : Go S S := fun s => (Returned s, s).
Definition go_modify {S} (f : S -> S) : Go S unit := fun s => (Returned tt, f s).
Definition go_try {S A} (o : option A) : Go S A :=
  match o with
  | Some a => mret a
  | None => go_panic
  end.

(** An action on one component of the store. *)
Definition go_fst {S T A} (m : Go S A) : Go (S * T) A := fun '(s, t) =>
  let '(r, s') := m s in (r, (s', t)).
Definition go_snd {S T A} (m : Go T A) : Go (S * T) A := fun '(s, t) =>
  let '(r, t') := m t in (r, (s, t')).

Lemma go_bind_returned {S A B} (m : Go S A) (f : A -> Go S B) s a s' :
  m s = (Returned a, s') -> (m ≫= f) s = f a s'.
Proof. intros E. unfold mbind, Go_bind. by rewrite E. Qed.

(** A property of the store kept by both parts is kept by the sequence. *)
Lemma go_bind_inv {S A B} (P : S -> Prop) (m : Go S A) (f : A -> Go S B) :
  (forall s, P s -> P (snd (m s))) -> (forall a s, P s -> P (snd (f a s))) ->
  forall s, P s -> P (snd ((m ≫= f) s)).
Proof.
  intros Hm Hf s Hs. unfold mbind, Go_bind. specialize (Hm s Hs).
  destruct (m s) as [[a|] s']; simpl in *; auto.
Qed.

(** * Registries of handles

    Several components keep a map from keys to handles of something that is alive
    elsewhere (subscriptions of a broker, entries of a scheduler).  The map is
    accounted for when its handles are alive, each under one key, and every other
    handle that is alive is among those known to be [dropped]. *)
Section accounting.
Context {K V : Type} `{Countable K}.

Record tracks_live (live : V -> Prop) (reg : gmap K V) (dropped : list V) : Prop := {
  acc_live k v : reg !! k = Some v -> live v;
  acc_inj k1 k2 v : reg !! k1 = Some v -> reg !! k2 = Some v -> k1 = k2;
  acc_all v : live v -> (exists k, reg !! k = Some v) \/ v ∈ dropped
}.

Lemma tracks_empty live : (forall v, ~ live v) -> tracks_live live ∅ [].
Proof. intros Hn. split; [intros k v; by rewrite lookup_empty..|]. intros v []%Hn. Qed.

Lemma tracks_ext (live live' : V -> Prop) reg dropped :
  (forall v, live' v <-> live v) -> tracks_live live reg dropped -> tracks_live live' reg dropped.
Proof. intros E [H1 H2 H3]. split; [intros; apply E; eauto|done|]. intros v Hv. apply H3. by apply E. Qed.

Lemma tracks_more live reg dropped more : tracks_live live reg dropped -> tracks_live live reg (dropped ++ more).
Proof. intros [H1 H2 H3]. split; [done..|]. intros v Hv. rewrite elem_of_app. destruct (H3 v Hv); auto. Qed.

(** A new handle under a key; the handle the key had is dropped. *)
Lemma tracks_insert (live live' : V -> Prop) reg dropped k v :
  ~ live v -> (forall w, live' w <-> w = v \/ live w) -> tracks_live live reg dropped ->
  tracks_live live' (<[k := v]> reg) (dropped ++ option_list (reg !! k)).
Proof.
  intros Hnew E [H1 H2 H3]. split.
  - intros j w [[-> ->]|[Hne Hw]]%lookup_insert_Some; apply E; eauto.
  - intros k1 k2 w [[-> ->]|[Hn1 Hk1]]%lookup_insert_Some [[<- Hw]|[Hn2 Hk2]]%lookup_insert_Some; subst; eauto.
    + destruct Hnew. eauto.
    + destruct Hnew. eauto.
  - intros w [->|Hw]%E; [left; exists k; apply lookup_insert_eq|]. rewrite elem_of_app.
    destruct (H3 _ Hw) as [[j Hj]|Hd]; [|auto]. destruct (decide (j = k)) as [->|Hne].
    + right. right. rewrite Hj. by apply list_elem_of_singleton.
    + left. exists j. by rewrite lookup_insert_ne.
Qed.

(** A handle that is ended and forgotten. *)
Lemma tracks_delete (live live' : V -> Prop) reg dropped k v :
  reg !! k = Some v -> ~ live' v -> (forall w, w <> v -> live' w <-> live w) ->
  tracks_live live reg dropped -> tracks_live live' (delete k reg) dropped.
Proof.
  intros Hk Hdead E [H1 H2 H3]. split.
  - intros j w [Hne Hj]%lookup_delete_Some. apply E; [|eauto]. intros ->. eauto.
  - intros k1 k2 w [_ Hk1]%lookup_delete_Some [_ Hk2]%lookup_delete_Some. eauto.
  - intros w Hw. assert (w <> v) as Hne by (intros ->; done). apply E in Hw; [|done].
    destruct (H3 _ Hw) as [[j Hj]|Hd]; [left; exists j|by right]. apply lookup_delete_Some. split; [|done].
    intros ->. congruence.
Qed.

(** Every handle forgotten: what is still alive is dropped. *)
Lemma tracks_clear (live live' : V -> Prop) reg dropped more :
  (forall w, live' w -> live w /\ ((exists k, reg !! k = Some w) -> w ∈ more)) ->
  tracks_live live reg dropped -> tracks_live live' (∅ : gmap K V) (dropped ++ more).
Proof.
  intros E [H1 H2 H3]. split; [intros k v; by rewrite lookup_empty..|]. intros w Hw. right. rewrite elem_of_app.
  destruct (E _ Hw) as [Hl Hm]. destruct (H3 _ Hl); auto.
Qed.
End accounting.
