(* ===== verification/Float64.v ===== *)
(** Go's [float64]: IEEE 754 binary64 with round-to-nearest-even, on the
    executable specification of the standard library ([SpecFloat]), with the
    conversions and the [math] functions the sources use, and the facts about
    signs, ordering, validity and exactness that the components rely on. *)
From Stdlib Require Import ZArith Lia SpecFloat.
From S2P Require Import Prelude.
From stdpp Require Import base list numbers.
Open Scope Z_scope.

Definition prec : Z := 53.
Definition emax : Z := 1024.

Abbreviation float64 := spec_float.

Definition fadd : float64 -> float64 -> float64 := SFadd prec emax.
Definition fsub : float64 -> float64 -> float64 := SFsub prec emax.
Definition fmul : float64 -> float64 -> float64 := SFmul prec emax.
Definition fdiv : float64 -> float64 -> float64 := SFdiv prec emax.

(** [a < b], [a <= b], [a > b], [a >= b], [a == b]: all false on NaN. *)
Definition fltb (a b : float64) : bool := SFltb a b.
Definition fleb (a b : float64) : bool := SFleb a b.
Definition fgtb (a b : float64) : bool := SFltb b a.
Definition fgeb (a b : float64) : bool := SFleb b a.
Definition feqb (a b : float64) : bool := SFeqb a b.

(** [float64(z)] for an integer [z]. *)
Definition f_of_Z (z : Z) : float64 := binary_normalize prec emax z 0 false.

(** A constant [n / d] of the source, for [n] and [d] exactly representable. *)
Definition f_const (n d : Z) : float64 := fdiv (f_of_Z n) (f_of_Z d).

Definition f0 : float64 := f_of_Z 0.
Definition f1 : float64 := f_of_Z 1.

(** Truncation toward zero of a finite value. *)
Definition f_trunc (x : float64) : option Z :=
  match x with
  | S754_zero _ => Some 0
  | S754_finite s m e => Some (cond_Zopp s (Z.shiftl (Zpos m) e))
  | _ => None
  end.

(** [int64(x)]: the fractional part is dropped; for NaN, the infinities and the
    values outside the range the language leaves the result to the
    implementation, so it is a parameter of the model. *)
Class Arch := {
  cvt_oob : float64 -> Z;
  cvt_oob_range : forall x, in_int64 (cvt_oob x)
}.

Definition f_to_int64 `{Arch} (x : float64) : Z :=
  match f_trunc x with
  | Some z => if in_int64b z then z else cvt_oob x
  | None => cvt_oob x
  end.

(** The two common architectures: amd64 returns the "integer indefinite" value,
    arm64 saturates and sends NaN to zero. *)
#[local] Instance amd64 : Arch.
Proof. refine {| cvt_oob := fun _ => int64_min |}. abstract (intros _; done). Defined.

Definition arm64_oob (x : float64) : Z :=
  match x with
  | S754_nan => 0
  | S754_infinity s | S754_finite s _ _ | S754_zero s => if s then int64_min else int64_max
  end.

#[local] Instance arm64 : Arch.
Proof.
  refine {| cvt_oob := arm64_oob |}.
  abstract (intros [[]|[]| |[] ? ?]; done).
Defined.

Definition is_nan (x : float64) : bool := match x with S754_nan => true | _ => false end.

Definition signbit (x : float64) : bool :=
  match x with S754_zero s | S754_infinity s | S754_finite s _ _ => s | S754_nan => false end.

Definition is_inf (x : float64) (neg : bool) : bool :=
  match x with S754_infinity s => Bool.eqb s neg | _ => false end.

(** [math.Min] and [math.Max], with their special cases in order. *)
Definition math_Min (x y : float64) : float64 :=
  if is_inf x true || is_inf y true then S754_infinity true
  else if is_nan x || is_nan y then S754_nan
  else if feqb x f0 && feqb x y then (if signbit x then x else y)
  else if fltb x y then x else y.

Definition math_Max (x y : float64) : float64 :=
  if is_inf x false || is_inf y false then S754_infinity false
  else if is_nan x || is_nan y then S754_nan
  else if feqb x f0 && feqb x y then (if signbit x then y else x)
  else if fgtb x y then x else y.

(** * Ordering

    [SFcompare] is the lexicographic order of a key; on values other than NaN
    the comparisons are a total preorder. *)

Definition fkey (x : float64) : Z * Z * Z :=
  match x with
  | S754_infinity true => (-2, 0, 0)
  | S754_finite true m e => (-1, - e, - Zpos m)
  | S754_zero _ => (0, 0, 0)
  | S754_finite false m e => (1, e, Zpos m)
  | S754_infinity false => (2, 0, 0)
  | S754_nan => (0, 0, 0)
  end.

Definition key_lt (a b : Z * Z * Z) : Prop :=
  let '(a1, a2, a3) := a in let '(b1, b2, b3) := b in
  a1 < b1 \/ (a1 = b1 /\ (a2 < b2 \/ (a2 = b2 /\ a3 < b3))).

Lemma key_lt_trans a b c : key_lt a b -> key_lt b c -> key_lt a c.
Proof. destruct a as [[? ?] ?], b as [[? ?] ?], c as [[? ?] ?]; simpl; lia. Qed.

Lemma key_lt_irrefl a : ~ key_lt a a.
Proof. destruct a as [[? ?] ?]; simpl; lia. Qed.

Lemma key_lt_total a b : key_lt a b \/ a = b \/ key_lt b a.
Proof.
  destruct a as [[a1 a2] a3], b as [[b1 b2] b3]; simpl.
  destruct (Z.lt_total a1 b1) as [?|[->|?]]; [by left; lia| |by right; right; lia].
  destruct (Z.lt_total a2 b2) as [?|[->|?]]; [by left; lia| |by right; right; lia].
  destruct (Z.lt_total a3 b3) as [?|[->|?]]; [by left; lia|by right; left|by right; right; lia].
Qed.

Lemma SFcompare_key x y :
  is_nan x = false -> is_nan y = false ->
  match SFcompare x y with
  | Some Lt => key_lt (fkey x) (fkey y)
  | Some Eq => fkey x = fkey y
  | Some Gt => key_lt (fkey y) (fkey x)
  | None => False
  end.
Proof.
  destruct x as [sx|sx| |sx mx ex], y as [sy|sy| |sy my ey]; try done; intros _ _;
    try (destruct sx); try (destruct sy); simpl; try done; try lia;
    destruct (Z.compare_spec ex ey) as [->|?|?]; simpl; try lia;
    change (Pos.compare_cont Eq mx my) with (Pos.compare mx my);
    destruct (Pos.compare_spec mx my) as [->|?|?]; simpl; try done; lia.
Qed.

Lemma fltb_key x y :
  is_nan x = false -> is_nan y = false -> fltb x y = true <-> key_lt (fkey x) (fkey y).
Proof.
  intros Hx Hy. pose proof (SFcompare_key x y Hx Hy) as H. unfold fltb, SFltb.
  destruct (SFcompare x y) as [[]|]; split; try done.
  - rewrite H. intros ?%key_lt_irrefl. done.
  - intros H'. destruct (key_lt_irrefl (fkey x)). by eapply key_lt_trans.
Qed.

Lemma fleb_key x y :
  is_nan x = false -> is_nan y = false -> fleb x y = true <-> ~ key_lt (fkey y) (fkey x).
Proof.
  intros Hx Hy. pose proof (SFcompare_key x y Hx Hy) as H. unfold fleb, SFleb.
  destruct (SFcompare x y) as [[]|]; split; try done.
  - intros _. rewrite H. apply key_lt_irrefl.
  - intros _ H'. destruct (key_lt_irrefl (fkey x)). by eapply key_lt_trans.
Qed.

Lemma fltb_not_nan x y : fltb x y = true -> is_nan x = false /\ is_nan y = false.
Proof. destruct x, y; done. Qed.

Lemma fleb_not_nan x y : fleb x y = true -> is_nan x = false /\ is_nan y = false.
Proof. destruct x, y; done. Qed.

Lemma fleb_refl x : is_nan x = false -> fleb x x = true.
Proof. intros H. rewrite fleb_key by done. apply key_lt_irrefl. Qed.

Lemma fleb_trans x y z : fleb x y = true -> fleb y z = true -> fleb x z = true.
Proof.
  intros H1 H2. destruct (fleb_not_nan _ _ H1) as [Nx Ny], (fleb_not_nan _ _ H2) as [_ Nz].
  rewrite fleb_key in * by done.
  intros H. destruct (key_lt_total (fkey y) (fkey z)) as [Hlt|[Heq|Hgt]]; [|congruence|done].
  apply H1. by eapply key_lt_trans.
Qed.

Lemma fltb_fleb x y : fltb x y = true -> fleb x y = true.
Proof.
  intros H. destruct (fltb_not_nan _ _ H) as [Nx Ny]. rewrite fltb_key in H by done.
  rewrite fleb_key by done. intros H'. destruct (key_lt_irrefl (fkey x)). by eapply key_lt_trans.
Qed.

Lemma fltb_false_fleb x y :
  is_nan x = false -> is_nan y = false -> fltb x y = false <-> fleb y x = true.
Proof.
  intros Hx Hy. rewrite fleb_key by done.
  rewrite <- not_true_iff_false, fltb_key by done. done.
Qed.

Lemma fltb_fleb_trans x y z : fltb x y = true -> fleb y z = true -> fltb x z = true.
Proof.
  intros H1 H2. destruct (fltb_not_nan _ _ H1) as [Nx Ny], (fleb_not_nan _ _ H2) as [_ Nz].
  rewrite fltb_key in * by done. rewrite fleb_key in H2 by done.
  destruct (key_lt_total (fkey y) (fkey z)) as [Hlt|[<-|Hgt]]; [|done|done].
  by eapply key_lt_trans.
Qed.

Lemma fleb_fltb_trans x y z : fleb x y = true -> fltb y z = true -> fltb x z = true.
Proof.
  intros H1 H2. destruct (fleb_not_nan _ _ H1) as [Nx Ny], (fltb_not_nan _ _ H2) as [_ Nz].
  rewrite fltb_key in * by done. rewrite fleb_key in H1 by done.
  destruct (key_lt_total (fkey x) (fkey y)) as [Hlt|[->|Hgt]]; [|done|done].
  by eapply key_lt_trans.
Qed.

(** [math.Min] is a lower bound of both arguments, and one of them. *)
Lemma math_Min_spec x y :
  is_nan x = false -> is_nan y = false ->
  fleb (math_Min x y) x = true /\ fleb (math_Min x y) y = true /\
  (math_Min x y = x \/ math_Min x y = y).
Proof.
  intros Hx Hy. unfold math_Min.
  destruct (is_inf x true) eqn:Ex.
  { destruct x as [|[]| |]; try done. split_and!; [done| |by left]. by destruct y as [[]|[]| |[]]. }
  destruct (is_inf y true) eqn:Ey; simpl.
  { destruct y as [|[]| |]; try done. split_and!; [|done|by right]. by destruct x as [[]|[]| |[]]. }
  rewrite Hx, Hy. simpl.
  destruct (feqb x f0 && feqb x y) eqn:E0.
  - apply andb_prop in E0 as [E1 E2].
    assert (fleb x y = true /\ fleb y x = true) as [? ?].
    { clear -E1 E2. destruct x as [[]|[]| |[]], y as [[]|[]| |[]]; done. }
    destruct (signbit x); split_and!; auto using fleb_refl.
  - destruct (fltb x y) eqn:E.
    + split_and!; auto using fleb_refl, fltb_fleb.
    + rewrite fltb_false_fleb in E by done. split_and!; auto using fleb_refl.
Qed.

Lemma math_Max_spec x y :
  is_nan x = false -> is_nan y = false ->
  fleb x (math_Max x y) = true /\ fleb y (math_Max x y) = true /\
  (math_Max x y = x \/ math_Max x y = y).
Proof.
  intros Hx Hy. unfold math_Max, fgtb. change SFltb with fltb.
  destruct (is_inf x false) eqn:Ex.
  { destruct x as [|[]| |]; try done. split_and!; [done| |by left]. by destruct y as [[]|[]| |[]]. }
  destruct (is_inf y false) eqn:Ey; simpl.
  { destruct y as [|[]| |]; try done. split_and!; [|done|by right]. by destruct x as [[]|[]| |[]]. }
  rewrite Hx, Hy. simpl.
  destruct (feqb x f0 && feqb x y) eqn:E0.
  - apply andb_prop in E0 as [E1 E2].
    assert (fleb x y = true /\ fleb y x = true) as [? ?].
    { clear -E1 E2. destruct x as [[]|[]| |[]], y as [[]|[]| |[]]; done. }
    destruct (signbit x); split_and!; auto using fleb_refl.
  - destruct (fltb y x) eqn:E.
    + split_and!; auto using fleb_refl, fltb_fleb.
    + rewrite fltb_false_fleb in E by done. split_and!; auto using fleb_refl.
Qed.

(** * Signs

    Rounding keeps the sign it is given and never produces a NaN from a
    nonnegative significand. *)

Definition fnonneg (x : float64) : bool := negb (is_nan x) && fleb f0 x.

Lemma fnonneg_cases x :
  fnonneg x = true <->
  match x with S754_zero _ => True | S754_infinity s | S754_finite s _ _ => s = false | S754_nan => False end.
Proof. destruct x as [[]|[]| |[] ? ?]; done. Qed.

Lemma shr_1_nonneg mrs : 0 <= shr_m mrs -> 0 <= shr_m (shr_1 mrs) <= shr_m mrs.
Proof. destruct mrs as [[|[p|p|]|p] r s]; simpl; lia. Qed.

Lemma iter_shr_nonneg p mrs : 0 <= shr_m mrs -> 0 <= shr_m (SpecFloat.iter_pos shr_1 p mrs).
Proof.
  revert mrs. induction p as [p IH|p IH|]; intros mrs H; simpl.
  - apply IH, IH. by apply shr_1_nonneg.
  - by apply IH, IH.
  - by apply shr_1_nonneg.
Qed.

Lemma shr_fexp_nonneg m e l : 0 <= m -> 0 <= shr_m (fst (shr_fexp prec emax m e l)).
Proof.
  intros H. unfold shr_fexp, shr.
  assert (0 <= shr_m (shr_record_of_loc m l)) by (by destruct l as [|[]]).
  destruct (fexp _ _ _ - e); simpl; auto using iter_shr_nonneg.
Qed.

Lemma round_ne_nonneg m l : 0 <= m -> 0 <= round_nearest_even m l.
Proof. destruct l as [|[]]; simpl; try case_if; lia. Qed.

Lemma round_aux_sign sx m e l :
  0 <= m ->
  is_nan (binary_round_aux prec emax sx m e l) = false /\
  signbit (binary_round_aux prec emax sx m e l) = sx.
Proof.
  intros H. unfold binary_round_aux.
  pose proof (shr_fexp_nonneg m e l H) as H1. destruct (shr_fexp _ _ m e l) as [mrs1 e1].
  pose proof (round_ne_nonneg _ (loc_of_shr_record mrs1) H1) as H2.
  pose proof (shr_fexp_nonneg _ e1 loc_Exact H2) as H3. destruct (shr_fexp _ _ _ e1 loc_Exact) as [mrs2 e2].
  simpl in *. destruct (shr_m mrs2) as [|p|p]; [done| |lia]. by case_if.
Qed.

Lemma normalize_nonneg m e : 0 <= m -> fnonneg (binary_normalize prec emax m e false) = true.
Proof.
  intros H. destruct m as [|p|p]; [done| |lia]. simpl. unfold binary_round.
  destruct (shl_align _ _ _) as [mz ez].
  destruct (round_aux_sign false (Zpos mz) ez loc_Exact) as [H1 H2]; [lia|].
  apply fnonneg_cases. by destruct (binary_round_aux _ _ _ _ _ _) as [|[]| |[]].
Qed.

Lemma f_of_Z_nonneg z : 0 <= z -> fnonneg (f_of_Z z) = true.
Proof. apply normalize_nonneg. Qed.

Lemma fadd_nonneg x y : fnonneg x = true -> fnonneg y = true -> fnonneg (fadd x y) = true.
Proof.
  rewrite !(fnonneg_cases x), !(fnonneg_cases y).
  destruct x as [[]|sx| |sx mx ex], y as [[]|sy| |sy my ey]; intros; subst; try done.
  unfold fadd. cbn -[binary_normalize shl_align Z.min]. by apply normalize_nonneg.
Qed.

Lemma fmul_nonneg x y :
  fnonneg x = true -> fnonneg y = true -> is_nan (fmul x y) = false -> fnonneg (fmul x y) = true.
Proof.
  rewrite !(fnonneg_cases x), !(fnonneg_cases y).
  destruct x as [[]|sx| |sx mx ex], y as [[]|sy| |sy my ey]; intros; subst; try done.
  unfold fmul in *; simpl in *.
  destruct (round_aux_sign false (Zpos (mx * my)) (ex + ey) loc_Exact) as [H1' H2]; [lia|].
  apply fnonneg_cases. by destruct (binary_round_aux _ _ _ _ _ _) as [|[]| |[]].
Qed.

(** * Rounding: shifts, digits, validity *)

Definition fvalid (x : float64) : Prop := valid_binary prec emax x = true.

(** The least exponent of the format, [-1074]. *)
Definition emin64 : Z := -1074.

Lemma fexp_eq x : SpecFloat.fexp prec emax x = Z.max (x - 53) emin64.
Proof. unfold SpecFloat.fexp, SpecFloat.emin, prec, emax, emin64. lia. Qed.

Lemma digits2_pos_bounds p :
  2 ^ (Zpos (digits2_pos p) - 1) <= Zpos p < 2 ^ Zpos (digits2_pos p).
Proof.
  assert (forall q, 2 ^ Zpos (digits2_pos q) = 2 * 2 ^ (Zpos (digits2_pos q) - 1)) as Hd.
  { intros q. rewrite <- Z.pow_succ_r by lia. f_equal. lia. }
  induction p as [p IH|p IH|]; simpl digits2_pos; [| |done];
    replace (Zpos (Pos.succ (digits2_pos p)) - 1) with (Zpos (digits2_pos p)) by lia;
    rewrite Pos2Z.inj_succ, Z.pow_succ_r by lia; rewrite (Hd p) in *; lia.
Qed.

Lemma Zdigits2_bounds m :
  0 < m -> 0 < Zdigits2 m /\ 2 ^ (Zdigits2 m - 1) <= m < 2 ^ Zdigits2 m.
Proof. intros H. destruct m as [|p|p]; try lia. split; [done|]. apply digits2_pos_bounds. Qed.

(** The digits are determined by the bounds. *)
Lemma Zdigits2_unique m d : 0 < m -> 2 ^ (d - 1) <= m < 2 ^ d -> Zdigits2 m = d.
Proof.
  intros Hm [Hl Hu]. destruct (Zdigits2_bounds m Hm) as (Hd & Hl' & Hu').
  assert (0 <= d) by (destruct (decide (d < 0)); [rewrite (Z.pow_neg_r 2 d) in Hu by lia|]; lia).
  assert (d - 1 < Zdigits2 m) by (apply (Z.pow_lt_mono_r_iff 2); lia).
  assert (Zdigits2 m - 1 < d) by (apply (Z.pow_lt_mono_r_iff 2); lia). lia.
Qed.

Lemma shr_1_div mrs : 0 <= shr_m mrs -> shr_m (shr_1 mrs) = shr_m mrs / 2.
Proof.
  destruct mrs as [[|[p|p|]|p] r s]; simpl; intros; try done; try lia.
  - rewrite (Pos2Z.inj_xI p). apply Z.div_unique with 1; lia.
  - rewrite (Pos2Z.inj_xO p). apply Z.div_unique with 0; lia.
Qed.

Lemma iter_pos_nat {A} (f : A -> A) p x : SpecFloat.iter_pos f p x = Nat.iter (Pos.to_nat p) f x.
Proof.
  revert x. induction p as [p IH|p IH|]; intros x; cbn [SpecFloat.iter_pos]; [| |done]; rewrite !IH.
  - rewrite Pos2Nat.inj_xI, Nat.iter_succ_r.
    replace (2 * Pos.to_nat p)%nat with (Pos.to_nat p + Pos.to_nat p)%nat by lia. by rewrite Nat.iter_add.
  - rewrite Pos2Nat.inj_xO.
    replace (2 * Pos.to_nat p)%nat with (Pos.to_nat p + Pos.to_nat p)%nat by lia. by rewrite Nat.iter_add.
Qed.

Lemma iter_shr_div n mrs :
  0 <= shr_m mrs ->
  0 <= shr_m (Nat.iter n shr_1 mrs) /\ shr_m (Nat.iter n shr_1 mrs) = shr_m mrs / 2 ^ Z.of_nat n.
Proof.
  intros H. induction n as [|n [IH1 IH2]]; [simpl; rewrite Z.div_1_r; auto|].
  rewrite Nat2Z.inj_succ, Z.pow_succ_r by lia. rewrite Nat.iter_succ.
  split; [by apply shr_1_nonneg|].
  rewrite shr_1_div by done. rewrite IH2, Z.div_div by lia. f_equal. lia.
Qed.

(** Shifting out zeros is exact. *)
Lemma iter_shr_exact n q :
  0 <= q ->
  Nat.iter n shr_1 (Build_shr_record (q * 2 ^ Z.of_nat n) false false) = Build_shr_record q false false.
Proof.
  intros Hq. revert q Hq. induction n as [|n IH]; intros q Hq; [simpl; f_equal; lia|].
  rewrite Nat2Z.inj_succ, Z.pow_succ_r by lia.
  rewrite Nat.iter_succ_r.
  replace (shr_1 _) with (Build_shr_record (q * 2 ^ Z.of_nat n) false false); [by apply IH|].
  replace (q * (2 * 2 ^ Z.of_nat n)) with (2 * (q * 2 ^ Z.of_nat n)) by lia.
  assert (0 <= q * 2 ^ Z.of_nat n) by lia.
  by destruct (q * 2 ^ Z.of_nat n) as [|p|p]; [| |lia].
Qed.

Lemma shr_record_m m l : shr_m (shr_record_of_loc m l) = m.
Proof. by destruct l as [|[]]. Qed.

(** One normalisation shift, when the exponent is not above the target. *)
Lemma shr_fexp_spec m e l :
  0 <= m -> e <= SpecFloat.fexp prec emax (Zdigits2 m + e) ->
  let e' := SpecFloat.fexp prec emax (Zdigits2 m + e) in
  shr_m (fst (shr_fexp prec emax m e l)) = m / 2 ^ (e' - e) /\
  snd (shr_fexp prec emax m e l) = e'.
Proof.
  intros Hm He e'. subst e'. unfold shr_fexp, shr.
  set (e' := SpecFloat.fexp _ _ _) in *.
  destruct (e' - e) as [|p|p] eqn:En; [|clear He|lia]; simpl fst; simpl snd.
  - rewrite shr_record_m, Z.div_1_r. split; [done|lia].
  - rewrite iter_pos_nat.
    destruct (iter_shr_div (Pos.to_nat p) (shr_record_of_loc m l)) as [_ ->]; [by rewrite shr_record_m|].
    rewrite shr_record_m, positive_nat_Z. split; [done|lia].
Qed.

(** A significand and exponent in the format: at most 53 digits, and exactly 53
    above the subnormal exponent. *)
Definition canon (m e : Z) : Prop :=
  0 <= m < 2 ^ 53 /\ emin64 <= e /\ (e = emin64 \/ 2 ^ 52 <= m).

Lemma shr_fexp_canon m e l :
  0 <= m -> e <= SpecFloat.fexp prec emax (Zdigits2 m + e) ->
  canon (shr_m (fst (shr_fexp prec emax m e l))) (snd (shr_fexp prec emax m e l)).
Proof.
  intros Hm He. destruct (shr_fexp_spec m e l Hm He) as [-> ->]. rewrite fexp_eq in *.
  destruct (decide (m = 0)) as [->|Hnz].
  { simpl Zdigits2 in *. rewrite Z.div_0_l by (apply Z.pow_nonzero; lia). unfold canon. lia. }
  destruct (Zdigits2_bounds m) as (Hd & Hl & Hu); [lia|].
  set (d := Zdigits2 m) in *. remember (Z.max (d + e - 53) emin64) as e' eqn:He'.
  assert (0 <= e' - e) by lia.
  assert (emin64 = -1074) as Hemin by done.
  assert (0 < 2 ^ (e' - e)) by (apply Z.pow_pos_nonneg; lia). split; [|split; [lia|]].
  - split; [apply Z.div_pos; lia|]. apply Z.div_lt_upper_bound; [lia|].
    rewrite <- Z.pow_add_r by lia. eapply Z.lt_le_trans; [exact Hu|]. apply Z.pow_le_mono_r; lia.
  - destruct (decide (e' = emin64)) as [|Hne]; [by left|right].
    apply Z.div_le_lower_bound; [lia|]. rewrite <- Z.pow_add_r by lia.
    eapply Z.le_trans; [|exact Hl]. apply Z.pow_le_mono_r; lia.
Qed.

Lemma canon_digits m e :
  canon m e -> 0 < m -> SpecFloat.fexp prec emax (Zdigits2 m + e) = e.
Proof.
  intros (Hm & He & Hc) Hpos. rewrite fexp_eq.
  destruct (Zdigits2_bounds m) as (Hd & Hl & Hu); [lia|].
  assert (Zdigits2 m <= 53).
  { assert (Zdigits2 m - 1 < 53); [|lia]. apply (Z.pow_lt_mono_r_iff 2); lia. }
  destruct Hc as [->|Hc]; [lia|].
  assert (52 < Zdigits2 m) by (apply (Z.pow_lt_mono_r_iff 2); lia). lia.
Qed.

Lemma canon_valid s p e : canon (Zpos p) e -> e <= 971 -> fvalid (S754_finite s p e).
Proof.
  intros Hc He. unfold fvalid, valid_binary, bounded, canonical_mantissa.
  pose proof (canon_digits _ _ Hc ltac:(lia)) as H. simpl Zdigits2 in H. rewrite H.
  unfold emax, prec. lia.
Qed.

Lemma valid_canon s p e : fvalid (S754_finite s p e) -> canon (Zpos p) e /\ e <= 971.
Proof.
  unfold fvalid, valid_binary, bounded, canonical_mantissa. intros H. bool_to_prop.
  unfold emax, prec in *.
  pose proof (fexp_eq (Zpos (digits2_pos p) + e)) as Hf. unfold prec, emax in Hf. rewrite Hf in H. clear Hf.
  pose proof (digits2_pos_bounds p) as [Hl Hu].
  split; [|lia]. split; [|split; [lia|]].
  - split; [lia|]. eapply Z.lt_le_trans; [exact Hu|]. apply Z.pow_le_mono_r; lia.
  - destruct (decide (e = emin64)) as [|Hne]; [by left|right].
    eapply Z.le_trans; [|exact Hl]. apply Z.pow_le_mono_r; lia.
Qed.

Lemma round_ne_bounds m l : m <= round_nearest_even m l <= m + 1.
Proof. destruct l as [|[]]; simpl; try case_if; lia. Qed.

(** The second normalisation of [binary_round_aux] keeps a canonical significand
    and brings the one carry case back into the format. *)
Lemma renorm_canon m e :
  (canon m e /\ 0 < m) \/ (m = 2 ^ 53 /\ emin64 <= e) ->
  let mrs := shr_fexp prec emax m e loc_Exact in
  exists p e', shr_m (fst mrs) = Zpos p /\ snd mrs = e' /\ canon (Zpos p) e' /\
    (canon m e /\ 0 < m -> Zpos p = m /\ e' = e).
Proof.
  intros Hcase mrs. subst mrs.
  assert (Hd : e <= SpecFloat.fexp prec emax (Zdigits2 m + e)).
  { destruct Hcase as [[Hc Hm]|[-> He]]; [rewrite (canon_digits _ _ Hc Hm); lia|].
    rewrite fexp_eq. change (Zdigits2 (2 ^ 53)) with 54. lia. }
  assert (0 <= m) as Hm0 by (destruct Hcase as [[_ ?]|[-> _]]; lia).
  pose proof (shr_fexp_canon m e loc_Exact Hm0 Hd) as Hcan.
  destruct (shr_fexp_spec m e loc_Exact Hm0 Hd) as [Hsm Hse].
  assert (0 < shr_m (fst (shr_fexp prec emax m e loc_Exact))) as Hpos.
  { rewrite Hsm. destruct Hcase as [[Hc Hm]|[-> He]].
    - rewrite (canon_digits _ _ Hc Hm), Z.sub_diag, Z.div_1_r. done.
    - rewrite fexp_eq. change (Zdigits2 (2 ^ 53)) with 54.
      replace (Z.max (54 + e - 53) emin64 - e) with 1 by lia. done. }
  destruct (shr_m (fst (shr_fexp _ _ m e loc_Exact))) as [|p|p] eqn:Ep; try lia.
  exists p, (snd (shr_fexp prec emax m e loc_Exact)). split_and!; auto.
  intros [Hc Hm]. rewrite Hsm, Hse, (canon_digits _ _ Hc Hm), Z.sub_diag, Z.div_1_r. done.
Qed.

Lemma round_aux_valid s m e l :
  0 <= m -> e <= SpecFloat.fexp prec emax (Zdigits2 m + e) ->
  fvalid (binary_round_aux prec emax s m e l).
Proof.
  intros Hm He. unfold binary_round_aux.
  pose proof (shr_fexp_canon m e l Hm He) as Hc.
  destruct (shr_fexp _ _ m e l) as [mrs1 e1]. simpl in Hc.
  set (m2 := round_nearest_even _ _).
  pose proof (round_ne_bounds (shr_m mrs1) (loc_of_shr_record mrs1)) as Hb. fold m2 in Hb.
  destruct (decide (m2 = 0)) as [->|Hnz].
  { pose proof (shr_fexp_nonneg 0 e1 loc_Exact) as H0.
    destruct Hc as ((Hc1 & _) & Hc2 & [->|Hc3]); [|lia]. vm_compute. done. }
  destruct Hc as ((Hc1 & Hc2) & Hc3 & Hc4).
  destruct (renorm_canon m2 e1) as (p & e' & Hp & He' & Hcan & _).
  { destruct (decide (m2 = 2 ^ 53)); [by right|left]. unfold canon. lia. }
  destruct (shr_fexp _ _ m2 e1 loc_Exact) as [mrs2 e2]. simpl in *. subst e2. rewrite Hp.
  case_if; [|done]. unfold emax, prec in E. apply canon_valid; [done|lia].
Qed.

(** * Validity of the operations *)

Lemma iter_xO p k : Zpos (Pos.iter xO p k) = Zpos p * 2 ^ Zpos k.
Proof.
  rewrite Pos2Nat.inj_iter, <- (positive_nat_Z k).
  induction (Pos.to_nat k) as [|n IH]; [cbn; lia|].
  cbn [nat_rect]. rewrite Nat2Z.inj_succ, Z.pow_succ_r, Pos2Z.inj_xO, IH by lia. lia.
Qed.

Lemma shl_align_spec m e e' :
  let '(mz, ez) := shl_align m e e' in
  ez = Z.min e e' /\ Zpos mz = Zpos m * 2 ^ (e - Z.min e e').
Proof.
  unfold shl_align. destruct (e' - e) as [|d|d] eqn:Ed.
  - rewrite Z.min_l, Z.sub_diag by lia. lia.
  - rewrite Z.min_l, Z.sub_diag by lia. lia.
  - rewrite Z.min_r, iter_xO by lia. split; [done|]. do 2 f_equal. lia.
Qed.

Lemma Zdigits2_mul_pow2 m k : 0 < m -> 0 <= k -> Zdigits2 (m * 2 ^ k) = Zdigits2 m + k.
Proof.
  intros Hm Hk. destruct (Zdigits2_bounds m Hm) as (Hd & Hl & Hu).
  assert (0 < 2 ^ k) by (apply Z.pow_pos_nonneg; lia).
  apply Zdigits2_unique; [lia|].
  replace (Zdigits2 m + k - 1) with (Zdigits2 m - 1 + k) by lia.
  rewrite !Z.pow_add_r by lia. nia.
Qed.

Lemma Zdigits2_ge m k : 0 <= m -> (0 < k -> 2 ^ (k - 1) <= m) -> k <= Zdigits2 m.
Proof.
  intros Hm H. destruct (decide (k <= 0)) as [|Hk].
  { destruct m as [|p|p]; simpl; lia. }
  specialize (H ltac:(lia)). assert (0 < 2 ^ (k - 1)) by (apply Z.pow_pos_nonneg; lia).
  destruct (Zdigits2_bounds m) as (Hd & Hl & Hu); [lia|].
  assert (k - 1 < Zdigits2 m); [|lia]. apply (Z.pow_lt_mono_r_iff 2); lia.
Qed.

Lemma binary_round_valid s m e : fvalid (binary_round prec emax s m e).
Proof.
  unfold binary_round. pose proof (shl_align_spec m e (SpecFloat.fexp prec emax (Zpos (digits2_pos m) + e))) as H.
  destruct (shl_align _ _ _) as [mz ez]. destruct H as [-> Hz].
  apply round_aux_valid; [lia|]. rewrite Hz, Zdigits2_mul_pow2 by lia. simpl Zdigits2.
  rewrite !fexp_eq. lia.
Qed.

Lemma normalize_valid m e : fvalid (binary_normalize prec emax m e false).
Proof. destruct m; [done|apply binary_round_valid..]. Qed.

Lemma f_of_Z_valid z : fvalid (f_of_Z z).
Proof. apply normalize_valid. Qed.

Lemma fadd_valid x y : fvalid x -> fvalid y -> fvalid (fadd x y).
Proof.
  intros Hx Hy. unfold fadd.
  destruct x as [[]|[]| |? ? ?], y as [[]|[]| |? ? ?]; try done. apply normalize_valid.
Qed.

Lemma fsub_valid x y : fvalid x -> fvalid y -> fvalid (fsub x y).
Proof.
  intros Hx Hy. unfold fsub.
  destruct x as [[]|[]| |? ? ?], y as [[]|[]| |? ? ?]; try done. apply normalize_valid.
Qed.

(** The exact product of two valid significands has enough digits. *)
Lemma fmul_fexp mx ex my ey sx sy :
  fvalid (S754_finite sx mx ex) -> fvalid (S754_finite sy my ey) ->
  ex + ey <= SpecFloat.fexp prec emax (Zdigits2 (Zpos mx * Zpos my) + (ex + ey)).
Proof.
  intros Hx Hy.
  destruct (valid_canon _ _ _ Hx) as [(Hx1 & Hx2 & Hx3) _], (valid_canon _ _ _ Hy) as [(Hy1 & Hy2 & Hy3) _].
  rewrite fexp_eq.
  assert (forall k, (0 < k -> 2 ^ (k - 1) <= Zpos mx * Zpos my) -> k <= Zdigits2 (Zpos mx * Zpos my)) as Hd
    by (intros; apply Zdigits2_ge; lia).
  destruct Hx3 as [->|Hx3].
  - destruct Hy3 as [->|Hy3]; [unfold emin64; lia|].
    specialize (Hd 53). change (2 ^ (53 - 1)) with (2 ^ 52) in Hd. nia.
  - specialize (Hd 53). change (2 ^ (53 - 1)) with (2 ^ 52) in Hd. nia.
Qed.

Lemma fmul_valid x y : fvalid x -> fvalid y -> fvalid (fmul x y).
Proof.
  intros Hx Hy. unfold fmul.
  destruct x as [[]|[]| |sx mx ex], y as [[]|[]| |sy my ey]; try done.
  simpl. apply round_aux_valid; [lia|]. rewrite Pos2Z.inj_mul. by apply (fmul_fexp mx ex my ey sx sy).
Qed.

Lemma fdiv_core_bound m1 e1 m2 e2 :
  0 < m1 -> 0 < m2 ->
  let '(q, e', _) := SFdiv_core_binary prec emax m1 e1 m2 e2 in
  0 <= q /\ e' <= SpecFloat.fexp prec emax (Zdigits2 q + e').
Proof.
  intros H1 H2. unfold SFdiv_core_binary.
  set (e' := Z.min _ _). assert (He' : e' <= e1 - e2) by (unfold e'; lia).
  assert (He'' : e' <= SpecFloat.fexp prec emax (Zdigits2 m1 + e1 - (Zdigits2 m2 + e2))) by (unfold e'; lia).
  clearbody e'. set (m' := match e1 - e2 - e' with Z0 => m1 | Zpos _ => Z.shiftl m1 (e1 - e2 - e') | Zneg _ => 0 end).
  assert (m' = m1 * 2 ^ (e1 - e2 - e')) as Hm'.
  { unfold m'. destruct (e1 - e2 - e') eqn:E; [simpl; lia|rewrite Z.shiftl_mul_pow2; lia|lia]. }
  clearbody m'. pose proof (Z_div_mod m' m2 ltac:(lia)) as Hdm.
  destruct (Z.div_eucl m' m2) as [q r]. destruct Hdm as [Hq Hr].
  assert (0 < 2 ^ (e1 - e2 - e')) by (apply Z.pow_pos_nonneg; lia).
  assert (0 <= q) by nia. split; [done|].
  destruct (Zdigits2_bounds m1 H1) as (Hd1 & Hl1 & Hu1), (Zdigits2_bounds m2 H2) as (Hd2 & Hl2 & Hu2).
  assert (Zdigits2 m1 + (e1 - e2 - e') - Zdigits2 m2 <= Zdigits2 q).
  { apply Zdigits2_ge; [done|]. intros Hk.
    set (k := Zdigits2 m1 + (e1 - e2 - e') - Zdigits2 m2) in *.
    assert (2 ^ (k - 1) * 2 ^ Zdigits2 m2 <= m').
    { rewrite <- Z.pow_add_r by lia. replace (k - 1 + Zdigits2 m2) with (Zdigits2 m1 - 1 + (e1 - e2 - e')) by lia.
      rewrite Z.pow_add_r, Hm' by lia. nia. }
    assert (0 < 2 ^ (k - 1)) by (apply Z.pow_pos_nonneg; lia). nia. }
  rewrite !fexp_eq in *. lia.
Qed.

Lemma fdiv_valid x y : fvalid x -> fvalid y -> fvalid (fdiv x y).
Proof.
  intros Hx Hy. unfold fdiv.
  destruct x as [[]|[]| |sx mx ex], y as [[]|[]| |sy my ey]; try done.
  cbn -[SFdiv_core_binary]. pose proof (fdiv_core_bound (Zpos mx) ex (Zpos my) ey) as H.
  destruct (SFdiv_core_binary _ _ _ _ _ _) as [[q e'] l]. apply round_aux_valid; apply H; lia.
Qed.

#[export] Hint Resolve f_of_Z_valid fadd_valid fsub_valid fmul_valid fdiv_valid
  f_of_Z_nonneg fadd_nonneg fleb_refl : lulu.

Lemma fdiv_nonneg x y :
  fnonneg x = true -> fnonneg y = true -> is_nan (fdiv x y) = false -> signbit x = false ->
  signbit y = false -> fnonneg (fdiv x y) = true.
Proof.
  rewrite !(fnonneg_cases x), !(fnonneg_cases y).
  destruct x as [[]|sx| |sx mx ex], y as [[]|sy| |sy my ey]; intros; simpl in *; subst; try done.
  unfold fdiv in *. cbn -[SFdiv_core_binary] in *. pose proof (fdiv_core_bound (Zpos mx) ex (Zpos my) ey) as Hb.
  destruct (SFdiv_core_binary _ _ _ _ _ _) as [[q e'] l].
  destruct (round_aux_sign false q e' l) as [Hnn Hsg]; [apply Hb; lia|].
  apply fnonneg_cases. by destruct (binary_round_aux _ _ _ _ _ _) as [|[]| |[]].
Qed.

(** Subtracting a smaller value leaves a nonnegative one. *)
Lemma canon_order m1 e1 m2 e2 :
  canon m1 e1 -> canon m2 e2 -> e1 < e2 -> m1 < m2 * 2 ^ (e2 - e1).
Proof.
  intros (H1 & H2 & H3) (H4 & H5 & H6) He. destruct H6 as [->|H6]; [lia|].
  apply Z.lt_le_trans with (2 ^ 52 * 2 ^ 1); [simpl; lia|].
  assert (2 ^ 1 <= 2 ^ (e2 - e1)) by (apply Z.pow_le_mono_r; lia). nia.
Qed.

Lemma aligned_order mx ex my ey :
  fvalid (S754_finite false mx ex) -> fvalid (S754_finite false my ey) ->
  fleb (S754_finite false my ey) (S754_finite false mx ex) = true ->
  Zpos (fst (shl_align my ey (Z.min ex ey))) <= Zpos (fst (shl_align mx ex (Z.min ex ey))).
Proof.
  intros Vx Vy Hle. rewrite fleb_key in Hle by done. 
  destruct (valid_canon _ _ _ Vx) as [Cx _], (valid_canon _ _ _ Vy) as [Cy _].
  pose proof (shl_align_spec mx ex (Z.min ex ey)) as Hx. pose proof (shl_align_spec my ey (Z.min ex ey)) as Hy.
  destruct (shl_align mx _ _) as [px e1], (shl_align my _ _) as [py e2]. destruct Hx as [_ Hx], Hy as [_ Hy].
  simpl. rewrite Hx, Hy. simpl in Hle.
  replace (Z.min ex (Z.min ex ey)) with (Z.min ex ey) by lia.
  replace (Z.min ey (Z.min ex ey)) with (Z.min ex ey) by lia.
  destruct (Z.lt_total ex ey) as [Hlt|[->|Hgt]].
  - lia.
  - rewrite Z.min_id, Z.sub_diag. lia.
  - pose proof (canon_order _ _ _ _ Cy Cx Hgt). rewrite (Z.min_r ex ey), Z.sub_diag by lia. lia.
Qed.

Lemma fsub_nonneg x y :
  fvalid x -> fvalid y -> fnonneg x = true -> fnonneg y = true -> fleb y x = true ->
  is_nan (fsub x y) = false -> fnonneg (fsub x y) = true.
Proof.
  intros Vx Vy. rewrite !(fnonneg_cases x), !(fnonneg_cases y).
  destruct x as [[]|sx| |sx mx ex], y as [[]|sy| |sy my ey]; intros Sx Sy Hle Hn; subst; try done.
  clear Hn. pose proof (aligned_order _ _ _ _ Vx Vy Hle). unfold fsub.
  cbn -[binary_normalize shl_align Z.min]. apply normalize_nonneg. simpl. lia.
Qed.

(** Zero or below. *)
Definition fnonpos (x : float64) : bool := negb (is_nan x) && fleb x f0.

Lemma fnonpos_sign x : is_nan x = false -> signbit x = true -> fnonpos x = true.
Proof. by destruct x as [[]|[]| |[]]. Qed.

Lemma fsub_nonpos x y :
  fvalid x -> fvalid y -> fnonneg x = true -> fnonneg y = true -> fleb x y = true ->
  is_nan (fsub x y) = false -> fnonpos (fsub x y) = true.
Proof.
  intros Vx Vy. rewrite !(fnonneg_cases x), !(fnonneg_cases y).
  destruct x as [[]|sx| |sx mx ex], y as [[]|sy| |sy my ey]; intros Sx Sy Hle Hn; subst; try done.
  clear Hn. pose proof (aligned_order _ _ _ _ Vy Vx Hle) as Ho. rewrite (Z.min_comm ey ex) in Ho. unfold fsub.
  cbn -[binary_normalize shl_align Z.min].
  destruct (_ - _) as [|p|p] eqn:E; [done|simpl in E; lia|]. simpl. unfold binary_round.
  destruct (shl_align p _ _) as [mz ez]. destruct (round_aux_sign true (Zpos mz) ez loc_Exact); [lia|].
  by apply fnonpos_sign.
Qed.

Lemma fdiv_nonpos x y :
  fnonpos x = true -> fnonneg y = true -> is_nan (fdiv x y) = false -> signbit y = false ->
  fnonpos (fdiv x y) = true.
Proof.
  rewrite !(fnonneg_cases y).
  destruct x as [[]|[]| |[] mx ex], y as [[]|[]| |[] my ey]; intros; simpl in *; try done.
  unfold fdiv in *. cbn -[SFdiv_core_binary] in *. pose proof (fdiv_core_bound (Zpos mx) ex (Zpos my) ey) as Hb.
  destruct (SFdiv_core_binary _ _ _ _ _ _) as [[q e'] l].
  destruct (round_aux_sign true q e' l) as [Hnn Hsg]; [apply Hb; lia|]. by apply fnonpos_sign.
Qed.

(** * Exact results

    [frep x n k]: the value of [x] is [n * 2^k], a nonnegative dyadic.  While
    the integers stay below [2^53] the operations are exact, so integer
    reasoning applies to the floating-point code. *)

Definition frep (x : float64) (n k : Z) : Prop :=
  emin64 <= k /\
  match x with
  | S754_zero _ => n = 0
  | S754_finite s m e => s = false /\ emin64 <= e /\ Zpos m * 2 ^ (e - emin64) = n * 2 ^ (k - emin64)
  | _ => False
  end.

Lemma frep_nonneg x n k : frep x n k -> 0 <= n /\ is_nan x = false /\ fnonneg x = true.
Proof.
  intros [Hk H]. destruct x as [s| | |s m e]; try done.
  - subst n. by destruct s.
  - destruct H as (-> & He & H). split; [|done].
    assert (0 < 2 ^ (k - emin64)) by (apply Z.pow_pos_nonneg; lia).
    assert (0 < 2 ^ (e - emin64)) by (apply Z.pow_pos_nonneg; lia). nia.
Qed.

(** Rounding does nothing when only zeros are shifted out. *)
Lemma round_aux_exact s q e e' :
  0 < q -> canon q e' -> e <= e' -> e' <= 971 ->
  binary_round_aux prec emax s (q * 2 ^ (e' - e)) e loc_Exact = S754_finite s (Z.to_pos q) e'.
Proof.
  intros Hq Hc Hle Hmax. unfold binary_round_aux.
  assert (SpecFloat.fexp prec emax (Zdigits2 (q * 2 ^ (e' - e)) + e) = e') as Hf.
  { rewrite Zdigits2_mul_pow2 by lia. replace (Zdigits2 q + (e' - e) + e) with (Zdigits2 q + e') by lia.
    by apply canon_digits. }
  assert (shr_fexp prec emax (q * 2 ^ (e' - e)) e loc_Exact = (Build_shr_record q false false, e')) as ->.
  { unfold shr_fexp, shr. rewrite Hf. simpl shr_record_of_loc.
    destruct (e' - e) as [|p|p] eqn:E; [f_equal; [f_equal|]; lia| |lia].
    rewrite iter_pos_nat, <- (positive_nat_Z p), iter_shr_exact, positive_nat_Z by lia. f_equal. lia. }
  simpl. unfold shr_fexp, shr. rewrite (canon_digits q e' Hc Hq), Z.sub_diag. simpl.
  destruct q as [|p|p]; try lia. unfold emax, prec. case_if; [done|lia].
Qed.

(** A dyadic with at most 53 bits fits the format at the exponent [fexp] gives. *)
Lemma dyadic_fit n k :
  0 < n < 2 ^ 53 -> emin64 <= k <= 900 ->
  let e0 := SpecFloat.fexp prec emax (Zdigits2 n + k) in
  e0 <= k /\ emin64 <= e0 <= 971 /\ canon (n * 2 ^ (k - e0)) e0.
Proof.
  intros Hn Hk e0. subst e0. rewrite fexp_eq.
  destruct (Zdigits2_bounds n) as (Hd & Hl & Hu); [lia|].
  assert (Zdigits2 n - 1 < 53) by (apply (Z.pow_lt_mono_r_iff 2); lia).
  remember (Z.max (Zdigits2 n + k - 53) emin64) as e0 eqn:He0.
  split; [lia|]. split; [unfold emin64 in *; lia|].
  assert (0 < 2 ^ (k - e0)) by (apply Z.pow_pos_nonneg; lia).
  split; [|split; [lia|]].
  - split; [nia|]. apply Z.lt_le_trans with (2 ^ Zdigits2 n * 2 ^ (k - e0)); [nia|].
    rewrite <- Z.pow_add_r by lia. apply Z.pow_le_mono_r; lia.
  - destruct (decide (e0 = emin64)) as [|Hne]; [by left|right].
    apply Z.le_trans with (2 ^ (Zdigits2 n - 1) * 2 ^ (k - e0)); [|nia].
    rewrite <- Z.pow_add_r by lia. apply Z.pow_le_mono_r; lia.
Qed.

Lemma pow2_split a b : 0 <= a -> 0 <= b -> 2 ^ (a + b) = 2 ^ a * 2 ^ b.
Proof. intros. by apply Z.pow_add_r. Qed.

(** Rounding [m * 2^e] when it equals a dyadic that fits. *)
Lemma round_aux_rep m e n k :
  0 < n < 2 ^ 53 -> emin64 <= k <= 900 -> e <= k -> m = n * 2 ^ (k - e) ->
  e <= SpecFloat.fexp prec emax (Zdigits2 n + k) ->
  frep (binary_round_aux prec emax false m e loc_Exact) n k.
Proof.
  intros Hn Hk Hek -> He. destruct (dyadic_fit n k Hn Hk) as (H1 & H2 & H3).
  set (e0 := SpecFloat.fexp prec emax (Zdigits2 n + k)) in *. clearbody e0.
  assert (0 < 2 ^ (k - e0)) by (apply Z.pow_pos_nonneg; lia).
  replace (n * 2 ^ (k - e)) with (n * 2 ^ (k - e0) * 2 ^ (e0 - e))
    by (rewrite <- Z.mul_assoc, <- Z.pow_add_r by lia; do 2 f_equal; lia).
  rewrite round_aux_exact by (try done; nia). split; [lia|]. split; [done|]. split; [lia|].
  rewrite Z2Pos.id by nia. rewrite <- Z.mul_assoc, <- Z.pow_add_r by lia. do 2 f_equal. lia.
Qed.

(** The common scale of two representable values. *)
Lemma frep_align m e n k ez :
  emin64 <= ez -> ez <= e -> ez <= k -> m * 2 ^ (e - emin64) = n * 2 ^ (k - emin64) ->
  m * 2 ^ (e - ez) = n * 2 ^ (k - ez).
Proof.
  intros Hz He Hk H. apply (Z.mul_reg_r _ _ (2 ^ (ez - emin64))); [apply Z.pow_nonzero; lia|].
  replace (e - emin64) with (e - ez + (ez - emin64)) in H by lia.
  replace (k - emin64) with (k - ez + (ez - emin64)) in H by lia.
  rewrite !pow2_split in H by lia. lia.
Qed.

Lemma binary_round_rep m e n k :
  emin64 <= e -> Zpos m * 2 ^ (e - emin64) = n * 2 ^ (k - emin64) ->
  n < 2 ^ 53 -> emin64 <= k <= 900 -> frep (binary_round prec emax false m e) n k.
Proof.
  intros He Hv Hn Hk. unfold binary_round.
  assert (0 < n) as Hpos.
  { assert (0 < 2 ^ (e - emin64)) by (apply Z.pow_pos_nonneg; lia).
    assert (0 < 2 ^ (k - emin64)) by (apply Z.pow_pos_nonneg; lia). nia. }
  destruct (dyadic_fit n k ltac:(lia) Hk) as (H1 & H2 & H3).
  assert (Zpos (digits2_pos m) + e = Zdigits2 n + k) as Hd.
  { pose proof (f_equal Zdigits2 Hv) as Hd. rewrite !Zdigits2_mul_pow2 in Hd by lia. simpl Zdigits2 in Hd. lia. }
  rewrite Hd. set (e0 := SpecFloat.fexp prec emax (Zdigits2 n + k)) in *.
  pose proof (shl_align_spec m e e0) as Ha. destruct (shl_align m e e0) as [mz ez].
  destruct Ha as [-> ->]. apply round_aux_rep; try lia.
  apply frep_align; try done; lia.
Qed.

Lemma normalize_rep m e n k :
  emin64 <= e -> m * 2 ^ (e - emin64) = n * 2 ^ (k - emin64) -> 0 <= n < 2 ^ 53 -> emin64 <= k <= 900 ->
  frep (binary_normalize prec emax m e false) n k.
Proof.
  intros He Hv Hn Hk.
  assert (0 < 2 ^ (e - emin64)) by (apply Z.pow_pos_nonneg; lia).
  assert (0 < 2 ^ (k - emin64)) by (apply Z.pow_pos_nonneg; lia).
  destruct m as [|p|p]; [split; [lia|simpl; nia]|apply binary_round_rep; try done; lia|nia].
Qed.

Lemma frep_of_Z z : 0 <= z < 2 ^ 53 -> frep (f_of_Z z) z 0.
Proof. intros H. apply normalize_rep; unfold emin64; lia. Qed.

(** A value has one valid representation. *)
Lemma frep_unique x y n k :
  fvalid x -> fvalid y -> frep x n k -> frep y n k -> 0 < n -> x = y.
Proof.
  intros Vx Vy [Hk Hx] [_ Hy] Hn. assert (0 < 2 ^ (k - emin64)) by (apply Z.pow_pos_nonneg; lia).
  destruct x as [| | |sx mx ex]; [lia|done..|]. destruct y as [| | |sy my ey]; [lia|done..|].
  destruct Hx as (-> & Hex & Hx), Hy as (-> & Hey & Hy). rewrite <- Hy in Hx. clear Hy.
  destruct (valid_canon _ _ _ Vx) as [Cx _], (valid_canon _ _ _ Vy) as [Cy _].
  assert (forall m1 e1 m2 e2, canon m1 e1 -> canon m2 e2 -> emin64 <= e1 -> e1 < e2 ->
            m1 * 2 ^ (e1 - emin64) = m2 * 2 ^ (e2 - emin64) -> False) as Hdiff.
  { intros m1 e1 m2 e2 C1 C2 Hem Hlt E. pose proof (canon_order _ _ _ _ C1 C2 Hlt).
    replace (e2 - emin64) with ((e2 - e1) + (e1 - emin64)) in E by lia. rewrite pow2_split in E by lia.
    assert (0 < 2 ^ (e1 - emin64)) by (apply Z.pow_pos_nonneg; lia). nia. }
  destruct (Z.lt_total ex ey) as [Hlt|[->|Hgt]]; [exfalso; by apply (Hdiff (Zpos mx) ex (Zpos my) ey)| |exfalso; by apply (Hdiff (Zpos my) ey (Zpos mx) ex)].
  assert (0 < 2 ^ (ey - emin64)) by (apply Z.pow_pos_nonneg; lia). f_equal. nia.
Qed.

Lemma frep_mul x y n k n' k' :
  fvalid x -> fvalid y -> frep x n k -> frep y n' k' ->
  n * n' < 2 ^ 53 -> emin64 <= k + k' <= 900 -> frep (fmul x y) (n * n') (k + k').
Proof.
  intros Vx Vy Hx Hy Hb Hk.
  destruct (frep_nonneg _ _ _ Hx) as [Hn _], (frep_nonneg _ _ _ Hy) as [Hn' _].
  destruct Hx as [Hk1 Hx], Hy as [Hk2 Hy]. unfold fmul.
  destruct x as [sx| | |sx mx ex], y as [sy| | |sy my ey]; try done;
    [subst; split; [lia|simpl; lia]..|].
  destruct Hx as (-> & He1 & Hx), Hy as (-> & He2 & Hy). simpl.
  pose proof (fmul_fexp _ _ _ _ _ _ Vx Vy) as Hf. rewrite Pos2Z.inj_mul.
  assert (Hv : Zpos mx * Zpos my * 2 ^ (ex + ey - 2 * emin64) = n * n' * 2 ^ (k + k' - 2 * emin64)).
  { replace (ex + ey - 2 * emin64) with ((ex - emin64) + (ey - emin64)) by lia.
    replace (k + k' - 2 * emin64) with ((k - emin64) + (k' - emin64)) by lia.
    rewrite !pow2_split by lia. nia. }
  assert (0 < n * n') as Hpos.
  { assert (0 < 2 ^ (ex + ey - 2 * emin64)) by (apply Z.pow_pos_nonneg; lia).
    assert (0 < 2 ^ (k + k' - 2 * emin64)) by (apply Z.pow_pos_nonneg; lia). nia. }
  assert (Hd : Zdigits2 (Zpos mx * Zpos my) + (ex + ey) = Zdigits2 (n * n') + (k + k')).
  { pose proof (f_equal Zdigits2 Hv) as Hd. rewrite !Zdigits2_mul_pow2 in Hd by lia. lia. }
  rewrite Hd in Hf.
  assert (Hle : ex + ey <= k + k') by (destruct (dyadic_fit (n * n') (k + k')) as [? _]; lia).
  apply round_aux_rep; try done.
  apply (Z.mul_reg_r _ _ (2 ^ (ex + ey - 2 * emin64))); [apply Z.pow_nonzero; lia|].
  rewrite Hv, <- (Z.mul_assoc (n * n')), <- pow2_split by lia. do 2 f_equal. lia.
Qed.

Lemma frep_weaken x n k j : emin64 <= k - j -> 0 <= j -> frep x n k -> frep x (n * 2 ^ j) (k - j).
Proof.
  intros Hk Hj [_ H]. split; [done|]. destruct x as [| | |s m e]; [lia|done..|].
  destruct H as (-> & He & H). split; [done|]. split; [done|].
  rewrite H, <- Z.mul_assoc, <- pow2_split by lia. do 2 f_equal. lia.
Qed.

(** Exact addition, at any scale where the sum is an integer below [2^53]. *)
Lemma frep_add x y n n' k :
  frep x n k -> frep y n' k -> n + n' < 2 ^ 53 -> k <= 900 -> frep (fadd x y) (n + n') k.
Proof.
  intros Hx Hy Hb Hk. destruct (frep_nonneg _ _ _ Hx) as [Hn _], (frep_nonneg _ _ _ Hy) as [Hn' _].
  pose proof Hx as [Hk1 Hx']. pose proof Hy as [_ Hy']. unfold fadd.
  destruct x as [sx| | |sx mx ex], y as [sy| | |sy my ey]; try done.
  - subst. split; [done|]. by destruct sx, sy.
  - subst. by rewrite Z.add_0_l.
  - subst. by rewrite Z.add_0_r.
  - destruct Hx' as (-> & He1 & Hx'), Hy' as (-> & He2 & Hy').
    cbn -[binary_normalize shl_align Z.min].
    pose proof (shl_align_spec mx ex (Z.min ex ey)) as Ax. pose proof (shl_align_spec my ey (Z.min ex ey)) as Ay.
    destruct (shl_align mx _ _) as [px e1], (shl_align my _ _) as [py e2]. destruct Ax as [_ Ax], Ay as [_ Ay].
    replace (Z.min ex (Z.min ex ey)) with (Z.min ex ey) in Ax by lia.
    replace (Z.min ey (Z.min ex ey)) with (Z.min ex ey) in Ay by lia.
    simpl fst. rewrite Ax, Ay. remember (Z.min ex ey) as ez eqn:Eez.
    apply normalize_rep; try lia.
    assert (forall a c, 0 <= a -> 0 <= c -> 2 ^ a * 2 ^ c = 2 ^ (a + c)) as Hp by (intros; by rewrite pow2_split).
    rewrite !Z.mul_add_distr_r, <- !Z.mul_assoc, !Hp by lia.
    replace (ex - ez + (ez - emin64)) with (ex - emin64) by lia.
    replace (ey - ez + (ez - emin64)) with (ey - emin64) by lia. lia.
Qed.

Lemma frep_sub x y n n' k :
  frep x n k -> frep y n' k -> n' <= n < 2 ^ 53 -> k <= 900 -> frep (fsub x y) (n - n') k.
Proof.
  intros Hx Hy Hb Hk. destruct (frep_nonneg _ _ _ Hx) as [Hn _], (frep_nonneg _ _ _ Hy) as [Hn' _].
  pose proof Hx as [Hk1 Hx']. pose proof Hy as [_ Hy']. unfold fsub.
  assert (0 < 2 ^ (k - emin64)) as Hpk by (apply Z.pow_pos_nonneg; lia).
  destruct x as [sx| | |sx mx ex], y as [sy| | |sy my ey]; try done.
  - subst. split; [done|]. by destruct sx, sy.
  - destruct Hy' as (-> & He2 & Hy'). subst n. replace n' with 0 in * by lia.
    assert (0 < 2 ^ (ey - emin64)) by (apply Z.pow_pos_nonneg; lia). lia.
  - subst. by rewrite Z.sub_0_r.
  - destruct Hx' as (-> & He1 & Hx'), Hy' as (-> & He2 & Hy').
    cbn -[binary_normalize shl_align Z.min].
    pose proof (shl_align_spec mx ex (Z.min ex ey)) as Ax. pose proof (shl_align_spec my ey (Z.min ex ey)) as Ay.
    destruct (shl_align mx _ _) as [px e1], (shl_align my _ _) as [py e2]. destruct Ax as [_ Ax], Ay as [_ Ay].
    replace (Z.min ex (Z.min ex ey)) with (Z.min ex ey) in Ax by lia.
    replace (Z.min ey (Z.min ex ey)) with (Z.min ex ey) in Ay by lia.
    cbn [fst cond_Zopp]. rewrite Ax, Ay. remember (Z.min ex ey) as ez eqn:Eez.
    apply normalize_rep; try lia.
    assert (forall a c, 0 <= a -> 0 <= c -> 2 ^ a * 2 ^ c = 2 ^ (a + c)) as Hp by (intros; by rewrite pow2_split).
    rewrite !Z.mul_sub_distr_r, <- !Z.mul_assoc, !Hp by lia.
    replace (ex - ez + (ez - emin64)) with (ex - emin64) by lia.
    replace (ey - ez + (ez - emin64)) with (ey - emin64) by lia. lia.
Qed.

Lemma frep_trunc x n k : frep x n k -> k <= 0 -> f_trunc x = Some (n / 2 ^ (- k)).
Proof.
  intros [Hk H] Hk0. destruct x as [s| | |s m e]; try done.
  { subst. simpl. by rewrite Z.div_0_l by (apply Z.pow_nonzero; lia). }
  destruct H as (-> & He & H). simpl. f_equal.
  assert (forall a j, emin64 <= j <= 0 -> (a * 2 ^ (j - emin64)) / 2 ^ (- emin64) = a / 2 ^ (- j)) as Hdiv.
  { intros a j Hj. replace (- emin64) with (- j + (j - emin64)) by lia. rewrite pow2_split by (unfold emin64 in *; lia).
    apply Z.div_mul_cancel_r; apply Z.pow_nonzero; lia. }
  rewrite <- (Hdiv n k), <- H by lia. destruct (decide (0 <= e)).
  - rewrite Z.shiftl_mul_pow2 by lia. replace (e - emin64) with (e + - emin64) by lia.
    rewrite pow2_split, Z.mul_assoc, Z.div_mul by (apply Z.pow_nonzero || unfold emin64; lia). done.
  - rewrite (Hdiv _ e) by lia. rewrite Z.shiftl_div_pow2 by lia. done.
Qed.

Lemma frep_to_int64 `{Arch} x n k :
  frep x n k -> k <= 0 -> n < 2 ^ 53 -> f_to_int64 x = n / 2 ^ (- k).
Proof.
  intros Hx Hk Hn. destruct (frep_nonneg _ _ _ Hx) as [Hn0 _]. destruct (Hx) as [Hk' _].
  unfold f_to_int64. rewrite (frep_trunc _ _ _ Hx Hk).
  assert (in_int64b (n / 2 ^ (- k)) = true) as ->; [|done].
  apply in_int64b_spec. assert (0 < 2 ^ (- k)) by (apply Z.pow_pos_nonneg; lia).
  pose proof (Z.div_pos n (2 ^ (- k)) Hn0 ltac:(lia)).
  assert (n / 2 ^ (- k) <= n) by (apply Z.div_le_upper_bound; nia). unfold in_int64, int64_min, int64_max. lia.
Qed.

(** Comparison of representable values is comparison of integers. *)
Lemma frep_ltb x y n n' k :
  fvalid x -> fvalid y -> frep x n k -> frep y n' k -> fltb x y = (n <? n').
Proof.
  intros Vx Vy Hx Hy. destruct (frep_nonneg _ _ _ Hx) as (_ & Nx & _), (frep_nonneg _ _ _ Hy) as (_ & Ny & _).
  apply eq_bool_prop_intro. rewrite !Is_true_true, fltb_key, Z.ltb_lt by done.
  destruct Hx as [Hk Hx], Hy as [_ Hy]. assert (0 < 2 ^ (k - emin64)) as Hpk by (apply Z.pow_pos_nonneg; lia).
  assert (forall m e, emin64 <= e -> 0 < Zpos m * 2 ^ (e - emin64)) as Hp
    by (intros; assert (0 < 2 ^ (e - emin64)) by (apply Z.pow_pos_nonneg; lia); nia).
  destruct x as [sx| | |sx mx ex], y as [sy| | |sy my ey]; try done; simpl fkey; simpl key_lt.
  - lia.
  - destruct Hy as (-> & He & Hy). pose proof (Hp my ey He). assert (0 < n') by nia. simpl. lia.
  - destruct Hx as (-> & He & Hx). pose proof (Hp mx ex He). assert (0 < n) by nia. simpl. lia.
  - destruct Hx as (-> & He & Hx), Hy as (-> & He' & Hy).
    destruct (valid_canon _ _ _ Vx) as [Cx _], (valid_canon _ _ _ Vy) as [Cy _].
    assert (forall e e' m, emin64 <= e -> e <= e' -> m * 2 ^ (e' - e) * 2 ^ (e - emin64) = m * 2 ^ (e' - emin64)) as Hs.
    { intros e e' m ? ?. rewrite <- Z.mul_assoc, <- pow2_split by lia. do 2 f_equal. lia. }
    assert (0 < 2 ^ (ex - emin64) /\ 0 < 2 ^ (ey - emin64)) as [? ?] by (split; apply Z.pow_pos_nonneg; lia).
    destruct (Z.lt_total ex ey) as [Hlt|[->|Hgt]].
    + pose proof (canon_order _ _ _ _ Cx Cy Hlt). pose proof (Hs ex ey (Zpos my) He ltac:(lia)).
      assert (n < n') by nia. simpl. lia.
    + assert (Zpos mx < Zpos my <-> n < n') by nia. simpl. lia.
    + pose proof (canon_order _ _ _ _ Cy Cx Hgt). pose proof (Hs ey ex (Zpos mx) He' ltac:(lia)).
      assert (n' < n) by nia. simpl. lia.
Qed.

Lemma frep_leb x y n n' k :
  fvalid x -> fvalid y -> frep x n k -> frep y n' k -> fleb x y = (n <=? n').
Proof.
  intros Vx Vy Hx Hy. destruct (frep_nonneg _ _ _ Hx) as (_ & Nx & _), (frep_nonneg _ _ _ Hy) as (_ & Ny & _).
  pose proof (frep_ltb y x n' n k Vy Vx Hy Hx) as E. rewrite Z.leb_antisym, <- E.
  destruct (fltb y x) eqn:El; simpl; [|by apply fltb_false_fleb].
  rewrite <- not_true_iff_false, <- fltb_false_fleb by done. by rewrite El.
Qed.

(** * Quotients *)

Lemma fdiv_self s m e : fdiv (S754_finite s m e) (S754_finite s m e) = f1.
Proof.
  unfold fdiv. cbn -[SFdiv_core_binary f1].
  assert (SFdiv_core_binary prec emax (Zpos m) e (Zpos m) e = (2 ^ 53, -53, loc_Exact)) as ->.
  { unfold SFdiv_core_binary. rewrite !Z.sub_diag. change (Z.min (SpecFloat.fexp prec emax 0) 0) with (-53).
    change (0 - -53) with 53. cbv iota beta zeta. rewrite Z.shiftl_mul_pow2 by lia.
    pose proof (Z_div_mod (Zpos m * 2 ^ 53) (Zpos m) ltac:(lia)) as H.
    destruct (Z.div_eucl _ _) as [q r]. destruct H as [H1 H2].
    assert (q = 2 ^ 53) as -> by (destruct (Z.lt_total q (2 ^ 53)) as [?|[?|?]]; nia).
    assert (r = 0) as -> by lia. unfold new_location, new_location_even, new_location_odd.
    by destruct (Z.even _). }
  rewrite xorb_nilpotent. reflexivity.
Qed.

Lemma f_of_Z_pos z : 0 < z < 2 ^ 53 -> exists m e, f_of_Z z = S754_finite false m e.
Proof.
  intros H. pose proof (frep_of_Z z ltac:(lia)) as [_ Hr].
  destruct (f_of_Z z) as [s| | |s m e]; try done; [lia|]. destruct Hr as (-> & _). eauto.
Qed.

(** Equal counts have ratio one, and no errors have ratio zero. *)
Lemma fdiv_of_Z_self z : 0 < z < 2 ^ 53 -> fdiv (f_of_Z z) (f_of_Z z) = f1.
Proof. intros H. destruct (f_of_Z_pos z H) as (m & e & ->). apply fdiv_self. Qed.

Lemma fdiv_0_of_Z z : 0 < z < 2 ^ 53 -> fdiv (f_of_Z 0) (f_of_Z z) = f0.
Proof. intros H. by destruct (f_of_Z_pos z H) as (m & e & ->). Qed.

(** * Rounding is monotone against representable bounds *)

(** The bits lost by the shifts: the record is inexact only if some are set. *)
Lemma iter_shr_rest n m :
  0 <= m ->
  let mrs := Nat.iter n shr_1 (Build_shr_record m false false) in
  exists rest, m = shr_m mrs * 2 ^ Z.of_nat n + rest /\ 0 <= rest < 2 ^ Z.of_nat n /\
    0 <= shr_m mrs /\ (shr_r mrs || shr_s mrs = true -> 0 < rest).
Proof.
  intros Hm. induction n as [|n IH].
  { exists 0. simpl. split_and!; try lia. }
  rewrite Nat.iter_succ. destruct IH as (rest & Heq & Hrest & Hpos & Hin).
  rewrite Nat2Z.inj_succ, Z.pow_succ_r by lia.
  destruct (Nat.iter n shr_1 (Build_shr_record m false false)) as [mk r s]. simpl in *.
  assert (0 < 2 ^ Z.of_nat n) by (apply Z.pow_pos_nonneg; lia).
  destruct mk as [|[q|q|]|q]; simpl; try lia.
  - exists rest. split_and!; try lia. destruct r, s; auto.
  - exists (rest + 2 ^ Z.of_nat n). split_and!; lia.
  - exists rest. split_and!; try lia. destruct r, s; auto.
  - exists (rest + 2 ^ Z.of_nat n). split_and!; lia.
Qed.

(** Rounding the exact value [m * 2^e] to the target exponent never passes a
    multiple [V] of the target unit that bounds it. *)
Lemma shr_round_le m e V :
  0 <= m -> e <= SpecFloat.fexp prec emax (Zdigits2 m + e) ->
  let e' := SpecFloat.fexp prec emax (Zdigits2 m + e) in
  m <= V * 2 ^ (e' - e) ->
  let mrs := fst (shr_fexp prec emax m e loc_Exact) in
  round_nearest_even (shr_m mrs) (loc_of_shr_record mrs) <= V.
Proof.
  intros Hm He e' HV mrs. subst e' mrs. unfold shr_fexp, shr.
  set (e' := SpecFloat.fexp _ _ _) in *.
  destruct (e' - e) as [|p|p] eqn:En; [simpl in *; lia| |lia]. simpl fst.
  rewrite iter_pos_nat. simpl shr_record_of_loc.
  destruct (iter_shr_rest (Pos.to_nat p) m Hm) as (rest & Heq & Hrest & Hpos & Hin).
  rewrite positive_nat_Z in *. set (mrs := Nat.iter _ _ _) in *. clearbody mrs.
  assert (0 < 2 ^ Zpos p) by (apply Z.pow_pos_nonneg; lia).
  assert (shr_m mrs <= V) by nia.
  assert (shr_r mrs || shr_s mrs = true -> shr_m mrs + 1 <= V) by (intros Hi; specialize (Hin Hi); nia).
  destruct mrs as [mk [] []]; simpl in *; try case_if; try lia; auto.
Qed.

(** The order of canonical pairs is the order of their values. *)
Lemma canon_value_le s p e q e' :
  canon (Zpos p) e -> canon (Zpos q) e' ->
  Zpos p * 2 ^ (e - emin64) <= Zpos q * 2 ^ (e' - emin64) ->
  s = false -> fleb (S754_finite s p e) (S754_finite false q e') = true.
Proof.
  intros Cp Cq Hle ->. rewrite fleb_key by done. simpl.
  assert (emin64 <= e /\ emin64 <= e') as [He He'] by (destruct Cp as (_ & ? & _), Cq as (_ & ? & _); lia).
  assert (0 < 2 ^ (e - emin64) /\ 0 < 2 ^ (e' - emin64)) as [? ?] by (split; apply Z.pow_pos_nonneg; lia).
  intros [?|[_ [Hlt|[-> Hlt]]]]; [lia| |nia].
  pose proof (canon_order _ _ _ _ Cq Cp Hlt) as Ho.
  assert (2 ^ (e - emin64) = 2 ^ (e - e') * 2 ^ (e' - emin64)) as Hs
    by (rewrite <- pow2_split by lia; f_equal; lia).
  rewrite Hs in Hle. nia.
Qed.

Lemma round_aux_le m e q E :
  0 < m -> e <= SpecFloat.fexp prec emax (Zdigits2 m + e) -> canon (Zpos q) E -> E <= 971 -> e <= E ->
  m <= Zpos q * 2 ^ (E - e) ->
  fleb (binary_round_aux prec emax false m e loc_Exact) (S754_finite false q E) = true.
Proof.
  intros Hm He Cq HE HeE Hle. unfold binary_round_aux.
  assert (0 < 2 ^ (E - e)) by (apply Z.pow_pos_nonneg; lia).
  assert (Hmag : Zdigits2 m + e <= Zdigits2 (Zpos q) + E).
  { destruct (Zdigits2_bounds m) as (Hd & Hl & _); [done|].
    destruct (Zdigits2_bounds (Zpos q * 2 ^ (E - e))) as (_ & _ & Hu); [lia|].
    rewrite Zdigits2_mul_pow2 in Hu by lia. destruct (Zdigits2_bounds (Zpos q)) as (Hdq & _); [lia|].
    assert (Zdigits2 m - 1 < Zdigits2 (Zpos q) + (E - e)); [|lia]. apply (Z.pow_lt_mono_r_iff 2); lia. }
  set (e' := SpecFloat.fexp prec emax (Zdigits2 m + e)) in *.
  assert (He'E : e' <= E).
  { pose proof (canon_digits (Zpos q) E Cq ltac:(lia)) as Hq. unfold e' in *. rewrite fexp_eq in *. lia. }
  pose proof (shr_round_le m e (Zpos q * 2 ^ (E - e')) ltac:(lia) He) as Hr. simpl in Hr. fold e' in Hr.
  pose proof (shr_fexp_canon m e loc_Exact ltac:(lia) He) as Hc.
  destruct (shr_fexp_spec m e loc_Exact ltac:(lia) He) as [_ Hse]. fold e' in Hse.
  destruct (shr_fexp _ _ m e loc_Exact) as [mrs1 e1]. simpl in *. subst e1.
  set (m2 := round_nearest_even _ _) in *.
  pose proof (round_ne_bounds (shr_m mrs1) (loc_of_shr_record mrs1)) as Hb. fold m2 in Hb.
  specialize (Hr ltac:(rewrite <- Z.mul_assoc, <- pow2_split by lia;
                       replace (E - e' + (e' - e)) with (E - e) by lia; done)).
  destruct Hc as ((Hc1 & Hc2) & Hc3 & Hc4).
  destruct (decide (m2 = 0)) as [Hz|Hnz].
  { rewrite Hz. destruct Hc4 as [->|Hc4]; [|lia]. done. }
  assert (Hcase : canon m2 e' /\ 0 < m2 \/ m2 = 2 ^ 53 /\ emin64 <= e').
  { destruct (decide (m2 = 2 ^ 53)); [by right|left]. unfold canon. lia. }
  destruct (renorm_canon m2 e' Hcase) as (p & e2 & Hp & He2 & Hcan & Hsame).
  assert (Hval : Zpos p * 2 ^ (e2 - emin64) = m2 * 2 ^ (e' - emin64)).
  { destruct Hcase as [Hc|[-> _]]; [destruct (Hsame Hc) as [-> ->]; done|].
    destruct (shr_fexp_spec (2 ^ 53) e' loc_Exact ltac:(lia)) as [Hs1 Hs2];
      rewrite fexp_eq in *; change (Zdigits2 (2 ^ 53)) with 54 in *; [lia|].
    replace (Z.max (54 + e' - 53) emin64) with (e' + 1) in * by lia.
    rewrite Hp in Hs1. rewrite He2 in Hs2. rewrite Hs1, Hs2.
    replace (e' + 1 - e') with 1 by lia. replace (e' + 1 - emin64) with (1 + (e' - emin64)) by lia.
    rewrite pow2_split by lia. change (2 ^ 53 / 2 ^ 1) with (2 ^ 52). lia. }
  destruct (shr_fexp _ _ m2 e' loc_Exact) as [mrs2 e3]. simpl in *. subst e3. rewrite Hp.
  assert (Hvle : Zpos p * 2 ^ (e2 - emin64) <= Zpos q * 2 ^ (E - emin64)).
  { rewrite Hval. replace (E - emin64) with ((E - e') + (e' - emin64)) by lia. rewrite pow2_split by lia.
    assert (0 < 2 ^ (e' - emin64)) by (apply Z.pow_pos_nonneg; lia). nia. }
  pose proof (canon_value_le false p e2 q E Hcan Cq Hvle eq_refl) as Hfin.
  case_if; [done|]. unfold emax, prec in E0.
  exfalso. rewrite fleb_key in Hfin by done. apply Hfin. simpl. lia.
Qed.

(** Scaling by a factor of at most one does not increase. *)
Lemma fmul_le_1 x r :
  fvalid x -> fvalid r -> fnonneg x = true -> fnonneg r = true -> fleb r f1 = true ->
  is_nan (fmul x r) = false -> fleb (fmul x r) x = true.
Proof.
  intros Vx Vr. rewrite !(fnonneg_cases x), !(fnonneg_cases r).
  destruct x as [[]|sx| |sx mx ex], r as [[]|sr| |sr mr er]; intros Sx Sr Hr Hn; subst; try done.
  unfold fmul. simpl. pose proof (fmul_fexp _ _ _ _ _ _ Vx Vr) as Hf. rewrite Pos2Z.inj_mul.
  destruct (valid_canon _ _ _ Vx) as [Cx Hmx], (valid_canon _ _ _ Vr) as [Cr _].
  rewrite fleb_key in Hr by done. change (fkey f1) with (1, -52, 4503599627370496) in Hr. simpl in Hr.
  destruct Cr as ((_ & Hr1) & Hr2 & _).
  assert (Hmr : Zpos mr <= 2 ^ (- er)).
  { destruct (decide (er = -52)) as [->|Hne]; [simpl; lia|].
    apply Z.le_trans with (2 ^ 53); [lia|]. apply Z.pow_le_mono_r; lia. }
  apply round_aux_le; try done; try lia.
  replace (ex - (ex + er)) with (- er) by lia. nia.
Qed.

(** Subtracting something nonnegative does not increase a value. *)
Lemma fsub_le x y :
  fvalid x -> fvalid y -> fnonneg x = true -> fnonneg y = true -> fleb y x = true ->
  is_nan (fsub x y) = false -> fleb (fsub x y) x = true.
Proof.
  intros Vx Vy. rewrite !(fnonneg_cases x), !(fnonneg_cases y).
  destruct x as [[]|sx| |sx mx ex], y as [[]|sy| |sy my ey]; intros Sx Sy Hle Hn; subst; try done.
  all: try (by apply fleb_refl).
  clear Hn. pose proof (aligned_order _ _ _ _ Vx Vy Hle) as Ho. unfold fsub.
  destruct (valid_canon _ _ _ Vx) as [Cx Hmx]. cbn -[binary_normalize shl_align Z.min].
  pose proof (shl_align_spec mx ex (Z.min ex ey)) as Hx.
  destruct (shl_align mx _ _) as [px e1], (shl_align my _ _) as [py e2]. destruct Hx as [_ Hx].
  simpl in Ho. replace (Z.min ex (Z.min ex ey)) with (Z.min ex ey) in Hx by lia. cbn [fst cond_Zopp].
  destruct (Zpos px - Zpos py) as [|p|p] eqn:E; [done| |lia]. unfold binary_normalize, binary_round.
  pose proof (shl_align_spec p (Z.min ex ey) (SpecFloat.fexp prec emax (Zpos (digits2_pos p) + Z.min ex ey))) as Hp.
  destruct (shl_align p _ _) as [mz ez]. destruct Hp as [-> Hp].
  set (f := SpecFloat.fexp prec emax _) in *. remember (Z.min ex ey) as e eqn:Ee. 
  apply round_aux_le; try done; try lia.
  - rewrite Hp, Zdigits2_mul_pow2 by lia. simpl Zdigits2.
    replace (Zpos (digits2_pos p) + (e - Z.min e f) + Z.min e f) with (Zpos (digits2_pos p) + e) by lia. fold f. lia.
  - rewrite Hp. replace (ex - Z.min e f) with ((ex - e) + (e - Z.min e f)) by lia.
    rewrite pow2_split by lia. assert (0 < 2 ^ (e - Z.min e f)) by (apply Z.pow_pos_nonneg; lia). nia.
Qed.

(** Every valid nonnegative finite value is an integer at the finest scale. *)
Lemma frep_scale x :
  fvalid x -> fnonneg x = true -> is_inf x false = false -> exists V, frep x V emin64 /\ 0 <= V.
Proof.
  intros Vx Nx Ix. rewrite fnonneg_cases in Nx.
  destruct x as [s|[]| |s m e]; try done.
  - exists 0. by split; [split|].
  - subst s. destruct (valid_canon _ _ _ Vx) as [(_ & He & _) _].
    assert (0 < 2 ^ (e - emin64)) by (apply Z.pow_pos_nonneg; lia).
    exists (Zpos m * 2 ^ (e - emin64)). split; [|nia].
    split; [done|]. split_and!; [done|done|]. rewrite Z.sub_diag. lia.
Qed.

Lemma f_trunc_mono x y :
  fvalid x -> fvalid y -> fnonneg x = true -> fleb x y = true -> is_inf y false = false ->
  exists a b, f_trunc x = Some a /\ f_trunc y = Some b /\ 0 <= a <= b.
Proof.
  intros Vx Vy Nx Hle Iy.
  assert (fnonneg y = true) as Ny.
  { unfold fnonneg in *. destruct (fleb_not_nan _ _ Hle) as [? ->]. simpl.
    apply andb_prop in Nx as [_ Nx]. by eapply fleb_trans. }
  assert (is_inf x false = false) as Ix.
  { destruct x as [|[]| |]; try done. by destruct y as [|[]| |]. }
  destruct (frep_scale x Vx Nx Ix) as (V & HV & HV0), (frep_scale y Vy Ny Iy) as (V' & HV' & _).
  rewrite (frep_leb x y V V' emin64) in Hle by done.
  exists (V / 2 ^ (- emin64)), (V' / 2 ^ (- emin64)). split_and!.
  - by apply frep_trunc.
  - by apply frep_trunc.
  - by apply Z.div_pos.
  - apply Z.div_le_mono; [done|lia].
Qed.

Lemma f_to_int64_mono `{Arch} x z :
  0 <= z < 2 ^ 53 -> fvalid x -> fnonneg x = true -> fleb x (f_of_Z z) = true -> 0 <= f_to_int64 x <= z.
Proof.
  intros Hz Vx Nx Hle. pose proof (frep_of_Z z Hz) as Hr.
  destruct (f_trunc_mono x (f_of_Z z)) as (a & b & Ha & Hb & Hab); auto with lulu.
  { destruct Hr as [_ Hr]. by destruct (f_of_Z z) as [|[]| |]. }
  rewrite (frep_trunc _ _ _ Hr) in Hb by lia. simplify_eq. change (- 0) with 0 in Hab. rewrite Z.div_1_r in Hab.
  unfold f_to_int64. rewrite Ha. assert (in_int64b a = true) as ->; [|lia].
  apply in_int64b_spec. unfold in_int64, int64_min, int64_max. lia.
Qed.
