(* ===== verification/GoTime.v ===== *)
(** The parts of Go's [time] package the sources use: [Duration] as an [int64]
    count of nanoseconds, and [Time] with its wall clock and optional monotonic
    reading; the readings themselves come from a [Runtime]. *)
From Stdlib Require Import ZArith Lia SpecFloat.
From S2P Require Import Prelude Float64.
From stdpp Require Import base numbers.
Open Scope Z_scope.

Abbreviation Duration := Z.

Definition Nanosecond : Duration := 1.
Definition Microsecond : Duration := 1000.
Definition Millisecond : Duration := 1000000.
Definition Second : Duration := 1000000000.

(** [time.Now] gives both readings; the zero [Time] and times built from wall
    clock data have no monotonic reading. *)
Record Time := mkTime { wall : Z; mono : option Z }.

Definition zeroTime : Time := mkTime (- 62135596800 * Second) None.

(** [Time.Sub] uses the monotonic readings when both times carry one, and
    saturates at the ends of the range. *)
Definition time_sub (t u : Time) : Duration :=
  sat64 (match mono t, mono u with
         | Some a, Some b => a - b
         | _, _ => wall t - wall u
         end).

(** [Time.UnixNano], an [int64]. *)
Definition UnixNano (t : Time) : Z := wrap64 (wall t).

(** [Duration.Seconds]. *)
Definition Seconds (d : Duration) : float64 :=
  fadd (f_of_Z (Z.quot d Second)) (fdiv (f_of_Z (Z.rem d Second)) (f_of_Z Second)).

(** [Duration.Milliseconds]. *)
Definition Milliseconds (d : Duration) : Z := Z.quot d Millisecond.

(** What the sources use of the runtime besides their own state: the readings
    of [time.Now()] and of [rand.Float64()]. *)
Class Runtime (W : Type) := {
  time_Now : W -> Time * W;
  rand_Float64 : W -> float64 * W
}.

(** A clock reading taken [d] nanoseconds after [t]. *)
Definition time_after (t : Time) (d : Z) : Time :=
  mkTime (wall t + d) ((fun m => m + d) <$> mono t).

Lemma time_sub_range t u : in_int64 (time_sub t u).
Proof. apply sat64_range. Qed.

Lemma time_sub_after t d : 0 <= d <= int64_max -> time_sub (time_after t d) t = d.
Proof.
  intros H. unfold time_sub, time_after, int64_max in *.
  destruct (mono t) as [m|]; simpl; rewrite sat64_id; unfold in_int64, int64_min, int64_max; lia.
Qed.

Lemma Seconds_nonneg d : 0 <= d -> fnonneg (Seconds d) = true.
Proof.
  intros H. unfold Seconds, Second. apply fadd_nonneg.
  - apply f_of_Z_nonneg. apply Z.quot_pos; lia.
  - pose proof (Z.rem_bound_pos d 1000000000 H ltac:(lia)).
    destruct (decide (Z.rem d 1000000000 = 0)) as [->|Hne]; [done|].
    destruct (f_of_Z_pos (Z.rem d 1000000000)) as (m & e & E); [lia|].
    apply fdiv_nonneg; rewrite ?E; try done.
    change (f_of_Z 1000000000) with (S754_finite false 8388608000000000 (-23)).
    unfold fdiv. cbn -[SpecFloat.SFdiv_core_binary].
    pose proof (fdiv_core_bound (Zpos m) e 8388608000000000 (-23)) as Hb.
    destruct (SpecFloat.SFdiv_core_binary _ _ _ _ _ _) as [[q e'] l]. apply round_aux_sign, Hb; lia.
Qed.

Lemma Seconds_valid d : fvalid (Seconds d).
Proof. unfold Seconds. auto with lulu. Qed.

#[export] Hint Resolve time_sub_range Seconds_nonneg Seconds_valid : lulu.
