(* ===== verification/GoErrors.v ===== *)
(** Go [error] values and the protocol-agnostic error type of
    [errors/errors.go].

    An [error] interface value is [option error]: [None] is [nil].  The
    constructors are the ways the sources build errors: package-level
    sentinels, [*Error] values, [fmt.Errorf] with and without [%w],
    [errors.Join], gRPC status errors and the context errors. *)
From Stdlib Require Import ZArith Lia.
From S2P Require Import Prelude.
From stdpp Require Import base gmap strings list fin_maps.
Open Scope Z_scope.
Open Scope string_scope.

(** [type Error struct].  A nil [Metadata] map is [None]. *)
Record Error := mkError {
  Code : Z;
  Reason : string;
  Message : string;
  Metadata : option (gmap string string)
}.

Inductive error :=
| Sentinel (name text : string)
| AppError (e : Error)
| Wrapf (text : string) (inner : error)
| Errorf (text : string)
| Joined (errs : list error)
| StatusError (code : Z) (text : string)
| StatusCode (code : Z).

(** The context package's errors. *)
Definition Canceled : error := Sentinel "context.Canceled" "context canceled".
Definition DeadlineExceeded : error := Sentinel "context.DeadlineExceeded" "context deadline exceeded".

(** [errors.Join]: nil errors are discarded; nil when nothing remains. *)
Definition errors_Join (errs : list (option error)) : option error :=
  match omap id errs with
  | [] => None
  | es => Some (Joined es)
  end.

Fixpoint first_some {A B} (f : A -> option B) (l : list A) : option B :=
  match l with
  | [] => None
  | x :: l' => match f x with Some y => Some y | None => first_some f l' end
  end.

(** [errors.As(err, &e)] for a target of type [*Error]: depth-first, the error
    itself before what it wraps. *)
Fixpoint errors_As (err : error) : option Error :=
  match err with
  | AppError e => Some e
  | Wrapf _ inner => errors_As inner
  | Joined errs => first_some errors_As errs
  | _ => None
  end.

(** [errors.Is(err, target)] for a sentinel target. *)
Fixpoint errors_Is (target : string) (err : error) : bool :=
  match err with
  | Sentinel name _ => String.eqb name target
  | Wrapf _ inner => errors_Is target inner
  | Joined errs => existsb (errors_Is target) errs
  | _ => false
  end.

(** [func (e *Error) Error() string] *)
Definition Error_text (e : Error) : string :=
  if negb (String.eqb (Reason e) "") then Reason e ++ ": " ++ Message e
  else Message e.

(** [func (e *Error) WithMetadata(kv map[string]string) *Error] *)
Definition WithMetadata (e : Error) (kv : gmap string string) : Error :=
  let cloned :=
    match Metadata e with
    | Some md => if (size md =? 0)%nat then None else Some md
    | None => None
    end in
  mkError (Code e) (Reason e) (Message e)
    (map_fold (fun k v acc =>
       match acc with
       | None => Some {[ k := v ]}
       | Some m => Some (<[ k := v ]> m)
       end) cloned kv).

(** [func New(code int, reason, message string) *Error] *)
Definition New (code : Z) (reason message : string) : Error :=
  mkError code reason message None.

(** [func FromError(err error) *Error] *)
Definition FromError (err : option error) : option Error :=
  match err with
  | None => None
  | Some e => errors_As e
  end.

(** [func Code(err error) int] *)
Definition ErrorCode (err : option error) : Z :=
  match err with
  | None => 200
  | Some _ =>
      match FromError err with
      | Some e => Code e
      | None => 500
      end
  end.

Definition StatusOK : Z := 200.
Definition StatusBadRequest : Z := 400.
Definition StatusInternalServerError : Z := 500.

(** Induction over error trees. *)
Section error_ind.
Variable P : error -> Prop.
Hypothesis HSentinel : forall n t, P (Sentinel n t).
Hypothesis HApp : forall e, P (AppError e).
Hypothesis HWrap : forall t e, P e -> P (Wrapf t e).
Hypothesis HErrorf : forall t, P (Errorf t).
Hypothesis HJoined : forall es, Forall P es -> P (Joined es).
Hypothesis HStatus : forall c t, P (StatusError c t).
Hypothesis HCode : forall c, P (StatusCode c).

Fixpoint error_tree_ind (e : error) : P e :=
  match e with
  | Sentinel n t => HSentinel n t
  | AppError a => HApp a
  | Wrapf t e' => HWrap t e' (error_tree_ind e')
  | Errorf t => HErrorf t
  | Joined es =>
      HJoined es ((fix go (l : list error) : Forall P l :=
        match l with
        | [] => Forall_nil_2 P
        | x :: l' => Forall_cons_2 P x l' (error_tree_ind x) (go l')
        end) es)
  | StatusError c t => HStatus c t
  | StatusCode c => HCode c
  end.
End error_ind.

Lemma first_some_app {A B} (f : A -> option B) l1 l2 :
  first_some f (l1 ++ l2) = match first_some f l1 with Some y => Some y | None => first_some f l2 end.
Proof. induction l1 as [|x l1 IH]; simpl; [done|]. by destruct (f x). Qed.

Lemma first_some_None {A B} (f : A -> option B) l :
  first_some f l = None <-> Forall (fun x => f x = None) l.
Proof.
  induction l as [|x l IH]; simpl; [by split|]. rewrite Forall_cons, <- IH.
  destruct (f x); split; intros H; try done; by destruct H.
Qed.

(** The [*Error] leaves of an error tree, in the order [errors.As] visits them. *)
Fixpoint leaves (err : error) : list Error :=
  match err with
  | AppError e => [e]
  | Wrapf _ inner => leaves inner
  | Joined errs => concat (map leaves errs)
  | _ => []
  end.

Lemma errors_As_head err : errors_As err = head (leaves err).
Proof.
  induction err as [| | | |es IH| |] using error_tree_ind; simpl; try done.
  induction IH as [|e es He _ IHes]; simpl; [done|]. rewrite He, IHes. by destruct (leaves e).
Qed.

(** The metadata of the clone: the new pairs override the old ones. *)
Lemma WithMetadata_fold (kv : gmap string string) (base : option (gmap string string)) k :
  default ∅ (map_fold (fun k v acc =>
       match acc with None => Some {[ k := v ]} | Some m => Some (<[ k := v ]> m) end) base kv) !! k
  = (kv ∪ default ∅ base) !! k.
Proof.
  revert k. apply (map_fold_weak_ind (fun r kv => forall k, default ∅ r !! k = (kv ∪ default ∅ base) !! k)).
  - intros k. by rewrite map_empty_union.
  - intros i x m r Hi IH k. rewrite <- insert_union_l.
    destruct (decide (i = k)) as [->|Hne].
    + rewrite lookup_insert_eq. destruct r; simpl; [by rewrite lookup_insert_eq|by rewrite lookup_singleton_eq].
    + rewrite lookup_insert_ne, <- IH by done.
      destruct r; simpl; [by rewrite lookup_insert_ne|]. by rewrite lookup_singleton_ne.
Qed.
