(* ===== verification/GoStrings.v ===== *)
(** What the components use of packages [strings] and [strconv]: cutting and
    splitting texts, and decimal numbers. *)
From Stdlib Require Import ZArith Lia Ascii DecimalString DecimalZ.
From S2P Require Import Prelude GoErrors.
From stdpp Require Import base strings list.
Open Scope list_scope.
Open Scope string_scope.
Open Scope Z_scope.

(** [strings.Cut(s, sep)], for [strings.Split]. *)
Fixpoint cut (sep s : string) : option (string * string) :=
  if String.prefix sep s then Some ("", String.substring (String.length sep) (String.length s) s)
  else match s with
       | EmptyString => None
       | String c s' => (fun '(a, b) => (String c a, b)) <$> cut sep s'
       end.

(** [strings.Split(s, sep)] for a separator that is not empty; the string has fewer
    parts than [fuel] when that exceeds its length. *)
Fixpoint split_fuel (fuel : nat) (sep s : string) : list string :=
  match fuel with
  | O => [s]
  | S fuel' =>
      match cut sep s with
      | None => [s]
      | Some (a, b) => a :: split_fuel fuel' sep b
      end
  end.
Definition Split (s sep : string) : list string := split_fuel (S (String.length s)) sep s.

(** [strconv.Itoa(n)] and [fmt.Sprintf("%d", n)]. *)
Definition Itoa (n : Z) : string := NilZero.string_of_int (Z.to_int n).

(** [strconv.Atoi(s)]: 0 and an error for a text that is no number, the nearest
    [int] and an error for one out of range. *)
Definition Atoi (s : string) : Z * option error :=
  match (match s with
         | String "+" s' => option_map Decimal.Pos (NilZero.uint_of_string s')
         | _ => NilZero.int_of_string s
         end) with
  | None => (0, Some (Sentinel "strconv.ErrSyntax" "invalid syntax"))
  | Some d =>
      let n := Z.of_int d in
      (sat64 n, if in_int64b n then None else Some (Sentinel "strconv.ErrRange" "value out of range"))
  end.

(** * Lemmas *)

(** A character does not occur in a text. *)
Fixpoint lacks (c : ascii) (s : string) : bool :=
  match s with
  | EmptyString => true
  | String d s' => negb (Ascii.eqb d c) && lacks c s'
  end.

Lemma prefix_other c d sep s : Ascii.eqb d c = false -> String.prefix (String c sep) (String d s) = false.
Proof. intros Hd. simpl. destruct (ascii_dec c d) as [->|]; [by rewrite Ascii.eqb_refl in Hd|done]. Qed.

Lemma prefix_lacks c sep s : lacks c s = true -> String.prefix (String c sep) s = false.
Proof.
  destruct s as [|d s]; [done|]. intros [Hd _]%andb_true_iff. apply negb_true_iff in Hd. by apply prefix_other.
Qed.

Lemma cut_lacks c sep s : lacks c s = true -> cut (String c sep) s = None.
Proof.
  induction s as [|d s IH]; intros H; [done|]. pose proof (prefix_lacks c sep _ H) as Hp. cbn [cut]. rewrite Hp.
  simpl in H. apply andb_true_iff in H as [_ H]. by rewrite (IH H).
Qed.

(** The first part before a one-character separator, and a text without a cut, lack
    it. *)
Lemma cut_first c s : match cut (String c "") s with Some (a, _) => lacks c a | None => lacks c s end = true.
Proof.
  induction s as [|d s IH]; [done|]. cbn [cut]. destruct (String.prefix (String c "") (String d s)) eqn:Hp; [done|].
  assert (Ascii.eqb d c = false) as Hd.
  { destruct (Ascii.eqb_spec d c) as [->|]; [|done]. exfalso. cbn in Hp. destruct (ascii_dec c c); [|done]. by destruct s. }
  destruct (cut (String c "") s) as [[a b]|]; simpl; by rewrite Hd, IH.
Qed.

Lemma Split_first c s : exists p ps, Split s (String c "") = p :: ps /\ lacks c p = true.
Proof.
  unfold Split. cbn [split_fuel]. pose proof (cut_first c s) as H. destruct (cut (String c "") s) as [[a b]|]; eauto.
Qed.

Lemma substring_all m b : (String.length b <= m)%nat -> String.substring 0 m b = b.
Proof.
  revert m. induction b as [|c b IH]; intros m H; [by destruct m|]. destruct m as [|m]; [simpl in H; lia|].
  simpl in *. by rewrite IH by lia.
Qed.

(** A text cut at the only separator. *)
Lemma cut_app c a b : lacks c a = true -> cut (String c "") (a ++ String c b) = Some (a, b).
Proof.
  induction a as [|d a IH]; intros H.
  - assert (String.prefix (String c "") (String c b) = true) as Hp by (cbn; destruct (ascii_dec c c); [by destruct b|done]).
    change ((if String.prefix (String c "") (String c b) then Some ("", String.substring 1 (S (String.length b)) (String c b))
      else (fun '(a, b) => (String c a, b)) <$> cut (String c "") b) = Some ("", b)).
    rewrite Hp. cbn [String.substring]. by rewrite substring_all by lia.
  - pose proof H as H'. simpl in H'. apply andb_true_iff in H' as [Hd Ha]. apply negb_true_iff in Hd.
    pose proof (prefix_other c d "" (a ++ String c b) Hd) as Hp.
    change (String d a ++ String c b) with (String d (a ++ String c b)). cbn [cut]. by rewrite Hp, (IH Ha).
Qed.

Lemma Split_two c a b : lacks c a = true -> lacks c b = true -> Split (a ++ String c b) (String c "") = [a; b].
Proof.
  intros Ha Hb. unfold Split. destruct (String.length (a ++ String c b)) as [|n] eqn:E.
  - exfalso. destruct a; done.
  - cbn [split_fuel]. by rewrite (cut_app c a b Ha), (cut_lacks c "" b Hb).
Qed.

(** Numbers *)
Lemma digits_lack d : lacks ":" (NilEmpty.string_of_uint d) = true.
Proof. induction d; simpl; auto. Qed.

Lemma Itoa_lacks n : lacks ":" (Itoa n) = true.
Proof.
  unfold Itoa, NilZero.string_of_int. destruct (Z.to_int n) as [d|d]; cbn; destruct d; try done; apply (digits_lack (_ d)).
Qed.

Lemma to_int_shape n : Z.to_int n <> Decimal.Pos Decimal.Nil /\ Z.to_int n <> Decimal.Neg Decimal.Nil.
Proof.
  destruct n as [|p|p]; cbn; [done| |]; split; try done; intros [= H];
    apply (DecimalPos.Unsigned.to_uint_nonnil p); exact H.
Qed.

Lemma Itoa_no_plus n s : Itoa n <> String "+" s.
Proof.
  unfold Itoa, NilZero.string_of_int. destruct (Z.to_int n) as [d|d]; [|done]. destruct d; done.
Qed.

Lemma Atoi_Itoa n : in_int64 n -> Atoi (Itoa n) = (n, None).
Proof.
  intros Hn. unfold Atoi. destruct (to_int_shape n) as [H1 H2].
  assert (NilZero.int_of_string (Itoa n) = Some (Z.to_int n)) as E by (by apply NilZero.isi).
  destruct (Itoa n) as [|c s] eqn:Ei; [done|].
  assert (c <> "+"%char) as Hc by (intros ->; by eapply Itoa_no_plus).
  assert (match c with "+"%char => option_map Decimal.Pos (NilZero.uint_of_string s) | _ => NilZero.int_of_string (String c s) end =
    NilZero.int_of_string (String c s)) as -> by (destruct c as [[] [] [] [] [] [] [] []]; done).
  rewrite E, DecimalZ.of_to. rewrite sat64_id by done. by rewrite (proj2 (in_int64b_spec n) Hn).
Qed.

Lemma Itoa_inj n m : Itoa n = Itoa m -> n = m.
Proof.
  intros H. unfold Itoa in H. destruct (to_int_shape n) as [H1 H2], (to_int_shape m) as [H3 H4].
  pose proof (NilZero.isi (Z.to_int n) H1 H2) as En. rewrite H, (NilZero.isi (Z.to_int m) H3 H4) in En.
  injection En as En. apply (f_equal Z.of_int) in En. by rewrite !DecimalZ.of_to in En.
Qed.

Lemma Atoi_range s : in_int64 (fst (Atoi s)).
Proof.
  unfold Atoi. destruct (match s with String "+" s' => _ | _ => _ end); simpl; [apply sat64_range|].
  unfold in_int64, int64_min, int64_max. lia.
Qed.

(** ** Splitting at one character *)

Fixpoint split_char (c : ascii) (s : string) : list string :=
  match s with
  | EmptyString => [""]
  | String d s' =>
      if Ascii.eqb d c then "" :: split_char c s'
      else match split_char c s' with
           | p :: ps => String d p :: ps
           | [] => [String d ""]
           end
  end.

Lemma split_char_lacking c a : lacks c a = true -> split_char c a = [a].
Proof.
  induction a as [|d a IH]; intros H; [done|]. simpl in H. apply andb_true_iff in H as [Hd Ha]. apply negb_true_iff in Hd.
  simpl. by rewrite Hd, (IH Ha).
Qed.
Lemma split_char_cut c a b : lacks c a = true -> split_char c (a ++ String c b) = a :: split_char c b.
Proof.
  induction a as [|d a IH]; intros H.
  - change ("" ++ String c b) with (String c b). cbn [split_char]. by rewrite Ascii.eqb_refl.
  - simpl in H. apply andb_true_iff in H as [Hd Ha]. apply negb_true_iff in Hd.
    change (String d a ++ String c b) with (String d (a ++ String c b)). cbn [split_char]. by rewrite Hd, (IH Ha).
Qed.

Lemma cut_eq c s : match cut (String c "") s with Some (a, b) => s = a ++ String c b | None => True end.
Proof.
  induction s as [|d s IH]; [done|]. cbn [cut]. destruct (String.prefix (String c "") (String d s)) eqn:Hp.
  - cbn in Hp. destruct (ascii_dec c d) as [->|]; [|done]. simpl. by rewrite substring_all by lia.
  - destruct (cut (String c "") s) as [[a b]|]; [|done]. simpl. by rewrite IH at 1.
Qed.

Lemma Split_char c s : Split s (String c "") = split_char c s.
Proof.
  unfold Split. assert (forall n s, (String.length s < n)%nat -> split_fuel n (String c "") s = split_char c s) as H; [|apply H; lia].
  clear s. induction n as [|n IH]; intros s Hn; [lia|]. cbn [split_fuel].
  pose proof (cut_eq c s) as He. pose proof (cut_first c s) as Hl. destruct (cut (String c "") s) as [[a b]|].
  - subst s. rewrite split_char_cut by done. f_equal. apply IH. rewrite string_length_app in Hn. simpl in Hn. lia.
  - by rewrite split_char_lacking.
Qed.

Lemma split_char_app c a b : split_char c (a ++ String c b) = (split_char c a ++ split_char c b)%list.
Proof.
  induction a as [|d a IH].
  - change ("" ++ String c b) with (String c b). cbn [split_char]. by rewrite Ascii.eqb_refl.
  - change (String d a ++ String c b) with (String d (a ++ String c b)). cbn [split_char]. rewrite IH.
    destruct (Ascii.eqb d c); [done|]. destruct (split_char c a) as [|p ps] eqn:E; [|done].
    exfalso. destruct a as [|x a]; [done|]. cbn in E. destruct (Ascii.eqb x c); [done|]. by destruct (split_char c a).
Qed.

Lemma split_char_parts c s : Forall (fun p => lacks c p = true) (split_char c s).
Proof.
  induction s as [|d s IH]; [by constructor|]. cbn [split_char]. destruct (Ascii.eqb d c) eqn:E; [by constructor|].
  destruct (split_char c s) as [|p ps]; [constructor; [simpl; by rewrite E|done]|].
  apply Forall_cons in IH as [H1 H2]. constructor; [simpl; by rewrite E|done].
Qed.

(** * More of [strconv] *)

Definition uint64_max : Z := 2 ^ 64 - 1.

(** [strconv.ParseUint(s, 10, 64)] *)
Definition ParseUint (s : string) : Z * option error :=
  match NilZero.uint_of_string s with
  | None => (0, Some (Sentinel "strconv.ErrSyntax" "invalid syntax"))
  | Some d =>
      let n := Z.of_uint d in
      if n <=? uint64_max then (n, None) else (uint64_max, Some (Sentinel "strconv.ErrRange" "value out of range"))
  end.

(** [strconv.ParseBool(s)] *)
Definition ParseBool (s : string) : bool * option error :=
  if bool_decide (s ∈ (["1"; "t"; "T"; "TRUE"; "true"; "True"])%list) then (true, None)
  else if bool_decide (s ∈ (["0"; "f"; "F"; "FALSE"; "false"; "False"])%list) then (false, None)
  else (false, Some (Sentinel "strconv.ErrSyntax" "invalid syntax")).

Lemma ParseUint_Itoa n : 0 <= n <= uint64_max -> ParseUint (Itoa n) = (n, None).
Proof.
  intros Hn. unfold ParseUint, Itoa. destruct (to_int_shape n) as [H1 _].
  destruct (Z.to_int n) as [d|d] eqn:E; [|destruct n; [done|done|lia]].
  cbn [NilZero.string_of_int]. rewrite NilZero.usu by congruence.
  assert (Z.of_uint d = n) as ->; [|by rewrite (proj2 (Z.leb_le _ _) (proj2 Hn))].
  pose proof (DecimalZ.of_to n) as Hz. by rewrite E in Hz.
Qed.

Lemma Itoa_ne n : Itoa n <> "".
Proof. unfold Itoa, NilZero.string_of_int. destruct (Z.to_int n) as [d|d]; [|done]. by destruct d. Qed.

(** [strings.TrimRight(s, "/")] *)
Fixpoint trim_slashes (s : string) : string :=
  match s with
  | EmptyString => ""
  | String c s' =>
      match trim_slashes s' with
      | EmptyString => if Ascii.eqb c "/"%char then "" else String c ""
      | t => String c t
      end
  end.
