(* ===== verification/GoUrl.v ===== *)
(** What the components use of package [net/url]: query escaping and [url.Values].

    A text is its bytes.  [Values] is a map from keys to the values given for them. *)
From Stdlib Require Import ZArith Lia Ascii.
From S2P Require Import Prelude GoErrors GoStrings.
From stdpp Require Import base gmap strings list fin_maps sorting.
Open Scope list_scope.
Open Scope string_scope.

(** * Escaping *)

(** The characters [url.QueryEscape] leaves alone. *)
Definition between (lo hi c : ascii) : bool := (nat_of_ascii lo <=? nat_of_ascii c)%nat && (nat_of_ascii c <=? nat_of_ascii hi)%nat.
Definition unreserved (c : ascii) : bool :=
  between "a" "z" c || between "A" "Z" c || between "0" "9" c ||
  Ascii.eqb c "-" || Ascii.eqb c "_" || Ascii.eqb c "." || Ascii.eqb c "~".

Definition hex (n : nat) : ascii := ascii_of_nat (if (n <? 10)%nat then 48 + n else 55 + n).
Definition unhex (c : ascii) : option nat :=
  if between "0" "9" c then Some (nat_of_ascii c - 48)%nat
  else if between "a" "f" c then Some (nat_of_ascii c - 87)%nat
  else if between "A" "F" c then Some (nat_of_ascii c - 55)%nat
  else None.

Definition escape_char (c : ascii) : string :=
  if Ascii.eqb c " " then "+"
  else if unreserved c then String c ""
  else String "%" (String (hex (nat_of_ascii c / 16)) (String (hex (nat_of_ascii c mod 16)) "")).

(** [url.QueryEscape], [url.QueryUnescape] *)
Fixpoint QueryEscape (s : string) : string :=
  match s with
  | EmptyString => ""
  | String c s' => escape_char c ++ QueryEscape s'
  end.
Fixpoint QueryUnescape (s : string) : option string :=
  match s with
  | EmptyString => Some ""
  | String "+" s' => String " " <$> QueryUnescape s'
  | String "%" s' =>
      match s' with
      | String a (String b s'') =>
          match unhex a, unhex b with
          | Some x, Some y => String (ascii_of_nat (16 * x + y)) <$> QueryUnescape s''
          | _, _ => None
          end
      | _ => None
      end
  | String c s' => String c <$> QueryUnescape s'
  end.

Lemma unescape_char c s : QueryUnescape (escape_char c ++ s) = String c <$> QueryUnescape s.
Proof. destruct c as [[] [] [] [] [] [] [] []]; reflexivity. Qed.

Theorem unescape_escape s : QueryUnescape (QueryEscape s) = Some s.
Proof. induction s as [|c s IH]; [done|]. simpl. by rewrite unescape_char, IH. Qed.

Lemma lacks_app c a b : lacks c (a ++ b) = lacks c a && lacks c b.
Proof. induction a as [|d a IH]; [done|]. simpl. by rewrite IH, andb_assoc. Qed.

(** An escaped text has none of the separators. *)
Lemma escape_lacks d s : d = "&"%char \/ d = "="%char \/ d = "?"%char \/ d = "/"%char \/ d = ";"%char -> lacks d (QueryEscape s) = true.
Proof.
  intros Hd. induction s as [|c s IH]; [done|]. simpl. rewrite lacks_app, IH, andb_true_r.
  destruct Hd as [->|[->|[->|[->| ->]]]]; destruct c as [[] [] [] [] [] [] [] []]; reflexivity.
Qed.

(** * [url.Values] *)

Abbreviation Values := (gmap string (list string)).

Definition Values_Set (k v : string) (m : Values) : Values := <[k := [v]]> m.
Definition Values_Add (k v : string) (m : Values) : Values := <[k := (default [] (m !! k) ++ [v])%list]> m.

(** The pairs that [Encode] writes: the keys in order, each with its values. *)
Definition pairs_of (m : Values) : list (string * string) :=
  concat (map (fun k => map (pair k) (default [] (m !! k))) (merge_sort String.le (map fst (map_to_list m)))).
Definition encode_pair (kv : string * string) : string := QueryEscape (fst kv) ++ String "=" (QueryEscape (snd kv)).

(** [func (v Values) Encode() string] *)
Definition Encode (m : Values) : string := String.concat "&" (map encode_pair (pairs_of m)).

(** [url.ParseQuery], without the errors it reports beside the values. *)
Definition parse_pair (s : string) : option (string * string) :=
  if negb (lacks ";" s) || String.eqb s "" then None
  else
    let '(k, v) := match cut "=" s with Some (k, v) => (k, v) | None => (s, "") end in
    match QueryUnescape k, QueryUnescape v with
    | Some k, Some v => Some (k, v)
    | _, _ => None
    end.
Definition ParseQuery (s : string) : Values := fold_left (fun m '(k, v) => Values_Add k v m) (omap parse_pair (Split s "&")) ∅.

(** ** Round trip *)

Lemma parse_encode kv : parse_pair (encode_pair kv) = Some kv.
Proof.
  destruct kv as [k v]. unfold parse_pair, encode_pair. cbn [fst snd].
  assert (lacks ";" (QueryEscape k ++ String "=" (QueryEscape v)) = true) as ->.
  { rewrite lacks_app, escape_lacks by tauto. cbn. apply escape_lacks. tauto. }
  assert (String.eqb (QueryEscape k ++ String "=" (QueryEscape v)) "" = false) as -> by (by destruct (QueryEscape k)).
  cbn [negb orb]. rewrite cut_app by (apply escape_lacks; tauto). by rewrite !unescape_escape.
Qed.

Lemma encode_pair_lacks kv : lacks "&" (encode_pair kv) = true.
Proof. unfold encode_pair. rewrite lacks_app, escape_lacks by tauto. cbn. apply escape_lacks. tauto. Qed.

Lemma split_concat c (l : list string) :
  l <> [] -> Forall (fun s => lacks c s = true) l -> split_char c (String.concat (String c "") l) = l.
Proof.
  intros Hne H. destruct l as [|x l]; [done|]. clear Hne. revert x H. induction l as [|y l IH]; intros x H; apply Forall_cons in H as [Hx H].
  - by apply split_char_lacking.
  - change (String.concat (String c "") (x :: y :: l)) with (x ++ String c "" ++ String.concat (String c "") (y :: l)).
    change (String c "" ++ ?z) with (String c z). rewrite split_char_cut by done. by rewrite IH.
Qed.

Lemma omap_parse l : omap parse_pair (map encode_pair l) = l.
Proof. induction l as [|kv l IH]; [done|]. cbn. by rewrite parse_encode, IH. Qed.

(** Adding the values of keys that are not there yet. *)
Lemma add_values k vs (m : Values) :
  fold_left (fun m '(k, v) => Values_Add k v m) (map (pair k) vs) m = match vs with [] => m | _ => <[k := (default [] (m !! k) ++ vs)%list]> m end.
Proof.
  revert m. induction vs as [|v vs IH]; intros m; [done|]. cbn. rewrite IH. unfold Values_Add at 1. destruct vs as [|v' vs]; [done|].
  unfold Values_Add. rewrite lookup_insert_eq, insert_insert_eq. cbn. by rewrite <- app_assoc.
Qed.

Lemma add_all (src : Values) ks (m : Values) :
  NoDup ks -> (forall k, k ∈ ks -> m !! k = None) -> (forall k, k ∈ ks -> default [] (src !! k) <> []) ->
  fold_left (fun m '(k, v) => Values_Add k v m) (concat (map (fun k => map (pair k) (default [] (src !! k))) ks)) m =
    list_to_map (map (fun k => (k, default [] (src !! k))) ks) ∪ m.
Proof.
  intros Hnd. revert m. induction Hnd as [|k ks Hk Hnd IH]; intros m Hm Hsrc; [by cbn; rewrite (left_id_L ∅ (∪))|]. cbn [map concat]. rewrite fold_left_app, add_values.
  rewrite (Hm k) by (by left). cbn [from_option]. destruct (default [] (src !! k)) as [|v vs] eqn:E; [exfalso; apply (Hsrc k); [by left|done]|].
  rewrite IH; [| |intros k' Hk'; apply Hsrc; by right].
  - cbn [list_to_map foldr]. rewrite <- insert_union_l. rewrite <- insert_union_r; [done|].
    apply not_elem_of_list_to_map_1. rewrite <- list_fmap_compose. intros (k'&->&Hin)%list_elem_of_fmap. done.
  - intros k' Hk'. rewrite lookup_insert_ne by (intros ->; done). apply Hm. by right.
Qed.

(** Values without empty lists are read back from their encoding. *)
Theorem values_round_trip (m : Values) : (forall k, m !! k <> Some []) -> ParseQuery (Encode m) = m.
Proof.
  intros Hm. unfold ParseQuery, Encode. rewrite Split_char.
  set (ks := merge_sort String.le (map fst (map_to_list m))). assert (ks ≡ₚ (map_to_list m).*1) as Hp by apply merge_sort_Permutation.
  assert (NoDup ks) as Hnd by (rewrite Hp; apply NoDup_fst_map_to_list).
  assert (forall k, k ∈ ks -> is_Some (m !! k)) as Hin.
  { intros k. rewrite Hp. intros ([k' v]&->&H)%list_elem_of_fmap. apply elem_of_map_to_list in H. by exists v. }
  assert (omap parse_pair (split_char "&" (String.concat "&" (map encode_pair (pairs_of m)))) = pairs_of m) as ->.
  { destruct (pairs_of m) as [|kv l] eqn:E; [done|]. rewrite split_concat; [apply omap_parse|done|].
    rewrite Forall_forall. intros s (x&->&_)%list_elem_of_fmap. apply encode_pair_lacks. }
  unfold pairs_of. fold ks. rewrite add_all; [|done|done|].
  - rewrite (right_id_L ∅ (∪)). apply map_eq. intros k. destruct (decide (k ∈ ks)) as [Hk|Hk].
    + destruct (Hin k Hk) as [v Hv]. rewrite Hv. apply elem_of_list_to_map_1.
      * change (NoDup ((fun k => (k, default [] (m !! k))) <$> ks).*1). rewrite <- list_fmap_compose. by rewrite list_fmap_id.
      * apply list_elem_of_fmap. exists k. by rewrite Hv.
    + destruct (m !! k) as [v|] eqn:E.
      * exfalso. apply Hk. rewrite Hp. apply list_elem_of_fmap. exists (k, v). split; [done|]. by apply elem_of_map_to_list.
      * apply not_elem_of_list_to_map_1. change (k ∉ ((fun k => (k, default [] (m !! k))) <$> ks).*1). rewrite <- list_fmap_compose. by rewrite list_fmap_id.
  - intros k Hk. destruct (Hin k Hk) as [v Hv]. rewrite Hv. cbn. intros ->. by apply (Hm k).
Qed.
