(* ===== verification/Retry.v ===== *)
(** [retry/retry.go]: the retrier, its backoff and jitter strategies and its
    error classifiers.

    The effects of [Do] (the context, the clock, the random source, the
    interruptible sleep and the operation itself) act on a world [W]; the model
    returns, beside the result and the new world, the trace of operation calls
    and sleeps. *)
From Stdlib Require Import ZArith Lia SpecFloat.
From S2P Require Import Prelude Float64 GoTime GoErrors.
From stdpp Require Import base gmap strings list numbers.
Open Scope string_scope.
Open Scope list_scope.
Open Scope Z_scope.

(** What [Do] uses of the runtime: the clock and the random source,
    [ctx.Err()], and [select { <-ctx.Done() | <-time.After(d) }], whose result
    is [Some (ctx.Err())] when the context won. *)
Class World (W : Type) := {
  World_Runtime :: Runtime W;
  ctx_Err : W -> option error;
  select_sleep : Duration -> W -> option error * W
}.

(** [var ErrMaxAttempts], [var ErrTimeout] *)
Definition ErrMaxAttempts : error := Sentinel "retry.ErrMaxAttempts" "retry: max attempts exceeded".
Definition ErrTimeout : error := Sentinel "retry.ErrTimeout" "retry: total timeout exceeded".

(** * Backoff strategies *)

(** [type Backoff interface { Delay(attempt int) time.Duration }] *)
Definition Backoff := Z -> Duration.

Record ExponentialBackoff := mkExponential { EInitial : Duration; EFactor : float64; EMax : Duration }.

(** The loop [for i := 0; i < attempt; i++] of [ExponentialBackoff.Delay]; the
    result is [inl] on the early return and [inr d] at the end of the loop. *)
Fixpoint exp_loop `{Arch} (b : ExponentialBackoff) (n : nat) (d : float64) : Duration + float64 :=
  match n with
  | O => inr d
  | S n' =>
      let d' := fmul d (EFactor b) in
      if (0 <? EMax b) && (EMax b <? f_to_int64 d') then inl (EMax b)
      else exp_loop b n' d'
  end.

(** [func (b ExponentialBackoff) Delay(attempt int) time.Duration] *)
Definition ExponentialDelay `{Arch} (b : ExponentialBackoff) : Backoff := fun attempt =>
  match exp_loop b (Z.to_nat attempt) (f_of_Z (EInitial b)) with
  | inl m => m
  | inr d =>
      if (0 <? EMax b) && (EMax b <? f_to_int64 d) then EMax b
      else f_to_int64 d
  end.

(** [func (f FixedBackoff) Delay(_ int) time.Duration] *)
Definition FixedDelay (f : Duration) : Backoff := fun _ => f.

Record LinearBackoff := mkLinear { LInitial : Duration; LStep : Duration; LMax : Duration }.

(** [func (l LinearBackoff) Delay(attempt int) time.Duration] *)
Definition LinearDelay (l : LinearBackoff) : Backoff := fun attempt =>
  let d := add64 (LInitial l) (mul64 (LStep l) attempt) in
  if (0 <? LMax l) && (LMax l <? d) then LMax l else d.

(** * Jitter strategies and classifiers *)

Definition Jitter (W : Type) := Duration -> (W -> float64 * W) -> W -> Duration * W.

(** [func NoJitter] *)
Definition NoJitter {W} : Jitter W := fun delay _ w => (delay, w).

(** [func FullJitter] *)
Definition FullJitter `{Arch} {W} : Jitter W := fun delay rng w =>
  let '(r, w') := rng w in (f_to_int64 (fmul (f_of_Z delay) r), w').

(** [func EqualJitter] *)
Definition EqualJitter `{Arch} {W} : Jitter W := fun delay rng w =>
  let half := Z.quot delay 2 in
  let '(r, w') := rng w in (add64 half (f_to_int64 (fmul (f_of_Z half) r)), w').

Definition Classifier := error -> bool.

(** [func RetryAny], [func RetryNever], [func RetryIf] *)
Definition RetryAny : Classifier := fun _ => true.
Definition RetryNever : Classifier := fun _ => false.
Definition RetryIf (pred : error -> bool) : Classifier := pred.

(** * The retrier *)

(** [type Retrier struct] ([rngCh] is never used). *)
Record Retrier (W : Type) := mkRetrier {
  maxAttempts : Z;
  backoff : Backoff;
  jitter : Jitter W;
  classifier : Classifier;
  maxTotalWait : Duration;
  timer : option (W -> Time * W);
  rng : option (W -> float64 * W)
}.
Arguments mkRetrier {W}.
Arguments maxAttempts {W}.
Arguments backoff {W}.
Arguments jitter {W}.
Arguments classifier {W}.
Arguments maxTotalWait {W}.
Arguments timer {W}.
Arguments rng {W}.

Definition Option W := Retrier W -> Retrier W.

Section options.
Context {W : Type}.

Definition WithMaxAttempts (n : Z) : Option W := fun r =>
  if 1 <=? n then mkRetrier n (backoff r) (jitter r) (classifier r) (maxTotalWait r) (timer r) (rng r)
  else r.

Definition WithBackoff (b : Backoff) : Option W := fun r =>
  mkRetrier (maxAttempts r) b (jitter r) (classifier r) (maxTotalWait r) (timer r) (rng r).

Definition WithJitter (j : Jitter W) : Option W := fun r =>
  mkRetrier (maxAttempts r) (backoff r) j (classifier r) (maxTotalWait r) (timer r) (rng r).

Definition WithClassifier (c : Classifier) : Option W := fun r =>
  mkRetrier (maxAttempts r) (backoff r) (jitter r) c (maxTotalWait r) (timer r) (rng r).

Definition WithMaxTotalWait (d : Duration) : Option W := fun r =>
  mkRetrier (maxAttempts r) (backoff r) (jitter r) (classifier r) d (timer r) (rng r).

Definition WithRNG (g : W -> float64 * W) : Option W := fun r =>
  mkRetrier (maxAttempts r) (backoff r) (jitter r) (classifier r) (maxTotalWait r) (timer r) (Some g).
End options.

(** The default backoff of [New]: 200ms, factor 2, at most 10s. *)
Definition defaultBackoff : ExponentialBackoff :=
  mkExponential (200 * Millisecond) (f_of_Z 2) (10 * Second).

(** [func New(opts ...Option) *Retrier] *)
Definition New `{Arch} {W} (opts : list (Option W)) : Retrier W :=
  apply_opts opts (mkRetrier 3 (ExponentialDelay defaultBackoff) NoJitter RetryAny 0 None None).

(** The observable effects of [Do]. *)
Inductive event :=
| EvCall (res : option error)
| EvSleep (d : Duration) (res : option error).

Section Do.
Context {W : Type} `{World W}.

(** [func (r *Retrier) now() time.Time] *)
Definition now (r : Retrier W) (w : W) : Time * W :=
  match timer r with
  | Some f => f w
  | None => time_Now w
  end.

(** [func (r *Retrier) random() float64] *)
Definition random (r : Retrier W) (w : W) : float64 * W :=
  match rng r with
  | Some g => g w
  | None => rand_Float64 w
  end.

(** The body of the loop for [n] remaining iterations, [attempt] being the
    index of the current one: [n = 0] is the loop test failing. *)
Fixpoint do_loop (r : Retrier W) (fn : W -> option error * W) (start : Time)
    (n : nat) (attempt : Z) (lastErr : option error) (w : W) : option error * W * list event :=
  match n with
  | O => (errors_Join [Some ErrMaxAttempts; lastErr], w, [])
  | S n' =>
      match ctx_Err w with
      | Some e => (Some e, w, [])
      | None =>
          let '(res, w) := fn w in
          match res with
          | None => (None, w, [EvCall None])
          | Some err =>
              if negb (classifier r err) then (Some err, w, [EvCall (Some err)])
              else if attempt =? maxAttempts r - 1 then
                (errors_Join [Some ErrMaxAttempts; Some err], w, [EvCall (Some err)])
              else
                let wait := backoff r attempt in
                let '(wait, w) := jitter r wait (random r) w in
                let '(timedOut, wait, w) :=
                  if 0 <? maxTotalWait r then
                    let '(t, w) := now r w in
                    let elapsed := time_sub t start in
                    let remaining := sub64 (maxTotalWait r) elapsed in
                    if remaining <=? 0 then (true, wait, w)
                    else (false, (if remaining <? wait then remaining else wait), w)
                  else (false, wait, w) in
                if (timedOut : bool) then (errors_Join [Some ErrTimeout; Some err], w, [EvCall (Some err)])
                else
                  let '(sel, w) := select_sleep wait w in
                  match sel with
                  | Some e => (Some e, w, [EvCall (Some err); EvSleep wait (Some e)])
                  | None =>
                      let '(out, w, tr) := do_loop r fn start n' (attempt + 1) (Some err) w in
                      (out, w, EvCall (Some err) :: EvSleep wait None :: tr)
                  end
          end
      end
  end.

(** [func (r *Retrier) Do(ctx context.Context, fn func(ctx context.Context) error) error] *)
Definition Do (r : Retrier W) (fn : W -> option error * W) (w : W) : option error * W * list event :=
  let '(start, w) := now r w in
  do_loop r fn start (Z.to_nat (maxAttempts r)) 0 None w.
End Do.

(** * The retry protocol

    What a run of [Do] is, as a transition system over the attempt index and the world:
    each rule says when it applies, on the context, on the operation's result and on the
    time that is left, and the events it adds. *)
Section protocol.
Context {W : Type} `{World W}.

(** The context is alive and the operation fails with an error to retry, an attempt
    being left. *)
Definition fails_again (r : Retrier W) (fn : W -> option error * W) (a : Z) (w : W) (e : error) (w' : W) : Prop :=
  ctx_Err w = None /\ fn w = (Some e, w') /\ classifier r e = true /\ a < maxAttempts r - 1.

(** The pause before the next attempt is the backoff's, jittered; under a limit, the time
    left is measured, and the pause is no longer than that.  [None] is no time left. *)
Inductive pause (r : Retrier W) (start : Time) (a : Z) (w : W) : option Duration -> W -> Prop :=
| pause_free d w1 :
    jitter r (backoff r a) (random r) w = (d, w1) -> maxTotalWait r <= 0 -> pause r start a w (Some d) w1
| pause_over d w1 t w2 :
    jitter r (backoff r a) (random r) w = (d, w1) -> 0 < maxTotalWait r -> now r w1 = (t, w2) ->
    sub64 (maxTotalWait r) (time_sub t start) <= 0 -> pause r start a w None w2
| pause_within d w1 t w2 :
    jitter r (backoff r a) (random r) w = (d, w1) -> 0 < maxTotalWait r -> now r w1 = (t, w2) ->
    0 < sub64 (maxTotalWait r) (time_sub t start) ->
    pause r start a w (Some (Z.min d (sub64 (maxTotalWait r) (time_sub t start)))) w2.

Inductive run (r : Retrier W) (fn : W -> option error * W) (start : Time) : Z -> W -> list event -> option error -> W -> Prop :=
| run_cancelled a w e :
    ctx_Err w = Some e -> run r fn start a w [] (Some e) w
| run_success a w w' :
    ctx_Err w = None -> fn w = (None, w') -> run r fn start a w [EvCall None] None w'
| run_fatal a w e w' :
    ctx_Err w = None -> fn w = (Some e, w') -> classifier r e = false -> run r fn start a w [EvCall (Some e)] (Some e) w'
| run_exhausted a w e w' :
    ctx_Err w = None -> fn w = (Some e, w') -> classifier r e = true -> a = maxAttempts r - 1 ->
    run r fn start a w [EvCall (Some e)] (Some (Joined [ErrMaxAttempts; e])) w'
| run_timed_out a w e w1 w2 :
    fails_again r fn a w e w1 -> pause r start a w1 None w2 ->
    run r fn start a w [EvCall (Some e)] (Some (Joined [ErrTimeout; e])) w2
| run_interrupted a w e w1 d w2 c w3 :
    fails_again r fn a w e w1 -> pause r start a w1 (Some d) w2 -> select_sleep d w2 = (Some c, w3) ->
    run r fn start a w [EvCall (Some e); EvSleep d (Some c)] (Some c) w3
| run_again a w e w1 d w2 w3 tr out w' :
    fails_again r fn a w e w1 -> pause r start a w1 (Some d) w2 -> select_sleep d w2 = (None, w3) ->
    run r fn start (a + 1) w3 tr out w' ->
    run r fn start a w (EvCall (Some e) :: EvSleep d None :: tr) out w'.

Definition calls (tr : list event) : list (option error) :=
  omap (fun ev => match ev with EvCall res => Some res | _ => None end) tr.

Definition sleeps (tr : list event) : list Duration :=
  omap (fun ev => match ev with EvSleep d _ => Some d | _ => None end) tr.

Lemma run_calls_bound r fn start a w tr out w' :
  run r fn start a w tr out w' -> a < maxAttempts r -> Z.of_nat (length (calls tr)) <= maxAttempts r - a.
Proof.
  intros Hr. induction Hr as [| | | | | |a w e w1 d w2 w3 tr out w' (_ & _ & _ & Ha) _ _ _ IH]; intros Hlt; cbn [calls omap length]; try (cbn; lia).
  change (calls (EvCall (Some e) :: EvSleep d None :: tr)) with (Some e :: calls tr). cbn [length]. specialize (IH ltac:(lia)). lia.
Qed.

(** A run returns nil exactly when its last call did. *)
Lemma run_nil r fn start a w tr out w' : run r fn start a w tr out w' -> out = None <-> list.last (calls tr) = Some None.
Proof.
  induction 1 as [| | | | | |a w e w1 d w2 w3 tr out w' _ _ _ _ IH]; cbn; try (by split).
  rewrite IH. unfold calls. cbn. by destruct (omap _ tr) eqn:E.
Qed.

(** The operation is not called exactly when the context was done. *)
Lemma run_no_call r fn start a w tr out w' : run r fn start a w tr out w' -> calls tr = [] <-> ctx_Err w <> None.
Proof. by destruct 1 as [? ? ? E|? ? ? E|? ? ? ? E|? ? ? ? E|? ? ? ? ? (E & _)|? ? ? ? ? ? ? ? (E & _)|? ? ? ? ? ? ? ? ? ? (E & _)]; cbn; rewrite E. Qed.

(** The world decides the run. *)
Ltac same_world :=
  repeat match goal with H : ?x = (_, _), H' : ?x = (_, _) |- _ => rewrite H in H'; simplify_eq end.
Lemma pause_unique r start a w d1 w1 d2 w2 : pause r start a w d1 w1 -> pause r start a w d2 w2 -> d1 = d2 /\ w1 = w2.
Proof. intros H1 H2. destruct H1; destruct H2; same_world; try lia; done. Qed.
Lemma run_unique r fn start a w tr1 out1 w1 tr2 out2 w2 :
  run r fn start a w tr1 out1 w1 -> run r fn start a w tr2 out2 w2 -> tr1 = tr2 /\ out1 = out2 /\ w1 = w2.
Proof.
  intros H1. revert tr2 out2 w2.
  induction H1 as [| | | |? ? ? ? ? (? & ? & ? & ?)|? ? ? ? ? ? ? ? (? & ? & ? & ?)|? ? ? ? ? ? ? ? ? ? (? & ? & ? & ?) ? ? ? IH]; intros tr' out' wend Hother;
    destruct Hother as [| | | |? ? ? ? ? (? & ? & ? & ?)|? ? ? ? ? ? ? ? (? & ? & ? & ?)|? ? ? ? ? ? ? ? ? ? (? & ? & ? & ?)]; try congruence; simplify_eq; try done; same_world; try lia; try congruence;
    repeat match goal with
    | H : pause ?r ?s ?a ?w ?x ?y, H' : pause ?r ?s ?a ?w _ _ |- _ => destruct (pause_unique _ _ _ _ _ _ _ _ H H'); clear H'; simplify_eq
    end; same_world; try done.
  match goal with H : run _ _ _ _ _ _ _ _ |- _ => destruct (IH _ _ _ H) as (-> & -> & ->) end. done.
Qed.
End protocol.

Section correctness.
Context {W : Type} `{World W}.

Lemma do_loop_run r fn start n a lastErr w :
  0 <= a -> Z.of_nat n = maxAttempts r - a -> (0 < n)%nat ->
  let '(out, w', tr) := do_loop r fn start n a lastErr w in run r fn start a w tr out w'.
Proof.
  revert a lastErr w. induction n as [|n IH]; intros a lastErr w Ha Hn Hpos; [lia|]. cbn [do_loop].
  destruct (ctx_Err w) as [e|] eqn:Hctx; [by constructor|].
  destruct (fn w) as [[err|] w1] eqn:Hfn; [|by constructor].
  destruct (classifier r err) eqn:Hc; cbn [negb]; [|by constructor].
  destruct (a =? maxAttempts r - 1) eqn:Hlast; bool_to_prop; [by apply run_exhausted|].
  destruct (jitter r (backoff r a) (random r) w1) as [wait w2] eqn:Hj.
  assert (fails_again r fn a w err w1) as Hf by (repeat split; try done; lia).
  assert (forall d w3, pause r start a w1 (Some d) w3 ->
    let '(out, w', tr) :=
      let '(sel, w) := select_sleep d w3 in
      match sel with
      | Some e => (Some e, w, [EvCall (Some err); EvSleep d (Some e)])
      | None => let '(out, w, tr) := do_loop r fn start n (a + 1) (Some err) w in (out, w, EvCall (Some err) :: EvSleep d None :: tr)
      end in run r fn start a w tr out w') as Hgo.
  { intros d w3 Hp. destruct (select_sleep d w3) as [[c|] w4] eqn:Hs; [by eapply run_interrupted|].
    specialize (IH (a + 1) (Some err) w4 ltac:(lia) ltac:(lia) ltac:(lia)).
    destruct (do_loop r fn start n (a + 1) (Some err) w4) as [[out w5] tr]. by eapply run_again. }
  destruct (0 <? maxTotalWait r) eqn:Hmax; bool_to_prop.
  - destruct (now r w2) as [t w3] eqn:Hn'. destruct (_ <=? 0) eqn:Hrem; bool_to_prop; [by eapply run_timed_out, pause_over|].
    cbv zeta. apply Hgo. assert ((if sub64 (maxTotalWait r) (time_sub t start) <? wait then sub64 (maxTotalWait r) (time_sub t start) else wait) =
      Z.min wait (sub64 (maxTotalWait r) (time_sub t start))) as -> by (destruct (Z.ltb_spec (sub64 (maxTotalWait r) (time_sub t start)) wait); lia).
    by eapply pause_within.
  - cbv zeta. apply Hgo. by apply pause_free.
Qed.

Lemma Do_run r fn w :
  1 <= maxAttempts r -> let '(out, w', tr) := Do r fn w in run r fn (fst (now r w)) 0 (snd (now r w)) tr out w'.
Proof.
  intros Hr. unfold Do. destruct (now r w) as [start w1].
  apply do_loop_run; lia.
Qed.
End correctness.

Lemma New_maxAttempts `{Arch} {W} (opts : list (Option W)) :
  Forall (fun o => forall r, 1 <= maxAttempts r -> 1 <= maxAttempts (o r)) opts ->
  1 <= maxAttempts (New opts).
Proof. intros Ho. unfold New. apply apply_opts_preserves; [done|]. simpl. lia. Qed.

(** A scripted world: the results of the successive calls, a clock, and the
    instant at which the context is cancelled. *)
Record Script := mkScript { results : list (option error); clk : Z; cancel_at : option Z }.

Definition script_err (w : Script) : option error :=
  match cancel_at w with
  | Some c => if c <=? clk w then Some Canceled else None
  | None => None
  end.

Definition script_sleep (d : Duration) (w : Script) : option error * Script :=
  let t := clk w + Z.max 0 d in
  match cancel_at w with
  | Some c => if c <=? t then (Some Canceled, mkScript (results w) (Z.max (clk w) c) (cancel_at w))
              else (None, mkScript (results w) t (cancel_at w))
  | None => (None, mkScript (results w) t (cancel_at w))
  end.

#[export] Instance ScriptRuntime : Runtime Script := {|
  time_Now := fun w => (mkTime (clk w) (Some (clk w)), w);
  rand_Float64 := fun w => (f_const 1 2, w)
|}.

#[export] Instance ScriptWorld : World Script := {|
  ctx_Err := script_err;
  select_sleep := script_sleep
|}.

Definition script_fn (w : Script) : option error * Script :=
  match results w with
  | [] => (None, w)
  | r :: rs => (r, mkScript rs (clk w) (cancel_at w))
  end.

(** ** What the loop leaves

    An invariant [I] of the world between attempts, and what a successful attempt
    establishes. *)
Section loop.
Context {W : Type} `{World W} (I J : W -> Prop) (r : Retrier W) (fn : W -> option error * W).
Hypothesis now_I : forall w, I w -> I (snd (now r w)).
Hypothesis jitter_I : forall d w, I w -> I (snd (jitter r d (random r) w)).
Hypothesis sleep_I : forall d w, I w -> I (snd (select_sleep d w)).
Hypothesis fn_IJ : forall w, I w -> match fn w with (None, w') => J w' | (Some _, w') => I w' end.

Definition left_by (run : option error * W * list event) : Prop :=
  let '(out, w', _) := run in match out with None => J w' | Some _ => I w' end.

(** A turn of the loop that calls the operation, whatever held before it. *)
Lemma do_loop_call start n a lastErr w :
  (forall a lastErr w, I w -> left_by (do_loop r fn start n a lastErr w)) ->
  ctx_Err w = None -> match fn w with (None, w') => J w' | (Some _, w') => I w' end ->
  left_by (do_loop r fn start (S n) a lastErr w).
Proof.
  intros IH Hctx Hf. cbn [do_loop]. rewrite Hctx. destruct (fn w) as [[err|] w1]; [|done].
  destruct (negb _); [done|]. destruct (_ =? _); [done|].
  pose proof (jitter_I (backoff r a) w1 Hf) as Hj. destruct (jitter r (backoff r a) (random r) w1) as [wait w2]. simpl in Hj.
  assert (Hgo : forall wait w3, I w3 -> left_by
      (let '(sel, w) := select_sleep wait w3 in
       match sel with
       | Some e => (Some e, w, [EvCall (Some err); EvSleep wait (Some e)])
       | None => let '(out, w, tr) := do_loop r fn start n (a + 1) (Some err) w in
                 (out, w, EvCall (Some err) :: EvSleep wait None :: tr)
       end)).
  { intros wait0 w3 H3. pose proof (sleep_I wait0 w3 H3) as Hs. destruct (select_sleep wait0 w3) as [[e|] w4]; [done|].
    specialize (IH (a + 1) (Some err) w4 Hs). by destruct (do_loop r fn start n (a + 1) (Some err) w4) as [[out w5] tr]. }
  destruct (0 <? maxTotalWait r); [|by apply Hgo].
  pose proof (now_I w2 Hj) as Hn. destruct (now r w2) as [t w3]. simpl in Hn.
  destruct (_ <=? 0); [done|]. by apply Hgo.
Qed.

Lemma do_loop_inv start n a lastErr w : I w -> left_by (do_loop r fn start n a lastErr w).
Proof.
  revert a lastErr w. induction n as [|n IH]; intros a lastErr w HI; [by destruct lastErr|].
  destruct (ctx_Err w) as [e|] eqn:Hctx; [by cbn [do_loop]; rewrite Hctx|]. apply do_loop_call; [done..|by apply fn_IJ].
Qed.

Lemma Do_inv w :
  I w -> left_by (Do r fn w).
Proof.
  intros HI. unfold Do. pose proof (now_I w HI) as Hn. destruct (now r w) as [start w1]. by apply do_loop_inv.
Qed.

Lemma Do_call w :
  1 <= maxAttempts r -> ctx_Err (snd (now r w)) = None ->
  match fn (snd (now r w)) with (None, w') => J w' | (Some _, w') => I w' end -> left_by (Do r fn w).
Proof.
  intros Hr Hctx Hf. unfold Do. destruct (now r w) as [start w1]. destruct (Z.to_nat (maxAttempts r)) eqn:E; [lia|].
  apply do_loop_call; [|done..]. intros. by apply do_loop_inv.
Qed.
End loop.

(** ** A retrier inside a closure

    The callers of [Do] give it a closure with variables [X] of its own beside
    the world [W]; the runtime and the retrier's strategies do not touch them. *)
Section closure.
Context {W X : Type} `{World W}.

#[local] Instance lift_Runtime : Runtime (W * X) := {|
  time_Now := fun '(w, a) => let '(t, w') := time_Now w in (t, (w', a));
  rand_Float64 := fun '(w, a) => let '(x, w') := rand_Float64 w in (x, (w', a))
|}.

#[local] Instance lift_World : World (W * X) := {|
  ctx_Err := fun '(w, _) => ctx_Err w;
  select_sleep := fun d '(w, a) => let '(e, w') := select_sleep d w in (e, (w', a))
|}.

Definition lift_fn {A} (f : W -> A * W) : W * X -> A * (W * X) := fun '(w, a) =>
  let '(x, w') := f w in (x, (w', a)).

Definition lift_retrier (r : Retrier W) : Retrier (W * X) :=
  mkRetrier (maxAttempts r) (backoff r)
    (fun d g '(w, a) =>
       let '(d', w') := jitter r d (fun w0 => let '(x, (w1, _)) := g (w0, a) in (x, w1)) w in (d', (w', a)))
    (classifier r) (maxTotalWait r) (lift_fn <$> timer r) (lift_fn <$> rng r).

(** [r.Do(ctx, closure)], the closure's variables starting as [x]. *)
Definition Do_closure (r : Retrier W) (fn : W * X -> option error * (W * X)) (w : W) (x : X)
    : option error * (W * X) * list event :=
  Do (lift_retrier r) fn (w, x).

(** An invariant of the closure's variables between attempts. *)
Section closure_inv.
Context (I J : X -> Prop) (r : Retrier W) (fn : W * X -> option error * (W * X)).
Hypothesis fn_inv : forall w x, I x -> match fn (w, x) with (None, (_, x')) => J x' | (Some _, (_, x')) => I x' end.

Lemma lift_now w x : now (lift_retrier r) (w, x) = (fst (now r w), (snd (now r w), x)).
Proof. unfold now. simpl. destruct (timer r) as [f|]; simpl; [by destruct (f w)|by destruct (time_Now w)]. Qed.
Lemma lift_kept :
  (forall w, I (snd w) -> I (snd (snd (now (lift_retrier r) w)))) /\
  (forall d w, I (snd w) -> I (snd (snd (jitter (lift_retrier r) d (random (lift_retrier r)) w)))) /\
  (forall d w, I (snd w) -> I (snd (snd (select_sleep d w)))) /\
  (forall w, I (snd w) -> match fn w with (None, w') => J (snd w') | (Some _, w') => I (snd w') end).
Proof.
  split_and!.
  - intros [w0 x0] Hs. by rewrite lift_now.
  - intros d [w0 x0] Hs. simpl. by destruct (jitter r d _ w0).
  - intros d [w0 x0] Hs. simpl. by destruct (select_sleep d w0).
  - intros [w0 x0] Hs. specialize (fn_inv w0 x0 Hs). by destruct (fn (w0, x0)) as [[e|] [w1 x1]].
Qed.

Lemma Do_closure_inv w x :
  I x -> let '(out, (_, x'), _) := Do_closure r fn w x in match out with None => J x' | Some _ => I x' end.
Proof.
  intros HI. destruct lift_kept as (H1 & H2 & H3 & H4).
  pose proof (Do_inv (fun s => I (snd s)) (fun s => J (snd s)) (lift_retrier r) fn H1 H2 H3 H4 (w, x) HI) as HD.
  unfold Do_closure. by destruct (Do (lift_retrier r) fn (w, x)) as [[out [w' x']] tr].
Qed.

(** When the context is not done at the start, what the first call establishes is enough. *)
Lemma Do_closure_call w x :
  1 <= maxAttempts r -> ctx_Err (snd (now r w)) = None ->
  (forall w, match fn (w, x) with (None, (_, x')) => J x' | (Some _, (_, x')) => I x' end) ->
  let '(out, (_, x'), _) := Do_closure r fn w x in match out with None => J x' | Some _ => I x' end.
Proof.
  intros Hr Hctx Hf. destruct lift_kept as (H1 & H2 & H3 & H4).
  pose proof (Do_call (fun s => I (snd s)) (fun s => J (snd s)) (lift_retrier r) fn H1 H2 H3 H4 (w, x) Hr) as HD.
  rewrite lift_now in HD. cbn [snd] in HD. unfold Do_closure. specialize (Hf (snd (now r w))).
  destruct (Do (lift_retrier r) fn (w, x)) as [[out [w' x']] tr]. apply HD; [done|].
  by destruct (fn (snd (now r w), x)) as [[e|] [w1 x1]].
Qed.
End closure_inv.

(** A context that is already done keeps the closure from running at all. *)
Lemma Do_closure_cancelled r fn w x e :
  1 <= maxAttempts r -> ctx_Err (snd (now r w)) = Some e ->
  Do_closure r fn w x = (Some e, (snd (now r w), x), []).
Proof.
  intros Hr Hc. unfold Do_closure, Do. rewrite lift_now. cbn. destruct (Z.to_nat (maxAttempts r)) eqn:E; [lia|].
  cbn. by rewrite Hc.
Qed.
End closure.

(** * Bounds of the delays *)

Lemma exp_loop_inl `{Arch} b n d m : exp_loop b n d = inl m -> m = EMax b.
Proof.
  revert d. induction n as [|n IH]; intros d; simpl; [done|]. case_if; intros; simplify_eq; eauto.
Qed.

(** Delays scaled by a random value of [0, 1] stay between zero and the delay. *)
Definition unit_interval (x : float64) : Prop := fvalid x /\ fnonneg x = true /\ fleb x f1 = true.

Lemma jitter_scale `{Arch} delay x :
  0 <= delay < 2 ^ 53 -> unit_interval x -> 0 <= f_to_int64 (fmul (f_of_Z delay) x) <= delay.
Proof.
  intros Hd (Vx & Nx & Hx).
  assert (is_nan (fmul (f_of_Z delay) x) = false) as Hn.
  { pose proof (frep_of_Z delay Hd) as [_ Hr]. unfold fmul.
    destruct (f_of_Z delay) as [|[]| |], x as [|[]| |]; try done. simpl. apply round_aux_sign. lia. }
  apply f_to_int64_mono; auto with lulu.
  - apply fmul_nonneg; auto with lulu. apply f_of_Z_nonneg. lia.
  - apply fmul_le_1; auto with lulu. apply f_of_Z_nonneg. lia.
Qed.

Lemma equal_jitter_bounds `{Arch} {W} delay (g : W -> float64 * W) w :
  0 <= delay < 2 ^ 53 -> unit_interval (fst (g w)) ->
  delay / 2 <= fst (EqualJitter delay g w) <= delay.
Proof.
  unfold EqualJitter. intros Hd Hu. destruct (g w) as [x w']. simpl in Hu. cbn [fst].
  pose proof (jitter_scale (Z.quot delay 2) x) as Hj.
  rewrite Z.quot_div_nonneg in * by lia.
  pose proof (Z.div_mod delay 2 ltac:(lia)). pose proof (Z.mod_pos_bound delay 2 ltac:(lia)).
  generalize dependent (delay / 2). intros h Hj Hdm.
  specialize (Hj ltac:(lia) Hu). generalize dependent (f_to_int64 (fmul (f_of_Z h) x)). intros v Hv.
  unfold add64. rewrite wrap64_id by (unfold in_int64, int64_min, int64_max; lia). lia.
Qed.

(** * Properties *)

(** C1: [Do] follows the retry protocol, and it is what the protocol allows.  Before each
    attempt the context is asked, and a context that is done is the only reason not to call
    the operation; the operation is called until it succeeds, fails with an error the
    classifier rejects, the attempts run out, the measured time leaves nothing of the total
    limit, or the context ends in a pause; each pause is the jittered backoff, cut to what
    is left of the limit.  The returned error is nil exactly if the last call succeeded, and
    otherwise the context's, the operation's own, or that joined to [ErrMaxAttempts] or
    [ErrTimeout], according to which of these happened. *)
Theorem retry_refines_protocol {W} `{World W} (r : Retrier W) fn w :
  1 <= maxAttempts r ->
  let '(start, w0) := now r w in
  let '(out, w', tr) := Do r fn w in
  run r fn start 0 w0 tr out w' /\
  (forall tr2 out2 w2, run r fn start 0 w0 tr2 out2 w2 -> tr2 = tr /\ out2 = out /\ w2 = w') /\
  Z.of_nat (length (calls tr)) <= maxAttempts r /\
  (out = None <-> list.last (calls tr) = Some None) /\
  (calls tr = [] <-> ctx_Err w0 <> None).
Proof.
  intros Hr. pose proof (Do_run r fn w Hr) as Hrun. destruct (now r w) as [start w0].
  destruct (Do r fn w) as [[out w'] tr]. cbn [fst snd] in Hrun. split_and!; [done| | | |].
  - intros tr2 out2 w2 H2. by apply (run_unique _ _ _ _ _ _ _ _ _ _ _ H2).
  - pose proof (run_calls_bound _ _ _ _ _ _ _ _ Hrun). lia.
  - by eapply run_nil.
  - by eapply run_no_call.
Qed.

Lemma retry_refines_protocol_witness :
  let r := New (H := amd64) [WithMaxAttempts 4] in
  let fails := mkScript [Some (Errorf "down"); Some (Errorf "down"); None] 0 None in
  fst (fst (Do r script_fn fails)) = None /\
  (let '(start, w0) := now r fails in
   let '(out, w', tr) := Do r script_fn fails in
   run r script_fn start 0 w0 tr out w' /\
   (forall tr2 out2 w2, run r script_fn start 0 w0 tr2 out2 w2 -> tr2 = tr /\ out2 = out /\ w2 = w') /\
   Z.of_nat (length (calls tr)) <= maxAttempts r /\
   (out = None <-> list.last (calls tr) = Some None) /\
   (calls tr = [] <-> ctx_Err w0 <> None)).
Proof.
  split; [vm_compute; reflexivity|].
  apply (retry_refines_protocol (New (H := amd64) [WithMaxAttempts 4]) script_fn). vm_compute. discriminate.
Defined.

Section exhaustion.
Context {W : Type} `{World W} (r : Retrier W) (fn : W -> option error * W) (cause : error).
Hypothesis alive : forall w, ctx_Err w = None.
Hypothesis uninterrupted : forall d w, fst (select_sleep d w) = None.
Hypothesis no_limit : maxTotalWait r <= 0.
Hypothesis fails : forall w, fst (fn w) = Some cause.
Hypothesis retryable : classifier r cause = true.
Hypothesis no_jitter : jitter r = NoJitter.

Lemma do_loop_exhausts start n a lastErr w :
  0 <= a -> Z.of_nat n = maxAttempts r - a -> (0 < n)%nat ->
  let '(out, _, tr) := do_loop r fn start n a lastErr w in
  out = Some (Joined [ErrMaxAttempts; cause]) /\
  calls tr = replicate n (Some cause) /\
  sleeps tr = map (fun i => backoff r (a + Z.of_nat i)) (seq 0 (n - 1)).
Proof.
  revert a lastErr w. induction n as [|n IH]; intros a lastErr w Ha Hn Hpos; [lia|].
  cbn [do_loop]. rewrite alive.
  pose proof (fails w) as Hf. destruct (fn w) as [res w1]. simpl in Hf. subst res.
  rewrite retryable. cbn [negb].
  destruct (a =? maxAttempts r - 1) eqn:Hlast; bool_to_prop.
  { assert (n = 0%nat) as -> by lia. done. }
  rewrite no_jitter. unfold NoJitter. destruct (0 <? maxTotalWait r) eqn:Hm; bool_to_prop; [lia|].
  pose proof (uninterrupted (backoff r a) w1) as Hs. destruct (select_sleep _ w1) as [sel w2].
  simpl in Hs. subst sel.
  specialize (IH (a + 1) (Some cause) w2 ltac:(lia) ltac:(lia) ltac:(lia)).
  destruct (do_loop r fn start n (a + 1) (Some cause) w2) as [[out w3] tr].
  destruct IH as (-> & Hc & Hs). split_and!; [done| |].
  - simpl. by rewrite Hc.
  - simpl. rewrite Hs. destruct n as [|n]; [lia|]. rewrite Nat.sub_0_r. simpl.
    rewrite Z.add_0_r, Nat.sub_0_r. f_equal. rewrite <- seq_shift, map_map.
    apply map_ext. intros i. f_equal. lia.
Qed.

(** When the operation keeps failing with the same retryable error, the
    context stays alive and no total limit is set, [Do] calls it exactly
    [maxAttempts] times, sleeps the delays of the backoff for attempts
    [0 .. maxAttempts-2] in order, and returns that error joined to
    [ErrMaxAttempts]. *)
Theorem retry_exhausts w :
  1 <= maxAttempts r ->
  let '(out, _, tr) := Do r fn w in
  out = Some (Joined [ErrMaxAttempts; cause]) /\
  calls tr = replicate (Z.to_nat (maxAttempts r)) (Some cause) /\
  sleeps tr = map (fun i => backoff r (Z.of_nat i)) (seq 0 (Z.to_nat (maxAttempts r) - 1)).
Proof.
  intros Hr. unfold Do. destruct (now r w) as [start w1].
  pose proof (do_loop_exhausts start (Z.to_nat (maxAttempts r)) 0 None w1 ltac:(lia) ltac:(lia) ltac:(lia)) as Hd.
  destruct (do_loop r fn start _ 0 None w1) as [[out w2] tr]. destruct Hd as (H1 & H2 & H3).
  split_and!; [done|done|]. rewrite H3. apply map_ext. intros i. by rewrite Z.add_0_l.
Qed.
End exhaustion.

(** A world in which nothing ever interrupts. *)
#[local] Instance QuietWorld : World unit := {|
  World_Runtime := {| time_Now := fun w => (mkTime 0 (Some 0), w);
                      rand_Float64 := fun w => (f_const 1 2, w) |};
  ctx_Err := fun _ => None;
  select_sleep := fun _ w => (None, w)
|}.

Lemma retry_exhausts_witness :
  let r := New (H := amd64) (W := unit) [WithMaxAttempts 4] in
  let '(out, _, tr) := Do r (fun w => (Some (Errorf "down"), w)) tt in
  out = Some (Joined [ErrMaxAttempts; Errorf "down"]) /\
  calls tr = replicate (Z.to_nat (maxAttempts r)) (Some (Errorf "down")) /\
  sleeps tr = map (fun i => backoff r (Z.of_nat i)) (seq 0 (Z.to_nat (maxAttempts r) - 1)).
Proof.
  apply (retry_exhausts (New (H := amd64) (W := unit) [WithMaxAttempts 4]) _ (Errorf "down"));
    intros; vm_compute; (reflexivity || discriminate).
Defined.

Section total_wait.
Context {W : Type} `{World W} (r : Retrier W) (fn : W -> option error * W) (clock : W -> Z).
(** The clock [Do] reads is [clock], it stays within the [int64] range, nothing
    turns it back, and a completed sleep lasts at least as long as asked. *)
Hypothesis clock_range : forall w, 0 <= clock w <= int64_max.
Hypothesis now_clock : forall w, mono (fst (now r w)) = Some (clock (snd (now r w))).
Hypothesis now_mono : forall w, clock w <= clock (snd (now r w)).
Hypothesis fn_mono : forall w, clock w <= clock (snd (fn w)).
Hypothesis jitter_mono : forall d w, clock w <= clock (snd (jitter r d (random r) w)).
Hypothesis sleep_lasts : forall d w,
  fst (select_sleep d w) = None -> clock w + Z.max 0 d <= clock (snd (select_sleep d w)).

Definition slept (tr : list event) : Z := sumZ (map (Z.max 0) (sleeps tr)).

Lemma do_loop_slept start n a lastErr w t0 spent :
  mono start = Some t0 -> 0 <= t0 -> 0 <= spent ->
  0 < maxTotalWait r <= int64_max -> t0 + spent <= clock w -> spent <= maxTotalWait r ->
  let '(_, _, tr) := do_loop r fn start n a lastErr w in spent + slept tr <= maxTotalWait r.
Proof.
  intros Hstart Ht0 Hsp HL. revert a lastErr w spent Hsp.
  induction n as [|n IH]; intros a lastErr w spent Hsp Hclk Hle; cbn [do_loop]; [cbn; lia|].
  destruct (ctx_Err w); [cbn; lia|].
  pose proof (fn_mono w) as Hf. destruct (fn w) as [[err|] w1]; simpl in Hf; [|cbn; lia].
  destruct (negb (classifier r err)); [cbn; lia|]. destruct (a =? maxAttempts r - 1); [cbn; lia|].
  pose proof (jitter_mono (backoff r a) w1) as Hj.
  destruct (jitter r (backoff r a) (random r) w1) as [wait w2]. simpl in Hj.
  destruct (0 <? maxTotalWait r) eqn:Hm; bool_to_prop; [|lia].
  pose proof (now_clock w2) as Hn. pose proof (now_mono w2) as Hn2.
  destruct (now r w2) as [t w3]. simpl in Hn, Hn2. pose proof (clock_range w3) as Hr3.
  assert (time_sub t start = clock w3 - t0) as Hsub.
  { unfold time_sub. rewrite Hn, Hstart. apply sat64_id. unfold in_int64, int64_min, int64_max in *. lia. }
  rewrite Hsub. simpl64.
  destruct (maxTotalWait r - (clock w3 - t0) <=? 0) eqn:Hrem; bool_to_prop; [cbn; lia|].
  remember (if _ <? wait then _ else wait) as wait' eqn:Hwait'.
  assert (Hw : spent + Z.max 0 wait' <= maxTotalWait r).
  { subst wait'. case_if; bool_to_prop; lia. }
  clear Hwait'. pose proof (sleep_lasts wait' w3) as Hs.
  destruct (select_sleep wait' w3) as [[c|] w4]; [cbn; lia|]. specialize (Hs eq_refl). simpl in Hs.
  specialize (IH (a + 1) (Some err) w4 (spent + Z.max 0 wait') ltac:(lia) ltac:(lia) Hw).
  destruct (do_loop r fn start n (a + 1) (Some err) w4) as [[out w5] tr].
  change (slept (_ :: _ :: tr)) with (Z.max 0 wait' + slept tr). lia.
Qed.

(** C2: With a total limit set, the sleeps of one [Do] never add up to more than
    the limit, whatever the backoff, the jitter and the operation do, provided
    the clock is monotone and a sleep lasts as long as it was asked to. *)
Theorem retry_total_wait_bounded w :
  0 < maxTotalWait r <= int64_max ->
  let '(_, _, tr) := Do r fn w in slept tr <= maxTotalWait r.
Proof.
  intros HL. unfold Do. pose proof (now_clock w) as Hn. pose proof (clock_range (snd (now r w))) as Hr.
  destruct (now r w) as [start w1]. simpl in Hn, Hr.
  pose proof (do_loop_slept start (Z.to_nat (maxAttempts r)) 0 None w1 (clock w1) 0) as Hd.
  destruct (do_loop r fn start _ 0 None w1) as [[out w2] tr].
  specialize (Hd Hn ltac:(lia) ltac:(lia) HL ltac:(lia) ltac:(lia)). lia.
Qed.
End total_wait.

Lemma retry_total_wait_bounded_witness :
  exists (WD : World bool) (r : Retrier bool) (fn : bool -> option error * bool),
    0 < maxTotalWait r /\ fst (fst (Do r fn false)) <> None /\
    (let '(_, _, tr) := Do r fn false in slept tr <= maxTotalWait r).
Proof.
  set (WD := {| World_Runtime :=
                  {| time_Now := fun w : bool => (mkTime 0 (Some (if w then 5000 else 0)), w);
                     rand_Float64 := fun w => (f0, w) |};
                ctx_Err := fun _ => None;
                select_sleep := fun d w => if w then (Some Canceled, w)
                                           else if 5000 <? d then (Some Canceled, w) else (None, true) |} : World bool).
  set (r := mkRetrier 5 (FixedDelay 3000) (@NoJitter bool) RetryAny 4000 None None : Retrier bool).
  set (fn := fun w : bool => (Some (Errorf "down"), w)).
  exists WD, r, fn. split; [vm_compute; reflexivity|]. split; [vm_compute; discriminate|].
  apply (retry_total_wait_bounded r fn (fun w : bool => if w then 5000 else 0)); unfold int64_max.
  - intros []; lia.
  - intros []; reflexivity.
  - intros []; vm_compute; discriminate.
  - intros []; vm_compute; discriminate.
  - intros d []; simpl; lia.
  - intros d [] Hd; simpl in Hd |- *; [discriminate|]. destruct (5000 <? d) eqn:E; [discriminate|].
    bool_to_prop. simpl. lia.
  - simpl. lia.
Defined.

(** The delay before attempt [k+2] with the default backoff is exactly
    [min(200ms * 2^k, 10s)] for every [k >= 0]: the floating-point loop computes
    the documented formula without rounding and never overflows. *)
Theorem retry_default_schedule `{Arch} k :
  0 <= k -> ExponentialDelay defaultBackoff k = Z.min (200 * Millisecond * 2 ^ k) (10 * Second).
Proof.
  intros Hk. destruct (decide (k < 6)) as [Hlt|Hge].
  - assert (k = 0 \/ k = 1 \/ k = 2 \/ k = 3 \/ k = 4 \/ k = 5) as Hcases by lia.
    destruct Hcases as [->|[->|[->|[->|[->| ->]]]]]; vm_compute; reflexivity.
  - assert (Z.min (200 * Millisecond * 2 ^ k) (10 * Second) = 10 * Second) as ->.
    { assert (2 ^ 6 <= 2 ^ k) by (apply Z.pow_le_mono_r; lia). unfold Millisecond, Second. lia. }
    unfold ExponentialDelay. replace (Z.to_nat k) with (6 + Z.to_nat (k - 6))%nat by lia.
    assert (forall n, exp_loop defaultBackoff (6 + n) (f_of_Z (EInitial defaultBackoff)) = inl (10 * Second)) as ->;
      [|done]. intros n. vm_compute. reflexivity.
Qed.

Lemma retry_default_schedule_witness :
  0 <= 3 /\ ExponentialDelay (H := amd64) defaultBackoff 3 = Z.min (200 * Millisecond * 2 ^ 3) (10 * Second).
Proof. split; [lia|]. apply (retry_default_schedule (H := amd64) 3). lia. Defined.

(** A positive [Max] is an upper bound of every exponential and linear
    delay, whatever the factor, the attempt and the architecture's float
    conversion; full jitter keeps a delay within [0, delay] and equal jitter
    within [delay/2, delay] for a random value of [0, 1]. *)
Theorem retry_delay_bounds `{Arch} {W} b l attempt delay (rng : W -> float64 * W) w :
  0 <= delay < 2 ^ 53 -> unit_interval (fst (rng w)) ->
  (0 < EMax b -> ExponentialDelay b attempt <= EMax b) /\
  (0 < LMax l -> LinearDelay l attempt <= LMax l) /\
  0 <= fst (FullJitter delay rng w) <= delay /\
  delay / 2 <= fst (EqualJitter delay rng w) <= delay.
Proof.
  intros Hd Hu. split_and!.
  - intros Hm. unfold ExponentialDelay. destruct (exp_loop _ _ _) eqn:E.
    + by rewrite (exp_loop_inl _ _ _ _ E).
    + case_if; bool_to_prop; [done|]. destruct E0; bool_to_prop; lia.
  - intros Hm. unfold LinearDelay. case_if; bool_to_prop; [done|]. destruct E; bool_to_prop; lia.
  - unfold FullJitter. destruct (rng w) as [x w']. by apply jitter_scale.
  - unfold FullJitter. destruct (rng w) as [x w']. by apply jitter_scale.
  - by apply equal_jitter_bounds.
  - by apply equal_jitter_bounds.
Qed.

Lemma retry_delay_bounds_witness :
  let b := mkExponential Second (f_of_Z 3) (10 * Second) in
  let l := mkLinear Second Second (5 * Second) in
  let half := fun w : unit => (f_const 1 2, w) in
  (0 < EMax b -> ExponentialDelay (H := amd64) b 9 <= EMax b) /\
  (0 < LMax l -> LinearDelay l 9 <= LMax l) /\
  0 <= fst (FullJitter (H := amd64) Second half tt) <= Second /\
  Second / 2 <= fst (EqualJitter (H := amd64) Second half tt) <= Second.
Proof.
  apply (retry_delay_bounds (H := amd64) _ _ 9 Second (fun w : unit => (f_const 1 2, w)) tt).
  - unfold Second. lia.
  - vm_compute. repeat split.
Defined.

(** The cap does not survive the conversion of a value beyond [int64]: on
    amd64 a backoff of 1s, factor 1e10 and [Max] 10s asks for a negative delay
    before the third attempt, that is, for no delay at all. *)
Theorem retry_exponential_overflow :
  let b := mkExponential Second (f_of_Z 10000000000) (10 * Second) in
  ExponentialDelay (H := amd64) b 0 = Second /\
  ExponentialDelay (H := amd64) b 1 = int64_min /\
  ExponentialDelay (H := arm64) b 1 = 10 * Second.
Proof. vm_compute. done. Qed.
