(* ===== verification/CircuitBreaker.v ===== *)
(** [circuitbreaker/circuitbreaker.go]: the circuit-breaker contract, and the
    ring of counting buckets that its Hystrix and SRE implementations share
    (each package has its own identical copy of that code). *)
From Stdlib Require Import ZArith Lia.
From S2P Require Import Prelude Float64 GoTime GoErrors.
From stdpp Require Import base gmap strings list numbers.
Open Scope string_scope.
Open Scope list_scope.
Open Scope Z_scope.

(** [type State int] *)
Inductive State := StateClosed | StateOpen | StateHalfOpen.

#[export] Instance State_eq_dec : EqDecision State.
Proof. solve_decision. Defined.

(** [func (s State) String() string] *)
Definition State_String (s : State) : string :=
  match s with
  | StateClosed => "closed"
  | StateOpen => "open"
  | StateHalfOpen => "half-open"
  end.

(** [var ErrCircuitOpen] *)
Definition ErrCircuitOpen : error :=
  Sentinel "circuitbreaker.ErrCircuitOpen" "circuitbreaker: circuit is open".

(** [type CircuitBreaker interface], over a store [St] that holds the breaker
    and whatever else the program keeps; [Execute] is a method of the
    interface whose body differs between implementations. *)
Class CircuitBreaker (St : Type) := {
  cb_Allow : Go St (option error);
  cb_MarkSuccess : Go St unit;
  cb_MarkFailure : Go St unit;
  cb_State : Go St State;
  cb_Close : Go St (option error)
}.

(** The body of [Execute] of the Hystrix and SRE breakers. *)
Definition execute `{CircuitBreaker St} (fn : Go St (option error)) : Go St (option error) :=
  err ← cb_Allow;
  match err with
  | Some e => mret (Some e)
  | None =>
      err ← fn;
      match err with
      | Some e => cb_MarkFailure ;; mret (Some e)
      | None => cb_MarkSuccess ;; mret None
      end
  end.

(** * The bucket ring *)

(** [type hystrixBucket struct], [type sreBucket struct] *)
Record bucket := mkBucket { requests : Z; errors : Z }.

Definition emptyBucket : bucket := mkBucket 0 0.

(** [int(now.UnixNano()/int64(b.bucketDuration)) % len(b.buckets)]; a zero
    divisor panics. *)
Definition bucket_index (bucketDuration : Duration) (buckets : list bucket) (now : Time) : option Z :=
  if (bucketDuration =? 0) || (Z.of_nat (length buckets) =? 0) then None
  else Some (Z.rem (quot64 (UnixNano now) bucketDuration) (Z.of_nat (length buckets))).

(** [buckets[idx] = f(buckets[idx])], which panics out of range. *)
Definition bucket_update (f : bucket -> bucket) (idx : Z) (buckets : list bucket) : option (list bucket) :=
  if 0 <=? idx then
    match buckets !! Z.to_nat idx with
    | Some bk => Some (<[Z.to_nat idx := f bk]> buckets)
    | None => None
    end
  else None.

(** [requests++], and [errors++] when the request failed. *)
Definition bump (failed : bool) (bk : bucket) : bucket :=
  mkBucket (add64 (requests bk) 1) (if failed then add64 (errors bk) 1 else errors bk).

(** [for i := i0; i < i0 + k; i++ { idx := (index - steps + i + 1 + n) % n; ... }] *)
Fixpoint clear_steps (index steps i : Z) (k : nat) (buckets : list bucket) : option (list bucket) :=
  match k with
  | O => Some buckets
  | S k' =>
      let n := Z.of_nat (length buckets) in
      let idx := Z.rem (index - steps + i + 1 + n) n in
      match bucket_update (fun _ => emptyBucket) idx buckets with
      | Some buckets' => clear_steps index steps (i + 1) k' buckets'
      | None => None
      end
  end.

(** The body of [rotateLocked]: the new buckets and the new [lastRotate]. *)
Definition rotate_buckets (bucketDuration : Duration) (buckets : list bucket) (lastRotate now : Time)
    : option (list bucket * Time) :=
  let elapsed := time_sub now lastRotate in
  if bucketDuration =? 0 then None
  else
    let steps := quot64 elapsed bucketDuration in
    if steps <=? 0 then Some (buckets, lastRotate)
    else
      let n := Z.of_nat (length buckets) in
      if n <=? steps then Some (map (fun _ => emptyBucket) buckets, now)
      else
        match bucket_index bucketDuration buckets now with
        | None => None
        | Some index =>
            match clear_steps index steps 0 (Z.to_nat steps) buckets with
            | Some buckets' => Some (buckets', now)
            | None => None
            end
        end.

(** The counts of the window. *)
Definition total_requests (bs : list bucket) : Z := sumZ (map requests bs).
Definition total_errors (bs : list bucket) : Z := sumZ (map errors bs).

(** Each bucket has at most as many errors as requests, and the window has at
    most [N] requests. *)
Definition bucket_ok (bk : bucket) : Prop := 0 <= errors bk <= requests bk.

Definition buckets_ok (N : Z) (bs : list bucket) : Prop :=
  Forall bucket_ok bs /\ total_requests bs <= N.

Lemma total_errors_bounds bs :
  Forall bucket_ok bs -> 0 <= total_errors bs <= total_requests bs.
Proof.
  unfold total_errors, total_requests, bucket_ok. induction 1; simpl; lia.
Qed.

Lemma total_map_empty (bs : list bucket) :
  total_requests (map (fun _ => emptyBucket) bs) = 0 /\ total_errors (map (fun _ => emptyBucket) bs) = 0.
Proof. unfold total_requests, total_errors. induction bs; simpl in *; lia. Qed.

Lemma Forall_map_empty (bs : list bucket) : Forall bucket_ok (map (fun _ => emptyBucket) bs).
Proof. induction bs; simpl; constructor; auto. unfold bucket_ok. simpl. lia. Qed.

Lemma bucket_index_some bd bs now :
  0 < bd -> bs <> [] -> 0 <= wall now <= int64_max ->
  exists i, bucket_index bd bs now = Some i /\ 0 <= i < Z.of_nat (length bs).
Proof.
  intros Hbd Hbs Hw. unfold bucket_index. destruct bs as [|bk bs]; [done|].
  destruct ((bd =? 0) || _) eqn:E; [bool_to_prop; simpl in E; destruct E; bool_to_prop; lia|].
  eexists. split; [done|]. assert (0 <= quot64 (UnixNano now) bd).
  { unfold UnixNano, quot64, int64_max in *. rewrite (wrap64_id (wall now)) by (unfold in_int64, int64_min, int64_max; lia).
    pose proof (Z.quot_pos (wall now) bd ltac:(lia) Hbd).
    pose proof (Z.quot_le_upper_bound (wall now) bd (2 ^ 63 - 1) Hbd ltac:(nia)).
    rewrite wrap64_id; unfold in_int64, int64_min, int64_max; lia. }
  apply Z.rem_bound_pos; simpl; lia.
Qed.

Lemma bucket_update_some f idx bs :
  0 <= idx < Z.of_nat (length bs) ->
  exists bk, bs !! Z.to_nat idx = Some bk /\ bucket_update f idx bs = Some (<[Z.to_nat idx := f bk]> bs).
Proof.
  intros Hi. unfold bucket_update. destruct (0 <=? idx) eqn:E; bool_to_prop; [|lia].
  destruct (bs !! Z.to_nat idx) as [bk|] eqn:Hl; [by exists bk|].
  apply lookup_ge_None in Hl. lia.
Qed.

(** Updating one bucket moves the totals by the change of that bucket. *)
Lemma totals_insert bs (i : nat) bk bk' :
  bs !! i = Some bk ->
  total_requests (<[i := bk']> bs) = total_requests bs - requests bk + requests bk' /\
  total_errors (<[i := bk']> bs) = total_errors bs - errors bk + errors bk'.
Proof.
  intros Hl. unfold total_requests, total_errors. rewrite !list_insert_map.
  split; apply sumZ_insert; by rewrite list_lookup_fmap, Hl.
Qed.

Lemma buckets_ok_le N M bs : N <= M -> buckets_ok N bs -> buckets_ok M bs.
Proof. intros HNM [? ?]. split; [done|lia]. Qed.

(** Counting one request in a well-formed ring. *)
Lemma bump_ok N failed idx bs :
  0 <= idx < Z.of_nat (length bs) -> buckets_ok N bs -> N < int64_max ->
  exists bs', bucket_update (bump failed) idx bs = Some bs' /\
    length bs' = length bs /\ buckets_ok (N + 1) bs' /\
    total_requests bs' = total_requests bs + 1 /\
    total_errors bs' = total_errors bs + (if failed then 1 else 0).
Proof.
  intros Hr [Hf Ht] HN. destruct (bucket_update_some (bump failed) idx bs Hr) as (bk & Hl & ->).
  exists (<[Z.to_nat idx := bump failed bk]> bs). split; [done|].
  pose proof (Forall_lookup_1 _ _ _ _ Hf Hl) as Hbk.
  assert (requests bk <= total_requests bs) as Hle.
  { eapply sumZ_lookup_le; [|by rewrite list_lookup_fmap, Hl].
    apply Forall_fmap. eapply List.Forall_impl; [|exact Hf]. intros x Hx. unfold bucket_ok in Hx. simpl. lia. }
  assert (requests (bump failed bk) = requests bk + 1 /\
          errors (bump failed bk) = errors bk + (if failed then 1 else 0)) as [Er Ee].
  { unfold bucket_ok, int64_max in *. unfold bump, add64. simpl.
    destruct failed; rewrite ?wrap64_id by (unfold in_int64, int64_min, int64_max; lia); lia. }
  destruct (totals_insert bs (Z.to_nat idx) bk (bump failed bk) Hl) as [Tr Te].
  split_and!; [apply length_insert| |lia|lia]. split; [|lia].
  apply Forall_insert; [done|]. unfold bucket_ok in *. rewrite Er, Ee. destruct failed; lia.
Qed.

(** What a rotation guarantees: it does not change the number of buckets and
    never increases a count. *)
Definition rotated (bs bs' : list bucket) : Prop :=
  length bs' = length bs /\
  forall i bk', bs' !! i = Some bk' -> bk' = emptyBucket \/ bs !! i = Some bk'.

Lemma rotated_refl bs : rotated bs bs.
Proof. split; auto. Qed.

Lemma rotated_trans bs1 bs2 bs3 : rotated bs1 bs2 -> rotated bs2 bs3 -> rotated bs1 bs3.
Proof.
  intros [L1 H1] [L2 H2]. split; [congruence|]. intros i bk Hi.
  destruct (H2 i bk Hi) as [->|Hi2]; auto.
Qed.

Lemma rotated_insert_empty bs (i : nat) : rotated bs (<[i := emptyBucket]> bs).
Proof.
  split; [apply length_insert|]. intros j bk Hj.
  destruct (decide (i = j)) as [->|Hne]; [|rewrite list_lookup_insert_ne in Hj; auto].
  apply list_lookup_insert_Some in Hj. naive_solver.
Qed.

Lemma rotated_map_empty (bs : list bucket) : rotated bs (map (fun _ => emptyBucket) bs).
Proof.
  split; [apply length_map|]. intros i bk Hi. left.
  rewrite list_lookup_fmap in Hi. destruct (bs !! i); naive_solver.
Qed.

Lemma rotated_cons_inv b bs b' bs' :
  rotated (b :: bs) (b' :: bs') -> (b' = emptyBucket \/ b = b') /\ rotated bs bs'.
Proof.
  intros [HL HI]. split; [destruct (HI 0%nat b' eq_refl) as [->|?]; naive_solver|].
  split; [simpl in HL; lia|]. intros i bk Hi. exact (HI (S i) bk Hi).
Qed.

Lemma rotated_ok N bs bs' : rotated bs bs' -> buckets_ok N bs -> buckets_ok N bs'.
Proof.
  intros HR [Hf HN]. enough (Forall bucket_ok bs' /\ total_requests bs' <= total_requests bs).
  { split; [tauto|lia]. }
  clear HN. revert bs' HR. induction Hf as [|b bs Hb Hf IH]; intros [|b' bs'] HR.
  - done.
  - destruct HR as [HL _]. done.
  - destruct HR as [HL _]. done.
  - apply rotated_cons_inv in HR as [Hb' HR]. specialize (IH _ HR).
    unfold total_requests, bucket_ok in *. simpl.
    assert (requests b' <= requests b /\ 0 <= errors b' <= requests b').
    { destruct Hb' as [->| ->]; simpl; lia. }
    split; [constructor|]; unfold bucket_ok; tauto || lia.
Qed.

Lemma rotated_errors bs bs' :
  rotated bs bs' -> Forall bucket_ok bs -> total_errors bs' <= total_errors bs.
Proof.
  intros HR Hf. revert bs' HR. unfold total_errors. induction Hf as [|b bs Hb Hf IH]; intros [|b' bs'] HR.
  - done.
  - by destruct HR.
  - by destruct HR.
  - apply rotated_cons_inv in HR as [Hb' HR]. specialize (IH _ HR). unfold bucket_ok in Hb. simpl.
    destruct Hb' as [->| ->]; simpl; lia.
Qed.

Lemma clear_steps_some index steps i k bs :
  0 <= index < Z.of_nat (length bs) -> 0 <= i -> i + Z.of_nat k <= steps ->
  steps < Z.of_nat (length bs) ->
  exists bs', clear_steps index steps i k bs = Some bs' /\ rotated bs bs'.
Proof.
  revert i bs. induction k as [|k IH]; intros i bs Hx Hi Hk Hs; simpl; [eauto using rotated_refl|].
  destruct (bucket_update_some (fun _ => emptyBucket)
              (Z.rem (index - steps + i + 1 + Z.of_nat (length bs)) (Z.of_nat (length bs))) bs)
    as (bk & Hl & ->); [apply Z.rem_bound_pos; lia|].
  match goal with |- context [clear_steps _ _ _ _ ?l] => set (bs1 := l) end.
  assert (R1 : rotated bs bs1) by apply rotated_insert_empty.
  assert (length bs1 = length bs) as HL by apply R1.
  destruct (IH (i + 1) bs1) as (bs' & -> & HR); try lia.
  eexists. split; [done|]. by eapply rotated_trans.
Qed.

Lemma rotate_buckets_some bd bs last now :
  0 < bd -> bs <> [] -> 0 <= wall now <= int64_max ->
  exists bs' last', rotate_buckets bd bs last now = Some (bs', last') /\ rotated bs bs' /\
    (last' = last \/ last' = now).
Proof.
  intros Hbd Hbs Hw. unfold rotate_buckets. destruct (bd =? 0) eqn:E; bool_to_prop; [lia|].
  set (steps := quot64 _ _). destruct (steps <=? 0) eqn:Es; bool_to_prop; [eauto 10 using rotated_refl|].
  destruct (_ <=? steps) eqn:En; bool_to_prop; [eauto 10 using rotated_map_empty|].
  destruct (bucket_index_some bd bs now Hbd Hbs Hw) as (i & -> & Hi).
  destruct (clear_steps_some i steps 0 (Z.to_nat steps) bs) as (bs' & -> & HR); try lia.
  eauto 10.
Qed.

Lemma rotated_not_nil bs bs' : rotated bs bs' -> bs <> [] -> bs' <> [].
Proof. intros [HL _] Hn ->. by destruct bs. Qed.

#[export] Hint Resolve Forall_map_empty rotated_refl rotated_map_empty rotated_ok rotated_not_nil : lulu.

(** A runtime whose wall clock is after 1970 and within the range of
    [UnixNano]. *)
Definition clock_ok (W : Type) `{Runtime W} : Prop :=
  forall w, 0 <= wall (fst (time_Now w)) <= int64_max.

(** A clock that advances by one second at each reading (for 136 years), and a
    random source that always yields one half. *)
#[local] Instance TickRuntime : Runtime Z := {|
  time_Now := fun w => (mkTime ((w mod 2 ^ 32) * Second) (Some ((w mod 2 ^ 32) * Second)), w + 1);
  rand_Float64 := fun w => (f_const 1 2, w)
|}.

Lemma TickRuntime_ok : clock_ok Z.
Proof.
  intros w. simpl. pose proof (Z.mod_pos_bound w (2 ^ 32)) as Hm. unfold Second, int64_max.
  generalize dependent (w mod 2 ^ 32). intros m Hm. lia.
Qed.
