(* ===== verification/Hystrix.v ===== *)
(** [circuitbreaker/hystrix/hystrix.go]: the Hystrix-style circuit breaker.

    Every method runs under the mutex, so it is one atomic action on the breaker
    and the runtime's clock; an interleaving of goroutines is a sequence of such
    actions. *)
From Stdlib Require Import ZArith Lia.
From S2P Require Import Prelude Float64 GoTime GoErrors CircuitBreaker.
From stdpp Require Import base gmap strings list numbers.
Open Scope string_scope.
Open Scope list_scope.
Open Scope Z_scope.

(** [type config struct] *)
Record config := mkConfig {
  errorThreshold : float64;
  requestVolumeThreshold : Z;
  sleepWindow : Duration;
  window : Duration;
  bucketCount : Z
}.

Definition Option := config -> config.

Definition WithErrorThreshold (rate : float64) : Option := fun c =>
  if fgtb rate f0 && fleb rate f1 then
    mkConfig rate (requestVolumeThreshold c) (sleepWindow c) (window c) (bucketCount c)
  else c.

Definition WithRequestVolumeThreshold (n : Z) : Option := fun c =>
  if 0 <? n then mkConfig (errorThreshold c) n (sleepWindow c) (window c) (bucketCount c) else c.

Definition WithSleepWindow (d : Duration) : Option := fun c =>
  if 0 <? d then mkConfig (errorThreshold c) (requestVolumeThreshold c) d (window c) (bucketCount c) else c.

Definition WithWindow (d : Duration) : Option := fun c =>
  if 0 <? d then mkConfig (errorThreshold c) (requestVolumeThreshold c) (sleepWindow c) d (bucketCount c) else c.

Definition WithBucketCount (n : Z) : Option := fun c =>
  if 0 <? n then mkConfig (errorThreshold c) (requestVolumeThreshold c) (sleepWindow c) (window c) n else c.

Definition defaultConfig : config :=
  mkConfig (f_const 1 2) 20 (5 * Second) (10 * Second) 10.

(** [type Breaker struct] *)
Record Breaker := mkBreaker {
  cfg : config;
  bucketDuration : Duration;
  buckets : list bucket;
  lastRotate : Time;
  state : State;
  openedAt : Time;
  halfOpenIn : bool;
  closed : bool
}.

Definition set_buckets (bs : list bucket) (b : Breaker) : Breaker :=
  mkBreaker (cfg b) (bucketDuration b) bs (lastRotate b) (state b) (openedAt b) (halfOpenIn b) (closed b).
Definition set_lastRotate (t : Time) (b : Breaker) : Breaker :=
  mkBreaker (cfg b) (bucketDuration b) (buckets b) t (state b) (openedAt b) (halfOpenIn b) (closed b).
Definition set_state (s : State) (b : Breaker) : Breaker :=
  mkBreaker (cfg b) (bucketDuration b) (buckets b) (lastRotate b) s (openedAt b) (halfOpenIn b) (closed b).
Definition set_openedAt (t : Time) (b : Breaker) : Breaker :=
  mkBreaker (cfg b) (bucketDuration b) (buckets b) (lastRotate b) (state b) t (halfOpenIn b) (closed b).
Definition set_halfOpenIn (h : bool) (b : Breaker) : Breaker :=
  mkBreaker (cfg b) (bucketDuration b) (buckets b) (lastRotate b) (state b) (openedAt b) h (closed b).
Definition set_closed (c : bool) (b : Breaker) : Breaker :=
  mkBreaker (cfg b) (bucketDuration b) (buckets b) (lastRotate b) (state b) (openedAt b) (halfOpenIn b) c.

Section methods.
Context {W : Type} `{Runtime W}.

Definition Now : Go (Breaker * W) Time := go_snd (fun w => let '(t, w') := time_Now w in (Returned t, w')).
Definition Get : Go (Breaker * W) Breaker := fun s => (Returned (fst s), s).
Definition Set_ (f : Breaker -> Breaker) : Go (Breaker * W) unit := go_fst (go_modify f).

(** [func New(opts ...Option) *Breaker]; [make] panics on a negative length,
    which no option sets. *)
Definition New (opts : list Option) (w : W) : Breaker * W :=
  let c := apply_opts opts defaultConfig in
  let bd := quot64 (window c) (bucketCount c) in
  let '(t, w') := time_Now w in
  (mkBreaker c bd (replicate (Z.to_nat (bucketCount c)) emptyBucket) t StateClosed zeroTime false false, w').

(** [func (b *Breaker) bucketIndexLocked(now time.Time) int] *)
Definition bucketIndexLocked (now : Time) (b : Breaker) : option Z :=
  bucket_index (bucketDuration b) (buckets b) now.

(** [func (b *Breaker) rotateLocked(now time.Time)] *)
Definition rotateLocked (now : Time) : Go (Breaker * W) unit :=
  b ← Get;
  '(bs, last) ← go_try (rotate_buckets (bucketDuration b) (buckets b) (lastRotate b) now);
  Set_ (fun b => set_lastRotate last (set_buckets bs b)).

(** [func (b *Breaker) resetBucketsLocked()] *)
Definition resetBucketsLocked : Go (Breaker * W) unit :=
  Set_ (fun b => set_buckets (map (fun _ => emptyBucket) (buckets b)) b).

(** [func (b *Breaker) evaluateLocked()] *)
Definition evaluateLocked : Go (Breaker * W) unit :=
  b ← Get;
  if decide (state b <> StateClosed) then mret tt
  else
    let '(totalReqs, totalErrs) :=
      fold_left (fun '(r, e) bk => (add64 r (requests bk), add64 e (errors bk))) (buckets b) (0, 0) in
    if totalReqs <? requestVolumeThreshold (cfg b) then mret tt
    else if totalReqs =? 0 then mret tt
    else
      let errorRate := fdiv (f_of_Z totalErrs) (f_of_Z totalReqs) in
      if fgeb errorRate (errorThreshold (cfg b)) then
        Set_ (set_state StateOpen) ;;
        t ← Now;
        Set_ (set_openedAt t)
      else mret tt.

(** [b.buckets[idx].requests++], and [.errors++] when [failed]. *)
Definition count (failed : bool) (now : Time) : Go (Breaker * W) unit :=
  b ← Get;
  idx ← go_try (bucketIndexLocked now b);
  bs ← go_try (bucket_update (bump failed) idx (buckets b));
  Set_ (set_buckets bs).

(** [func (b *Breaker) Allow() error] *)
Definition Allow : Go (Breaker * W) (option error) :=
  b ← Get;
  if closed b then mret (Some ErrCircuitOpen)
  else
    now ← Now;
    let half_open : Go (Breaker * W) (option error) :=
      b ← Get;
      if halfOpenIn b then mret (Some ErrCircuitOpen)
      else Set_ (set_halfOpenIn true) ;; mret None in
    match state b with
    | StateOpen =>
        if sleepWindow (cfg b) <=? time_sub now (openedAt b) then
          Set_ (set_state StateHalfOpen) ;;
          Set_ (set_halfOpenIn true) ;;
          half_open
        else mret (Some ErrCircuitOpen)
    | StateHalfOpen => half_open
    | StateClosed => mret None
    end.

(** [func (b *Breaker) MarkSuccess()] *)
Definition MarkSuccess : Go (Breaker * W) unit :=
  now ← Now;
  rotateLocked now ;;
  b ← Get;
  if decide (state b = StateHalfOpen) then
    Set_ (set_state StateClosed) ;;
    Set_ (set_halfOpenIn false) ;;
    resetBucketsLocked
  else
    count false now ;;
    evaluateLocked.

(** [func (b *Breaker) MarkFailure()] *)
Definition MarkFailure : Go (Breaker * W) unit :=
  now ← Now;
  rotateLocked now ;;
  b ← Get;
  if decide (state b = StateHalfOpen) then
    Set_ (set_state StateOpen) ;;
    Set_ (set_openedAt now) ;;
    Set_ (set_halfOpenIn false)
  else
    count true now ;;
    evaluateLocked.

(** [func (b *Breaker) State() circuitbreaker.State]; the clock is read only
    when the breaker is open. *)
Definition State_ : Go (Breaker * W) State :=
  b ← Get;
  (if decide (state b = StateOpen) then
     now ← Now;
     if sleepWindow (cfg b) <=? time_sub now (openedAt b) then Set_ (set_state StateHalfOpen) else mret tt
   else mret tt) ;;
  b ← Get;
  mret (state b).

(** [func (b *Breaker) Close() error] *)
Definition Close : Go (Breaker * W) (option error) :=
  Set_ (set_closed true) ;; mret None.

#[export] Instance hystrix_CircuitBreaker : CircuitBreaker (Breaker * W) := {|
  cb_Allow := Allow;
  cb_MarkSuccess := MarkSuccess;
  cb_MarkFailure := MarkFailure;
  cb_State := State_;
  cb_Close := Close
|}.

(** [func (b *Breaker) Execute(ctx context.Context, fn func() error) error] *)
Definition Execute (fn : Go (Breaker * W) (option error)) : Go (Breaker * W) (option error) :=
  execute fn.

End methods.

(** * The breaker's invariant and the effect of its actions *)

Section facts.
Context {W : Type} `{Runtime W}.

Implicit Types (b : Breaker) (w : W).

(** The buckets are well formed with at most [N] requests, and a trial is in
    progress only in the half-open state. *)
Definition Inv (N : Z) (b : Breaker) : Prop :=
  0 < bucketDuration b /\ buckets b <> [] /\ buckets_ok N (buckets b) /\
  (state b <> StateHalfOpen -> halfOpenIn b = false).

(** The condition under which [evaluateLocked] opens the breaker. *)
Definition trips (b : Breaker) : bool :=
  bool_decide (state b = StateClosed) &&
  (requestVolumeThreshold (cfg b) <=? total_requests (buckets b)) &&
  negb (total_requests (buckets b) =? 0) &&
  fgeb (fdiv (f_of_Z (total_errors (buckets b))) (f_of_Z (total_requests (buckets b))))
       (errorThreshold (cfg b)).

Lemma fold_totals bs r e :
  Forall bucket_ok bs -> 0 <= e <= r -> r + total_requests bs <= int64_max ->
  fold_left (fun '(r, e) bk => (add64 r (requests bk), add64 e (errors bk))) bs (r, e) =
  (r + total_requests bs, e + total_errors bs).
Proof.
  intros Hf. revert r e. unfold total_requests, total_errors, int64_max.
  induction Hf as [|bk bs Hbk Hf IH]; intros r e He Hr; simpl; [by rewrite !Z.add_0_r|].
  simpl in Hr. pose proof (total_errors_bounds bs Hf) as Hb. unfold total_errors, total_requests, bucket_ok in *.
  rewrite IH; simpl64; [f_equal; lia|lia|lia].
Qed.

Lemma evaluateLocked_eq N b w :
  buckets_ok N (buckets b) -> N <= int64_max ->
  evaluateLocked (b, w) =
    (Returned tt,
     if trips b then
       let '(t, w') := time_Now w in (set_openedAt t (set_state StateOpen b), w')
     else (b, w)).
Proof.
  intros [Hf HN] Hmax. unfold evaluateLocked, trips, Get, mbind, Go_bind. simpl.
  rewrite (fold_totals _ 0 0) by (auto; lia). rewrite !Z.add_0_l.
  destruct (decide (state b <> StateClosed)) as [Hs|Hs].
  { by rewrite bool_decide_false. }
  apply dec_stable in Hs. rewrite bool_decide_true by done. simpl.
  rewrite Z.leb_antisym. destruct (_ <? _); simpl; [done|]. destruct (_ =? 0); simpl; [done|].
  destruct (fgeb _ _); [|done]. unfold Set_, Now. simpl. by destruct (time_Now w) as [t w'].
Qed.

Lemma rotateLocked_eq b w now :
  0 < bucketDuration b -> buckets b <> [] -> 0 <= wall now <= int64_max ->
  exists bs last, rotateLocked now (b, w) = (Returned tt, (set_lastRotate last (set_buckets bs b), w)) /\
    rotate_buckets (bucketDuration b) (buckets b) (lastRotate b) now = Some (bs, last) /\
    rotated (buckets b) bs.
Proof.
  intros Hbd Hbs Hw.
  destruct (rotate_buckets_some _ _ (lastRotate b) now Hbd Hbs Hw) as (bs & last & E & HR & _).
  exists bs, last. split; [|done]. unfold rotateLocked, Get, mbind, Go_bind. simpl. by rewrite E.
Qed.

Lemma count_eq N failed b w now :
  0 < bucketDuration b -> buckets b <> [] -> 0 <= wall now <= int64_max ->
  buckets_ok N (buckets b) -> N < int64_max ->
  exists bs, count failed now (b, w) = (Returned tt, (set_buckets bs b, w)) /\
    length bs = length (buckets b) /\ buckets_ok (N + 1) bs /\
    total_requests bs = total_requests (buckets b) + 1 /\
    total_errors bs = total_errors (buckets b) + (if failed then 1 else 0).
Proof.
  intros Hbd Hbs Hw Hok HN.
  destruct (bucket_index_some _ _ now Hbd Hbs Hw) as (i & Hi & Hr).
  destruct (bump_ok N failed i (buckets b) Hr Hok HN) as (bs & Hb & Hrest).
  exists bs. split; [|done].
  unfold count, bucketIndexLocked, Get, mbind, Go_bind. simpl. rewrite Hi. simpl. by rewrite Hb.
Qed.

(** The breaker after a mark, and the readings it consumed. *)
Lemma Mark_eq N (failed : bool) b w :
  clock_ok W -> Inv N b -> N < int64_max ->
  let '(now, w1) := time_Now w in
  exists bs last bs',
    rotate_buckets (bucketDuration b) (buckets b) (lastRotate b) now = Some (bs, last) /\
    rotated (buckets b) bs /\
    length bs' = length bs /\ buckets_ok (N + 1) bs' /\
    total_requests bs' = total_requests bs + 1 /\
    total_errors bs' = total_errors bs + (if failed then 1 else 0) /\
    (if failed then MarkFailure else MarkSuccess) (b, w) =
      (Returned tt,
       if decide (state b = StateHalfOpen) then
         (if failed then
            set_halfOpenIn false (set_openedAt now (set_state StateOpen (set_lastRotate last (set_buckets bs b))))
          else
            set_buckets (map (fun _ => emptyBucket) bs)
              (set_halfOpenIn false (set_state StateClosed (set_lastRotate last (set_buckets bs b)))), w1)
       else
         let b' := set_buckets bs' (set_lastRotate last b) in
         if trips b' then
           let '(t, w2) := time_Now w1 in (set_openedAt t (set_state StateOpen b'), w2)
         else (b', w1)).
Proof.
  intros Hclk (Hbd & Hbs & Hok & _) HN. specialize (Hclk w).
  assert (Hnow : Now (b, w) = let '(t, w1) := time_Now w in (Returned t, (b, w1))).
  { unfold Now. simpl. by destruct (time_Now w). }
  destruct (time_Now w) as [now w1]. simpl in Hclk.
  destruct (rotateLocked_eq b w1 now Hbd Hbs Hclk) as (bs & last & Hrot & Hrb & HR).
  set (b1 := set_lastRotate last (set_buckets bs b)) in *.
  assert (Hok1 : buckets_ok N bs) by eauto with lulu.
  destruct (count_eq N failed b1 w1 now) as (bs' & Hc & HL & Hok' & Hr & He); simpl; eauto with lulu.
  exists bs, last, bs'. split_and!; try done; eauto with lulu.
  destruct failed; unfold MarkFailure, MarkSuccess.
  all: rewrite (go_bind_returned _ _ _ _ _ Hnow), (go_bind_returned _ _ _ _ _ Hrot).
  all: change ((Get ≫= ?f) (b1, w1)) with (f b1 (b1, w1)); cbv beta; change (state b1) with (state b).
  all: destruct (decide (state b = StateHalfOpen)); [reflexivity|].
  all: rewrite (go_bind_returned _ _ _ _ _ Hc), (evaluateLocked_eq (N + 1)) by (done || lia).
  all: reflexivity.
Qed.
End facts.

(** * Runs of the breaker *)

Inductive op := OpAllow | OpMarkSuccess | OpMarkFailure | OpState | OpClose.

Section runs.
Context {W : Type} `{Runtime W}.

Implicit Types (b : Breaker) (w : W).

(** One action; the observation is [Some true] for a request admitted by
    [Allow], [Some false] for one it rejected, [None] for the other methods. *)
Definition step (o : op) : Go (Breaker * W) (option bool) :=
  match o with
  | OpAllow => err ← Allow; mret (Some (bool_decide (err = None)))
  | OpMarkSuccess => MarkSuccess ;; mret None
  | OpMarkFailure => MarkFailure ;; mret None
  | OpState => State_ ;; mret None
  | OpClose => Close ;; mret None
  end.

Fixpoint run (ops : list op) : Go (Breaker * W) (list (option bool)) :=
  match ops with
  | [] => mret []
  | o :: ops' => x ← step o; xs ← run ops'; mret (x :: xs)
  end.

Definition admitted (obs : list (option bool)) : nat := length (filter (fun x => x = Some true) obs).

(** [Allow] as one equation. *)
Lemma Allow_eq b w :
  Allow (b, w) =
    if closed b then (Returned (Some ErrCircuitOpen), (b, w))
    else
      let '(now, w1) := time_Now w in
      match state b with
      | StateClosed => (Returned None, (b, w1))
      | StateOpen =>
          (Returned (Some ErrCircuitOpen),
           ((if sleepWindow (cfg b) <=? time_sub now (openedAt b)
             then set_halfOpenIn true (set_state StateHalfOpen b) else b), w1))
      | StateHalfOpen =>
          if halfOpenIn b then (Returned (Some ErrCircuitOpen), (b, w1))
          else (Returned None, (set_halfOpenIn true b, w1))
      end.
Proof.
  unfold Allow, Get, Now, go_snd, mbind, Go_bind. simpl. destruct (closed b); [done|].
  destruct (time_Now w) as [now w1]. destruct (state b); [reflexivity| |].
  - destruct (_ <=? _); reflexivity.
  - simpl. destruct (halfOpenIn b); reflexivity.
Qed.

Lemma State_eq b w :
  State_ (b, w) =
    if decide (state b = StateOpen) then
      let '(now, w1) := time_Now w in
      if sleepWindow (cfg b) <=? time_sub now (openedAt b)
      then (Returned StateHalfOpen, (set_state StateHalfOpen b, w1))
      else (Returned StateOpen, (b, w1))
    else (Returned (state b), (b, w)).
Proof.
  unfold State_, Get, Now, go_snd, mbind, Go_bind. simpl. destruct (decide (state b = StateOpen)) as [E|]; [|done].
  destruct (time_Now w) as [now w1]. destruct (_ <=? _); [reflexivity|]. simpl. by rewrite E.
Qed.

(** The action returned: gives the results, and closes the goal on the store
    when it is unchanged. *)
Ltac exec HI := do 3 eexists; split; [reflexivity|]; split; [try exact HI|reflexivity].

Lemma Inv_le N M b : N <= M -> Inv N b -> Inv M b.
Proof. intros ? (? & ? & ? & ?). split_and!; eauto using buckets_ok_le. Qed.

Lemma step_inv N o b w :
  clock_ok W -> Inv N b -> 0 <= N < int64_max ->
  exists x b' w', step o (b, w) = (Returned x, (b', w')) /\ Inv (N + 1) b' /\ cfg b' = cfg b.
Proof.
  intros Hclk HI HN. assert (HI1 : Inv (N + 1) b) by (eapply Inv_le; [|done]; lia).
  pose proof HI1 as (Hbd & Hbs & Hok & Hh).
  assert (Hmark : forall failed : bool, exists b' w',
    (if failed then MarkFailure else MarkSuccess) (b, w) = (Returned tt, (b', w')) /\ Inv (N + 1) b' /\ cfg b' = cfg b).
  { intros failed. pose proof (Mark_eq N failed b w Hclk HI ltac:(lia)) as HM.
    destruct (time_Now w) as [now w1]. destruct HM as (bs & last & bs' & Hrot & HR & HL & Hok' & Hr & He & ->).
    assert (Hne : bs <> []) by eauto with lulu. assert (Hne' : bs' <> []) by (destruct bs, bs'; done).
    destruct (decide (state b = StateHalfOpen)).
    - do 2 eexists. split; [done|]. split; [|by destruct failed].
      destruct failed; split_and!; simpl; try done; [by eauto with lulu|by destruct bs|].
      split; [auto with lulu|]. destruct (total_map_empty bs). lia.
    - cbv zeta. destruct (trips _); [destruct (time_Now w1) as [t w2]|].
      all: do 2 eexists; split; [reflexivity|]; split; [|reflexivity]; split_and!; simpl; auto. }
  unfold step, mbind, Go_bind. destruct o.
  - rewrite Allow_eq. destruct (closed b); [by exec HI1|]. destruct (time_Now w) as [now w1].
    destruct (state b) eqn:Es; [by exec HI1| |].
    + destruct (_ <=? _); [|by exec HI1]. exec HI1. by split_and!.
    + destruct (halfOpenIn b) eqn:Ei; [by exec HI1|]. exec HI1. split_and!; simpl; [done..|congruence].
  - destruct (Hmark false) as (b' & w' & -> & ? & ?). by do 3 eexists.
  - destruct (Hmark true) as (b' & w' & -> & ? & ?). by do 3 eexists.
  - rewrite State_eq. destruct (decide _) as [Es|]; [|by exec HI1].
    destruct (time_Now w) as [now w1]. destruct (_ <=? _); exec HI1. by split_and!.
  - exec HI1.
Qed.
End runs.

(** * Properties *)

Section properties.
Context {W : Type} `{Runtime W}.

Lemma run_inv ops N b w :
  clock_ok W -> Inv N b -> 0 <= N -> N + Z.of_nat (length ops) <= int64_max ->
  exists xs b' w', run ops (b, w) = (Returned xs, (b', w')) /\
    Inv (N + Z.of_nat (length ops)) b' /\ cfg b' = cfg b.
Proof.
  intros Hclk. revert N b w. induction ops as [|o ops IH]; intros N b w HI HN Hlen; simpl in *.
  { do 3 eexists. split; [reflexivity|]. by rewrite Z.add_0_r. }
  destruct (step_inv N o b w Hclk HI ltac:(lia)) as (x & b1 & w1 & E & HI1 & Hc).
  destruct (IH (N + 1) b1 w1 HI1) as (xs & b' & w' & E' & HI' & Hc'); [lia..|].
  exists (x :: xs), b', w'. rewrite (go_bind_returned _ _ _ _ _ E), (go_bind_returned _ _ _ _ _ E').
  split; [done|]. split; [|congruence]. by replace (N + Z.of_nat _) with (N + 1 + Z.of_nat (length ops)) by lia.
Qed.

Lemma run_length ops s xs s' : run ops s = (Returned xs, s') -> length xs = length ops.
Proof.
  revert s xs. induction ops as [|o ops IH]; intros s xs E; simpl in E.
  { unfold mret, Go_ret in E. by simplify_eq. }
  unfold mbind, Go_bind, mret, Go_ret in E. destruct (step o s) as [[x|] s1]; [|done].
  destruct (run ops s1) as [[ys|] s2] eqn:E1; [|done]. simplify_eq. simpl. f_equal. eauto.
Qed.

Lemma New_inv opts w :
  let c := apply_opts opts defaultConfig in
  0 < bucketCount c <= window c -> window c <= int64_max ->
  Inv 0 (fst (New opts w)) /\ cfg (fst (New opts w)) = c /\ state (fst (New opts w)) = StateClosed.
Proof.
  intros c Hbc Hw. unfold New. fold c. destruct (time_Now w) as [t w']. simpl.
  split; [|done]. split_and!; simpl; [| | |done].
  - unfold quot64. pose proof (Z.quot_str_pos (window c) (bucketCount c)) as Hq.
    pose proof (Z.quot_le_upper_bound (window c) (bucketCount c) int64_max). unfold int64_max in *.
    rewrite wrap64_id; [lia|]. unfold in_int64, int64_min, int64_max. nia.
  - destruct (Z.to_nat (bucketCount c)) eqn:E; [lia|done].
  - split; [apply Forall_replicate; unfold bucket_ok; simpl; lia|].
    unfold total_requests. induction (Z.to_nat (bucketCount c)); simpl in *; lia.
Qed.

(** C3: A breaker built with a window of at least one nanosecond per bucket
    never panics: whatever the interleaving of its methods and whatever the
    clock (after 1970), every method returns, each bucket keeps at most as many
    errors as requests, the window never counts more requests than there were
    calls, and a trial is marked in progress only in the half-open state. *)
Theorem hystrix_invariant opts ops (w : W) :
  let c := apply_opts opts defaultConfig in
  clock_ok W -> 0 < bucketCount c <= window c -> window c <= int64_max ->
  Z.of_nat (length ops) <= int64_max ->
  exists xs b' w', run ops (New opts w) = (Returned xs, (b', w')) /\
    length xs = length ops /\ Inv (Z.of_nat (length ops)) b' /\ cfg b' = c.
Proof.
  intros c Hclk Hbc Hw Hlen. destruct (New_inv opts w Hbc Hw) as (HI & Hc & _).
  destruct (New opts w) as [b0 w0]. simpl in *.
  destruct (run_inv ops 0 b0 w0 Hclk HI) as (xs & b' & w' & E & HI' & Hc'); [lia..|].
  exists xs, b', w'. rewrite Z.add_0_l in HI'. split_and!; [done| |done|by rewrite Hc', Hc].
  by eapply run_length.
Qed.

(** What a mark does to a closed breaker. *)
Lemma mark_closed N (failed : bool) b (w : W) :
  clock_ok W -> Inv N b -> N + 1 < 2 ^ 53 -> state b = StateClosed ->
  fgtb (errorThreshold (cfg b)) f0 = true -> fleb (errorThreshold (cfg b)) f1 = true ->
  0 < requestVolumeThreshold (cfg b) ->
  exists bs last b' w',
    rotate_buckets (bucketDuration b) (buckets b) (lastRotate b) (fst (time_Now w)) = Some (bs, last) /\
    rotated (buckets b) bs /\
    (if failed then MarkFailure else MarkSuccess) (b, w) = (Returned tt, (b', w')) /\
    let R := total_requests bs + 1 in
    let E := total_errors bs + (if failed then 1 else 0) in
    total_requests (buckets b') = R /\ total_errors (buckets b') = E /\
    (state b' = StateOpen <->
       requestVolumeThreshold (cfg b) <= R /\ fgeb (fdiv (f_of_Z E) (f_of_Z R)) (errorThreshold (cfg b)) = true) /\
    (E = R -> requestVolumeThreshold (cfg b) <= R -> state b' = StateOpen) /\
    (E = 0 -> state b' = StateClosed).
Proof.
  intros Hclk HI HN Hs Ht0 Ht1 Hv. pose proof HI as (_ & _ & Hok & _).
  pose proof (Mark_eq N failed b w Hclk HI ltac:(unfold int64_max; lia)) as HM.
  destruct (time_Now w) as [now w1]. destruct HM as (bs & last & bs' & Hrot & HR & HL & Hok' & Hr & He & ->).
  exists bs, last. rewrite decide_False by congruence. cbv zeta.
  assert (Hbound : 0 < total_requests bs' < 2 ^ 53).
  { pose proof (rotated_ok _ _ _ HR Hok) as [Hf Hle]. destruct (total_errors_bounds bs Hf). lia. }
  set (b1 := set_buckets bs' _).
  assert (Htrip : trips b1 = true <-> requestVolumeThreshold (cfg b) <= total_requests bs' /\
                  fgeb (fdiv (f_of_Z (total_errors bs')) (f_of_Z (total_requests bs'))) (errorThreshold (cfg b)) = true).
  { unfold trips, b1. simpl. rewrite Hs, bool_decide_true by done. rewrite !andb_true_iff, Z.leb_le, negb_true_iff, Z.eqb_neq.
    naive_solver lia. }
  rewrite <- Hr, <- He.
  assert (Hall : total_errors bs' = total_requests bs' -> requestVolumeThreshold (cfg b) <= total_requests bs' ->
                 trips b1 = true).
  { intros Eq Hvol. apply Htrip. split; [done|]. rewrite Eq. by rewrite fdiv_of_Z_self. }
  assert (Hnone : total_errors bs' = 0 -> trips b1 = false).
  { intros Eq. apply not_true_iff_false. intros Htr. apply Htrip in Htr as [_ Hge]. rewrite Eq, fdiv_0_of_Z in Hge by done.
    unfold fgeb, fgtb in *. pose proof (fltb_fleb_trans _ _ _ Ht0 Hge). by vm_compute in H0. }
  destruct (trips b1) eqn:Etr.
  - destruct (time_Now w1) as [t w2]. do 2 eexists. split; [done|]. split; [done|]. split; [reflexivity|].
    split_and!; try done; [tauto|naive_solver].
  - do 2 eexists. split; [done|]. split; [done|]. split; [reflexivity|]. split_and!; try done.
    + simpl. rewrite Hs, <- Htrip. split; [done|]. intros; discriminate.
    + intros Eq Hvol. by specialize (Hall Eq Hvol).
Qed.

(** Successes alone keep a breaker without recorded errors closed. *)
Lemma mark_clean N b (w : W) :
  clock_ok W -> Inv N b -> 0 <= N -> N + 1 < 2 ^ 53 -> state b = StateClosed ->
  fgtb (errorThreshold (cfg b)) f0 = true -> fleb (errorThreshold (cfg b)) f1 = true ->
  0 < requestVolumeThreshold (cfg b) -> total_errors (buckets b) = 0 ->
  exists b' w', MarkSuccess (b, w) = (Returned tt, (b', w')) /\ Inv (N + 1) b' /\ state b' = StateClosed /\
    total_errors (buckets b') = 0 /\ cfg b' = cfg b /\ closed b' = closed b.
Proof.
  intros Hclk HI HN0 HN Hs Ht0 Ht1 Hv He.
  destruct (mark_closed N false b w Hclk HI HN Hs Ht0 Ht1 Hv) as (bs & last & b' & w' & _ & HR & HM & _ & He' & _ & _ & Hcl).
  destruct (step_inv N OpMarkSuccess b w Hclk HI) as (x & b1 & w1 & Est & HI1 & Hc1); [unfold int64_max; lia|].
  unfold step, mbind, Go_bind in Est. rewrite HM in Est. unfold mret, Go_ret in Est. simplify_eq.
  assert (He0 : total_errors bs = 0).
  { destruct HI as (_ & _ & Hok & _). pose proof (rotated_errors _ _ HR (proj1 Hok)).
    destruct (total_errors_bounds bs (proj1 (rotated_ok _ _ _ HR Hok))). lia. }
  exists b1, w1. split_and!; try done; [apply Hcl; lia|lia|].
  pose proof (Mark_eq N false b w Hclk HI ltac:(unfold int64_max; lia)) as HE. destruct (time_Now w) as [now w2].
  destruct HE as (? & ? & ? & _ & _ & _ & _ & _ & _ & E). simpl in E. rewrite HM in E.
  rewrite decide_False in E by congruence. cbv zeta in E. destruct (trips _); [destruct (time_Now w2)|]; by simplify_eq.
Qed.

End properties.

#[local] Existing Instance TickRuntime.

Lemma hystrix_invariant_witness :
  exists xs b' w',
    run [OpAllow; OpMarkFailure; OpAllow; OpMarkSuccess] (New (H := TickRuntime) [WithBucketCount 4] 0) =
      (Returned xs, (b', w')) /\
    length xs = 4%nat /\ Inv 4 b' /\ cfg b' = WithBucketCount 4 defaultConfig.
Proof.
  apply (hystrix_invariant (H := TickRuntime) [WithBucketCount 4]
           [OpAllow; OpMarkFailure; OpAllow; OpMarkSuccess] 0);
    [apply TickRuntime_ok|vm_compute; repeat split; discriminate..].
Defined.


Section open.
Context {W : Type} `{Runtime W}.
Implicit Types (b : Breaker) (w : W).

(** The admissions still possible without a mark. *)
Definition credit (b : Breaker) : nat :=
  match state b, halfOpenIn b with
  | StateHalfOpen, true => 0
  | _, _ => 1
  end.

(** Actions other than the two marks. *)
Definition no_mark (o : op) : Prop := o <> OpMarkSuccess /\ o <> OpMarkFailure.

Lemma step_credit o b w x b' w' :
  no_mark o -> state b <> StateClosed ->
  step o (b, w) = (Returned x, (b', w')) ->
  state b' <> StateClosed /\
  ((if bool_decide (x = Some true) then 1 else 0) + credit b' <= credit b)%nat /\
  (o <> OpState -> state b = StateOpen \/ (state b = StateHalfOpen /\ halfOpenIn b = true) ->
     x <> Some true /\ (state b' = StateOpen \/ (state b' = StateHalfOpen /\ halfOpenIn b' = true))).
Proof.
  intros [Hm1 Hm2] Hs E. unfold step, mbind, Go_bind in E. destruct o; try done; unfold credit.
  - rewrite Allow_eq in E. destruct (closed b); [by unfold mret, Go_ret in E; simplify_eq; split_and!|].
    destruct (time_Now w) as [now w1]. destruct (state b) eqn:Es; [done| |].
    + unfold mret, Go_ret in E. destruct (_ <=? _); simplify_eq; simpl; rewrite ?Es;
        split_and!; naive_solver lia.
    + destruct (halfOpenIn b) eqn:Ei; unfold mret, Go_ret in E; simplify_eq; simpl; rewrite ?Es, ?Ei;
        split_and!; naive_solver lia.
  - rewrite State_eq in E. destruct (decide _) as [Es|]; [|unfold mret, Go_ret in E; by simplify_eq; split_and!].
    destruct (time_Now w) as [now w1]. destruct (_ <=? _); unfold mret, Go_ret in E; simplify_eq; simpl; rewrite ?Es.
    all: split_and!; try done; destruct (halfOpenIn _); lia.
  - unfold Close, Set_, mbind, Go_bind, mret, Go_ret in E. simpl in E. simplify_eq. by split_and!.
Qed.

(** Out of the closed state the breaker admits at most one request until
    that request is marked, whatever the clock, the number of goroutines and the
    interleaving; and without a call to [State] it admits none at all. *)
Theorem hystrix_open_admissions ops b w xs b' w' :
  Forall no_mark ops -> state b <> StateClosed ->
  run ops (b, w) = (Returned xs, (b', w')) ->
  state b' <> StateClosed /\ (admitted xs <= credit b)%nat /\
  (state b = StateOpen -> Forall (fun o => o <> OpState) ops -> admitted xs = 0%nat).
Proof.
  intros Hops Hs E. enough (state b' <> StateClosed /\ (admitted xs <= credit b)%nat /\
    (state b = StateOpen \/ (state b = StateHalfOpen /\ halfOpenIn b = true) ->
     Forall (fun o => o <> OpState) ops -> admitted xs = 0%nat)) by naive_solver.
  revert b w xs Hs E. induction Hops as [|o ops Ho Hops IH]; intros b w xs Hs E; simpl in E.
  { unfold mret, Go_ret in E. simplify_eq. split_and!; simpl; try done. unfold admitted. simpl. lia. }
  unfold mbind, Go_bind, mret, Go_ret in E. destruct (step o (b, w)) as [[x|] [b1 w1]] eqn:E1; [|done].
  destruct (run ops (b1, w1)) as [[ys|] [b2 w2]] eqn:E2; [|done]. simplify_eq.
  destruct (step_credit o b w x b1 w1 Ho Hs E1) as (Hs1 & Hc & Hno).
  destruct (IH b1 w1 ys Hs1 E2) as (Hs2 & Ha & Hz). unfold admitted in *. rewrite filter_cons.
  split; [done|]. split.
  - destruct (decide (x = Some true)); [rewrite bool_decide_true in Hc by done|rewrite bool_decide_false in Hc by done]; simpl; lia.
  - intros Hb Hf. inversion Hf as [|? ? Hne Hf']; subst. destruct (Hno Hne Hb) as [Hx Hb1].
    rewrite decide_False by done. auto.
Qed.

(** A breaker that has tripped and is used through [Execute] alone (or
    [Allow] with its marks) never admits a request again, however long the sleep
    window has been over: every call is answered [ErrCircuitOpen] and the
    wrapped function is not run.  (The open state falls through to the half-open
    one with the trial already marked as in progress.) *)
Theorem hystrix_execute_stuck (fns : list (Go (Breaker * W) (option error))) b w :
  state b = StateOpen ->
  exists b' w',
    mapM Execute fns (b, w) =
      (Returned (replicate (length fns) (Some ErrCircuitOpen)), (b', w')) /\
    state b' <> StateClosed.
Proof.
  intros Hs. assert (state b = StateOpen \/ (state b = StateHalfOpen /\ halfOpenIn b = true)) as Hb by auto. clear Hs. revert b w Hb.
  induction fns as [|fn fns IH]; intros b w Hb.
  { exists b, w. split; [done|]. destruct Hb as [-> |[-> _]]; discriminate. }
  assert (exists b1 w1, Execute fn (b, w) = (Returned (Some ErrCircuitOpen), (b1, w1)) /\
            (state b1 = StateOpen \/ (state b1 = StateHalfOpen /\ halfOpenIn b1 = true))) as (b1 & w1 & E1 & Hb1).
  { unfold Execute, execute, mbind, Go_bind. simpl. rewrite Allow_eq.
    destruct (closed b); [by eauto|]. destruct (time_Now w) as [now w1].
    destruct Hb as [Hb|[Hb Hi]]; rewrite Hb; [|rewrite Hi; eauto 10].
    do 2 eexists. split; [done|]. destruct (_ <=? _); [by right|by left]. }
  destruct (IH b1 w1 Hb1) as (b' & w' & E & Hs').
  exists b', w'. split; [|done]. simpl. by rewrite (go_bind_returned _ _ _ _ _ E1), (go_bind_returned _ _ _ _ _ E).
Qed.

(** Recovery as documented, when [State] is called after the sleep window:
    it reports half-open, the next [Allow] admits one trial, and the trial's
    mark decides: success closes the breaker with an empty window, failure
    reopens it and restarts the sleep timer at the time of the mark. *)
Theorem hystrix_recovery N (failed : bool) b w :
  clock_ok W -> Inv N b -> N < int64_max -> state b = StateOpen -> closed b = false ->
  sleepWindow (cfg b) <= time_sub (fst (time_Now w)) (openedAt b) ->
  exists b' w', (s ← State_; err ← Allow; (if failed then MarkFailure else MarkSuccess) ;; mret (s, err)) (b, w) =
      (Returned (StateHalfOpen, None), (b', w')) /\
    halfOpenIn b' = false /\
    (failed = false -> state b' = StateClosed /\ total_requests (buckets b') = 0 /\ total_errors (buckets b') = 0) /\
    (failed = true -> state b' = StateOpen /\ exists w1, openedAt b' = fst (time_Now w1)).
Proof.
  intros Hclk HI HN Hs Hcl Hsl. unfold mbind at 1, Go_bind at 1. rewrite State_eq, decide_True by done.
  destruct (time_Now w) as [now w1]. simpl in Hsl. destruct (_ <=? _) eqn:E; bool_to_prop; [|lia]. clear E.
  unfold mbind at 1, Go_bind at 1. rewrite Allow_eq. cbn [closed set_state]. rewrite Hcl. destruct (time_Now w1) as [now1 w2].
  cbn [state set_state]. cbv iota. pose proof HI as (Hbd & Hbs & Hok & Hh). cbn [halfOpenIn set_state]. rewrite Hh by congruence.
  set (b1 := set_halfOpenIn true (set_state StateHalfOpen b)).
  assert (HI1 : Inv N b1) by (split_and!; simpl; done).
  pose proof (Mark_eq N failed b1 w2 Hclk HI1 HN) as HM. destruct (time_Now w2) as [now2 w3] eqn:Et.
  destruct HM as (bs & last & bs' & _ & _ & _ & _ & _ & _ & E). rewrite decide_True in E by done.
  rewrite (go_bind_returned _ _ _ _ _ E).
  do 2 eexists. split; [reflexivity|]. destruct failed; split_and!; try done.
  - intros _. split; [done|]. exists w2. simpl. by rewrite Et.
  - intros _. split; [done|]. apply total_map_empty.
Qed.
End open.

(** A breaker tripped by its first failure, one second after its creation. *)
Definition tripped : Breaker :=
  fst (snd (MarkFailure (H := TickRuntime) (New (H := TickRuntime) [WithRequestVolumeThreshold 1] 0))).

Lemma hystrix_open_admissions_witness :
  exists xs b' w',
    run [OpAllow; OpState; OpAllow; OpAllow] (tripped, 4) = (Returned xs, (b', w')) /\
    state b' <> StateClosed /\ (admitted xs <= 1)%nat /\
    (state tripped = StateOpen -> Forall (fun o => o <> OpState) [OpAllow; OpState; OpAllow; OpAllow] ->
     admitted xs = 0%nat).
Proof.
  do 3 eexists. split; [vm_compute; reflexivity|].
  eapply (hystrix_open_admissions (H := TickRuntime) [OpAllow; OpState; OpAllow; OpAllow] tripped 4);
    [repeat constructor; discriminate|vm_compute; discriminate|vm_compute; reflexivity].
Defined.

Lemma hystrix_execute_stuck_witness :
  exists b' w',
    mapM Execute (replicate 3 (mret None)) (tripped, 1000) =
      (Returned (replicate 3 (Some ErrCircuitOpen)), (b', w')) /\ state b' <> StateClosed.
Proof.
  apply (hystrix_execute_stuck (H := TickRuntime) (replicate 3 (mret None)) tripped 1000).
  vm_compute. reflexivity.
Defined.

Lemma hystrix_recovery_witness :
  exists b' w',
    (s ← State_; err ← Allow; MarkSuccess ;; mret (s, err)) (tripped, 1000) =
      (Returned (StateHalfOpen, None), (b', w')) /\
    halfOpenIn b' = false /\
    (false = false -> state b' = StateClosed /\ total_requests (buckets b') = 0 /\ total_errors (buckets b') = 0) /\
    (false = true -> state b' = StateOpen /\ exists w1, openedAt b' = fst (time_Now w1)).
Proof.
  apply (hystrix_recovery (H := TickRuntime) 1 false tripped 1000);
    [apply TickRuntime_ok| |vm_compute; try reflexivity; discriminate..].
  split_and!; vm_compute; try reflexivity; try discriminate.
  split; [|discriminate]. repeat constructor; vm_compute; discriminate.
Defined.

(** * The sliding window

    [rotateLocked] advances [lastRotate] to the current time rather than to a
    bucket boundary, while buckets are indexed by absolute time. *)

(** A clock that reads the given times, in milliseconds. *)
Definition at_ms (n : Z) : Time := mkTime (n * Millisecond) (Some (n * Millisecond)).

#[local] Instance ScriptRuntime : Runtime (list Z) := {|
  time_Now := fun w => (at_ms (default 0 (head w)), tail w);
  rand_Float64 := fun w => (f0, w)
|}.

(** The window forgets requests it has just counted: with the default ten
    buckets of one second, in a breaker created when the clock reads 0.9s, a
    failure marked at 1.5s is gone after the mark at 1.95s, although both fall in
    the same bucket of the 10s window. *)
Example hystrix_rotation_forgets :
  let '(b0, w0) := New [] [900; 1500; 1950] in
  exists b1 b2,
    MarkFailure (b0, w0) = (Returned tt, (b1, [1950])) /\ total_errors (buckets b1) = 1 /\
    MarkSuccess (b1, [1950]) = (Returned tt, (b2, [])) /\ total_errors (buckets b2) = 0 /\
    bucketIndexLocked (at_ms 1500) b1 = bucketIndexLocked (at_ms 1950) b1.
Proof.
  exists (fst (snd (MarkFailure (New [] [900; 1500; 1950])))),
    (fst (snd (MarkSuccess (snd (MarkFailure (New [] [900; 1500; 1950])))))).
  by vm_compute.
Qed.
