(* ===== verification/Vegas.v ===== *)
(** [circuitbreaker/vegas/vegas.go]: the latency-based circuit breaker. *)
From Stdlib Require Import ZArith Lia SpecFloat.
From S2P Require Import Prelude Float64 GoTime GoErrors CircuitBreaker.
From stdpp Require Import base gmap strings list numbers.
Open Scope string_scope.
Open Scope list_scope.
Open Scope Z_scope.

(** [type config struct] *)
Record config := mkConfig {
  alpha : float64;
  beta : float64;
  warmupSamples : Z;
  minRTT : Duration;
  maxRTT : Duration
}.

Definition Option := config -> config.

Definition WithAlpha (a : float64) : Option := fun c =>
  if fgtb a f0 then mkConfig a (beta c) (warmupSamples c) (minRTT c) (maxRTT c) else c.

Definition WithBeta (b : float64) : Option := fun c =>
  if fgtb b f0 then mkConfig (alpha c) b (warmupSamples c) (minRTT c) (maxRTT c) else c.

Definition WithWarmupSamples (n : Z) : Option := fun c =>
  if 0 <? n then mkConfig (alpha c) (beta c) n (minRTT c) (maxRTT c) else c.

Definition defaultConfig : config :=
  mkConfig (f_const 1 2) (f_const 3 10) 10 Millisecond (30 * Second).

(** [type Breaker struct] *)
Record Breaker := mkBreaker {
  cfg : config;
  baseRTT : Duration;
  currentRTT : Duration;
  sampleCount : Z;
  state : State;
  closed : bool
}.

Definition set_state (s : State) (b : Breaker) : Breaker :=
  mkBreaker (cfg b) (baseRTT b) (currentRTT b) (sampleCount b) s (closed b).

(** [func New(opts ...Option) *Breaker] *)
Definition New (opts : list Option) : Breaker :=
  mkBreaker (apply_opts opts defaultConfig) 0 0 0 StateClosed false.

(** [func (b *Breaker) Allow() error] *)
Definition Allow (b : Breaker) : option error :=
  if closed b then Some ErrCircuitOpen
  else if decide (state b = StateOpen) then Some ErrCircuitOpen
  else None.

(** [func (b *Breaker) updateRTTLocked(rtt time.Duration)] *)
Definition updateRTTLocked `{Arch} (rtt : Duration) (b : Breaker) : Breaker :=
  if (rtt <? minRTT (cfg b)) || (maxRTT (cfg b) <? rtt) then b
  else
    let cur :=
      if currentRTT b =? 0 then rtt
      else f_to_int64 (fadd (fmul (f_of_Z (currentRTT b)) (f_const 7 8)) (fmul (f_of_Z rtt) (f_const 1 8))) in
    let base := if (baseRTT b =? 0) || (rtt <? baseRTT b) then rtt else baseRTT b in
    mkBreaker (cfg b) base cur (add64 (sampleCount b) 1) (state b) (closed b).

(** [inflation] of [evaluateLocked] *)
Definition inflation (b : Breaker) : float64 :=
  fdiv (f_of_Z (sub64 (currentRTT b) (baseRTT b))) (f_of_Z (baseRTT b)).

(** [func (b *Breaker) evaluateLocked()] *)
Definition evaluateLocked (b : Breaker) : Breaker :=
  if (sampleCount b <? warmupSamples (cfg b)) || (baseRTT b =? 0) then b
  else
    match state b with
    | StateClosed => if fgtb (inflation b) (alpha (cfg b)) then set_state StateOpen b else b
    | StateOpen => if fltb (inflation b) (beta (cfg b)) then set_state StateHalfOpen b else b
    | StateHalfOpen =>
        if fltb (inflation b) (beta (cfg b)) then set_state StateClosed b
        else if fgtb (inflation b) (alpha (cfg b)) then set_state StateOpen b
        else b
    end.

(** [func (b *Breaker) RecordLatency(rtt time.Duration)] *)
Definition RecordLatency `{Arch} (rtt : Duration) (b : Breaker) : Breaker :=
  let b := if decide (state b = StateHalfOpen) then set_state StateClosed b else b in
  evaluateLocked (updateRTTLocked rtt b).

(** [func (b *Breaker) MarkSuccess()] *)
Definition MarkSuccess `{Arch} (b : Breaker) : Breaker := RecordLatency 0 b.

(** [func (b *Breaker) MarkFailure()] *)
Definition MarkFailure `{Arch} (b : Breaker) : Breaker :=
  if decide (state b = StateHalfOpen) then set_state StateOpen b
  else evaluateLocked (updateRTTLocked (maxRTT (cfg b)) b).

(** [func (b *Breaker) State() circuitbreaker.State] *)
Definition State_ (b : Breaker) : State := state b.

(** [func (b *Breaker) Close() error] *)
Definition Close (b : Breaker) : Breaker :=
  mkBreaker (cfg b) (baseRTT b) (currentRTT b) (sampleCount b) (state b) true.

(** [func (b *Breaker) BaseRTT], [func (b *Breaker) CurrentRTT],
    [func (b *Breaker) Inflation] *)
Definition BaseRTT (b : Breaker) : Duration := baseRTT b.
Definition CurrentRTT (b : Breaker) : Duration := currentRTT b.
Definition Inflation (b : Breaker) : float64 :=
  if baseRTT b =? 0 then f0 else math_Max f0 (inflation b).

Section methods.
Context {W : Type} `{Runtime W} `{Arch}.

Definition Set_ (f : Breaker -> Breaker) : Go (Breaker * W) unit := go_fst (go_modify f).
Definition Now : Go (Breaker * W) Time := go_snd (fun w => let '(t, w') := time_Now w in (Returned t, w')).

#[export] Instance vegas_CircuitBreaker : CircuitBreaker (Breaker * W) := {|
  cb_Allow := fun s => (Returned (Allow (fst s)), s);
  cb_MarkSuccess := Set_ MarkSuccess;
  cb_MarkFailure := Set_ MarkFailure;
  cb_State := fun s => (Returned (State_ (fst s)), s);
  cb_Close := Set_ Close ;; mret None
|}.

(** [func (b *Breaker) Execute(ctx context.Context, fn func() error) error] *)
Definition Execute (fn : Go (Breaker * W) (option error)) : Go (Breaker * W) (option error) :=
  err ← cb_Allow;
  match err with
  | Some e => mret (Some e)
  | None =>
      start ← Now;
      err ← fn;
      now ← Now;
      let elapsed := time_sub now start in
      match err with
      | Some e => cb_MarkFailure ;; mret (Some e)
      | None => Set_ (RecordLatency elapsed) ;; mret None
      end
  end.
End methods.

(** * The latency estimates *)

(** The filter bounds are those of [defaultConfig]: no option changes them. *)
Definition cfg_ok (c : config) : Prop := minRTT c = Millisecond /\ maxRTT c = 30 * Second.

(** Either no sample was taken, or the base is the smaller estimate and both lie
    within the plausible range. *)
Definition Inv (b : Breaker) : Prop :=
  cfg_ok (cfg b) /\
  (baseRTT b = 0 /\ currentRTT b = 0 \/
   minRTT (cfg b) <= baseRTT b <= currentRTT b /\ currentRTT b <= maxRTT (cfg b)).

Lemma smooth_exact `{Arch} c r :
  0 <= c < 2 ^ 40 -> 0 <= r < 2 ^ 40 ->
  f_to_int64 (fadd (fmul (f_of_Z c) (f_const 7 8)) (fmul (f_of_Z r) (f_const 1 8))) = (7 * c + r) / 8.
Proof.
  intros Hc Hr.
  assert (H7 : frep (f_const 7 8) 7 (-3)) by (vm_compute; repeat split; discriminate).
  assert (H1 : frep (f_const 1 8) 1 (-3)) by (vm_compute; repeat split; discriminate).
  assert (V : forall n d, fvalid (f_const n d)) by (intros; unfold f_const; auto with lulu).
  pose proof (frep_mul (f_of_Z c) _ c 0 7 (-3) ltac:(auto with lulu) (V _ _) (frep_of_Z c ltac:(lia)) H7 ltac:(lia) ltac:(unfold emin64; lia)) as P7.
  pose proof (frep_mul (f_of_Z r) _ r 0 1 (-3) ltac:(auto with lulu) (V _ _) (frep_of_Z r ltac:(lia)) H1 ltac:(lia) ltac:(unfold emin64; lia)) as P1.
  pose proof (frep_add _ _ _ _ _ P7 P1 ltac:(lia) ltac:(lia)) as PA.
  rewrite (frep_to_int64 _ _ _ PA) by lia. change (2 ^ (- (0 + -3))) with 8. f_equal. lia.
Qed.

Lemma evaluateLocked_rtt b :
  cfg (evaluateLocked b) = cfg b /\ baseRTT (evaluateLocked b) = baseRTT b /\
  currentRTT (evaluateLocked b) = currentRTT b /\ sampleCount (evaluateLocked b) = sampleCount b /\
  closed (evaluateLocked b) = closed b.
Proof. unfold evaluateLocked. repeat case_match; done. Qed.

Lemma evaluateLocked_inv b : Inv b -> Inv (evaluateLocked b).
Proof. destruct (evaluateLocked_rtt b) as (E1 & E2 & E3 & _). unfold Inv. by rewrite E1, E2, E3. Qed.

Lemma updateRTTLocked_spec `{Arch} rtt b :
  Inv b -> minRTT (cfg b) <= rtt <= maxRTT (cfg b) ->
  updateRTTLocked rtt b =
    mkBreaker (cfg b) (if baseRTT b =? 0 then rtt else Z.min (baseRTT b) rtt)
      (if currentRTT b =? 0 then rtt else (7 * currentRTT b + rtt) / 8)
      (add64 (sampleCount b) 1) (state b) (closed b).
Proof.
  intros [[Emin Emax] HI] Hr. unfold updateRTTLocked, Millisecond, Second in *. rewrite Emin, Emax in *.
  destruct (_ || _) eqn:E; bool_to_prop; [destruct E; bool_to_prop; lia|].
  rewrite smooth_exact by lia. f_equal.
  destruct (baseRTT b =? 0) eqn:E0; simpl; [done|]. bool_to_prop. case_if; bool_to_prop; lia.
Qed.

Lemma updateRTTLocked_out `{Arch} rtt b :
  ~ (minRTT (cfg b) <= rtt <= maxRTT (cfg b)) -> updateRTTLocked rtt b = b.
Proof.
  intros Hr. unfold updateRTTLocked. destruct (_ || _) eqn:E; [done|]. bool_to_prop. lia.
Qed.

Lemma updateRTTLocked_inv `{Arch} rtt b : Inv b -> Inv (updateRTTLocked rtt b).
Proof.
  intros HI. destruct (decide (minRTT (cfg b) <= rtt <= maxRTT (cfg b))) as [Hr|Hr];
    [|by rewrite updateRTTLocked_out].
  rewrite updateRTTLocked_spec by done. destruct HI as [[Emin Emax] HI]. unfold Millisecond, Second in *.
  split; [done|]. right. simpl. rewrite Emin, Emax in *.
  destruct HI as [[-> ->]|HI]; simpl; [lia|].
  destruct (baseRTT b =? 0) eqn:E1; bool_to_prop; [lia|]. destruct (currentRTT b =? 0) eqn:E2; bool_to_prop; [lia|].
  split; [split; [lia|]|]; [apply Z.div_le_lower_bound; lia|apply Z.div_le_upper_bound; lia].
Qed.

Lemma set_state_inv s b : Inv b -> Inv (set_state s b).
Proof. done. Qed.

Lemma RecordLatency_inv `{Arch} rtt b : Inv b -> Inv (RecordLatency rtt b).
Proof.
  intros HI. unfold RecordLatency. apply evaluateLocked_inv, updateRTTLocked_inv. by case_decide.
Qed.

Lemma MarkFailure_inv `{Arch} b : Inv b -> Inv (MarkFailure b).
Proof.
  intros HI. unfold MarkFailure. case_decide; [done|]. by apply evaluateLocked_inv, updateRTTLocked_inv.
Qed.

Inductive op := OpLatency (rtt : Duration) | OpMarkSuccess | OpMarkFailure | OpClose.

Definition step `{Arch} (b : Breaker) (o : op) : Breaker :=
  match o with
  | OpLatency rtt => RecordLatency rtt b
  | OpMarkSuccess => MarkSuccess b
  | OpMarkFailure => MarkFailure b
  | OpClose => Close b
  end.

Lemma vegas_step_inv `{Arch} b o : Inv b -> Inv (step b o).
Proof. intros HI. destruct o; simpl; auto using RecordLatency_inv, MarkFailure_inv. by apply RecordLatency_inv. Qed.

(** The options of the package leave the filter bounds alone. *)
Lemma options_cfg_ok opts :
  Forall (fun o => (exists a, o = WithAlpha a) \/ (exists b, o = WithBeta b) \/ (exists n, o = WithWarmupSamples n)) opts ->
  cfg_ok (apply_opts opts defaultConfig).
Proof.
  intros Ho. apply apply_opts_preserves; [|done]. eapply List.Forall_impl; [|exact Ho].
  intros o [(a & ->)|[(b & ->)|(n & ->)]] c Hc.
  all: unfold WithAlpha, WithBeta, WithWarmupSamples; by case_if.
Qed.

(** The latency estimates of a Vegas breaker after any sequence of recorded
    latencies, marks and closes: either there is no sample, or
    [minRTT <= baseRTT <= currentRTT <= maxRTT]; and a plausible sample updates
    them exactly (base by the minimum, current by the truncated 7/8 average),
    the floating-point smoothing losing nothing. *)
Theorem vegas_estimates `{Arch} opts ops rtt :
  Forall (fun o => (exists a, o = WithAlpha a) \/ (exists b, o = WithBeta b) \/ (exists n, o = WithWarmupSamples n)) opts ->
  let b := fold_left step ops (New opts) in
  Inv b /\
  (Millisecond <= rtt <= 30 * Second ->
   baseRTT (RecordLatency rtt b) = (if baseRTT b =? 0 then rtt else Z.min (baseRTT b) rtt) /\
   currentRTT (RecordLatency rtt b) = (if currentRTT b =? 0 then rtt else (7 * currentRTT b + rtt) / 8)).
Proof.
  intros Ho b. assert (HI : Inv b).
  { unfold b. assert (Inv (New opts)) as HI by (split; [by apply options_cfg_ok|by left]). revert HI.
    generalize (New opts). induction ops as [|o ops IH]; intros b0 HI; simpl; [done|].
    by apply IH, vegas_step_inv. }
  split; [done|]. intros Hr. clearbody b.
  assert (HI' : Inv (if decide (state b = StateHalfOpen) then set_state StateClosed b else b)) by (by case_decide).
  unfold RecordLatency. destruct (evaluateLocked_rtt (updateRTTLocked rtt
    (if decide (state b = StateHalfOpen) then set_state StateClosed b else b))) as (_ & -> & -> & _).
  pose proof HI as [[Em EM] _].
  rewrite updateRTTLocked_spec by (done || (case_decide; simpl; rewrite Em, EM; done)). by case_decide.
Qed.

Lemma vegas_estimates_witness :
  let b := fold_left (step (H := amd64)) [OpLatency (5 * Millisecond); OpMarkFailure; OpMarkSuccess] (New [WithWarmupSamples 3]) in
  Inv b /\
  (Millisecond <= 7 * Millisecond <= 30 * Second ->
   baseRTT (RecordLatency (H := amd64) (7 * Millisecond) b) = (if baseRTT b =? 0 then 7 * Millisecond else Z.min (baseRTT b) (7 * Millisecond)) /\
   currentRTT (RecordLatency (H := amd64) (7 * Millisecond) b) =
     (if currentRTT b =? 0 then 7 * Millisecond else (7 * currentRTT b + 7 * Millisecond) / 8)).
Proof.
  apply (vegas_estimates (H := amd64) [WithWarmupSamples 3] [OpLatency (5 * Millisecond); OpMarkFailure; OpMarkSuccess] (7 * Millisecond)).
  constructor; [|constructor]. right. right. by exists 3.
Defined.

(** * Recovery *)

Section recovery.
Context `{Arch}.

(** The breaker is past its warm-up, has a baseline and can still count. *)
Definition warm (b : Breaker) : Prop :=
  Inv b /\ baseRTT b <> 0 /\ fgtb (alpha (cfg b)) f0 = true /\ fgtb (beta (cfg b)) f0 = true.

(** A sample at the baseline leaves the baseline and the configuration. *)
Lemma base_sample_eq b :
  warm b ->
  let b' := RecordLatency (baseRTT b) b in
  warm b' /\ cfg b' = cfg b /\ baseRTT b' = baseRTT b /\ sampleCount b' = add64 (sampleCount b) 1 /\
  currentRTT b' = (7 * currentRTT b + baseRTT b) / 8 /\
  b' = evaluateLocked (updateRTTLocked (baseRTT b)
         (if decide (state b = StateHalfOpen) then set_state StateClosed b else b)).
Proof.
  intros (HI & Hb & Ha & Hbe) b'. pose proof HI as [[Em EM] HI']. unfold Millisecond, Second in *.
  rewrite Em, EM in HI'.
  assert (HI1 : Inv (if decide (state b = StateHalfOpen) then set_state StateClosed b else b)) by (by case_decide).
  assert (E : b' = evaluateLocked (updateRTTLocked (baseRTT b)
         (if decide (state b = StateHalfOpen) then set_state StateClosed b else b))) by done.
  assert (Hd : forall b0, b0 = (if decide (state b = StateHalfOpen) then set_state StateClosed b else b) ->
            cfg b0 = cfg b /\ baseRTT b0 = baseRTT b /\ currentRTT b0 = currentRTT b /\ sampleCount b0 = sampleCount b)
    by (intros ? ->; by case_decide).
  destruct (Hd _ eq_refl) as (D1 & D2 & D3 & D4).
  destruct (evaluateLocked_rtt (updateRTTLocked (baseRTT b)
         (if decide (state b = StateHalfOpen) then set_state StateClosed b else b))) as (E1 & E2 & E3 & E4 & _).
  rewrite <- E in *.
  rewrite updateRTTLocked_spec in E1, E2, E3, E4 by (done || (rewrite D1, Em, EM; lia)). simpl in *.
  rewrite ?D1, ?D2, ?D3, ?D4 in *. destruct (baseRTT b =? 0) eqn:Eb; bool_to_prop; [lia|].
  destruct (currentRTT b =? 0) eqn:Ec; bool_to_prop; [lia|].
  rewrite Z.min_id in E2. unfold warm. rewrite E1, E2. split_and!; auto.
  rewrite E. by apply evaluateLocked_inv, updateRTTLocked_inv.
Qed.

(** Repeating it brings the smoothed latency down to the baseline. *)
Lemma base_samples_converge b :
  warm b -> 0 <= sampleCount b -> sampleCount b + (currentRTT b - baseRTT b) <= int64_max ->
  exists n, Z.of_nat n <= currentRTT b - baseRTT b /\
    let b' := Nat.iter n (fun x => RecordLatency (baseRTT b) x) b in
    warm b' /\ cfg b' = cfg b /\ baseRTT b' = baseRTT b /\ currentRTT b' = baseRTT b /\
    sampleCount b' = sampleCount b + Z.of_nat n.
Proof.
  intros Hw. remember (Z.to_nat (currentRTT b - baseRTT b)) as d eqn:Ed. revert b Hw Ed.
  induction d as [d IH] using lt_wf_ind. intros b Hw Ed Hsc0 Hsc.
  pose proof Hw as ([_ Hi] & Hb & _). destruct Hi as [[? _]|[Hle _]]; [done|].
  destruct (decide (currentRTT b = baseRTT b)) as [E|Hne].
  { exists 0%nat. split; [lia|]. simpl. split_and!; try done. lia. }
  destruct (base_sample_eq b Hw) as (Hw' & Hc' & Hb' & Hs' & Hcur & _).
  set (b1 := RecordLatency (baseRTT b) b) in *.
  assert (Hlt : currentRTT b1 < currentRTT b) by (rewrite Hcur; apply Z.div_lt_upper_bound; lia).
  assert (Hge : baseRTT b <= currentRTT b1) by (rewrite Hcur; apply Z.div_le_lower_bound; lia).
  unfold add64 in Hs'. unfold int64_max in *.
  rewrite wrap64_id in Hs' by (unfold in_int64, int64_min, int64_max; lia).
  destruct (IH (Z.to_nat (currentRTT b1 - baseRTT b1))) with b1 as (n & Hn1 & Hn2 & Hn3 & Hn4 & Hn5 & Hn6); try done; try lia.
  exists (S n). rewrite Nat.iter_succ_r. fold b1. rewrite Hb', Hc', Hs' in *. split_and!; try done; lia.
Qed.

(** With no inflation a sample moves an open breaker to half-open, and any other
    breaker to closed, once the warm-up is over. *)
Lemma base_sample_state b :
  warm b -> currentRTT b = baseRTT b -> warmupSamples (cfg b) <= add64 (sampleCount b) 1 ->
  state (RecordLatency (baseRTT b) b) = if decide (state b = StateOpen) then StateHalfOpen else StateClosed.
Proof.
  intros Hw Hcb Hsc. destruct (base_sample_eq b Hw) as (_ & _ & Hb' & Hs' & Hcur & E).
  pose proof Hw as (HI & Hb0 & Ha & Hbe). pose proof HI as [[Em EM] HI']. unfold Millisecond, Second in *.
  rewrite E in *. rewrite Hcb in Hcur. replace (7 * baseRTT b + baseRTT b) with (baseRTT b * 8) in Hcur by lia.
  rewrite Z.div_mul in Hcur by lia. rewrite Em, EM in HI'.
  set (b1 := updateRTTLocked _ _) in *.
  destruct (evaluateLocked_rtt b1) as (E1 & E2 & E3 & E4 & _). rewrite E2 in Hb'. rewrite E3 in Hcur. rewrite E4 in Hs'.
  assert (Hst : state b1 = if decide (state b = StateHalfOpen) then StateClosed else state b).
  { unfold b1, updateRTTLocked. by repeat case_match. }
  assert (Hcfg : cfg b1 = cfg b). { unfold b1, updateRTTLocked. by repeat case_match. }
  assert (Hinf : inflation b1 = f0).
  { unfold inflation. rewrite Hb', Hcur. unfold sub64. rewrite Z.sub_diag. apply fdiv_0_of_Z. lia. }
  unfold evaluateLocked. rewrite Hs', Hb', Hcfg, Hinf, Hst.
  destruct (_ || _) eqn:Eo; [apply orb_prop in Eo as [Eo|Eo]; bool_to_prop; lia|].
  unfold fgtb in *. change SFltb with fltb in *.
  assert (fltb (alpha (cfg b)) f0 = false) as ->.
  { destruct (fltb (alpha (cfg b)) f0) eqn:El; [|done]. exfalso.
    pose proof (fltb_fleb_trans _ _ _ Ha (fltb_fleb _ _ El)) as Hf. by vm_compute in Hf. }
  rewrite Hbe. destruct (state b) eqn:Es; rewrite ?decide_True, ?decide_False by done; simpl; try done.
Qed.

(** A Vegas breaker recovers when it is told so: from any state, enough
    latencies recorded at the baseline close it, and the smoothed latency is
    then the baseline.  The number of samples needed is at most the excess of
    the smoothed latency, in nanoseconds, plus two. *)
Theorem vegas_recovers b :
  warm b -> 0 <= sampleCount b -> warmupSamples (cfg b) <= sampleCount b ->
  sampleCount b + (currentRTT b - baseRTT b) + 2 <= int64_max ->
  exists n, Z.of_nat n <= currentRTT b - baseRTT b + 2 /\
    let b' := Nat.iter n (fun x => RecordLatency (baseRTT b) x) b in
    state b' = StateClosed /\ currentRTT b' = baseRTT b.
Proof.
  intros Hw Hsc0 Hws Hmax.
  destruct (base_samples_converge b Hw Hsc0 ltac:(lia)) as (n & Hn & Hw1 & Hc1 & Hb1 & Hcur1 & Hs1).
  exists (S (S n)). split; [lia|]. cbv zeta. rewrite !Nat.iter_succ. set (b1 := Nat.iter n _ b) in *. unfold int64_max in *.
  assert (Ha1 : add64 (sampleCount b1) 1 = sampleCount b1 + 1)
    by (unfold add64; rewrite wrap64_id; unfold in_int64, int64_min, int64_max; lia).
  pose proof (base_sample_state b1 Hw1 ltac:(congruence) ltac:(rewrite Hc1; lia)) as St1.
  destruct (base_sample_eq b1 Hw1) as (Hw2 & Hc2 & Hb2 & Hs2 & Hcur2 & _). rewrite Hb1 in *.
  set (b2 := RecordLatency (baseRTT b) b1) in *.
  assert (Hcur2' : currentRTT b2 = baseRTT b) by (rewrite Hcur2, Hcur1; replace (7 * _ + _) with (baseRTT b * 8) by lia; apply Z.div_mul; lia).
  assert (Ha2 : add64 (sampleCount b2) 1 = sampleCount b1 + 2)
    by (rewrite Hs2, Ha1; unfold add64; rewrite wrap64_id; unfold in_int64, int64_min, int64_max; lia).
  pose proof (base_sample_state b2 Hw2 ltac:(congruence) ltac:(rewrite Hc2, Hc1; lia)) as St2.
  destruct (base_sample_eq b2 Hw2) as (_ & _ & _ & _ & Hcur3 & _). rewrite Hb2 in *.
  split; [|rewrite Hcur3, Hcur2'; replace (7 * _ + _) with (baseRTT b * 8) by lia; apply Z.div_mul; lia].
  rewrite St2, St1. by repeat case_decide.
Qed.
End recovery.

(** An open breaker: a baseline of 1ms, then a latency of 30s. *)
Definition slow : Breaker :=
  fold_left (step (H := amd64)) [OpLatency Millisecond; OpMarkFailure] (New [WithWarmupSamples 2]).

Lemma vegas_recovers_witness :
  state slow = StateOpen /\
  exists n, Z.of_nat n <= currentRTT slow - baseRTT slow + 2 /\
    let b' := Nat.iter n (fun x => RecordLatency (H := amd64) (baseRTT slow) x) slow in
    state b' = StateClosed /\ currentRTT b' = baseRTT slow.
Proof.
  split; [vm_compute; reflexivity|].
  apply (vegas_recovers (H := amd64) slow); [|vm_compute; discriminate..].
  split_and!; try (vm_compute; (reflexivity || discriminate)).
  split; [vm_compute; done|]. right. vm_compute. repeat split; discriminate.
Defined.

(** A Vegas breaker used through [Execute] alone never recovers: once open
    it rejects every call without running it, so that no latency is ever
    recorded again. *)
Theorem vegas_execute_stuck {W} `{Runtime W} `{Arch} (fns : list (Go (Breaker * W) (option error))) b (w : W) :
  state b = StateOpen ->
  mapM Execute fns (b, w) = (Returned (replicate (length fns) (Some ErrCircuitOpen)), (b, w)).
Proof.
  intros Hs. induction fns as [|fn fns IH]; [done|].
  assert (E : Execute fn (b, w) = (Returned (Some ErrCircuitOpen), (b, w))).
  { unfold Execute, mbind, Go_bind. simpl. unfold Allow. rewrite decide_True by done. by destruct (closed b). }
  simpl. by rewrite (go_bind_returned _ _ _ _ _ E), (go_bind_returned _ _ _ _ _ IH).
Qed.

Lemma vegas_execute_stuck_witness :
  mapM (Execute (H := TickRuntime) (H0 := amd64)) (replicate 5 (mret None)) (slow, 0) =
    (Returned (replicate 5 (Some ErrCircuitOpen)), (slow, 0)).
Proof. apply (vegas_execute_stuck (H := TickRuntime) (H0 := amd64) (replicate 5 (mret None)) slow 0). vm_compute. reflexivity. Defined.

