(* ===== verification/Sres.v ===== *)
(** [circuitbreaker/sres/sres.go]: the SRE-style breaker, which rejects requests
    with a probability computed from the window's counts. *)
From Stdlib Require Import ZArith Lia SpecFloat.
From S2P Require Import Prelude Float64 GoTime GoErrors CircuitBreaker.
From stdpp Require Import base gmap strings list numbers.
Open Scope string_scope.
Open Scope list_scope.
Open Scope Z_scope.

(** [type config struct] *)
Record config := mkConfig { k : float64; window : Duration; bucketCount : Z }.

Definition Option := config -> config.

Definition WithK (k' : float64) : Option := fun c =>
  if fgtb k' f0 then mkConfig k' (window c) (bucketCount c) else c.
Definition WithWindow (d : Duration) : Option := fun c =>
  if 0 <? d then mkConfig (k c) d (bucketCount c) else c.
Definition WithBucketCount (n : Z) : Option := fun c =>
  if 0 <? n then mkConfig (k c) (window c) n else c.

Definition defaultConfig : config := mkConfig (f_of_Z 2) (10 * Second) 40.

(** [type Breaker struct] *)
Record Breaker := mkBreaker {
  cfg : config;
  bucketDuration : Duration;
  buckets : list bucket;
  lastRotate : Time;
  closed : bool
}.

Definition set_buckets (bs : list bucket) (b : Breaker) : Breaker :=
  mkBreaker (cfg b) (bucketDuration b) bs (lastRotate b) (closed b).
Definition set_lastRotate (t : Time) (b : Breaker) : Breaker :=
  mkBreaker (cfg b) (bucketDuration b) (buckets b) t (closed b).
Definition set_closed (c : bool) (b : Breaker) : Breaker :=
  mkBreaker (cfg b) (bucketDuration b) (buckets b) (lastRotate b) c.

(** [type windowStats struct]: float64 counts. *)
Record windowStats := mkStats { s_requests : float64; s_errors : float64 }.

(** [func (b *Breaker) statsLocked() windowStats] *)
Definition statsLocked (b : Breaker) : windowStats :=
  fold_left (fun s bk => mkStats (fadd (s_requests s) (f_of_Z (requests bk)))
                                 (fadd (s_errors s) (f_of_Z (errors bk))))
    (buckets b) (mkStats f0 f0).

(** [(requests - K*errors) / (requests + 1)] *)
Definition acceptance (K : float64) (s : windowStats) : float64 :=
  fdiv (fsub (s_requests s) (fmul K (s_errors s))) (fadd (s_requests s) f1).

Section methods.
Context {W : Type} `{Runtime W}.

Definition Now : Go (Breaker * W) Time := go_snd (fun w => let '(t, w') := time_Now w in (Returned t, w')).
Definition Rand : Go (Breaker * W) float64 := go_snd (fun w => let '(x, w') := rand_Float64 w in (Returned x, w')).
Definition Get : Go (Breaker * W) Breaker := fun s => (Returned (fst s), s).
Definition Set_ (f : Breaker -> Breaker) : Go (Breaker * W) unit := go_fst (go_modify f).

(** [func New(opts ...Option) *Breaker] *)
Definition New (opts : list Option) (w : W) : Breaker * W :=
  let c := apply_opts opts defaultConfig in
  let bd := quot64 (window c) (bucketCount c) in
  let '(t, w') := time_Now w in
  (mkBreaker c bd (replicate (Z.to_nat (bucketCount c)) emptyBucket) t false, w').

(** [func (b *Breaker) bucketIndexLocked(now time.Time) int] *)
Definition bucketIndexLocked (now : Time) (b : Breaker) : option Z :=
  bucket_index (bucketDuration b) (buckets b) now.

(** [func (b *Breaker) rotateLocked(now time.Time)] *)
Definition rotateLocked (now : Time) : Go (Breaker * W) unit :=
  b ← Get;
  '(bs, last) ← go_try (rotate_buckets (bucketDuration b) (buckets b) (lastRotate b) now);
  Set_ (fun b => set_lastRotate last (set_buckets bs b)).

(** [func (b *Breaker) Allow() error] *)
Definition Allow : Go (Breaker * W) (option error) :=
  b ← Get;
  if closed b then mret (Some ErrCircuitOpen)
  else
    now ← Now;
    rotateLocked now ;;
    b ← Get;
    let stats := statsLocked b in
    let accept := if fgtb (s_requests stats) f0 then acceptance (k (cfg b)) stats else f1 in
    let accept := if fltb accept f0 then f0 else accept in
    if fgeb accept f1 then mret None
    else
      r ← Rand;
      if fltb r accept then mret None else mret (Some ErrCircuitOpen).

(** The body shared by [MarkSuccess] and [MarkFailure]. *)
Definition mark (failed : bool) : Go (Breaker * W) unit :=
  now ← Now;
  rotateLocked now ;;
  b ← Get;
  idx ← go_try (bucketIndexLocked now b);
  bs ← go_try (bucket_update (bump failed) idx (buckets b));
  Set_ (set_buckets bs).

(** [func (b *Breaker) MarkSuccess()] *)
Definition MarkSuccess : Go (Breaker * W) unit := mark false.

(** [func (b *Breaker) MarkFailure()] *)
Definition MarkFailure : Go (Breaker * W) unit := mark true.

(** [func (b *Breaker) State() circuitbreaker.State] *)
Definition State_ : Go (Breaker * W) State :=
  b ← Get;
  let stats := statsLocked b in
  mret (if feqb (s_requests stats) f0 then StateClosed
        else
          let accept := acceptance (k (cfg b)) stats in
          if fleb accept f0 then StateOpen
          else if fltb accept f1 then StateHalfOpen
          else StateClosed).

(** [func (b *Breaker) Close() error] *)
Definition Close : Go (Breaker * W) (option error) := Set_ (set_closed true) ;; mret None.

#[export] Instance sres_CircuitBreaker : CircuitBreaker (Breaker * W) := {|
  cb_Allow := Allow;
  cb_MarkSuccess := MarkSuccess;
  cb_MarkFailure := MarkFailure;
  cb_State := State_;
  cb_Close := Close
|}.

(** [func (b *Breaker) Execute(ctx context.Context, fn func() error) error] *)
Definition Execute (fn : Go (Breaker * W) (option error)) : Go (Breaker * W) (option error) :=
  execute fn.
End methods.

(** * The acceptance test *)

(** A well-formed ring with at most [N] requests. *)
Definition Inv (N : Z) (b : Breaker) : Prop :=
  0 < bucketDuration b /\ buckets b <> [] /\ buckets_ok N (buckets b).

(** The floating-point totals are exact while the window holds fewer than [2^53]
    requests. *)
Lemma stats_fold bs r e R E :
  Forall bucket_ok bs -> frep r R 0 -> frep e E 0 -> 0 <= E <= R ->
  R + total_requests bs < 2 ^ 53 ->
  let s := fold_left (fun s bk => mkStats (fadd (s_requests s) (f_of_Z (requests bk)))
                                 (fadd (s_errors s) (f_of_Z (errors bk)))) bs (mkStats r e) in
  frep (s_requests s) (R + total_requests bs) 0 /\ frep (s_errors s) (E + total_errors bs) 0.
Proof.
  intros Hf. revert r e R E. unfold total_requests, total_errors.
  induction Hf as [|bk bs Hbk Hf IH]; intros r e R E Hr He HE Hb; simpl in *; [by rewrite !Z.add_0_r|].
  pose proof (total_errors_bounds bs Hf) as Ht. unfold total_errors, total_requests, bucket_ok in *.
  destruct (IH (fadd r (f_of_Z (requests bk))) (fadd e (f_of_Z (errors bk))) (R + requests bk) (E + errors bk)) as [H1 H2].
  - apply frep_add; [done|apply frep_of_Z|..]; lia.
  - apply frep_add; [done|apply frep_of_Z|..]; lia.
  - lia.
  - lia.
  - rewrite !Z.add_assoc. done.
Qed.

Lemma stats_valid bs s :
  fvalid (s_requests s) -> fvalid (s_errors s) ->
  let s' := fold_left (fun s bk => mkStats (fadd (s_requests s) (f_of_Z (requests bk)))
                                 (fadd (s_errors s) (f_of_Z (errors bk)))) bs s in
  fvalid (s_requests s') /\ fvalid (s_errors s').
Proof.
  revert s. induction bs as [|bk bs IH]; intros s Hr He; simpl; [done|].
  apply IH; simpl; auto with lulu.
Qed.

Lemma statsLocked_exact N b :
  buckets_ok N (buckets b) -> N < 2 ^ 53 ->
  frep (s_requests (statsLocked b)) (total_requests (buckets b)) 0 /\
  frep (s_errors (statsLocked b)) (total_errors (buckets b)) 0 /\
  fvalid (s_requests (statsLocked b)) /\ fvalid (s_errors (statsLocked b)).
Proof.
  intros [Hf Hle] HN. destruct (stats_fold (buckets b) f0 f0 0 0) as [H1 H2]; try done; try lia.
  destruct (stats_valid (buckets b) (mkStats f0 f0)); try done.
Qed.

Section facts.
Context {W : Type} `{Runtime W}.
Implicit Types (b : Breaker) (w : W).

Lemma sres_rotateLocked_eq N b w now :
  Inv N b -> 0 <= wall now <= int64_max ->
  exists bs last, rotateLocked now (b, w) = (Returned tt, (set_lastRotate last (set_buckets bs b), w)) /\
    rotate_buckets (bucketDuration b) (buckets b) (lastRotate b) now = Some (bs, last) /\
    Inv N (set_lastRotate last (set_buckets bs b)).
Proof.
  intros (Hbd & Hbs & Hok) Hw.
  destruct (rotate_buckets_some _ _ (lastRotate b) now Hbd Hbs Hw) as (bs & last & E & HR & _).
  exists bs, last. unfold rotateLocked, Get, mbind, Go_bind. simpl. rewrite E.
  split; [done|]. split; [done|]. split_and!; simpl; [done|by eapply rotated_not_nil|by eapply rotated_ok].
Qed.

(** [Allow] on an open (not closed) breaker: one clock reading, a rotation, and
    the acceptance test on the window it leaves. *)
Lemma sres_Allow_eq N b w :
  clock_ok W -> Inv N b -> closed b = false ->
  let '(now, w1) := time_Now w in
  exists b', rotateLocked now (b, w1) = (Returned tt, (b', w1)) /\ Inv N b' /\ cfg b' = cfg b /\
  rotate_buckets (bucketDuration b) (buckets b) (lastRotate b) now = Some (buckets b', lastRotate b') /\
  Allow (b, w) =
    (let stats := statsLocked b' in
     let accept := if fgtb (s_requests stats) f0 then acceptance (k (cfg b)) stats else f1 in
     let accept := if fltb accept f0 then f0 else accept in
     if fgeb accept f1 then (Returned None, (b', w1))
     else
       let '(r, w2) := rand_Float64 w1 in
       (Returned (if fltb r accept then None else Some ErrCircuitOpen), (b', w2))).
Proof.
  intros Hclk HI Hcl. specialize (Hclk w).
  assert (Hnow : Now (b, w) = let '(t, w1) := time_Now w in (Returned t, (b, w1))).
  { unfold Now. simpl. by destruct (time_Now w). }
  destruct (time_Now w) as [now w1]. simpl in Hclk.
  destruct (sres_rotateLocked_eq N b w1 now HI Hclk) as (bs & last & Hrot & Hrb & HI').
  exists (set_lastRotate last (set_buckets bs b)). split_and!; try done.
  unfold Allow. unfold mbind at 1, Go_bind at 1, Get at 1. cbn [fst]. rewrite Hcl.
  rewrite (go_bind_returned _ _ _ _ _ Hnow), (go_bind_returned _ _ _ _ _ Hrot).
  unfold mbind, Go_bind, Get. cbn [fst].
  set (b1 := set_lastRotate last (set_buckets bs b)). change (cfg b1) with (cfg b). cbv zeta.
  destruct (fgeb _ f1); [done|]. unfold Rand, go_snd. destruct (rand_Float64 w1) as [r w2]. by destruct (fltb r _).
Qed.
End facts.

(** * Properties *)

Section properties.
Context {W : Type} `{Runtime W}.
Implicit Types (b : Breaker) (w : W).

Lemma frep_pos_finite x n : frep x n 0 -> 0 < n -> exists m e, x = S754_finite false m e.
Proof. intros [_ Hx] Hn. destruct x as [| | |s m e]; [lia|done..|]. destruct Hx as [-> _]. eauto. Qed.

Lemma fsub_finite_not_nan s1 m1 e1 s2 m2 e2 :
  is_nan (fsub (S754_finite s1 m1 e1) (S754_finite s2 m2 e2)) = false.
Proof.
  unfold fsub. cbn -[binary_normalize shl_align Z.min]. unfold binary_normalize.
  destruct (_ - _); [done|..]; unfold binary_round; destruct (shl_align _ _ _) as [mz ez]; apply round_aux_sign; lia.
Qed.

Lemma fdiv_finite_not_nan s1 m1 e1 s2 m2 e2 :
  is_nan (fdiv (S754_finite s1 m1 e1) (S754_finite s2 m2 e2)) = false /\
  signbit (fdiv (S754_finite s1 m1 e1) (S754_finite s2 m2 e2)) = xorb s1 s2.
Proof.
  unfold fdiv. cbn -[SFdiv_core_binary]. pose proof (fdiv_core_bound (Zpos m1) e1 (Zpos m2) e2) as Hb.
  destruct (SFdiv_core_binary _ _ _ _ _ _) as [[q e'] l]. apply round_aux_sign, Hb; lia.
Qed.

(** With fewer than half of the requests failed the test is against [(R - 2E) / (R + 1)]. *)
Lemma acceptance_failures s R E :
  frep (s_requests s) R 0 -> frep (s_errors s) E 0 -> fvalid (s_requests s) -> fvalid (s_errors s) ->
  0 <= 2 * E < R -> R + 1 < 2 ^ 52 -> acceptance (f_of_Z 2) s = fdiv (f_of_Z (R - 2 * E)) (f_of_Z (R + 1)).
Proof.
  intros HR HE VR VE Hpos Hb. unfold acceptance.
  assert (H2E : frep (fmul (f_of_Z 2) (s_errors s)) (2 * E) 0).
  { apply (frep_mul _ _ 2 0 E 0); auto with lulu; [apply frep_of_Z; lia|lia|unfold emin64; lia]. }
  f_equal.
  - eapply (frep_unique _ _ (R - 2 * E) 0); [apply fsub_valid; auto with lulu|auto with lulu| | |lia].
    + apply frep_sub; [done|done|lia..].
    + apply frep_of_Z. lia.
  - eapply (frep_unique _ _ (R + 1) 0); [unfold f1; auto with lulu..| | |lia].
    + apply frep_add; [done|apply (frep_of_Z 1)|..]; lia.
    + apply frep_of_Z. lia.
Qed.

(** With at least half the requests failed it is against a value [<= 0]. *)
Lemma acceptance_outage s R E :
  frep (s_requests s) R 0 -> frep (s_errors s) E 0 -> fvalid (s_requests s) -> fvalid (s_errors s) ->
  0 < R <= 2 * E -> E <= R -> R + 1 < 2 ^ 52 -> fnonpos (acceptance (f_of_Z 2) s) = true.
Proof.
  intros HR HE VR VE Hpos Hle Hb. unfold acceptance.
  assert (H2E : frep (fmul (f_of_Z 2) (s_errors s)) (2 * E) 0).
  { apply (frep_mul _ _ 2 0 E 0); auto with lulu; [apply frep_of_Z; lia|lia|unfold emin64; lia]. }
  assert (HR1 : frep (fadd (s_requests s) f1) (R + 1) 0).
  { apply frep_add; [done|apply (frep_of_Z 1)|..]; lia. }
  assert (Vm : fvalid (fmul (f_of_Z 2) (s_errors s))) by auto with lulu.
  assert (Hle2 : fleb (s_requests s) (fmul (f_of_Z 2) (s_errors s)) = true).
  { rewrite (frep_leb _ _ R (2 * E) 0); auto. apply Z.leb_le. lia. }
  destruct (frep_pos_finite _ _ HR ltac:(lia)) as (m1 & e1 & Er).
  destruct (frep_pos_finite _ _ H2E ltac:(lia)) as (m2 & e2 & Em).
  destruct (frep_pos_finite _ _ HR1 ltac:(lia)) as (m3 & e3 & E3).
  rewrite E3, Em, Er in *.
  assert (Hsub : fnonpos (fsub (S754_finite false m1 e1) (S754_finite false m2 e2)) = true)
    by (apply fsub_nonpos; auto using fsub_finite_not_nan).
  apply fdiv_nonpos; auto.
  pose proof (fsub_finite_not_nan false m1 e1 false m2 e2).
  destruct (fsub _ _) as [[]|[]| |[] m4 e4]; try done; apply fdiv_finite_not_nan.
Qed.

(** C6: The SRE breaker's decision in terms of the window's integer counts
    (after rotation, [R] requests of which [E] failed), for the default [K = 2], is the
    formula of the package comment, [max(0, (R - 2E) / (R + 1))]: it never panics; an empty
    window admits; any other admits exactly when the draw is below
    [(R - 2E) / (R + 1)], so that with half or more of the requests failed it rejects
    whatever the draw.  This contradicts what the same comment says of [K = 2], that
    rejections start above an error rate of 50%: a window without any failure rejects the
    draws from [R / (R + 1)] up, and one with exactly half failed rejects all. *)
Theorem sres_decision N b w :
  clock_ok W -> Inv N b -> N + 1 < 2 ^ 52 -> closed b = false -> k (cfg b) = f_of_Z 2 ->
  (forall w, fnonneg (fst (rand_Float64 w)) = true /\ fltb (fst (rand_Float64 w)) f1 = true) ->
  exists b' w' res,
    Allow (b, w) = (Returned res, (b', w')) /\ Inv N b' /\
    rotate_buckets (bucketDuration b) (buckets b) (lastRotate b) (fst (time_Now w)) = Some (buckets b', lastRotate b') /\
    let R := total_requests (buckets b') in
    let E := total_errors (buckets b') in
    (R = 0 -> res = None) /\
    (0 < R <= 2 * E -> res = Some ErrCircuitOpen) /\
    (2 * E < R ->
     res = None <-> fltb (fst (rand_Float64 (snd (time_Now w)))) (fdiv (f_of_Z (R - 2 * E)) (f_of_Z (R + 1))) = true).
Proof.
  intros Hclk HI HN Hcl Hk Hrand. pose proof (sres_Allow_eq N b w Hclk HI Hcl) as HA.
  destruct (time_Now w) as [now w1]. destruct HA as (b' & _ & HI' & _ & Hrot & HA).
  rewrite HA. clear HA. pose proof HI' as (_ & _ & Hok).
  destruct (statsLocked_exact N b' Hok ltac:(lia)) as (HR & HE & VR & VE).
  destruct Hok as [Hf Hle]. pose proof (total_errors_bounds _ Hf) as Hb.
  set (s := statsLocked b') in *. set (R := total_requests (buckets b')) in *. set (E := total_errors (buckets b')) in *.
  rewrite Hk. cbv zeta. destruct (Hrand w1) as [Hr0 Hr1]. cbn [fst snd]. destruct (rand_Float64 w1) as [r w2]. cbn [fst snd] in *.
  destruct (decide (R = 0)) as [HR0|HR0].
  { assert (fgtb (s_requests s) f0 = false) as ->.
    { rewrite HR0 in HR. destruct HR as [_ HR]. destruct (s_requests s) as [[]| | |[] m e]; try done. exfalso.
      destruct HR as (_ & He & HR). assert (0 < 2 ^ (e - emin64)) by (apply Z.pow_pos_nonneg; lia). nia. }
    do 3 eexists. split; [reflexivity|]. split_and!; try done; lia. }
  assert (fgtb (s_requests s) f0 = true) as ->.
  { by destruct (frep_pos_finite _ _ HR ltac:(lia)) as (m & e & ->). }
  set (a := acceptance (f_of_Z 2) s). set (a' := if fltb a f0 then f0 else a).
  assert (Hout : R <= 2 * E -> fgeb a' f1 = false /\ fltb r a' = false).
  { intros H2E. assert (fnonpos a = true) as Ha by (eapply acceptance_outage; eauto; lia).
    assert (a' = f0 \/ exists z, a' = S754_zero z) as Ha'.
    { unfold a'. destruct a as [[]|[]| |[] m e]; try done; [right; by eexists..|left; done|left; done]. }
    destruct Ha' as [->|[z ->]]; split; try done; try (by destruct z).
    - destruct r as [[]|[]| |[]]; done.
    - destruct r as [[]|[]| |[]], z; done. }
  assert (Hhealthy : 2 * E < R -> a' = fdiv (f_of_Z (R - 2 * E)) (f_of_Z (R + 1))).
  { intros HER. assert (a = fdiv (f_of_Z (R - 2 * E)) (f_of_Z (R + 1))) as Ea by (apply acceptance_failures; auto; lia).
    unfold a'. rewrite <- Ea. destruct (fltb a f0) eqn:El; [|done]. exfalso. rewrite Ea in El.
    destruct (f_of_Z_pos (R - 2 * E)) as (m1 & e1 & E1); [lia|]. destruct (f_of_Z_pos (R + 1)) as (m2 & e2 & E2); [lia|].
    rewrite E1, E2 in El. destruct (fdiv_finite_not_nan false m1 e1 false m2 e2).
    by destruct (fdiv _ _) as [|[]| |[]]. }
  destruct (fgeb a' f1) eqn:Eg; do 3 eexists; (split; [reflexivity|]); split_and!; try done.
  - intros [_ H2E]. by destruct (Hout H2E).
  - intros HER. fold R E. rewrite <- (Hhealthy HER). split; [|done]. intros _. eapply fltb_fleb_trans; [exact Hr1|exact Eg].
  - intros [_ H2E]. destruct (Hout H2E) as [_ ->]. done.
  - intros HER. fold R E. rewrite <- (Hhealthy HER). destruct (fltb r a'); naive_solver.
Qed.
End properties.

Lemma sres_decision_witness :
  let b := fst (snd (MarkSuccess (H := TickRuntime) (New (H := TickRuntime) [] 0))) in
  exists b' w' res,
    Allow (H := TickRuntime) (b, 2) = (Returned res, (b', w')) /\ Inv 1 b' /\
    rotate_buckets (bucketDuration b) (buckets b) (lastRotate b) (fst (time_Now (Runtime := TickRuntime) 2)) =
      Some (buckets b', lastRotate b') /\
    let R := total_requests (buckets b') in
    let E := total_errors (buckets b') in
    (R = 0 -> res = None) /\
    (0 < R <= 2 * E -> res = Some ErrCircuitOpen) /\
    (2 * E < R ->
     res = None <-> fltb (fst (rand_Float64 (Runtime := TickRuntime) (snd (time_Now (Runtime := TickRuntime) 2))))
                         (fdiv (f_of_Z (R - 2 * E)) (f_of_Z (R + 1))) = true).
Proof.
  apply (sres_decision (H := TickRuntime) 1 (fst (snd (MarkSuccess (H := TickRuntime) (New (H := TickRuntime) [] 0)))) 2);
    [apply TickRuntime_ok| |vm_compute; reflexivity..|intros; vm_compute; split; reflexivity].
  split_and!; vm_compute; try reflexivity; try discriminate.
  split; [|discriminate]. repeat constructor; vm_compute; discriminate.
Defined.

(** Contrary to the description of [K = 2] (rejections start above an error
    rate of 50%), a breaker that has seen a single request, successful, rejects
    the next one when the random draw is one half, and reports itself half-open. *)
Example sres_rejects_healthy :
  let s := snd (MarkSuccess (H := TickRuntime) (New (H := TickRuntime) [] 0)) in
  total_requests (buckets (fst s)) = 1 /\ total_errors (buckets (fst s)) = 0 /\
  fst (State_ s) = Returned StateHalfOpen /\ fst (Allow (H := TickRuntime) s) = Returned (Some ErrCircuitOpen).
Proof. vm_compute. repeat split. Qed.
