(* ===== verification/TokenBucket.v ===== *)
(** [ratelimit/ratelimit.go] and [ratelimit/tokenbucket]: the limiter contract
    and the token-bucket limiter.

    Each method is one critical section of the mutex, hence one atomic action on
    the limiter and on the world [W] its clock reads; [Wait] is a loop of such
    actions separated by a blocking [select]. *)
From Stdlib Require Import ZArith Lia SpecFloat.
From S2P Require Import Prelude Float64 GoTime GoErrors.
From stdpp Require Import base gmap strings list numbers.
Open Scope string_scope.
Open Scope list_scope.
Open Scope Z_scope.

(** [var ErrLimited], [var ErrInvalidConfig] *)
Definition ErrLimited : error := Sentinel "ratelimit.ErrLimited" "ratelimit: rate limit exceeded".
Definition ErrInvalidConfig : error :=
  Sentinel "tokenbucket.ErrInvalidConfig" "tokenbucket: rate and burst must be positive".

(** [Allow] of [type Limiter interface], over a store that holds the limiter. *)
Class RateLimiter (St : Type) := { rl_Allow : Go St (bool * option error) }.

(** [type config struct] *)
Record config (W : Type) := mkConfig { c_rate : float64; c_burst : float64; c_clock : W -> Time * W }.
Arguments mkConfig {W}.
Arguments c_rate {W}.
Arguments c_burst {W}.
Arguments c_clock {W}.

Definition Option W := config W -> config W.

Definition WithClock {W} (clock : W -> Time * W) : Option W := fun c =>
  mkConfig (c_rate c) (c_burst c) clock.

(** [type Limiter struct]; nothing is ever sent on [notify]. *)
Record Limiter (W : Type) := mkLimiter {
  rate : float64;
  burst : float64;
  tokens : float64;
  last : Time;
  clock : W -> Time * W;
  closed : bool
}.
Arguments mkLimiter {W}.
Arguments rate {W}.
Arguments burst {W}.
Arguments tokens {W}.
Arguments last {W}.
Arguments clock {W}.
Arguments closed {W}.

(** [func New(rate, burst float64, opts ...Option) ( *Limiter, error)] *)
Definition New {W} `{Runtime W} (r b : float64) (opts : list (Option W)) (w : W)
    : (Limiter W + error) * W :=
  if fleb r f0 || fleb b f0 then (inr ErrInvalidConfig, w)
  else
    let cfg := apply_opts opts (mkConfig r b time_Now) in
    let '(t, w') := c_clock cfg w in
    (inl (mkLimiter (c_rate cfg) (c_burst cfg) b t (c_clock cfg) false), w').

Section methods.
Context {W : Type} `{Arch}.

(** [func (l *Limiter) takeLocked(n float64) (time.Time, time.Duration)] *)
Definition takeLocked (n : float64) (l : Limiter W) (w : W) : (Time * Duration) * (Limiter W * W) :=
  let '(now, w) := clock l w in
  let elapsed := Seconds (time_sub now (last l)) in
  let l :=
    if fgtb elapsed f0 then
      mkLimiter (rate l) (burst l) (math_Min (burst l) (fadd (tokens l) (fmul elapsed (rate l)))) now (clock l) (closed l)
    else l in
  if fgeb (tokens l) n then
    ((now, 0), (mkLimiter (rate l) (burst l) (fsub (tokens l) n) (last l) (clock l) (closed l), w))
  else
    let deficit := fsub n (tokens l) in
    let wait := f_to_int64 (fmul (fdiv deficit (rate l)) (f_of_Z Second)) in
    ((now, wait), (l, w)).

(** [func (l *Limiter) Allow() (bool, error)] *)
Definition Allow : Go (Limiter W * W) (bool * option error) := fun '(l, w) =>
  if closed l then (Returned (false, Some ErrLimited), (l, w))
  else
    let '((_, wait), s) := takeLocked f1 l w in
    if 0 <? wait then (Returned (false, Some ErrLimited), s)
    else (Returned (true, None), s).

(** [func (l *Limiter) Close() error] *)
Definition Close : Go (Limiter W * W) (option error) := fun '(l, w) =>
  (Returned None, (mkLimiter (rate l) (burst l) (tokens l) (last l) (clock l) true, w)).

(** One pass of the loop of [Wait]: [inl] is a return, [inr wait] the blocking
    [select] with a timer of [wait]. *)
Definition wait_pass : Go (Limiter W * W) (option error + Duration) := fun '(l, w) =>
  if closed l then (Returned (inl (Some ErrLimited)), (l, w))
  else
    let '((_, wait), s) := takeLocked f1 l w in
    if wait <=? 0 then (Returned (inl None), s)
    else (Returned (inr wait), s).

(** [func (l *Limiter) Wait(ctx context.Context) error], for at most [fuel]
    passes; [sel d] is the outcome of the [select] on the context and a timer of
    [d]: [Some err] when the context won.  Other goroutines run during the
    [select], so it acts on the whole store.  [None]: still waiting. *)
Fixpoint Wait (sel : Duration -> Go (Limiter W * W) (option error)) (fuel : nat)
    : Go (Limiter W * W) (option (option error)) :=
  match fuel with
  | O => mret None
  | S fuel' =>
      r ← wait_pass;
      match r with
      | inl e => mret (Some e)
      | inr wait =>
          e ← sel wait;
          match e with
          | Some err => mret (Some (Some err))
          | None => Wait sel fuel'
          end
      end
  end.

#[export] Instance tokenbucket_RateLimiter : RateLimiter (Limiter W * W) := {| rl_Allow := Allow |}.
End methods.

(** * The bucket's invariant *)

Section invariant.
Context {W : Type} `{Arch}.
Implicit Types (l : Limiter W) (w : W).

(** [x > 0] and not a NaN. *)
Definition fpos (x : float64) : Prop := fvalid x /\ fgtb x f0 = true.

Definition Inv (l : Limiter W) : Prop :=
  fpos (rate l) /\ fpos (burst l) /\ fvalid (tokens l) /\
  fnonneg (tokens l) = true /\ fleb (tokens l) (burst l) = true.

Lemma fpos_nonneg x : fpos x -> fnonneg x = true /\ is_nan x = false /\ signbit x = false.
Proof. intros [_ Hx]. destruct x as [[]|[]| |[]]; by vm_compute in Hx. Qed.

Lemma fnonneg_not_nan x : fnonneg x = true -> is_nan x = false.
Proof. by destruct x. Qed.

(** Replenishing gives a value between 0 and the burst. *)
Lemma replenish_ok t r b e :
  fpos r -> fpos b -> fpos e -> fvalid t -> fnonneg t = true ->
  let t' := math_Min b (fadd t (fmul e r)) in
  fvalid t' /\ fnonneg t' = true /\ fleb t' b = true.
Proof.
  intros Hr Hb He Vt Nt t'.
  destruct (fpos_nonneg r Hr) as (Nr & _ & _), (fpos_nonneg b Hb) as (Nb & NNb & _), (fpos_nonneg e He) as (Ne & _ & _).
  destruct Hr as [Vr Hr], Hb as [Vb Hb], He as [Ve He].
  assert (Nm : fnonneg (fmul e r) = true).
  { apply fmul_nonneg; auto. destruct e as [[]|[]| |[]], r as [[]|[]| |[]]; try done; try (by vm_compute in He); try (by vm_compute in Hr).
    unfold fmul. simpl. apply round_aux_sign. lia. }
  pose proof (fadd_nonneg _ _ Nt Nm) as Ns.
  destruct (math_Min_spec b (fadd t (fmul e r)) NNb (fnonneg_not_nan _ Ns)) as (H1 & _ & H3). fold t' in H1, H3.
  destruct H3 as [E|E]; rewrite E in *; split_and!; auto with lulu.
Qed.

Lemma take_one_ok t b :
  fvalid t -> fnonneg t = true -> fleb t b = true -> fgeb t f1 = true ->
  fvalid (fsub t f1) /\ fnonneg (fsub t f1) = true /\ fleb (fsub t f1) b = true.
Proof.
  intros Vt Nt Hb Hge. assert (V1 : fvalid f1) by done.
  assert (Hn : is_nan (fsub t f1) = false).
  { destruct t as [[]|[]| |[] m e]; try done. unfold fsub. change f1 with (S754_finite false 4503599627370496 (-52)).
    cbn -[binary_normalize shl_align Z.min]. unfold binary_normalize.
    destruct (_ - _); [done|..]; unfold binary_round; destruct (shl_align _ _ _) as [mz ez]; apply round_aux_sign; lia. }
  split_and!; [auto with lulu|by apply fsub_nonneg|].
  eapply fleb_trans; [|exact Hb]. by apply fsub_le.
Qed.

Lemma takeLocked_inv l w : Inv l -> Inv (fst (snd (takeLocked f1 l w))) /\
  rate (fst (snd (takeLocked f1 l w))) = rate l /\ burst (fst (snd (takeLocked f1 l w))) = burst l /\
  clock (fst (snd (takeLocked f1 l w))) = clock l /\ closed (fst (snd (takeLocked f1 l w))) = closed l.
Proof.
  intros (Hr & Hb & Vt & Nt & Lt). unfold takeLocked. destruct (clock l w) as [now w1].
  set (e := Seconds _). set (l1 := if fgtb e f0 then _ else l).
  assert (HI1 : Inv l1 /\ rate l1 = rate l /\ burst l1 = burst l /\ clock l1 = clock l /\ closed l1 = closed l).
  { unfold l1. destruct (fgtb e f0) eqn:E; [|by split_and!].
    destruct (replenish_ok (tokens l) (rate l) (burst l) e) as (? & ? & ?); auto.
    { split; [apply Seconds_valid|done]. }
    by split_and!. }
  destruct HI1 as ((Hr1 & Hb1 & Vt1 & Nt1 & Lt1) & E1 & E2 & E3 & E4).
  destruct (fgeb (tokens l1) f1) eqn:Eg; simpl; [|by split_and!].
  destruct (take_one_ok (tokens l1) (burst l1)) as (? & ? & ?); auto. by split_and!.
Qed.
End invariant.

(** * Properties *)

Inductive op := OpAllow | OpWaitPass | OpClose.

Section safety.
Context {W : Type} `{Arch}.
Implicit Types (l : Limiter W) (w : W).

Definition step (o : op) (s : Limiter W * W) : Limiter W * W :=
  match o with
  | OpAllow => snd (Allow s)
  | OpWaitPass => snd (wait_pass s)
  | OpClose => snd (Close s)
  end.

Lemma bucket_step_inv o s : Inv (fst s) -> Inv (fst (step o s)).
Proof.
  destruct s as [l w]. intros HI. destruct (takeLocked_inv l w HI) as (HI' & _).
  destruct o; simpl; [| |done]; (destruct (closed l); [done|]);
    destruct (takeLocked f1 l w) as [[now wait] s]; by case_if.
Qed.

(** C7: The token count of a limiter built with a positive rate and burst (of
    any magnitude, infinities included) stays a number between 0 and the burst,
    whatever the clock, and whatever the interleaving of [Allow], [Wait] and
    [Close] calls. *)
Theorem tokenbucket_invariant `{Runtime W} r b opts ops (w : W) l w' :
  fvalid r -> fvalid b -> is_nan r = false -> is_nan b = false ->
  Forall (fun o => exists c, o = WithClock c) opts ->
  New r b opts w = (inl l, w') ->
  let l' := fst (fold_left (fun s o => step o s) ops (l, w')) in
  fnonneg (tokens l') = true /\ fleb (tokens l') b = true /\ Inv l'.
Proof.
  intros Vr Vb Nr Nb Ho E l'.
  enough (Inv l' /\ burst l' = b) as [HI <-] by (split_and!; try done; apply HI).
  assert (Hcfg : let c := apply_opts opts (mkConfig r b time_Now) in c_rate c = r /\ c_burst c = b).
  { apply (apply_opts_preserves (fun c => c_rate c = r /\ c_burst c = b)); [|done].
    eapply List.Forall_impl; [|exact Ho]. by intros ? [c ->]. }
  assert (HI0 : Inv l /\ burst l = b).
  { unfold New in E. destruct (fleb r f0) eqn:Er, (fleb b f0) eqn:Eb; simplify_eq/=.
    assert (fpos r /\ fpos b) as [Pr Pb] by (split; (split; [done|]); destruct r as [[]|[]| |[]], b as [[]|[]| |[]]; done).
    destruct (c_clock _ w) as [t w1]. simplify_eq/=. destruct Hcfg as [-> ->].
    split; [|done]. split_and!; try done; [by apply fpos_nonneg|by apply fleb_refl]. }
  assert (Hgen : forall s, Inv (fst s) /\ burst (fst s) = b ->
    Inv (fst (fold_left (fun s o => step o s) ops s)) /\ burst (fst (fold_left (fun s o => step o s) ops s)) = b).
  { clear. induction ops as [|o ops IH]; intros [l w] [HI Hb]; simpl; [done|]. apply IH. split; [by apply bucket_step_inv|].
    destruct (takeLocked_inv l w HI) as (_ & _ & E & _).
    destruct o; simpl; [| |done]; (destruct (closed l); [done|]);
      destruct (takeLocked f1 l w) as [[now wait] s]; case_if; simpl in *; congruence. }
  apply (Hgen (l, w')). exact HI0.
Qed.
End safety.

(** A clock scripted by a list of nanosecond readings. *)
Definition script_clock (w : list Z) : Time * list Z :=
  match w with
  | [] => (mkTime 0 (Some 0), [])
  | t :: ts => (mkTime t (Some t), ts)
  end.

#[local] Instance ScriptRuntime : Runtime (list Z) := {|
  time_Now := script_clock;
  rand_Float64 := fun w => (f0, w)
|}.

Lemma tokenbucket_invariant_witness :
  exists l w',
    New (f_of_Z 100) (f_const 5 2) [] [0; 10; 20; 30] = (inl l, w') /\
    let l' := fst (fold_left (fun s o => step (H := amd64) o s) [OpAllow; OpWaitPass; OpAllow; OpClose] (l, w')) in
    fnonneg (tokens l') = true /\ fleb (tokens l') (f_const 5 2) = true /\ Inv l'.
Proof.
  do 2 eexists. split; [vm_compute; reflexivity|].
  apply (tokenbucket_invariant (H := amd64) (H0 := ScriptRuntime) (f_of_Z 100) (f_const 5 2) []
           [OpAllow; OpWaitPass; OpAllow; OpClose] [0; 10; 20; 30]); vm_compute; try reflexivity. constructor.
Defined.

(** ** The rate guarantee

    The ideal bucket: integer tokens, replenished by [r] per second up to [B]. *)
Record ideal := mkIdeal { i_tokens : Z; i_last : Z }.

Definition ideal_allow (r B now : Z) (s : ideal) : bool * ideal :=
  let s := if i_last s <? now then mkIdeal (Z.min B (i_tokens s + r * (now - i_last s))) now else s in
  if 1 <=? i_tokens s then (true, mkIdeal (i_tokens s - 1) (i_last s)) else (false, s).

Fixpoint ideal_run (r B : Z) (nows : list Z) (s : ideal) : list bool * ideal :=
  match nows with
  | [] => ([], s)
  | now :: nows' =>
      let '(ok, s1) := ideal_allow r B now s in
      let '(oks, s2) := ideal_run r B nows' s1 in (ok :: oks, s2)
  end.

Definition admitted (oks : list bool) : Z := sumZ (map Z.b2z oks).

Lemma ideal_allow_step r B now s :
  0 <= r -> 0 <= B -> 0 <= i_tokens s ->
  let '(ok, s') := ideal_allow r B now s in
  0 <= i_tokens s' /\ i_last s <= i_last s' /\
  Z.b2z ok + i_tokens s' <= i_tokens s + r * (i_last s' - i_last s).
Proof.
  intros Hr HB Hs. unfold ideal_allow. destruct (i_last s <? now) eqn:El; bool_to_prop.
  all: match goal with |- context [1 <=? ?t] => destruct (1 <=? t) eqn:E1 end; bool_to_prop; simpl in *; nia.
Qed.

(** In an interval the ideal bucket admits at most what it held plus what it
    was given. *)
Lemma ideal_rate r B nows s :
  0 <= r -> 0 <= B -> 0 <= i_tokens s ->
  let '(oks, s') := ideal_run r B nows s in
  i_last s <= i_last s' /\ 0 <= i_tokens s' /\
  admitted oks + i_tokens s' <= i_tokens s + r * (i_last s' - i_last s).
Proof.
  intros Hr HB. revert s. induction nows as [|now nows IH]; intros s Hs; simpl; [unfold admitted; simpl; lia|].
  pose proof (ideal_allow_step r B now s Hr HB Hs) as Hstep. destruct (ideal_allow r B now s) as [ok s1].
  destruct Hstep as (Hs1 & Hl & Hb). specialize (IH s1 Hs1). destruct (ideal_run r B nows s1) as [oks s2].
  unfold admitted in *. simpl. nia.
Qed.

Lemma ideal_run_length r B nows s : length (fst (ideal_run r B nows s)) = length nows.
Proof.
  revert s. induction nows as [|now nows IH]; intros s; [done|]. cbn [ideal_run]. destruct (ideal_allow r B now s) as [ok s1].
  specialize (IH s1). destruct (ideal_run r B nows s1) as [oks s2]. cbn in *. by rewrite IH.
Qed.

(** Whole seconds are converted exactly. *)
Lemma Seconds_whole n : Seconds (n * Second) = fadd (f_of_Z n) f0.
Proof.
  unfold Seconds. rewrite Z.quot_mul, Z.rem_mul by (unfold Second; lia). done.
Qed.

Lemma Seconds_whole_rep n : 0 <= n < 2 ^ 53 -> frep (Seconds (n * Second)) n 0.
Proof.
  intros Hn. rewrite Seconds_whole. rewrite <- (Z.add_0_r n) at 2.
  apply frep_add; [by apply frep_of_Z|by apply (frep_of_Z 0)|lia|lia].
Qed.

Lemma Seconds_whole_neg n : n < 0 -> fgtb (Seconds (n * Second)) f0 = false.
Proof.
  intros Hn. rewrite Seconds_whole. unfold f_of_Z. destruct n as [|p|p]; [lia..|]. simpl. unfold binary_round.
  destruct (shl_align _ _ _) as [mz ez]. destruct (round_aux_sign true (Zpos mz) ez loc_Exact) as [H1 H2]; [lia|].
  destruct (binary_round_aux _ _ _ _ _ _) as [[]|[]| |[] m e]; try done.
Qed.

Section refinement.
Context {W : Type} `{Arch} (clk : W -> Time * W) (sec : W -> Z) (T r B : Z).
(** The clock reads whole seconds between 0 and [T]; rate and burst are integers
    that keep every token count below [2^52]. *)
Hypothesis clk_sec : forall w, mono (fst (clk w)) = Some (sec w * Second) /\ 0 <= sec w <= T.
Hypothesis T_range : T * Second <= int64_max.
Hypothesis r_range : 0 < r /\ r * T < 2 ^ 52.
Hypothesis B_range : 0 < B < 2 ^ 52.

(** The wait for a whole token, in nanoseconds.  Where the truncation leaves nothing of it,
    a call that finds no token is admitted all the same. *)
Definition token_wait : Duration := f_to_int64 (fmul (fdiv f1 (f_of_Z r)) (f_of_Z Second)).
Definition free : bool := token_wait <=? 0.

Definition sim (l : Limiter W) (s : ideal) : Prop :=
  rate l = f_of_Z r /\ burst l = f_of_Z B /\ clock l = clk /\ closed l = false /\
  frep (tokens l) (i_tokens s) 0 /\ fvalid (tokens l) /\ i_tokens s <= B /\
  mono (last l) = Some (i_last s * Second) /\ 0 <= i_last s <= T.

Lemma T_bound : 0 <= T < 2 ^ 34 \/ T < 0.
Proof. unfold Second, int64_max in *. lia. Qed.

(** The replenished limiter simulates the replenished bucket. *)
Lemma replenish_sim l s w :
  sim l s ->
  let now := fst (clk w) in
  let e := Seconds (time_sub now (last l)) in
  sim (if fgtb e f0 then
         mkLimiter (rate l) (burst l) (math_Min (burst l) (fadd (tokens l) (fmul e (rate l)))) now (clock l) (closed l)
       else l)
      (if i_last s <? sec w then mkIdeal (Z.min B (i_tokens s + r * (sec w - i_last s))) (sec w) else s).
Proof.
  intros Hsim now e. pose proof Hsim as (Er & Eb & Ec & Ecl & Ht & Vt & HtB & Hl & Hlr).
  destruct (clk_sec w) as [Hnow Hsec]. pose proof T_bound as HT. destruct (frep_nonneg _ _ _ Ht) as [Ht0 _].
  assert (He : e = Seconds ((sec w - i_last s) * Second)).
  { unfold e, time_sub. unfold now. rewrite Hnow, Hl. f_equal. rewrite <- Z.mul_sub_distr_r. apply sat64_id.
    unfold in_int64, int64_min, int64_max, Second in *. lia. }
  destruct (i_last s <? sec w) eqn:El; bool_to_prop.
  - pose proof (Seconds_whole_rep (sec w - i_last s) ltac:(lia)) as Hrep. rewrite <- He in Hrep.
    assert (fgtb e f0 = true) as ->.
    { unfold fgtb. change SFltb with fltb. rewrite (frep_ltb f0 e 0 (sec w - i_last s) 0); try done.
      - apply Z.ltb_lt. lia.
      - rewrite He. apply Seconds_valid. }
    assert (Ve : fvalid e) by (rewrite He; apply Seconds_valid).
    assert (Hmul : frep (fmul e (rate l)) ((sec w - i_last s) * r) 0).
    { rewrite Er. apply (frep_mul _ _ _ 0 _ 0); auto with lulu; [apply frep_of_Z; nia|nia|unfold emin64; lia]. }
    assert (Hadd : frep (fadd (tokens l) (fmul e (rate l))) (i_tokens s + (sec w - i_last s) * r) 0).
    { apply frep_add; auto; nia. }
    assert (Va : fvalid (fadd (tokens l) (fmul e (rate l)))) by (rewrite Er; auto with lulu).
    assert (HB : frep (burst l) B 0) by (rewrite Eb; apply frep_of_Z; lia).
    assert (VB : fvalid (burst l)) by (rewrite Eb; auto with lulu).
    destruct (frep_nonneg _ _ _ HB) as (_ & NB & _), (frep_nonneg _ _ _ Hadd) as (_ & NA & _).
    destruct (math_Min_spec _ _ NB NA) as (L1 & L2 & Hor).
    split_and!; simpl; auto; try lia.
    + destruct Hor as [E|E]; rewrite E in *.
      * rewrite (frep_leb _ _ _ _ _ VB Va HB Hadd) in L2. bool_to_prop. rewrite Z.min_l by lia. done.
      * rewrite (frep_leb _ _ _ _ _ Va VB Hadd HB) in L1. bool_to_prop. rewrite Z.min_r by lia.
        by rewrite (Z.mul_comm r).
    + by destruct Hor as [->| ->].
  - assert (fgtb e f0 = false) as ->; [|done]. rewrite He.
    destruct (decide (sec w = i_last s)) as [->|Hne]; [by rewrite Z.sub_diag|]. apply Seconds_whole_neg. lia.
Qed.

Lemma Allow_sim l s w :
  sim l s ->
  let '(ok, s') := ideal_allow r B (sec w) s in
  exists l', Allow (l, w) = (Returned (ok || free, if ok || free then None else Some ErrLimited), (l', snd (clk w))) /\ sim l' s'.
Proof.
  intros Hsim. pose proof (replenish_sim l s w Hsim) as Hs1. pose proof Hsim as (_ & _ & Ec & Ecl & _).
  unfold ideal_allow, Allow, takeLocked. rewrite Ecl, Ec. destruct (clk w) as [now w1]. simpl fst in Hs1. simpl snd.
  cbv zeta in *. rewrite Ec, Ecl in Hs1.
  set (l1 := if fgtb _ f0 then _ else l) in *. set (s1 := if i_last s <? sec w then _ else s) in *.
  pose proof Hs1 as (Er & Eb & Ec1 & Ecl1 & Ht & Vt & HtB & Hl & Hlr). destruct (frep_nonneg _ _ _ Ht) as [Ht0 _].
  assert (fgeb (tokens l1) f1 = (1 <=? i_tokens s1)) as ->.
  { unfold fgeb. change SFleb with fleb. apply (frep_leb f1 (tokens l1) 1 _ 0); auto; [done|by apply (frep_of_Z 1)]. }
  destruct (1 <=? i_tokens s1) eqn:E1; bool_to_prop.
  - eexists. split; [reflexivity|]. split_and!; simpl; auto; try lia.
    + apply frep_sub; [done|by apply (frep_of_Z 1)|lia|lia].
    + apply fsub_valid; [done|reflexivity].
  - assert (i_tokens s1 = 0) as E0 by lia. rewrite E0 in Ht. destruct Ht as [_ Ht].
    assert (fsub f1 (tokens l1) = f1) as ->.
    { destruct (tokens l1) as [[]| | |sg m e] eqn:Et; try done. exfalso. destruct Ht as (_ & He & Ht).
      assert (0 < 2 ^ (e - emin64)) by (apply Z.pow_pos_nonneg; lia). lia. }
    rewrite Er. change (f_to_int64 (fmul (fdiv f1 (f_of_Z r)) (f_of_Z Second))) with token_wait. unfold free.
    destruct (Z.ltb_spec 0 token_wait), (Z.leb_spec token_wait 0); try lia; by exists l1.
Qed.

(** The [Allow] calls of a run, and the readings of the clock. *)
Fixpoint allows (n : nat) (s : Limiter W * W) : list bool * (Limiter W * W) :=
  match n with
  | O => ([], s)
  | S n' =>
      let '(res, s1) := Allow s in
      let '(oks, s2) := allows n' s1 in
      (match res with Returned (ok, _) => ok | Panicked => false end :: oks, s2)
  end.

Fixpoint readings (n : nat) (w : W) : list Z :=
  match n with
  | O => []
  | S n' => sec w :: readings n' (snd (clk w))
  end.

Lemma readings_length n w : length (readings n w) = n.
Proof. revert w. induction n as [|n IH]; intros w; [done|]. cbn. by rewrite IH. Qed.

(** The wait for one token at every rate up to 1000, computed. *)
Lemma token_wait_pos : r <= 1000 -> 0 < token_wait.
Proof.
  intros Hr. assert (forallb (fun n => match f_trunc (fmul (fdiv f1 (f_of_Z (Z.of_nat n))) (f_of_Z Second)) with
    | Some t => (0 <? t) && in_int64b t | None => false end) (seq 1 1000) = true) as Hall by (vm_compute; reflexivity).
  rewrite forallb_forall in Hall. specialize (Hall (Z.to_nat r) ltac:(apply in_seq; lia)). rewrite Z2Nat.id in Hall by lia.
  unfold token_wait, f_to_int64. destruct (f_trunc _) as [t|]; [|done]. apply andb_prop in Hall as [Ht ->]. by apply Z.ltb_lt.
Qed.

Lemma allows_sim n l s w :
  sim l s ->
  let '(oks, s') := ideal_run r B (readings n w) s in
  exists l' w', allows n (l, w) = (map (fun ok => ok || free) oks, (l', w')) /\ sim l' s'.
Proof.
  revert l s w. induction n as [|n IH]; intros l s w Hsim; [by exists l, w|]. cbn [readings ideal_run allows].
  pose proof (Allow_sim l s w Hsim) as Ha. destruct (ideal_allow r B (sec w) s) as [ok s1].
  destruct Ha as (l1 & -> & Hs1). specialize (IH l1 s1 (snd (clk w)) Hs1).
  destruct (ideal_run r B (readings n (snd (clk w))) s1) as [oks s2]. destruct IH as (l' & w' & -> & Hs2).
  by exists l', w'.
Qed.

(** C8: On a clock of whole seconds, for an integer rate [r] and burst [B] that keep the
    token counts below [2^52], the floating-point limiter is exactly the ideal integer
    bucket as long as the wait for one token is at least a nanosecond: [n] successive
    [Allow] calls on a fresh limiter answer as the ideal bucket does, and no more than
    [B + r * (t1 - t0)] of them are admitted, [t0] and [t1] being the creation time and the
    time of the last replenishment.  The wait is that long for every rate up to 1000.  For
    a rate so high that the wait truncates to nothing, the limiter does not limit: all
    calls are admitted. *)
Theorem tokenbucket_rate `{Runtime W} n w l w' :
  New (f_of_Z r) (f_of_Z B) [WithClock clk] w = (inl l, w') ->
  (r <= 1000 -> 0 < token_wait) /\
  exists l' w'' oks t1,
    allows n (l, w') = (oks, (l', w'')) /\
    mono (last l') = Some (t1 * Second) /\ sec w <= t1 <= T /\
    (0 < token_wait ->
     oks = fst (ideal_run r B (readings n w') (mkIdeal B (sec w))) /\ admitted oks <= B + r * (t1 - sec w)) /\
    (token_wait <= 0 -> oks = replicate n true).
Proof.
  intros E. split; [intros Hr; apply token_wait_pos; lia|].
  unfold New in E. destruct (_ || _); [done|].
  unfold apply_opts, WithClock in E. simpl in E. destruct (clk_sec w) as [Hm Hs]. destruct (clk w) as [t w1] eqn:Ew.
  simplify_eq/=. set (l := mkLimiter _ _ _ _ _ _).
  assert (Hsim : sim l (mkIdeal B (sec w))).
  { split_and!; simpl; auto with lulu; try lia. apply frep_of_Z. lia. }
  pose proof (allows_sim n l _ w' Hsim) as Ha.
  pose proof (ideal_rate r B (readings n w') (mkIdeal B (sec w)) ltac:(lia) ltac:(lia) ltac:(simpl; lia)) as Hr.
  pose proof (ideal_run_length r B (readings n w') (mkIdeal B (sec w))) as Hlen.
  destruct (ideal_run r B (readings n w') _) as [oks s']. destruct Ha as (l' & w'' & Ha & Hs').
  destruct Hs' as (_ & _ & _ & _ & _ & _ & _ & Hl & Hlr). simpl in Hr, Hlen. rewrite readings_length in Hlen.
  exists l', w'', (map (fun ok => ok || free) oks), (i_last s'). unfold free. split_and!; try done; try lia; intros Hw.
  - rewrite (proj2 (Z.leb_gt token_wait 0)) by lia. rewrite (map_ext _ id) by (intros; apply orb_false_r). rewrite map_id. simpl. split; [done|lia].
  - rewrite (proj2 (Z.leb_le token_wait 0)) by lia. rewrite <- Hlen. clear. induction oks as [|ok oks IH]; [done|]. cbn. by rewrite orb_true_r, IH.
Qed.
End refinement.

(** A clock of whole seconds, one second apart every third reading. *)
Definition slow_clock (w : nat) : Time * nat :=
  let t := Z.of_nat (Nat.min (Nat.div w 3) 1000) * Second in (mkTime t (Some t), S w).

#[local] Instance SlowRuntime : Runtime nat := {| time_Now := slow_clock; rand_Float64 := fun w => (f0, w) |}.

Lemma tokenbucket_rate_witness :
  (2 <= 1000 -> 0 < token_wait (H := amd64) 2) /\
  exists l' w'' oks t1,
    allows (H := amd64) 12 (mkLimiter (f_of_Z 2) (f_of_Z 5) (f_of_Z 5) (fst (slow_clock 0)) slow_clock false, 1%nat) =
      (oks, (l', w'')) /\
    mono (last l') = Some (t1 * Second) /\ 0 <= t1 <= 1000 /\
    (0 < token_wait (H := amd64) 2 ->
     oks = fst (ideal_run 2 5 (readings slow_clock (fun w => Z.of_nat (Nat.min (Nat.div w 3) 1000)) 12 1%nat) (mkIdeal 5 0)) /\
     admitted oks <= 5 + 2 * (t1 - 0)) /\
    (token_wait (H := amd64) 2 <= 0 -> oks = replicate 12 true).
Proof.
  apply (tokenbucket_rate (H := amd64) slow_clock (fun w => Z.of_nat (Nat.min (Nat.div w 3) 1000)) 1000 2 5)
    with (w := 0%nat) (H0 := SlowRuntime);
    try (vm_compute; reflexivity); try (unfold int64_max, Second; lia).
  - intros w. split; [done|]. lia.
Defined.

(** A rate of three in a nanosecond does not limit. *)
Example no_wait_at_high_rates : token_wait (H := amd64) 3000000000 = 0.
Proof. vm_compute. reflexivity. Qed.

(** The truncation of [wait] breaks the rate guarantee: a missing fraction
    of a token worth less than a nanosecond of waiting counts as no wait, and
    the request is admitted without consuming anything.  A limiter of 100
    requests per second and burst 1 admits four requests within 10ms; a limiter
    slower than about one request in 292 years admits everything on amd64,
    the wait overflowing to a negative duration. *)
Theorem tokenbucket_free_admission :
  let fast := mkLimiter (f_of_Z 100) f1 f1 (mkTime 0 (Some 0)) script_clock false in
  let slow := mkLimiter (f_const 1 10000000000) f1 f1 (mkTime 0 (Some 0)) script_clock false in
  let '(oks, (l, _)) := allows (H := amd64) 4 (fast, [0; 9999999; 9999999; 9999999]) in
  let '(oks', (l', _)) := allows (H := amd64) 4 (slow, [0; 1; 2; 3]) in
  oks = [true; true; true; true] /\ fgtb (tokens l) f0 = true /\ fltb (tokens l) f1 = true /\
  oks' = [true; true; true; true].
Proof. vm_compute. repeat split. Qed.
