(* ===== verification/Bbr.v ===== *)
(** [ratelimit/bbr/bbr.go]: the adaptive limiter that bounds the requests in
    flight by an estimate of the sustainable throughput. *)
From Stdlib Require Import ZArith Lia SpecFloat.
From S2P Require Import Prelude Float64 GoTime GoErrors CircuitBreaker TokenBucket.
From stdpp Require Import base gmap strings list numbers.
Open Scope string_scope.
Open Scope list_scope.
Open Scope Z_scope.

(** [type config struct] *)
Record config := mkConfig {
  cpuThreshold : float64;
  window : Duration;
  bucketCount : Z;
  minQPS : float64
}.

Definition Option := config -> config.

Definition WithCPUThreshold (threshold : float64) : Option := fun c =>
  if fgtb threshold f0 && fltb threshold f1
  then mkConfig threshold (window c) (bucketCount c) (minQPS c) else c.
Definition WithWindow (d : Duration) : Option := fun c =>
  if 0 <? d then mkConfig (cpuThreshold c) d (bucketCount c) (minQPS c) else c.
Definition WithBucketCount (n : Z) : Option := fun c =>
  if 0 <? n then mkConfig (cpuThreshold c) (window c) n (minQPS c) else c.
Definition WithMinQPS (qps : float64) : Option := fun c =>
  if fgtb qps f0 then mkConfig (cpuThreshold c) (window c) (bucketCount c) qps else c.

Definition defaultConfig : config := mkConfig (f_const 8 10) (10 * Second) 40 f1.

(** [type bucket struct]; [startTime] is never read or written. *)
Record rttBucket := mkRttBucket { startTime : Z; count : Z; totalRTT : Z }.

Definition emptyRtt : rttBucket := mkRttBucket 0 0 0.

(** [type Limiter struct] *)
Record Limiter := mkLimiter {
  cfg : config;
  bucketDuration : Duration;
  buckets : list rttBucket;
  lastBucketTime : Time;
  inflight : Z;
  lastDropTime : Time;
  maxInflight : Z;
  closed : bool
}.

Definition set_buckets (bs : list rttBucket) (l : Limiter) : Limiter :=
  mkLimiter (cfg l) (bucketDuration l) bs (lastBucketTime l) (inflight l) (lastDropTime l) (maxInflight l) (closed l).
Definition set_lastBucketTime (t : Time) (l : Limiter) : Limiter :=
  mkLimiter (cfg l) (bucketDuration l) (buckets l) t (inflight l) (lastDropTime l) (maxInflight l) (closed l).
Definition set_inflight (n : Z) (l : Limiter) : Limiter :=
  mkLimiter (cfg l) (bucketDuration l) (buckets l) (lastBucketTime l) n (lastDropTime l) (maxInflight l) (closed l).
Definition set_lastDropTime (t : Time) (l : Limiter) : Limiter :=
  mkLimiter (cfg l) (bucketDuration l) (buckets l) (lastBucketTime l) (inflight l) t (maxInflight l) (closed l).
Definition set_maxInflight (n : Z) (l : Limiter) : Limiter :=
  mkLimiter (cfg l) (bucketDuration l) (buckets l) (lastBucketTime l) (inflight l) (lastDropTime l) n (closed l).
Definition set_closed (c : bool) (l : Limiter) : Limiter :=
  mkLimiter (cfg l) (bucketDuration l) (buckets l) (lastBucketTime l) (inflight l) (lastDropTime l) (maxInflight l) c.

(** [func (l *Limiter) currentBucketIndexLocked(now time.Time) int] *)
Definition currentBucketIndexLocked (now : Time) (l : Limiter) : option Z :=
  if (bucketDuration l =? 0) || (Z.of_nat (length (buckets l)) =? 0) then None
  else Some (Z.rem (quot64 (UnixNano now) (bucketDuration l)) (Z.of_nat (length (buckets l)))).

(** [l.buckets[idx] = f(l.buckets[idx])], which panics out of range. *)
Definition rtt_update (f : rttBucket -> rttBucket) (idx : Z) (bs : list rttBucket) : option (list rttBucket) :=
  if 0 <=? idx then
    match bs !! Z.to_nat idx with
    | Some bk => Some (<[Z.to_nat idx := f bk]> bs)
    | None => None
    end
  else None.

(** The clearing loop of [rotateLocked], from [i] on, for [k] more turns. *)
Fixpoint clear_steps (index steps i : Z) (k : nat) (bs : list rttBucket) : option (list rttBucket) :=
  match k with
  | O => Some bs
  | S k' =>
      let n := Z.of_nat (length bs) in
      let idx := index - steps + i + 1 in
      let idx := if idx <? 0 then idx + n else idx in
      let idx := Z.rem idx n in
      match rtt_update (fun _ => emptyRtt) idx bs with
      | Some bs' => clear_steps index steps (i + 1) k' bs'
      | None => None
      end
  end.

(** One turn of the loop of [estimateMaxQPSLocked] on [(zero, totalCount, minRTT)]. *)
Definition estimate_step (acc : bool * Z * Duration) (b : rttBucket) : bool * Z * Duration :=
  let '(zero, totalCount, minRTT) := acc in
  if 0 <? count b then
    let avgRTT := quot64 (totalRTT b) (count b) in
    (false, add64 totalCount (count b), if avgRTT <? minRTT then avgRTT else minRTT)
  else acc.

(** [func (l *Limiter) estimateMaxQPSLocked() float64] *)
Definition estimateMaxQPSLocked (l : Limiter) : float64 :=
  let '(zero, totalCount, minRTT) := fold_left estimate_step (buckets l) (true, 0, int64_max) in
  if (zero : bool) || (minRTT <=? 0) then minQPS (cfg l)
  else
    let qps := fdiv (f_of_Z totalCount) (Seconds (window (cfg l))) in
    let qps := if fltb qps (minQPS (cfg l)) then minQPS (cfg l) else qps in
    let maxPass := fdiv (Seconds (window (cfg l))) (Seconds minRTT) in
    let qps := if fltb maxPass qps then maxPass else qps in
    math_Max qps (minQPS (cfg l)).

Section methods.
Context {W : Type} `{Runtime W} `{Arch}.

Definition Now : Go (Limiter * W) Time := go_snd (fun w => let '(t, w') := time_Now w in (Returned t, w')).
Definition Get : Go (Limiter * W) Limiter := fun s => (Returned (fst s), s).
Definition Set_ (f : Limiter -> Limiter) : Go (Limiter * W) unit := go_fst (go_modify f).

(** [func New(opts ...Option) *Limiter] *)
Definition New (opts : list Option) (w : W) : Limiter * W :=
  let c := apply_opts opts defaultConfig in
  let '(t, w') := time_Now w in
  (mkLimiter c (quot64 (window c) (bucketCount c)) (replicate (Z.to_nat (bucketCount c)) emptyRtt)
     t 0 zeroTime 0 false, w').

(** [func (l *Limiter) rotateLocked(now time.Time)] *)
Definition rotateLocked (now : Time) : Go (Limiter * W) unit :=
  l ← Get;
  let elapsed := time_sub now (lastBucketTime l) in
  if bucketDuration l =? 0 then go_panic
  else
    let steps := quot64 elapsed (bucketDuration l) in
    if steps <=? 0 then mret tt
    else
      let n := Z.of_nat (length (buckets l)) in
      (if n <=? steps then Set_ (fun l => set_buckets (map (fun _ => emptyRtt) (buckets l)) l)
       else
         index ← go_try (currentBucketIndexLocked now l);
         bs ← go_try (clear_steps index steps 0 (Z.to_nat steps) (buckets l));
         Set_ (set_buckets bs)) ;;
      Set_ (set_lastBucketTime now).

(** [func (l *Limiter) Allow() (bool, error)] *)
Definition Allow : Go (Limiter * W) (bool * option error) :=
  l ← Get;
  if closed l then mret (false, Some ErrLimited)
  else
    now ← Now;
    rotateLocked now ;;
    l ← Get;
    let maxQPS := estimateMaxQPSLocked l in
    let m := f_to_int64 (fmul maxQPS (cpuThreshold (cfg l))) in
    let m := if m <? 1 then 1 else m in
    Set_ (set_maxInflight m) ;;
    l ← Get;
    if m <=? inflight l then
      Set_ (set_lastDropTime now) ;; mret (false, Some ErrLimited)
    else
      Set_ (fun l => set_inflight (add64 (inflight l) 1) l) ;; mret (true, None).

(** [func (l *Limiter) Done(rtt time.Duration)] *)
Definition Done (rtt : Duration) : Go (Limiter * W) unit :=
  Set_ (fun l => set_inflight (sub64 (inflight l) 1) l) ;;
  now ← Now;
  rotateLocked now ;;
  l ← Get;
  idx ← go_try (currentBucketIndexLocked now l);
  bs ← go_try (rtt_update (fun bk => mkRttBucket (startTime bk) (add64 (count bk) 1) (add64 (totalRTT bk) rtt))
                 idx (buckets l));
  Set_ (set_buckets bs).

(** [func (l *Limiter) Close() error] *)
Definition Close : Go (Limiter * W) (option error) := Set_ (set_closed true) ;; mret None.

(** [func (l *Limiter) MaxInflight() int64] *)
Definition MaxInflight : Go (Limiter * W) Z := l ← Get; mret (maxInflight l).

(** [func (l *Limiter) Wait(ctx context.Context) error], for at most [fuel]
    attempts; [sel] is the [select] on the context and the 10ms timer, during
    which other goroutines run. *)
Fixpoint Wait (sel : Duration -> Go (Limiter * W) (option error)) (fuel : nat)
    : Go (Limiter * W) (option (option error)) :=
  match fuel with
  | O => mret None
  | S fuel' =>
      '(ok, err) ← Allow;
      match err, ok with
      | None, true => mret (Some None)
      | _, _ =>
          e ← sel (10 * Millisecond);
          match e with
          | Some c => mret (Some (Some c))
          | None => Wait sel fuel'
          end
      end
  end.

#[export] Instance bbr_RateLimiter : RateLimiter (Limiter * W) := {| rl_Allow := Allow |}.
End methods.

(** * Rotation *)

Lemma rtt_update_some f idx bs :
  0 <= idx < Z.of_nat (length bs) ->
  exists bk, bs !! Z.to_nat idx = Some bk /\ rtt_update f idx bs = Some (<[Z.to_nat idx := f bk]> bs).
Proof.
  intros Hi. unfold rtt_update. destruct (0 <=? idx) eqn:E; bool_to_prop; [|lia].
  destruct (bs !! Z.to_nat idx) as [bk|] eqn:Hl; [by exists bk|]. apply lookup_ge_None in Hl. lia.
Qed.

(** The loop clears buckets of a ring whose other buckets satisfy [P]. *)
Lemma bbr_clear_steps_some (P : rttBucket -> Prop) index steps i k bs :
  P emptyRtt -> 0 <= index < Z.of_nat (length bs) -> 0 <= i -> i + Z.of_nat k <= steps ->
  steps < Z.of_nat (length bs) -> Forall P bs ->
  exists bs', clear_steps index steps i k bs = Some bs' /\ length bs' = length bs /\ Forall P bs'.
Proof.
  intros HP. revert i bs. induction k as [|k IH]; intros i bs Hx Hi Hk Hs Hf; simpl; [eauto|].
  set (idx := Z.rem _ _).
  assert (Hidx : 0 <= idx < Z.of_nat (length bs)).
  { unfold idx. apply Z.rem_bound_pos; [|lia]. destruct (_ <? 0) eqn:E; bool_to_prop; lia. }
  destruct (rtt_update_some (fun _ => emptyRtt) idx bs Hidx) as (bk & Hl & ->).
  set (bs1 := <[Z.to_nat idx := emptyRtt]> bs).
  assert (HL : length bs1 = length bs) by apply length_insert.
  destruct (IH (i + 1) bs1) as (bs' & -> & HL' & Hf'); try lia.
  { by apply Forall_insert. }
  exists bs'. split; [done|]. split; [congruence|done].
Qed.

Definition ring_ok (l : Limiter) : Prop := 0 < bucketDuration l /\ buckets l <> [].

Lemma index_some now l :
  ring_ok l -> 0 <= wall now <= int64_max ->
  exists i, currentBucketIndexLocked now l = Some i /\ 0 <= i < Z.of_nat (length (buckets l)).
Proof.
  intros [Hbd Hne] Hw.
  destruct (bucket_index_some (bucketDuration l) (map (fun _ => emptyBucket) (buckets l)) now) as (i & E & Hi); auto.
  { by destruct (buckets l). }
  unfold bucket_index in E. rewrite length_map in E, Hi. unfold currentBucketIndexLocked. eauto.
Qed.

Section facts.
Context {W : Type} `{Runtime W} `{Arch}.
Implicit Types (l : Limiter) (w : W).

Lemma bbr_rotateLocked_eq (P : rttBucket -> Prop) l w now :
  P emptyRtt -> ring_ok l -> 0 <= wall now <= int64_max -> Forall P (buckets l) ->
  exists bs t, rotateLocked now (l, w) = (Returned tt, (set_lastBucketTime t (set_buckets bs l), w)) /\
    bs <> [] /\ Forall P bs.
Proof.
  intros HP Hring Hw Hf. pose proof Hring as [Hbd Hne]. unfold rotateLocked, Get. unfold mbind at 1, Go_bind at 1. cbn [fst].
  destruct (bucketDuration l =? 0) eqn:E; bool_to_prop; [lia|]. set (steps := quot64 _ _).
  destruct (steps <=? 0) eqn:Es; bool_to_prop.
  { exists (buckets l), (lastBucketTime l). split; [by destruct l|done]. }
  destruct (_ <=? steps) eqn:En; bool_to_prop.
  { eexists _, _. split; [reflexivity|]. simpl. split; [by destruct (buckets l)|].
    apply List.Forall_map, List.Forall_forall. done. }
  destruct (index_some now l Hring Hw) as (i & Ei & Hi).
  destruct (bbr_clear_steps_some P i steps 0 (Z.to_nat steps) (buckets l)) as (bs & Ecs & HL & Hf'); auto; try lia.
  exists bs, now. split.
  { unfold mbind, Go_bind. rewrite Ei. cbn [go_try]. unfold mret, Go_ret. by rewrite Ecs. } split; [by destruct bs, (buckets l)|done].
Qed.

(** [Allow] in one equation. *)
Lemma bbr_Allow_eq (P : rttBucket -> Prop) l w :
  clock_ok W -> P emptyRtt -> ring_ok l -> closed l = false -> Forall P (buckets l) ->
  exists bs t m w1, bs <> [] /\ Forall P bs /\
    m = Z.max 1 (f_to_int64 (fmul (estimateMaxQPSLocked (set_buckets bs l)) (cpuThreshold (cfg l)))) /\
    Allow (l, w) =
      (let l' := set_maxInflight m (set_lastBucketTime t (set_buckets bs l)) in
       if m <=? inflight l then (Returned (false, Some ErrLimited), (set_lastDropTime (fst (time_Now w)) l', w1))
       else (Returned (true, None), (set_inflight (add64 (inflight l) 1) l', w1))).
Proof.
  intros Hclk HP Hring Hcl Hf. specialize (Hclk w).
  assert (Hnow : Now (l, w) = let '(t, w1) := time_Now w in (Returned t, (l, w1))).
  { unfold Now. simpl. by destruct (time_Now w). }
  destruct (time_Now w) as [now w1]. simpl in Hclk.
  destruct (bbr_rotateLocked_eq P l w1 now HP Hring Hclk Hf) as (bs & t & Hrot & Hne & Hf').
  eexists bs, t, _, w1. split; [done|]. split; [done|]. split; [reflexivity|].
  unfold Allow. unfold mbind at 1, Go_bind at 1, Get at 1. cbn [fst]. rewrite Hcl.
  rewrite (go_bind_returned _ _ _ _ _ Hnow), (go_bind_returned _ _ _ _ _ Hrot).
  unfold mbind, Go_bind, Get. cbn [fst]. set (q := f_to_int64 _).
  change (f_to_int64 (fmul (estimateMaxQPSLocked (set_lastBucketTime t (set_buckets bs l)))
            (cpuThreshold (cfg (set_lastBucketTime t (set_buckets bs l)))))) with q.
  replace (if q <? 1 then 1 else q) with (Z.max 1 q) by (destruct (q <? 1) eqn:E; bool_to_prop; lia).
  cbn [Set_ go_fst go_modify fst snd inflight set_maxInflight set_lastBucketTime set_buckets].
  by destruct (_ <=? _).
Qed.

Lemma Done_eq l w rtt :
  clock_ok W -> ring_ok l ->
  exists bs t w1, bs <> [] /\
    Done rtt (l, w) = (Returned tt, (set_buckets bs (set_lastBucketTime t (set_inflight (sub64 (inflight l) 1) l)), w1)).
Proof.
  intros Hclk Hring. specialize (Hclk w). set (l0 := set_inflight (sub64 (inflight l) 1) l).
  assert (Hnow : Now (l0, w) = let '(t, w1) := time_Now w in (Returned t, (l0, w1))).
  { unfold Now. simpl. by destruct (time_Now w). }
  destruct (time_Now w) as [now w1]. simpl in Hclk.
  destruct (bbr_rotateLocked_eq (fun _ => True) l0 w1 now I Hring Hclk) as (bs & t & Hrot & Hne & _).
  { apply List.Forall_forall. auto. }
  unfold Done. unfold mbind at 1, Go_bind at 1. cbn [Set_ go_fst go_modify]. fold l0.
  rewrite (go_bind_returned _ _ _ _ _ Hnow), (go_bind_returned _ _ _ _ _ Hrot).
  unfold mbind, Go_bind, Get. cbn [fst]. set (l1 := set_lastBucketTime t (set_buckets bs l0)).
  destruct (index_some now l1) as (i & Ei & Hi); [by destruct Hring|done|]. rewrite Ei. cbn [go_try]. unfold mret, Go_ret.
  match goal with |- context [rtt_update ?f i (buckets l1)] => destruct (rtt_update_some f i (buckets l1) Hi) as (bk & Hl & ->) end.
  do 3 eexists. split; [|reflexivity]. simpl.
  intros E. apply (f_equal length) in E. rewrite length_insert in E. by destruct bs.
Qed.
End facts.

(** * Properties *)

Inductive op := OpAllow | OpDone (rtt : Duration) | OpClose.

Section runs.
Context {W : Type} `{Runtime W} `{Arch}.
Implicit Types (l : Limiter) (w : W).

(** One action; the observation is the change of the number of requests in
    flight: 1 for an admitted request, -1 for a completed one. *)
Definition step (o : op) : Go (Limiter * W) Z :=
  match o with
  | OpAllow => '(ok, _) ← Allow; mret (Z.b2z ok)
  | OpDone rtt => Done rtt ;; mret (-1)
  | OpClose => Close ;; mret 0
  end.

Fixpoint run (ops : list op) : Go (Limiter * W) (list Z) :=
  match ops with
  | [] => mret []
  | o :: ops' => x ← step o; xs ← run ops'; mret (x :: xs)
  end.

Lemma step_inflight o l w :
  clock_ok W -> ring_ok l -> int64_min < inflight l < int64_max ->
  exists x l' w', step o (l, w) = (Returned x, (l', w')) /\ ring_ok l' /\
    inflight l' = inflight l + x /\ -1 <= x <= 1 /\
    (o = OpAllow -> closed l = false -> inflight l <= 0 -> x = 1) /\
    (o = OpAllow -> x = 1 -> inflight l' <= maxInflight l' /\ 1 <= maxInflight l').
Proof.
  intros Hclk Hring Hr. pose proof Hring as [Hbd Hne]. unfold int64_min, int64_max in Hr.
  unfold step, mbind, Go_bind. destruct o.
  - destruct (closed l) eqn:Ecl.
    { exists 0, l, w. unfold Allow, Get, mbind, Go_bind. cbn [fst]. rewrite Ecl. split_and!; try done; lia. }
    destruct (bbr_Allow_eq (fun _ => True) l w Hclk I Hring Ecl) as (bs & t & m & w1 & Hbs & _ & Hm & ->).
    { apply List.Forall_forall. auto. }
    cbv zeta. destruct (m <=? inflight l) eqn:Em; bool_to_prop; do 3 eexists; (split; [reflexivity|]);
      split_and!; simpl; try done; try lia.
    + unfold add64. rewrite wrap64_id by (unfold in_int64, int64_min, int64_max; lia). done.
    + intros _ _. unfold add64. rewrite wrap64_id by (unfold in_int64, int64_min, int64_max; lia). lia.
  - destruct (Done_eq l w rtt Hclk Hring) as (bs & t & w1 & Hbs & ->).
    do 3 eexists. split; [reflexivity|]. split_and!; simpl; try done; try lia.
    unfold sub64. rewrite wrap64_id by (unfold in_int64, int64_min, int64_max; lia). lia.
  - do 3 eexists. split; [reflexivity|]. split_and!; simpl; try done; lia.
Qed.

Lemma New_ring opts w :
  let c := apply_opts opts defaultConfig in
  0 < bucketCount c <= window c -> window c <= int64_max ->
  ring_ok (fst (New opts w)) /\ inflight (fst (New opts w)) = 0.
Proof.
  intros c Hbc Hw. unfold New. fold c. destruct (time_Now w) as [t w']. simpl. split; [|done]. split; simpl.
  - unfold quot64. pose proof (Z.quot_str_pos (window c) (bucketCount c)) as Hq.
    pose proof (Z.quot_le_upper_bound (window c) (bucketCount c) int64_max). unfold int64_max in *.
    rewrite wrap64_id; [lia|]. unfold in_int64, int64_min, int64_max. nia.
  - destruct (Z.to_nat (bucketCount c)) eqn:E; [lia|done].
Qed.

Lemma run_inflight ops l w :
  clock_ok W -> ring_ok l -> int64_min < inflight l - Z.of_nat (length ops) ->
  inflight l + Z.of_nat (length ops) < int64_max ->
  exists xs l' w', run ops (l, w) = (Returned xs, (l', w')) /\ ring_ok l' /\ inflight l' = inflight l + sumZ xs /\
    - Z.of_nat (length ops) <= sumZ xs <= Z.of_nat (length ops).
Proof.
  intros Hclk. revert l w. induction ops as [|o ops IH]; intros l w Hring H1 H2; simpl length in *.
  { exists [], l, w. split; [done|]. simpl. split; [done|]. lia. }
  destruct (step_inflight o l w Hclk Hring ltac:(lia)) as (x & l1 & w1 & E & Hring1 & Hi & Hx & _).
  destruct (IH l1 w1 Hring1) as (xs & l' & w' & E' & Hring' & Hi' & Hb'); [lia..|].
  exists (x :: xs), l', w'. cbn [run]. rewrite (go_bind_returned _ _ _ _ _ E), (go_bind_returned _ _ _ _ _ E').
  split; [done|]. split; [done|]. simpl. lia.
Qed.

(** C9: Accounting of the adaptive limiter: in any interleaving of calls on a
    limiter built with at least one nanosecond per bucket no call panics and the
    in-flight count is the number of admissions minus the number of
    completions; in the state so reached, a limiter with nothing in flight
    admits the next request unless it is closed, and an admitted request leaves
    the count within the limit just computed. *)
Theorem bbr_accounting opts ops (w : W) :
  let c := apply_opts opts defaultConfig in
  clock_ok W -> 0 < bucketCount c <= window c -> window c <= int64_max ->
  Z.of_nat (length ops) < int64_max - 1 ->
  exists xs l w1,
    run ops (New opts w) = (Returned xs, (l, w1)) /\ inflight l = sumZ xs /\
    exists x l' w2, step OpAllow (l, w1) = (Returned x, (l', w2)) /\
      (closed l = false -> sumZ xs <= 0 -> x = 1) /\
      (x = 1 -> inflight l' <= maxInflight l' /\ 1 <= maxInflight l').
Proof.
  intros c Hclk Hbc Hw Hlen. destruct (New_ring opts w Hbc Hw) as [Hring H0'].
  destruct (New opts w) as [l0 w0]. simpl in *. unfold int64_max in Hlen.
  destruct (run_inflight ops l0 w0 Hclk Hring) as (xs & l & w1 & E & Hring' & Hi & Hb);
    [unfold int64_min; lia|unfold int64_max; lia|].
  exists xs, l, w1. split; [done|]. rewrite H0', Z.add_0_l in Hi. split; [done|].
  destruct (step_inflight OpAllow l w1 Hclk Hring') as (x & l' & w2 & E' & _ & _ & _ & Ha & Hm);
    [unfold int64_min, int64_max; lia|].
  exists x, l', w2. split; [done|]. rewrite <- Hi. auto.
Qed.

(** The buckets of a limiter that was never told of a completion are empty. *)
Lemma estimate_empty l : Forall (eq emptyRtt) (buckets l) -> estimateMaxQPSLocked l = minQPS (cfg l).
Proof.
  intros Hf. unfold estimateMaxQPSLocked.
  assert (fold_left estimate_step (buckets l) (true, 0, int64_max) = (true, 0, int64_max)) as ->; [|done].
  induction Hf as [|bk bs <- Hf IH]; [done|]. exact IH.
Qed.

Definition floor_inflight (c : config) : Z := Z.max 1 (f_to_int64 (fmul (minQPS c) (cpuThreshold c))).

(** A live limiter with empty buckets. *)
Definition fresh (c : config) (l : Limiter) : Prop :=
  ring_ok l /\ closed l = false /\ cfg l = c /\ Forall (eq emptyRtt) (buckets l) /\
  0 <= inflight l <= floor_inflight c.

Lemma fresh_step c l w :
  clock_ok W -> fresh c l -> inflight l < int64_max ->
  let x := if floor_inflight c <=? inflight l then 0 else 1 in
  exists l' w', step OpAllow (l, w) = (Returned x, (l', w')) /\ fresh c l' /\ inflight l' = inflight l + x.
Proof.
  intros Hclk (Hring & Hcl & Hc & Hf & Hle) Hi x.
  destruct (bbr_Allow_eq (eq emptyRtt) l w Hclk eq_refl Hring Hcl Hf) as (bs & t & m & w1 & Hbs & Hf1 & Hm & E).
  rewrite estimate_empty in Hm by done. cbn [cfg set_buckets] in Hm. rewrite Hc in Hm.
  fold (floor_inflight c) in Hm. subst m.
  destruct Hring as [Hbd Hne]. cbv zeta in E. unfold step, mbind, Go_bind. rewrite E. unfold x. clear x E.
  destruct (floor_inflight c <=? inflight l) eqn:Em; bool_to_prop; do 2 eexists; (split; [reflexivity|]).
  - split; [|simpl; lia]. repeat split; simpl; auto; lia.
  - assert (add64 (inflight l) 1 = inflight l + 1) as Ha.
    { unfold add64, int64_max in *. apply wrap64_id. unfold in_int64, int64_min, int64_max. lia. }
    simpl. rewrite Ha. split; [|done]. repeat split; simpl; auto; lia.
Qed.

Lemma fresh_run c n l w :
  clock_ok W -> fresh c l -> inflight l + Z.of_nat n <= int64_max ->
  exists xs s, run (replicate n OpAllow) (l, w) = (Returned xs, s) /\
    sumZ xs = Z.min (Z.of_nat n) (floor_inflight c - inflight l).
Proof.
  intros Hclk. revert l w. induction n as [|n IH]; intros l w Hfr Hn.
  { exists [], (l, w). split; [done|]. destruct Hfr as (_ & _ & _ & _ & Hle). simpl. lia. }
  destruct (fresh_step c l w Hclk Hfr ltac:(lia)) as (l1 & w1 & E & Hfr1 & Hi).
  destruct (IH l1 w1 Hfr1) as (xs & s & E' & Hs); [destruct (_ <=? _) in Hi; lia|].
  cbn [replicate run]. rewrite (go_bind_returned _ _ _ _ _ E), (go_bind_returned _ _ _ _ _ E').
  do 2 eexists. split; [reflexivity|]. destruct Hfr as (_ & _ & _ & _ & Hle). cbn [sumZ]. rewrite Hs.
  destruct (floor_inflight c <=? inflight l) eqn:Em; bool_to_prop; lia.
Qed.

(** A client of the [ratelimit.Limiter] contract, which has no [Done],
    exhausts the adaptive limiter: out of [n] calls to [Allow], whatever the
    time between them, exactly the first [max 1 (minQPS * cpuThreshold)] are
    admitted, one with the default configuration, and all the others rejected. *)
Theorem bbr_without_done opts n (w : W) :
  let c := apply_opts opts defaultConfig in
  clock_ok W -> 0 < bucketCount c <= window c -> window c <= int64_max -> Z.of_nat n <= int64_max ->
  exists xs s, run (replicate n OpAllow) (New opts w) = (Returned xs, s) /\
    sumZ xs = Z.min (Z.of_nat n) (floor_inflight c).
Proof.
  intros c Hclk Hbc Hw Hn. destruct (New_ring opts w Hbc Hw) as [Hring Hi0].
  assert (Hfr : fresh c (fst (New opts w))).
  { split; [done|]. unfold floor_inflight. rewrite Hi0. unfold New. fold c. destruct (time_Now w). simpl.
    split_and!; try done; [by apply Forall_replicate|lia]. }
  destruct (New opts w) as [l w0]. simpl in *.
  destruct (fresh_run c n l w0 Hclk Hfr ltac:(lia)) as (xs & s & E & Hs).
  exists xs, s. by rewrite Hi0, Z.sub_0_r in Hs.
Qed.
End runs.

#[local] Existing Instance TickRuntime.

Lemma bbr_accounting_witness :
  exists xs l w1,
    run (H0 := amd64) [OpAllow; OpAllow; OpDone Second] (New [] 0) = (Returned xs, (l, w1)) /\ inflight l = sumZ xs /\
    exists x l' w2, step (H0 := amd64) OpAllow (l, w1) = (Returned x, (l', w2)) /\
      (closed l = false -> sumZ xs <= 0 -> x = 1) /\
      (x = 1 -> inflight l' <= maxInflight l' /\ 1 <= maxInflight l').
Proof.
  apply (bbr_accounting (H := TickRuntime) (H0 := amd64) [] [OpAllow; OpAllow; OpDone Second] 0);
    [apply TickRuntime_ok|vm_compute; repeat split; discriminate..].
Defined.

Lemma bbr_without_done_witness :
  floor_inflight (H0 := amd64) defaultConfig = 1 /\
  exists xs s, run (H0 := amd64) (replicate 7 OpAllow) (New [] 0) = (Returned xs, s) /\
    sumZ xs = Z.min 7 (floor_inflight (H0 := amd64) defaultConfig).
Proof.
  split; [vm_compute; reflexivity|].
  apply (bbr_without_done (H := TickRuntime) (H0 := amd64) [] 7 0);
    [apply TickRuntime_ok|vm_compute; repeat split; discriminate..].
Defined.
