(* ===== verification/SentinelAdapters.v ===== *)
(** [circuitbreaker/sentinel] and [ratelimit/sentinel]: the adapters to
    Sentinel-Golang.

    Sentinel is third-party: entering and leaving a resource are operations of a
    parameter, with the set of open entries as what is known of them
    ([SentinelLaws]).  The statements account for the entries the adapters open. *)
From Stdlib Require Import ZArith Lia.
From S2P Require Import Prelude GoTime GoErrors CircuitBreaker TokenBucket.
From stdpp Require Import base gmap strings list fin_maps fin_sets sets.
Open Scope string_scope.
Open Scope list_scope.

(** Why an entry is blocked: by a circuit breaker, or otherwise. *)
Inductive BlockType := BlockTypeCircuitBreaking | BlockTypeOther.

Inductive TrafficType := Inbound | Outbound.

(** [sentinelapi.Entry] on a resource with options gives an entry or a block; [Exit],
    [TraceError]; whether rules are configured for the resource. *)
Class SentinelApi (S : Type) := {
  EntryOption : Type;
  WithTrafficType_ : TrafficType -> EntryOption;
  Entry : string -> list EntryOption -> S -> (nat + BlockType) * S;
  Exit : nat -> S -> S;
  TraceError : nat -> error -> S -> S;
  has_rules : string -> S -> bool
}.

Class SentinelLaws (S : Type) `{SentinelApi S} := {
  open_entries : S -> gset nat;
  entry_law : forall r os s, match fst (Entry r os s) with
    | inl e => e ∉ open_entries s /\ open_entries (snd (Entry r os s)) = {[e]} ∪ open_entries s
    | inr _ => open_entries (snd (Entry r os s)) = open_entries s
    end;
  exit_law : forall e s, open_entries (Exit e s) = open_entries s ∖ {[e]};
  trace_law : forall e err s, open_entries (TraceError e err s) = open_entries s
}.

(** * [circuitbreaker/sentinel/sentinel.go] *)

Module Breaker.
Section breaker.
Context {S : Type} `{SentinelApi S}.

Record config := mkConfig { trafficType : TrafficType; entryOpts : list EntryOption }.
Definition WithTrafficType (tt : TrafficType) : config -> config := fun c => mkConfig tt (entryOpts c).
Definition WithEntryOptions (os : list EntryOption) : config -> config := fun c => mkConfig (trafficType c) os.
Definition New (opts : list (config -> config)) : config := apply_opts opts (mkConfig Outbound []).

Context (resource : string) (cfg : config).

(** [func (b *Breaker) enter()] *)
Definition enter (s : S) : (nat + BlockType) * S := Entry resource (WithTrafficType_ (trafficType cfg) :: entryOpts cfg) s.
Lemma enter_law `{!SentinelLaws S} s : match fst (enter s) with
    | inl e => e ∉ open_entries s /\ open_entries (snd (enter s)) = {[e]} ∪ open_entries s
    | inr _ => open_entries (snd (enter s)) = open_entries s
    end.
Proof. apply entry_law. Qed.

(** [type Breaker struct]: the entry of the most recent [Allow], and Sentinel. *)
Record Breaker := mkBreaker { entry : option nat; sentinel : S }.

(** [func (b *Breaker) Allow() error] *)
Definition Allow (b : Breaker) : option error * Breaker :=
  match enter (sentinel b) with
  | (inr _, s) => (Some ErrCircuitOpen, mkBreaker (entry b) s)
  | (inl e, s) => (None, mkBreaker (Some e) s)
  end.

(** [func (b *Breaker) MarkSuccess()], [func (b *Breaker) MarkFailure()] *)
Definition MarkSuccess (b : Breaker) : Breaker :=
  match entry b with
  | None => b
  | Some e => mkBreaker None (Exit e (sentinel b))
  end.
Definition MarkFailure (b : Breaker) : Breaker :=
  match entry b with
  | None => b
  | Some e => mkBreaker None (Exit e (TraceError e ErrCircuitOpen (sentinel b)))
  end.

(** [func (b *Breaker) Execute]: [fn] may use the breaker's Sentinel itself; a panic
    of [fn] leaves. *)
Definition Execute (fn : S -> result (option error) * S) (b : Breaker) : result (option error) * Breaker :=
  match enter (sentinel b) with
  | (inr _, s) => (Returned (Some ErrCircuitOpen), mkBreaker (entry b) s)
  | (inl e, s) =>
      match fn s with
      | (Panicked, s) => (Panicked, mkBreaker (entry b) s)
      | (Returned err, s) =>
          let s := match err with Some er => TraceError e er s | None => s end in
          (Returned err, mkBreaker (entry b) (Exit e s))
      end
  end.

(** [func (b *Breaker) State() windcb.State] *)
Definition State_ (b : Breaker) : State * Breaker :=
  if has_rules resource (sentinel b) then
    match enter (sentinel b) with
    | (inl e, s) => (StateClosed, mkBreaker (entry b) (Exit e s))
    | (inr BlockTypeCircuitBreaking, s) => (StateOpen, mkBreaker (entry b) s)
    | (inr BlockTypeOther, s) => (StateClosed, mkBreaker (entry b) s)
    end
  else (StateClosed, b).

Definition Close (b : Breaker) : option error * Breaker := (None, b).

(** The calls of the program, in the order they take effect. *)
Inductive op := OAllow | OSuccess | OFailure | OExecute (err : option error) | OState.
Definition apply_op (o : op) (b : Breaker) : Breaker :=
  match o with
  | OAllow => snd (Allow b)
  | OSuccess => MarkSuccess b
  | OFailure => MarkFailure b
  | OExecute err => snd (Execute (fun s => (Returned err, s)) b)
  | OState => snd (State_ b)
  end.

(** The entries overwritten by an [Allow] before they were marked. *)
Fixpoint overwritten (os : list op) (b : Breaker) : list nat :=
  match os with
  | [] => []
  | o :: os' =>
      (match o, entry b, fst (enter (sentinel b)) with
       | OAllow, Some e, inl _ => [e]
       | _, _, _ => []
       end) ++ overwritten os' (apply_op o b)
  end.

Context `{!SentinelLaws S}.

Definition held (b : Breaker) : gset nat := match entry b with Some e => {[e]} | None => ∅ end.

(** The entries other than the one held, before and after a call. *)
Lemma apply_op_entries o b :
  held b ⊆ open_entries (sentinel b) ->
  held (apply_op o b) ⊆ open_entries (sentinel (apply_op o b)) /\
  open_entries (sentinel (apply_op o b)) ∖ held (apply_op o b) =
    (open_entries (sentinel b) ∖ held b) ∪ list_to_set (overwritten [o] b).
Proof.
  intros Hb. pose proof (enter_law (sentinel b)) as He. unfold held in *.
  destruct o as [| | |err|]; simpl.
  - unfold Allow. destruct (enter (sentinel b)) as [[e|bt] s]; simpl in *.
    + destruct He as [Hn He]. rewrite He. split; [set_solver|]. destruct (entry b) as [e0|]; simpl; [|set_solver].
      assert (e0 <> e) by set_solver. apply set_eq. intros x. destruct (decide (x = e0)); set_solver.
    + rewrite He. split; [done|]. destruct (entry b); set_solver.
  - unfold MarkSuccess. destruct (entry b) as [e|] eqn:E; simpl; [rewrite exit_law|rewrite E]; set_solver.
  - unfold MarkFailure. destruct (entry b) as [e|] eqn:E; simpl; [rewrite exit_law, trace_law|rewrite E]; set_solver.
  - unfold Execute. destruct (enter (sentinel b)) as [[e|bt] s]; simpl in *.
    + destruct He as [Hn He]. rewrite exit_law. assert (open_entries (match err with Some er => TraceError e er s | None => s end) = {[e]} ∪ open_entries (sentinel b)) as ->
        by (destruct err; rewrite ?trace_law; done).
      assert (({[e]} ∪ open_entries (sentinel b)) ∖ {[e]} = open_entries (sentinel b)) as -> by set_solver.
      destruct (entry b); set_solver.
    + rewrite He. destruct (entry b); set_solver.
  - unfold State_. destruct (has_rules resource (sentinel b)); simpl; [|destruct (entry b); set_solver].
    destruct (enter (sentinel b)) as [[e|[]] s]; simpl in *.
    + destruct He as [Hn He]. rewrite exit_law, He.
      assert (({[e]} ∪ open_entries (sentinel b)) ∖ {[e]} = open_entries (sentinel b)) as -> by set_solver.
      destruct (entry b); set_solver.
    + rewrite He. destruct (entry b); set_solver.
    + rewrite He. destruct (entry b); set_solver.
Qed.

Fixpoint apply_ops (os : list op) (b : Breaker) : Breaker :=
  match os with [] => b | o :: os' => apply_ops os' (apply_op o b) end.

(** The adapter's accounting: after any sequence of calls the entries open are those
    that were open before, the one held for the next mark, and those that an
    admitted [Allow] overwrote; so when no call is admitted between an [Allow] and its
    mark, and all are marked, every entry opened was closed. *)
Theorem sentinel_breaker_entries os s :
  let b := apply_ops os (mkBreaker None s) in
  open_entries (sentinel b) = open_entries s ∪ list_to_set (overwritten os (mkBreaker None s)) ∪ held b /\
  (overwritten os (mkBreaker None s) = [] -> entry b = None -> open_entries (sentinel b) = open_entries s).
Proof.
  assert (forall b0, held b0 ⊆ open_entries (sentinel b0) ->
    held (apply_ops os b0) ⊆ open_entries (sentinel (apply_ops os b0)) /\
    open_entries (sentinel (apply_ops os b0)) ∖ held (apply_ops os b0) =
      (open_entries (sentinel b0) ∖ held b0) ∪ list_to_set (overwritten os b0)) as Hrun.
  { induction os as [|o os IH]; intros b0 Hb0; simpl; [split; [done|set_solver]|].
    destruct (apply_op_entries o b0 Hb0) as [H1 H2]. destruct (IH _ H1) as [H3 H4]. split; [done|].
    rewrite H4, H2. simpl. rewrite app_nil_r, list_to_set_app_L. set_solver. }
  intros b. destruct (Hrun (mkBreaker None s)) as [H1 H2]; [set_solver|]. fold b in H1, H2. cbn [sentinel held entry] in H2.
  assert (open_entries (sentinel b) = open_entries s ∪ list_to_set (overwritten os (mkBreaker None s)) ∪ held b) as H3.
  { etransitivity; [apply (union_difference_L (held b)); exact H1|]. rewrite H2. set_solver. }
  split; [done|]. intros Ho He. rewrite H3, Ho. unfold held. rewrite He. set_solver.
Qed.
End breaker.
Arguments Breaker : clear implicits.
End Breaker.

(** * [ratelimit/sentinel/sentinel.go] *)

Module Limiter.
Section limiter.
Context {S : Type} `{SentinelApi S}.

Record config := mkConfig { trafficType : TrafficType; entryOpts : list EntryOption; waitInterval : Duration }.
Definition WithTrafficType (tt : TrafficType) : config -> config := fun c => mkConfig tt (entryOpts c) (waitInterval c).
Definition WithEntryOptions (os : list EntryOption) : config -> config := fun c => mkConfig (trafficType c) os (waitInterval c).
Definition WithWaitInterval (d : Duration) : config -> config :=
  fun c => if (0 <? d)%Z then mkConfig (trafficType c) (entryOpts c) d else c.
Definition New (opts : list (config -> config)) : config := apply_opts opts (mkConfig Inbound [] (10 * Millisecond)%Z).

Context (resource : string) (cfg : config).

(** [func (l *Limiter) enter()] *)
Definition enter (s : S) : (nat + BlockType) * S := Entry resource (WithTrafficType_ (trafficType cfg) :: entryOpts cfg) s.
Lemma limiter_enter_law `{!SentinelLaws S} s : match fst (enter s) with
    | inl e => e ∉ open_entries s /\ open_entries (snd (enter s)) = {[e]} ∪ open_entries s
    | inr _ => open_entries (snd (enter s)) = open_entries s
    end.
Proof. apply entry_law. Qed.

(** [func (l *Limiter) Allow], [AllowEntry], [ReleaseEntry] *)
Definition Allow (s : S) : (bool * option error) * S :=
  match enter s with
  | (inr _, s) => ((false, Some ErrLimited), s)
  | (inl _, s) => ((true, None), s)
  end.
Definition AllowEntry (s : S) : (option nat * option error) * S :=
  match enter s with
  | (inr _, s) => ((None, Some ErrLimited), s)
  | (inl e, s) => ((Some e, None), s)
  end.
Definition ReleaseEntry (e : option nat) (s : S) : S := match e with Some e => Exit e s | None => s end.

(** [func (l *Limiter) Wait(ctx)]: after each blocked try the select finds the context
    ended with an error, or the interval over; [None] when the list ends first. *)
Fixpoint Wait (selects : list (option error)) (s : S) : option (option error) * S :=
  match enter s with
  | (inl e, s) => (Some None, Exit e s)
  | (inr _, s) =>
      match selects with
      | [] => (None, s)
      | Some err :: _ => (Some (Some err), s)
      | None :: rest => Wait rest s
      end
  end.

Definition Close (s : S) : option error * S := (None, s).

Context `{!SentinelLaws S}.

(** An entry taken and released, and a wait however it ends, leave the open entries
    as they were. *)
Theorem sentinel_limiter_balanced selects s :
  open_entries (snd (Wait selects s)) = open_entries s /\
  (let '((e, _), s') := AllowEntry s in open_entries (ReleaseEntry e s') = open_entries s).
Proof.
  split.
  - revert s. induction selects as [|sel selects IH]; intros s; simpl; pose proof (limiter_enter_law s) as He;
      destruct (enter s) as [[e|bt] s']; simpl in *; try (destruct He as [Hn He]; rewrite exit_law, He; set_solver); [done|].
    destruct sel; simpl; [done|]. by rewrite IH.
  - unfold AllowEntry. pose proof (limiter_enter_law s) as He. destruct (enter s) as [[e|bt] s']; simpl in *; [|done].
    destruct He as [Hn He]. rewrite exit_law, He. set_solver.
Qed.

(** Every request that [Allow] admits leaves an entry open for good. *)
Theorem sentinel_limiter_leaks s : fst (Allow s) = (true, None) -> size (open_entries (snd (Allow s))) = (1 + size (open_entries s))%nat.
Proof.
  unfold Allow. pose proof (limiter_enter_law s) as He. destruct (enter s) as [[e|bt] s']; simpl in *; [|done].
  intros _. destruct He as [Hn He]. rewrite He, size_union, size_singleton by set_solver. done.
Qed.
End limiter.
End Limiter.

(** A Sentinel that admits everything and numbers its entries. *)
Module Sample.
#[local] Instance api : SentinelApi (gset nat) := {|
  EntryOption := TrafficType;
  WithTrafficType_ tt := tt;
  Entry _ _ s := (inl (next_nat s), {[next_nat s]} ∪ s);
  Exit e s := s ∖ {[e]};
  TraceError _ _ s := s;
  has_rules _ _ := true
|}.
#[local] Instance laws : SentinelLaws (gset nat).
Proof. refine {| open_entries s := s |}; simpl; try done. intros _ _ s. split; [apply next_nat_fresh|done]. Defined.

(** Two requests in flight: the entry of the first is overwritten and stays open. *)
Example two_in_flight :
  let b := Breaker.apply_ops "r" (Breaker.New []) [Breaker.OAllow; Breaker.OAllow; Breaker.OSuccess; Breaker.OSuccess]
             (Breaker.mkBreaker None ∅) in
  Breaker.entry b = None /\ Breaker.sentinel b = {[1%nat]}.
Proof. vm_compute. done. Qed.
End Sample.
