(* ===== verification/Metrics.v ===== *)
(** [metrics]: the [Metrics] interface, and its providers
    [metrics/prometheus] and [metrics/otel].

    The two client libraries are third-party: classes of operations, with what is
    known of them as laws on a view of their state: which names are registered,
    which instruments exist, and the values each series was given, in order. *)
From Stdlib Require Import ZArith Lia.
From S2P Require Import Prelude Float64 GoTime GoErrors.
From stdpp Require Import base gmap strings list fin_maps fin_map_dom countable.
Open Scope string_scope.
Open Scope list_scope.

Inductive kind := KCounter | KHistogram | KGauge.
#[export] Instance kind_eq_dec : EqDecision kind.
Proof. solve_decision. Defined.
#[export] Instance kind_countable : Countable kind.
Proof.
  refine (inj_countable' (fun k => match k with KCounter => 0%nat | KHistogram => 1%nat | KGauge => 2%nat end)
    (fun n => match n with O => KCounter | S O => KHistogram | _ => KGauge end) _).
  by intros [].
Defined.

Abbreviation labels_t := (gmap string string).

(** [type Metrics interface], over contexts [C] *)
Record Metrics (C W : Type) := mkMetrics {
  Counter : C -> string -> float64 -> labels_t -> Go W unit;
  Histogram : C -> string -> float64 -> labels_t -> Go W unit;
  Gauge : C -> string -> float64 -> labels_t -> Go W unit
}.
Arguments mkMetrics {C W}.
Arguments Counter {C W}.
Arguments Histogram {C W}.
Arguments Gauge {C W}.

(** * [metrics/prometheus/prometheus.go] *)

(** What is seen of the library: the full names in each registry; the instruments,
    with their kind and number of labels; the values given to each child. *)
Record PromView := mkView {
  registered : gset (nat * string);
  insts : gmap nat (kind * nat);
  given : gmap (nat * list string) (list float64)
}.
Definition values_given (v : PromView) (i : nat) (vals : list string) : list float64 := default [] (given v !! (i, vals)).

Class Prom (X : Type) := {
  DefaultRegisterer : nat;
  NewRegistry : X -> nat * X;
  BuildFQName : string -> string -> string -> string;
  (** [factory.NewCounter], [NewCounterVec] and the like: namespace, subsystem, name
      and label names *)
  factory_New : nat -> kind -> string -> string -> string -> list string -> Go X nat;
  (** [Add], [Observe] or [Set], of the instrument or of its child with label values *)
  inst_update : nat -> list string -> float64 -> Go X unit;
  (** the order in which a range over the map meets its keys *)
  range_keys : labels_t -> X -> list string * X
}.

Class PromLaws (X : Type) `{Prom X} := {
  view : X -> PromView;
  (** the full names, the label names of a kind of instrument (a histogram may not have
      [le]), and the label values that the library accepts *)
  valid_name : string -> Prop;
  valid_label : kind -> string -> Prop;
  valid_value : string -> Prop;
  NewRegistry_law : forall x, view (snd (NewRegistry x)) = view x /\
    forall n, (fst (NewRegistry x), n) ∉ registered (view x);
  FQName_inj : forall ns sub a b, a <> "" -> b <> "" -> BuildFQName ns sub a = BuildFQName ns sub b -> a = b;
  new_law : forall reg k ns sub name keys x, valid_name (BuildFQName ns sub name) -> NoDup keys -> Forall (valid_label k) keys ->
    (reg, BuildFQName ns sub name) ∉ registered (view x) ->
    exists i x', factory_New reg k ns sub name keys x = (Returned i, x') /\
      insts (view x) !! i = None /\ (forall vals, given (view x) !! (i, vals) = None) /\
      view x' = mkView ({[(reg, BuildFQName ns sub name)]} ∪ registered (view x)) (<[i := (k, length keys)]> (insts (view x))) (given (view x));
  duplicate_law : forall reg k ns sub name keys x, (reg, BuildFQName ns sub name) ∈ registered (view x) ->
    fst (factory_New reg k ns sub name keys x) = Panicked;
  update_law : forall i k vals v x, insts (view x) !! i = Some (k, length vals) -> Forall valid_value vals ->
    (k = KCounter -> fleb (f_of_Z 0) v = true) ->
    exists x', inst_update i vals v x = (Returned tt, x') /\
      view x' = mkView (registered (view x)) (insts (view x)) (<[(i, vals) := values_given (view x) i vals ++ [v]]> (given (view x)));
  range_law : forall m x, NoDup (fst (range_keys m x)) /\ (forall k, k ∈ fst (range_keys m x) <-> is_Some (m !! k)) /\
    view (snd (range_keys m x)) = view x
}.

Module Prometheus.
Section provider.
Context {X : Type} `{Prom X}.

Record config := mkConfig { namespace : string; subsystem : string; registry : nat }.
Definition defaultConfig : config := mkConfig "" "" DefaultRegisterer.
Definition WithNamespace (ns : string) : config -> config := fun c => mkConfig ns (subsystem c) (registry c).
Definition WithSubsystem (sub : string) : config -> config := fun c => mkConfig (namespace c) sub (registry c).
Definition WithRegistry (r : nat) : config -> config := fun c => mkConfig (namespace c) (subsystem c) r.

(** [type Provider struct]: the three maps of instruments without labels are one
    map here, by kind; so are the three maps of vectors. *)
Record Provider := mkProvider {
  cfg : config;
  plains : gmap (kind * string) nat;
  vecs : gmap (kind * string) nat;
  labelNames : gmap string (list string)
}.

(** [func New(opts ...Option)], [func NewWithDefaultRegistry(opts ...Option)] *)
Definition New (opts : list (config -> config)) (x : X) : Provider * X :=
  let cfg := apply_opts opts defaultConfig in
  let '(reg, x) := NewRegistry x in
  (mkProvider (WithRegistry reg cfg) ∅ ∅ ∅, x).
Definition NewWithDefaultRegistry (opts : list (config -> config)) : Provider :=
  mkProvider (apply_opts opts defaultConfig) ∅ ∅ ∅.

(** [func (p *Provider) labelKeys], [labelValues], [cachedLabelKeys] *)
Definition labelKeys (labels : labels_t) : Go (Provider * X) (list string) := fun '(p, x) =>
  let '(keys, x) := range_keys labels x in (Returned keys, (p, x)).
Definition labelValues (labels : labels_t) (keys : list string) : list string := map (fun k => default "" (labels !! k)) keys.
Definition cachedLabelKeys (name : string) (labels : labels_t) : Go (Provider * X) (list string) := fun '(p, x) =>
  match labelNames p !! name with
  | Some keys => (Returned keys, (p, x))
  | None =>
      (keys ← labelKeys labels;
       go_modify (fun '(p, x) => (mkProvider (cfg p) (plains p) (vecs p) (<[name := keys]> (labelNames p)), x)) ;;
       mret keys) (p, x)
  end.

(** The instrument of a map, created when it is not there. *)
Definition plain_inst (k : kind) (name : string) : Go (Provider * X) nat := fun '(p, x) =>
  match plains p !! (k, name) with
  | Some i => (Returned i, (p, x))
  | None =>
      match factory_New (registry (cfg p)) k (namespace (cfg p)) (subsystem (cfg p)) name [] x with
      | (Returned i, x) => (Returned i, (mkProvider (cfg p) (<[(k, name) := i]> (plains p)) (vecs p) (labelNames p), x))
      | (Panicked, x) => (Panicked, (p, x))
      end
  end.
Definition vec_inst (k : kind) (name : string) (keys : list string) : Go (Provider * X) nat := fun '(p, x) =>
  match vecs p !! (k, name) with
  | Some i => (Returned i, (p, x))
  | None =>
      match factory_New (registry (cfg p)) k (namespace (cfg p)) (subsystem (cfg p)) name keys x with
      | (Returned i, x) => (Returned i, (mkProvider (cfg p) (plains p) (<[(k, name) := i]> (vecs p)) (labelNames p), x))
      | (Panicked, x) => (Panicked, (p, x))
      end
  end.

(** [func (p *Provider) Counter], [Histogram], [Gauge]: one text for the three kinds *)
Definition observe (k : kind) (name : string) (value : float64) (labels : labels_t) : Go (Provider * X) unit :=
  if (size labels =? 0)%nat then
    i ← plain_inst k name;
    go_snd (inst_update i [] value)
  else
    keys ← cachedLabelKeys name labels;
    i ← vec_inst k name keys;
    go_snd (inst_update i (labelValues labels keys) value).

Definition Counter_ {C} (_ : C) := observe KCounter.
Definition Histogram_ {C} (_ : C) := observe KHistogram.
Definition Gauge_ {C} (_ : C) := observe KGauge.
Definition metrics {C} : Metrics C (Provider * X) := mkMetrics Counter_ Histogram_ Gauge_.

(** ** Calls and what is seen of them *)

Record obs := mkObs { ob_kind : kind; ob_name : string; ob_value : float64; ob_labels : labels_t }.

Fixpoint observe_all (os : list obs) : Go (Provider * X) unit :=
  match os with
  | [] => mret tt
  | o :: os' => observe (ob_kind o) (ob_name o) (ob_value o) (ob_labels o) ;; observe_all os'
  end.

(** The values recorded under a kind, a name and labels. *)
Definition recorded (os : list obs) (k : kind) (name : string) (labels : labels_t) : list float64 :=
  omap (fun o => if decide (ob_kind o = k /\ ob_name o = name /\ ob_labels o = labels) then Some (ob_value o) else None) os.

(** The values that a series of the registry was given. *)
Definition series (p : Provider) (v : PromView) (k : kind) (name : string) (labels : labels_t) : list float64 :=
  if (size labels =? 0)%nat then
    match plains p !! (k, name) with Some i => values_given v i [] | None => [] end
  else
    match vecs p !! (k, name), labelNames p !! name with
    | Some i, Some keys => values_given v i (labelValues labels keys)
    | _, _ => []
    end.

(** A name has one kind and one set of label names; counters are not decremented; names
    and labels are among those the library accepts, under the provider's namespace and
    subsystem. *)
Definition agree (o1 o2 : obs) : Prop :=
  ob_name o1 = ob_name o2 -> ob_kind o1 = ob_kind o2 /\ dom (ob_labels o1) = dom (ob_labels o2).
Definition accepted `{!PromLaws X} (c : config) (o : obs) : Prop :=
  ob_name o <> "" /\ valid_name (BuildFQName (namespace c) (subsystem c) (ob_name o)) /\
  (ob_kind o = KCounter -> fleb (f_of_Z 0) (ob_value o) = true) /\
  map_Forall (fun k v => valid_label (ob_kind o) k /\ valid_value v) (ob_labels o).
Definition consistent `{!PromLaws X} (c : config) (os : list obs) : Prop :=
  (forall o1 o2, o1 ∈ os -> o2 ∈ os -> agree o1 o2) /\ forall o, o ∈ os -> accepted c o.

Context `{!PromLaws X} (c : config) (all : list obs) (Hall : consistent c all).
(** The provider's configuration but for its registry, which names do not depend on. *)
Definition same_names (c' : config) : Prop := namespace c' = namespace c /\ subsystem c' = subsystem c.

(** The provider's maps against the library: every instrument has one owner, the
    kind, name and sort it was made for. *)
Record linked (own : gmap nat (kind * string * bool)) (p : Provider) (v : PromView) : Prop := {
  linked_plain : forall k n i, plains p !! (k, n) = Some i ->
    own !! i = Some (k, n, false) /\ insts v !! i = Some (k, 0%nat) /\
    exists o, o ∈ all /\ ob_kind o = k /\ ob_name o = n /\ size (ob_labels o) = 0%nat;
  linked_vec : forall k n i, vecs p !! (k, n) = Some i ->
    own !! i = Some (k, n, true) /\
    exists keys o, labelNames p !! n = Some keys /\ insts v !! i = Some (k, length keys) /\
      o ∈ all /\ ob_kind o = k /\ ob_name o = n /\ size (ob_labels o) <> 0%nat /\ forall key, key ∈ keys <-> key ∈ dom (ob_labels o);
  linked_names : forall n, is_Some (labelNames p !! n) -> exists k, is_Some (vecs p !! (k, n));
  linked_registered : forall o, o ∈ all -> (registry (cfg p), BuildFQName (namespace (cfg p)) (subsystem (cfg p)) (ob_name o)) ∈ registered v ->
    exists k, is_Some (plains p !! (k, ob_name o)) \/ is_Some (vecs p !! (k, ob_name o));
  linked_own : forall i, is_Some (own !! i) -> is_Some (insts v !! i)
}.

(** The series that calls of [all] can be about. *)
Definition subject (k : kind) (n : string) (l : labels_t) : Prop :=
  exists o, o ∈ all /\ ob_kind o = k /\ ob_name o = n /\ dom (ob_labels o) = dom l.

Lemma same_name o1 o2 : o1 ∈ all -> o2 ∈ all -> ob_name o1 = ob_name o2 -> ob_kind o1 = ob_kind o2 /\ dom (ob_labels o1) = dom (ob_labels o2).
Proof. intros H1 H2. apply (proj1 Hall); done. Qed.

Lemma size_dom_same (l1 l2 : labels_t) : dom l1 = dom l2 -> size l1 = size l2.
Proof. intros E. by rewrite <- !size_dom, E. Qed.

Lemma labelValues_inj (l1 l2 : labels_t) keys :
  (forall key, key ∈ keys <-> key ∈ dom l1) -> dom l1 = dom l2 -> labelValues l1 keys = labelValues l2 keys -> l1 = l2.
Proof.
  intros Hk Hd Hv. apply map_eq. intros key. destruct (decide (key ∈ keys)) as [Hin|Hin].
  - assert (default "" (l1 !! key) = default "" (l2 !! key)) as E.
    { unfold labelValues in Hv. revert Hv Hin. clear. induction keys as [|k' keys IH]; intros Hv Hin; [set_solver|].
      injection Hv as Hv1 Hv2. apply elem_of_cons in Hin as [->|Hin]; auto. }
    apply Hk in Hin as H1. assert (key ∈ dom l2) as H2 by (by rewrite <- Hd).
    apply elem_of_dom in H1 as [v1 E1], H2 as [v2 E2]. rewrite E1, E2 in *. simpl in E. congruence.
  - assert (key ∉ dom l1) as H1 by (by rewrite <- Hk). assert (key ∉ dom l2) as H2 by (by rewrite <- Hd).
    apply not_elem_of_dom in H1, H2. congruence.
Qed.

(** The label names and values of a call are accepted. *)
Lemma labels_valid o keys :
  o ∈ all -> (forall key, key ∈ keys <-> key ∈ dom (ob_labels o)) ->
  Forall (valid_label (ob_kind o)) keys /\ Forall valid_value (labelValues (ob_labels o) keys).
Proof.
  intros Ho Hk. destruct (proj2 Hall o Ho) as (_&_&_&Hm). unfold labelValues. rewrite Forall_map, !Forall_forall.
  split; intros key Hin%list_elem_of_In; apply Hk, elem_of_dom in Hin as [v Hv]; destruct (Hm key v Hv); [done|]. by rewrite Hv.
Qed.

(** Nothing is registered under the name of a call whose instrument is not there. *)
Lemma not_registered own p v o :
  linked own p v -> o ∈ all ->
  (if (size (ob_labels o) =? 0)%nat then plains p !! (ob_kind o, ob_name o) else vecs p !! (ob_kind o, ob_name o)) = None ->
  (registry (cfg p), BuildFQName (namespace (cfg p)) (subsystem (cfg p)) (ob_name o)) ∉ registered v /\
  (size (ob_labels o) <> 0%nat -> labelNames p !! ob_name o = None).
Proof.
  intros HT Ho Hnone.
  assert (forall k, is_Some (vecs p !! (k, ob_name o)) -> k = ob_kind o /\ size (ob_labels o) <> 0%nat) as Hv.
  { intros k [i Hi]. destruct (linked_vec _ _ _ HT _ _ _ Hi) as (_&keys&o'&_&_&Ho'&Hk&Hn&Hs&_).
    destruct (same_name o' o Ho' Ho Hn) as [E1 E2]. split; [congruence|]. by rewrite <- (size_dom_same _ _ E2). }
  split.
  - intros Hr. destruct (linked_registered _ _ _ HT o Ho Hr) as (k&[[i Hi]|Hi]).
    + destruct (linked_plain _ _ _ HT _ _ _ Hi) as (_&_&o'&Ho'&Hk&Hn&Hs). destruct (same_name o' o Ho' Ho Hn) as [E1 E2].
      rewrite (size_dom_same _ _ E2) in Hs. rewrite Hs in Hnone. simpl in Hnone. congruence.
    + destruct (Hv k Hi) as [-> Hs]. apply Nat.eqb_neq in Hs. rewrite Hs in Hnone. destruct Hi. congruence.
  - intros Hs. apply eq_None_not_Some. intros Hin. destruct (linked_names _ _ _ HT _ Hin) as (k&Hi).
    destruct (Hv k Hi) as [-> _]. apply Nat.eqb_neq in Hs. rewrite Hs in Hnone. destruct Hi. congruence.
Qed.

(** What acquiring an instrument leaves: the provider is linked, the instrument is of
    the call's kind, and no series has changed. *)
Definition acquired (o : obs) (p : Provider) (v : PromView) (i : nat) (vals : list string) (p' : Provider) (v' : PromView) : Prop :=
  (exists own, linked own p' v') /\ cfg p' = cfg p /\ (insts v' !! i = Some (ob_kind o, length vals) /\ Forall valid_value vals) /\
  (forall u, series p' u (ob_kind o) (ob_name o) (ob_labels o) = values_given u i vals) /\
  (forall k n l, subject k n l -> series p' v' k n l = series p v k n l) /\
  (forall k n l v2, subject k n l -> (k, n, l) <> (ob_kind o, ob_name o, ob_labels o) ->
    series p' (mkView (registered v') (insts v') (<[(i, vals) := v2]> (given v'))) k n l = series p' v' k n l).

(** An update of one child is seen in one series. *)
Lemma linked_isolated own p v o i vals v2 k n l :
  linked own p v -> o ∈ all ->
  (if (size (ob_labels o) =? 0)%nat then plains p !! (ob_kind o, ob_name o) = Some i /\ vals = []
   else vecs p !! (ob_kind o, ob_name o) = Some i /\ exists keys, labelNames p !! ob_name o = Some keys /\ vals = labelValues (ob_labels o) keys) ->
  subject k n l -> (k, n, l) <> (ob_kind o, ob_name o, ob_labels o) ->
  series p (mkView (registered v) (insts v) (<[(i, vals) := v2]> (given v))) k n l = series p v k n l.
Proof.
  intros HT Ho Hi (os&Hos&Hk&Hn&Hd) Hne. unfold series, values_given. simpl.
  destruct (Nat.eqb_spec (size l) 0) as [Hl|Hl].
  - destruct (plains p !! (k, n)) as [j|] eqn:Ej; [|done]. destruct (linked_plain _ _ _ HT _ _ _ Ej) as (Hj&_).
    rewrite lookup_insert_ne; [done|]. intros [= -> ->].
    destruct (Nat.eqb_spec (size (ob_labels o)) 0) as [Hs|Hs].
    + destruct Hi as [Hi _]. destruct (linked_plain _ _ _ HT _ _ _ Hi) as (Hi'&_).
      apply map_size_empty_inv in Hs, Hl. congruence.
    + destruct Hi as [Hi _]. destruct (linked_vec _ _ _ HT _ _ _ Hi) as (Hi'&_). congruence.
  - destruct (vecs p !! (k, n)) as [j|] eqn:Ej; [|done]. destruct (linked_vec _ _ _ HT _ _ _ Ej) as (Hj&keys&o'&Hkeys&_&Ho'&Hk'&Hn'&_&Hdom).
    rewrite Hkeys. rewrite lookup_insert_ne; [done|]. intros [= -> Hvals].
    destruct (Nat.eqb_spec (size (ob_labels o)) 0) as [Hs|Hs].
    + destruct Hi as [Hi _]. destruct (linked_plain _ _ _ HT _ _ _ Hi) as (Hi'&_). congruence.
    + destruct Hi as [Hi (keys'&Hkeys'&->)]. destruct (linked_vec _ _ _ HT _ _ _ Hi) as (Hi'&_).
      assert (k = ob_kind o /\ n = ob_name o) as [Ek En] by (split; congruence).
      assert (keys' = keys) as -> by congruence. apply Hne. rewrite Ek, En. f_equal.
      destruct (same_name o' o) as [_ Ed1]; [done..|congruence|]. destruct (same_name os o) as [_ Ed2]; [done..|congruence|].
      symmetry. apply (labelValues_inj _ _ keys); [intros key; by rewrite Hdom, Ed1|congruence|done].
Qed.

(** The library's state after a registration. *)
Definition grown (p : Provider) (o : obs) (n : nat) (i : nat) (v : PromView) : PromView :=
  mkView ({[(registry (cfg p), BuildFQName (namespace (cfg p)) (subsystem (cfg p)) (ob_name o))]} ∪ registered v)
    (<[i := (ob_kind o, n)]> (insts v)) (given v).

Lemma grown_own own p v o m i b : linked own p v -> insts v !! i = None ->
  own !! i = None /\ forall j, is_Some (<[i := (ob_kind o, ob_name o, b)]> own !! j) -> is_Some (insts (grown p o m i v) !! j).
Proof.
  intros HT Hfree. split.
  - apply eq_None_not_Some. intros Hsome. destruct (linked_own _ _ _ HT _ Hsome) as [? Hx]. congruence.
  - intros j Hj. simpl. destruct (decide (i = j)) as [->|]; [rewrite lookup_insert_eq; eauto|].
    rewrite lookup_insert_ne in Hj by done. rewrite lookup_insert_ne by done. by apply (linked_own _ _ _ HT).
Qed.

Lemma is_Some_insert_mono (m : gmap (kind * string) nat) a b i : is_Some (m !! b) -> is_Some (<[a := i]> m !! b).
Proof. destruct (decide (a = b)) as [->|]; [rewrite lookup_insert_eq; eauto|by rewrite lookup_insert_ne]. Qed.

Lemma grown_registered own p v o m i o' :
  linked own p v -> o ∈ all -> o' ∈ all ->
  (registry (cfg p), BuildFQName (namespace (cfg p)) (subsystem (cfg p)) (ob_name o')) ∈ registered (grown p o m i v) ->
  ob_name o' = ob_name o \/ exists k, is_Some (plains p !! (k, ob_name o')) \/ is_Some (vecs p !! (k, ob_name o')).
Proof.
  intros HT Ho Ho' [E|Hin]%elem_of_union; [left|right; by apply (linked_registered _ _ _ HT)].
  apply elem_of_singleton in E. injection E as E. apply FQName_inj in E; [done|apply (proj2 Hall); done..].
Qed.

Lemma linked_new_plain own p v o i :
  linked own p v -> o ∈ all -> size (ob_labels o) = 0%nat -> insts v !! i = None ->
  linked (<[i := (ob_kind o, ob_name o, false)]> own)
    (mkProvider (cfg p) (<[(ob_kind o, ob_name o) := i]> (plains p)) (vecs p) (labelNames p)) (grown p o 0 i v).
Proof.
  intros HT Ho Hs Hfree. destruct (grown_own own p v o 0 i false HT Hfree) as [Hown Hdom]. split; simpl; [| | | |exact Hdom].
  - intros k n j [[[= <- <-] <-]|[Hne Hj]]%lookup_insert_Some.
    + rewrite !lookup_insert_eq. split_and!; eauto.
    + destruct (linked_plain _ _ _ HT _ _ _ Hj) as (H1&H2&H3). rewrite !lookup_insert_ne by congruence. done.
  - intros k n j Hj. destruct (linked_vec _ _ _ HT _ _ _ Hj) as (H1&keys&o'&H2&H3&H4). rewrite lookup_insert_ne by congruence.
    split; [done|]. exists keys, o'. rewrite lookup_insert_ne by congruence. done.
  - apply (linked_names _ _ _ HT).
  - intros o' Ho' Hin. destruct (grown_registered own p v o 0 i o' HT Ho Ho' Hin) as [->|(k&[Hk|Hk])].
    + exists (ob_kind o). left. rewrite lookup_insert_eq. eauto.
    + exists k. left. by apply is_Some_insert_mono.
    + exists k. by right.
Qed.

Lemma linked_new_vec own p v o i keys :
  linked own p v -> o ∈ all -> size (ob_labels o) <> 0%nat -> insts v !! i = None ->
  labelNames p !! ob_name o = None -> (forall key, key ∈ keys <-> key ∈ dom (ob_labels o)) ->
  linked (<[i := (ob_kind o, ob_name o, true)]> own)
    (mkProvider (cfg p) (plains p) (<[(ob_kind o, ob_name o) := i]> (vecs p)) (<[ob_name o := keys]> (labelNames p)))
    (grown p o (length keys) i v).
Proof.
  intros HT Ho Hs Hfree Hnone Hkeys. destruct (grown_own own p v o (length keys) i true HT Hfree) as [Hown Hdom]. split; simpl; [| | | |exact Hdom].
  - intros k n j Hj. destruct (linked_plain _ _ _ HT _ _ _ Hj) as (H1&H2&H3). rewrite !lookup_insert_ne by congruence. done.
  - intros k n j [[[= <- <-] <-]|[Hne Hj]]%lookup_insert_Some.
    + rewrite !lookup_insert_eq. split; [done|]. exists keys, o. done.
    + destruct (linked_vec _ _ _ HT _ _ _ Hj) as (H1&keys'&o'&H2&H3&H4). rewrite lookup_insert_ne by congruence.
      split; [done|]. exists keys', o'. rewrite !lookup_insert_ne by congruence. done.
  - intros n Hn. destruct (decide (ob_name o = n)) as [<-|Hne].
    + exists (ob_kind o). rewrite lookup_insert_eq. eauto.
    + rewrite lookup_insert_ne in Hn by done. destruct (linked_names _ _ _ HT n Hn) as [k Hk]. exists k. by apply is_Some_insert_mono.
  - intros o' Ho' Hin. destruct (grown_registered own p v o (length keys) i o' HT Ho Ho' Hin) as [->|(k&[Hk|Hk])].
    + exists (ob_kind o). right. rewrite lookup_insert_eq. eauto.
    + exists k. by left.
    + exists k. right. by apply is_Some_insert_mono.
Qed.

Lemma plain_acquired own p x o :
  linked own p (view x) -> same_names (cfg p) -> o ∈ all -> size (ob_labels o) = 0%nat ->
  exists i p' x', plain_inst (ob_kind o) (ob_name o) (p, x) = (Returned i, (p', x')) /\ acquired o p (view x) i [] p' (view x').
Proof.
  intros HT Hc Ho Hs. unfold plain_inst. pose proof (proj2 (Nat.eqb_eq _ _) Hs) as Hsb.
  destruct (plains p !! (ob_kind o, ob_name o)) as [i|] eqn:Ei.
  - exists i, p, x. split; [done|]. destruct (linked_plain _ _ _ HT _ _ _ Ei) as (_&Hi&_).
    split; [by exists own|]. split; [done|]. split; [by split|]. split; [|split; [done|]].
    + intros u. unfold series. by rewrite Hsb, Ei.
    + intros k n l v2. eapply linked_isolated; [done..|]. by rewrite Hsb.
  - destruct (not_registered own p (view x) o HT Ho) as [Hr _]; [by rewrite Hsb|].
    destruct (new_law (registry (cfg p)) (ob_kind o) (namespace (cfg p)) (subsystem (cfg p)) (ob_name o) [] x) as (i&x'&Hnew&Hfree&Hgiven&Hv);
      [destruct Hc as [-> ->]; by apply (proj2 Hall)|constructor..|done|].
    rewrite Hnew. pose proof (linked_new_plain own p (view x) o i HT Ho Hs Hfree) as HT'.
    set (p' := mkProvider _ _ _ _) in *. exists i, p', x'. split; [done|]. change (view x' = grown p o 0 i (view x)) in Hv. rewrite Hv.
    assert (plains p' !! (ob_kind o, ob_name o) = Some i) as Hp' by apply lookup_insert_eq.
    split; [by eexists|]. split; [done|]. split; [split; [apply lookup_insert_eq|constructor]|]. split; [|split].
    + intros u. unfold series. by rewrite Hsb, Hp'.
    + intros k n l _. unfold series. destruct (size l =? 0)%nat; [|done]. simpl.
      destruct (decide ((ob_kind o, ob_name o) = (k, n))) as [E|E]; [|by rewrite lookup_insert_ne].
      injection E as <- <-. rewrite lookup_insert_eq, Ei. unfold values_given. simpl. by rewrite Hgiven.
    + intros k n l v2. eapply linked_isolated; [done..|]. by rewrite Hsb.
Qed.

Lemma vec_acquired own p x o :
  linked own p (view x) -> same_names (cfg p) -> o ∈ all -> size (ob_labels o) <> 0%nat ->
  exists i keys p' x', (keys ← cachedLabelKeys (ob_name o) (ob_labels o); i ← vec_inst (ob_kind o) (ob_name o) keys; mret (keys, i)) (p, x) =
    (Returned (keys, i), (p', x')) /\ acquired o p (view x) i (labelValues (ob_labels o) keys) p' (view x').
Proof.
  intros HT Hc Ho Hs. pose proof (proj2 (Nat.eqb_neq _ _) Hs) as Hsb. unfold mbind, Go_bind, cachedLabelKeys, vec_inst.
  destruct (vecs p !! (ob_kind o, ob_name o)) as [i|] eqn:Ei.
  - destruct (linked_vec _ _ _ HT _ _ _ Ei) as (_&keys&o'&Hkeys&Hi&Ho'&_&Hn'&_&Hdom). exists i, keys, p, x. rewrite Hkeys, Ei. split; [done|].
    destruct (same_name o' o Ho' Ho Hn') as [_ Ed]. rewrite Ed in Hdom.
    split; [by exists own|]. split; [done|]. split; [split; [by unfold labelValues; rewrite length_map|by apply labels_valid]|]. split; [|split; [done|]].
    + intros u. unfold series. by rewrite Hsb, Ei, Hkeys.
    + intros k n l v2. eapply linked_isolated; [done..|]. rewrite Hsb. eauto.
  - destruct (not_registered own p (view x) o HT Ho) as [Hr Hnone]; [by rewrite Hsb|]. specialize (Hnone Hs). rewrite Hnone.
    unfold labelKeys, mbind, Go_bind. pose proof (range_law (ob_labels o) x) as (Hnd&Hmem&Hv0). destruct (range_keys (ob_labels o) x) as [keys x0]. simpl in Hnd, Hmem, Hv0. simpl.
    rewrite Ei. rewrite <- Hv0 in Hr. assert (forall key, key ∈ keys <-> key ∈ dom (ob_labels o)) as Hdom by (intros key; by rewrite Hmem, elem_of_dom).
    destruct (new_law (registry (cfg p)) (ob_kind o) (namespace (cfg p)) (subsystem (cfg p)) (ob_name o) keys x0) as (i&x'&Hnew&Hfree&Hgiven&Hv);
      [destruct Hc as [-> ->]; by apply (proj2 Hall)|done|by apply labels_valid|done|].
    rewrite Hnew. rewrite Hv0 in *.
    pose proof (linked_new_vec own p (view x) o i keys HT Ho Hs Hfree Hnone Hdom) as HT'.
    set (p' := mkProvider _ _ _ _) in *. exists i, keys, p', x'. split; [done|]. change (view x' = grown p o (length keys) i (view x)) in Hv. rewrite Hv.
    assert (vecs p' !! (ob_kind o, ob_name o) = Some i) as Hp' by apply lookup_insert_eq.
    assert (labelNames p' !! ob_name o = Some keys) as Hn' by apply lookup_insert_eq.
    split; [by eexists|]. split; [done|]. split; [split; [simpl; rewrite lookup_insert_eq; unfold labelValues; by rewrite length_map|by apply labels_valid]|]. split; [|split].
    + intros u. unfold series. by rewrite Hsb, Hp', Hn'.
    + intros k n l _. unfold series. destruct (size l =? 0)%nat; [done|]. simpl.
      destruct (decide ((ob_kind o, ob_name o) = (k, n))) as [E|E].
      * injection E as <- <-. rewrite !lookup_insert_eq, Ei. unfold values_given. simpl. by rewrite Hgiven.
      * rewrite lookup_insert_ne by done. destruct (vecs p !! (k, n)) as [j|] eqn:Ej; [|done].
        destruct (linked_vec _ _ _ HT _ _ _ Ej) as (_&keys'&_&Hk'&_). by rewrite lookup_insert_ne by congruence.
    + intros k n l v2. eapply linked_isolated; [done..|]. rewrite Hsb. eauto.
Qed.

(** One call: it returns, the series it is about is given the value, and no other
    series changes. *)
Lemma observe_ok own p x o :
  linked own p (view x) -> same_names (cfg p) -> o ∈ all ->
  exists own' p' x', observe (ob_kind o) (ob_name o) (ob_value o) (ob_labels o) (p, x) = (Returned tt, (p', x')) /\
    linked own' p' (view x') /\ same_names (cfg p') /\
    forall k n l, subject k n l -> series p' (view x') k n l = series p (view x) k n l ++
      (if decide (ob_kind o = k /\ ob_name o = n /\ ob_labels o = l) then [ob_value o] else []).
Proof.
  intros HT Hc Ho.
  assert (forall i vals p1 x1, acquired o p (view x) i vals p1 (view x1) ->
    exists own' x', inst_update i vals (ob_value o) x1 = (Returned tt, x') /\ linked own' p1 (view x') /\ same_names (cfg p1) /\
    forall k n l, subject k n l -> series p1 (view x') k n l = series p (view x) k n l ++
      (if decide (ob_kind o = k /\ ob_name o = n /\ ob_labels o = l) then [ob_value o] else [])) as Hupdate.
  { intros i vals p1 x1 ([own1 HT1]&Hcfg&[Hi Hvals]&Hser&Hsame&Hiso).
    destruct (update_law i (ob_kind o) vals (ob_value o) x1 Hi Hvals) as (x'&Hu&Hv); [apply (proj2 Hall); done|].
    exists own1, x'. split; [done|]. rewrite Hv. split; [by destruct HT1; split|]. split; [by rewrite Hcfg|]. intros k n l Hsub. rewrite <- Hsame by done.
    case_decide as Hd; [|rewrite app_nil_r; apply Hiso; [done|intros [= -> -> ->]; by apply Hd]].
    destruct Hd as (<-&<-&<-). rewrite !Hser. unfold values_given. simpl. by rewrite lookup_insert_eq. }
  unfold observe. destruct (Nat.eqb_spec (size (ob_labels o)) 0) as [Hs|Hs].
  - destruct (plain_acquired own p x o HT Hc Ho Hs) as (i&p1&x1&Ha&Hacq). destruct (Hupdate _ _ _ _ Hacq) as (own'&x'&Hu&H1&H2).
    exists own', p1, x'. split; [|done]. unfold mbind, Go_bind. rewrite Ha. simpl. by rewrite Hu.
  - destruct (vec_acquired own p x o HT Hc Ho Hs) as (i&keys&p1&x1&Ha&Hacq). destruct (Hupdate _ _ _ _ Hacq) as (own'&x'&Hu&H1&H2).
    exists own', p1, x'. split; [|done]. revert Ha. unfold mbind, Go_bind.
    destruct (cachedLabelKeys _ _ _) as [[keys0|] s0]; [|done]. destruct (vec_inst _ _ _ _) as [[i0|] [p2 x2]]; [|done].
    intros [= -> -> -> ->]. simpl. by rewrite Hu.
Qed.

Lemma observe_all_ok os : forall own p x, linked own p (view x) -> same_names (cfg p) -> (forall o, o ∈ os -> o ∈ all) ->
  exists own' p' x', observe_all os (p, x) = (Returned tt, (p', x')) /\ linked own' p' (view x') /\
    forall k n l, subject k n l -> series p' (view x') k n l = series p (view x) k n l ++ recorded os k n l.
Proof.
  induction os as [|o os IH]; intros own p x HT Hc Hin.
  - exists own, p, x. split; [done|]. split; [done|]. intros k n l _. by rewrite app_nil_r.
  - destruct (observe_ok own p x o HT Hc) as (own1&p1&x1&Ho&HT1&Hc1&Hs1); [apply Hin; set_solver|].
    destruct (IH own1 p1 x1 HT1 Hc1) as (own2&p2&x2&Ho2&HT2&Hs2); [set_solver|].
    exists own2, p2, x2. split; [by simpl; unfold mbind, Go_bind; rewrite Ho|]. split; [done|].
    intros k n l Hsub. rewrite Hs2, Hs1 by done. unfold recorded. simpl. rewrite <- app_assoc. by case_decide.
Qed.

Lemma linked_initial c' v : (forall n, (registry c', n) ∉ registered v) -> linked ∅ (mkProvider c' ∅ ∅ ∅) v.
Proof.
  intros Hr. split; simpl.
  - intros k n i. by rewrite lookup_empty.
  - intros k n i. by rewrite lookup_empty.
  - intros n. rewrite lookup_empty. by intros [].
  - intros o _ Hin. by apply Hr in Hin.
  - intros i. rewrite lookup_empty. by intros [].
Qed.
End provider.

(** C5: The Prometheus provider implements the interface: for any calls in which a
    name keeps its kind and its label names, counters get no negative value, and the
    library accepts the full names, label names and label values, no call panics, whatever
    the order in which the maps are ranged over; and the registry then holds, for every
    series the calls are about, exactly the values recorded for that name with those
    labels, in order. *)
Theorem prometheus_series {X} `{PromLaws X} opts os x :
  consistent (apply_opts opts defaultConfig) os ->
  let '(p, x0) := New opts x in
  exists p' x', observe_all os (p, x0) = (Returned tt, (p', x')) /\
    forall o, o ∈ os ->
      series p' (view x') (ob_kind o) (ob_name o) (ob_labels o) = recorded os (ob_kind o) (ob_name o) (ob_labels o).
Proof.
  intros Hc. unfold New. pose proof (NewRegistry_law x) as [Hv Hr]. destruct (NewRegistry x) as [reg x0]. simpl in Hv, Hr.
  set (p := mkProvider _ _ _ _).
  destruct (observe_all_ok _ os Hc os ∅ p x0) as (own&p'&x'&Hrun&_&Hs); [|done|done|].
  - apply linked_initial. rewrite Hv. exact Hr.
  - exists p', x'. split; [done|]. intros o Ho. rewrite Hs by (by exists o). unfold series at 1, p. simpl. by destruct (_ =? 0)%nat.
Qed.

(** A name already in the registry cannot become another instrument. *)
Lemma prometheus_name_taken {X} `{PromLaws X} (p : Provider) k n v l x :
  (registry (cfg p), BuildFQName (namespace (cfg p)) (subsystem (cfg p)) n) ∈ registered (view x) ->
  plains p !! (k, n) = None -> size l = 0%nat -> fst (observe k n v l (p, x)) = Panicked.
Proof.
  intros Hin Hnone Hl. unfold observe. rewrite Hl. simpl. unfold plain_inst, mbind, Go_bind. rewrite Hnone.
  pose proof (duplicate_law (registry (cfg p)) k (namespace (cfg p)) (subsystem (cfg p)) n [] x Hin) as Hd.
  by destruct (factory_New _ _ _ _ _ _ _) as [[] ?].
Qed.

(** [New] makes a registry of its own, whatever [WithRegistry] gave. *)
Lemma new_ignores_registry {X} `{Prom X} opts r x : New (opts ++ [WithRegistry r]) x = New opts x.
Proof. unfold New, apply_opts. rewrite fold_left_app. by destruct (NewRegistry x). Qed.
End Prometheus.

(** ** A library that keeps the view itself *)
Module PromSample.
Definition used (v : PromView) : gset nat := dom (insts v) ∪ set_map fst (dom (given v)).
Definition registries (v : PromView) : gset nat := set_map fst (registered v).
Definition good_label (k : kind) (l : string) : Prop := l <> "" /\ ~ (k = KHistogram /\ l = "le").
#[local] Instance good_label_dec k l : Decision (good_label k l).
Proof. unfold good_label. apply _. Defined.
(** Values are taken as valid when they are ASCII. *)
Definition ascii_value (s : string) : bool := forallb (fun c => (Ascii.nat_of_ascii c <? 128)%nat) (String.list_ascii_of_string s).
#[local] Instance prom : Prom PromView := {|
  DefaultRegisterer := 0%nat;
  NewRegistry v := (next_nat (registries v), v);
  BuildFQName ns sub name := name;
  factory_New reg k ns sub name keys v :=
    if decide ((reg, name) ∈ registered v \/ name = "" \/ ~ NoDup keys \/ ~ Forall (good_label k) keys) then (Panicked, v)
    else (Returned (next_nat (used v)), mkView ({[(reg, name)]} ∪ registered v) (<[next_nat (used v) := (k, length keys)]> (insts v)) (given v));
  inst_update i vals u v :=
    match insts v !! i with
    | Some (k, n) =>
        if (n =? length vals)%nat && forallb ascii_value vals && (if decide (k = KCounter) then fleb (f_of_Z 0) u else true)
        then (Returned tt, mkView (registered v) (insts v) (<[(i, vals) := values_given v i vals ++ [u]]> (given v)))
        else (Panicked, v)
    | None => (Panicked, v)
    end;
  range_keys m v := ((map_to_list m).*1, v)
|}.
#[local] Instance prom_laws : PromLaws PromView.
Proof.
  refine {| view v := v; valid_name n := n <> ""; valid_label := good_label; valid_value s := ascii_value s = true |}; simpl.
  - intros x. split; [done|]. intros n Hin. apply (next_nat_fresh (registries x)). unfold registries at 2. apply elem_of_map. by exists (next_nat (registries x), n).
  - done.
  - intros reg k ns sub name keys x Hne Hnd Hl Hn. rewrite decide_False by naive_solver. exists (next_nat (used x)). eexists. split; [done|].
    pose proof (next_nat_fresh (used x)) as Hf. unfold used at 2 in Hf. apply not_elem_of_union in Hf as [H1 H2].
    split; [by apply not_elem_of_dom|]. split; [|done]. intros vals. apply not_elem_of_dom. intros Hin. apply H2, elem_of_map. by exists (next_nat (used x), vals).
  - intros. rewrite decide_True; [done|by left].
  - intros i k vals v x Hi Hvals Hk. assert (forallb ascii_value vals = true) as Hf by (apply forallb_forall; intros s Hin; by apply (proj1 (List.Forall_forall _ _) Hvals)).
    rewrite Hi, Nat.eqb_refl, Hf. eexists. split; [|done].
    by destruct (decide (k = KCounter)); [rewrite Hk|].
  - intros m x. split; [apply NoDup_fst_map_to_list|]. split; [|done]. intros k. rewrite list_elem_of_fmap. split.
    + intros ([k' v]&->&Hin). apply elem_of_map_to_list in Hin. eauto.
    + intros [v Hv]. exists (k, v). split; [done|]. by apply elem_of_map_to_list.
Defined.

Definition empty_view : PromView := mkView ∅ ∅ ∅.
Definition hit (path : string) : Prometheus.obs := Prometheus.mkObs KCounter "requests" (f_of_Z 1) {["path" := path; "method" := "GET"]}.

Lemma hit_labels path : ascii_value path = true ->
  map_Forall (fun k v => good_label KCounter k /\ ascii_value v = true) (Prometheus.ob_labels (hit path)).
Proof.
  intros Hp k v. cbn. intros [[<- <-]|[_ [<- <-]%lookup_singleton_Some]]%lookup_insert_Some; (split; [split; [done|by intros [? _]]|done]).
Qed.

Lemma prometheus_series_witness :
  let os := [hit "/a"; hit "/b"; hit "/a"] in
  let '(p, x0) := Prometheus.New [] empty_view in
  exists p' x', Prometheus.observe_all os (p, x0) = (Returned tt, (p', x')) /\
    Prometheus.series p' x' KCounter "requests" (Prometheus.ob_labels (hit "/a")) = [f_of_Z 1; f_of_Z 1].
Proof.
  pose proof (Prometheus.prometheus_series [] [hit "/a"; hit "/b"; hit "/a"] empty_view) as H.
  destruct (Prometheus.New [] empty_view) as [p x0].
  destruct H as (p'&x'&H1&H2).
  - split.
    + intros o1 o2 H1 H2 _. rewrite !elem_of_cons in H1, H2.
      destruct H1 as [->|[->|[->|H1]]], H2 as [->|[->|[->|H2]]]; try (by apply elem_of_nil in H1); try (by apply elem_of_nil in H2); split; vm_compute; reflexivity.
    + intros o Ho. rewrite !elem_of_cons in Ho. destruct Ho as [->|[->|[->|Ho]]]; [..|by apply elem_of_nil in Ho]; (split; [done|]; split; [done|]; split; [done|]); apply hit_labels; by vm_compute.
  - exists p', x'. split; [done|]. apply (H2 (hit "/a")). left.
Defined.

(** A label that the first call of a name did not have is dropped, and one that is
    missing is empty. *)
Example labels_follow_first_call :
  let os := [Prometheus.mkObs KGauge "g" (f_of_Z 1) {["a" := "1"]}; Prometheus.mkObs KGauge "g" (f_of_Z 2) {["a" := "1"; "b" := "2"]};
             Prometheus.mkObs KGauge "g" (f_of_Z 3) {["b" := "2"]}] in
  let '(r, (p, v)) := Prometheus.observe_all os (Prometheus.New [] empty_view) in
  r = Returned tt /\ Prometheus.series p v KGauge "g" {["a" := "1"]} = [f_of_Z 1; f_of_Z 2] /\
  Prometheus.series p v KGauge "g" {["a" := ""]} = [f_of_Z 3].
Proof. vm_compute. done. Qed.

(** A name with and without labels, or with two kinds, panics. *)
Example name_clash_panics :
  fst (Prometheus.observe_all [Prometheus.mkObs KCounter "n" (f_of_Z 1) ∅; Prometheus.mkObs KGauge "n" (f_of_Z 1) ∅] (Prometheus.New [] empty_view)) = Panicked /\
  fst (Prometheus.observe_all [Prometheus.mkObs KCounter "n" (f_of_Z 1) ∅; hit "/a"; Prometheus.mkObs KCounter "requests" (f_of_Z 1) ∅] (Prometheus.New [] empty_view)) = Panicked.
Proof. vm_compute. done. Qed.
End PromSample.

(** * [metrics/otel/otel.go] *)

(** The SDK's meter: instruments made by name, and measurements with attributes.
    Seen of it: the instruments made, and the values of each set of attributes. *)
Record OtelView := mkOtelView { made : gset nat; measured : gmap (nat * labels_t) (list float64) }.
Definition values_measured (v : OtelView) (i : nat) (l : labels_t) : list float64 := default [] (measured v !! (i, l)).

Class Otel (X : Type) := {
  (** [Float64Counter], [Float64Histogram], [Float64UpDownCounter] *)
  meter_New : kind -> string -> X -> (nat + error) * X;
  (** [Add] or [Record], [WithAttributes] *)
  inst_record : nat -> list (string * string) -> float64 -> Go X unit;
  range_labels : labels_t -> X -> list (string * string) * X
}.

Class OtelLaws (X : Type) `{Otel X} := {
  otel_view : X -> OtelView;
  meter_law : forall k name x, match meter_New k name x with
    | (inl i, x') => i ∉ made (otel_view x) /\ (forall l, measured (otel_view x) !! (i, l) = None) /\
        otel_view x' = mkOtelView ({[i]} ∪ made (otel_view x)) (measured (otel_view x))
    | (inr _, x') => otel_view x' = otel_view x
    end;
  record_law : forall i attrs v x, exists x', inst_record i attrs v x = (Returned tt, x') /\
    otel_view x' = mkOtelView (made (otel_view x))
      (<[(i, list_to_map attrs) := values_measured (otel_view x) i (list_to_map attrs) ++ [v]]> (measured (otel_view x)));
  range_labels_law : forall m x, fst (range_labels m x) ≡ₚ map_to_list m /\ otel_view (snd (range_labels m x)) = otel_view x
}.

Module OTel.
Record config := mkConfig {
  endpoint : string; serviceName : string; serviceVersion : string;
  insecure : bool; useHTTP : bool; exportInterval : Duration
}.
Definition defaultConfig : config := mkConfig "localhost:4317" "lulu-service" "v0.0.1" false false (60 * Second)%Z.
Definition WithEndpoint (v : string) : config -> config := fun c =>
  mkConfig v (serviceName c) (serviceVersion c) (insecure c) (useHTTP c) (exportInterval c).
Definition WithServiceName (v : string) : config -> config := fun c =>
  mkConfig (endpoint c) v (serviceVersion c) (insecure c) (useHTTP c) (exportInterval c).
Definition WithServiceVersion (v : string) : config -> config := fun c =>
  mkConfig (endpoint c) (serviceName c) v (insecure c) (useHTTP c) (exportInterval c).
Definition WithInsecure (v : bool) : config -> config := fun c =>
  mkConfig (endpoint c) (serviceName c) (serviceVersion c) v (useHTTP c) (exportInterval c).
Definition WithHTTP (v : bool) : config -> config := fun c =>
  mkConfig (endpoint c) (serviceName c) (serviceVersion c) (insecure c) v (exportInterval c).
Definition WithExportInterval (v : Duration) : config -> config := fun c =>
  mkConfig (endpoint c) (serviceName c) (serviceVersion c) (insecure c) (useHTTP c) v.

Section provider.
Context {X : Type} `{Otel X}.

(** [type Provider struct]: its three maps of instruments, by kind *)
Abbreviation Provider := (gmap (kind * string) nat).

(** [func toAttrs(labels map[string]string) []attribute.KeyValue] *)
Definition toAttrs (labels : labels_t) : Go (Provider * X) (list (string * string)) := fun '(p, x) =>
  let '(attrs, x) := range_labels labels x in (Returned attrs, (p, x)).

(** [func (p *Provider) Counter], [Histogram], [Gauge]: one text for the three kinds *)
Definition observe (k : kind) (name : string) (value : float64) (labels : labels_t) : Go (Provider * X) unit := fun '(p, x) =>
  let add i := attrs ← toAttrs labels; go_snd (inst_record i attrs value) in
  match p !! (k, name) with
  | Some i => add i (p, x)
  | None =>
      match meter_New k name x with
      | (inr _, x) => (Returned tt, (p, x))
      | (inl i, x) => add i (<[(k, name) := i]> p, x)
      end
  end.

Definition Counter_ {C} (_ : C) := observe KCounter.
Definition Histogram_ {C} (_ : C) := observe KHistogram.
Definition Gauge_ {C} (_ : C) := observe KGauge.
Definition metrics {C} : Metrics C (Provider * X) := mkMetrics Counter_ Histogram_ Gauge_.

(** ** Properties *)

Definition series (p : Provider) (v : OtelView) (k : kind) (name : string) (l : labels_t) : list float64 :=
  match p !! (k, name) with Some i => values_measured v i l | None => [] end.

Context `{!OtelLaws X}.

(** Every instrument has one place in the maps. *)
Definition placed (p : Provider) (v : OtelView) : Prop :=
  forall kn i, p !! kn = Some i -> i ∈ made v /\ forall kn', p !! kn' = Some i -> kn = kn'.

Lemma record_series p x i k n value l :
  placed p (otel_view x) -> p !! (k, n) = Some i ->
  exists x', (attrs ← toAttrs l; go_snd (inst_record i attrs value)) (p, x) = (Returned tt, (p, x')) /\ placed p (otel_view x') /\
    forall k' n' l', series p (otel_view x') k' n' l' = series p (otel_view x) k' n' l' ++
      (if decide (k = k' /\ n = n' /\ l = l') then [value] else []).
Proof.
  intros Hp Hi. unfold toAttrs, mbind, Go_bind. pose proof (range_labels_law l x) as [Hperm Hv]. destruct (range_labels l x) as [attrs x0]. simpl in Hperm, Hv.
  destruct (record_law i attrs value x0) as (x'&Hr&Hv'). exists x'. simpl. rewrite Hr. split; [done|]. rewrite Hv', Hv.
  assert (list_to_map attrs = l) as ->.
  { rewrite <- (list_to_map_to_list l). apply list_to_map_proper; [|done]. rewrite Hperm. apply NoDup_fst_map_to_list. }
  split; [done|]. intros k' n' l'. unfold series, values_measured. simpl. destruct (p !! (k', n')) as [j|] eqn:Ej.
  - destruct (decide ((i, l) = (j, l'))) as [E|E].
    + injection E as <- <-. destruct (Hp _ _ Hi) as [_ Hinj]. specialize (Hinj _ Ej). injection Hinj as <- <-.
      by rewrite lookup_insert_eq, decide_True.
    + rewrite lookup_insert_ne by done. rewrite decide_False; [by rewrite app_nil_r|]. intros (->&->&->). congruence.
  - rewrite decide_False; [done|]. intros (->&->&_). congruence.
Qed.

(** A call of the interface adds its value to the one series it is about, or, when
    the instrument cannot be made, does nothing; it never panics. *)
Lemma otel_observe p x k n value l :
  placed p (otel_view x) ->
  exists p' x', observe k n value l (p, x) = (Returned tt, (p', x')) /\ placed p' (otel_view x') /\
    ((forall k' n' l', series p' (otel_view x') k' n' l' = series p (otel_view x) k' n' l') /\ p !! (k, n) = None \/
     forall k' n' l', series p' (otel_view x') k' n' l' = series p (otel_view x) k' n' l' ++
       (if decide (k = k' /\ n = n' /\ l = l') then [value] else [])).
Proof.
  intros Hp. unfold observe. destruct (p !! (k, n)) as [i|] eqn:Ei.
  - destruct (record_series p x i k n value l Hp Ei) as (x'&H1&H2&H3). exists p, x'. eauto.
  - pose proof (meter_law k n x) as Hm. destruct (meter_New k n x) as [[i|e] x0].
    + destruct Hm as (Hfree&Hnone&Hv). set (p1 := <[(k, n) := i]> p).
      assert (placed p1 (otel_view x0)) as Hp1.
      { rewrite Hv. intros kn j [[<- <-]|[Hne Hj]]%lookup_insert_Some; simpl; (split; [try set_solver|]).
        - intros kn' [[<- _]|[_ Hj']]%lookup_insert_Some; [done|]. destruct (Hp _ _ Hj'). done.
        - destruct (Hp _ _ Hj). set_solver.
        - intros kn' [[<- <-]|[_ Hj']]%lookup_insert_Some; [by destruct (Hp _ _ Hj)|]. by apply (Hp _ _ Hj). }
      destruct (record_series p1 x0 i k n value l Hp1) as (x'&H1&H2&H3); [apply lookup_insert_eq|].
      exists p1, x'. split; [done|]. split; [done|]. right. intros k' n' l'. rewrite H3. apply (f_equal (fun z => z ++ _)). unfold series, p1.
      destruct (decide ((k, n) = (k', n'))) as [E|E].
      * injection E as <- <-. rewrite lookup_insert_eq, Ei. unfold values_measured. rewrite Hv. simpl. by rewrite Hnone.
      * rewrite lookup_insert_ne by done. by rewrite Hv.
    + exists p, x0. split; [done|]. rewrite Hm. eauto.
Qed.

(** What a gauge reads: the SDK sums an up-down counter. *)
Definition reading (p : Provider) (v : OtelView) (name : string) (l : labels_t) : float64 :=
  fold_left fadd (series p v KGauge name l) (f_of_Z 0).

(** The interface says that [Gauge] sets the value; here it adds to it: a gauge that
    was set once reads, after it is set again, the sum of both and of what was there. *)
Theorem otel_gauge_accumulates p x name l v1 v2 :
  placed p (otel_view x) -> is_Some (p !! (KGauge, name)) ->
  let '(r, (p', x')) := (observe KGauge name v1 l ;; observe KGauge name v2 l) (p, x) in
  r = Returned tt /\ reading p' (otel_view x') name l = fadd (fadd (reading p (otel_view x) name l) v1) v2.
Proof.
  intros Hp [i Hi]. unfold mbind, Go_bind. destruct (otel_observe p x KGauge name v1 l Hp) as (p1&x1&H1&Hp1&Hs1). rewrite H1.
  assert (p1 = p) as ->.
  { revert H1. unfold observe. rewrite Hi. destruct (record_series p x i KGauge name v1 l Hp Hi) as (x'&E&_). rewrite E. congruence. }
  destruct (otel_observe p x1 KGauge name v2 l Hp1) as (p2&x2&H2&_&Hs2). rewrite H2. split; [done|].
  destruct Hs1 as [[_ ?]|Hs1]; [congruence|]. destruct Hs2 as [[_ ?]|Hs2]; [congruence|].
  unfold reading. rewrite Hs2, Hs1, !decide_True by done. by rewrite !fold_left_app.
Qed.
End provider.
End OTel.

(** An SDK that keeps the view itself. *)
Module OtelSample.
Definition used (v : OtelView) : gset nat := made v ∪ set_map fst (dom (measured v)).
#[local] Instance otel : Otel OtelView := {|
  meter_New k name v := if String.eqb name "" then (inr (Errorf "invalid instrument name"), v)
    else (inl (next_nat (used v)), mkOtelView ({[next_nat (used v)]} ∪ made v) (measured v));
  inst_record i attrs u v := (Returned tt, mkOtelView (made v)
    (<[(i, list_to_map attrs) := values_measured v i (list_to_map attrs) ++ [u]]> (measured v)));
  range_labels m v := (map_to_list m, v)
|}.
#[local] Instance otel_laws : OtelLaws OtelView.
Proof.
  refine {| otel_view v := v |}; simpl.
  - intros k name x. destruct (String.eqb name ""); [done|]. pose proof (next_nat_fresh (used x)) as Hf. unfold used at 2 in Hf. apply not_elem_of_union in Hf as [H1 H2].
    split; [done|]. split; [|done]. intros l. apply not_elem_of_dom. intros Hin. apply H2, elem_of_map. by exists (next_nat (used x), l).
  - intros. by eexists.
  - done.
Defined.

(** A gauge set to 1 and back to 0, twice: it reads 2. *)
Example otel_gauge_drifts :
  let set v := OTel.observe KGauge "in_flight" (f_of_Z v) ∅ in
  let '(r, (p, x)) := (set 1%Z ;; set 0%Z ;; set 1%Z ;; set 0%Z) (∅, mkOtelView ∅ ∅) in
  r = Returned tt /\ OTel.reading p x "in_flight" ∅ = f_of_Z 2.
Proof. vm_compute. done. Qed.
End OtelSample.
