(* ===== verification/Http.v ===== *)
(** The part of [net/http] the HTTP packages use, and [transport/http]: server,
    options, middleware chains and the standard-library driver's routing.

    A handler is a program of calls on its [http.ResponseWriter] (a tree, so
    that a middleware which substitutes its own writer can interpret them), over
    a world [W] that holds whatever else the handlers share. *)
From Stdlib Require Import ZArith Lia Ascii.
From S2P Require Import Prelude GoErrors.
From stdpp Require Import base gmap strings list fin_maps.
Open Scope string_scope.
Open Scope list_scope.
Open Scope Z_scope.

(** * Headers *)

Definition is_token_char (c : ascii) : bool :=
  let n := nat_of_ascii c in
  ((48 <=? n) && (n <=? 57) || (65 <=? n) && (n <=? 90) || (97 <=? n) && (n <=? 122))%nat ||
  bool_decide (c ∈ ["!"; "#"; "$"; "%"; "&"; "'"; "*"; "+"; "-"; "."; "^"; "_"; "`"; "|"; "~"]%char).

Definition upper_char (c : ascii) : ascii :=
  let n := nat_of_ascii c in if ((97 <=? n) && (n <=? 122))%nat then ascii_of_nat (n - 32) else c.
Definition lower_char (c : ascii) : ascii :=
  let n := nat_of_ascii c in if ((65 <=? n) && (n <=? 90))%nat then ascii_of_nat (n + 32) else c.

Fixpoint string_all (p : ascii -> bool) (s : string) : bool :=
  match s with
  | EmptyString => true
  | String c s' => p c && string_all p s'
  end.

Fixpoint canonical_from (upper : bool) (s : string) : string :=
  match s with
  | EmptyString => EmptyString
  | String c s' =>
      String (if upper then upper_char c else lower_char c) (canonical_from (Ascii.eqb c "-"%char) s')
  end.

(** [http.CanonicalHeaderKey]: a key with a byte that is not a token character
    is returned unchanged. *)
Definition CanonicalHeaderKey (s : string) : string :=
  if string_all is_token_char s then canonical_from true s else s.

(** [http.Header] *)
Abbreviation Header := (gmap string (list string)).

Definition header_Set (k v : string) (h : Header) : Header := <[CanonicalHeaderKey k := [v]]> h.
Definition header_Add (k v : string) (h : Header) : Header :=
  <[CanonicalHeaderKey k := default [] (h !! CanonicalHeaderKey k) ++ [v]]> h.
Definition header_Del (k : string) (h : Header) : Header := delete (CanonicalHeaderKey k) h.
Definition header_Get (k : string) (h : Header) : string :=
  match h !! CanonicalHeaderKey k with
  | Some (v :: _) => v
  | _ => ""
  end.

(** * Handlers *)

(** The keys of the context values the middleware packages define. *)
Inductive ctxKey := RequestIDKey | MetadataKey (key : string).

#[export] Instance ctxKey_eq_dec : EqDecision ctxKey.
Proof. solve_decision. Defined.

(** [context.Context] values, innermost first. *)
Definition Context := list (ctxKey * string).

Fixpoint ctx_Value (ctx : Context) (key : ctxKey) : option string :=
  match ctx with
  | [] => None
  | (k, v) :: ctx' => if decide (k = key) then Some v else ctx_Value ctx' key
  end.

Definition context_WithValue (ctx : Context) (key : ctxKey) (v : string) : Context := (key, v) :: ctx.

Record Request := mkRequest {
  Method : string;
  URL_Path : string;
  req_Header : Header;
  req_ctx : Context
}.

Definition WithContext (ctx : Context) (r : Request) : Request :=
  mkRequest (Method r) (URL_Path r) (req_Header r) ctx.

(** A program of [ResponseWriter] calls: [w.Header()] is the live map, read or
    mutated in place; [w.WriteHeader]; [w.Write] with its result. *)
Inductive io (A : Type) : Type :=
| Ret (a : A)
| HeaderMap (f : Header -> Header) (k : io A)
| HeaderGet (k : Header -> io A)
| WriteHeader (code : Z) (k : io A)
| Write (b : string) (k : Z * option error -> io A).
Arguments Ret {A}.
Arguments HeaderMap {A}.
Arguments HeaderGet {A}.
Arguments WriteHeader {A}.
Arguments Write {A}.

#[export] Instance io_ret : MRet io := @Ret.
#[export] Instance io_bind : MBind io := fun A B f =>
  fix go (m : io A) : io B :=
    match m with
    | Ret a => f a
    | HeaderMap g k => HeaderMap g (go k)
    | HeaderGet k => HeaderGet (fun h => go (k h))
    | WriteHeader c k => WriteHeader c (go k)
    | Write b k => Write b (fun r => go (k r))
    end.

(** [http.Handler]: whether it returned or panicked, and the world it leaves. *)
Definition Handler (W : Type) := Request -> W -> io (result unit * W).

(** * The server's response writer *)

(** The live header map, and what has been sent: status and header snapshot once
    [WriteHeader] took effect, and the body. *)
Record Response := mkResponse {
  live : Header;
  sent : option (Z * Header);
  body : string
}.

Definition fresh_response : Response := mkResponse ∅ None "".

(** Informational responses other than 101 do not end the header phase; a second
    final [WriteHeader] is ignored.  (Codes outside 100..999, which the server
    refuses with a panic, are not distinguished.) *)
Definition rw_WriteHeader (code : Z) (r : Response) : Response :=
  match sent r with
  | Some _ => r
  | None =>
      if (100 <=? code) && (code <=? 199) && negb (code =? 101) then r
      else mkResponse (live r) (Some (code, live r)) (body r)
  end.

Definition ErrBodyNotAllowed : error :=
  Sentinel "http.ErrBodyNotAllowed" "http: request method or response status code does not allow body".

Definition bodyAllowedForStatus (code : Z) : bool :=
  negb ((100 <=? code) && (code <=? 199)) && negb (code =? 204) && negb (code =? 304).

Definition rw_Write (b : string) (r : Response) : (Z * option error) * Response :=
  let r := match sent r with None => rw_WriteHeader 200 r | Some _ => r end in
  if String.eqb b "" then ((0, None), r)
  else
    match sent r with
    | Some (code, _) =>
        if bodyAllowedForStatus code
        then ((Z.of_nat (String.length b), None), mkResponse (live r) (sent r) (body r ++ b))
        else ((0, Some ErrBodyNotAllowed), r)
    | None => ((0, None), r)
    end.

Fixpoint run {A} (m : io A) (r : Response) : A * Response :=
  match m with
  | Ret a => (a, r)
  | HeaderMap f k => run k (mkResponse (f (live r)) (sent r) (body r))
  | HeaderGet k => run (k (live r)) r
  | WriteHeader c k => run k (rw_WriteHeader c r)
  | Write b k => let '(res, r') := rw_Write b r in run (k res) r'
  end.

Definition newline : string := String "010" "".

(** [http.Error(w, msg, code)] *)
Definition http_Error (msg : string) (code : Z) : io unit :=
  HeaderMap (fun h =>
    header_Set "X-Content-Type-Options" "nosniff"
      (header_Set "Content-Type" "text/plain; charset=utf-8" (header_Del "Content-Length" h)))
    (WriteHeader code (Write (msg ++ newline) (fun _ => Ret tt))).

(** Lifting an action on the writer to a handler's result. *)
Definition serve {W} (w : W) (m : io unit) : io (result unit * W) := m ;; mret (Returned tt, w).

(** A call on the shared world, whose panic is the handler's panic. *)
Definition call {W A} (m : Go W A) (w : W) (k : A -> W -> io (result unit * W)) : io (result unit * W) :=
  match m w with
  | (Returned a, w') => k a w'
  | (Panicked, w') => mret (Panicked, w')
  end.

(** * [transport/http] *)

(** [type Middleware func(http.Handler) http.Handler] *)
Abbreviation Middleware W := (Handler W -> Handler W).

(** A driver's registered routes, most recent last. *)
Record route W := mkRoute { rt_method : string; rt_path : string; rt_handler : Handler W }.
Arguments mkRoute {W}.
Arguments rt_method {W}.
Arguments rt_path {W}.
Arguments rt_handler {W}.

(** [type Driver interface], its [Handle]: [None] is a panic. *)
Definition DriverHandle W := string -> string -> Handler W -> list (route W) -> option (list (route W)).

(** [type Server struct] (the listener and TLS parts are I/O). *)
Record Server W := mkServer {
  addr : string;
  driver : option (DriverHandle W);
  middlewares : list (Middleware W)
}.
Arguments mkServer {W}.
Arguments addr {W}.
Arguments driver {W}.
Arguments middlewares {W}.

Section server.
Context {W : Type}.

(** [func WithDriver], [func WithMiddleware] *)
Definition WithDriver (d : DriverHandle W) : Server W -> Server W := fun s =>
  mkServer (addr s) (Some d) (middlewares s).
Definition WithMiddleware (ms : list (Middleware W)) : Server W -> Server W := fun s =>
  mkServer (addr s) (driver s) (middlewares s ++ ms).

(** [func NewServer(addr string, opts ...Option) *Server] *)
Definition NewServer (a : string) (opts : list (Server W -> Server W)) : Server W :=
  apply_opts opts (mkServer a None []).

(** [func (s *Server) Use(middlewares ...Middleware)] *)
Definition Use (ms : list (Middleware W)) (s : Server W) : Server W :=
  mkServer (addr s) (driver s) (middlewares s ++ ms).

(** [for i := len(ms) - 1; i >= 0; i-- { h = ms[i](h) }], for the first [n]
    middlewares. *)
Fixpoint wrap_from (ms : list (Middleware W)) (n : nat) (h : Handler W) : Handler W :=
  match n with
  | O => h
  | S i => match ms !! i with
           | Some m => wrap_from ms i (m h)
           | None => h
           end
  end.

(** [func (s *Server) wrapHandler(handler http.HandlerFunc) http.HandlerFunc] *)
Definition wrapHandler (s : Server W) (handler : Handler W) : Handler W :=
  if (length (middlewares s) =? 0)%nat then handler
  else
    let h := wrap_from (middlewares s) (length (middlewares s)) handler in
    fun r w => h r w.

(** [func Chain(middlewares ...Middleware) Middleware] *)
Definition Chain (ms : list (Middleware W)) : Middleware W := fun next =>
  wrap_from ms (length ms) next.

(** [func (s *Server) Handle(method, path string, handler http.HandlerFunc)]:
    [mustDriver] panics without a driver. *)
Definition Handle (s : Server W) (method path : string) (handler : Handler W) (routes : list (route W))
    : option (list (route W)) :=
  match driver s with
  | None => None
  | Some d => d method path (wrapHandler s handler) routes
  end.

(** [func (s *Server) GET], [POST] *)
Definition GET (s : Server W) (path : string) (handler : Handler W) := Handle s "GET" path handler.
Definition POST (s : Server W) (path : string) (handler : Handler W) := Handle s "POST" path handler.

(** [func (d *stdDriver) Handle(method, path string, handler http.HandlerFunc)]:
    [ServeMux.HandleFunc] panics when the pattern is already registered. *)
Definition std_Handle : DriverHandle W := fun method path handler routes =>
  if existsb (fun rt => String.eqb (rt_path rt) path) routes then None
  else
    Some (routes ++ [mkRoute method path (fun r w =>
            if negb (String.eqb (Method r) method)
            then serve w (http_Error "Method Not Allowed" 405)
            else handler r w)]).
End server.

(** * Laws of the program trees *)

Lemma run_bind {A B} (m : io A) (f : A -> io B) r :
  run (m ≫= f) r = let '(a, r') := run m r in run (f a) r'.
Proof.
  revert r. induction m as [a|g k IH|k IH|c k IH|b k IH]; intros r; simpl; auto.
  destruct (rw_Write b r) as [res r']. apply IH.
Qed.

Lemma run_http_Error msg code r :
  200 <= code <= 599 -> code <> 204 -> code <> 304 -> sent r = None ->
  exists h, run (http_Error msg code) r =
    (tt, mkResponse h (Some (code, h)) (body r ++ (msg ++ newline))) /\
    h !! "Content-Type" = Some ["text/plain; charset=utf-8"].
Proof.
  intros Hc H204 H304 Hs. unfold http_Error. cbn [run live sent body].
  set (h := header_Set _ _ _). unfold rw_WriteHeader. cbn [sent]. rewrite Hs.
  replace (code <=? 199) with false by lia. rewrite andb_false_r. cbn [andb live body].
  unfold rw_Write. cbn [sent body live].
  assert (String.eqb (msg ++ newline) "" = false) as -> by (by destruct msg).
  assert (bodyAllowedForStatus code = true) as ->.
  { unfold bodyAllowedForStatus. replace (code <=? 199) with false by lia. rewrite andb_false_r.
    by rewrite (proj2 (Z.eqb_neq code 204)), (proj2 (Z.eqb_neq code 304)). }
  exists h. split; [done|]. unfold h, header_Set.
  change (CanonicalHeaderKey "X-Content-Type-Options") with "X-Content-Type-Options".
  change (CanonicalHeaderKey "Content-Type") with "Content-Type".
  rewrite lookup_insert_ne by done. by rewrite lookup_insert_eq.
Qed.

(** An error response to a request nothing was sent for yet. *)
Lemma run_serve_error {W} (w : W) msg code r :
  200 <= code <= 599 -> code <> 204 -> code <> 304 -> sent r = None ->
  exists resp, run (serve w (http_Error msg code)) r = ((Returned tt, w), resp) /\
    sent resp = Some (code, live resp) /\ body resp = (body r ++ (msg ++ newline))%string.
Proof.
  intros Hc H204 H304 Hs. destruct (run_http_Error msg code r Hc H204 H304 Hs) as (h & E & _).
  unfold serve. rewrite run_bind, E. by eexists.
Qed.

(** * Middleware chains *)

Lemma wrap_from_snoc {W} (ms ms' : list (Middleware W)) n h :
  (n <= length ms)%nat -> wrap_from (ms ++ ms') n h = wrap_from ms n h.
Proof.
  revert h. induction n as [|n IH]; intros h Hn; [done|]. simpl.
  rewrite lookup_app_l by lia. destruct (ms !! n) eqn:E; [apply IH; lia|].
  apply lookup_ge_None in E. lia.
Qed.

Lemma wrap_from_foldr {W} (ms : list (Middleware W)) h :
  wrap_from ms (length ms) h = foldr (fun m acc => m acc) h ms.
Proof.
  revert h. induction ms as [|m ms IH] using rev_ind; intros h; [done|].
  rewrite length_app, Nat.add_1_r. simpl. rewrite lookup_app_r, Nat.sub_diag by lia. simpl.
  rewrite wrap_from_snoc, IH by lia. by rewrite foldr_app.
Qed.

Lemma wrapHandler_Chain {W} (s : Server W) h : wrapHandler s h = Chain (middlewares s) h.
Proof. unfold wrapHandler, Chain. by destruct (middlewares s). Qed.

(** Middlewares run in registration order: registering lists of
    middlewares in any number of [Use] calls wraps a route's handler exactly as
    one chain of them all, the first registered outermost; and chains compose. *)
Theorem http_middleware_order {W} (groups : list (list (Middleware W))) a d ms method path h routes :
  let s := fold_left (fun s g => Use g s) groups (NewServer a [WithDriver d]) in
  middlewares s = concat groups /\
  Handle s method path h routes = d method path (foldr (fun m acc => m acc) h (concat groups)) routes /\
  Chain (concat groups ++ ms) h = Chain (concat groups) (Chain ms h).
Proof.
  intros s. assert (Hs : forall s0 : Server W, middlewares (fold_left (fun s g => Use g s) groups s0) = middlewares s0 ++ concat groups /\
                      driver (fold_left (fun s g => Use g s) groups s0) = driver s0).
  { clear. induction groups as [|g gs IH]; intros s0; simpl; [by rewrite app_nil_r|].
    destruct (IH (Use g s0)) as [-> ->]. simpl. by rewrite app_assoc. }
  destruct (Hs (NewServer a [WithDriver d])) as [Hm Hd]. fold s in Hm, Hd. simpl in Hm, Hd.
  split; [done|]. split.
  - unfold Handle. rewrite Hd. by rewrite wrapHandler_Chain, Hm; unfold Chain; rewrite wrap_from_foldr.
  - unfold Chain. by rewrite !wrap_from_foldr, foldr_app.
Qed.
