(* ===== verification/NetPacket.v ===== *)
(** The binary packet format shared by [transport/websocket/message.go],
    [transport/webrtc/message.go] and [transport/webtransport/message.go]: a
    32-bit little-endian type and the payload. *)
From Stdlib Require Import ZArith Lia Ascii.
From S2P Require Import Prelude GoErrors.
From stdpp Require Import base strings list.
Open Scope string_scope.
Open Scope list_scope.
Open Scope Z_scope.

Abbreviation bytes := (list ascii).

Definition byte_of_Z (z : Z) : ascii := ascii_of_N (Z.to_N (z mod 256)).
Definition Z_of_byte (b : ascii) : Z := Z.of_N (N_of_ascii b).

(** [binary.LittleEndian]: [n] bytes of [v], and back. *)
Fixpoint le_put (n : nat) (v : Z) : bytes :=
  match n with
  | O => []
  | S n' => byte_of_Z v :: le_put n' (Z.shiftr v 8)
  end.

Fixpoint le_get (bs : bytes) : Z :=
  match bs with
  | [] => 0
  | b :: bs' => Z.lor (Z_of_byte b) (Z.shiftl (le_get bs') 8)
  end.

(** [type NetMessageType uint32] *)
Definition in_uint32 (t : Z) : Prop := 0 <= t < 2 ^ 32.

Definition io_EOF : error := Sentinel "io.EOF" "EOF".
Definition io_ErrUnexpectedEOF : error := Sentinel "io.ErrUnexpectedEOF" "unexpected EOF".

(** [type BinaryNetPacket struct] *)
Record BinaryNetPacket := mkPacket { pkt_Type : Z; pkt_Payload : bytes }.

(** [func (m *BinaryNetPacket) Marshal() ([]byte, error)]: writing a fixed-size
    value to a [bytes.Buffer] does not fail. *)
Definition Marshal (m : BinaryNetPacket) : bytes + error := inl (le_put 4 (pkt_Type m) ++ pkt_Payload m).

(** [func (m *BinaryNetPacket) Unmarshal(buf []byte) error], in place:
    [binary.Read] wants four bytes, and distinguishes none from too few. *)
Definition Unmarshal (m : BinaryNetPacket) (buf : bytes) : option error * BinaryNetPacket :=
  if (length buf =? 0)%nat then (Some io_EOF, m)
  else if (length buf <? 4)%nat then (Some io_ErrUnexpectedEOF, m)
  else (None, mkPacket (le_get (take 4 buf)) (drop 4 buf)).

(** * Properties *)

Lemma Z_of_byte_range b : 0 <= Z_of_byte b < 256.
Proof. unfold Z_of_byte. pose proof (N_ascii_bounded b). lia. Qed.

Lemma Z_of_byte_of_Z z : Z_of_byte (byte_of_Z z) = z mod 256.
Proof.
  unfold Z_of_byte, byte_of_Z. pose proof (Z.mod_pos_bound z 256). rewrite N_ascii_embedding by lia. lia.
Qed.

Lemma byte_of_Z_of_byte b : byte_of_Z (Z_of_byte b) = b.
Proof.
  unfold byte_of_Z. pose proof (Z_of_byte_range b). rewrite Z.mod_small by lia.
  unfold Z_of_byte. rewrite N2Z.id. apply ascii_N_embedding.
Qed.

(** The bytes of a byte and of what follows it do not overlap. *)
Lemma lor_shift8 a z : 0 <= a < 256 -> Z.lor a (Z.shiftl z 8) = a + 256 * z.
Proof.
  intros Ha. rewrite Z.shiftl_mul_pow2 by lia. change (2 ^ 8) with 256.
  rewrite <- Z.add_lor_land, Z.mul_comm.
  assert (Z.land a (256 * z) = 0) as ->; [|lia].
  apply Z.bits_inj'. intros n Hn. rewrite Z.land_spec, Z.bits_0, Z.mul_comm. change 256 with (2 ^ 8).
  destruct (decide (n < 8)).
  - rewrite Z.mul_pow2_bits_low by lia. apply andb_false_r.
  - rewrite (Z.bits_above_log2 a n); [done|lia|]. destruct (decide (a = 0)) as [->|]; [simpl; lia|].
    apply Z.log2_lt_pow2; [lia|]. apply Z.lt_le_trans with (2 ^ 8); [lia|]. apply Z.pow_le_mono_r; lia.
Qed.

Lemma le_get_put n v : le_get (le_put n v) = v mod 2 ^ (8 * Z.of_nat n).
Proof.
  revert v. induction n as [|n IH]; intros v; [by rewrite Z.mod_1_r|]. cbn [le_put le_get].
  rewrite IH, Z_of_byte_of_Z, lor_shift8 by (apply Z.mod_pos_bound; lia).
  rewrite Z.shiftr_div_pow2 by lia. replace (8 * Z.of_nat (S n)) with (8 + 8 * Z.of_nat n) by lia.
  rewrite Z.pow_add_r by lia. change (2 ^ 8) with 256. rewrite Z.rem_mul_r; lia.
Qed.

Lemma le_put_get bs : le_put (length bs) (le_get bs) = bs.
Proof.
  induction bs as [|b bs IH]; [done|]. cbn [length le_put le_get]. pose proof (Z_of_byte_range b) as Hb.
  rewrite lor_shift8 by done. f_equal.
  - unfold byte_of_Z. rewrite (Z.mul_comm 256), Z_mod_plus_full.
    apply byte_of_Z_of_byte.
  - rewrite Z.shiftr_div_pow2 by lia. change (2 ^ 8) with 256.
    replace ((Z_of_byte b + 256 * le_get bs) / 256) with (le_get bs); [done|].
    rewrite Z.mul_comm, Z.div_add, Z.div_small by lia. lia.
Qed.

Lemma le_put_length n v : length (le_put n v) = n.
Proof. revert v. induction n; intros v; simpl; auto. Qed.

Lemma le_get_range bs : 0 <= le_get bs < 2 ^ (8 * Z.of_nat (length bs)).
Proof.
  pose proof (le_get_put (length bs) (le_get bs)) as H. rewrite le_put_get in H. rewrite H.
  apply Z.mod_pos_bound. apply Z.pow_pos_nonneg; lia.
Qed.

(** Both directions of the packet format. *)
Lemma unmarshal_marshal m m0 buf :
  in_uint32 (pkt_Type m) -> Marshal m = inl buf -> Unmarshal m0 buf = (None, m).
Proof.
  intros Ht Hm.
  assert (buf = le_put 4 (pkt_Type m) ++ pkt_Payload m) as -> by (unfold Marshal in Hm; congruence).
  unfold Unmarshal. rewrite length_app, le_put_length.
  replace ((4 + length (pkt_Payload m) =? 0)%nat) with false by (symmetry; apply Nat.eqb_neq; lia).
  replace ((4 + length (pkt_Payload m) <? 4)%nat) with false by (symmetry; apply Nat.ltb_ge; lia).
  rewrite take_app_length', drop_app_length' by (by rewrite le_put_length). rewrite le_get_put.
  unfold in_uint32 in Ht. rewrite Z.mod_small by (simpl; lia). by destruct m.
Qed.

Lemma marshal_unmarshal m0 m buf :
  Unmarshal m0 buf = (None, m) -> in_uint32 (pkt_Type m) /\ Marshal m = inl buf.
Proof.
  unfold Unmarshal. destruct (length buf =? 0)%nat; [done|]. destruct (length buf <? 4)%nat eqn:El; [done|].
  apply Nat.ltb_ge in El. intros [= <-]. split.
  - unfold in_uint32. simpl. pose proof (le_get_range (take 4 buf)) as H. rewrite length_take in H.
    replace (4 `min` length buf)%nat with 4%nat in H by lia. exact H.
  - unfold Marshal. cbn [pkt_Type pkt_Payload]. f_equal. etrans; [|apply (take_drop 4)]. f_equal.
    etrans; [|apply le_put_get]. f_equal. rewrite length_take. lia.
Qed.

Lemma unmarshal_error m0 buf :
  (length buf < 4)%nat ->
  Unmarshal m0 buf = (Some (if (length buf =? 0)%nat then io_EOF else io_ErrUnexpectedEOF), m0).
Proof.
  intros Hl. unfold Unmarshal. destruct (length buf =? 0)%nat; [done|]. apply Nat.ltb_lt in Hl. by rewrite Hl.
Qed.
