(* ===== verification/Servers.v ===== *)
(** The servers' addresses and lives: [Endpoint] of [transport/http], [sse],
    [graphql], [websocket], [signalr], [socketio] and [grpc/server]; [Start] and
    [Stop] of the HTTP-based ones, which share one text; the gRPC server's
    construction.  With them, what they use of package [net]. *)
From Stdlib Require Import ZArith Lia Ascii.
From S2P Require Import Prelude GoErrors Http NetPacket.
From stdpp Require Import base gmap strings list fin_maps pretty.
Open Scope string_scope.
Open Scope list_scope.

Abbreviation chars := String.list_ascii_of_string.
Abbreviation text := String.string_of_list_ascii.

(** * [net.SplitHostPort] and [net.JoinHostPort] *)

Fixpoint IndexByte (c : ascii) (s : bytes) : option nat :=
  match s with
  | [] => None
  | b :: s' => if Ascii.eqb b c then Some 0%nat else S <$> IndexByte c s'
  end.

Fixpoint LastIndexByte (c : ascii) (s : bytes) : option nat :=
  match s with
  | [] => None
  | b :: s' =>
      match LastIndexByte c s' with
      | Some i => Some (S i)
      | None => if Ascii.eqb b c then Some 0%nat else None
      end
  end.

Definition has_byte (c : ascii) (s : bytes) : bool := if IndexByte c s then true else false.

Definition addrErr (addr : bytes) (why : string) : error :=
  Errorf (if (length addr =? 0)%nat then why else ("address " ++ text addr ++ ": " ++ why)%string).

(** The host part, and where the brackets are no longer allowed. *)
Definition split_host (hostport : bytes) (i : nat) : bytes * nat * nat + string :=
  match hostport with
  | "["%char :: _ =>
      match IndexByte "]"%char hostport with
      | None => inr "missing ']' in address"
      | Some e =>
          if (S e =? length hostport)%nat then inr "missing port in address"
          else if (S e =? i)%nat then inl (take (e - 1) (drop 1 hostport), 1%nat, S e)
          else if decide (hostport !! S e = Some ":"%char) then inr "too many colons in address"
          else inr "missing port in address"
      end
  | _ =>
      let host := take i hostport in
      if has_byte ":"%char host then inr "too many colons in address" else inl (host, 0%nat, 0%nat)
  end.

Definition SplitHostPort (hostport : bytes) : bytes * bytes + error :=
  match LastIndexByte ":"%char hostport with
  | None => inr (addrErr hostport "missing port in address")
  | Some i =>
      match split_host hostport i with
      | inr why => inr (addrErr hostport why)
      | inl (host, j, k) =>
          if has_byte "["%char (drop j hostport) then inr (addrErr hostport "unexpected '[' in address")
          else if has_byte "]"%char (drop k hostport) then inr (addrErr hostport "unexpected ']' in address")
          else inl (host, drop (S i) hostport)
      end
  end.

Definition JoinHostPort (host port : bytes) : bytes :=
  if has_byte ":"%char host then "["%char :: host ++ "]"%char :: ":"%char :: port else host ++ ":"%char :: port.

(** * [Endpoint] *)

(** [if host == "" || host == "0.0.0.0" { host = "localhost" }] *)
Definition local_host (host : bytes) : bytes :=
  if bool_decide (host = [] \/ host = chars "0.0.0.0") then chars "localhost" else host.

(** The body all [Endpoint]s share; [fallback] is what is returned for an address
    without host and port. *)
Definition endpoint (scheme : string) (fallback : string) (addr : bytes) : string :=
  match SplitHostPort addr with
  | inr _ => fallback
  | inl (host, port) =>
      if (length port =? 0)%nat then fallback
      else (scheme ++ "://" ++ text (JoinHostPort (local_host host) port))%string
  end.

(** The address: the listener's once there is one, else the configured one. *)
Definition listen_addr (addr : bytes) (listener : option bytes) : bytes := default addr listener.

(** [func (s *Server) Endpoint() string] of [transport/http], of [sse] and
    [graphql], of [websocket], of [signalr], of [socketio], of [grpc/server]. *)
Definition http_Endpoint (tls : bool) (addr : bytes) (listener : option bytes) : string :=
  let scheme := if tls then "https" else "http" in
  let a := listen_addr addr listener in endpoint scheme (scheme ++ "://" ++ text a)%string a.
Definition sse_Endpoint := http_Endpoint.
Definition graphql_Endpoint := http_Endpoint.
Definition websocket_Endpoint (tls : bool) (addr : bytes) (listener : option bytes) : string :=
  let scheme := if tls then "wss" else "ws" in
  let a := listen_addr addr listener in endpoint scheme (scheme ++ "://" ++ text a)%string a.
Definition signalr_Endpoint (addr : bytes) (listener : option bytes) : string :=
  let a := listen_addr addr listener in endpoint "signalr" ("signalr://" ++ text a)%string a.
Definition socketio_Endpoint (addr : bytes) (listener : option bytes) : string :=
  let a := listen_addr addr listener in endpoint "socket.io" ("socket.io://" ++ text a)%string a.
Definition grpc_Endpoint (addr : bytes) (listener : option bytes) : string :=
  let a := listen_addr addr listener in endpoint "grpc" (text a) a.

(** [func FormatEndpoint(host string, port int) string] *)
Definition FormatEndpoint (host : bytes) (port : Z) : string := ("grpc://" ++ text (JoinHostPort host (chars (pretty port))))%string.

(** * [Start] and [Stop] of the HTTP-based servers

    [transport/http/driver/std], [transport/graphql], [transport/sse] and
    [transport/websocket]: [Start] listens, wraps the mux, makes the server and
    starts a goroutine that serves and reports; then it waits for the report or
    for its context.  [Stop] shuts the server down.  The steps are those of the
    two callers and of the goroutine, in any order.  [s.server] is written by
    [Start] and read by [Stop] without a lock; the order of the two is the order
    of the steps. *)

Inductive server_kind := StdHttp | GraphQL | Sse | WebSocket.

(** [s.streamMgr.Clean()] and [s.sessionManager.Clean()]: SSE and WebSocket
    clean their streams and sessions when they are told to end. *)
Inductive action := ACleaned | AShutdown.
Definition clean_actions (k : server_kind) : list action :=
  match k with Sse | WebSocket => [ACleaned] | StdHttp | GraphQL => [] end.

(** The goroutine: in [Serve], its report in the channel, the report taken. *)
Inductive server_goroutine := GServing | GReported (r : option error) | GDone.

(** [Start]: not called, between [net.Listen] and [s.server = ...], in its
    select, returned. *)
Inductive start_call := SNotCalled | SListening | SWaiting | SReturned (r : option error).

(** [s.server] is [None] while nil; its boolean is net/http's in-shutdown mark. *)
Record Life := mkLife {
  l_listener : option bytes;
  l_server : option bool;
  l_go : option server_goroutine;
  l_start : start_call;
  l_actions : list action
}.

Definition new_life : Life := mkLife None None None SNotCalled [].

Section life.
Context (k : server_kind).

(** [Start] up to [s.listener = ln]; [listen] is what [net.Listen] returns. *)
Definition Start_begin (listen : bytes + error) (l : Life) : option Life :=
  match l_start l with
  | SNotCalled =>
      Some match listen with
           | inr err => mkLife (l_listener l) (l_server l) (l_go l) (SReturned (Some err)) (l_actions l)
           | inl addr => mkLife (Some addr) (l_server l) (l_go l) SListening (l_actions l)
           end
  | _ => None
  end.

(** [s.server = &http.Server{...}], and the goroutine started. *)
Definition Start_serve (l : Life) : option Life :=
  match l_start l with
  | SListening => Some (mkLife (l_listener l) (Some false) (Some GServing) SWaiting (l_actions l))
  | _ => None
  end.

(** [s.server.Serve(ln)] returns: [http.ErrServerClosed], which is reported as
    nil, once the server is shutting down; an error of the listener otherwise. *)
Definition Serve_closed (l : Life) : option Life :=
  match l_go l, l_server l with
  | Some GServing, Some true => Some (mkLife (l_listener l) (l_server l) (Some (GReported None)) (l_start l) (l_actions l))
  | _, _ => None
  end.
Definition Serve_failed (err : error) (l : Life) : option Life :=
  match l_go l, l_server l with
  | Some GServing, Some false => Some (mkLife (l_listener l) (l_server l) (Some (GReported (Some err))) (l_start l) (l_actions l))
  | _, _ => None
  end.

(** [case err := <-errChan: return err] *)
Definition Start_report (l : Life) : option Life :=
  match l_start l, l_go l with
  | SWaiting, Some (GReported r) => Some (mkLife (l_listener l) (l_server l) (Some GDone) (SReturned r) (l_actions l))
  | _, _ => None
  end.

(** [case <-ctx.Done()]: the clean-up, and [Shutdown], whose result is returned. *)
Definition Start_cancelled (r : option error) (l : Life) : option Life :=
  match l_start l, l_server l with
  | SWaiting, Some _ =>
      Some (mkLife (l_listener l) (Some true) (l_go l) (SReturned r) (l_actions l ++ clean_actions k ++ [AShutdown]))
  | _, _ => None
  end.

(** [func (s *Server) Stop(ctx context.Context) error]: first the clean-up of the
    kinds that have one; then, if there is a server, [Shutdown], which returns [r]. *)
Definition Stop_clean (l : Life) : Life := mkLife (l_listener l) (l_server l) (l_go l) (l_start l) (l_actions l ++ clean_actions k).
Definition Stop_shutdown (r : option error) (l : Life) : option error * Life :=
  match l_server l with
  | None => (None, l)
  | Some _ => (r, mkLife (l_listener l) (Some true) (l_go l) (l_start l) (l_actions l ++ [AShutdown]))
  end.
Definition Stop (r : option error) (l : Life) : option error * Life := Stop_shutdown r (Stop_clean l).

Inductive life_event :=
| LStart (listen : bytes + error) | LServe | LServeClosed | LServeFailed (err : error) | LReport | LCancelled (r : option error)
| LStopClean | LStopShutdown (r : option error).

Definition life_step (e : life_event) (l : Life) : option Life :=
  match e with
  | LStart listen => Start_begin listen l
  | LServe => Start_serve l
  | LServeClosed => Serve_closed l
  | LServeFailed err => Serve_failed err l
  | LReport => Start_report l
  | LCancelled r => Start_cancelled r l
  | LStopClean => Some (Stop_clean l)
  | LStopShutdown r => Some (snd (Stop_shutdown r l))
  end.

Fixpoint life_run (es : list life_event) (l : Life) : option Life :=
  match es with
  | [] => Some l
  | e :: es' => l' ← life_step e l; life_run es' l'
  end.
End life.

(** The steps of each server. *)
Definition std_step := life_step StdHttp.
Definition graphql_step := life_step GraphQL.
Definition sse_step := life_step Sse.
Definition websocket_step := life_step WebSocket.

(** ** SignalR and Socket.IO

    [Start] serves in a goroutine whose result is dropped, and waits for its
    context only. *)

(** [s.lis]: not made, open, closed. *)
Inductive listener := LisNil | LisOpen | LisClosed.

Record Blocking := mkBlocking { b_lis : listener; b_serving : bool; b_start : start_call }.
Definition new_blocking : Blocking := mkBlocking LisNil false SNotCalled.

(** [s.lis.Close()] under its nil check: a listener that is closed answers
    [net.ErrClosed]. *)
Definition close_listener (l : listener) : option error * listener :=
  match l with
  | LisNil => (None, LisNil)
  | LisOpen => (None, LisClosed)
  | LisClosed => (Some (Errorf "use of closed network connection"), LisClosed)
  end.

Definition blocking_begin (listen : option error) (b : Blocking) : option Blocking :=
  match b_start b with
  | SNotCalled =>
      Some match listen with
           | Some err => mkBlocking (b_lis b) (b_serving b) (SReturned (Some err))
           | None => mkBlocking LisOpen true SWaiting
           end
  | _ => None
  end.

(** [http.Serve] or [http.ServeTLS] returns; nobody hears of it. *)
Definition blocking_served (b : Blocking) : option Blocking :=
  if b_serving b then Some (mkBlocking (b_lis b) false (b_start b)) else None.

(** [<-ctx.Done()] *)
Definition blocking_cancelled (b : Blocking) : option Blocking :=
  match b_start b with
  | SWaiting => Some (mkBlocking (snd (close_listener (b_lis b))) (b_serving b) (SReturned None))
  | _ => None
  end.

(** [func (s *Server) Stop(_ context.Context) error] of the two packages;
    [closed] is what closing the Socket.IO engine returns. *)
Definition signalr_Stop (b : Blocking) : option error * Blocking :=
  let '(err, l) := close_listener (b_lis b) in (err, mkBlocking l (b_serving b) (b_start b)).
Definition socketio_Stop (closed : option error) (b : Blocking) : option error * Blocking :=
  (closed, mkBlocking (snd (close_listener (b_lis b))) (b_serving b) (b_start b)).

Inductive blocking_event := BStart (listen : option error) | BServed | BCancelled | BStop.
Definition signalr_step (e : blocking_event) (b : Blocking) : option Blocking :=
  match e with
  | BStart listen => blocking_begin listen b
  | BServed => blocking_served b
  | BCancelled => blocking_cancelled b
  | BStop => Some (snd (signalr_Stop b))
  end.
Definition socketio_step (closed : option error) (e : blocking_event) (b : Blocking) : option Blocking :=
  match e with
  | BStart listen => blocking_begin listen b
  | BServed => blocking_served b
  | BCancelled => blocking_cancelled b
  | BStop => Some (snd (socketio_Stop closed b))
  end.

(** The chain every [Start] (and [NewServer] of the others) builds: see [wrap_from]. *)
Definition start_handler {W} (middlewares : list (Middleware W)) (mux : Handler W) : Handler W :=
  wrap_from middlewares (length middlewares) mux.

(** [func (s *Server) CORS(next http.Handler) http.Handler] of [transport/signalr] *)
Definition signalr_CORS {W} (next : option (Handler W)) : Handler W := fun r w =>
  HeaderMap (fun h =>
    header_Set "Access-Control-Allow-Credentials" "true"
      (header_Set "Access-Control-Allow-Headers" "Content-Type,x-requested-with,x-signalr-user-agent,Upgrade,Connection"
        (header_Set "Access-Control-Allow-Methods" "POST,GET,OPTIONS,PUT,DELETE"
          (header_Set "Access-Control-Allow-Origin" (header_Get "Origin" (req_Header r)) h))))
    (if String.eqb (Method r) "OPTIONS" then serve w (WriteHeader 200 (Ret tt))
     else match next with
          | Some h => h r w
          | None => mret (Returned tt, w)
          end).

(** * [transport/grpc/server] *)

Section grpc_server.
(** Interceptors, and services by their description. *)
Context {I : Type}.

(** The underlying [*grpc.Server]: the interceptors it was made with, and its
    services. *)
Record GrpcServer := mkGrpcServer { gs_unary : list I; gs_stream : list I; gs_services : list string }.

Record Server := mkServer {
  server : option GrpcServer;
  middlewares : list I;
  streamMiddleware : list I
}.

(** [func WithServer], [WithMiddleware], [WithStreamMiddleware] *)
Definition WithServer (g : GrpcServer) : Server -> Server := fun s => mkServer (Some g) (middlewares s) (streamMiddleware s).
Definition WithMiddleware (ms : list I) : Server -> Server := fun s => mkServer (server s) (middlewares s ++ ms) (streamMiddleware s).
Definition WithStreamMiddleware (ms : list I) : Server -> Server := fun s => mkServer (server s) (middlewares s) (streamMiddleware s ++ ms).

(** [func NewServer(addr string, opts ...Option) *Server] *)
Definition NewServer (opts : list (Server -> Server)) : Server := apply_opts opts (mkServer None [] []).

(** [func (s *Server) Use], [UseStream] *)
Definition Use (ms : list I) (s : Server) : Server := mkServer (server s) (middlewares s ++ ms) (streamMiddleware s).
Definition UseStream (ms : list I) (s : Server) : Server := mkServer (server s) (middlewares s) (streamMiddleware s ++ ms).

(** [func (s *Server) ensureServer()] *)
Definition ensureServer (s : Server) : Server :=
  match server s with
  | Some _ => s
  | None => mkServer (Some (mkGrpcServer (middlewares s) (streamMiddleware s) [])) (middlewares s) (streamMiddleware s)
  end.

(** [func (s *Server) RegisterService] *)
Definition RegisterService (sd : string) (s : Server) : Server :=
  let s := ensureServer s in
  mkServer ((fun g => mkGrpcServer (gs_unary g) (gs_stream g) (gs_services g ++ [sd])) <$> server s) (middlewares s) (streamMiddleware s).

(** What [Start] serves with. *)
Definition grpc_Start_server (s : Server) : option GrpcServer := server (ensureServer s).

(** [func (s *Server) Stop(ctx)]: the race of [GracefulStop] and the context; the
    result, and whether the server was stopped by force. *)
Definition grpc_Stop (graceful_first : bool) (ctx_err : option error) (s : Server) : option error * bool :=
  match server s with
  | None => (None, false)
  | Some _ => if graceful_first then (None, false) else (ctx_err, true)
  end.

(** [func (s *Server) Start(ctx)]: [listen] is what [net.Listen] answers;
    [report] what the serving goroutine reported, if it did so before the context
    ended.  Otherwise [Stop] is called with a context that never ends, so only
    the graceful stop can finish it. *)
Definition grpc_Start (listen : option error) (report : option (option error)) (s : Server) : (option error * bool) * Server :=
  let s := ensureServer s in
  match listen with
  | Some err => ((Some err, false), s)
  | None =>
      match report with
      | Some err => ((err, false), s)
      | None => (grpc_Stop true None s, s)
      end
  end.
End grpc_server.
Arguments GrpcServer : clear implicits.
Arguments Server : clear implicits.

(** * Properties *)

Lemma IndexByte_None c s : IndexByte c s = None <-> c ∉ s.
Proof.
  induction s as [|b s IH]; simpl; [split; [intros _ []%elem_of_nil|done]|].
  destruct (Ascii.eqb_spec b c) as [->|Hne]; [split; [done|set_solver]|].
  rewrite fmap_None, IH. set_solver.
Qed.

Lemma has_byte_false c s : c ∉ s -> has_byte c s = false.
Proof. intros H. unfold has_byte. by rewrite (proj2 (IndexByte_None c s) H). Qed.

Lemma has_byte_true c s : c ∈ s -> has_byte c s = true.
Proof. intros H. unfold has_byte. destruct (IndexByte c s) eqn:E; [done|]. by apply IndexByte_None in E. Qed.

Lemma IndexByte_app c s1 s2 : c ∉ s1 -> IndexByte c (s1 ++ s2) = (fun i => (length s1 + i)%nat) <$> IndexByte c s2.
Proof.
  induction s1 as [|b s1 IH]; intros Hn; simpl; [by destruct (IndexByte c s2)|].
  rewrite not_elem_of_cons in Hn. destruct Hn as [Hb Hn]. destruct (Ascii.eqb_spec b c) as [->|]; [done|].
  rewrite IH by done. by destruct (IndexByte c s2).
Qed.

Lemma LastIndexByte_None c s : c ∉ s -> LastIndexByte c s = None.
Proof.
  induction s as [|b s IH]; intros Hn; [done|]. rewrite not_elem_of_cons in Hn. destruct Hn as [Hb Hn]. simpl.
  rewrite IH by done. by destruct (Ascii.eqb_spec b c) as [->|].
Qed.

Lemma LastIndexByte_app c s1 s2 : c ∉ s2 -> LastIndexByte c (s1 ++ c :: s2) = Some (length s1).
Proof.
  intros Hn. induction s1 as [|b s1 IH]; simpl; [by rewrite LastIndexByte_None, Ascii.eqb_refl|]. by rewrite IH.
Qed.

(** A host and a port an address can be made of. *)
Definition plain (s : bytes) : Prop := "["%char ∉ s /\ "]"%char ∉ s.
Definition address_parts (host port : bytes) : Prop := plain host /\ plain port /\ ":"%char ∉ port.

Lemma split_join_host_port host port : address_parts host port -> SplitHostPort (JoinHostPort host port) = inl (host, port).
Proof.
  intros ([Hh1 Hh2]&[Hp1 Hp2]&Hp3). unfold SplitHostPort, JoinHostPort. destruct (has_byte ":"%char host) eqn:Hc.
  - assert ("["%char :: host ++ "]"%char :: ":"%char :: port = ("["%char :: host ++ ["]"%char]) ++ ":"%char :: port) as E
      by (simpl; f_equal; by rewrite <- (assoc app)).
    rewrite E at 1. rewrite LastIndexByte_app by done. cbn [split_host].
    assert (IndexByte "]"%char ("["%char :: host ++ "]"%char :: ":"%char :: port) = Some (S (length host))) as Hi.
    { etransitivity; [apply (IndexByte_app "]"%char ("["%char :: host)); by rewrite not_elem_of_cons|]. simpl. f_equal. lia. }
    rewrite Hi. clear Hi.
    replace (S (S (length host)) =? length ("["%char :: host ++ "]"%char :: ":"%char :: port))%nat with false
      by (symmetry; apply Nat.eqb_neq; simpl; rewrite length_app; simpl; lia).
    replace (S (S (length host)) =? length ("["%char :: host ++ ["]"%char]))%nat with true
      by (symmetry; apply Nat.eqb_eq; simpl; rewrite length_app; simpl; lia).
    rewrite E. clear E. set (l := "["%char :: host ++ ["]"%char]).
    assert (length l = S (S (length host))) as El by (unfold l; simpl; rewrite length_app; simpl; lia).
    rewrite has_byte_false; [|unfold l; simpl; rewrite drop_0; set_solver]. rewrite <- El, drop_app_length.
    rewrite has_byte_false by set_solver. f_equal. f_equal; [|by rewrite drop_app_ge, El, Nat.sub_succ_l, Nat.sub_diag by lia].
    unfold l. simpl. rewrite drop_0, Nat.sub_0_r, <- (assoc app). apply take_app_length.
  - rewrite LastIndexByte_app by done.
    assert (":"%char ∉ host) as Hn by (intros Hin; by rewrite has_byte_true in Hc).
    assert (split_host (host ++ ":"%char :: port) (length host) = inl (host, 0%nat, 0%nat)) as ->.
    { unfold split_host. destruct host as [|b host]; [done|]. cbn [app].
      assert (take (length (b :: host)) (b :: host ++ ":"%char :: port) = b :: host) as E by (simpl; by rewrite take_app_length).
      destruct (Ascii.eqb_spec b "["%char) as [->|Hb]; [set_solver|].
      rewrite E, has_byte_false by done. destruct b as [[] [] [] [] [] [] [] []]; done. }
    rewrite !drop_0, !has_byte_false by set_solver. f_equal. f_equal.
    by rewrite drop_app_ge, Nat.sub_succ_l, Nat.sub_diag by lia.
Qed.

(** The address a server publishes can be dialled: for the address of any
    host and port (an IPv6 host in brackets), [Endpoint] is the scheme and that
    address again, the unspecified host replaced by [localhost]; splitting it
    gives back host and port. *)
Theorem endpoint_round_trip scheme fallback host port :
  address_parts host port -> port <> [] ->
  endpoint scheme fallback (JoinHostPort host port) = (scheme ++ "://" ++ text (JoinHostPort (local_host host) port))%string /\
  SplitHostPort (JoinHostPort (local_host host) port) = inl (local_host host, port).
Proof.
  intros Ha Hp. split.
  - unfold endpoint. rewrite split_join_host_port by done. by destruct port.
  - apply split_join_host_port. destruct Ha as (Hh&Hport). split; [|done]. unfold local_host. case_bool_decide; [|done].
    split; set_solver.
Qed.

Lemma endpoint_round_trip_witness :
  endpoint "http" "" (JoinHostPort (chars "::1") (chars "8080")) = "http://[::1]:8080" /\
  SplitHostPort (JoinHostPort (local_host (chars "::1")) (chars "8080")) = inl (chars "::1", chars "8080").
Proof.
  refine (endpoint_round_trip "http" "" (chars "::1") (chars "8080") _ _); [|discriminate].
  repeat split; rewrite <- IndexByte_None; reflexivity.
Defined.

(** A server told to listen on all addresses publishes [localhost] before it
    starts and, where the listener is a dual-stack one, the unspecified address
    afterwards. *)
Example endpoint_of_unspecified :
  http_Endpoint false (chars ":8080") None = "http://localhost:8080" /\
  http_Endpoint false (chars ":8080") (Some (chars "[::]:8080")) = "http://[::]:8080".
Proof. split; reflexivity. Qed.

(** ** Lives *)

(** [Start] waits only while its goroutine is there, and the goroutine serves or
    has reported; before, there is no server. *)
Definition life_ok (l : Life) : Prop :=
  match l_start l with
  | SNotCalled | SListening => l_server l = None /\ l_go l = None
  | SWaiting => exists b, l_server l = Some b /\
      (l_go l = Some GServing \/ (exists err, l_go l = Some (GReported (Some err))) \/ (b = true /\ l_go l = Some (GReported None)))
  | SReturned _ => True
  end.

Ltac unfold_life := unfold Start_begin, Start_serve, Serve_closed, Serve_failed, Start_report, Start_cancelled, Stop_clean, Stop_shutdown in *; cbn in *.

Lemma life_step_ok k e l l' : life_ok l -> life_step k e l = Some l' -> life_ok l'.
Proof.
  unfold life_ok. intros Hok H. destruct l as [ln sv g st acts]. cbn in *.
  destruct e; cbn in H; unfold_life; repeat case_match; simplify_eq/=; auto; try done; naive_solver.
Qed.

Lemma life_run_ok k es l l' : life_ok l -> life_run k es l = Some l' -> life_ok l'.
Proof.
  revert l. induction es as [|e es IH]; intros l Hok H; [by injection H as <-|].
  apply bind_Some in H as (l1&H1&H2). eauto using life_step_ok.
Qed.

(** The steps of the server's own goroutines that lead [Start] to its return, and
    how many are left at most. *)
Definition own_step (e : life_event) : bool :=
  match e with LServeClosed | LServeFailed _ | LReport => true | _ => false end.
Definition own_left (l : Life) : nat :=
  match l_go l with Some GServing => 2 | Some (GReported _) => 1 | _ => 0 end.

(** A server told to stop. *)
Definition told (l : Life) : Prop := l_server l = Some true /\ l_start l <> SNotCalled /\ l_start l <> SListening.

Lemma told_step k e l l' :
  told l -> life_step k e l = Some l' -> told l' /\ (own_left l' + (if own_step e then 1 else 0) <= own_left l)%nat.
Proof.
  intros (Hs&Hn&Hl) H. unfold told, own_left. destruct l as [ln sv g st acts]. cbn in *. subst sv.
  destruct e; cbn in H; unfold_life; repeat case_match; simplify_eq/=; (split; [done|lia]).
Qed.

Lemma told_run k es l l' :
  told l -> life_run k es l = Some l' -> told l' /\ (own_left l' + length (filter own_step es) <= own_left l)%nat.
Proof.
  revert l. induction es as [|e es IH]; intros l Ht H.
  - injection H as <-. split; [done|]. cbn. lia.
  - apply bind_Some in H as (l1&H1&H2). destruct (told_step k e l l1 Ht H1) as [Ht1 Hn1].
    destruct (IH l1 Ht1 H2) as [Ht' Hn']. split; [done|]. rewrite filter_cons. destruct (own_step e); case_decide; simpl; done || lia.
Qed.

Lemma returned_run k es l l' res : l_start l = SReturned res -> life_run k es l = Some l' -> l_start l' = SReturned res.
Proof.
  revert l. induction es as [|e es IH]; intros l Hs H; [by injection H as <-|].
  apply bind_Some in H as (l1&H1&H2). apply (IH l1); [|done]. destruct l as [ln sv g st acts]. cbn in Hs. subst st.
  destruct e; cbn in H1; unfold_life; repeat case_match; by simplify_eq/=.
Qed.

(** What [Start] can still return once its server was told to stop. *)
Lemma told_result k es l l' res :
  told l -> l_start l = SWaiting -> life_run k es l = Some l' -> l_start l' = SReturned res ->
  res = None \/ (exists err, l_go l = Some (GReported (Some err)) /\ res = Some err) \/ LCancelled res ∈ es.
Proof.
  revert l. induction es as [|e es IH]; intros l Ht Hw H Hr; [injection H as <-; congruence|].
  apply bind_Some in H as (l1&H1&H2). destruct (told_step k e l l1 Ht H1) as [Ht1 _].
  assert ((l_start l1 = SWaiting /\ (l_go l1 = l_go l \/ l_go l1 = Some (GReported None))) \/
          (exists r, l_start l1 = SReturned r /\ (l_go l = Some (GReported r) \/ e = LCancelled r))) as [[Hw1 Hg]|(r&Hr1&Hg)].
  { destruct Ht as (Hs&_). destruct l as [ln sv g st acts]. cbn in *. subst sv st.
    destruct e; cbn in H1; unfold_life; repeat case_match; simplify_eq/=; eauto 6. }
  - destruct (IH l1 Ht1 Hw1 H2 Hr) as [->|[(err&Hg1&->)|Hin]]; [by left| |right; right; by constructor].
    destruct Hg as [Hg|Hg]; rewrite Hg in Hg1; [|done]. right. left. eauto.
  - pose proof (returned_run k es l1 l' r Hr1 H2) as E. rewrite Hr in E. injection E as ->.
    destruct Hg as [Hg| ->]; [|right; right; constructor]. destruct r as [err|]; [|by left]. right. left. eauto.
Qed.

(** A life without the record of what was cleaned and shut down; the steps do
    not look at that record. *)
Definition without_actions (l : Life) : Life := mkLife (l_listener l) (l_server l) (l_go l) (l_start l) [].

Lemma run_without_actions k es l1 l2 :
  without_actions l1 = without_actions l2 -> without_actions <$> life_run k es l1 = without_actions <$> life_run k es l2.
Proof.
  revert l1 l2. induction es as [|e es IH]; intros l1 l2 E; [by cbn; f_equal|]. cbn [life_run].
  assert (without_actions <$> life_step k e l1 = without_actions <$> life_step k e l2) as E1.
  { destruct l1 as [ln sv g st acts], l2 as [ln2 sv2 g2 st2 acts2]. unfold without_actions in E. cbn in E. simplify_eq.
    destruct e; cbn; unfold_life; by repeat case_match. }
  destruct (life_step k e l1) as [l1'|], (life_step k e l2) as [l2'|]; try done. cbn in *. apply IH. congruence.
Qed.

(** C40: [Stop] ends [Start].  For the standard HTTP driver, GraphQL, SSE and
    WebSocket servers, whatever happened before: a [Stop] that finds [Start]
    waiting cleans the streams or sessions (SSE and WebSocket only), shuts the
    server down and returns what [Shutdown] returns.  From then on, whatever else
    happens in whatever order (further [Stop]s, the end of [Start]'s context), the
    server's goroutines take at most two more steps, one of them can be taken as
    long as [Start] still waits, and [Start] returns nil, or the listener's error
    if that was reported before the [Stop], or, if its context ended too, what its
    own [Shutdown] returns.  A [Stop] that finds no server, because [Start] was not
    called or has not made it yet, returns nil, and only cleans: nothing for the
    standard driver and GraphQL, the streams or sessions of SSE and WebSocket;
    every later run is as if it had not been called, and a [Start] begun
    afterwards serves. *)
Theorem server_stop_ends_start k es l r :
  life_run k es new_life = Some l ->
  (l_start l = SWaiting ->
     fst (Stop k r l) = r /\ l_actions (snd (Stop k r l)) = l_actions l ++ clean_actions k ++ [AShutdown] /\
     forall es' l', life_run k es' (snd (Stop k r l)) = Some l' ->
       (length (filter own_step es') <= 2)%nat /\
       (l_start l' = SWaiting -> exists e l'', own_step e = true /\ life_step k e l' = Some l'') /\
       (forall res, l_start l' = SReturned res ->
          res = None \/ (exists err, l_go l = Some (GReported (Some err)) /\ res = Some err) \/ LCancelled res ∈ es')) /\
  (l_server l = None ->
     fst (Stop k r l) = None /\ l_actions (snd (Stop k r l)) = l_actions l ++ clean_actions k /\
     (forall es', without_actions <$> life_run k es' (snd (Stop k r l)) = without_actions <$> life_run k es' l) /\
     (l_start l = SNotCalled -> forall addr, exists l', life_run k [LStart (inl addr); LServe] (snd (Stop k r l)) = Some l' /\
        l_start l' = SWaiting /\ l_server l' = Some false /\ l_go l' = Some GServing)).
Proof.
  intros Hrun. assert (life_ok l) as Hok by (eapply life_run_ok; [|exact Hrun]; done). split.
  - intros Hw. unfold life_ok in Hok. rewrite Hw in Hok. destruct Hok as (b&Hs&Hg).
    set (l1 := snd (Stop k r l)).
    assert (life_run k [LStopClean; LStopShutdown r] l = Some l1) as Hstop by reflexivity.
    assert (told l1 /\ l_start l1 = SWaiting /\ l_go l1 = l_go l) as (Ht&Hw1&Hg1).
    { unfold l1, Stop, told. unfold_life. rewrite Hs. cbn. by rewrite Hw. }
    split; [unfold Stop; unfold_life; by rewrite Hs|].
    split; [unfold l1, Stop; unfold_life; rewrite Hs; cbn; by rewrite <- (assoc app)|].
    intros es' l' Hrun'. destruct (told_run k es' l1 l' Ht Hrun') as [[Hs' _] Hn]. split; [|split].
    + revert Hn. unfold own_left at 2. repeat case_match; lia.
    + intros Hw'. assert (life_ok l') as Hok' by (eapply life_run_ok, Hrun'; eapply life_run_ok, Hstop; eapply life_run_ok, Hrun; done).
      unfold life_ok in Hok'. rewrite Hw', Hs' in Hok'. destruct Hok' as (b'&_&[Hg'|Hg']).
      * exists LServeClosed. eexists. split; [done|]. cbn. unfold Serve_closed. by rewrite Hg', Hs'.
      * assert (exists x, l_go l' = Some (GReported x)) as [x Hx] by naive_solver.
        exists LReport. eexists. split; [done|]. cbn. unfold Start_report. by rewrite Hw', Hx.
    + intros res Hr. rewrite <- Hg1. by apply (told_result k es' l1 l').
  - intros Hs.
    assert (Stop k r l = (None, Stop_clean k l)) as -> by (unfold Stop; unfold_life; by rewrite Hs). cbn [fst snd].
    repeat split; [|intros Hn addr; eexists; cbn; unfold_life; rewrite Hn; cbn; eauto].
    intros es'. by apply run_without_actions.
Qed.

(** A WebSocket server stopped before it starts, then started and stopped. *)
Lemma server_stop_ends_start_witness :
  exists l0 l, life_run WebSocket [] new_life = Some l0 /\ fst (Stop WebSocket None l0) = None /\
    life_run WebSocket [LStopClean; LStopShutdown None; LStart (inl (chars "[::]:80")); LServe] new_life = Some l /\ l_start l = SWaiting /\
    exists l', life_run WebSocket [LServeClosed; LReport] (snd (Stop WebSocket None l)) = Some l' /\ l_start l' = SReturned None /\
      l_actions l' = [ACleaned; ACleaned; AShutdown] /\
      forall es' l'', life_run WebSocket es' (snd (Stop WebSocket None l)) = Some l'' -> (length (filter own_step es') <= 2)%nat.
Proof.
  set (l := default new_life (life_run WebSocket [LStopClean; LStopShutdown None; LStart (inl (chars "[::]:80")); LServe] new_life)).
  assert (life_run WebSocket [LStopClean; LStopShutdown None; LStart (inl (chars "[::]:80")); LServe] new_life = Some l) as Hrun by reflexivity.
  exists new_life, l. split; [reflexivity|].
  split; [exact (proj1 (proj2 (server_stop_ends_start WebSocket [] new_life None eq_refl) eq_refl))|].
  split; [exact Hrun|]. split; [reflexivity|]. eexists. split; [reflexivity|]. split; [reflexivity|]. split; [reflexivity|].
  intros es' l'' H. exact (proj1 (proj2 (proj2 (proj1 (server_stop_ends_start WebSocket _ l None Hrun) eq_refl)) es' l'' H)).
Defined.

(** SignalR's [Start] returns when its context ends and for no other reason:
    neither [Stop] nor the end of the serving goroutine, an error included, ends
    it.  A [Stop] of a listener already closed reports it. *)
Lemma signalr_start_waits e b b' :
  b_start b = SWaiting -> signalr_step e b = Some b' -> (b_start b' <> SWaiting <-> e = BCancelled) /\
  (b_lis b = LisClosed -> is_Some (fst (signalr_Stop b))).
Proof.
  intros Hw. unfold signalr_Stop. destruct b as [l g st]. cbn in *. subst st.
  destruct e; cbn; unfold blocking_begin, blocking_served, blocking_cancelled, signalr_Stop; cbn; intros H;
    repeat case_match; simplify_eq/=; naive_solver.
Qed.

(** ** gRPC *)

Section grpc_facts.
Context {I : Type}.
Implicit Types (s : Server I).

(** The interceptors a gRPC server runs are those registered before its
    first [RegisterService] (or [Start]): an interceptor added afterwards, though
    still before [Start], is never called. *)
Theorem grpc_interceptors_frozen sd us ms s :
  server s = None ->
  gs_unary <$> grpc_Start_server (Use us (UseStream ms s)) = Some (middlewares s ++ us) /\
  gs_unary <$> grpc_Start_server (Use us (UseStream ms (RegisterService sd s))) = Some (middlewares s) /\
  gs_stream <$> grpc_Start_server (Use us (UseStream ms (RegisterService sd s))) = Some (streamMiddleware s).
Proof. intros H. unfold grpc_Start_server, ensureServer, RegisterService, Use, UseStream, ensureServer. cbn. by rewrite H. Qed.
End grpc_facts.
