(* ===== verification/HttpCircuitBreaker.v ===== *)
(** [transport/http/middleware/circuitbreaker]: the middleware that guards a
    handler with a circuit breaker, proved against the [CircuitBreaker]
    interface and then used with the Hystrix breaker. *)
From Stdlib Require Import ZArith Lia.
From S2P Require Import Prelude GoTime GoErrors CircuitBreaker Hystrix Http.
From stdpp Require Import base gmap strings list fin_maps.
Open Scope string_scope.
Open Scope list_scope.
Open Scope Z_scope.

(** [type options struct]; a nil [failureStatus] is [None]. *)
Record options W := mkOptions {
  failureStatus : option (gset Z);
  errorHandler : error -> Handler W;
  skipFunc : option (Request -> bool)
}.
Arguments mkOptions {W}.
Arguments failureStatus {W}.
Arguments errorHandler {W}.
Arguments skipFunc {W}.

(** [func defaultErrorHandler] *)
Definition defaultErrorHandler {W} : error -> Handler W := fun _ _ w =>
  serve w (http_Error "Service Unavailable" 503).

Definition WithFailureStatus {W} (codes : list Z) : options W -> options W := fun o =>
  mkOptions (Some (list_to_set codes)) (errorHandler o) (skipFunc o).
Definition WithErrorHandler {W} (h : error -> Handler W) : options W -> options W := fun o =>
  mkOptions (failureStatus o) h (skipFunc o).
Definition WithSkipFunc {W} (f : Request -> bool) : options W -> options W := fun o =>
  mkOptions (failureStatus o) (errorHandler o) (Some f).

Definition defaultOptions {W} : options W := mkOptions None defaultErrorHandler None.

(** [isFailure := func(statusCode int) bool] *)
Definition isFailure {W} (cfg : options W) (statusCode : Z) : bool :=
  match failureStatus cfg with
  | Some codes => bool_decide (statusCode ∈ codes)
  | None => 500 <=? statusCode
  end.

Definition skips {W} (cfg : options W) (r : Request) : bool :=
  match skipFunc cfg with
  | Some f => f r
  | None => false
  end.

(** [type statusRecorder struct] and its [WriteHeader]: the calls of [m] on a
    recorder over the real writer, with the recorded status. *)
Fixpoint statusRecorder {A} (status : Z) (m : io A) : io (A * Z) :=
  match m with
  | Ret a => Ret (a, status)
  | HeaderMap f k => HeaderMap f (statusRecorder status k)
  | HeaderGet k => HeaderGet (fun h => statusRecorder status (k h))
  | WriteHeader c k => WriteHeader c (statusRecorder c k)
  | Write b k => Write b (fun r => statusRecorder status (k r))
  end.

(** The guarded part shared by both middlewares, given the breaker's methods. *)
Definition guard {W} (cfg : options W) (allow : Go W (option error)) (markSuccess markFailure : Go W unit)
    (next : Handler W) : Handler W := fun r w =>
  call allow w (fun err w =>
    match err with
    | Some e => errorHandler cfg e r w
    | None =>
        '((res, w), status) ← statusRecorder 200 (next r w);
        match res with
        | Panicked => mret (Panicked, w)
        | Returned _ =>
            call (if isFailure cfg status then markFailure else markSuccess) w
              (fun _ w => mret (Returned tt, w))
        end
    end).

(** [func Middleware(cb circuitbreaker.CircuitBreaker, opts ...Option)] *)
Definition Middleware {W} `{CircuitBreaker W} (opts : list (options W -> options W)) : Http.Middleware W :=
  let cfg := apply_opts opts defaultOptions in
  fun next r w =>
    if skips cfg r then next r w
    else guard cfg cb_Allow cb_MarkSuccess cb_MarkFailure next r w.

(** The keyed variant: the map of breakers [breakers] beside the world; each
    breaker's methods act on its own state and the world. *)
Section keyed.
Context {B W : Type} `{CircuitBreaker (B * W)} (factory : string -> Go W B).

(** [getBreaker := func(key string)]: the breaker of a key, created on its first
    use. *)
Definition getBreaker (key : string) : Go (gmap string B * W) B := fun '(m, w) =>
  match m !! key with
  | Some cb => (Returned cb, (m, w))
  | None =>
      match factory key w with
      | (Returned cb, w') => (Returned cb, (<[key := cb]> m, w'))
      | (Panicked, w') => (Panicked, (m, w'))
      end
  end.

(** A method call on the breaker of [key]. *)
Definition at_key {A} (key : string) (op : Go (B * W) A) : Go (gmap string B * W) A := fun s =>
  match getBreaker key s with
  | (Returned cb, (m, w)) => let '(res, (cb', w')) := op (cb, w) in (res, (<[key := cb']> m, w'))
  | (Panicked, s') => (Panicked, s')
  end.

(** [func MiddlewareKeyed(keyFn KeyFunc, factory BreakerFactory, opts ...Option)] *)
Definition MiddlewareKeyed (keyFn : Request -> string) (opts : list (options (gmap string B * W) -> options (gmap string B * W)))
    : Http.Middleware (gmap string B * W) :=
  let cfg := apply_opts opts defaultOptions in
  fun next r w =>
    if skips cfg r then next r w
    else
      let key := keyFn r in
      guard cfg (at_key key cb_Allow) (at_key key cb_MarkSuccess) (at_key key cb_MarkFailure) next r w.
End keyed.

(** * The recorder *)

(** What the client is told: the sent status, or 200 when nothing was sent. *)
Definition client_status (r : Response) : Z := match sent r with Some (c, _) => c | None => 200 end.

(** Handlers that send one final status at most, before any body byte. *)
Inductive writes_once {A} : bool -> io A -> Prop :=
| once_ret started a : writes_once started (Ret a)
| once_map started f k : writes_once started k -> writes_once started (HeaderMap f k)
| once_get started k : (forall h, writes_once started (k h)) -> writes_once started (HeaderGet k)
| once_status c k : 200 <= c -> writes_once true k -> writes_once false (WriteHeader c k)
| once_write started b k : (forall r, writes_once true (k r)) -> writes_once started (Write b k).

Lemma recorder_response {A} (m : io A) status r :
  fst (fst (run (statusRecorder status m) r)) = fst (run m r) /\
  snd (run (statusRecorder status m) r) = snd (run m r).
Proof.
  revert status r. induction m as [a|f k IH|k IH|c k IH|b k IH]; intros status r; simpl; auto.
  destruct (rw_Write b r) as [res r']. apply IH.
Qed.

Lemma rw_Write_sent b r c h : sent r = Some (c, h) -> sent (snd (rw_Write b r)) = Some (c, h).
Proof.
  intros E. unfold rw_Write. rewrite E. destruct (String.eqb b ""); [done|]. rewrite E.
  by destruct (bodyAllowedForStatus c).
Qed.

Lemma rw_Write_fresh b r : sent r = None -> sent (snd (rw_Write b r)) = Some (200, live r).
Proof.
  intros E. unfold rw_Write, rw_WriteHeader. rewrite E. simpl. by destruct (String.eqb b "").
Qed.

Lemma run_sent_kept {A} (m : io A) r c h : sent r = Some (c, h) -> sent (snd (run m r)) = Some (c, h).
Proof.
  revert r. induction m as [a|f k IH|k IH|c' k IH|b k IH]; intros r E; simpl; auto.
  - apply IH. unfold rw_WriteHeader. by rewrite E.
  - pose proof (rw_Write_sent b r c h E) as E'. destruct (rw_Write b r) as [res r']. by apply IH.
Qed.

Lemma recorder_status_started {A} (m : io A) status r :
  writes_once true m -> snd (fst (run (statusRecorder status m) r)) = status.
Proof.
  remember true as started eqn:Es. intros Hm. revert Es r.
  induction Hm as [st a|st f k Hk IH|st k Hk IH|c k Hc Hk IH|st b k Hk IH]; intros Es r; simpl; auto; [done|].
  destruct (rw_Write b r) as [res r']. by apply IH.
Qed.

(** For such handlers the recorded status is the one the client sees. *)
Lemma recorder_status {A} (m : io A) r :
  writes_once false m -> sent r = None ->
  snd (fst (run (statusRecorder 200 m) r)) = client_status (snd (run m r)).
Proof.
  remember false as started eqn:Es. intros Hm. revert Es r.
  induction Hm as [st a|st f k Hk IH|st k Hk IH|c k Hc Hk IH|st b k Hk IH]; intros Es r Hs; subst.
  - simpl. unfold client_status. by rewrite Hs.
  - simpl. by apply IH.
  - simpl. by apply IH.
  - simpl. rewrite recorder_status_started by done.
    assert (rw_WriteHeader c r = mkResponse (live r) (Some (c, live r)) (body r)) as ->.
    { unfold rw_WriteHeader. rewrite Hs. replace (c <=? 199) with false by lia. by rewrite andb_false_r. }
    unfold client_status. by erewrite run_sent_kept.
  - simpl. pose proof (rw_Write_fresh b r Hs) as E. destruct (rw_Write b r) as [res r'] eqn:Ew.
    rewrite recorder_status_started by done. unfold client_status. by erewrite run_sent_kept.
Qed.

(** * Properties *)

(** C10: A request through the circuit-breaker middleware, for any breaker and
    any handler.  Rejected by the breaker: the error handler answers, the next
    handler has no influence and nothing is marked.  Admitted: the client gets
    exactly what the handler wrote; when the handler returned, exactly one mark
    follows, and for a handler that sends its status once it is a failure
    exactly when the status the client saw is a failing one; when it panicked,
    the panic goes on and nothing is marked. *)
Theorem http_breaker_protocol {W} `{CircuitBreaker W} opts (next : Handler W) r w resp :
  let cfg := apply_opts opts defaultOptions in
  skips cfg r = false -> sent resp = None ->
  match cb_Allow w with
  | (Returned (Some e), w1) => run (Middleware opts next r w) resp = run (errorHandler cfg e r w1) resp
  | (Returned None, w1) =>
      let '((res, w2), resp') := run (next r w1) resp in
      snd (run (Middleware opts next r w) resp) = resp' /\
      match res with
      | Panicked => fst (run (Middleware opts next r w) resp) = (Panicked, w2)
      | Returned _ =>
          exists failed : bool,
            fst (run (Middleware opts next r w) resp) = (if failed then cb_MarkFailure else cb_MarkSuccess) w2 /\
            (writes_once false (next r w1) -> failed = isFailure cfg (client_status resp'))
      end
  | (Panicked, w1) => fst (run (Middleware opts next r w) resp) = (Panicked, w1)
  end.
Proof.
  intros cfg Hskip Hsent. unfold Middleware. fold cfg. rewrite Hskip. unfold guard, call.
  destruct (cb_Allow w) as [[[e|]|] w1]; [done| |done].
  pose proof (recorder_response (next r w1) 200 resp) as [H1 H2].
  pose proof (recorder_status (next r w1) resp) as Hst.
  rewrite run_bind. destruct (run (next r w1) resp) as [[res w2] resp']. simpl in Hst.
  destruct (run (statusRecorder 200 (next r w1)) resp) as [[[res' w2'] status] resp'']. simpl in *. simplify_eq.
  destruct res as [[]|]; simpl; [|done].
  split.
  - by destruct (isFailure cfg status); [destruct (cb_MarkFailure w2) as [[]]|destruct (cb_MarkSuccess w2) as [[]]].
  - exists (isFailure cfg status). split; [|intros Ho; by rewrite Hst].
    by destruct (isFailure cfg status); [destruct (cb_MarkFailure w2) as [[[]|]]|destruct (cb_MarkSuccess w2) as [[[]|]]].
Qed.

(** A breaker that admits everything and remembers its marks. *)
#[local] Instance LogBreaker : CircuitBreaker (list bool) := {|
  cb_Allow := mret None;
  cb_MarkSuccess := go_modify (cons true);
  cb_MarkFailure := go_modify (cons false);
  cb_State := mret StateClosed;
  cb_Close := mret None
|}.

Definition bad_gateway : Handler (list bool) := fun _ w => serve w (http_Error "down" 502).

Definition a_get (path : string) : Request := mkRequest "GET" path ∅ [].

Lemma http_breaker_protocol_witness :
  let m := Middleware (H := LogBreaker) [] bad_gateway (a_get "/") [] in
  snd (run m fresh_response) = snd (run (bad_gateway (a_get "/") []) fresh_response) /\
  exists failed : bool,
    fst (run m fresh_response) = (if failed then cb_MarkFailure else cb_MarkSuccess) [] /\
    (writes_once false (bad_gateway (a_get "/") []) ->
     failed = isFailure (W := list bool) defaultOptions (client_status (snd (run (bad_gateway (a_get "/") []) fresh_response)))).
Proof.
  exact (http_breaker_protocol (H := LogBreaker) [] bad_gateway (a_get "/") [] fresh_response eq_refl eq_refl).
Defined.

(** ** With the Hystrix breaker *)
Section hystrix.
Context {W : Type} `{Runtime W}.

(** The responses to a sequence of requests, each with its own handler. *)
Fixpoint serve_all (reqs : list (Handler (Breaker * W) * Request)) (s : Breaker * W) : list Response * (Breaker * W) :=
  match reqs with
  | [] => ([], s)
  | (h, r) :: reqs' =>
      let '((_, s1), resp) := run (Middleware [] h r s) fresh_response in
      let '(resps, s2) := serve_all reqs' s1 in (resp :: resps, s2)
  end.

Lemma rejected_503 (h : Handler (Breaker * W)) r b (w : W) :
  closed b = false -> state b = StateHalfOpen -> halfOpenIn b = true ->
  exists w1 resp, run (Middleware [] h r (b, w)) fresh_response = ((Returned tt, (b, w1)), resp) /\ client_status resp = 503.
Proof.
  intros Hc Hs Hh. unfold Middleware, guard, call. cbn [skips apply_opts fold_left defaultOptions skipFunc].
  change (@cb_Allow (Breaker * W) hystrix_CircuitBreaker) with (@Allow W H). rewrite Allow_eq, Hc.
  destruct (time_Now w) as [now w1]. rewrite Hs, Hh.
  destruct (run_serve_error (b, w1) "Service Unavailable" 503 fresh_response) as (resp & E & Hst & _); [lia..|done|].
  exists w1, resp. split; [exact E|]. unfold client_status. by rewrite Hst.
Qed.

(** A panic during the half-open trial wedges the Hystrix breaker behind the
    middleware: the trial is never marked, so every later request is answered
    503, however long it comes after and whatever its handler would do. *)
Theorem http_hystrix_panic_stuck (h : Handler (Breaker * W)) r b (w : W) reqs :
  closed b = false -> state b = StateHalfOpen -> halfOpenIn b = false ->
  (forall r s resp, let '((res, s'), _) := run (h r s) resp in res = Panicked /\ fst s' = fst s) ->
  let '((res, s1), _) := run (Middleware [] h r (b, w)) fresh_response in
  res = Panicked /\
  Forall (fun resp => client_status resp = 503) (fst (serve_all reqs s1)) /\
  length (fst (serve_all reqs s1)) = length reqs.
Proof.
  intros Hc Hs Hh Hpanic.
  pose proof (http_breaker_protocol [] h r (b, w) fresh_response eq_refl eq_refl) as Hp.
  change (@cb_Allow (Breaker * W) hystrix_CircuitBreaker) with (@Allow W H) in Hp. rewrite Allow_eq, Hc in Hp.
  destruct (time_Now w) as [now w1]. rewrite Hs, Hh in Hp.
  specialize (Hpanic r (set_halfOpenIn true b, w1) fresh_response).
  destruct (run (h r _) fresh_response) as [[res [b2 w2]] resp']. destruct Hpanic as [-> Hb]. simpl in Hb. subst b2.
  destruct (run (Middleware [] h r (b, w)) fresh_response) as [[res1 s1] resp1]. destruct Hp as [_ Hp]. simpl in Hp.
  simplify_eq. split; [done|]. clear -Hc Hs.
  assert (closed (set_halfOpenIn true b) = false /\ state (set_halfOpenIn true b) = StateHalfOpen /\
          halfOpenIn (set_halfOpenIn true b) = true) as Hb by done.
  generalize dependent (set_halfOpenIn true b). intros b1 (Hc1 & Hs1 & Hh1). revert w2.
  induction reqs as [|[h' r'] reqs IH]; intros w2; [by split|]. simpl.
  destruct (rejected_503 h' r' b1 w2 Hc1 Hs1 Hh1) as (w3 & resp & -> & H503).
  specialize (IH w3). destruct (serve_all reqs (b1, w3)) as [resps s2]. simpl in *. destruct IH as [IH1 IH2].
  split; [by constructor|by rewrite IH2].
Qed.
End hystrix.

#[local] Existing Instance TickRuntime.

Lemma http_hystrix_panic_stuck_witness :
  let b := set_state StateHalfOpen tripped in
  let h : Handler (Breaker * Z) := fun _ s => Ret (Panicked, s) in
  let '((res, s1), _) := run (Middleware [] h (a_get "/") (b, 7)) fresh_response in
  res = Panicked /\
  Forall (fun resp => client_status resp = 503) (fst (serve_all [(h, a_get "/a"); (h, a_get "/b")] s1)) /\
  length (fst (serve_all [(h, a_get "/a"); (h, a_get "/b")] s1)) = 2%nat.
Proof.
  apply (http_hystrix_panic_stuck (H := TickRuntime) (fun _ s => Ret (Panicked, s)) (a_get "/")
           (set_state StateHalfOpen tripped) 7 [(fun _ s => Ret (Panicked, s), a_get "/a"); (fun _ s => Ret (Panicked, s), a_get "/b")]);
    try (vm_compute; reflexivity). intros. by split.
Defined.
