(* ===== verification/HttpObserve.v ===== *)
(** [transport/http/middleware/logging], [metrics] and [tracing]: the middlewares that
    observe requests, a module each.

    Loggers and tracers are interfaces of third-party packages, given as records of
    functions on the world; metrics are the interface of [Metrics]. *)
From Stdlib Require Import ZArith Lia.
From S2P Require Import Prelude Float64 GoTime GoErrors GoStrings Http HttpCircuitBreaker Metrics.
From stdpp Require Import base gmap strings list fin_maps.
Open Scope string_scope.
Open Scope list_scope.
Open Scope Z_scope.

(** The fields and methods of [http.Request] that [Http.Request] leaves out. *)
Class RequestFields := {
  RawQuery : Request -> string;
  RemoteAddr : Request -> string;
  RequestURI : Request -> string;
  Host : Request -> string;
  Proto : Request -> string;
  has_TLS : Request -> bool
}.

(** Values of log arguments and span attributes. *)
Inductive arg := AStr (s : string) | AInt (z : Z) | ABool (b : bool) | AStrs (l : list string).

(** [log.Logger], over contexts [C] *)
Record Logger (C W : Type) := mkLogger {
  Debug : C -> string -> list (string * arg) -> Go W unit;
  Info : C -> string -> list (string * arg) -> Go W unit;
  Warn : C -> string -> list (string * arg) -> Go W unit;
  Error : C -> string -> list (string * arg) -> Go W unit
}.
Arguments mkLogger {C W}.
Arguments Debug {C W}.
Arguments Info {C W}.
Arguments Warn {C W}.
Arguments Error {C W}.
Inductive Level := LevelDebug | LevelInfo | LevelWarn | LevelError.

(** [func logAt(l log.Logger, level log.Level, ctx context.Context, msg string, args ...any)] *)
Definition logAt {C W} (l : Logger C W) (level : Level) (ctx : C) (msg : string) (args : list (string * arg)) : Go W unit :=
  match level with
  | LevelDebug => Debug l ctx msg args
  | LevelWarn => Warn l ctx msg args
  | LevelError => Error l ctx msg args
  | _ => Info l ctx msg args
  end.

(** A call deferred to the end of a handler: it runs on a panic too. *)
Definition deferred {W} (m : io (result unit * W)) (d : Go W unit) : io (result unit * W) :=
  x ← m;
  let '(r, w) := d (snd x) in
  mret (match r with Returned _ => fst x | Panicked => Panicked end, w).

Lemma run_deferred {W} (m : io (result unit * W)) (d : Go W unit) resp :
  run (deferred m d) resp =
    let '((r, w), resp') := run m resp in
    let '(r', w') := d w in ((match r' with Returned _ => r | Panicked => Panicked end, w'), resp').
Proof. unfold deferred. rewrite run_bind. destruct (run m resp) as [[r w] resp']. simpl. by destruct (d w). Qed.

(** A handler beside a state it has no part in. *)
Definition beside {W J} (next : Handler W) : Handler (W * J) := fun r '(w, j) =>
  x ← next r w; mret (fst x, (snd x, j)).
Lemma recorder_beside {W J} (m : io (result unit * W)) status resp (j : J) :
  let '(((res, w), st), resp') := run (statusRecorder status m) resp in
  run (statusRecorder status (x ← m; mret (fst x, (snd x, j)))) resp = (((res, (w, j)), st), resp').
Proof.
  revert status resp. induction m as [[res w]|f k IH|k IH|c k IH|b k IH]; intros status resp; try done.
  - apply IH.
  - apply IH.
  - apply IH.
  - cbn. destruct (rw_Write b resp) as [res resp1]. apply IH.
Qed.

#[export] Instance beside_runtime {W J} `{Runtime W} : Runtime (W * J) := {|
  time_Now := fun '(w, j) => let '(t, w) := time_Now w in (t, (w, j));
  rand_Float64 := fun '(w, j) => let '(t, w) := rand_Float64 w in (t, (w, j))
|}.

(** * [logging] *)
Module logging.
Section middleware.
Context {W : Type} `{Runtime W} `{RequestFields}.

Record options := mkOptions { logger : Logger Context W; skipPaths : gset string }.
Definition WithLogger (l : Logger Context W) : options -> options := fun o => mkOptions l (skipPaths o).
Definition WithSkipPaths (paths : list string) : options -> options := fun o => mkOptions (logger o) (skipPaths o ∪ list_to_set paths).

(** [type responseWriter struct]: the calls of [m] on it, with the status and the size *)
Fixpoint responseWriter {A} (status size : Z) (m : io A) : io (A * (Z * Z)) :=
  match m with
  | Ret a => Ret (a, (status, size))
  | HeaderMap f k => HeaderMap f (responseWriter status size k)
  | HeaderGet k => HeaderGet (fun h => responseWriter status size (k h))
  | WriteHeader c k => WriteHeader c (responseWriter c size k)
  | Write b k => Write b (fun r => responseWriter status (add64 size (fst r)) (k r))
  end.

Definition level_of (status : Z) : Level :=
  if 500 <=? status then LevelError else if 400 <=? status then LevelWarn else LevelInfo.
Definition request_args (r : Request) (status size : Z) (latency : Duration) : list (string * arg) :=
  [("method", AStr (Method r)); ("path", AStr (URL_Path r)); ("query", AStr (RawQuery r)); ("status", AInt status);
   ("size", AInt size); ("latency_ms", AInt (Milliseconds latency)); ("remote", AStr (RemoteAddr r))].

(** [func Middleware(opts ...Option) httpPlugin.Middleware], given the default logger *)
Definition Middleware (default : Logger Context W) (opts : list (options -> options)) : Http.Middleware W :=
  let cfg := apply_opts opts (mkOptions default ∅) in
  fun next r w =>
    if decide (URL_Path r ∈ skipPaths cfg) then next r w
    else
      let '(start, w) := time_Now w in
      x ← responseWriter 200 0 (next r w);
      let '((res, w), (status, size)) := x in
      match res with
      | Panicked => mret (Panicked, w)
      | Returned _ =>
          let '(now, w) := time_Now w in
          call (logAt (logger cfg) (level_of status) (req_ctx r) "http request" (request_args r status size (time_sub now start))) w
            (fun _ w => mret (Returned tt, w))
      end.

(** What a write takes is what the body grows by. *)
Lemma rw_Write_length b resp :
  Z.of_nat (String.length (body (snd (rw_Write b resp)))) = Z.of_nat (String.length (body resp)) + fst (fst (rw_Write b resp)).
Proof.
  assert (body (match sent resp with None => rw_WriteHeader 200 resp | Some _ => resp end) = body resp) as Hb.
  { destruct (sent resp); [done|]. unfold rw_WriteHeader. by destruct (sent resp). }
  unfold rw_Write. set (r1 := match sent resp with None => _ | Some _ => _ end) in *. destruct (String.eqb b ""); [simpl; rewrite Hb; lia|].
  destruct (sent r1) as [[code h]|]; [|simpl; rewrite Hb; lia].
  destruct (bodyAllowedForStatus code); simpl; rewrite Hb; [|lia]. rewrite string_length_app. lia.
Qed.

(** The writer changes nothing of the response; its status is the status recorder's,
    and its size the growth of the body. *)
Lemma run_responseWriter {A} (m : io A) : forall status s resp,
  let '((a, st), resp') := run (statusRecorder status m) resp in
  run (responseWriter status (wrap64 s) m) resp =
    ((a, (st, wrap64 (s + Z.of_nat (String.length (body resp')) - Z.of_nat (String.length (body resp))))), resp').
Proof.
  induction m as [a|f k IH|k IH|c k IH|b k IH]; intros status s resp; cbn [statusRecorder responseWriter run].
  - repeat f_equal. lia.
  - apply (IH status s (mkResponse (f (live resp)) (sent resp) (body resp))).
  - apply IH.
  - pose proof (IH c s (rw_WriteHeader c resp)) as Hr. assert (body (rw_WriteHeader c resp) = body resp) as <-; [|exact Hr].
    unfold rw_WriteHeader. destruct (sent resp); [done|]. by destruct (_ && _).
  - pose proof (rw_Write_length b resp) as Hg. destruct (rw_Write b resp) as [res resp1]. simpl in Hg.
    unfold add64. rewrite wrap64_add. pose proof (IH res status (s + fst res) resp1) as Hr.
    destruct (run (statusRecorder status (k res)) resp1) as [[a st] resp']. rewrite Hr.
    match goal with |- ((_, (_, wrap64 ?x)), _) = ((_, (_, wrap64 ?y)), _) => by replace x with y by lia end.
Qed.

(** A request through the logging middleware, for any logger and handler: the client
    gets exactly what the handler wrote; a handler that panics leaves no record, and
    one that returns leaves one, at the level of the recorded status (the one the
    client saw, if it is sent once), with the number of bytes the body grew by. *)
Theorem http_logging default opts (next : Handler W) r w resp :
  let cfg := apply_opts opts (mkOptions default ∅) in
  URL_Path r ∉ skipPaths cfg ->
  let '(start, w0) := time_Now w in
  let '((res, w1), resp1) := run (next r w0) resp in
  match res with
  | Panicked => run (Middleware default opts next r w) resp = ((Panicked, w1), resp1)
  | Returned _ =>
      exists status, (writes_once false (next r w0) -> sent resp = None -> status = client_status resp1) /\
        let '(now, w2) := time_Now w1 in
        run (Middleware default opts next r w) resp =
          (logAt (logger cfg) (level_of status) (req_ctx r) "http request" (request_args r status
             (wrap64 (Z.of_nat (String.length (body resp1)) - Z.of_nat (String.length (body resp)))) (time_sub now start)) w2, resp1)
  end.
Proof.
  intros cfg Hskip. unfold Middleware. fold cfg. rewrite decide_False by done. destruct (time_Now w) as [start w0].
  pose proof (recorder_response (next r w0) 200 resp) as [H1 H2]. pose proof (recorder_status (next r w0) resp) as Hst.
  pose proof (run_responseWriter (next r w0) 200 0 resp) as Hrw. change (wrap64 0) with 0 in Hrw. rewrite run_bind.
  destruct (run (next r w0) resp) as [[res w1] resp1]. destruct (run (statusRecorder 200 (next r w0)) resp) as [[[res' w1'] st] resp'].
  simpl in H1, H2, Hst. injection H1 as -> ->. subst resp'. rewrite Z.add_0_l in Hrw. rewrite Hrw.
  destruct res as [u|]; [|done]. exists st. split; [done|]. destruct (time_Now w1) as [now w2]. unfold call.
  by destruct (logAt _ _ _ _ _ w2) as [[[]|] w3].
Qed.
End middleware.
End logging.

(** * [metrics] *)
Module metrics.
Record options := mkOptions {
  requestCounter : string;
  latencyHistogram : string;
  inFlightGauge : string;
  labelFunc : Request -> Z -> labels_t;
  skipFunc : option (Request -> bool)
}.
Definition WithRequestCounterName (n : string) : options -> options := fun o => mkOptions n (latencyHistogram o) (inFlightGauge o) (labelFunc o) (skipFunc o).
Definition WithLatencyHistogramName (n : string) : options -> options := fun o => mkOptions (requestCounter o) n (inFlightGauge o) (labelFunc o) (skipFunc o).
Definition WithInFlightGaugeName (n : string) : options -> options := fun o => mkOptions (requestCounter o) (latencyHistogram o) n (labelFunc o) (skipFunc o).
Definition WithLabelFunc (f : Request -> Z -> labels_t) : options -> options := fun o => mkOptions (requestCounter o) (latencyHistogram o) (inFlightGauge o) f (skipFunc o).
Definition WithSkipFunc (f : Request -> bool) : options -> options := fun o => mkOptions (requestCounter o) (latencyHistogram o) (inFlightGauge o) (labelFunc o) (Some f).

(** [func defaultLabels(r *http.Request, status int) map[string]string] *)
Definition defaultLabels (r : Request) (status : Z) : labels_t :=
  {["method" := Method r; "path" := URL_Path r; "status" := Itoa status]}.
Definition defaults : options :=
  mkOptions "http_requests_total" "http_request_duration_seconds" "http_requests_in_flight" defaultLabels None.
Definition skips (cfg : options) (r : Request) : bool := match skipFunc cfg with Some f => f r | None => false end.

Section middleware.
Context {W : Type} `{Runtime W}.

(** [func Middleware(m metrics.Metrics, opts ...Option) httpPlugin.Middleware] *)
Definition Middleware (m : Metrics Context W) (opts : list (options -> options)) : Http.Middleware W :=
  let cfg := apply_opts opts defaults in
  fun next r w =>
    if skips cfg r then next r w
    else
      call (Gauge m (req_ctx r) (inFlightGauge cfg) (f_of_Z 1) (labelFunc cfg r 0)) w (fun _ w =>
        deferred
          (let '(start, w) := time_Now w in
           x ← statusRecorder 200 (next r w);
           let '((res, w), status) := x in
           match res with
           | Panicked => mret (Panicked, w)
           | Returned _ =>
               let '(now, w) := time_Now w in
               let latency := Seconds (time_sub now start) in
               let labels := labelFunc cfg r status in
               call (Counter m (req_ctx r) (requestCounter cfg) (f_of_Z 1) labels ;;
                     Histogram m (req_ctx r) (latencyHistogram cfg) latency labels) w (fun _ w => mret (Returned tt, w))
           end)
          (Gauge m (req_ctx r) (inFlightGauge cfg) (f_of_Z 0) (labelFunc cfg r 0))).
End middleware.

(** A sink that keeps what it is told, beside the rest of the world. *)
Abbreviation told W := (W * list (kind * string * float64 * labels_t))%type.
Definition tell {C W} (k : kind) (_ : C) (name : string) (v : float64) (l : labels_t) : Go (told W) unit :=
  go_modify (fun '(w, j) => (w, j ++ [(k, name, v, l)])).
Definition journal {C W} : Metrics C (told W) := mkMetrics (tell KCounter) (tell KHistogram) (tell KGauge).

(** A request through the metrics middleware: the client gets what the handler wrote.
    When the handler returns, the sink is told, in this order: the gauge set to 1, the
    request counted and its latency observed under the labels of its status, the
    gauge set to 0.  When it panics, only the two settings of the gauge: the request
    is not counted. *)
Theorem http_metrics {W} `{Runtime W} opts (next : Handler W) r w j resp :
  let cfg := apply_opts opts defaults in
  skips cfg r = false ->
  let '(start, w0) := time_Now w in
  let '((res, w1), resp1) := run (next r w0) resp in
  let up := (KGauge, inFlightGauge cfg, f_of_Z 1, labelFunc cfg r 0) in
  let down := (KGauge, inFlightGauge cfg, f_of_Z 0, labelFunc cfg r 0) in
  match res with
  | Panicked => run (Middleware journal opts (beside next) r (w, j)) resp = ((Panicked, (w1, j ++ [up; down])), resp1)
  | Returned _ =>
      exists status, (writes_once false (next r w0) -> sent resp = None -> status = client_status resp1) /\
        let '(now, w2) := time_Now w1 in
        let labels := labelFunc cfg r status in
        run (Middleware journal opts (beside next) r (w, j)) resp =
          ((Returned tt, (w2, j ++ [up; (KCounter, requestCounter cfg, f_of_Z 1, labels);
             (KHistogram, latencyHistogram cfg, Seconds (time_sub now start), labels); down])), resp1)
  end.
Proof.
  intros cfg Hskip. destruct (time_Now w) as [start w0] eqn:Enow.
  pose proof (recorder_response (next r w0) 200 resp) as [H1 H2]. pose proof (recorder_status (next r w0) resp) as Hst.
  pose proof (recorder_beside (next r w0) 200 resp (j ++ [(KGauge, inFlightGauge cfg, f_of_Z 1, labelFunc cfg r 0)])) as Hap.
  destruct (run (next r w0) resp) as [[res w1] resp1]. destruct (run (statusRecorder 200 (next r w0)) resp) as [[[res' w1'] st] resp'].
  simpl in H1, H2, Hst. injection H1 as -> ->. subst resp'. unfold Middleware. fold cfg. rewrite Hskip.
  cbn -[deferred statusRecorder run beside f_of_Z Seconds]. rewrite run_deferred, Enow, run_bind. unfold beside. rewrite Hap. destruct res as [u|]; cbn -[f_of_Z Seconds].
  - exists st. split; [done|]. destruct (time_Now w1) as [now w2]. unfold call, mbind, Go_bind. cbn -[f_of_Z Seconds]. by rewrite <- !app_assoc.
  - by rewrite <- app_assoc.
Qed.

(** The in-flight gauge does not count: with a request served while another one is
    (here, called by its handler), it goes 1, 1, 0, 0, and reads 0 while the first is
    still in flight. *)
#[local] Instance still : Runtime unit := {| time_Now _ := (zeroTime, tt); rand_Float64 _ := (f_of_Z 0, tt) |}.
Definition gauge_settings {W} (x : told W) : list float64 :=
  omap (fun '(k, _, v, _) => if decide (k = KGauge) then Some v else None) (snd x).
Example gauge_forgets_requests :
  let rq := mkRequest "GET" "/" ∅ [] in
  let idle : Handler (told unit) := fun _ w => mret (Returned tt, w) in
  let busy : Handler (told unit) := Middleware journal [] idle in
  let '((_, w), _) := run (Middleware journal [] busy rq (tt, [])) fresh_response in
  gauge_settings w = [f_of_Z 1; f_of_Z 1; f_of_Z 0; f_of_Z 0].
Proof. vm_compute. reflexivity. Qed.

(** With the OpenTelemetry provider, which adds, the gauge grows by one with every
    request, for ever: after two it reads 2, with none in flight. *)
Definition otel_world := (gmap (kind * string) nat * OtelView)%type.
#[local] Instance otel_still : Runtime otel_world := {| time_Now w := (zeroTime, w); rand_Float64 w := (f_of_Z 0, w) |}.
Example otel_in_flight_grows :
  let rq := mkRequest "GET" "/" ∅ [] in
  let idle : Handler otel_world := fun _ w => mret (Returned tt, w) in
  let serve w := snd (fst (run (Middleware (OTel.metrics (H := OtelSample.otel)) [] idle rq w) fresh_response)) in
  let '(p, v) := serve (serve (∅, mkOtelView ∅ ∅)) in
  OTel.reading p v "http_requests_in_flight" (defaultLabels rq 0) = f_of_Z 2.
Proof. vm_compute. reflexivity. Qed.
End metrics.

(** * Spans *)

Inductive SpanKind := SpanKindInternal | SpanKindServer | SpanKindClient | SpanKindProducer | SpanKindConsumer.

(** [trace.Tracer] and [trace.Span]; the one status the sources set is [Error] *)
Record Tracer (C Sp W : Type) := mkTracer {
  Start : C -> string -> SpanKind -> list (string * arg) -> Go W (C * Sp);
  SetAttributes : Sp -> list (string * arg) -> Go W unit;
  SetError : Sp -> string -> Go W unit;
  End_ : Sp -> Go W unit;
  IsRecording : Sp -> Go W bool
}.
Arguments mkTracer {C Sp W}.
Arguments Start {C Sp W}.
Arguments SetAttributes {C Sp W}.
Arguments SetError {C Sp W}.
Arguments End_ {C Sp W}.
Arguments IsRecording {C Sp W}.

(** [propagation.TextMapPropagator]: [Extract] reads a carrier, [Inject] sets keys of
    one, in order. *)
Record Propagator (C : Type) := mkPropagator {
  Extract : C -> (string -> string) -> list string -> C;
  Inject : C -> list (string * string)
}.
Arguments mkPropagator {C}.
Arguments Extract {C}.
Arguments Inject {C}.

(** [span.End()] and the like, deferred to the end of a call: it runs on a panic too. *)
Definition go_deferred {W A} (m : Go W A) (d : Go W unit) : Go W A := fun w =>
  let '(r, w) := m w in
  let '(r', w) := d w in
  (match r' with Returned _ => r | Panicked => Panicked end, w).

(** A tracer that numbers its spans and keeps what happens to them. *)
Inductive span_event :=
| EStart (id : nat) (name : string) (k : SpanKind) (attrs : list (string * arg))
| EAttributes (id : nat) (attrs : list (string * arg))
| EError (id : nat) (msg : string)
| EEnd (id : nat).
Definition is_end (id : nat) (e : span_event) : bool := match e with EEnd i => (i =? id)%nat | _ => false end.
Abbreviation traced W := (W * list span_event)%type.
Definition trace_event {W} (e : span_event) : Go (traced W) unit := go_modify (fun '(w, es) => (w, es ++ [e])).
Definition recorder {C W} (mark : nat -> C -> C) : Tracer C nat (traced W) := mkTracer
  (fun ctx name k attrs '(w, es) =>
     let id := length es in (Returned (mark id ctx, id), (w, es ++ [EStart id name k attrs])))
  (fun id attrs => trace_event (EAttributes id attrs))
  (fun id msg => trace_event (EError id msg))
  (fun id => trace_event (EEnd id))
  (fun id '(w, es) => (Returned (negb (existsb (is_end id) es)), (w, es))).

(** * [tracing] *)
Module tracing.

(** [http.StatusText] of the codes from 500 on *)
Definition StatusText (code : Z) : string :=
  default "" ((list_to_map [(500, "Internal Server Error"); (501, "Not Implemented"); (502, "Bad Gateway");
    (503, "Service Unavailable"); (504, "Gateway Timeout"); (505, "HTTP Version Not Supported");
    (506, "Variant Also Negotiates"); (507, "Insufficient Storage"); (508, "Loop Detected"); (510, "Not Extended");
    (511, "Network Authentication Required")] : gmap Z string) !! code).

Section middleware.
Context {Sp W : Type} `{RequestFields}.

(** [type options struct]; of the propagator, its [Extract] *)
Record options := mkOptions { tracer : Tracer Context Sp W; propagators : Context -> Header -> Context }.
Definition WithTracer (t : Tracer Context Sp W) : options -> options := fun o => mkOptions t (propagators o).
Definition WithPropagators (p : Context -> Header -> Context) : options -> options := fun o => mkOptions (tracer o) p.

(** [func requestScheme(r *http.Request) string] *)
Definition requestScheme (r : Request) : string := if has_TLS r then "https" else "http".

Definition request_attrs (r : Request) : list (string * arg) :=
  [("http.method", AStr (Method r)); ("http.target", AStr (RequestURI r)); ("http.host", AStr (Host r));
   ("http.scheme", AStr (requestScheme r)); ("http.flavor", AStr (Proto r)); ("net.peer.name", AStr (RemoteAddr r))].

(** [func Middleware(opts ...Option) httpPlugin.Middleware], given the global tracer and
    propagator *)
Definition Middleware (global : options) (opts : list (options -> options)) : Http.Middleware W :=
  let cfg := apply_opts opts global in
  fun next r w =>
    let ctx := propagators cfg (req_ctx r) (req_Header r) in
    call (Start (tracer cfg) ctx (Method r ++ " " ++ URL_Path r) SpanKindServer (request_attrs r)) w (fun '(ctx, span) w =>
      deferred
        (x ← statusRecorder 200 (next (WithContext ctx r) w);
         let '((res, w), status) := x in
         match res with
         | Panicked => mret (Panicked, w)
         | Returned _ =>
             call (SetAttributes (tracer cfg) span [("http.status_code", AInt status)] ;;
                   if 500 <=? status then SetError (tracer cfg) span (StatusText status) else mret tt) w
               (fun _ w => mret (Returned tt, w))
         end)
        (End_ (tracer cfg) span)).
End middleware.

(** A request through the tracing middleware makes one span, which is ended once and
    last, whether the handler returns or panics; the handler runs in the span's
    context, under the parent that the headers carry; the span gets the recorded
    status, and is an error exactly from 500 on; the client gets what the handler
    wrote. *)
Theorem http_tracing {W} `{RequestFields} mark extract (next : Handler W) r w es resp :
  let global := mkOptions (recorder mark) extract in
  let id := length es in
  let started := EStart id (Method r ++ " " ++ URL_Path r) SpanKindServer (request_attrs r) in
  let r' := WithContext (mark id (extract (req_ctx r) (req_Header r))) r in
  let '((res, w1), resp1) := run (next r' w) resp in
  match res with
  | Panicked => run (Middleware global [] (beside next) r (w, es)) resp = ((Panicked, (w1, es ++ [started; EEnd id])), resp1)
  | Returned _ =>
      exists status, (writes_once false (next r' w) -> sent resp = None -> status = client_status resp1) /\
        run (Middleware global [] (beside next) r (w, es)) resp =
          ((Returned tt, (w1, es ++ [started; EAttributes id [("http.status_code", AInt status)]] ++
             (if 500 <=? status then [EError id (StatusText status)] else []) ++ [EEnd id])), resp1)
  end.
Proof.
  intros global id started r'.
  pose proof (recorder_response (next r' w) 200 resp) as [H1 H2]. pose proof (recorder_status (next r' w) resp) as Hst.
  pose proof (recorder_beside (next r' w) 200 resp (es ++ [started])) as Hap.
  destruct (run (next r' w) resp) as [[res w1] resp1]. destruct (run (statusRecorder 200 (next r' w)) resp) as [[[res' w1'] st] resp'].
  simpl in H1, H2, Hst. injection H1 as -> ->. subst resp'. unfold Middleware.
  cbn -[deferred statusRecorder run beside StatusText]. fold id started. fold r'.
  rewrite run_deferred, run_bind. unfold beside. rewrite Hap. destruct res as [u|]; cbn -[StatusText Z.leb].
  - exists st. split; [done|]. unfold call, mbind, Go_bind. cbn -[StatusText Z.leb]. destruct (500 <=? st); cbn -[StatusText]; by rewrite <- !app_assoc.
  - by rewrite <- app_assoc.
Qed.
End tracing.
