(* ===== verification/Http3.v ===== *)
(** [transport/http3]: the server and its chains, routers and groups, the pooled
    request contexts, the response helpers, and the binding of query values to structs.

    [gorilla/mux] and quic-go are third-party: what serves the registered routes, and
    the listener, are parameters.  Encoders of the standard library are functions on
    an abstract type of values. *)
From Stdlib Require Import ZArith Lia Ascii.
From S2P Require Import Prelude Float64 GoTime GoErrors GoStrings Http HttpCircuitBreaker.
From stdpp Require Import base gmap strings list fin_maps.
Open Scope string_scope.
Open Scope list_scope.
Open Scope Z_scope.

(** * [path.Join] *)

(** [path.Clean] on the elements of a path: the stack is kept reversed; [..] removes
    the last element, is dropped at the root and kept at the start of other paths. *)
Definition clean_step (rooted : bool) (stack : list string) (c : string) : list string :=
  if String.eqb c "" || String.eqb c "." then stack
  else if String.eqb c ".." then
    match stack with
    | [] => if rooted then [] else [".."]
    | top :: below => if String.eqb top ".." then ".." :: stack else below
    end
  else c :: stack.
Definition clean_elements (rooted : bool) (cs : list string) : list string := rev (fold_left (clean_step rooted) cs []).

Fixpoint join_slash (cs : list string) : string :=
  match cs with
  | [] => ""
  | [c] => c
  | c :: cs' => c ++ "/" ++ join_slash cs'
  end.
Definition is_rooted (s : string) : bool := String.prefix "/" s.
Definition Clean (s : string) : string :=
  let cs := clean_elements (is_rooted s) (Split s "/") in
  if is_rooted s then "/" ++ join_slash cs
  else match cs with [] => "." | _ => join_slash cs end.

(** [path.Join(elem...)]: elements that are empty are left out. *)
Definition Join (elems : list string) : string :=
  match List.filter (fun e => negb (String.eqb e "")) elems with
  | [] => ""
  | es => Clean (join_slash es)
  end.

(** ** Joining is associative *)

(** A stack that cleaning can leave: cleaning it again gives it back. *)
Definition normal (rooted : bool) (st : list string) : Prop :=
  fold_left (clean_step rooted) (rev st) [] = st /\ Forall (fun c => c <> "" /\ c <> "." /\ lacks "/" c = true) st.

Lemma normal_step rooted st c : normal rooted st -> lacks "/" c = true -> normal rooted (clean_step rooted st c).
Proof.
  intros [Hf Hs] Hc.
  assert (forall c, c <> "" -> c <> "." -> lacks "/" c = true -> clean_step rooted st c = c :: st -> normal rooted (c :: st)) as Hpush.
  { intros c' H1 H2 H3 Hstep. split; [|by constructor]. cbn [rev]. rewrite fold_left_app, Hf. exact Hstep. }
  unfold clean_step. destruct (String.eqb_spec c "") as [|H1]; [done|]. destruct (String.eqb_spec c ".") as [|H2]; [done|]. cbn [orb].
  destruct (String.eqb_spec c "..") as [->|H3].
  - destruct st as [|top below]; [destruct rooted; [done|by apply Hpush]|].
    destruct (String.eqb_spec top "..") as [->|Ht]; [by apply Hpush|].
    apply Forall_cons in Hs as [(Ht1&Ht2&Ht3) Hs]. split; [|done]. cbn [rev] in Hf. rewrite fold_left_app in Hf. cbn [fold_left] in Hf.
    unfold clean_step in Hf at 1. apply String.eqb_neq in Ht1, Ht2, Ht. rewrite Ht1, Ht2, Ht in Hf. cbn [orb] in Hf. congruence.
  - apply Hpush; [done..|]. unfold clean_step. apply String.eqb_neq in H1, H2, H3. by rewrite H1, H2, H3.
Qed.
Lemma normal_fold rooted cs : Forall (fun c => lacks "/" c = true) cs -> normal rooted (fold_left (clean_step rooted) cs []).
Proof.
  induction cs as [|c cs IH] using rev_ind; intros Hl; [by split|]. apply Forall_app in Hl as [H1 H2].
  rewrite fold_left_app. cbn. apply Forall_cons in H2 as [H2 _]. by apply normal_step; [apply IH|].
Qed.

Lemma split_join_slash c cs : Forall (fun c => lacks "/" c = true) (c :: cs) -> split_char "/" (join_slash (c :: cs)) = c :: cs.
Proof.
  revert c. induction cs as [|c' cs IH]; intros c [Hc Hcs]%Forall_cons; [by apply split_char_lacking|].
  change (join_slash (c :: c' :: cs)) with (c ++ String "/" (join_slash (c' :: cs)))%string. rewrite split_char_cut by done. by rewrite IH.
Qed.

(** The elements of a cleaned path clean to the same stack. *)
Lemma Clean_elements s :
  fold_left (clean_step (is_rooted s)) (split_char "/" (Clean s)) [] = fold_left (clean_step (is_rooted s)) (split_char "/" s) [] /\
  (s <> "" -> is_rooted (Clean s) = is_rooted s /\ Clean s <> "").
Proof.
  unfold Clean, clean_elements. rewrite Split_char. set (st := fold_left _ (split_char "/" s) []).
  assert (normal (is_rooted s) st) as [Hf Hs] by apply normal_fold, split_char_parts.
  assert (Forall (fun c => lacks "/" c = true) (rev st)) as Hl.
  { apply Forall_rev. eapply Forall_impl; [exact Hs|]. by intros x (_&_&?). }
  destruct (is_rooted s) eqn:Er.
  - split; [|by intros _; split; [cbn; by destruct (join_slash (rev st))|]]. change ("/" ++ join_slash (rev st))%string with ("" ++ String "/" (join_slash (rev st)))%string.
    rewrite split_char_cut by done. cbn [fold_left]. destruct (rev st) as [|c cs] eqn:E; [cbn in *; congruence|].
    rewrite split_join_slash by done. exact Hf.
  - destruct (rev st) as [|c cs] eqn:E; [cbn in *; split; [congruence|done]|]. rewrite split_join_slash by done. split; [exact Hf|]. intros _.
    assert (c <> "" /\ lacks "/" c = true) as [Hc1 Hc2].
    { assert (c ∈ st) as Hin by (apply list_elem_of_In, in_rev; rewrite E; by left).
      rewrite Forall_forall in Hs. by destruct (Hs c Hin) as (?&_&?). }
    destruct c as [|x c]; [done|]. simpl in Hc2. apply andb_true_iff in Hc2 as [Hx _]. apply negb_true_iff in Hx.
    assert (forall r, is_rooted (String x r) = false) as Hroot.
    { intros r. unfold is_rooted. by apply prefix_other. }
    destruct cs; cbn [join_slash]; (split; [|done]); [apply Hroot|]. apply (Hroot (c ++ _)%string).
Qed.
Lemma Clean_ext s s' :
  is_rooted s = is_rooted s' ->
  fold_left (clean_step (is_rooted s)) (split_char "/" s) [] = fold_left (clean_step (is_rooted s)) (split_char "/" s') [] ->
  Clean s = Clean s'.
Proof. intros Hr Hf. unfold Clean, clean_elements. by rewrite !Split_char, <- Hr, Hf. Qed.

Lemma is_rooted_app x y : x <> "" -> is_rooted (x ++ y) = is_rooted x.
Proof. destruct x as [|a x]; [done|]. intros _. unfold is_rooted. change (String a x ++ y)%string with (String a (x ++ y)). cbn [String.prefix]. destruct (ascii_dec "/" a); [|done]. by destruct (x ++ y)%string, x. Qed.

Lemma Clean_Clean x : x <> "" -> Clean (Clean x) = Clean x.
Proof. intros Hx. destruct (Clean_elements x) as [Hf H]. destruct (H Hx) as [Hr _]. apply Clean_ext; [done|]. by rewrite Hr. Qed.
Lemma Clean_under x y : x <> "" -> Clean (Clean x ++ "/" ++ y) = Clean (x ++ "/" ++ y).
Proof.
  intros Hx. destruct (Clean_elements x) as [Hf H]. destruct (H Hx) as [Hr Hne].
  apply Clean_ext; rewrite !is_rooted_app by done; [done|]. rewrite Hr.
  change ("/" ++ y)%string with (String "/" y). by rewrite !split_char_app, !fold_left_app, Hf.
Qed.

Lemma app_slash_ne a b : (a ++ "/" ++ b)%string <> "".
Proof. intros E. by destruct a. Qed.
Lemma Join_Join a b cs : a <> "" -> Join (Join [a; b] :: cs) = Join (a :: b :: cs).
Proof.
  intros Ha. apply String.eqb_neq in Ha as Hab. unfold Join at 2. cbn [List.filter]. rewrite Hab. cbn [negb].
  assert (forall x ys, x <> "" -> Join (Clean x :: ys) = Join (x :: ys)) as Hgo.
  { intros x ys Hx. unfold Join. cbn [List.filter]. destruct (Clean_elements x) as [_ H]. destruct (H Hx) as [_ Hne].
    apply String.eqb_neq in Hne, Hx as Hx'. rewrite Hne, Hx'. cbn [negb].
    destruct (List.filter _ ys) as [|y ys']; [by apply Clean_Clean|]. by apply Clean_under. }
  destruct (String.eqb_spec b "") as [->|Hb]; cbn [negb].
  - cbn [join_slash]. rewrite Hgo by done. unfold Join. cbn [List.filter]. rewrite Hab. done.
  - cbn [join_slash]. rewrite Hgo by apply app_slash_ne. unfold Join. cbn [List.filter]. rewrite Hab. apply String.eqb_neq in Hb. rewrite Hb. cbn [negb].
    assert (String.eqb (a ++ "/" ++ b) "" = false) as -> by apply String.eqb_neq, app_slash_ne. cbn [negb].
    destruct (List.filter _ cs) as [|y ys]; [done|]. change (join_slash (?u :: y :: ys)) with (u ++ "/" ++ join_slash (y :: ys))%string.
    change (join_slash (a :: b :: y :: ys)) with (a ++ "/" ++ b ++ "/" ++ join_slash (y :: ys))%string. by rewrite !string_app_assoc.
Qed.
(** * [types.go]: chains *)

(** [func FilterChain(filters ...FilterFunc) FilterFunc]; [func ChainHandler] is the same
    loop on another type of handlers. *)
Fixpoint chain_from {H : Type} (ms : list (H -> H)) (n : nat) (next : H) : H :=
  match n with
  | O => next
  | S i => match ms !! i with Some m => chain_from ms i (m next) | None => next end
  end.
Definition FilterChain {W} (filters : list (Http.Middleware W)) : Http.Middleware W := fun next => chain_from filters (length filters) next.
Definition ChainHandler {H : Type} (ms : list (H -> H)) : H -> H := fun next => chain_from ms (length ms) next.

Lemma chain_from_app {H} (ms ms' : list (H -> H)) n next : (n <= length ms)%nat -> chain_from (ms ++ ms') n next = chain_from ms n next.
Proof.
  revert next. induction n as [|n IH]; intros next Hn; [done|]. cbn. rewrite lookup_app_l by lia.
  destruct (ms !! n); [apply IH; lia|done].
Qed.
Lemma chain_foldr {H} (ms : list (H -> H)) : forall next, ChainHandler ms next = foldr (fun m h => m h) next ms.
Proof.
  unfold ChainHandler. induction ms as [|m ms IH] using rev_ind; intros next; [done|].
  rewrite length_app, Nat.add_1_r. cbn. rewrite lookup_app_r, Nat.sub_diag by lia. cbn.
  rewrite chain_from_app by lia. by rewrite IH, foldr_app.
Qed.
Lemma filter_foldr {W} (fs : list (Http.Middleware W)) next : FilterChain fs next = foldr (fun m h => m h) next fs.
Proof. apply (chain_foldr fs next). Qed.

(** * [server.go], [router.go] *)
Section server.
Context {W : Type}.

(** [type Server struct].  Its handler reads the timeout and the routes when a request
    is served. *)
Record Server := mkServer {
  Addr : string;
  has_tls : bool;
  timeout : Duration;
  filters : list (Http.Middleware W);
  middlewares : list (Http.Middleware W);
  ene : Request -> error -> io (option error);
  strictSlash : bool;
  Handler_ : Duration -> list (string * string * Http.Handler W) -> Http.Handler W;
  routes : list (string * string * Http.Handler W)
}.
Implicit Types s : Server.

Definition WithTLSConfig (given : bool) : Server -> Server := fun s =>
  mkServer (Addr s) given (timeout s) (filters s) (middlewares s) (ene s) (strictSlash s) (Handler_ s) (routes s).
Definition WithAddress (a : string) : Server -> Server := fun s =>
  mkServer a (has_tls s) (timeout s) (filters s) (middlewares s) (ene s) (strictSlash s) (Handler_ s) (routes s).
Definition WithTimeout (d : Duration) : Server -> Server := fun s =>
  mkServer (Addr s) (has_tls s) d (filters s) (middlewares s) (ene s) (strictSlash s) (Handler_ s) (routes s).
Definition WithFilter (fs : list (Http.Middleware W)) : Server -> Server := fun s =>
  mkServer (Addr s) (has_tls s) (timeout s) fs (middlewares s) (ene s) (strictSlash s) (Handler_ s) (routes s).
Definition WithErrorEncoder (e : Request -> error -> io (option error)) : Server -> Server := fun s =>
  mkServer (Addr s) (has_tls s) (timeout s) (filters s) (middlewares s) e (strictSlash s) (Handler_ s) (routes s).
Definition WithStrictSlash (b : bool) : Server -> Server := fun s =>
  mkServer (Addr s) (has_tls s) (timeout s) (filters s) (middlewares s) (ene s) b (Handler_ s) (routes s).

(** What the router serves of the routes registered when the request arrives, and the
    request under a context with a timeout, or one that can be cancelled. *)
Context (mux : bool -> list (string * string * Http.Handler W) -> Http.Handler W).
Context (ctx_timeout : Duration -> Request -> Request) (ctx_cancel : Request -> Request).

(** [func (s *Server) filter() mux.MiddlewareFunc]: the server is read when a request
    is served. *)
Definition filter_ (d : Duration) : Http.Middleware W := fun next r w =>
  next (if 0 <? d then ctx_timeout d r else ctx_cancel r) w.

(** [func (s *Server) init(opts ...ServerOption)] *)
Definition built_handler s : Duration -> list (string * string * Http.Handler W) -> Http.Handler W := fun d rs =>
  let h := chain_from (middlewares s) (length (middlewares s)) (mux (strictSlash s) rs) in
  FilterChain (filters s) (filter_ d h).
Definition init (opts : list (Server -> Server)) s : Server :=
  let s := apply_opts opts (WithAddress ":443" s) in
  let s := WithTLSConfig true s in
  mkServer (Addr s) (has_tls s) (timeout s) (filters s) (middlewares s) (ene s) (strictSlash s) (built_handler s) (routes s).

(** [func NewServer(opts ...ServerOption) *Server], given [DefaultErrorEncoder] *)
Definition NewServer (DefaultErrorEncoder : Request -> error -> io (option error)) (opts : list (Server -> Server)) : Server :=
  init opts (mkServer "" false (1 * Second) [] [] DefaultErrorEncoder true (fun _ _ _ w => mret (Panicked, w)) []).

(** [func (s *Server) Use(middlewares ...Middleware)] *)
Definition Use (ms : list (Http.Middleware W)) s : Server :=
  mkServer (Addr s) (has_tls s) (timeout s) (filters s) (middlewares s ++ ms) (ene s) (strictSlash s) (Handler_ s) (routes s).

(** [func (s *Server) ServeHTTP], [Endpoint], [Start] given what listening returns,
    [Stop] given what closing returns *)
Definition ServeHTTP s : Http.Handler W := Handler_ s (timeout s) (routes s).
Definition Endpoint s : string := Addr s.
Definition Start (listened : option error) : option error :=
  match listened with
  | Some err => if negb (errors_Is "http.ErrServerClosed" err) then Some err else None
  | None => None
  end.
Definition Stop (closed : option error) : option error := closed.

(** [func (s *Server) Handle], [HandleFunc]: a route for any method, "" here *)
Definition server_Handle (path : string) (h : Http.Handler W) s : Server :=
  mkServer (Addr s) (has_tls s) (timeout s) (filters s) (middlewares s) (ene s) (strictSlash s) (Handler_ s) (routes s ++ [("", path, h)]).

(** [type HandlerFunc func(Context) error]: the request, the code of the context's own
    writer, and the world *)
Definition HandlerFunc := Request -> Z -> W -> io (result (option error) * W).

(** [type Router struct], [func newRouter], [func (s *Server) Route], [func (r *Router) Group] *)
Record Router := mkRouter { prefix : string; r_filters : list (Http.Middleware W) }.
Definition Route (p : string) (fs : list (Http.Middleware W)) : Router := mkRouter p fs.
Definition Group (p : string) (fs : list (Http.Middleware W)) (r : Router) : Router := mkRouter (Join [prefix r; p]) (r_filters r ++ fs).

(** The handler that [Handle] makes of [h]: the context is reset to the request, with
    the code 200, and the error of [h] is encoded. *)
Definition route_handler s (h : HandlerFunc) : Http.Handler W := fun req w =>
  '(res, w) ← h req 200 w;
  match res with
  | Panicked => mret (Panicked, w)
  | Returned None => mret (Returned tt, w)
  | Returned (Some err) => ene s req err ;; mret (Returned tt, w)
  end.

(** [func (r *Router) Handle(method, relativePath string, h HandlerFunc, filters ...FilterFunc)].
    The server's error encoder is read when a request is served; it does not change. *)
Definition Handle (r : Router) (method relativePath : string) (h : HandlerFunc) (fs : list (Http.Middleware W)) s : Server :=
  let next := route_handler s h in
  let next := FilterChain fs next in
  let next := FilterChain (r_filters r) next in
  mkServer (Addr s) (has_tls s) (timeout s) (filters s) (middlewares s) (ene s) (strictSlash s) (Handler_ s)
    (routes s ++ [(method, Join [prefix r; relativePath], next)]).
Definition GET r p h fs := Handle r "GET" p h fs.
Definition HEAD r p h fs := Handle r "HEAD" p h fs.
Definition POST r p h fs := Handle r "POST" p h fs.
Definition PUT r p h fs := Handle r "PUT" p h fs.
Definition PATCH r p h fs := Handle r "PATCH" p h fs.
Definition DELETE r p h fs := Handle r "DELETE" p h fs.
Definition CONNECT r p h fs := Handle r "CONNECT" p h fs.
Definition OPTIONS r p h fs := Handle r "OPTIONS" p h fs.
Definition TRACE r p h fs := Handle r "TRACE" p h fs.

(** ** Properties *)

(** The chain of a request: the server's filters, the timeout, the router; and the
    handler of a route in a group: the filters of the groups from the outermost, then
    those of the route, each around the next, the handler innermost. *)
Lemma server_chain e opts :
  let s := NewServer e opts in
  middlewares s = [] ->
  ServeHTTP s = foldr (fun m h => m h) (filter_ (timeout s) (mux (strictSlash s) (routes s))) (filters s).
Proof. intros s Hm. unfold s, ServeHTTP, NewServer, init. cbn [Handler_ timeout routes filters strictSlash]. unfold built_handler. unfold s, NewServer, init in Hm. cbn [middlewares] in Hm. rewrite Hm. apply filter_foldr. Qed.

Theorem http3_groups r gs method rel h fs s :
  prefix r <> "" ->
  let r' := fold_left (fun r '(p, fs) => Group p fs r) gs r in
  routes (Handle r' method rel h fs s) =
    routes s ++ [(method, Join (prefix r :: (fst <$> gs) ++ [rel]), foldr (fun m h => m h) (route_handler s h) (r_filters r ++ concat (snd <$> gs) ++ fs))].
Proof.
  intros Hp r'. unfold Handle. cbn [routes]. rewrite !filter_foldr, <- foldr_app.
  assert (forall rest, Join (prefix r' :: rest) = Join (prefix r :: (fst <$> gs) ++ rest)) as ->.
  { unfold r'. clear r'. revert r Hp. induction gs as [|[p gfs] gs IH]; intros r Hp rest; cbn; [done|].
    rewrite IH; [cbn; by apply Join_Join|]. cbn. unfold Join. cbn. apply String.eqb_neq in Hp as Hp'. rewrite Hp'. cbn.
    destruct (negb (String.eqb p "")); apply Clean_elements; [apply app_slash_ne|done]. }
  do 4 f_equal.
  assert (r_filters r' = r_filters r ++ concat (snd <$> gs)) as ->; [|by rewrite app_assoc].
  unfold r'. clear. revert r. induction gs as [|[p fs] gs IH]; intros r; cbn; [by rewrite app_nil_r|].
  rewrite IH. cbn. by rewrite app_assoc.
Qed.

(** No option gives middlewares, and [Use] comes after the chain was built: middlewares
    given to it never run. *)
Lemma use_ignored ms s : ServeHTTP (Use ms s) = ServeHTTP s.
Proof. done. Qed.
Lemma no_middlewares e opts :
  Forall (fun o => forall s, middlewares (o s) = middlewares s) opts -> middlewares (NewServer e opts) = [].
Proof.
  intros Ho. unfold NewServer, init. cbn. apply (apply_opts_preserves (fun s => middlewares s = [])); [|done].
  eapply Forall_impl; [exact Ho|]. cbn. intros o H s Hs. by rewrite H.
Qed.
End server.

(** * [context.go], and the encoders of [types.go] *)
Section context.
Context {V : Type} (json xml : V -> string + error) (error_json : error -> string) (HTTPStatus : error -> option Z).

(** [type responseWriter struct]: [WriteHeader] only remembers the code, [Write] sends
    it first, every time.  The calls of [m] on it, and the code it is left with. *)
Fixpoint own_writer {A} (code : Z) (m : io A) : io (A * Z) :=
  match m with
  | Ret a => Ret (a, code)
  | HeaderMap f k => HeaderMap f (own_writer code k)
  | HeaderGet k => HeaderGet (fun h => own_writer code (k h))
  | WriteHeader c k => own_writer c k
  | Write b k => WriteHeader code (Write b (fun r => own_writer code (k r)))
  end.

(** [json.NewEncoder(w).Encode(v)] and the like: nothing is written when [v] cannot be
    encoded. *)
Definition encode_to (text : string + error) : io (option error) :=
  match text with
  | inr err => Ret (Some err)
  | inl t => Write (t ++ newline) (fun r => Ret (snd r))
  end.
Definition content_type (ct : string) : Header -> Header := header_Set "Content-Type" ct.

(** [func DefaultResponseEncoder], [func DefaultErrorEncoder] *)
Definition DefaultResponseEncoder (v : V) : io (option error) :=
  HeaderMap (content_type "application/json") (encode_to (json v)).
Definition DefaultErrorEncoder (err : error) : io (option error) :=
  HeaderMap (content_type "application/json")
    (WriteHeader (default 500 (HTTPStatus err)) (encode_to (inl (error_json err)))).

(** [func DefaultRequestDecoder]: the body, if any, the content length, and what
    decoding it into [v] gives *)
Definition DefaultRequestDecoder {T} (decode : string -> T -> option error * T) (body : option string) (contentLength : Z) (v : T) : option error * T :=
  match body with
  | None => (None, v)
  | Some b => if contentLength =? 0 then (None, v) else decode b v
  end.

(** The methods of [wrapper] that respond; [code] is that of its own writer. *)
Section wrapper.
Context (enc : V -> io (option error)).
Definition Returns (v : V) (err : option error) (code : Z) : io (option error * Z) :=
  match err with Some _ => Ret (err, code) | None => own_writer code (enc v) end.
Definition Result (status : Z) (v : V) (code : Z) : io (option error * Z) := own_writer status (enc v).
Definition JSON (status : Z) (v : V) : io (option error) :=
  HeaderMap (content_type "application/json") (WriteHeader status (encode_to (json v))).
Definition XML (status : Z) (v : V) : io (option error) :=
  HeaderMap (content_type "application/xml") (WriteHeader status
    (match xml v with inr err => Ret (Some err) | inl t => Write t (fun r => Ret (snd r)) end)).
Definition String_ (status : Z) (text : string) : io (option error) :=
  HeaderMap (content_type "text/plain") (WriteHeader status (Write text (fun r => Ret (snd r)))).
Definition Blob (status : Z) (ct data : string) : io (option error) :=
  HeaderMap (content_type ct) (WriteHeader status (Write data (fun r => Ret (snd r)))).
(** [io.Copy]: the chunks the reader gives, and its error at the end *)
Fixpoint copy (chunks : list string) (err : option error) : io (option error) :=
  match chunks with
  | [] => Ret err
  | c :: chunks' => Write c (fun r => match snd r with Some e => Ret (Some e) | None => copy chunks' err end)
  end.
Definition Stream (status : Z) (ct : string) (chunks : list string) (err : option error) : io (option error) :=
  HeaderMap (content_type ct) (WriteHeader status (copy chunks err)).
End wrapper.

(** A handler that ends with one of them. *)
Definition ending {W} (m : Z -> io (option error * Z)) : HandlerFunc (W := W) := fun _ code w =>
  x ← m code; mret (Returned (fst x), w).

Definition final_status (c : Z) : Prop := 200 <= c /\ bodyAllowedForStatus c = true.

Lemma send_fresh c h b : final_status c -> b <> "" ->
  rw_Write b (rw_WriteHeader c (mkResponse h None "")) = ((Z.of_nat (String.length b), None), mkResponse h (Some (c, h)) b).
Proof.
  intros [Hc Hb] Hne. unfold rw_WriteHeader. cbn [sent live body]. replace (c <=? 199) with false by lia. rewrite andb_false_r. cbn [andb].
  unfold rw_Write. cbn [sent]. apply String.eqb_neq in Hne. rewrite Hne. by rewrite Hb.
Qed.
Lemma line_ne t : (t ++ newline)%string <> "".
Proof. intros E. by destruct t. Qed.

(** A handler that returns [Result] with the default encoders: when the value can be
    encoded the client gets the status and the JSON text, and when it cannot, the
    status and the text of the error: nothing was sent before. *)
Theorem http3_result {W} (s : Server (W := W)) status v req (w : W) :
  ene s = (fun _ => DefaultErrorEncoder) -> final_status status ->
  (forall e, final_status (default 500 (HTTPStatus e))) ->
  let hdr := content_type "application/json" ∅ in
  run (route_handler s (ending (Result DefaultResponseEncoder status v)) req w) fresh_response =
    ((Returned tt, w),
     match json v with
     | inl text => mkResponse hdr (Some (status, hdr)) (text ++ newline)
     | inr err => mkResponse (content_type "application/json" hdr) (Some (default 500 (HTTPStatus err), content_type "application/json" hdr)) (error_json err ++ newline)
     end).
Proof.
  intros He Hs Herr hdr. unfold route_handler, ending, Result, DefaultResponseEncoder. cbn [own_writer].
  rewrite !run_bind. unfold encode_to. destruct (json v) as [text|err]; cbn [own_writer run live sent body fresh_response].
  - rewrite send_fresh by (done || apply line_ne). cbn. done.
  - cbn. rewrite He, run_bind. unfold DefaultErrorEncoder, encode_to. cbn [run live sent body]. rewrite send_fresh by (done || apply line_ne). done.
Qed.

(** With [JSON] the status is sent before the value is encoded: when it cannot be, the
    client gets that status with the text of the error. *)
Theorem http3_json_late {W} (s : Server (W := W)) status v err req (w : W) :
  ene s = (fun _ => DefaultErrorEncoder) -> final_status status -> json v = inr err ->
  exists h h', run (route_handler s (ending (fun c => x ← JSON status v; mret (x, c))) req w) fresh_response =
    ((Returned tt, w), mkResponse h (Some (status, h')) (error_json err ++ newline)).
Proof.
  intros He [Hs Hb] Hj. unfold route_handler, ending, JSON. rewrite Hj. 
  assert (forall h, rw_WriteHeader status (mkResponse h None "") = mkResponse h (Some (status, h)) "") as Hw.
  { intros h. unfold rw_WriteHeader. cbn. replace (status <=? 199) with false by lia. by rewrite andb_false_r. }
  cbn -[rw_WriteHeader rw_Write content_type]. rewrite Hw, He. cbn -[rw_Write content_type].
  unfold rw_Write. cbn [sent]. pose proof (line_ne (error_json err)) as Hne. apply String.eqb_neq in Hne. rewrite Hne, Hb. cbn. eauto.
Qed.
End context.

(** * The pool of contexts *)

(** [type wrapper struct]: its request, if any, and the code of its writer *)
Record wrapper := mkWrapper { w_req : option nat; w_code : Z }.
(** [func (c *wrapper) Reset(res http.ResponseWriter, req *http.Request)] *)
Definition Reset (req : option nat) (_ : wrapper) : wrapper := mkWrapper req 200.
(** [func (c *wrapper) Err() error], given the error of the request's own context *)
Definition ctx_Err (of_req : nat -> option error) (c : wrapper) : option error :=
  match w_req c with None => Some Canceled | Some r => of_req r end.

(** The contexts that exist, those in the pool, and the one of each request being
    served. *)
Record Pool := mkPool { heap : gmap nat wrapper; free : list nat; active : gmap nat nat }.
Definition empty_pool : Pool := mkPool ∅ [] ∅.

(** What happens to them: a request gets one, from the pool or made for it; its handler
    sets a code; it ends, or panics; the pool drops one. *)
Inductive pool_event := PGet (rid : nat) (from : option nat) | PCode (rid : nat) (code : Z) | PEnd (rid : nat) | PPanic (rid : nat) | PDrop (k : nat).

Definition take_wrapper (from : option nat) (p : Pool) : option (nat * list nat) :=
  match from with
  | Some k => i ← free p !! k; Some (i, delete k (free p))
  | None => Some (next_nat (dom (heap p)), free p)
  end.
Definition pool_step (e : pool_event) (p : Pool) : option Pool :=
  match e with
  | PGet rid from =>
      if decide (is_Some (active p !! rid)) then None
      else
        '(i, fr) ← take_wrapper from p;
        Some (mkPool (<[i := Reset (Some rid) (default (mkWrapper None 0) (heap p !! i))]> (heap p)) fr (<[rid := i]> (active p)))
  | PCode rid code =>
      i ← active p !! rid;
      c ← heap p !! i;
      Some (mkPool (<[i := mkWrapper (w_req c) code]> (heap p)) (free p) (active p))
  | PEnd rid =>
      i ← active p !! rid;
      c ← heap p !! i;
      Some (mkPool (<[i := Reset None c]> (heap p)) (i :: free p) (delete rid (active p)))
  | PPanic rid => i ← active p !! rid; Some (mkPool (heap p) (free p) (delete rid (active p)))
  | PDrop k => Some (mkPool (heap p) (delete k (free p)) (active p))
  end.
Fixpoint pool_run (es : list pool_event) (p : Pool) : option Pool :=
  match es with
  | [] => Some p
  | e :: es' => p' ← pool_step e p; pool_run es' p'
  end.

(** The code a request has set itself. *)
Fixpoint own_code (rid : nat) (es : list pool_event) (c : Z) : Z :=
  match es with
  | [] => c
  | PGet r _ :: es' => own_code rid es' (if decide (r = rid) then 200 else c)
  | PCode r code :: es' => own_code rid es' (if decide (r = rid) then code else c)
  | _ :: es' => own_code rid es' c
  end.

(** The contexts in the pool are reset; that of a request being served is its own,
    with the code it set. *)
Definition pool_ok (codes : nat -> Z) (p : Pool) : Prop :=
  NoDup (free p) /\
  (forall i, i ∈ free p -> heap p !! i = Some (mkWrapper None 200)) /\
  (forall rid i, active p !! rid = Some i -> heap p !! i = Some (mkWrapper (Some rid) (codes rid))).

Lemma pool_step_ok e p p' codes : pool_ok codes p -> pool_step e p = Some p' -> pool_ok (fun rid => own_code rid [e] (codes rid)) p'.
Proof.
  intros (Hnd&Hfree&Hact) Hstep. destruct e as [rid from|rid code|rid|rid|k]; cbn in Hstep.
  - case_decide as Hr; [done|]. apply bind_Some in Hstep as ([i fr]&Ht&[= <-]). apply eq_None_not_Some in Hr.
    assert (NoDup fr /\ i ∉ fr /\ (forall j, j ∈ fr -> j ∈ free p) /\ forall r, active p !! r <> Some i) as (H1&H2&H3&H4).
    { destruct from as [k|]; cbn in Ht.
      - apply bind_Some in Ht as (j&Hj&[= -> <-]). pose proof (list_elem_of_lookup_2 _ _ _ Hj) as Hin.
        rewrite (delete_Permutation _ _ _ Hj) in Hnd. apply NoDup_cons in Hnd as [Hn Hnd]. split_and!; [done..| |].
        + intros j' Hj'. rewrite (delete_Permutation _ _ _ Hj). by right.
        + intros r Ha. apply Hact in Ha. rewrite (Hfree i Hin) in Ha. congruence.
      - injection Ht as <- <-. pose proof (next_nat_fresh (dom (heap p))) as Hf. apply not_elem_of_dom in Hf. split_and!; [done| |done|].
        + intros Hin. apply Hfree in Hin. congruence.
        + intros r Ha. apply Hact in Ha. congruence. }
    split_and!; cbn; [done| |].
    + intros j Hj. rewrite lookup_insert_ne by (by intros ->). by apply Hfree, H3.
    + intros r j [[<- <-]|[Hne Hj]]%lookup_insert_Some; [by rewrite lookup_insert_eq, decide_True|].
      rewrite lookup_insert_ne by (intros ->; by apply (H4 r)). rewrite decide_False by done. by apply Hact.
  - apply bind_Some in Hstep as (i&Hi&Hstep). apply bind_Some in Hstep as (c&Hc&[= <-]). pose proof (Hact _ _ Hi) as Hh.
    rewrite Hc in Hh. injection Hh as ->. split_and!; cbn; [done| |].
    + intros j Hj. specialize (Hfree _ Hj). rewrite lookup_insert_ne by congruence. done.
    + intros r j Hj. case_decide as Hr; [subst r; rewrite Hi in Hj; injection Hj as <-; by rewrite lookup_insert_eq|].
      pose proof (Hact _ _ Hj). rewrite lookup_insert_ne by congruence. done.
  - apply bind_Some in Hstep as (i&Hi&Hstep). apply bind_Some in Hstep as (c&Hc&[= <-]). pose proof (Hact _ _ Hi) as Hh.
    assert (i ∉ free p) by (intros Hin; apply Hfree in Hin; congruence). split_and!; cbn; [by constructor| |].
    + intros j [->|Hj]%elem_of_cons; [by rewrite lookup_insert_eq|]. rewrite lookup_insert_ne by congruence. by apply Hfree.
    + intros r j [Hne Hj]%lookup_delete_Some. pose proof (Hact _ _ Hj). rewrite lookup_insert_ne by congruence. done.
  - apply bind_Some in Hstep as (i&Hi&[= <-]). split_and!; cbn; [done|done|]. intros r j [_ Hj]%lookup_delete_Some. by apply Hact.
  - injection Hstep as <-. split_and!; cbn; [|intros i Hi; apply Hfree|done].
    + eapply sublist_NoDup; [exact Hnd|apply sublist_delete].
    + eapply elem_of_sublist; [exact Hi|apply sublist_delete].
Qed.

(** However requests overlap, end or panic: a request being served has a context of
    its own, that of no other, which holds it and the code it set itself, 200 before
    it did; what an earlier request left in a context is gone. *)
Theorem http3_contexts es p :
  pool_run es empty_pool = Some p ->
  (forall rid i, active p !! rid = Some i -> heap p !! i = Some (mkWrapper (Some rid) (own_code rid es 0))) /\
  (forall r1 r2 i, active p !! r1 = Some i -> active p !! r2 = Some i -> r1 = r2) /\
  (forall i, i ∈ free p -> forall rid, active p !! rid <> Some i).
Proof.
  assert (forall es p0 codes, pool_ok codes p0 -> pool_run es p0 = Some p -> pool_ok (fun rid => own_code rid es (codes rid)) p) as Hrun.
  { clear es. induction es as [|e es IH]; intros p0 codes Hp Hr; cbn in Hr; [by injection Hr as <-|].
    apply bind_Some in Hr as (p1&Hs&Hr). pose proof (pool_step_ok e p0 p1 codes Hp Hs) as H1. specialize (IH p1 _ H1 Hr).
    destruct e; exact IH. }
  intros Hr. destruct (Hrun es empty_pool (fun _ => 0)) as (_&Hf&Ha); [by split_and!; [constructor|intros i Hi; by apply elem_of_nil in Hi|]|done|].
  split_and!; [done| |].
  - intros r1 r2 i H1 H2. apply Ha in H1, H2. congruence.
  - intros i Hi rid H1. apply Hf in Hi. apply Ha in H1. congruence.
Qed.

(** * [binding.go] *)
Section binding.
(** The other types of fields, and their decoding from a JSON string; the parsing of
    floating-point numbers and their rounding to 32 bits. *)
Context {T : Type} (json_Unmarshal : string -> T -> T * option error).
Context (ParseFloat : string -> float64 * option error) (float32_of : float64 -> float64).

(** The value of a field by its kind; a pointer, nil or not, has the zero value of its
    element. *)
Inductive value :=
| VString (s : string)
| VInt (bits n : Z)
| VUint (bits n : Z)
| VFloat (bits : Z) (x : float64)
| VBool (b : bool)
| VNil (zero : value)
| VPtr (zero v : value)
| VOther (x : T).

(** A struct field: its tags, whether it can be set, its value. *)
Record field := mkField { tag_json : string; tag_form : string; tag_query : string; CanSet : bool; val : value }.
Definition with_value (v : value) (f : field) : field := mkField (tag_json f) (tag_form f) (tag_query f) (CanSet f) v.

(** [SetInt], [SetUint] keep the low bits. *)
Definition SetInt (bits n : Z) : Z := (n + 2 ^ (bits - 1)) mod 2 ^ bits - 2 ^ (bits - 1).
Definition SetUint (bits n : Z) : Z := n mod 2 ^ bits.

Definition quote : string := String (ascii_of_nat 34) "".

(** [func setField(field reflect.Value, value string) error] *)
Fixpoint setField (v : value) (s : string) : value * option error :=
  match v with
  | VString _ => (VString s, None)
  | VInt bits old => match Atoi s with (_, Some err) => (VInt bits old, Some err) | (n, None) => (VInt bits (SetInt bits n), None) end
  | VUint bits old => match ParseUint s with (_, Some err) => (VUint bits old, Some err) | (n, None) => (VUint bits (SetUint bits n), None) end
  | VFloat bits old =>
      match ParseFloat s with
      | (_, Some err) => (VFloat bits old, Some err)
      | (x, None) => (VFloat bits (if bits =? 32 then float32_of x else x), None)
      end
  | VBool old => match ParseBool s with (_, Some err) => (VBool old, Some err) | (b, None) => (VBool b, None) end
  | VNil zero => let '(v', err) := setField zero s in (VPtr zero v', err)
  | VPtr zero v => let '(v', err) := setField v s in (VPtr zero v', err)
  | VOther x => let '(x', err) := json_Unmarshal (quote ++ s ++ quote) x in (VOther x', err)
  end.

(** The name of a field: the first tag that is there, without its options. *)
Definition field_tag (f : field) : string :=
  if negb (String.eqb (tag_json f) "") then tag_json f
  else if negb (String.eqb (tag_form f) "") then tag_form f
  else tag_query f.
Definition field_name (f : field) : string := match cut "," (field_tag f) with Some (name, _) => name | None => field_tag f end.

(** [func bindURLValues(values url.Values, obj any) error], on the fields of a struct; any
    other object is left as it is. *)
Fixpoint bindURLValues (values : gmap string (list string)) (fs : list field) : list field * option error :=
  match fs with
  | [] => ([], None)
  | f :: fs' =>
      let continue f := let '(fs'', err) := bindURLValues values fs' in (f :: fs'', err) in
      if String.eqb (field_tag f) "" || String.eqb (field_name f) "-" then continue f
      else
        match default [] (values !! field_name f) with
        | [] => continue f
        | s :: _ =>
            if String.eqb s "" || negb (CanSet f) then continue f
            else
              match setField (val f) s with
              | (v, Some err) => (with_value v f :: fs', Some err)
              | (v, None) => continue (with_value v f)
              end
        end
  end.

(** [func BindQuery], [func BindForm] given what parsing the form gives *)
Definition BindQuery (values : gmap string (list string)) (obj : list field) := bindURLValues values obj.
Definition BindForm (form : gmap string (list string) + error) (obj : list field) : list field * option error :=
  match form with inr err => (obj, Some err) | inl values => bindURLValues values obj end.

(** ** Round trip *)

(** The text of a value, and the values that have one. *)
Fixpoint print (v : value) : string :=
  match v with
  | VString s => s
  | VInt _ n | VUint _ n => Itoa n
  | VBool b => if b then "true" else "false"
  | VPtr _ v => print v
  | _ => ""
  end.
(** [v] can be set from its text in a field that holds [old]. *)
Fixpoint settable (old v : value) : Prop :=
  match old, v with
  | VString _, VString s => s <> ""
  | VInt bits _, VInt bits' n => bits = bits' /\ 0 < bits <= 64 /\ - 2 ^ (bits - 1) <= n < 2 ^ (bits - 1)
  | VUint bits _, VUint bits' n => bits = bits' /\ 0 < bits <= 64 /\ 0 <= n < 2 ^ bits
  | VBool _, VBool _ => True
  | VPtr zero old, VPtr zero' v => zero = zero' /\ settable old v
  | VNil zero, VPtr zero' v => zero = zero' /\ settable zero v
  | _, _ => False
  end.

Lemma print_ne old v : settable old v -> print v <> "".
Proof.
  revert v. induction old; intros v' H; destruct v'; cbn in H |- *; try done; try apply Itoa_ne.
  - by destruct b0.
  - destruct H as [_ H]. eauto.
  - destruct H as [_ H]. eauto.
Qed.

Lemma SetInt_id bits n : 0 < bits -> - 2 ^ (bits - 1) <= n < 2 ^ (bits - 1) -> SetInt bits n = n.
Proof.
  intros Hb Hn. unfold SetInt. rewrite Z.mod_small; [lia|]. replace bits with (bits - 1 + 1) at 3 by lia. rewrite Z.pow_add_r by lia. lia.
Qed.

Lemma setField_print old v : settable old v -> setField old (print v) = (v, None).
Proof.
  revert v. induction old; intros v' H; destruct v'; cbn in H; try done.
  - destruct H as (<-&Hb&Hn). cbn. rewrite Atoi_Itoa; [by rewrite SetInt_id by lia|].
    unfold in_int64, int64_min, int64_max. pose proof (Z.pow_le_mono_r 2 (bits - 1) 63). lia.
  - destruct H as (<-&Hb&Hn). cbn. pose proof (Z.pow_le_mono_r 2 bits 64).
    rewrite ParseUint_Itoa by (unfold uint64_max; lia). unfold SetUint. by rewrite Z.mod_small.
  - cbn. by destruct b0.
  - destruct H as [<- H]. cbn. by rewrite (IHold _ H).
  - destruct H as [<- H]. cbn. by rewrite (IHold2 _ H).
Qed.

(** Values printed into a query under the names of the fields come back: a struct whose
    fields have names, different ones, and can be set, is left with them. *)
Theorem http3_bind_round_trip (values : gmap string (list string)) (fs : list field) (vs : list value) :
  Forall2 (fun f v => CanSet f = true /\ field_tag f <> "" /\ field_name f <> "-" /\ settable (val f) v /\
    exists rest, values !! field_name f = Some (print v :: rest)) fs vs ->
  BindQuery values fs = (zip_with with_value vs fs, None).
Proof.
  unfold BindQuery. induction 1 as [|f v fs vs (Hc&Ht&Hn&Hs&rest&Hv) _ IH]; [done|]. cbn [bindURLValues zip_with].
  apply String.eqb_neq in Ht, Hn. rewrite Ht, Hn, Hv. cbn [orb from_option]. unfold id at 1. pose proof (print_ne _ _ Hs) as Hp. apply String.eqb_neq in Hp.
  rewrite Hp, Hc. cbn [orb negb]. rewrite (setField_print _ _ Hs), IH. done.
Qed.
End binding.

(** A number too large for a narrow field is cut to its low bits, with no error. *)
Example bind_int8_wraps :
  BindQuery (T := unit) (fun _ x => (x, None)) (fun _ => (f_of_Z 0, None)) id {["n" := ["300"]]} [mkField "n" "" "" true (VInt 8 0)] =
    ([mkField "n" "" "" true (VInt 8 44)], None).
Proof. vm_compute. reflexivity. Qed.

(** A struct is bound up to the field that fails. *)
Example bind_stops :
  let fs a b := [mkField "a,omitempty" "" "" true (VInt 64 a); mkField "" "b" "" true (VBool false); mkField "" "" "c" true (VInt 64 b)] in
  let '(fs', err) := BindQuery (T := unit) (fun _ x => (x, None)) (fun _ => (f_of_Z 0, None)) id
    {["a" := ["7"]; "b" := ["maybe"]; "c" := ["9"]]} (fs 0 0) in
  fs' = fs 7 0 /\ is_Some err.
Proof. vm_compute. split; [reflexivity|by eexists]. Qed.
