(* ===== verification/HttpRetry.v ===== *)
(** [transport/http/middleware/retry]: the middleware that retries idempotent
    requests, buffering each attempt's response. *)
From Stdlib Require Import ZArith Lia.
From S2P Require Import Prelude Float64 GoTime GoErrors Retry Http.
From stdpp Require Import base gmap strings list fin_maps.
Open Scope string_scope.
Open Scope list_scope.
Open Scope Z_scope.

(** [type options struct] *)
Record options := mkOptions {
  retryAllMethods : bool;
  retryStatus : gset Z;
  skipFunc : option (Request -> bool)
}.

Definition WithRetryAllMethods : options -> options := fun o =>
  mkOptions true (retryStatus o) (skipFunc o).
Definition WithRetryStatus (codes : list Z) : options -> options := fun o =>
  mkOptions (retryAllMethods o) (list_to_set codes) (skipFunc o).
Definition WithSkipFunc (f : Request -> bool) : options -> options := fun o =>
  mkOptions (retryAllMethods o) (retryStatus o) (Some f).

Definition defaultOptions : options := mkOptions false {[502; 503; 504]} None.

(** [var idempotentMethods] *)
Definition idempotentMethods : gset string := {["GET"; "HEAD"; "OPTIONS"; "PUT"; "DELETE"]}.

(** [isRetryable], [shouldRetry] *)
Definition isRetryable (cfg : options) (r : Request) : bool :=
  retryAllMethods cfg || bool_decide (Method r ∈ idempotentMethods).
Definition shouldRetry (cfg : options) (statusCode : Z) : bool :=
  bool_decide (statusCode ∈ retryStatus cfg).

Definition skips (cfg : options) (r : Request) : bool :=
  match skipFunc cfg with
  | Some f => f r
  | None => false
  end.

(** [type retryRecorder struct], [func newRetryRecorder] *)
Record retryRecorder := mkRecorder { rec_header : Header; rec_status : Z; rec_buf : string }.

Definition newRetryRecorder : retryRecorder := mkRecorder ∅ 200 "".

(** The calls of a handler on a recorder ([Header], [WriteHeader], [Write]). *)
Fixpoint record {A} (m : io A) (rw : retryRecorder) : A * retryRecorder :=
  match m with
  | Ret a => (a, rw)
  | HeaderMap f k => record k (mkRecorder (f (rec_header rw)) (rec_status rw) (rec_buf rw))
  | HeaderGet k => record (k (rec_header rw)) rw
  | WriteHeader c k => record k (mkRecorder (rec_header rw) c (rec_buf rw))
  | Write b k =>
      record (k (Z.of_nat (String.length b), None))
        (mkRecorder (rec_header rw) (rec_status rw) (rec_buf rw ++ b)%string)
  end.

(** [func (r *retryRecorder) flushTo(w http.ResponseWriter)] *)
Definition flushTo (rw : retryRecorder) : io unit :=
  HeaderMap (fun dst => map_fold (fun k vv dst => fold_left (fun d v => header_Add k v d) vv dst) dst (rec_header rw))
    (WriteHeader (rec_status rw) (Write (rec_buf rw) (fun _ => Ret tt))).

(** The variables of the closure given to [Do]: [lastRW], [flushed], and the
    responses it flushed; [panicked] marks a handler's panic, on which [Do] is
    left at once. *)
Record attempts := mkAttempts {
  lastRW : option retryRecorder;
  flushed : bool;
  flushes : list retryRecorder;
  panicked : bool
}.

Definition no_attempts : attempts := mkAttempts None false [] false.

Section middleware.
Context {W : Type} `{World W}.

(** The function given to [Do]: one attempt. *)
Definition attempt (cfg : options) (next : Handler W) (req : Request) : W * attempts -> option error * (W * attempts) :=
  fun '(w, a) =>
    let '((res, w'), rw) := record (next req w) newRetryRecorder in
    match res with
    | Panicked => (None, (w', mkAttempts (lastRW a) (flushed a) (flushes a) true))
    | Returned _ =>
        if shouldRetry cfg (rec_status rw) then
          (Some (StatusCode (rec_status rw)), (w', mkAttempts (Some rw) (flushed a) (flushes a) (panicked a)))
        else (None, (w', mkAttempts (Some rw) true (flushes a ++ [rw]) (panicked a)))
    end.

(** [func Middleware(r *retry.Retrier, opts ...Option) httpPlugin.Middleware] *)
Definition Middleware (r : Retrier W) (opts : list (options -> options)) : Http.Middleware W :=
  let cfg := apply_opts opts defaultOptions in
  fun next req w =>
    if skips cfg req then next req w
    else if negb (isRetryable cfg req) then next req w
    else
      let '(_, (w', a), _) := Do_closure r (attempt cfg next req) w no_attempts in
      mapM flushTo (flushes a) ;;
      if panicked a then mret (Panicked, w')
      else
        match flushed a, lastRW a with
        | false, Some rw => serve w' (flushTo rw)
        | _, _ => mret (Returned tt, w')
        end.
End middleware.

(** * Properties *)

Section properties.
Context {W : Type} `{World W}.
Implicit Types (w : W) (next : Handler W).

(** A response produced by one attempt of [next] that returned. *)
Definition produced next (req : Request) (rw : retryRecorder) : Prop :=
  exists w w', record (next req w) newRetryRecorder = ((Returned tt, w'), rw).

(** Before each attempt: nothing flushed, the last response retryable. *)
Definition pending cfg next req (a : attempts) : Prop :=
  flushed a = false /\ flushes a = [] /\ panicked a = false /\
  forall rw, lastRW a = Some rw -> produced next req rw /\ shouldRetry cfg (rec_status rw) = true.

(** After the attempt that ended the loop. *)
Definition settled cfg next req (a : attempts) : Prop :=
  (panicked a = true /\ flushes a = []) \/
  (panicked a = false /\ flushed a = true /\
   exists rw, flushes a = [rw] /\ produced next req rw /\ shouldRetry cfg (rec_status rw) = false).

Lemma attempt_step cfg next req w a :
  pending cfg next req a ->
  match attempt cfg next req (w, a) with
  | (None, (_, a')) => settled cfg next req a'
  | (Some _, (_, a')) => pending cfg next req a'
  end.
Proof.
  intros (Hfl & Hfs & Hp & Hl). unfold attempt.
  destruct (record (next req w) newRetryRecorder) as [[[[]|] w'] rw] eqn:E.
  - assert (produced next req rw) by (by exists w, w').
    destruct (shouldRetry cfg (rec_status rw)) eqn:Es.
    + split_and!; simpl; try done. intros rw' ?. by simplify_eq.
    + right. simpl. split_and!; try done. exists rw. by rewrite Hfs.
  - left. simpl. by split.
Qed.

(** C11: The retry middleware sends one response.  For a retryable request: if
    the handler panics the panic goes on with nothing sent; otherwise either no
    attempt was made (the context was already cancelled) and nothing is sent, or
    exactly the buffered response of a single attempt is sent.  That response
    has a status that is not retryable exactly when [Do] succeeded. *)
Theorem http_retry_one_response (r : Retrier W) opts next req w resp :
  let cfg := apply_opts opts defaultOptions in
  skips cfg req = false -> isRetryable cfg req = true ->
  let '(err, (w', a), _) := Do_closure r (attempt cfg next req) w no_attempts in
  let '((res, w1), resp') := run (Middleware r opts next req w) resp in
  w1 = w' /\
  ((res = Panicked /\ resp' = resp) \/
   (res = Returned tt /\ resp' = resp /\ lastRW a = None) \/
   (res = Returned tt /\ exists rw, produced next req rw /\ resp' = snd (run (flushTo rw) resp) /\
      (err = None <-> shouldRetry cfg (rec_status rw) = false))).
Proof.
  intros cfg Hskip Hretry.
  pose proof (Do_closure_inv (pending cfg next req) (settled cfg next req) r (attempt cfg next req)
                (attempt_step cfg next req) w no_attempts ltac:(by split_and!)) as Hres.
  unfold Middleware. fold cfg. rewrite Hskip, Hretry. simpl negb. cbv iota.
  destruct (Do_closure r (attempt cfg next req) w no_attempts) as [[err [w' a]] tr].
  destruct err as [e|].
  - destruct Hres as (Hfl & Hfs & Hp & Hl). rewrite Hfs, Hp, Hfl.
    change (run (mapM flushTo [] ≫= ?f) resp) with (run (f []) resp). cbv beta iota.
    destruct (lastRW a) as [rw|] eqn:El.
    + unfold serve. rewrite run_bind. destruct (run (flushTo rw) resp) as [[] resp'] eqn:Er. cbv beta iota.
      change (run (mret ?x) ?s) with (x, s). cbv beta iota.
      split; [done|]. right. right. split; [done|]. destruct (Hl rw eq_refl) as [Hpr Hsr].
      exists rw. rewrite Er. split_and!; try done. split; [done|]. by rewrite Hsr.
    + simpl. split; [done|]. right. left. by split_and!.
  - destruct Hres as [[Hp Hfs]|(Hp & Hfl & rw & Hfs & Hpr & Hsr)].
    + rewrite Hfs, Hp. simpl. split; [done|]. by left.
    + rewrite Hfs, Hp, Hfl. rewrite run_bind.
      change (mapM flushTo [rw]) with (flushTo rw ≫= fun x => mret [x]). 
      rewrite run_bind. destruct (run (flushTo rw) resp) as [[] resp'] eqn:Er. cbv beta iota.
      change (run (mret ?x) ?s) with (x, s). cbv beta iota.
      split; [done|]. right. right. split; [done|]. exists rw. rewrite Er. by split_and!.
Qed.
End properties.

(** A handler scripted by the world: 503 while results are left, then 200. *)
Definition flaky : Handler Script := fun _ w =>
  match script_fn w with
  | (Some _, w') => serve w' (http_Error "busy" 503)
  | (None, w') => serve w' (Write "ok" (fun _ => Ret tt))
  end.

Lemma http_retry_one_response_witness :
  let r := New (H := amd64) [] in
  let w := mkScript [Some (Errorf "a"); Some (Errorf "b")] 0 None in
  let req := mkRequest "GET" "/" ∅ [] in
  let '(err, (w', a), _) := Do_closure r (attempt defaultOptions flaky req) w no_attempts in
  let '((res, w1), resp') := run (Middleware r [] flaky req w) fresh_response in
  w1 = w' /\
  ((res = Panicked /\ resp' = fresh_response) \/
   (res = Returned tt /\ resp' = fresh_response /\ lastRW a = None) \/
   (res = Returned tt /\ exists rw, produced flaky req rw /\ resp' = snd (run (flushTo rw) fresh_response) /\
      (err = None <-> shouldRetry defaultOptions (rec_status rw) = false))).
Proof.
  exact (http_retry_one_response (New (H := amd64) []) [] flaky (mkRequest "GET" "/" ∅ [])
           (mkScript [Some (Errorf "a"); Some (Errorf "b")] 0 None) fresh_response eq_refl eq_refl).
Defined.

(** The recorder keeps the last status written, where the server keeps the
    first: a handler that reports success and then fails is answered differently
    with the middleware than without, and is retried. *)
Example retry_recorder_last_status :
  let h : Handler Script := fun _ w => serve w (WriteHeader 200 (WriteHeader 503 (Ret tt))) in
  let req := mkRequest "GET" "/" ∅ [] in
  let w := mkScript [] 0 None in
  sent (snd (run (h req w) fresh_response)) = Some (200, ∅) /\
  sent (snd (run (Middleware (New (H := amd64) []) [] h req w) fresh_response)) = Some (503, ∅).
Proof. vm_compute. split; reflexivity. Qed.
