(* ===== verification/HttpRecovery.v ===== *)
(** [transport/http/middleware/recovery]: the middleware that recovers from a
    handler's panic. *)
From Stdlib Require Import ZArith Lia.
From S2P Require Import Prelude GoErrors Http.
From stdpp Require Import base gmap strings list fin_maps.
Open Scope string_scope.
Open Scope list_scope.
Open Scope Z_scope.

(** [func headersWritten] *)
Definition headersWritten : bool := false.

(** [func defaultErrorHandler] *)
Definition defaultErrorHandler {W} : Handler W := fun _ w =>
  if headersWritten then mret (Returned tt, w)
  else serve w (http_Error "Internal Server Error" 500).

(** [type options struct]; [logger] is the effect of logging the panic of a
    request, with its stack when [logStack]. *)
Record options W := mkOptions {
  logStack : bool;
  errorHandler : Handler W;
  logger : bool -> Request -> W -> W
}.
Arguments mkOptions {W}.
Arguments logStack {W}.
Arguments errorHandler {W}.
Arguments logger {W}.

Definition WithStackTrace {W} (enabled : bool) : options W -> options W := fun o =>
  mkOptions enabled (errorHandler o) (logger o).
Definition WithErrorHandler {W} (h : Handler W) : options W -> options W := fun o =>
  mkOptions (logStack o) h (logger o).
Definition WithLogger {W} (l : bool -> Request -> W -> W) : options W -> options W := fun o =>
  mkOptions (logStack o) (errorHandler o) l.

(** [func Middleware(opts ...Option) httpPlugin.Middleware]; [getLogger] is
    [log.GetLogger()]. *)
Definition Middleware {W} (getLogger : bool -> Request -> W -> W) (opts : list (options W -> options W))
    : Http.Middleware W :=
  let cfg := apply_opts opts (mkOptions true defaultErrorHandler getLogger) in
  fun next r w =>
    '(res, w) ← next r w;
    match res with
    | Returned _ => mret (Returned tt, w)
    | Panicked => errorHandler cfg r (logger cfg (logStack cfg) r w)
    end.

(** * Properties *)

(** With its default error handler the recovery middleware never lets a
    panic through.  A handler that returns is undisturbed.  After a panic the
    request is logged once; if nothing had been sent the client gets a plain 500,
    and if a status had been sent it stands and the error text is appended to
    the body already sent (the test for that case is never true). *)
Theorem http_recovery {W} (getLogger : bool -> Request -> W -> W) enabled (next : Handler W) r w resp :
  let '((res, w1), resp1) := run (next r w) resp in
  let '((res', w2), resp2) := run (Middleware getLogger [WithStackTrace enabled] next r w) resp in
  res' = Returned tt /\
  match res with
  | Returned _ => w2 = w1 /\ resp2 = resp1
  | Panicked =>
      w2 = getLogger enabled r w1 /\
      match sent resp1 with
      | None => exists h, sent resp2 = Some (500, h) /\ body resp2 = (body resp1 ++ ("Internal Server Error" ++ newline))%string
      | Some (c, h) =>
          sent resp2 = Some (c, h) /\
          (bodyAllowedForStatus c = true -> body resp2 = (body resp1 ++ ("Internal Server Error" ++ newline))%string)
      end
  end.
Proof.
  unfold Middleware. rewrite run_bind. destruct (run (next r w) resp) as [[[[]|] w1] resp1]; [done|].
  cbn [apply_opts fold_left WithStackTrace errorHandler logger logStack]. unfold defaultErrorHandler, headersWritten.
  destruct (sent resp1) as [[c h]|] eqn:Es.
  - unfold serve. rewrite run_bind. unfold http_Error. cbn [run live sent body].
    unfold rw_WriteHeader. cbn [sent]. rewrite ?Es. unfold rw_Write. cbn [sent body live]. rewrite ?Es.
    assert (String.eqb ("Internal Server Error" ++ newline) "" = false) as -> by done.
    rewrite ?Es. destruct (bodyAllowedForStatus c); simpl; rewrite ?Es; by split_and!.
  - destruct (run_serve_error (getLogger enabled r w1) "Internal Server Error" 500 resp1) as (resp2 & -> & Hs & Hb);
      [lia..|done|]. split; [done|]. split; [done|]. eauto.
Qed.
