(* ===== verification/HttpRequestId.v ===== *)
(** [transport/http/middleware/requestid] and [transport/http/middleware/metadata]:
    the middlewares that put request headers into the request's context. *)
From Stdlib Require Import ZArith Lia.
From S2P Require Import Prelude GoErrors Http.
From stdpp Require Import base gmap strings list fin_maps.
Open Scope string_scope.
Open Scope list_scope.
Open Scope Z_scope.

(** [const DefaultHeaderName] *)
Definition DefaultHeaderName : string := "X-Request-ID".

(** [type options struct] *)
Record options W := mkOptions { headerName : string; idGenerator : W -> string * W }.
Arguments mkOptions {W}.
Arguments headerName {W}.
Arguments idGenerator {W}.

Definition WithHeaderName {W} (name : string) : options W -> options W := fun o =>
  mkOptions name (idGenerator o).
Definition WithIDGenerator {W} (fn : W -> string * W) : options W -> options W := fun o =>
  mkOptions (headerName o) fn.

Definition hex_digit (n : Z) : Ascii.ascii :=
  match String.get (Z.to_nat n) "0123456789abcdef" with
  | Some c => c
  | None => Ascii.Ascii false false false false false false false false
  end.

(** [hex.EncodeToString] *)
Fixpoint hex_EncodeToString (bs : list Z) : string :=
  match bs with
  | [] => ""
  | b :: bs' => String (hex_digit (Z.shiftr b 4)) (String (hex_digit (Z.land b 15)) (hex_EncodeToString bs'))
  end.

(** [func defaultIDGenerator]; [rand_Read] fills 16 bytes. *)
Definition defaultIDGenerator {W} (rand_Read : W -> list Z * W) : W -> string * W := fun w =>
  let '(b, w') := rand_Read w in (hex_EncodeToString b, w').

(** [func WithRequestID], [func FromContext] *)
Definition WithRequestID (ctx : Context) (id : string) : Context := context_WithValue ctx RequestIDKey id.
Definition FromContext (ctx : Context) : string := default "" (ctx_Value ctx RequestIDKey).

(** [func Middleware(opts ...Option) httpPlugin.Middleware] *)
Definition Middleware {W} (rand_Read : W -> list Z * W) (opts : list (options W -> options W)) : Http.Middleware W :=
  let cfg := apply_opts opts (mkOptions DefaultHeaderName (defaultIDGenerator rand_Read)) in
  fun next r w =>
    let id := header_Get (headerName cfg) (req_Header r) in
    let '(id, w) := if String.eqb id "" then idGenerator cfg w else (id, w) in
    HeaderMap (header_Set (headerName cfg) id)
      (next (WithContext (WithRequestID (req_ctx r) id) r) w).

(** * [metadata] *)

Module Metadata.

(** [func WithMetadata], [func FromContext] *)
Definition WithMetadata (ctx : Context) (key value : string) : Context := context_WithValue ctx (MetadataKey key) value.
Definition MetadataFromContext (ctx : Context) (key : string) : string := default "" (ctx_Value ctx (MetadataKey key)).

(** [func WithKeys(keys ...string) Option], on the list of keys *)
Definition WithKeys (keys : list string) : list string -> list string := fun o => o ++ keys.

(** The loop over the configured keys. *)
Definition extract (keys : list string) (h : Header) (ctx : Context) : Context :=
  fold_left (fun ctx key =>
    let val := header_Get key h in
    if negb (String.eqb val "") then WithMetadata ctx key val else ctx) keys ctx.

(** [func Middleware(opts ...Option) httpPlugin.Middleware] *)
Definition MetadataMiddleware {W} (opts : list (list string -> list string)) : Http.Middleware W :=
  let keys := apply_opts opts [] in
  fun next r w => next (WithContext (extract keys (req_Header r) (req_ctx r)) r) w.

Lemma extract_spec keys h ctx key :
  MetadataFromContext (extract keys h ctx) key =
    if bool_decide (key ∈ keys) && negb (String.eqb (header_Get key h) "") then header_Get key h
    else MetadataFromContext ctx key.
Proof.
  unfold extract. revert ctx. induction keys as [|k keys IH] using rev_ind; intros ctx; [done|].
  rewrite fold_left_app. cbn [fold_left]. cbv zeta.
  destruct (decide (k = key)) as [->|Hne].
  - rewrite (bool_decide_true (key ∈ keys ++ [key])) by set_solver. simpl.
    destruct (String.eqb (header_Get key h) "") eqn:E; simpl.
    + rewrite IH, ?E. by rewrite andb_false_r.
    + unfold MetadataFromContext at 1, WithMetadata, context_WithValue. simpl. by rewrite decide_True.
  - assert (bool_decide (key ∈ keys ++ [k]) = bool_decide (key ∈ keys)) as ->.
    { apply bool_decide_ext. set_solver. }
    rewrite <- IH. destruct (negb (String.eqb (header_Get k h) "")); [|reflexivity].
    unfold MetadataFromContext, WithMetadata, context_WithValue. cbn [ctx_Value].
    by rewrite decide_False by congruence.
Qed.
End Metadata.

(** * Properties *)

Lemma FromContext_WithRequestID ctx id : FromContext (WithRequestID ctx id) = id.
Proof. done. Qed.

(** Propagation of identifiers through the request-id and metadata
    middlewares, stacked around any handler: the handler runs
    once, with a request that differs only in its context; there the request id
    is the incoming header's value or, when it is empty, a fresh one, and that
    same id is in the response header before the handler writes anything; each
    configured metadata key gives its header's value when there is one; values
    put in the context before are kept. *)
Theorem http_context_propagation {W} (rand_Read : W -> list Z * W) name keys (next : Handler W) r w resp :
  let given := header_Get name (req_Header r) in
  let '(id, w1) := if String.eqb given "" then defaultIDGenerator rand_Read w else (given, w) in
  exists ctx,
    run (Chain [Middleware rand_Read [WithHeaderName name]; Metadata.MetadataMiddleware [Metadata.WithKeys keys]] next r w) resp =
      run (next (WithContext ctx r) w1) (mkResponse (header_Set name id (live resp)) (sent resp) (body resp)) /\
    FromContext ctx = id /\
    (forall key, key ∈ keys -> header_Get key (req_Header r) <> "" ->
       Metadata.MetadataFromContext ctx key = header_Get key (req_Header r)) /\
    (forall key, key ∉ keys -> Metadata.MetadataFromContext ctx key = Metadata.MetadataFromContext (req_ctx r) key).
Proof.
  cbv zeta. destruct (if String.eqb _ "" then _ else _) as [id w1] eqn:E.
  exists (Metadata.extract keys (req_Header r) (WithRequestID (req_ctx r) id)).
  split; [|split; [|split]].
  - unfold Chain. cbn [wrap_from length lookup list_lookup]. unfold Middleware at 1. cbn [apply_opts fold_left WithHeaderName headerName idGenerator].
    rewrite E. reflexivity.
  - unfold FromContext. assert (forall ctx, ctx_Value (Metadata.extract keys (req_Header r) ctx) RequestIDKey = ctx_Value ctx RequestIDKey) as ->; [|done].
    unfold Metadata.extract. clear. induction keys as [|k keys IH]; intros ctx; [done|]. simpl. rewrite IH. by destruct (negb _).
  - intros key Hk Hne. rewrite Metadata.extract_spec, bool_decide_true by done.
    by rewrite (proj2 (String.eqb_neq _ _)).
  - intros key Hk. rewrite Metadata.extract_spec, bool_decide_false by done. done.
Qed.
