(* ===== verification/HttpCors.v ===== *)
(** [transport/http/middleware/cors]: the CORS middleware. *)
From Stdlib Require Import ZArith Lia.
From S2P Require Import Prelude GoErrors Http.
From stdpp Require Import base gmap strings list fin_maps pretty.
Open Scope string_scope.
Open Scope list_scope.
Open Scope Z_scope.

(** [type options struct]; a nil set and an empty one behave alike. *)
Record options := mkOptions {
  allowedOrigins : gset string;
  allowedMethods : gset string;
  allowedHeaders : gset string;
  exposedHeaders : list string;
  allowCredentials : bool;
  maxAge : Z
}.

(** [strings.ToUpper], on ASCII *)
Fixpoint ToUpper (s : string) : string :=
  match s with
  | EmptyString => EmptyString
  | String c s' => String (upper_char c) (ToUpper s')
  end.

Definition WithAllowedOrigins (origins : list string) : options -> options := fun o =>
  mkOptions (allowedOrigins o ∪ list_to_set origins) (allowedMethods o) (allowedHeaders o)
    (exposedHeaders o) (allowCredentials o) (maxAge o).
Definition WithAllowedMethods (methods : list string) : options -> options := fun o =>
  mkOptions (allowedOrigins o) (allowedMethods o ∪ list_to_set (map ToUpper methods)) (allowedHeaders o)
    (exposedHeaders o) (allowCredentials o) (maxAge o).
Definition WithAllowedHeaders (headers : list string) : options -> options := fun o =>
  mkOptions (allowedOrigins o) (allowedMethods o) (allowedHeaders o ∪ list_to_set (map CanonicalHeaderKey headers))
    (exposedHeaders o) (allowCredentials o) (maxAge o).
Definition WithExposedHeaders (headers : list string) : options -> options := fun o =>
  mkOptions (allowedOrigins o) (allowedMethods o) (allowedHeaders o) headers (allowCredentials o) (maxAge o).
Definition WithAllowCredentials (enabled : bool) : options -> options := fun o =>
  mkOptions (allowedOrigins o) (allowedMethods o) (allowedHeaders o) (exposedHeaders o) enabled (maxAge o).
Definition WithMaxAge (seconds : Z) : options -> options := fun o =>
  mkOptions (allowedOrigins o) (allowedMethods o) (allowedHeaders o) (exposedHeaders o) (allowCredentials o) seconds.

Definition defaultMethods : list string := ["GET"; "POST"; "PUT"; "PATCH"; "DELETE"; "HEAD"; "OPTIONS"].

Definition defaultOptions : options := mkOptions ∅ (list_to_set defaultMethods) ∅ [] false 0.

(** [func (o *options) isOriginAllowed(origin string) bool] *)
Definition isOriginAllowed (o : options) (origin : string) : bool :=
  if (size (allowedOrigins o) =? 0)%nat then true else bool_decide (origin ∈ allowedOrigins o).

Section middleware.
(** The order in which [range] visits the keys of a map. *)
Context (range : gset string -> list string).

(** [func joinKeys(m map[string]struct{}) string] *)
Definition joinKeys (m : gset string) : string := String.concat ", " (range m).

(** [func (o *options) setCORSHeaders(w http.ResponseWriter, origin string)], as
    a transformation of the response header. *)
Definition setCORSHeaders (o : options) (origin : string) (h : Header) : Header :=
  let h := header_Set "Access-Control-Allow-Origin" origin h in
  let h := if allowCredentials o then header_Set "Access-Control-Allow-Credentials" "true" h else h in
  let h := if (0 <? size (allowedMethods o))%nat
           then header_Set "Access-Control-Allow-Methods" (joinKeys (allowedMethods o)) h else h in
  let h := if (0 <? size (allowedHeaders o))%nat
           then header_Set "Access-Control-Allow-Headers" (joinKeys (allowedHeaders o)) h else h in
  let h := if (0 <? length (exposedHeaders o))%nat
           then header_Set "Access-Control-Expose-Headers" (String.concat ", " (exposedHeaders o)) h else h in
  if 0 <? maxAge o then header_Set "Access-Control-Max-Age" (pretty (maxAge o)) h else h.

(** [func Middleware(opts ...Option) httpPlugin.Middleware] *)
Definition Middleware {W} (opts : list (options -> options)) : Http.Middleware W :=
  let cfg := apply_opts opts defaultOptions in
  fun next r w =>
    let origin := header_Get "Origin" (req_Header r) in
    if String.eqb origin "" then next r w
    else if negb (isOriginAllowed cfg origin) then next r w
    else
      HeaderMap (setCORSHeaders cfg origin)
        (if String.eqb (Method r) "OPTIONS" then WriteHeader 204 (Ret (Returned tt, w))
         else next r w).

(** Looks a key up through the optional insertions of the goal. *)
Ltac lookup_headers :=
  repeat case_if; repeat (rewrite lookup_insert_eq || rewrite lookup_insert_ne by done); done.

(** The [Access-Control] headers one request can get. *)
Lemma setCORSHeaders_lookup o origin h :
  let h' := setCORSHeaders o origin h in
  h' !! "Access-Control-Allow-Origin" = Some [origin] /\
  (allowCredentials o = true -> h' !! "Access-Control-Allow-Credentials" = Some ["true"]) /\
  (allowCredentials o = false -> h' !! "Access-Control-Allow-Credentials" = h !! "Access-Control-Allow-Credentials") /\
  (allowedMethods o <> ∅ -> h' !! "Access-Control-Allow-Methods" = Some [joinKeys (allowedMethods o)]).
Proof.
  unfold setCORSHeaders, header_Set.
  change (CanonicalHeaderKey "Access-Control-Allow-Origin") with "Access-Control-Allow-Origin".
  change (CanonicalHeaderKey "Access-Control-Allow-Credentials") with "Access-Control-Allow-Credentials".
  change (CanonicalHeaderKey "Access-Control-Allow-Methods") with "Access-Control-Allow-Methods".
  change (CanonicalHeaderKey "Access-Control-Allow-Headers") with "Access-Control-Allow-Headers".
  change (CanonicalHeaderKey "Access-Control-Expose-Headers") with "Access-Control-Expose-Headers".
  change (CanonicalHeaderKey "Access-Control-Max-Age") with "Access-Control-Max-Age".
  assert (Hm : allowedMethods o <> ∅ -> (0 <? size (allowedMethods o))%nat = true).
  { intros Hne. apply Nat.ltb_lt. destruct (decide (size (allowedMethods o) = 0%nat)) as [Hz|]; [|lia].
    apply size_empty_inv in Hz. exfalso. apply Hne. by apply leibniz_equiv. }
  split_and!.
  - lookup_headers.
  - intros Hx. rewrite Hx. lookup_headers.
  - intros Hx. rewrite Hx. lookup_headers.
  - intros Hx. rewrite (Hm Hx). lookup_headers.
Qed.

(** What the CORS middleware does to a request, for every handler.  No
    [Origin], or one that is not allowed: the handler alone decides the response.
    Otherwise the origin is echoed and the headers set; a preflight is answered
    204 without the handler; any other request runs it on the response so
    prepared.  The default methods stay advertised whatever methods are
    configured. *)
Theorem http_cors {W} opts (next : Handler W) r w resp :
  let cfg := apply_opts opts defaultOptions in
  let origin := header_Get "Origin" (req_Header r) in
  Forall (fun o => (exists l, o = WithAllowedOrigins l) \/ (exists l, o = WithAllowedMethods l) \/
                   (exists l, o = WithAllowedHeaders l) \/ (exists b, o = WithAllowCredentials b)) opts ->
  sent resp = None ->
  (origin = "" \/ isOriginAllowed cfg origin = false -> run (Middleware opts next r w) resp = run (next r w) resp) /\
  (origin <> "" -> isOriginAllowed cfg origin = true ->
   exists h,
     h !! "Access-Control-Allow-Origin" = Some [origin] /\
     h !! "Access-Control-Allow-Methods" = Some [joinKeys (allowedMethods cfg)] /\
     (allowCredentials cfg = true -> h !! "Access-Control-Allow-Credentials" = Some ["true"]) /\
     (Method r = "OPTIONS" ->
      run (Middleware opts next r w) resp = ((Returned tt, w), mkResponse h (Some (204, h)) (body resp))) /\
     (Method r <> "OPTIONS" ->
      run (Middleware opts next r w) resp = run (next r w) (mkResponse h None (body resp)))) /\
  (forall m, m ∈ defaultMethods -> m ∈ allowedMethods cfg).
Proof.
  intros cfg origin Hopts Hsent.
  assert (Hdef : forall m, m ∈ defaultMethods -> m ∈ allowedMethods cfg).
  { intros m Hm. unfold cfg. apply (apply_opts_preserves (fun c => m ∈ allowedMethods c)).
    - eapply List.Forall_impl; [|exact Hopts].
      intros o [(l & ->)|[(l & ->)|[(l & ->)|(b & ->)]]] c Hc; simpl; set_solver.
    - change (m ∈ (list_to_set defaultMethods : gset string)). by apply elem_of_list_to_set. }
  split; [|split; [|done]].
  - intros Hno. unfold Middleware. fold cfg origin. destruct (String.eqb origin "") eqn:E; [done|].
    destruct Hno as [->|Hno]; [done|]. by rewrite Hno.
  - intros Hne Hok. exists (setCORSHeaders cfg origin (live resp)).
    destruct (setCORSHeaders_lookup cfg origin (live resp)) as (H1 & H2 & _ & H4).
    split; [done|]. split.
    { apply H4. intros Hemp. specialize (Hdef "GET" ltac:(vm_compute; left)). rewrite Hemp in Hdef. set_solver. }
    split; [done|]. unfold Middleware. fold cfg origin. rewrite (proj2 (String.eqb_neq _ _) Hne), Hok. simpl negb. cbv iota.
    split; intros HM.
    + rewrite HM, String.eqb_refl. cbn [run]. unfold rw_WriteHeader. cbn [sent]. by rewrite Hsent.
    + rewrite (proj2 (String.eqb_neq _ _) HM). cbn [run]. by rewrite Hsent.
Qed.
End middleware.

Lemma http_cors_witness :
  let opts := [WithAllowedOrigins ["https://app.example.com"]; WithAllowedMethods ["get"]] in
  let cfg := apply_opts opts defaultOptions in
  let r := mkRequest "OPTIONS" "/" {["Origin" := ["https://app.example.com"]]} [] in
  let origin := header_Get "Origin" (req_Header r) in
  let next : Handler unit := fun _ w => serve w (http_Error "no" 404) in
  (origin = "" \/ isOriginAllowed cfg origin = false ->
     run (Middleware elements opts next r tt) fresh_response = run (next r tt) fresh_response) /\
  (origin <> "" -> isOriginAllowed cfg origin = true ->
   exists h,
     h !! "Access-Control-Allow-Origin" = Some [origin] /\
     h !! "Access-Control-Allow-Methods" = Some [joinKeys elements (allowedMethods cfg)] /\
     (allowCredentials cfg = true -> h !! "Access-Control-Allow-Credentials" = Some ["true"]) /\
     (Method r = "OPTIONS" ->
      run (Middleware elements opts next r tt) fresh_response = ((Returned tt, tt), mkResponse h (Some (204, h)) "")) /\
     (Method r <> "OPTIONS" ->
      run (Middleware elements opts next r tt) fresh_response = run (next r tt) (mkResponse h None ""))) /\
  (forall m, m ∈ defaultMethods -> m ∈ allowedMethods cfg).
Proof.
  apply (http_cors elements [WithAllowedOrigins ["https://app.example.com"]; WithAllowedMethods ["get"]]
           (fun _ w => serve w (http_Error "no" 404)) (mkRequest "OPTIONS" "/" {["Origin" := ["https://app.example.com"]]} []) tt
           fresh_response); [|reflexivity].
  constructor; [left; by eexists|]. constructor; [right; left; by eexists|constructor].
Defined.
