(* ===== verification/HttpRateLimit.v ===== *)
(** [transport/http/middleware/ratelimit]: the middleware that guards a handler
    with a rate limiter, global or per key. *)
From Stdlib Require Import ZArith Lia.
From S2P Require Import Prelude Float64 GoTime GoErrors CircuitBreaker TokenBucket Bbr Http.
From stdpp Require Import base gmap strings list fin_maps.
Open Scope string_scope.
Open Scope list_scope.
Open Scope Z_scope.

(** [type options struct] *)
Record options W := mkOptions {
  waitMode : bool;
  errorHandler : option error -> Handler W;
  skipFunc : option (Request -> bool)
}.
Arguments mkOptions {W}.
Arguments waitMode {W}.
Arguments errorHandler {W}.
Arguments skipFunc {W}.

(** [func defaultErrorHandler] *)
Definition defaultErrorHandler {W} : option error -> Handler W := fun _ _ w =>
  serve w (http_Error "Too Many Requests" 429).

Definition WithWait {W} : options W -> options W := fun o =>
  mkOptions true (errorHandler o) (skipFunc o).
Definition WithErrorHandler {W} (h : option error -> Handler W) : options W -> options W := fun o =>
  mkOptions (waitMode o) h (skipFunc o).
Definition WithSkipFunc {W} (f : Request -> bool) : options W -> options W := fun o =>
  mkOptions (waitMode o) (errorHandler o) (Some f).

Definition defaultOptions {W} : options W := mkOptions false defaultErrorHandler None.

Definition skips {W} (cfg : options W) (r : Request) : bool :=
  match skipFunc cfg with
  | Some f => f r
  | None => false
  end.

(** The guarded part shared by both middlewares, given the limiter's methods. *)
Definition guard {W} (cfg : options W) (allow : Go W (bool * option error)) (wait : Go W (option error))
    (next : Handler W) : Handler W := fun r w =>
  if waitMode cfg then
    call wait w (fun err w =>
      match err with
      | Some _ => errorHandler cfg err r w
      | None => next r w
      end)
  else
    call allow w (fun '(ok, err) w =>
      if negb ok || bool_decide (err <> None) then errorHandler cfg err r w
      else next r w).

(** [func Middleware(limiter ratelimit.Limiter, opts ...Option)]; [wait] is the
    limiter's [Wait] with the request's context. *)
Definition Middleware {W} `{RateLimiter W} (wait : Go W (option error)) (opts : list (options W -> options W))
    : Http.Middleware W :=
  let cfg := apply_opts opts defaultOptions in
  fun next r w => if skips cfg r then next r w else guard cfg rl_Allow wait next r w.

Section keyed.
Context {L W : Type} `{RateLimiter (L * W)} (wait : Go (L * W) (option error)) (factory : string -> Go W L).

(** [getLimiter := func(key string)] *)
Definition getLimiter (key : string) : Go (gmap string L * W) L := fun '(m, w) =>
  match m !! key with
  | Some l => (Returned l, (m, w))
  | None =>
      match factory key w with
      | (Returned l, w') => (Returned l, (<[key := l]> m, w'))
      | (Panicked, w') => (Panicked, (m, w'))
      end
  end.

(** A method call on the limiter of [key]. *)
Definition at_key {A} (key : string) (op : Go (L * W) A) : Go (gmap string L * W) A := fun s =>
  match getLimiter key s with
  | (Returned l, (m, w)) => let '(res, (l', w')) := op (l, w) in (res, (<[key := l']> m, w'))
  | (Panicked, s') => (Panicked, s')
  end.

(** [func MiddlewareKeyed(keyFn KeyFunc, factory LimiterFactory, opts ...Option)] *)
Definition MiddlewareKeyed (keyFn : Request -> string)
    (opts : list (options (gmap string L * W) -> options (gmap string L * W))) : Http.Middleware (gmap string L * W) :=
  let cfg := apply_opts opts defaultOptions in
  fun next r w =>
    if skips cfg r then next r w
    else let key := keyFn r in guard cfg (at_key key rl_Allow) (at_key key wait) next r w.

(** Per-key limiting.  A request is answered 429, its handler not run,
    exactly when the limiter of its own key refuses it; and whatever the outcome,
    every other key's limiter is exactly as the handler (if run) left it: one
    client can not use up another one's limit. *)
Theorem http_keyed_isolation keyFn (next : Handler (gmap string L * W)) r m w resp l w0 :
  sent resp = None -> (m !! keyFn r = Some l /\ w0 = w \/ m !! keyFn r = None /\ factory (keyFn r) w = (Returned l, w0)) ->
  let '((res, (m1, w1)), resp1) := run (MiddlewareKeyed keyFn [] next r (m, w)) resp in
  match rl_Allow (l, w0) with
  | (Returned (true, None), (l', w')) =>
      ((res, (m1, w1)), resp1) = run (next r (<[keyFn r := l']> m, w')) resp
  | (Returned _, (l', w')) =>
      res = Returned tt /\ m1 = <[keyFn r := l']> m /\ w1 = w' /\ exists h, sent resp1 = Some (429, h)
  | (Panicked, (l', w')) => res = Panicked /\ m1 = <[keyFn r := l']> m /\ resp1 = resp
  end.
Proof.
  intros Hsent Hl. unfold MiddlewareKeyed, guard, call. cbn [skips apply_opts fold_left defaultOptions skipFunc waitMode].
  assert (E : at_key (keyFn r) rl_Allow (m, w) =
    let '(res, (l', w')) := rl_Allow (l, w0) in (res, (<[keyFn r := l']> m, w'))).
  { unfold at_key, getLimiter. destruct Hl as [[-> ->]|[-> ->]]; [done|].
    destruct (rl_Allow (l, w0)) as [res [l' w']]. by rewrite insert_insert_eq. }
  rewrite E. destruct (rl_Allow (l, w0)) as [[[ok err]|] [l' w']]; [|done].
  destruct (run_serve_error (<[keyFn r := l']> m, w') "Too Many Requests" 429 resp) as (resp1 & Er & Hs & _);
    [lia..|done|].
  destruct ok, err as [e|]; cbn [negb orb].
  - rewrite bool_decide_true by done.
    change (errorHandler _ _ r ?s) with (serve s (http_Error "Too Many Requests" 429)). rewrite Er. by split_and!; eauto.
  - rewrite bool_decide_false by (intros Hx; by apply Hx). by destruct (run (next r _) resp) as [[res [m1 w1]] resp2].
  - change (errorHandler _ _ r ?s) with (serve s (http_Error "Too Many Requests" 429)). rewrite Er. by split_and!; eauto.
  - change (errorHandler _ _ r ?s) with (serve s (http_Error "Too Many Requests" 429)). rewrite Er. by split_and!; eauto.
Qed.
End keyed.

#[local] Existing Instance TickRuntime.
#[local] Existing Instance amd64.

(** A per-key BBR limiter whose first client has used up its limit. *)
Lemma http_keyed_isolation_witness :
  let factory := fun _ : string => (fun w => let '(l, w') := Bbr.New [] w in (Returned l, w')) : Go Z Bbr.Limiter in
  let l := fst (Bbr.New [] 0) in
  let next : Handler (gmap string Bbr.Limiter * Z) := fun _ s => serve s (Write "ok" (fun _ => Ret tt)) in
  let r := mkRequest "GET" "/" ∅ [] in
  let '((res, (m1, w1)), resp1) := run (MiddlewareKeyed (mret None) factory URL_Path [] next r (∅, 0)) fresh_response in
  match rl_Allow (l, 1) with
  | (Returned (true, None), (l', w')) =>
      ((res, (m1, w1)), resp1) = run (next r (<[URL_Path r := l']> ∅, w')) fresh_response
  | (Returned _, (l', w')) =>
      res = Returned tt /\ m1 = <[URL_Path r := l']> ∅ /\ w1 = w' /\ exists h, sent resp1 = Some (429, h)
  | (Panicked, (l', w')) => res = Panicked /\ m1 = <[URL_Path r := l']> ∅ /\ resp1 = fresh_response
  end.
Proof.
  exact (http_keyed_isolation (mret None) (fun _ : string => (fun w => let '(l, w') := Bbr.New [] w in (Returned l, w')) : Go Z Bbr.Limiter)
           URL_Path (fun _ s => serve s (Write "ok" (fun _ => Ret tt))) (mkRequest "GET" "/" ∅ []) ∅ 0 fresh_response
           (fst (Bbr.New [] 0)) 1 eq_refl (or_intror (conj eq_refl eq_refl))).
Defined.
