(* ===== verification/Grpc.v ===== *)
(** What the gRPC packages use of [google.golang.org/grpc], as parameters, and
    [transport/grpc/middleware/errors]: the translation between the framework's
    errors and gRPC statuses on both sides of a call. *)
From Stdlib Require Import ZArith Lia.
From S2P Require Import Prelude GoErrors.
From stdpp Require Import base gmap strings list fin_maps.
Open Scope string_scope.
Open Scope list_scope.
Open Scope Z_scope.

(** The numbers of the [codes] package. *)
Module codes.
Definition OK : Z := 0.
Definition Canceled : Z := 1.
Definition Unknown : Z := 2.
Definition InvalidArgument : Z := 3.
Definition DeadlineExceeded : Z := 4.
Definition NotFound : Z := 5.
Definition AlreadyExists : Z := 6.
Definition PermissionDenied : Z := 7.
Definition ResourceExhausted : Z := 8.
Definition FailedPrecondition : Z := 9.
Definition Aborted : Z := 10.
Definition OutOfRange : Z := 11.
Definition Unimplemented : Z := 12.
Definition Internal : Z := 13.
Definition Unavailable : Z := 14.
Definition DataLoss : Z := 15.
Definition Unauthenticated : Z := 16.
End codes.

(** A [*status.Status]: its code and message. *)
Definition Status := (Z * string)%type.

(** The library's functions: [Status.Err], [status.FromError] (with its [ok])
    and [Code.String]. *)
Class GrpcLib := {
  status_Err : Status -> option error;
  status_FromError : error -> Status * bool;
  code_String : Z -> string
}.

(** Their documented behaviour: [Err] is nil for OK and otherwise an error that
    carries the status, which [FromError] gives back; [FromError] reports
    [Unknown] for an error that carries none. *)
Class GrpcLaws `{GrpcLib} := {
  Err_OK : forall msg, status_Err (codes.OK, msg) = None;
  Err_status : forall c msg, c <> codes.OK ->
    exists e, status_Err (c, msg) = Some e /\ status_FromError e = ((c, msg), true) /\ errors_As e = None;
  FromError_app : forall e, snd (status_FromError (AppError e)) = false /\
    fst (fst (status_FromError (AppError e))) = codes.Unknown
}.

(** An implementation of the library, which shows that the laws can hold. *)
Definition model_FromError (e : error) : Status * bool :=
  match e with
  | StatusError c msg => ((c, msg), true)
  | _ => ((codes.Unknown, ""), false)
  end.

#[local] Instance model_lib : GrpcLib := {|
  status_Err := fun '(c, msg) => if c =? codes.OK then None else Some (StatusError c msg);
  status_FromError := model_FromError;
  code_String := fun c => if c =? codes.NotFound then "NotFound" else "Other"
|}.

Lemma model_laws : GrpcLaws.
Proof.
  split.
  - done.
  - intros c msg Hc. simpl. rewrite (proj2 (Z.eqb_neq c _) Hc). by eexists.
  - done.
Qed.

(** * [middleware/errors] *)

(** [var httpToGRPC] *)
Definition httpToGRPC_entries : list (Z * Z) :=
  [(200, codes.OK); (400, codes.InvalidArgument); (401, codes.Unauthenticated);
    (403, codes.PermissionDenied); (404, codes.NotFound); (409, codes.Aborted);
    (412, codes.FailedPrecondition); (422, codes.InvalidArgument); (429, codes.ResourceExhausted);
    (500, codes.Internal); (501, codes.Unimplemented); (502, codes.Unavailable);
    (503, codes.Unavailable); (504, codes.DeadlineExceeded)].

Definition httpToGRPC : gmap Z Z := list_to_map httpToGRPC_entries.

(** [var grpcToHTTP] *)
Definition grpcToHTTP : gmap Z Z :=
  list_to_map [(codes.OK, 200); (codes.Canceled, 499); (codes.Unknown, 500); (codes.InvalidArgument, 400);
    (codes.DeadlineExceeded, 504); (codes.NotFound, 404); (codes.AlreadyExists, 409);
    (codes.PermissionDenied, 403); (codes.ResourceExhausted, 429); (codes.FailedPrecondition, 400);
    (codes.Aborted, 409); (codes.OutOfRange, 400); (codes.Unimplemented, 501); (codes.Internal, 500);
    (codes.Unavailable, 503); (codes.DataLoss, 500); (codes.Unauthenticated, 401)].

(** [func HTTPToGRPC], [func GRPCToHTTP] *)
Definition HTTPToGRPC (httpCode : Z) : Z := default codes.Unknown (httpToGRPC !! httpCode).
Definition GRPCToHTTP (c : Z) : Z := default 500 (grpcToHTTP !! c).

Section interceptors.
Context `{GrpcLib}.

(** [func FromGRPCStatus], [func ToGRPCStatus] *)
Definition FromGRPCStatus (st : Status) : Error :=
  New (GRPCToHTTP (fst st)) (code_String (fst st)) (snd st).
Definition ToGRPCStatus (e : Error) : Status := (HTTPToGRPC (Code e), Message e).

(** [func UnaryServerInterceptor], on the result of the handler; the response is
    [None] for a nil one. *)
Definition UnaryServerInterceptor {R} (res : option R * option error) : option R * option error :=
  let '(resp, err) := res in
  match err with
  | None => (resp, None)
  | Some e =>
      match FromError (Some e) with
      | Some ae => (None, status_Err (ToGRPCStatus ae))
      | None => (resp, Some e)
      end
  end.

(** [func StreamServerInterceptor] *)
Definition StreamServerInterceptor (err : option error) : option error :=
  match err with
  | None => None
  | Some e =>
      match FromError (Some e) with
      | Some ae => status_Err (ToGRPCStatus ae)
      | None => Some e
      end
  end.

(** [func UnaryClientInterceptor], on the result of the invoker *)
Definition UnaryClientInterceptor (err : option error) : option error :=
  match err with
  | None => None
  | Some e =>
      let '(st, ok) := status_FromError e in
      if ok && negb (fst st =? codes.OK) then Some (AppError (FromGRPCStatus st)) else Some e
  end.

(** [func StreamClientInterceptor] *)
Definition StreamClientInterceptor {T} (res : option T * option error) : option T * option error :=
  let '(stream, err) := res in
  match err with
  | None => (stream, None)
  | Some e =>
      let '(st, ok) := status_FromError e in
      if ok && negb (fst st =? codes.OK) then (None, Some (AppError (FromGRPCStatus st))) else (stream, Some e)
  end.

(** The codes that survive the trip. *)
Definition stable_codes : list Z := [400; 401; 403; 404; 409; 429; 500; 501; 503; 504].

(** The code a client sees for a server's code. *)
Definition seen (h : Z) : Z := GRPCToHTTP (HTTPToGRPC h).

(** A boolean fact on all codes is checked on the table and on an unmapped code. *)
Lemma code_cases (p : Z -> bool) h :
  forallb p (map fst httpToGRPC_entries) = true -> (httpToGRPC !! h = None -> p h = true) -> p h = true.
Proof.
  intros Hf Hn. destruct (httpToGRPC !! h) as [c|] eqn:E; [|auto].
  apply elem_of_list_to_map_2 in E. rewrite forallb_forall in Hf. apply Hf.
  apply in_map_iff. exists (h, c). split; [done|]. by apply list_elem_of_In.
Qed.

Lemma unmapped h : httpToGRPC !! h = None -> HTTPToGRPC h = codes.Unknown /\ h ∉ map fst httpToGRPC_entries.
Proof.
  intros E. split; [unfold HTTPToGRPC; by rewrite E|]. by apply not_elem_of_list_to_map_2.
Qed.

Lemma HTTPToGRPC_OK h : HTTPToGRPC h = codes.OK -> h = 200.
Proof.
  intros Hc. apply Z.eqb_eq.
  enough ((negb (HTTPToGRPC h =? codes.OK) || (h =? 200)) = true) as He by (by rewrite Hc in He).
  apply (code_cases (fun h => negb (HTTPToGRPC h =? codes.OK) || (h =? 200))); [by vm_compute|].
  intros E. by rewrite (proj1 (unmapped h E)).
Qed.

Definition is_stable (h : Z) : bool := existsb (Z.eqb h) stable_codes.

Lemma is_stable_spec h : is_stable h = true <-> h ∈ stable_codes.
Proof.
  unfold is_stable. rewrite existsb_exists, list_elem_of_In. split.
  - intros (x & Hx & E). apply Z.eqb_eq in E. by subst.
  - intros Hx. exists h. by rewrite Z.eqb_refl.
Qed.

Lemma seen_fixpoint h : h <> 200 -> seen h = h <-> h ∈ stable_codes.
Proof.
  intros Hne. rewrite <- is_stable_spec, <- Z.eqb_eq.
  enough (((h =? 200) || Bool.eqb (seen h =? h) (is_stable h)) = true) as He.
  { rewrite (proj2 (Z.eqb_neq _ _) Hne), orb_false_l in He. apply eqb_prop in He. by rewrite He. }
  apply (code_cases (fun h => (h =? 200) || Bool.eqb (seen h =? h) (is_stable h))); [by vm_compute|].
  intros E. destruct (unmapped h E) as [Hu Hn]. unfold seen. rewrite Hu. change (GRPCToHTTP codes.Unknown) with 500.
  assert (is_stable h = false) as ->.
  { apply not_true_iff_false. rewrite is_stable_spec, list_elem_of_In. intros Hx. apply Hn, list_elem_of_In.
    assert (Hall : forallb (fun x => existsb (Z.eqb x) (map fst httpToGRPC_entries)) stable_codes = true) by done.
    rewrite forallb_forall in Hall. apply Hall, existsb_exists in Hx as (y & Hy & E'). apply Z.eqb_eq in E'. by subst. }
  rewrite (proj2 (Z.eqb_neq 500 h)); [apply orb_true_r|]. intros <-. apply Hn, list_elem_of_In. simpl. tauto.
Qed.

Lemma seen_idem h : seen (seen h) = seen h.
Proof.
  apply Z.eqb_eq, (code_cases (fun h => seen (seen h) =? seen h)); [by vm_compute|].
  intros E. unfold seen at 2 3. by rewrite (proj1 (unmapped h E)).
Qed.

(** C13: An error of the framework across a gRPC call with the interceptors on
    both sides.  The handler's error, wrapped however deeply, reaches the client
    as an error of the framework with the same message and with the code mapped
    through gRPC; the code is unchanged exactly for the ten codes of
    [stable_codes]; applying the mapping again changes nothing further.  A
    success stays a success, and the only error that is lost is one whose code
    is 200. *)
Theorem grpc_error_round_trip `{!GrpcLaws} {R} (resp : option R) err :
  let '(resp', wire) := UnaryServerInterceptor (resp, err) in
  let final := UnaryClientInterceptor wire in
  (err = None -> resp' = resp /\ final = None) /\
  (forall e, FromError err = Some e ->
     resp' = None /\
     (Code e = 200 -> final = None) /\
     (Code e <> 200 ->
      exists e', final = Some (AppError e') /\ FromError final = Some e' /\ Message e' = Message e /\
        Code e' = seen (Code e) /\ (Code e' = Code e <-> Code e ∈ stable_codes) /\ seen (Code e') = Code e')).
Proof.
  unfold UnaryServerInterceptor. destruct err as [err|]; [|by split; [|done]].
  destruct (FromError (Some err)) as [ae|] eqn:Ef.
  - split; [done|]. intros e He. simplify_eq. split; [done|]. unfold ToGRPCStatus. split.
    + intros ->. change (HTTPToGRPC 200) with codes.OK. by rewrite Err_OK.
    + intros Hne. assert (Hc : HTTPToGRPC (Code e) <> codes.OK) by eauto using HTTPToGRPC_OK.
      destruct (Err_status (HTTPToGRPC (Code e)) (Message e) Hc) as (ge & -> & Hst & _). unfold UnaryClientInterceptor.
      rewrite Hst. cbn [fst snd andb]. rewrite (proj2 (Z.eqb_neq _ _) Hc). cbn [negb].
      eexists. split; [done|]. split; [done|]. split; [done|]. split; [done|]. split; [by apply seen_fixpoint|].
      apply seen_idem.
  - split; [done|]. by intros e ?.
Qed.
End interceptors.

Lemma grpc_error_round_trip_witness :
  let err := Some (Wrapf "service layer" (AppError (New 412 "STALE" "stale version"))) in
  let '(resp', wire) := UnaryServerInterceptor (H := model_lib) (Some tt, err) in
  let final := UnaryClientInterceptor (H := model_lib) wire in
  (err = None -> resp' = Some tt /\ final = None) /\
  (forall e, FromError err = Some e ->
     resp' = None /\
     (Code e = 200 -> final = None) /\
     (Code e <> 200 ->
      exists e', final = Some (AppError e') /\ FromError final = Some e' /\ Message e' = Message e /\
        Code e' = seen (Code e) /\ (Code e' = Code e <-> Code e ∈ stable_codes) /\ seen (Code e') = Code e')).
Proof.
  exact (grpc_error_round_trip (H := model_lib) (H0 := model_laws) (Some tt)
           (Some (Wrapf "service layer" (AppError (New 412 "STALE" "stale version"))))).
Defined.
