(* ===== verification/GrpcRetry.v ===== *)
(** [transport/grpc/middleware/retry]: the interceptors that retry idempotent
    RPCs, on the server (unary and stream) and on the client (unary). *)
From Stdlib Require Import ZArith Lia Ascii.
From S2P Require Import Prelude Float64 GoTime GoErrors Retry Grpc.
From stdpp Require Import base gmap strings list fin_maps.
Open Scope string_scope.
Open Scope list_scope.
Open Scope Z_scope.

(** [type options struct] *)
Record options := mkOptions {
  idempotentPrefixes : list string;
  retryCodes : gset Z;
  skipMethods : gset string
}.

(** [var defaultIdempotentPrefixes], [var defaultRetryCodes] *)
Definition defaultIdempotentPrefixes : list string := ["Get"; "List"; "Search"].
Definition defaultRetryCodes : gset Z := {[codes.Unavailable]}.

Definition WithIdempotentPrefixes (prefixes : list string) : options -> options := fun o =>
  mkOptions prefixes (retryCodes o) (skipMethods o).
Definition WithRetryCodes (cs : list Z) : options -> options := fun o =>
  mkOptions (idempotentPrefixes o) (list_to_set cs) (skipMethods o).
Definition WithSkipMethods (methods : list string) : options -> options := fun o =>
  mkOptions (idempotentPrefixes o) (retryCodes o) (skipMethods o ∪ list_to_set methods).

Definition defaultOptions : options := mkOptions defaultIdempotentPrefixes defaultRetryCodes ∅.

(** [fullMethod[strings.LastIndex(fullMethod, "/")+1:]], the whole string when
    there is no slash. *)
Fixpoint after_last_slash (s : string) : string :=
  match s with
  | EmptyString => EmptyString
  | String c s' =>
      let rest := after_last_slash s' in
      if Ascii.eqb c "/"%char then (if (String.length rest =? String.length s')%nat then s' else rest)
      else if (String.length rest =? String.length s')%nat then s else rest
  end.

(** [func isIdempotent(fullMethod string, prefixes []string) bool] *)
Definition isIdempotent (fullMethod : string) (prefixes : list string) : bool :=
  existsb (fun prefix => String.prefix prefix (after_last_slash fullMethod)) prefixes.

Definition bypass (cfg : options) (fullMethod : string) : bool :=
  bool_decide (fullMethod ∈ skipMethods cfg) || negb (isIdempotent fullMethod (idempotentPrefixes cfg)).

Section interceptors.
Context {W R : Type} `{World W} `{GrpcLib}.

(** A handler or invoker: the response (nil is [None]) and the error. *)
Definition Rpc := W -> (option R * option error) * W.

(** The closure given to [Do], on the variables [lastResp], [lastErr]. *)
Definition attempt (cfg : options) (handler : Rpc) : W * (option R * option error) -> option error * (W * (option R * option error)) :=
  fun '(w, _) =>
    let '((resp, err), w') := handler w in
    match err with
    | None => (None, (w', (resp, err)))
    | Some e =>
        let '(st, _) := status_FromError e in
        if bool_decide (fst st ∈ retryCodes cfg) then (Some e, (w', (resp, err)))
        else (None, (w', (resp, err)))
    end.

(** [func UnaryInterceptor(r *coreRetry.Retrier, opts ...Option)] *)
Definition UnaryInterceptor (r : Retrier W) (opts : list (options -> options)) (fullMethod : string) (handler : Rpc) : Rpc :=
  let cfg := apply_opts opts defaultOptions in
  fun w =>
    if bypass cfg fullMethod then handler w
    else
      let '(_, (w', last), _) := Do_closure r (attempt cfg handler) w (None, None) in (last, w').
End interceptors.

(** [func StreamInterceptor] and [func UnaryClientInterceptor]: the same loop
    without a response. *)
Definition StreamInterceptor {W} `{World W} `{GrpcLib} (r : Retrier W) (opts : list (options -> options))
    (fullMethod : string) (handler : W -> option error * W) : W -> option error * W := fun w =>
  let rpc : @Rpc W unit := fun w => let '(e, w') := handler w in ((None, e), w') in
  let '((_, err), w') := UnaryInterceptor r opts fullMethod rpc w in (err, w').

Definition UnaryClientInterceptor {W} `{World W} `{GrpcLib} (r : Retrier W) (opts : list (options -> options))
    (method : string) (invoker : W -> option error * W) : W -> option error * W :=
  StreamInterceptor r opts method invoker.

(** * Properties *)

Lemma after_last_slash_spec s :
  (exists p, s = (p ++ String "/" (after_last_slash s))%string) \/ after_last_slash s = s.
Proof.
  induction s as [|c s IH]; [by right|]. cbn [after_last_slash]. destruct (Ascii.eqb c "/") eqn:Ec.
  - apply Ascii.eqb_eq in Ec. subst c. destruct (_ =? _)%nat; [left; by exists ""|].
    destruct IH as [[p E]|E]; [left; exists (String "/" p); rewrite E at 1; done|].
    left. exists "". by rewrite E.
  - destruct (_ =? _)%nat eqn:El; [by right|].
    destruct IH as [[p E]|E]; [left; exists (String c p); rewrite E at 1; done|].
    rewrite E, Nat.eqb_refl in El. done.
Qed.

Section properties.
Context {W R : Type} `{World W} `{GrpcLib}.
Implicit Types (w : W) (handler : @Rpc W R).

(** A result of some attempt. *)
Definition produced handler (res : option R * option error) : Prop := exists w w', handler w = (res, w').

(** C14: The retrying interceptor runs an idempotent method under [Do], on a retrier of at
    least one attempt, and returns the result of an attempt, never a mixture.  If the
    context is not done when [Do] has read the clock, some attempt is made, its response
    and error are returned, and [Do] stops normally exactly when that error is none or not
    one of the retryable codes.  If the context is already done, no attempt is made and the
    RPC is answered with a nil response and a nil error: the handler does not run and the
    caller sees a success. *)
Theorem grpc_retry_result (r : Retrier W) opts fullMethod handler w :
  let cfg := apply_opts opts defaultOptions in
  bypass cfg fullMethod = false -> 1 <= maxAttempts r ->
  let '(out, (w', last), tr) := Do_closure r (attempt cfg handler) w (None, None) in
  UnaryInterceptor r opts fullMethod handler w = (last, w') /\
  match ctx_Err (snd (now r w)) with
  | None => produced handler last /\
            (out = None <-> match snd last with
                            | None => True
                            | Some e => fst (fst (status_FromError e)) ∉ retryCodes cfg
                            end)
  | Some e => out = Some e /\ last = (None, None) /\ w' = snd (now r w) /\ tr = []
  end.
Proof.
  intros cfg Hb Hm. unfold UnaryInterceptor. fold cfg. rewrite Hb. destruct (ctx_Err (snd (now r w))) as [e|] eqn:Hc.
  { by rewrite (Do_closure_cancelled r (attempt cfg handler) w (None, None) e Hm Hc). }
  set (retryable := fun last : option R * option error =>
    produced handler last /\ exists e, snd last = Some e /\ fst (fst (status_FromError e)) ∈ retryCodes cfg).
  set (final := fun last : option R * option error =>
    produced handler last /\ forall e, snd last = Some e -> fst (fst (status_FromError e)) ∉ retryCodes cfg).
  assert (Hstep : forall w x, match attempt cfg handler (w, x) with (None, (_, x')) => final x' | (Some _, (_, x')) => retryable x' end).
  { clear. intros w0 x. unfold attempt. destruct (handler w0) as [[resp err] w1] eqn:E.
    assert (Hp : produced handler (resp, err)) by (by exists w0, w1).
    destruct err as [e|]; [|by split]. destruct (status_FromError e) as [st ok] eqn:Es.
    destruct (bool_decide (fst st ∈ retryCodes cfg)) eqn:Ed.
    - apply bool_decide_eq_true in Ed. split; [done|]. exists e. by rewrite Es.
    - apply bool_decide_eq_false in Ed. split; [done|]. intros e' ?. simplify_eq/=. by rewrite Es. }
  pose proof (Do_closure_call retryable final r (attempt cfg handler) (fun w x _ => Hstep w x) w (None, None) Hm Hc (fun w => Hstep w _)) as HD.
  destruct (Do_closure r (attempt cfg handler) w (None, None)) as [[out [w' last]] tr]. split; [done|]. destruct out as [e|].
  - destruct HD as (Hp & e' & He' & Hin). split; [done|]. rewrite He'. split; [done|]. intros Hx. by destruct (Hx Hin).
  - destruct HD as [Hp Hn]. split; [done|]. split; [|done]. intros _. destruct (snd last) as [e|]; auto.
Qed.
End properties.

Lemma grpc_retry_result_witness :
  let r := New (H := amd64) [] in
  let handler : @Rpc Script unit := fun w => ((Some tt, None), w) in
  let run w := Do_closure r (attempt (H0 := model_lib) defaultOptions handler) w (None, None) in
  let call w := UnaryInterceptor (H0 := model_lib) r [] "/pkg.UserService/GetUser" handler w in
  let post (w : Script) :=
    let '(out, (w', last), tr) := run w in
    call w = (last, w') /\
    match ctx_Err (snd (now r w)) with
    | None => produced handler last /\
              (out = None <-> match snd last with
                              | None => True
                              | Some e => fst (fst (status_FromError (GrpcLib := model_lib) e)) ∉ retryCodes defaultOptions
                              end)
    | Some e => out = Some e /\ last = (None, None) /\ w' = snd (now r w) /\ tr = []
    end in
  (post (mkScript [] 10 (Some 0)) /\ fst (call (mkScript [] 10 (Some 0))) = (None, None)) /\
  (post (mkScript [] 10 None) /\ fst (call (mkScript [] 10 None)) = (Some tt, None)).
Proof.
  pose proof (fun w => grpc_retry_result (H0 := model_lib) (New (H := amd64) []) [] "/pkg.UserService/GetUser"
    (fun w : Script => ((Some tt, None), w)) w eq_refl ltac:(vm_compute; discriminate)) as Hall.
  split; split; first [apply Hall | reflexivity].
Defined.
