(* ===== verification/GrpcGuard.v ===== *)
(** [transport/grpc/middleware/circuitbreaker] and
    [transport/grpc/middleware/ratelimit]: the server and client interceptors
    that guard RPCs, proved against the breaker and limiter interfaces. *)
From Stdlib Require Import ZArith Lia.
From S2P Require Import Prelude Float64 GoTime GoErrors TokenBucket CircuitBreaker Hystrix Grpc.
From stdpp Require Import base gmap strings list fin_maps.
Open Scope string_scope.
Open Scope list_scope.
Open Scope Z_scope.

(** * [middleware/circuitbreaker] *)
Module Breakers.

(** [type options struct]; a nil [failureCodes] is [None]. *)
Record options := mkOptions { failureCodes : option (gset Z); skipMethods : gset string }.

Definition WithFailureCodes (cs : list Z) : options -> options := fun o =>
  mkOptions (Some (list_to_set cs)) (skipMethods o).
Definition WithSkipMethods (methods : list string) : options -> options := fun o =>
  mkOptions (failureCodes o) (skipMethods o ∪ list_to_set methods).

Definition noOptions : options := mkOptions None ∅.

Section interceptors.
Context {W : Type} `{CircuitBreaker W} `{GrpcLib}.

(** [isFailure := func(err error) bool] *)
Definition isFailure (cfg : options) (err : option error) : bool :=
  match err with
  | None => false
  | Some e =>
      let '(st, _) := status_FromError e in
      match failureCodes cfg with
      | Some cs => bool_decide (fst st ∈ cs)
      | None => codes.Internal <=? fst st
      end
  end.

Definition open_error : option error := status_Err (codes.Unavailable, "circuit breaker is open").

(** [func UnaryInterceptor], [func StreamClientInterceptor] *)
Definition UnaryInterceptor {R} (opts : list (options -> options)) (fullMethod : string)
    (handler : Go W (option R * option error)) : Go W (option R * option error) :=
  let cfg := apply_opts opts noOptions in
  if bool_decide (fullMethod ∈ skipMethods cfg) then handler
  else
    err ← cb_Allow;
    match err with
    | Some _ => mret (None, open_error)
    | None =>
        '(resp, err) ← handler;
        (if isFailure cfg err then cb_MarkFailure else cb_MarkSuccess) ;;
        mret (resp, err)
    end.

Definition StreamClientInterceptor {R} (opts : list (options -> options)) (method : string)
    (streamer : Go W (option R * option error)) : Go W (option R * option error) :=
  UnaryInterceptor opts method streamer.

(** [func StreamInterceptor], [func UnaryClientInterceptor] *)
Definition StreamInterceptor (opts : list (options -> options)) (fullMethod : string)
    (handler : Go W (option error)) : Go W (option error) :=
  let cfg := apply_opts opts noOptions in
  if bool_decide (fullMethod ∈ skipMethods cfg) then handler
  else
    err ← cb_Allow;
    match err with
    | Some _ => mret open_error
    | None =>
        err ← handler;
        (if isFailure cfg err then cb_MarkFailure else cb_MarkSuccess) ;;
        mret err
    end.

Definition UnaryClientInterceptor (opts : list (options -> options)) (method : string)
    (invoker : Go W (option error)) : Go W (option error) :=
  StreamInterceptor opts method invoker.
End interceptors.
End Breakers.

(** * [middleware/ratelimit] *)
Module Limits.

(** [type options struct] *)
Record options := mkOptions { waitMode : bool; skipMethods : gset string }.

Definition WithWait : options -> options := fun o => mkOptions true (skipMethods o).
Definition WithSkipMethods (methods : list string) : options -> options := fun o =>
  mkOptions (waitMode o) (skipMethods o ∪ list_to_set methods).

Section interceptors.
Context {W : Type} `{RateLimiter W} `{GrpcLib} (wait : Go W (option error)).

Definition limit_error : option error := status_Err (codes.ResourceExhausted, "rate limit exceeded").

(** Whether the limiter lets the RPC through. *)
Definition admitted (cfg : options) : Go W bool :=
  if waitMode cfg then err ← wait; mret (bool_decide (err = None))
  else '(ok, err) ← rl_Allow; mret (negb (negb ok || bool_decide (err <> None))).

(** [func UnaryInterceptor], [func StreamClientInterceptor] *)
Definition UnaryInterceptor {R} (opts : list (options -> options)) (fullMethod : string)
    (handler : Go W (option R * option error)) : Go W (option R * option error) :=
  let cfg := apply_opts opts (mkOptions false ∅) in
  if bool_decide (fullMethod ∈ skipMethods cfg) then handler
  else ok ← admitted cfg; if (ok : bool) then handler else mret (None, limit_error).

Definition StreamClientInterceptor {R} (opts : list (options -> options)) (method : string)
    (streamer : Go W (option R * option error)) : Go W (option R * option error) :=
  UnaryInterceptor opts method streamer.

(** [func StreamInterceptor], [func UnaryClientInterceptor] *)
Definition StreamInterceptor (opts : list (options -> options)) (fullMethod : string)
    (handler : Go W (option error)) : Go W (option error) :=
  let cfg := apply_opts opts (mkOptions false ∅) in
  if bool_decide (fullMethod ∈ skipMethods cfg) then handler
  else ok ← admitted cfg; if (ok : bool) then handler else mret limit_error.

Definition UnaryClientInterceptor (opts : list (options -> options)) (method : string)
    (invoker : Go W (option error)) : Go W (option error) :=
  StreamInterceptor opts method invoker.
End interceptors.
End Limits.

(** * Properties *)

(** With its default failure codes the gRPC breaker interceptor does not
    react to plain errors: an RPC that fails with an error carrying no gRPC
    status has code Unknown, which is below Internal, so it is marked as a
    success.  Guarded by a Hystrix breaker, any number of consecutive such
    failures leaves the breaker closed: every RPC is admitted and its error
    returned. *)
Theorem grpc_breaker_plain_errors {W} `{Runtime W} `{GrpcLib} n err method opts (w : W) :
  let c := apply_opts opts defaultConfig in
  fst (fst (status_FromError err)) = codes.Unknown ->
  clock_ok W -> 0 < bucketCount c <= window c -> window c <= int64_max ->
  fgtb (errorThreshold c) f0 = true -> fleb (errorThreshold c) f1 = true -> 0 < requestVolumeThreshold c ->
  Z.of_nat n < 2 ^ 53 - 1 ->
  exists b' w',
    mapM (fun _ => Breakers.UnaryInterceptor (R := unit) [] method (mret (None, Some err))) (replicate n tt)
      (New opts w) = (Returned (replicate n (None, Some err)), (b', w')) /\
    state b' = StateClosed /\ total_errors (buckets b') = 0.
Proof.
  intros c Hu Hclk Hbc Hw Ht0 Ht1 Hv Hn. destruct (New_inv opts w Hbc Hw) as (HI & Hc & Hs).
  assert (He : total_errors (buckets (fst (New opts w))) = 0 /\ closed (fst (New opts w)) = false).
  { unfold New. destruct (time_Now w). simpl. split; [|done]. unfold total_errors.
    induction (Z.to_nat _); simpl in *; lia. }
  destruct (New opts w) as [b w0]. simpl in *. destruct He as [He Hcl]. fold c in Hc.
  assert (Hgen : forall m N b w0, Inv N b -> 0 <= N -> N + Z.of_nat m < 2 ^ 53 - 1 -> cfg b = c -> state b = StateClosed ->
    total_errors (buckets b) = 0 -> closed b = false ->
    exists b' w', mapM (fun _ => Breakers.UnaryInterceptor (R := unit) [] method (mret (None, Some err))) (replicate m tt)
      (b, w0) = (Returned (replicate m (None, Some err)), (b', w')) /\
      state b' = StateClosed /\ total_errors (buckets b') = 0).
  { clear -Hclk Ht0 Ht1 Hv Hu. induction m as [|m IH]; intros N b w0 HI HN Hb Hc Hs He Hcl; [by exists b, w0|].
    assert (Hstep : exists b1 w1, Breakers.UnaryInterceptor (R := unit) [] method (mret (None, Some err)) (b, w0) =
      (Returned (None, Some err), (b1, w1)) /\ Inv (N + 1) b1 /\ state b1 = StateClosed /\
      total_errors (buckets b1) = 0 /\ cfg b1 = c /\ closed b1 = false).
    { assert (Hallow : cb_Allow (b, w0) = (Returned None, (b, snd (time_Now w0)))).
      { change (Allow (b, w0) = (Returned None, (b, snd (time_Now w0)))). rewrite Allow_eq, Hcl, Hs. by destruct (time_Now w0). }
      destruct (mark_clean N b (snd (time_Now w0)) Hclk HI HN ltac:(lia) Hs) as (b1 & w1 & HM & HI1 & Hs1 & He1 & Hc1 & Hcl1);
        [congruence..|].
      exists b1, w1. split; [|split_and!; try done; congruence].
      unfold Breakers.UnaryInterceptor. cbn [apply_opts fold_left Breakers.skipMethods Breakers.noOptions].
      rewrite bool_decide_false by set_solver. rewrite (go_bind_returned _ _ _ _ _ Hallow).
      assert (Hf : Breakers.isFailure Breakers.noOptions (Some err) = false).
      { unfold Breakers.isFailure. destruct (status_FromError err) as [st ok]. simpl in Hu. by rewrite Hu. }
      change (((if Breakers.isFailure Breakers.noOptions (Some err) then cb_MarkFailure else cb_MarkSuccess) ;;
               mret (@None unit, Some err)) (b, snd (time_Now w0)) = (Returned (@None unit, Some err), (b1, w1))).
      rewrite Hf. by rewrite (go_bind_returned MarkSuccess _ _ _ _ HM). }
    destruct Hstep as (b1 & w1 & E & HI1 & Hs1 & He1 & Hc1 & Hcl1).
    destruct (IH (N + 1) b1 w1 HI1) as (b' & w' & E' & Hrest); try done; try lia.
    exists b', w'. split; [|done]. cbn [replicate mapM]. by rewrite (go_bind_returned _ _ _ _ _ E), (go_bind_returned _ _ _ _ _ E'). }
  apply (Hgen n 0 b w0); try done; lia.
Qed.

#[local] Existing Instance TickRuntime.
#[local] Existing Instance model_lib.

Lemma grpc_breaker_plain_errors_witness :
  exists b' w',
    mapM (fun _ => Breakers.UnaryInterceptor (R := unit) [] "/pkg.Svc/Get" (mret (None, Some (AppError (GoErrors.New 500 "" "db down")))))
      (replicate 50 tt) (New [] 0) =
      (Returned (replicate 50 (None, Some (AppError (GoErrors.New 500 "" "db down")))), (b', w')) /\
    state b' = StateClosed /\ total_errors (buckets b') = 0.
Proof.
  apply (grpc_breaker_plain_errors (H := TickRuntime) 50 (AppError (GoErrors.New 500 "" "db down")) "/pkg.Svc/Get" [] 0);
    [reflexivity|apply TickRuntime_ok|vm_compute; repeat split; (reflexivity || discriminate)..].
Defined.
