(* ===== verification/Health.v ===== *)
(** [health]: the health aggregator and its HTTP handlers.

    [Check] runs every checker in a goroutine of its own; each yields its result
    or, when the context is done first, a timeout, and the results are merged in
    the order they arrive.  The arrival order and the outcomes are arguments of
    the model. *)
From Stdlib Require Import ZArith Lia.
From S2P Require Import Prelude GoTime GoErrors Http.
From stdpp Require Import base gmap strings list fin_maps.
Open Scope string_scope.
Open Scope list_scope.
Open Scope Z_scope.

(** [type Status int] *)
Inductive Status := StatusUnknown | StatusUp | StatusDown.

#[export] Instance Status_eq_dec : EqDecision Status.
Proof. solve_decision. Defined.

(** [func (s Status) String() string] *)
Definition Status_String (s : Status) : string :=
  match s with
  | StatusUp => "up"
  | StatusDown => "down"
  | StatusUnknown => "unknown"
  end.

(** [type Result struct]; [D] is the type of the detail values. *)
Record Result (D : Type) := mkResult { res_Status : Status; res_Message : string; res_Details : gmap string D }.
Arguments mkResult {D}.
Arguments res_Status {D}.
Arguments res_Message {D}.
Arguments res_Details {D}.

(** [func (f PingFunc) Check(ctx context.Context) Result]; [None] is a nil
    function, and the argument of [Some] the error it returns. *)
Definition PingFunc_Check {D} (f : option (option error)) (error_text : error -> string) : Result D :=
  match f with
  | None => mkResult StatusUnknown "checker is nil" ∅
  | Some (Some err) => mkResult StatusDown (error_text err) ∅
  | Some None => mkResult StatusUp "" ∅
  end.

Section health.
(** Checkers [C], and the values [D] of their details. *)
Context {C D : Type}.

(** [type Health struct] *)
Record Health := mkHealth { checkers : gmap string C; timeout : Duration }.

Definition WithTimeout (d : Duration) : Health -> Health := fun h => mkHealth (checkers h) d.

(** [func New(opts ...Option) *Health] *)
Definition New (opts : list (Health -> Health)) : Health := apply_opts opts (mkHealth ∅ (5 * Second)).

(** [func (h *Health) Register], [func (h *Health) Deregister] *)
Definition Register (name : string) (c : C) (h : Health) : Health := mkHealth (<[name := c]> (checkers h)) (timeout h).
Definition Deregister (name : string) (h : Health) : Health := mkHealth (delete name (checkers h)) (timeout h).

(** [func (h *Health) Names() []string], in the order of [range] *)
Definition Names (h : Health) : list string := elements (dom (checkers h)).

(** A detail of a checker in the aggregate: its status and message, and its own
    details. *)
Inductive detail := DString (s : string) | DValue (v : D).

Section check.
(** [fmt.Sprintf("%q", name)], and the outcome of each checker within the
    timeout: [None] when the context was done first. *)
Context (quote : string -> string) (outcome : string -> C -> option (Result D)).

(** The result of the goroutine of one checker. *)
Definition run_checker (name : string) (c : C) : Result D :=
  match outcome name c with
  | Some res => res
  | None => mkResult StatusDown ("checker " ++ quote name ++ " timed out") ∅
  end.

Definition details_of (res : Result D) : gmap string detail :=
  (DValue <$> res_Details res) ∪
    (<["status" := DString (Status_String (res_Status res))]> {["message" := DString (res_Message res)]}).

(** One turn of the merging loop. *)
Definition merge (acc : Status * gmap string (gmap string detail)) (cr : string * Result D)
    : Status * gmap string (gmap string detail) :=
  let '(overall, details) := acc in
  let '(name, res) := cr in
  let details := <[name := details_of res]> details in
  if decide (res_Status res = StatusDown) then (StatusDown, details)
  else if decide (res_Status res = StatusUnknown) then
    (if decide (overall <> StatusDown) then StatusUnknown else overall, details)
  else (overall, details).

(** [func (h *Health) Check(ctx context.Context) Result], the results arriving
    in the order [arrival] of the checkers' names. *)
Definition Check (h : Health) (arrival : list string) : Result (gmap string detail) :=
  if (size (checkers h) =? 0)%nat then mkResult StatusUp "no checkers registered" ∅
  else
    let results := omap (fun name => (fun c => (name, run_checker name c)) <$> checkers h !! name) arrival in
    let '(overall, details) := fold_left merge results (StatusUp, ∅) in
    mkResult overall "" details.

(** * [handler.go] *)

(** [func (h *Handler) ServeHTTP]; [encode] is the JSON encoding of the
    response, which drops an empty message and empty checks; [None] when a detail
    has no encoding, and nothing is written. *)
Definition ServeHTTP {W} (encode : string -> string -> gmap string (gmap string detail) -> option string)
    (h : Health) (arrival : list string) : Handler W := fun _ w =>
  let result := Check h arrival in
  let statusCode := if decide (res_Status result = StatusDown) then 503 else 200 in
  HeaderMap (header_Set "Content-Type" "application/json; charset=utf-8")
    (WriteHeader statusCode
      match encode (Status_String (res_Status result)) (res_Message result) (res_Details result) with
      | Some text => Write text (fun _ => Ret (Returned tt, w))
      | None => Ret (Returned tt, w)
      end).

(** [func ( *livenessHandler) ServeHTTP] *)
Definition LivenessServeHTTP {W} (encode : string -> string) : Handler W := fun _ w =>
  HeaderMap (header_Set "Content-Type" "application/json; charset=utf-8")
    (WriteHeader 200 (Write (encode "up") (fun _ => Ret (Returned tt, w)))).

(** * Properties *)

(** The worst status: down, then unknown, then up. *)
Definition severity (s : Status) : Z :=
  match s with StatusUp => 0 | StatusUnknown => 1 | StatusDown => 2 end.

Definition worse (a b : Status) : Status := if severity a <? severity b then b else a.

Lemma merge_spec acc name res :
  merge acc (name, res) = (worse (fst acc) (res_Status res), <[name := details_of res]> (snd acc)).
Proof. destruct acc as [[] d]; simpl; destruct (res_Status res); done. Qed.

Lemma fold_merge results acc :
  fold_left merge results acc =
    (foldl worse (fst acc) (map (fun cr => res_Status (snd cr)) results),
     foldl (fun m cr => <[fst cr := details_of (snd cr)]> m) (snd acc) results).
Proof.
  revert acc. induction results as [|[name res] results IH]; intros acc; simpl; [by destruct acc|].
  by rewrite IH, merge_spec.
Qed.

Lemma foldl_worse s l :
  (foldl worse s l = StatusDown <-> s = StatusDown \/ StatusDown ∈ l) /\
  (foldl worse s l = StatusUp <-> s = StatusUp /\ Forall (fun x => x = StatusUp) l).
Proof.
  revert s. induction l as [|x l IH]; intros s; simpl; [set_solver|].
  destruct (IH (worse s x)) as [-> ->]. rewrite elem_of_cons, Forall_cons.
  destruct s, x; unfold worse; simpl; naive_solver.
Qed.

Lemma arrival_results h arrival :
  arrival ≡ₚ elements (dom (checkers h)) ->
  omap (fun name => (fun c => (name, run_checker name c)) <$> checkers h !! name) arrival ≡ₚ
    map_to_list (map_imap (fun name c => Some (run_checker name c)) (checkers h)).
Proof.
  intros Hp. apply NoDup_Permutation.
  - apply (NoDup_fmap_1 fst), (sublist_NoDup _ arrival); [rewrite Hp; apply NoDup_elements|].
    clear. induction arrival as [|n l IH]; simpl; [constructor|]. destruct (checkers h !! n); simpl; by constructor.
  - apply NoDup_map_to_list.
  - intros [name res]. rewrite elem_of_map_to_list, map_lookup_imap, list_elem_of_omap. split.
    + intros (n & _ & E). destruct (checkers h !! n) as [c|] eqn:Ec; [|done]. simpl in E. simplify_eq. by rewrite Ec.
    + intros E. destruct (checkers h !! name) as [c|] eqn:Ec; [|done]. simpl in E. simplify_eq.
      exists name. rewrite Ec. split; [|done]. rewrite Hp, elem_of_elements. by apply elem_of_dom.
Qed.

Lemma fold_details (l : list (string * Result D)) (m : gmap string (gmap string detail)) name :
  NoDup (map fst l) ->
  foldl (fun m cr => <[fst cr := details_of (snd cr)]> m) m l !! name =
    match (list_to_map l : gmap string (Result D)) !! name with
    | Some res => Some (details_of res)
    | None => m !! name
    end.
Proof.
  revert m. induction l as [|[n res] l IH]; intros m Hnd; [done|]. simpl in *. apply NoDup_cons in Hnd as [Hn Hnd].
  rewrite (IH (<[n := details_of res]> m) Hnd). destruct (decide (n = name)) as [->|Hne].
  - rewrite lookup_insert_eq, (not_elem_of_list_to_map_1 l name) by done. by rewrite lookup_insert_eq.
  - by rewrite !lookup_insert_ne by done.
Qed.

(** C15: The aggregate does not depend on the order in which the results
    arrive, and follows the documented rule: with some checker registered it is
    down exactly when some checker is down or timed out, up exactly when all are
    up, and unknown otherwise; there is one entry of details per registered
    checker; and the readiness endpoint answers 503 exactly when it is down. *)
Theorem health_aggregate {W} encode h arrival (r : Request) (w : W) :
  arrival ≡ₚ Names h -> checkers h <> ∅ ->
  let result := Check h arrival in
  let outcomes := map_imap (fun name c => Some (run_checker name c)) (checkers h) in
  (res_Status result = StatusDown <-> exists name res, outcomes !! name = Some res /\ res_Status res = StatusDown) /\
  (res_Status result = StatusUp <-> map_Forall (fun _ res => res_Status res = StatusUp) outcomes) /\
  res_Details result = details_of <$> outcomes /\
  (exists hd, sent (snd (run (ServeHTTP encode h arrival r w) fresh_response)) =
     Some (if decide (res_Status result = StatusDown) then 503 else 200, hd)).
Proof.
  intros Hp Hne result outcomes. pose proof (arrival_results h arrival Hp) as Hres. fold outcomes in Hres.
  set (results := omap _ arrival) in Hres.
  assert (E : result = mkResult (foldl worse StatusUp (map (fun cr => res_Status (snd cr)) results)) ""
                         (foldl (fun m cr => <[fst cr := details_of (snd cr)]> m) ∅ results)).
  { unfold result, Check. fold results. rewrite fold_merge.
    destruct (size (checkers h) =? 0)%nat eqn:Es; [|done]. apply Nat.eqb_eq, map_size_empty_inv in Es. done. }
  assert (Hin : forall name res, outcomes !! name = Some res <-> (name, res) ∈ results).
  { intros name res. by rewrite Hres, elem_of_map_to_list. }
  destruct (foldl_worse StatusUp (map (fun cr => res_Status (snd cr)) results)) as [Hd Hu].
  split; [|split; [|split]].
  - rewrite E. simpl. rewrite Hd. split.
    + intros [?|Hx]; [done|]. apply list_elem_of_fmap in Hx as ([name res] & Hs & Hx). exists name, res. by rewrite Hin.
    + intros (name & res & Ho & Hs). right. apply list_elem_of_fmap. exists (name, res). by rewrite <- Hin.
  - rewrite E. simpl. rewrite Hu. split.
    + intros [_ Hf] name res Ho. rewrite Forall_forall in Hf. apply Hf, list_elem_of_fmap. exists (name, res). by rewrite <- Hin.
    + intros Hf. split; [done|]. apply Forall_forall. intros s Hx. apply list_elem_of_fmap in Hx as ([name res] & -> & Hx).
      by apply (Hf name), Hin.
  - rewrite E. simpl. apply map_eq. intros name. rewrite lookup_fmap.
    assert (Hnd : NoDup (map fst results)).
    { assert (Hperm : map fst results ≡ₚ map fst (map_to_list outcomes)) by (by apply Permutation_map).
      rewrite Hperm. apply NoDup_fst_map_to_list. }
    rewrite (fold_details results ∅ name Hnd). rewrite lookup_empty.
    assert (list_to_map results = outcomes) as ->; [|by destruct (outcomes !! name)].
    rewrite <- (list_to_map_to_list outcomes). by apply list_to_map_proper.
  - unfold ServeHTTP. fold result. cbn [run].
    set (code := if decide _ then 503 else 200). set (resp := mkResponse _ _ _).
    assert (Hc : rw_WriteHeader code resp = mkResponse (live resp) (Some (code, live resp)) (body resp)).
    { unfold rw_WriteHeader, resp, code. simpl. by case_decide. }
    rewrite Hc. exists (live resp). destruct (encode _ _ _) as [text|]; [|done]. cbn [run]. unfold rw_Write. cbn [sent].
    destruct (String.eqb text ""); [done|]. by destruct (bodyAllowedForStatus code).
Qed.
End check.
End health.

Lemma health_aggregate_witness :
  let h := Register "db" false (Register "queue" true (New [])) in
  let outcome := fun (_ : string) (up : bool) => if up then Some (mkResult (D := Z) StatusUp "" ∅) else None in
  ["queue"; "db"] ≡ₚ Names h /\
  res_Status (Check (fun s => s) outcome h ["queue"; "db"]) = StatusDown.
Proof.
  intros h outcome. split; [vm_compute; repeat constructor|].
  assert (Hp : ["queue"; "db"] ≡ₚ Names h) by (vm_compute; repeat constructor).
  destruct (health_aggregate (fun s => s) outcome (fun _ _ _ => None) h ["queue"; "db"]
              (mkRequest "GET" "/" ∅ []) tt Hp (insert_non_empty _ _ _)) as [[_ Hdown] _].
  apply Hdown. exists "db". eexists. split; vm_compute; reflexivity.
Defined.

