(* ===== verification/HealthCheckers.v ===== *)
(** [health/checkers.go]: the TCP and HTTP checkers and the two composites.

    What dialling and requesting give is a parameter; a check returns its result
    and the probes it made, in order. *)
From Stdlib Require Import ZArith Lia.
From S2P Require Import Prelude GoTime GoErrors GoStrings Health.
From stdpp Require Import base gmap strings list fin_maps.
Open Scope string_scope.
Open Scope list_scope.
Open Scope Z_scope.

(** [PingFunc], [TCPChecker], [HTTPChecker], [All] and [Any]; a nil function is
    [None]. *)
Inductive Checker :=
| Ping (f : option string)
| TCP (addr : string) (timeout : Duration)
| HTTP (url : string) (timeout : Duration)
| AllCheckers (checkers : list Checker)
| AnyCheckers (checkers : list Checker).

(** What a checker does to the outside: a call of a function, a dial, a request,
    with the timeout they get. *)
Inductive probe := PCall (f : string) | PDial (addr : string) (timeout : Duration) | PRequest (url : string) (timeout : Duration).

(** A request: not built, failed, or answered with a status. *)
Inductive answer := BuildFailed (err : error) | RequestFailed (err : error) | Answered (code : Z).

Section checkers.
Context {D : Type} (error_text : error -> string).
Context (call : string -> option error) (dial : string -> Duration -> option error) (request : string -> Duration -> answer).

(** The timeout a checker applies. *)
Definition effective (t : Duration) : Duration := if t =? 0 then 3 * Second else t.

(** [func (t *TCPChecker) Check] *)
Definition TCP_Check (addr : string) (t : Duration) : Result D * list probe :=
  let timeout := effective t in
  (match dial addr timeout with
   | Some err => mkResult StatusDown ("tcp dial " ++ addr ++ ": " ++ error_text err) ∅
   | None => mkResult StatusUp "" ∅
   end, [PDial addr timeout]).

(** [func (h *HTTPChecker) Check] *)
Definition HTTP_Check (url : string) (t : Duration) : Result D * list probe :=
  let timeout := effective t in
  (match request url timeout with
   | BuildFailed err => mkResult StatusDown ("http request build: " ++ error_text err) ∅
   | RequestFailed err => mkResult StatusDown ("http request " ++ url ++ ": " ++ error_text err) ∅
   | Answered code =>
       if (200 <=? code) && (code <? 400) then mkResult StatusUp "" ∅
       else mkResult StatusDown ("http " ++ url ++ " returned status " ++ Itoa code) ∅
   end, [PRequest url timeout]).

(** The loops of [All] and [Any], over the checks of the children. *)
Fixpoint all_loop (i : Z) (checks : list (Result D * list probe)) : Result D * list probe :=
  match checks with
  | [] => (mkResult StatusUp "" ∅, [])
  | (r, ps) :: rest =>
      if decide (res_Status r = StatusDown)
      then (mkResult StatusDown ("checker[" ++ Itoa i ++ "] failed: " ++ res_Message r) ∅, ps)
      else let '(r', ps') := all_loop (i + 1) rest in (r', (ps ++ ps')%list)
  end.
Fixpoint any_loop (lastErr : string) (checks : list (Result D * list probe)) : Result D * list probe :=
  match checks with
  | [] => (mkResult StatusDown ("all checkers failed, last error: " ++ lastErr) ∅, [])
  | (r, ps) :: rest =>
      if decide (res_Status r = StatusUp) then (mkResult StatusUp "" ∅, ps)
      else let '(r', ps') := any_loop (res_Message r) rest in (r', (ps ++ ps')%list)
  end.

(** [Check] of every checker; [All] and [Any] ask their children in order. *)
Fixpoint Check_ (c : Checker) : Result D * list probe :=
  match c with
  | Ping None => (PingFunc_Check None error_text, [])
  | Ping (Some f) => (PingFunc_Check (Some (call f)) error_text, [PCall f])
  | TCP addr t => TCP_Check addr t
  | HTTP url t => HTTP_Check url t
  | AllCheckers cs => all_loop 0 (map Check_ cs)
  | AnyCheckers cs => any_loop "" (map Check_ cs)
  end.

(** * Properties *)

(** The meaning of a checker: what answers when it is probed. *)
Definition probe_ok (p : probe) : Prop :=
  match p with
  | PCall f => call f = None
  | PDial addr t => dial addr t = None
  | PRequest url t => exists code, request url t = Answered code /\ 200 <= code < 400
  end.
Fixpoint healthy (c : Checker) : Prop :=
  match c with
  | Ping None => False
  | Ping (Some f) => probe_ok (PCall f)
  | TCP addr t => probe_ok (PDial addr (effective t))
  | HTTP url t => probe_ok (PRequest url (effective t))
  | AllCheckers cs => foldr (fun c P => healthy c /\ P) True cs
  | AnyCheckers cs => foldr (fun c P => healthy c \/ P) False cs
  end.
(** No function of the tree is nil. *)
Fixpoint total (c : Checker) : Prop :=
  match c with
  | Ping None => False
  | AllCheckers cs | AnyCheckers cs => foldr (fun c P => total c /\ P) True cs
  | _ => True
  end.

(** A check that is not up is down, and it is up exactly if the checker is healthy. *)
Definition decides (c : Checker) : Prop :=
  (healthy c -> res_Status (fst (Check_ c)) = StatusUp) /\ (~ healthy c -> res_Status (fst (Check_ c)) = StatusDown).

Lemma all_loop_decides i cs : Forall (fun c => decides c /\ (healthy c \/ ~ healthy c)) cs ->
  (foldr (fun c P => healthy c /\ P) True cs -> res_Status (fst (all_loop i (map Check_ cs))) = StatusUp) /\
  (~ foldr (fun c P => healthy c /\ P) True cs -> res_Status (fst (all_loop i (map Check_ cs))) = StatusDown).
Proof.
  intros Hcs. revert i. induction Hcs as [|c cs [[Hup Hdown] Hdec] Hcs IH]; intros i; simpl; [tauto|].
  destruct (Check_ c) as [r ps]. simpl in *. destruct (IH (i + 1)) as [IHu IHd].
  destruct Hdec as [Hc|Hc].
  - rewrite (Hup Hc), decide_False by done. destruct (all_loop (i + 1) (map Check_ cs)) as [r' ps']. simpl in *. tauto.
  - rewrite (Hdown Hc), decide_True by done. tauto.
Qed.

Lemma any_loop_decides e cs : Forall (fun c => decides c /\ (healthy c \/ ~ healthy c)) cs ->
  (foldr (fun c P => healthy c \/ P) False cs -> res_Status (fst (any_loop e (map Check_ cs))) = StatusUp) /\
  (~ foldr (fun c P => healthy c \/ P) False cs -> res_Status (fst (any_loop e (map Check_ cs))) = StatusDown).
Proof.
  intros Hcs. revert e. induction Hcs as [|c cs [[Hup Hdown] Hdec] Hcs IH]; intros e; simpl; [tauto|].
  destruct (Check_ c) as [r ps]. simpl in *. destruct (IH (res_Message r)) as [IHu IHd].
  destruct Hdec as [Hc|Hc].
  - rewrite (Hup Hc), decide_True by done. tauto.
  - rewrite (Hdown Hc), decide_False by done. destruct (any_loop (res_Message r) (map Check_ cs)) as [r' ps']. simpl in *. tauto.
Qed.

Lemma foldr_decidable (P : Checker -> Prop) cs : Forall (fun c => P c \/ ~ P c) cs ->
  (foldr (fun c Q => P c /\ Q) True cs \/ ~ foldr (fun c Q => P c /\ Q) True cs) /\
  (foldr (fun c Q => P c \/ Q) False cs \/ ~ foldr (fun c Q => P c \/ Q) False cs).
Proof. induction 1; simpl; tauto. Qed.

(** Induction over the tree. *)
Lemma Checker_rect' (P : Checker -> Prop) :
  (forall f, P (Ping f)) -> (forall a t, P (TCP a t)) -> (forall u t, P (HTTP u t)) ->
  (forall cs, Forall P cs -> P (AllCheckers cs)) -> (forall cs, Forall P cs -> P (AnyCheckers cs)) -> forall c, P c.
Proof.
  intros H1 H2 H3 H4 H5. fix IH 1. intros [f|a t|u t|cs|cs]; [apply H1|apply H2|apply H3| |].
  - apply H4. induction cs as [|c cs IHcs]; constructor; [apply IH|exact IHcs].
  - apply H5. induction cs as [|c cs IHcs]; constructor; [apply IH|exact IHcs].
Qed.

Lemma total_forall (P : Checker -> Prop) cs :
  Forall (fun c => total c -> P c) cs -> foldr (fun c Q => total c /\ Q) True cs -> Forall P cs.
Proof. induction 1 as [|c cs Hc Hcs IH]; simpl; [constructor|]. intros [Ht Hr]. constructor; auto. Qed.

Lemma check_decides c : total c -> decides c /\ (healthy c \/ ~ healthy c).
Proof.
  induction c as [f|a t|u t|cs IH|cs IH] using Checker_rect'; intros Ht.
  - destruct f as [f|]; [|done]. unfold decides. simpl. destruct (call f); split; (split || tauto || right); congruence || tauto || done.
  - unfold decides. simpl. destruct (dial a (effective t)); split; (split || tauto || right); congruence || tauto || done.
  - unfold decides. cbn [healthy Check_ HTTP_Check probe_ok fst]. destruct (request u (effective t)) as [err|err|code].
    1,2: split; [split; [intros (code&?&_); congruence|done]|right; intros (code&?&_); congruence].
    destruct ((200 <=? code) && (code <? 400)) eqn:E.
    + assert (200 <= code < 400) as Hc by lia. split; [|left; eauto]. split; [done|]. intros []. eauto.
    + assert (~ 200 <= code < 400) as Hc by lia. split; [split; [|done]|right]; intros (code'&[= <-]&?); lia.
  - pose proof (total_forall _ cs IH Ht) as Hcs. split; [by apply all_loop_decides|].
    apply (foldr_decidable healthy). by eapply Forall_impl; [exact Hcs|]; intros c [_ ?].
  - pose proof (total_forall _ cs IH Ht) as Hcs. split; [by apply any_loop_decides|].
    apply (foldr_decidable healthy). by eapply Forall_impl; [exact Hcs|]; intros c [_ ?].
Qed.

(** Composite health checks: a tree of [All] and [Any] over probes, none of whose
    functions is nil, is up exactly if it holds as the formula it spells, each probe
    within its own timeout, and down otherwise. *)
Theorem health_composites c :
  total c ->
  (res_Status (fst (Check_ c)) = StatusUp <-> healthy c) /\ (res_Status (fst (Check_ c)) = StatusDown <-> ~ healthy c).
Proof.
  intros Ht. destruct (check_decides c Ht) as [[Hup Hdown] Hdec].
  destruct Hdec as [Hc|Hc]; [rewrite (Hup Hc)|rewrite (Hdown Hc)]; split; split; done || tauto.
Qed.

(** [All] stops at the first checker that is down: the probes made are those of the
    checkers before it and its own. *)
Lemma all_short_circuit i before r ps rest :
  Forall (fun c => res_Status (fst c) <> StatusDown) before -> res_Status r = StatusDown ->
  snd (all_loop i (before ++ (r, ps) :: rest)) = concat (map snd before) ++ ps.
Proof.
  intros Hb Hr. revert i. induction Hb as [|[r' ps'] before Hc Hb IH]; intros i; simpl.
  - by rewrite decide_True.
  - simpl in Hc. rewrite decide_False by done. specialize (IH (i + 1)).
    destruct (all_loop (i + 1) (before ++ (r, ps) :: rest)). simpl in *. by rewrite IH, app_assoc.
Qed.

(** A child that is unknown, such as a nil function, passes [All] and fails [Any]. *)
Example unknown_passes_all :
  res_Status (fst (Check_ (AllCheckers [Ping None]))) = StatusUp /\ res_Status (fst (Check_ (AnyCheckers [Ping None]))) = StatusDown.
Proof. done. Qed.
End checkers.

Lemma health_composites_witness :
  let dial := fun addr (_ : Duration) => if String.eqb addr "db:5432" then None else Some (Errorf "refused") in
  let c := AllCheckers [TCP "db:5432" 0; AnyCheckers [TCP "redis-1:6379" 0; HTTP "http://cache" Second]] in
  res_Status (fst (@Check_ unit (fun _ => "") (fun _ => None) dial (fun _ _ => Answered 204) c)) = StatusUp.
Proof.
  intros dial c. apply (health_composites (fun _ => "") (fun _ => None) dial (fun _ _ => Answered 204) c).
  - simpl. tauto.
  - simpl. split; [done|]. split; [|done]. right. left. exists 204. split; [done|lia].
Defined.
