(* ===== verification/SseEvent.v ===== *)
(** [transport/sse], events and their wire format: [event.go] and the writing
    half of [http.go].

    Byte slices are lists of characters.  The writer runs on the response writer
    of [Http]; the reader is the source's split function under [bufio.Scanner],
    whose reads are an argument.  The format is checked against a parser written
    from the Server-Sent Events standard ([parse_block]). *)
From Stdlib Require Import ZArith Lia Ascii.
From S2P Require Import Prelude GoTime GoErrors Http.
From stdpp Require Import base gmap strings list fin_maps.
Open Scope string_scope.
Open Scope list_scope.
Open Scope Z_scope.

Abbreviation bytes := (list ascii).

Definition LF : ascii := "010"%char.
Definition CR : ascii := "013"%char.
Definition SP : ascii := " "%char.
Definition colon : ascii := ":"%char.

(** [[]byte(s)] *)
Abbreviation of_string := String.list_ascii_of_string.

(** * [event.go] *)

(** [type Event struct] *)
Record Event := mkEvent {
  timestamp : Time;
  ev_ID : bytes;
  ev_Data : bytes;
  ev_Event : bytes;
  ev_Retry : bytes;
  ev_Comment : bytes
}.

Definition emptyEvent : Event := mkEvent zeroTime [] [] [] [] [].

Definition with_ID (id : bytes) (e : Event) : Event :=
  mkEvent (timestamp e) id (ev_Data e) (ev_Event e) (ev_Retry e) (ev_Comment e).
Definition with_Data (d : bytes) (e : Event) : Event :=
  mkEvent (timestamp e) (ev_ID e) d (ev_Event e) (ev_Retry e) (ev_Comment e).

(** [func WithEventID], [WithEventName], [WithEventRetry], [WithEventComment] *)
Definition WithEventID (id : string) : Event -> Event := fun e =>
  if String.eqb id "" then e else with_ID (of_string id) e.
Definition WithEventName (name : string) : Event -> Event := fun e =>
  if String.eqb name "" then e
  else mkEvent (timestamp e) (ev_ID e) (ev_Data e) (of_string name) (ev_Retry e) (ev_Comment e).
Definition WithEventRetry (retry : string) : Event -> Event := fun e =>
  if String.eqb retry "" then e
  else mkEvent (timestamp e) (ev_ID e) (ev_Data e) (ev_Event e) (of_string retry) (ev_Comment e).
Definition WithEventComment (comment : string) : Event -> Event := fun e =>
  if String.eqb comment "" then e
  else mkEvent (timestamp e) (ev_ID e) (ev_Data e) (ev_Event e) (ev_Retry e) (of_string comment).

Definition nonempty (b : bytes) : bool := (0 <? length b)%nat.

(** [func (e *Event) hasContent() bool] *)
Definition hasContent (e : Event) : bool :=
  nonempty (ev_ID e) || nonempty (ev_Data e) || nonempty (ev_Event e) || nonempty (ev_Retry e).

(** [base64.StdEncoding] *)
Definition b64_alphabet : bytes :=
  of_string "ABCDEFGHIJKLMNOPQRSTUVWXYZabcdefghijklmnopqrstuvwxyz0123456789+/".

Definition b64_char (v : Z) (shift : Z) : ascii :=
  default "="%char (b64_alphabet !! Z.to_nat (Z.land (Z.shiftr v shift) 63)).

Definition byte_val (c : ascii) : Z := Z.of_nat (nat_of_ascii c).

Fixpoint base64_Encode (l : bytes) : bytes :=
  match l with
  | a :: b :: c :: rest =>
      let v := Z.lor (Z.lor (Z.shiftl (byte_val a) 16) (Z.shiftl (byte_val b) 8)) (byte_val c) in
      b64_char v 18 :: b64_char v 12 :: b64_char v 6 :: b64_char v 0 :: base64_Encode rest
  | [a; b] =>
      let v := Z.lor (Z.shiftl (byte_val a) 16) (Z.shiftl (byte_val b) 8) in
      [b64_char v 18; b64_char v 12; b64_char v 6; "="%char]
  | [a] => let v := Z.shiftl (byte_val a) 16 in [b64_char v 18; b64_char v 12; "="%char; "="%char]
  | [] => []
  end.

(** [func (e *Event) encodeBase64()] *)
Definition encodeBase64 (e : Event) : Event :=
  if nonempty (ev_Data e) then with_Data (base64_Encode (ev_Data e)) e else e.

(** The first index from [i] on at which [p] occurs in [data]. *)
Fixpoint index_of (p data : bytes) (i : nat) : option nat :=
  if bool_decide (take (length p) data = p) then Some i
  else match data with
       | [] => None
       | _ :: data' => index_of p data' (S i)
       end.

(** [func containsDoubleNewline(data []byte) (int, int)]; [None] is [(-1, 0)]. *)
Definition containsDoubleNewline (data : bytes) : option (nat * nat) :=
  match index_of [CR; LF; CR; LF] data 0 with
  | Some i => Some (i, 4%nat)
  | None =>
      match index_of [LF; LF] data 0 with
      | Some i => Some (i, 2%nat)
      | None => None
      end
  end.

(** The split function of [NewEventStreamReader]: the advance and the token. *)
Definition split (data : bytes) (atEOF : bool) : nat * option bytes :=
  if atEOF && negb (nonempty data) then (0%nat, None)
  else
    match containsDoubleNewline data with
    | Some (i, nLen) => ((i + nLen)%nat, Some (take i data))
    | None => if atEOF then (length data, Some data) else (0%nat, None)
    end.

(** [bufio.Scanner]: the tokens of the buffered bytes, and what is left. *)
Fixpoint drain (atEOF : bool) (fuel : nat) (buf : bytes) : list bytes * bytes :=
  match fuel with
  | O => ([], buf)
  | S fuel =>
      match split buf atEOF with
      | (adv, Some tok) =>
          let '(toks, rest) := drain atEOF fuel (drop adv buf) in (tok :: toks, rest)
      | (_, None) => ([], buf)
      end
  end.

Definition ErrTooLong : error := Sentinel "bufio.ErrTooLong" "bufio.Scanner: token too long".
Definition io_EOF : error := Sentinel "io.EOF" "EOF".

Section reader.
Context (maxBufferSize : Z).

(** The scanner over the reads it makes and the error of the read after them
    ([None] is the end of the stream): a buffer that is full and holds no token
    is an error. *)
Fixpoint scan (reads : list bytes) (readErr : option error) (buf : bytes) : list bytes * option error :=
  let '(toks, rest) := drain false (S (length buf)) buf in
  if maxBufferSize <=? Z.of_nat (length rest) then (toks, Some ErrTooLong)
  else
    match reads with
    | [] => (toks ++ fst (drain true (S (length rest)) rest), readErr)
    | c :: reads' => let '(toks', err) := scan reads' readErr (rest ++ c) in (toks ++ toks', err)
    end.

(** [func (e *EventStreamReader) ReadEvent() ([]byte, error)], called until it
    returns an error: the events and that error. *)
Definition ReadEvents (reads : list bytes) (readErr : option error) : list bytes * error :=
  let '(toks, err) := scan reads readErr [] in
  (toks, match err with
         | Some e => if errors_Is "context.Canceled" e then io_EOF else e
         | None => io_EOF
         end).
End reader.

(** * Writing events *)

Definition FieldId : bytes := of_string "id:".
Definition FieldData : bytes := of_string "data:".
Definition FieldEvent : bytes := of_string "event:".
Definition FieldRetry : bytes := of_string "retry:".

Definition write_bytes (b : bytes) : io (Z * option error) := Write (String.string_of_list_ascii b) Ret.

(** [func writeData(w io.Writer, field, data []byte) (int, error)] *)
Definition writeData (field data : bytes) : io (Z * option error) :=
  let rest :=
    '(n3, err) ← write_bytes data;
    match err with
    | Some _ => Ret (n3, err)
    | None => '(n4, err) ← write_bytes [LF]; Ret (n3 + n4, err)
    end in
  if nonempty field then
    '(n1, err) ← write_bytes field;
    match err with
    | Some _ => Ret (n1, err)
    | None =>
        if nonempty data && negb (bool_decide (last field = Some SP)) then
          '(n2, err) ← write_bytes [SP];
          match err with
          | Some _ => Ret (n1 + n2, err)
          | None => rest
          end
        else rest
    end
  else rest.

(** [bytes.Split(data, []byte("\n"))] *)
Fixpoint split_LF (data : bytes) : list bytes :=
  match data with
  | [] => [[]]
  | c :: data' =>
      if bool_decide (c = LF) then [] :: split_LF data'
      else match split_LF data' with
           | l :: ls => (c :: l) :: ls
           | [] => [[c]]
           end
  end.

(** The fields of [Server] the event loop reads. *)
Record streaming := mkStreaming { eventTTL : Duration; splitData : bool }.

Fixpoint write_all (lines : list (io (Z * option error))) : io unit :=
  match lines with
  | [] => Ret tt
  | l :: ls => l ;; write_all ls
  end.

(** The body of the loop of [ServeHTTP] for an event that is sent. *)
Definition write_event (cfg : streaming) (ev : Event) : io unit :=
  (if nonempty (ev_Data ev) then
     writeData FieldId (ev_ID ev) ;;
     (if splitData cfg then write_all (map (writeData FieldData) (split_LF (ev_Data ev)))
      else if bool_decide (head (ev_Data ev) = Some colon) then write_bytes (ev_Data ev ++ [LF]) ;; Ret tt
      else writeData FieldData (ev_Data ev) ;; Ret tt) ;;
     (if nonempty (ev_Event ev) then writeData FieldEvent (ev_Event ev) ;; Ret tt else Ret tt) ;;
     (if nonempty (ev_Retry ev) then writeData FieldRetry (ev_Retry ev) ;; Ret tt else Ret tt)
   else Ret tt) ;;
  (if nonempty (ev_Comment ev) then writeData [] (ev_Comment ev) ;; Ret tt else Ret tt) ;;
  (write_bytes [LF] ;; Ret tt).

(** [Time.After] *)
Definition time_After (t u : Time) : bool :=
  match mono t, mono u with
  | Some a, Some b => b <? a
  | _, _ => wall u <? wall t
  end.

Definition expired (cfg : streaming) (now : Time) (ev : Event) : bool :=
  negb (eventTTL cfg =? 0) && time_After now (time_after (timestamp ev) (eventTTL cfg)).

(** [for ev := range sub.connection]: the events the connection yields until it
    is closed, each with the reading of the clock at its turn. *)
Fixpoint stream_events (cfg : streaming) (connection : list (Time * Event)) : io unit :=
  match connection with
  | [] => Ret tt
  | (now, ev) :: rest =>
      if negb (nonempty (ev_Data ev)) && negb (nonempty (ev_Comment ev)) then Ret tt
      else if expired cfg now ev then stream_events cfg rest
      else write_event cfg ev ;; stream_events cfg rest
  end.

(** * What is written *)

Definition field_line (field data : bytes) : bytes :=
  if nonempty data then field ++ SP :: data else field.

Definition event_lines (cfg : streaming) (ev : Event) : list bytes :=
  (if nonempty (ev_Data ev) then
     [field_line FieldId (ev_ID ev)] ++
     (if splitData cfg then map (field_line FieldData) (split_LF (ev_Data ev))
      else if bool_decide (head (ev_Data ev) = Some colon) then [ev_Data ev]
      else [field_line FieldData (ev_Data ev)]) ++
     (if nonempty (ev_Event ev) then [field_line FieldEvent (ev_Event ev)] else []) ++
     (if nonempty (ev_Retry ev) then [field_line FieldRetry (ev_Retry ev)] else [])
   else []) ++
  (if nonempty (ev_Comment ev) then [ev_Comment ev] else []).

Definition lines_text (ls : list bytes) : bytes := concat (map (fun l => l ++ [LF]) ls).
Definition wire (cfg : streaming) (ev : Event) : bytes := lines_text (event_lines cfg ev) ++ [LF].

Definition append_body (r : Response) (b : bytes) : Response :=
  mkResponse (live r) (sent r) (body r ++ String.string_of_list_ascii b).

(** [m] writes [b] to a response whose 200 header is out. *)
Definition writes {A} (m : io A) (b : bytes) : Prop :=
  forall r h, sent r = Some (200, h) -> exists a, run m r = (a, append_body r b).

Lemma string_of_app a b :
  String.string_of_list_ascii (a ++ b) = (String.string_of_list_ascii a ++ String.string_of_list_ascii b)%string.
Proof.
  induction a as [|x a IH]; [done|]. cbn [app String.string_of_list_ascii]. rewrite IH. done.
Qed.

Lemma append_body_nil r : append_body r [] = r.
Proof. destruct r as [l s b]. unfold append_body. simpl. by rewrite string_app_nil. Qed.

Lemma append_body_app r a b : append_body (append_body r a) b = append_body r (a ++ b).
Proof. unfold append_body. simpl. by rewrite string_of_app, string_app_assoc. Qed.

Lemma writes_ret {A} (a : A) : writes (Ret a) [].
Proof. intros r h _. exists a. by rewrite append_body_nil. Qed.

Lemma writes_bind {A B} (m : io A) (f : A -> io B) b b' :
  writes m b -> (forall a, writes (f a) b') -> writes (m ≫= f) (b ++ b').
Proof.
  intros Hm Hf r h Hs. destruct (Hm r h Hs) as [a E]. rewrite run_bind, E.
  destruct (Hf a (append_body r b) h Hs) as [a' E']. exists a'. by rewrite E', append_body_app.
Qed.

Lemma run_write_bytes b r h :
  sent r = Some (200, h) -> exists n, run (write_bytes b) r = ((n, None), append_body r b).
Proof.
  intros Hs. unfold write_bytes. cbn [run]. unfold rw_Write. rewrite Hs. destruct b as [|c b].
  - exists 0. by rewrite append_body_nil.
  - cbn [String.string_of_list_ascii String.eqb]. unfold append_body. rewrite Hs.
    change (bodyAllowedForStatus 200) with true. by eexists.
Qed.

Lemma writes_write_bytes b : writes (write_bytes b) b.
Proof. intros r h Hs. destruct (run_write_bytes b r h Hs) as [n E]. by eexists. Qed.

(** A checked write: the error branch is not taken. *)
Lemma writes_checked {B} b (k : Z * option error -> io B) b' :
  (forall n, writes (k (n, None)) b') -> writes (write_bytes b ≫= k) (b ++ b').
Proof.
  intros Hk r h Hs. destruct (run_write_bytes b r h Hs) as [n E]. rewrite run_bind, E.
  destruct (Hk n (append_body r b) h Hs) as [a Ea]. exists a. by rewrite Ea, append_body_app.
Qed.

Lemma writes_then {A B} (m : io A) (m' : io B) b b' : writes m b -> writes m' b' -> writes (m ;; m') (b ++ b').
Proof. intros Hm Hm'. apply writes_bind; auto. Qed.

Create HintDb sse.
#[export] Hint Resolve writes_ret writes_write_bytes : sse.

Lemma writes_writeData field data :
  last field <> Some SP -> (field = [] -> data <> []) ->
  writes (writeData field data) ((if nonempty field then field_line field data else data) ++ [LF]).
Proof.
  intros Hl Hd. unfold writeData.
  assert (Hrest : writes ('(n3, err) ← write_bytes data;
    match err with
    | Some _ => Ret (n3, err)
    | None => '(n4, err) ← write_bytes [LF]; Ret (n3 + n4, err)
    end) (data ++ [LF])).
  { apply writes_checked. intros n. replace [LF] with ([LF] ++ []) by done. apply writes_checked. intros n'. apply writes_ret. }
  destruct (nonempty field) eqn:Ef; [|done].
  unfold field_line. rewrite bool_decide_eq_false_2 by done. cbn [negb]. rewrite andb_true_r.
  destruct (nonempty data) eqn:Ed.
  - rewrite <- app_assoc. apply writes_checked. intros n.
    change ((SP :: data) ++ [LF]) with ([SP] ++ (data ++ [LF])). by apply writes_checked.
  - assert (data = []) as -> by (destruct data; done). apply writes_checked. intros n. done.
Qed.

Lemma writes_field field data : last field <> Some SP -> field <> [] -> writes (writeData field data) (field_line field data ++ [LF]).
Proof.
  intros Hl Hf. pose proof (writes_writeData field data Hl ltac:(done)) as H.
  destruct field; done.
Qed.

Lemma writes_fields field ds :
  last field <> Some SP -> field <> [] ->
  writes (write_all (map (writeData field) ds)) (lines_text (map (field_line field) ds)).
Proof.
  intros Hl Hf. induction ds as [|d ds IH]; [apply writes_ret|]. apply writes_then; [by apply writes_field|done].
Qed.

Lemma writes_last {A} (m : io A) b : writes m b -> writes (m ;; Ret tt) b.
Proof. intros Hm. rewrite <- (app_nil_r b). apply writes_then; auto with sse. Qed.

(** The loop body writes the event's lines and a blank line. *)
Lemma writes_event cfg ev : writes (write_event cfg ev) (wire cfg ev).
Proof.
  unfold write_event, wire, event_lines, lines_text. rewrite map_app, concat_app, <- app_assoc.
  apply writes_then.
  - destruct (nonempty (ev_Data ev)); [|apply writes_ret]. rewrite !map_app, !concat_app.
    cbn [map concat]. rewrite app_nil_r. apply writes_then; [by apply writes_field|]. apply writes_then; [|apply writes_then].
    + destruct (splitData cfg); [by apply writes_fields|]. case_bool_decide; cbn [map concat]; rewrite app_nil_r.
      * apply writes_last; auto with sse.
      * by apply writes_last, writes_field.
    + destruct (nonempty (ev_Event ev)); cbn [map concat]; rewrite ?app_nil_r; [|apply writes_ret].
      by apply writes_last, writes_field.
    + destruct (nonempty (ev_Retry ev)); cbn [map concat]; rewrite ?app_nil_r; [|apply writes_ret].
      by apply writes_last, writes_field.
  - apply writes_then.
    + destruct (nonempty (ev_Comment ev)) eqn:Ec; cbn [map concat]; rewrite ?app_nil_r; [|apply writes_ret].
      apply writes_last, (writes_writeData [] (ev_Comment ev)); [done|]. intros _ E. by rewrite E in Ec.
    + apply writes_last; auto with sse.
Qed.

(** The loop writes the events in order, up to one with neither data nor comment. *)
Lemma writes_stream cfg conn :
  Forall (fun te => nonempty (ev_Data (snd te)) = true /\ expired cfg (fst te) (snd te) = false) conn ->
  writes (stream_events cfg conn) (concat (map (fun te => wire cfg (snd te)) conn)).
Proof.
  induction 1 as [|[now ev] conn [Hd He] _ IH]; [apply writes_ret|]. cbn [stream_events map concat fst snd] in *.
  rewrite Hd, He. cbn [negb andb]. apply writes_then; [apply writes_event|done].
Qed.

(** * Reading the blocks back *)

Lemma index_of_shift p data i : index_of p data i = Nat.add i <$> index_of p data 0.
Proof.
  revert i. induction data as [|c data IH]; intros i; cbn [index_of]; case_bool_decide; simpl; f_equal; try lia; try done.
  rewrite (IH (S i)), (IH 1%nat). destruct (index_of p data 0); simpl; [f_equal; lia|done].
Qed.

Lemma index_of_absent p q data : head p = Some q -> q ∉ data -> index_of p data 0 = None.
Proof.
  intros Hp. induction data as [|c data IH]; intros Hq; cbn [index_of].
  - rewrite bool_decide_eq_false_2; [done|]. destruct p; [done|]. done.
  - rewrite bool_decide_eq_false_2.
    + rewrite index_of_shift, IH by set_solver. done.
    + destruct p as [|x p]; [done|]. simpl in *. intros [= -> _]. simplify_eq. set_solver.
Qed.

(** The first blank line of a text is not moved by what follows it. *)
Lemma index_of_LF_found b rest :
  index_of [LF; LF] (b ++ [LF]) 0 = None -> index_of [LF; LF] (b ++ LF :: LF :: rest) 0 = Some (length b).
Proof.
  induction b as [|c b IH]; intros H; [done|]. cbn [app index_of] in *. case_bool_decide as Ht; [done|].
  rewrite bool_decide_eq_false_2.
  - rewrite index_of_shift in H |- *. destruct (index_of _ (b ++ [LF]) 0) eqn:E; [done|]. by rewrite IH.
  - intros E. apply Ht. by destruct b; simpl in *; simplify_eq.
Qed.

Lemma index_of_prefix p a b : p <> [] -> index_of p (a ++ b) 0 = None -> index_of p a 0 = None.
Proof.
  intros Hp. induction a as [|c a IH]; intros H.
  - cbn [index_of]. rewrite bool_decide_eq_false_2; [done|]. by destruct p.
  - cbn [app index_of] in *. case_bool_decide as Ht; [done|]. rewrite bool_decide_eq_false_2.
    + rewrite index_of_shift in H |- *. destruct (index_of p (a ++ b) 0) eqn:E; [done|]. by rewrite IH.
    + intros E. apply Ht. assert (length p <= length (c :: a))%nat.
      { rewrite <- E at 1. rewrite length_take. lia. }
      change (c :: a ++ b) with ((c :: a) ++ b). by rewrite take_app_le.
Qed.

(** A block: no carriage return, and no blank line before its end. *)
Definition good_block (b : bytes) : Prop := CR ∉ b /\ index_of [LF; LF] (b ++ [LF]) 0 = None.

Definition blocks_text (bs : list bytes) : bytes := concat (map (fun b => b ++ [LF; LF]) bs).

Lemma blocks_text_no_CR bs : Forall good_block bs -> CR ∉ blocks_text bs.
Proof. induction 1 as [|b bs [Hb _] _ IH]; unfold blocks_text in *; simpl; set_solver. Qed.

Lemma double_newline_no_CR data :
  CR ∉ data -> containsDoubleNewline data = (fun i => (i, 2%nat)) <$> index_of [LF; LF] data 0.
Proof.
  intros H. unfold containsDoubleNewline. rewrite (index_of_absent _ CR) by done.
  by destruct (index_of [LF; LF] data 0).
Qed.

Lemma split_block b rest :
  good_block b -> CR ∉ rest -> split (b ++ LF :: LF :: rest) false = ((length b + 2)%nat, Some b).
Proof.
  intros [Hcr Hi] Hr. unfold split. cbn [andb]. rewrite double_newline_no_CR by set_solver.
  rewrite index_of_LF_found by done. simpl. by rewrite take_app_length.
Qed.

Lemma split_partial b buf suf :
  good_block b -> buf ++ suf = b ++ [LF; LF] -> suf <> [] -> split buf false = (0%nat, None).
Proof.
  intros [Hcr Hi] E Hs. unfold split. cbn [andb].
  assert (exists suf', b ++ [LF] = buf ++ suf') as [suf' E'].
  { destruct suf as [|x suf _] using rev_ind; [done|]. exists suf.
    rewrite app_assoc in E. change [LF; LF] with ([LF] ++ [LF]) in E. rewrite (app_assoc b) in E.
    by apply app_inj_tail in E as [-> _]. }
  assert (CR ∉ buf). { assert (H : CR ∉ b ++ [LF]) by set_solver. rewrite E' in H. set_solver. }
  rewrite double_newline_no_CR by done. rewrite E' in Hi. apply index_of_prefix in Hi; [|done]. by rewrite Hi.
Qed.

(** Draining a prefix of the text yields whole blocks and leaves a strict prefix
    of the next one. *)
Lemma drain_prefix fuel buf suf bs :
  (length buf < fuel)%nat -> Forall good_block bs -> buf ++ suf = blocks_text bs ->
  exists bs1 bs2 rest, bs = bs1 ++ bs2 /\ drain false fuel buf = (bs1, rest) /\ rest ++ suf = blocks_text bs2 /\
    match bs2 with [] => rest = [] | b :: _ => (length rest < length b + 2)%nat end.
Proof.
  revert buf bs. induction fuel as [|fuel IH]; intros buf bs Hf Hg E; [lia|].
  destruct Hg as [|b bs Hb Hg].
  { apply app_eq_nil in E as [-> ->]. exists [], [], []. done. }
  assert (Eb : buf ++ suf = (b ++ [LF; LF]) ++ blocks_text bs) by done.
  destruct (decide (length buf < length b + 2)%nat) as [Hl|Hl].
  - exists [], (b :: bs), buf. split; [done|]. split; [|done]. cbn [drain].
    assert (exists s, buf ++ s = b ++ [LF; LF] /\ s <> []) as (s & Es & Hs).
    { apply app_eq_inv in Eb as [(k & -> & E2)|(k & E2 & E3)].
      - rewrite !length_app in Hl. simpl in Hl. lia.
      - exists k. split; [done|]. intros ->. rewrite app_nil_r in E2. subst. rewrite length_app in Hl. simpl in Hl. lia. }
    by rewrite (split_partial b buf s).
  - assert (exists k, buf = (b ++ [LF; LF]) ++ k /\ k ++ suf = blocks_text bs) as (k & -> & Ek).
    { apply app_eq_inv in Eb as [(k & -> & E2)|(k & E2 & E3)]; [by exists k|].
      assert (length k = 0)%nat as Hk.
      { apply (f_equal length) in E2. rewrite !length_app in E2. simpl in E2. lia. }
      destruct k; [|done]. exists []. rewrite app_nil_r in *. by rewrite E2. }
    destruct (IH k bs) as (bs1 & bs2 & rest & -> & Ed & Er & Hm); [rewrite length_app in Hf; rewrite length_app in Hf; simpl in Hf; lia|done|done|].
    exists (b :: bs1), bs2, rest. split; [done|]. split; [|done]. cbn [drain].
    rewrite <- app_assoc. cbn [app]. rewrite split_block; [|done|].
    + change (b ++ LF :: LF :: k) with (b ++ [LF; LF] ++ k). rewrite app_assoc, drop_app_length' by (rewrite length_app; done).
      by rewrite Ed.
    + assert (H : CR ∉ blocks_text (bs1 ++ bs2)) by (by apply blocks_text_no_CR). rewrite <- Ek in H. set_solver.
Qed.

(** Whatever reads the stream arrives in, the reader returns its blocks. *)
Lemma scan_blocks max reads buf bs :
  0 < max -> Forall good_block bs -> Forall (fun b => Z.of_nat (length b) + 2 <= max) bs ->
  buf ++ concat reads = blocks_text bs -> scan max reads None buf = (bs, None).
Proof.
  intros Hmax. revert buf bs. induction reads as [|c reads IH]; intros buf bs Hg Hl E;
    destruct (drain_prefix (S (length buf)) buf _ bs ltac:(lia) Hg E) as (bs1 & bs2 & rest & -> & Ed & Er & Hm);
    cbn [scan]; rewrite Ed; apply Forall_app in Hg as [_ Hg], Hl as [_ Hl];
    assert (Z.of_nat (length rest) < max) as Hlt by
      (destruct bs2 as [|b bs2]; [by subst|apply Forall_cons in Hl as [Hl _]; lia]);
    apply Z.leb_gt in Hlt; rewrite Hlt.
  - destruct bs2 as [|b bs2]; [subst; simpl; by rewrite app_nil_r|]. exfalso.
    cbn [concat] in Er. rewrite app_nil_r in Er. rewrite Er in Hm. unfold blocks_text in Hm. cbn [map concat] in Hm.
    rewrite !length_app in Hm. simpl in Hm. lia.
  - cbn [concat] in Er. rewrite app_assoc in Er. rewrite (IH _ bs2 Hg Hl Er). done.
Qed.

(** * The standard's reading of a block *)

(** The event a block dispatches. *)
Record Parsed := mkParsed { p_id : bytes; p_data : bytes; p_event : bytes; p_retry : bytes }.

Fixpoint break_colon (l : bytes) : bytes * bytes :=
  match l with
  | [] => ([], [])
  | c :: l' => if bool_decide (c = colon) then ([], l') else let '(a, b) := break_colon l' in (c :: a, b)
  end.

Definition strip_space (v : bytes) : bytes :=
  match v with
  | c :: v' => if bool_decide (c = SP) then v' else v
  | [] => []
  end.

Definition is_digit (c : ascii) : bool :=
  let n := nat_of_ascii c in ((48 <=? n) && (n <=? 57))%nat.

(** A line: a comment, or a field with one leading space of its value removed;
    an id with a NUL and a retry that is not a number are ignored. *)
Definition parse_line (p : Parsed) (l : bytes) : Parsed :=
  if bool_decide (head l = Some colon) then p
  else
    let '(name, v) := break_colon l in
    let v := strip_space v in
    if bool_decide (name = of_string "id") then
      if bool_decide (zero ∈ v) then p else mkParsed v (p_data p) (p_event p) (p_retry p)
    else if bool_decide (name = of_string "data") then mkParsed (p_id p) (p_data p ++ v ++ [LF]) (p_event p) (p_retry p)
    else if bool_decide (name = of_string "event") then mkParsed (p_id p) (p_data p) v (p_retry p)
    else if bool_decide (name = of_string "retry") then
      if forallb is_digit v then mkParsed (p_id p) (p_data p) (p_event p) v else p
    else p.

(** The final newline of the data is dropped. *)
Definition parse_block (b : bytes) : Parsed :=
  let p := foldl parse_line (mkParsed [] [] [] []) (split_LF b) in
  mkParsed (p_id p) (if bool_decide (last (p_data p) = Some LF) then removelast (p_data p) else p_data p)
    (p_event p) (p_retry p).

Definition fields (ev : Event) : Parsed := mkParsed (ev_ID ev) (ev_Data ev) (ev_Event ev) (ev_Retry ev).

(** An event the format can carry: fields of one line (data of several when it
    is split), no carriage return, a numeric retry, and a comment written with
    its colon. *)
Definition plain (b : bytes) : Prop := LF ∉ b /\ CR ∉ b.

Definition sendable (cfg : streaming) (ev : Event) : Prop :=
  nonempty (ev_Data ev) = true /\ CR ∉ ev_Data ev /\ plain (ev_ID ev) /\ zero ∉ ev_ID ev /\
  plain (ev_Event ev) /\ plain (ev_Retry ev) /\ forallb is_digit (ev_Retry ev) = true /\
  plain (ev_Comment ev) /\ (ev_Comment ev = [] \/ head (ev_Comment ev) = Some colon) /\
  (splitData cfg = true \/ LF ∉ ev_Data ev /\ head (ev_Data ev) <> Some colon).

(** ** Lines *)

Definition good_line (l : bytes) : Prop := l <> [] /\ plain l.

Fixpoint join_LF (ls : list bytes) : bytes :=
  match ls with
  | [] => []
  | [l] => l
  | l :: ls' => l ++ LF :: join_LF ls'
  end.

Lemma join_LF_cons l ls : ls <> [] -> join_LF (l :: ls) = l ++ LF :: join_LF ls.
Proof. by destruct ls. Qed.

Lemma lines_text_join ls : ls <> [] -> lines_text ls = join_LF ls ++ [LF].
Proof.
  induction ls as [|l ls IH]; [done|]. intros _. destruct (decide (ls = [])) as [->|Hne].
  - unfold lines_text. simpl. by rewrite app_nil_r.
  - rewrite join_LF_cons by done. change (lines_text (l :: ls)) with ((l ++ [LF]) ++ lines_text ls).
    rewrite IH by done. by rewrite <- !app_assoc.
Qed.

Lemma split_LF_ne d : split_LF d <> [].
Proof. destruct d as [|c d]; simpl; [done|]. case_bool_decide; [done|]. by destruct (split_LF d). Qed.

Lemma split_LF_plain d : Forall (fun l => LF ∉ l) (split_LF d).
Proof.
  induction d as [|c d IH]; simpl; [repeat constructor; set_solver|]. case_bool_decide; [constructor; [set_solver|done]|].
  destruct IH; repeat constructor; try done; set_solver.
Qed.

Lemma split_LF_no_CR d : CR ∉ d -> Forall (fun l => CR ∉ l) (split_LF d).
Proof.
  induction d as [|c d IH]; intros H; simpl; [repeat constructor; set_solver|].
  specialize (IH ltac:(set_solver)). case_bool_decide; [constructor; [set_solver|done]|].
  destruct IH; repeat constructor; try done; set_solver.
Qed.

Lemma split_LF_line l : LF ∉ l -> split_LF l = [l].
Proof.
  induction l as [|c l IH]; intros H; [done|]. simpl. rewrite bool_decide_eq_false_2 by set_solver.
  by rewrite IH by set_solver.
Qed.

Lemma split_LF_app l d : LF ∉ l -> split_LF (l ++ LF :: d) = l :: split_LF d.
Proof.
  induction l as [|c l IH]; intros H; simpl.
  - done.
  - rewrite bool_decide_eq_false_2 by set_solver. by rewrite IH by set_solver.
Qed.

(** Splitting and joining are inverse. *)
Lemma split_join ls : ls <> [] -> Forall (fun l => LF ∉ l) ls -> split_LF (join_LF ls) = ls.
Proof.
  intros Hne Hl. induction Hl as [|l ls Hl Hls IH]; [done|]. destruct (decide (ls = [])) as [->|Hn].
  - by apply split_LF_line.
  - rewrite join_LF_cons by done. rewrite split_LF_app by done. by rewrite IH.
Qed.

Lemma join_split d : join_LF (split_LF d) = d.
Proof.
  induction d as [|c d IH]; [done|]. simpl. case_bool_decide as Hc.
  - rewrite join_LF_cons by apply split_LF_ne. by rewrite IH, Hc.
  - pose proof (split_LF_ne d). destruct (split_LF d) as [|l ls]; [done|]. destruct ls; simpl in *; by rewrite IH.
Qed.

Lemma no_blank_line l rest :
  LF ∉ l -> index_of [LF; LF] (LF :: rest) 0 = None -> index_of [LF; LF] (l ++ LF :: rest) 0 = None.
Proof.
  intros Hl Hr. induction l as [|c l IH]; [done|]. cbn [app index_of].
  rewrite bool_decide_eq_false_2 by (simpl; intros [= -> _]; set_solver).
  rewrite index_of_shift, IH by set_solver. done.
Qed.

Lemma no_blank_lines ls : Forall good_line ls -> index_of [LF; LF] (LF :: lines_text ls) 0 = None.
Proof.
  induction 1 as [|l ls [Hne [Hl _]] _ IH]; [done|]. destruct l as [|c l]; [done|].
  change (lines_text ((c :: l) :: ls)) with (((c :: l) ++ [LF]) ++ lines_text ls). rewrite <- app_assoc. cbn [index_of].
  rewrite bool_decide_eq_false_2 by (simpl; intros [= ->]; set_solver).
  rewrite index_of_shift. change ([LF] ++ lines_text ls) with (LF :: lines_text ls).
  pose proof (no_blank_line (c :: l) (lines_text ls) Hl IH) as Hn. cbn [app index_of] in Hn |- *. by rewrite Hn.
Qed.

Lemma lines_good_block ls : ls <> [] -> Forall good_line ls -> good_block (join_LF ls).
Proof.
  intros Hne Hg. split.
  - assert (H : CR ∉ lines_text ls).
    { clear Hne. induction Hg as [|l ls [_ [_ Hl]] _ IH]; unfold lines_text in *; simpl; set_solver. }
    rewrite lines_text_join in H by done. set_solver.
  - rewrite <- lines_text_join by done. pose proof (no_blank_lines ls Hg) as H. cbn [index_of] in H.
    case_bool_decide; [done|]. rewrite index_of_shift in H. by destruct (index_of _ (lines_text ls) 0).
Qed.

(** ** Events *)

(** The lines of a sendable event, in either mode. *)
Lemma sendable_lines cfg ev :
  sendable cfg ev ->
  event_lines cfg ev =
    field_line FieldId (ev_ID ev) :: map (field_line FieldData) (split_LF (ev_Data ev)) ++
    (if nonempty (ev_Event ev) then [field_line FieldEvent (ev_Event ev)] else []) ++
    (if nonempty (ev_Retry ev) then [field_line FieldRetry (ev_Retry ev)] else []) ++
    (if nonempty (ev_Comment ev) then [ev_Comment ev] else []).
Proof.
  intros (Hd & _ & _ & _ & _ & _ & _ & _ & _ & Hm). unfold event_lines. rewrite Hd.
  assert ((if splitData cfg then map (field_line FieldData) (split_LF (ev_Data ev))
           else if bool_decide (head (ev_Data ev) = Some colon) then [ev_Data ev]
           else [field_line FieldData (ev_Data ev)]) = map (field_line FieldData) (split_LF (ev_Data ev))) as ->.
  { destruct Hm as [->|[Hl Hc]]; [done|]. destruct (splitData cfg); [done|].
    by rewrite bool_decide_eq_false_2, split_LF_line by done. }
  cbn [app]. by rewrite <- !app_assoc.
Qed.

Lemma field_line_good f d : f <> [] -> plain f -> plain d -> good_line (field_line f d).
Proof.
  intros Hne [Hf1 Hf2] [Hd1 Hd2]. unfold field_line, good_line, plain. destruct (nonempty d); [|done].
  split; [by destruct f|]. rewrite !not_elem_of_app, !not_elem_of_cons. done.
Qed.

Lemma sendable_good cfg ev : sendable cfg ev -> Forall good_line (event_lines cfg ev).
Proof.
  intros Hs. rewrite sendable_lines by done. destruct Hs as (Hd & Hcr & Hid & _ & Hev & Hre & _ & Hco & _).
  assert (Hf : Forall plain [FieldId; FieldData; FieldEvent; FieldRetry]).
  { repeat constructor; apply (bool_decide_eq_true_1 _); by vm_compute. }
  rewrite !Forall_cons in Hf. destruct Hf as (F1 & F2 & F3 & F4 & _).
  constructor; [by apply field_line_good|]. rewrite !Forall_app. repeat split.
  - apply Forall_map, Forall_forall. intros l Hl. apply field_line_good; [done|done|].
    pose proof (split_LF_plain (ev_Data ev)) as H1. pose proof (split_LF_no_CR _ Hcr) as H2.
    rewrite Forall_forall in H1, H2. split; auto.
  - destruct (nonempty (ev_Event ev)); repeat constructor; by apply field_line_good.
  - destruct (nonempty (ev_Retry ev)); repeat constructor; by apply field_line_good.
  - destruct (nonempty (ev_Comment ev)) eqn:E; repeat constructor; try apply Hco. intros H. by rewrite H in E.
Qed.

Lemma parse_id p v : zero ∉ v -> parse_line p (field_line FieldId v) = mkParsed v (p_data p) (p_event p) (p_retry p).
Proof.
  intros H. destruct v as [|c v]; [done|]. unfold parse_line. simpl. by rewrite bool_decide_eq_false_2.
Qed.

Lemma parse_data p v :
  parse_line p (field_line FieldData v) = mkParsed (p_id p) (p_data p ++ v ++ [LF]) (p_event p) (p_retry p).
Proof. by destruct v as [|c v]. Qed.

Lemma parse_event p v :
  parse_line p (field_line FieldEvent v) = mkParsed (p_id p) (p_data p) v (p_retry p).
Proof. by destruct v as [|c v]. Qed.

Lemma parse_retry p v :
  forallb is_digit v = true -> parse_line p (field_line FieldRetry v) = mkParsed (p_id p) (p_data p) (p_event p) v.
Proof.
  intros H. destruct v as [|c v]; [done|]. unfold parse_line. simpl. simpl in H. by rewrite H.
Qed.

Lemma parse_datas p ds :
  foldl parse_line p (map (field_line FieldData) ds) =
    mkParsed (p_id p) (p_data p ++ lines_text ds) (p_event p) (p_retry p).
Proof.
  revert p. induction ds as [|d ds IH]; intros p; simpl.
  - unfold lines_text. simpl. rewrite app_nil_r. by destruct p.
  - rewrite IH, parse_data. cbn [p_id p_data p_event p_retry]. unfold lines_text. simpl. by rewrite <- !app_assoc.
Qed.

(** The standard's parser reads the event back from its block. *)
Lemma parse_sendable cfg ev : sendable cfg ev -> parse_block (join_LF (event_lines cfg ev)) = fields ev.
Proof.
  intros Hs. pose proof (sendable_good cfg ev Hs) as Hg. unfold parse_block. rewrite split_join.
  2: { by rewrite sendable_lines by done. }
  2: { eapply Forall_impl; [exact Hg|]. intros l [_ [Hl _]]. done. }
  rewrite sendable_lines by done. destruct Hs as (Hd & Hcr & Hid & Hz & Hev & Hre & Hdig & Hco & Hc & _).
  cbn [foldl]. rewrite parse_id by done. rewrite !foldl_app, parse_datas. cbn [p_id p_data p_event p_retry app].
  rewrite (lines_text_join _ (split_LF_ne _)), join_split.
  set (p1 := foldl parse_line _ (if nonempty (ev_Event ev) then _ else _)).
  assert (p1 = mkParsed (ev_ID ev) (ev_Data ev ++ [LF]) (ev_Event ev) []) as ->.
  { unfold p1. destruct (ev_Event ev) as [|c n] eqn:E; [done|]. cbn [nonempty length foldl Nat.ltb Nat.leb].
    by rewrite parse_event. }
  set (p2 := foldl parse_line _ (if nonempty (ev_Retry ev) then _ else _)).
  assert (p2 = mkParsed (ev_ID ev) (ev_Data ev ++ [LF]) (ev_Event ev) (ev_Retry ev)) as ->.
  { unfold p2. destruct (ev_Retry ev) as [|c n] eqn:E; [done|]. cbn [nonempty length foldl Nat.ltb Nat.leb].
    by rewrite parse_retry. }
  assert (Hcom : forall p, foldl parse_line p (if nonempty (ev_Comment ev) then [ev_Comment ev] else []) = p).
  { intros p. destruct (nonempty (ev_Comment ev)) eqn:E; [|done]. destruct Hc as [Hc|Hc]; [by rewrite Hc in E|].
    simpl. unfold parse_line. by rewrite bool_decide_eq_true_2. }
  rewrite Hcom. cbn [p_id p_data p_event p_retry]. rewrite last_snoc, bool_decide_eq_true_2, removelast_last by done. done.
Qed.

Lemma of_string_inj a b : of_string (String.string_of_list_ascii a) = b -> a = b.
Proof. intros <-. symmetry. apply String.list_ascii_of_string_of_list_ascii. Qed.

(** C16: What the server streams for sendable events is read back without loss:
    whatever pieces the body arrives in, [ReadEvent] returns one block per event,
    in order, and then the end of the stream; and a block, read as the
    Server-Sent Events standard says, has exactly the event's id, data (of several lines
    when the data is split), name and retry. *)
Theorem sse_wire_round_trip cfg conn reads max r h :
  Forall (fun te => sendable cfg (snd te) /\ expired cfg (fst te) (snd te) = false) conn ->
  0 < max -> Forall (fun te => Z.of_nat (length (wire cfg (snd te))) <= max) conn ->
  sent r = Some (200, h) -> body r = "" ->
  of_string (body (snd (run (stream_events cfg conn) r))) = concat reads ->
  exists blocks, ReadEvents max reads None = (blocks, io_EOF) /\
    map parse_block blocks = map (fun te => fields (snd te)) conn.
Proof.
  intros Hs Hmax Hlen Hr Hb Hreads.
  destruct (writes_stream cfg conn) with (r := r) (h := h) as [a E]; [|done|].
  { eapply Forall_impl; [exact Hs|]. intros te [H He]. split; [apply H|done]. }
  rewrite E in Hreads. simpl in Hreads. rewrite Hb in Hreads. apply of_string_inj in Hreads.
  set (bs := map (fun te => join_LF (event_lines cfg (snd te))) conn).
  assert (Ew : forall te : Time * Event, sendable cfg (snd te) -> wire cfg (snd te) = join_LF (event_lines cfg (snd te)) ++ [LF; LF]).
  { intros te H. unfold wire. rewrite lines_text_join by (by rewrite sendable_lines). by rewrite <- app_assoc. }
  exists bs. split.
  - unfold ReadEvents. rewrite (scan_blocks max reads [] bs Hmax); [done| | |].
    + apply Forall_map. eapply Forall_impl; [exact Hs|]. intros te [H _]. apply lines_good_block; [by rewrite sendable_lines|].
      by apply sendable_good.
    + apply Forall_map, Forall_forall. intros te Hin. rewrite Forall_forall in Hs, Hlen.
      specialize (Hlen te Hin). rewrite (Ew te (proj1 (Hs te Hin))), length_app in Hlen. simpl in Hlen. lia.
    + simpl. rewrite <- Hreads. unfold blocks_text, bs. rewrite map_map. f_equal. clear -Hs Ew.
      induction Hs as [|te conn [H _] _ IH]; [done|]. simpl. by rewrite IH, <- Ew.
  - unfold bs. rewrite map_map. clear -Hs. induction Hs as [|te conn [H _] _ IH]; [done|].
    simpl. by rewrite IH, parse_sendable.
Qed.

Lemma sse_wire_round_trip_witness :
  let ev := WithEventName "tick" (WithEventRetry "250" (mkEvent zeroTime (of_string "7") (of_string ("a" ++ newline ++ " b")) [] [] [])) in
  let cfg := mkStreaming 0 true in
  let conn := [(zeroTime, ev); (zeroTime, ev)] in
  let r := mkResponse ∅ (Some (200, ∅)) "" in
  let text := of_string (body (snd (run (stream_events cfg conn) r))) in
  exists blocks, ReadEvents 4096 [take 5 text; drop 5 text] None = (blocks, io_EOF) /\
    map parse_block blocks = [fields ev; fields ev].
Proof.
  intros ev cfg conn r text.
  assert (Hs : sendable cfg ev).
  { unfold sendable, plain. repeat split; try reflexivity; try (apply (bool_decide_eq_true_1 _); by vm_compute). }
  apply (sse_wire_round_trip cfg conn [take 5 text; drop 5 text] 4096 r ∅); try done.
  - do 2 (apply Forall_cons; split; [done|]). constructor.
  - do 2 (apply Forall_cons; split; [by vm_compute|]). constructor.
Defined.

(** The search for a blank line prefers a later CRLF pair to an earlier LF pair:
    two events are read as one. *)
Example double_newline_not_first :
  let data := of_string ("a" ++ newline ++ newline ++ "b") ++ [CR; LF; CR; LF] in
  containsDoubleNewline data = Some (4, 4)%nat /\ index_of [LF; LF] data 0 = Some 1%nat.
Proof. by vm_compute. Qed.

(** A comment set with [WithEventComment] is sent as a field line, not as a
    comment line. *)
Example comment_without_colon :
  event_lines (mkStreaming 0 false) (WithEventComment "data: x" emptyEvent) = [of_string "data: x"].
Proof. by vm_compute. Qed.
