(* ===== verification/SseStream.v ===== *)
(** [transport/sse], a stream and its subscribers: [stream.go], [event_log.go]
    and [subscriber.go].

    Events are shared by pointer, so they live in a store ([heap]) and channels
    hold locations.  One stream's goroutine, the handlers of its subscribers and
    the publishers interleave; [step] is the relation of their atomic actions,
    built from the operations of the source.  Counters are unbounded integers.
    Left out: the subscriber callbacks, which run in goroutines of their own, and
    the [removed] channel of auto streams, which has room for its one message. *)
From Stdlib Require Import ZArith Lia Ascii.
From S2P Require Import Prelude GoTime GoErrors Http SseEvent.
From stdpp Require Import base gmap strings list fin_maps.
Open Scope string_scope.
Open Scope list_scope.
Open Scope Z_scope.

(** * Data *)

Abbreviation loc := nat.
Abbreviation Heap := (gmap loc Event).

(** [type Subscriber struct]: the last event id the client sent, and the buffered
    connection channel.  [handling] is whether the handler still ranges over the
    connection.  The last four fields record the history: what was ever sent on
    the connection and taken from it, what of it was replayed, and how many
    events the stream had dispatched when the subscriber was registered. *)
Record Subscriber := mkSubscriber {
  eventId : string;
  connection : list loc;
  conn_closed : bool;
  handling : bool;
  conn_sent : list loc;
  received : list loc;
  replayed : list loc;
  joined : nat
}.

(** [make(chan *Event, 64)] *)
Definition connCap : nat := 64.

(** [type Stream struct] *)
Record Stream := mkStream {
  st_id : string;
  buffSize : nat;
  autoReplay : bool;
  event : list loc;
  quit : bool;
  eventLog : list loc;
  subscribers : list nat;
  subscriberCount : Z
}.

(** [func newStream] *)
Definition newStream (id : string) (size : nat) (replay : bool) : Stream :=
  mkStream id size replay [] false [] [] 0.

(** * [event_log.go] *)

(** Go's order on strings. *)
Fixpoint string_leb (a b : string) : bool :=
  match a, b with
  | EmptyString, _ => true
  | String _ _, EmptyString => false
  | String x a', String y b' =>
      let m := nat_of_ascii x in let n := nat_of_ascii y in
      ((m <? n) || ((m =? n) && string_leb a' b'))%nat
  end.

(** [func (e *EventLog) Add(ev *Event)]; [id] is the fresh event id and [now] the
    reading of the clock.  A nil event panics in the source; locations are
    allocated here, so the missing case leaves all unchanged. *)
Definition Add (id : string) (now : Time) (ev : loc) (log : list loc) (h : Heap) : list loc * Heap :=
  match h !! ev with
  | None => (log, h)
  | Some e =>
      if negb (hasContent e) then (log, h)
      else
        (log ++ [ev],
         <[ev := mkEvent now (of_string id) (ev_Data e) (ev_Event e) (ev_Retry e) (ev_Comment e)]> h)
  end.

(** The test of [Replay]: the entry has an id not below [s.eventId]. *)
Definition replays (h : Heap) (sub : Subscriber) (ev : loc) : bool :=
  match h !! ev with
  | None => false
  | Some e => string_leb (eventId sub) (String.string_of_list_ascii (ev_ID e))
  end.

(** * [stream.go] *)

(** [func (s *Stream) getSubIndex(sub *Subscriber) int] *)
Fixpoint getSubIndex (sub : nat) (subs : list nat) : option nat :=
  match subs with
  | [] => None
  | s :: subs' => if decide (s = sub) then Some 0%nat else S <$> getSubIndex sub subs'
  end.

Abbreviation Subs := (gmap nat Subscriber).

Definition close_connection (sub : Subscriber) : Subscriber :=
  mkSubscriber (eventId sub) (connection sub) true (handling sub) (conn_sent sub) (received sub) (replayed sub) (joined sub).

(** [sub.connection <- ev], when there is room. *)
Definition send (ev : loc) (sub : Subscriber) : Subscriber :=
  mkSubscriber (eventId sub) (connection sub ++ [ev]) (conn_closed sub) (handling sub)
    (conn_sent sub ++ [ev]) (received sub) (replayed sub) (joined sub).

Definition note_replayed (ev : loc) (sub : Subscriber) : Subscriber :=
  mkSubscriber (eventId sub) (connection sub) (conn_closed sub) (handling sub)
    (conn_sent sub) (received sub) (replayed sub ++ [ev]) (joined sub).

Definition note_joined (n : nat) (sub : Subscriber) : Subscriber :=
  mkSubscriber (eventId sub) (connection sub) (conn_closed sub) (handling sub)
    (conn_sent sub) (received sub) (replayed sub) n.

(** The handler's receive from a non-empty connection. *)
Definition receive (sub : Subscriber) : Subscriber :=
  mkSubscriber (eventId sub) (tail (connection sub)) (conn_closed sub) (handling sub)
    (conn_sent sub) (received sub ++ take 1 (connection sub)) (replayed sub) (joined sub).

Definition stop_handling (sub : Subscriber) : Subscriber :=
  mkSubscriber (eventId sub) (connection sub) (conn_closed sub) false (conn_sent sub) (received sub) (replayed sub) (joined sub).

Definition new_subscriber (id : string) : Subscriber := mkSubscriber id [] false true [] [] [] 0.

Definition with_subscribers (l : list nat) (n : Z) (s : Stream) : Stream :=
  mkStream (st_id s) (buffSize s) (autoReplay s) (event s) (quit s) (eventLog s) l n.
Definition with_event (q : list loc) (s : Stream) : Stream :=
  mkStream (st_id s) (buffSize s) (autoReplay s) q (quit s) (eventLog s) (subscribers s) (subscriberCount s).
Definition with_log (l : list loc) (s : Stream) : Stream :=
  mkStream (st_id s) (buffSize s) (autoReplay s) (event s) (quit s) l (subscribers s) (subscriberCount s).

(** [func (s *Stream) close()] *)
Definition Stream_close (s : Stream) : Stream :=
  mkStream (st_id s) (buffSize s) (autoReplay s) (event s) true (eventLog s) (subscribers s) (subscriberCount s).

(** [func (s *Stream) removeSubscriber(i int)] *)
Definition removeSubscriber (i : nat) (s : Stream) (subs : Subs) : Stream * Subs :=
  match subscribers s !! i with
  | None => (s, subs)
  | Some sub =>
      (with_subscribers (take i (subscribers s) ++ drop (S i) (subscribers s)) (subscriberCount s - 1) s,
       alter close_connection sub subs)
  end.

(** [func (s *Stream) removeAllSubscribers()] *)
Definition removeAllSubscribers (s : Stream) (subs : Subs) : Stream * Subs :=
  (with_subscribers [] 0 s, foldr (alter close_connection) subs (subscribers s)).

(** Where the goroutine of [run] is: at its [select], sending an event to the
    rest of the subscribers, replaying the rest of the log to a new one, or
    returned. *)
Inductive loop_state :=
| Selecting
| Delivering (ev : loc) (todo : list nat)
| Replaying (sub : nat) (todo : list loc)
| Stopped.

(** The stream, its goroutine, the subscribers, the goroutines blocked in
    [s.register <- sub] and in [s.quit <- s], and the history of the stream. *)
Record Sys := mkSys {
  stream : Stream;
  loop : loop_state;
  subs : Subs;
  registering : list nat;
  deregistering : list nat;
  heap : Heap;
  published : list loc;
  dispatched : list loc
}.

Definition initial (id : string) (size : nat) (replay : bool) : Sys :=
  mkSys (newStream id size replay) Selecting ∅ [] [] ∅ [] [].

(** [func (s *Stream) addSubscriber], up to its send on [register]. *)
Definition addSubscriber (sub : nat) (id : string) (y : Sys) : Sys :=
  let s := stream y in
  mkSys (with_subscribers (subscribers s) (subscriberCount s + 1) s) (loop y)
    (<[sub := new_subscriber id]> (subs y)) (registering y ++ [sub]) (deregistering y) (heap y)
    (published y) (dispatched y).

Definition without (x : nat) (l : list nat) : list nat := filter (fun y => y <> x) l.

(** [case subscriber := <-stream.register] *)
Definition on_register (sub : nat) (y : Sys) : Sys :=
  let s := stream y in
  mkSys (with_subscribers (subscribers s ++ [sub]) (subscriberCount s) s)
    (if autoReplay s then Replaying sub (eventLog s) else Selecting)
    (alter (note_joined (length (dispatched y))) sub (subs y))
    (without sub (registering y)) (deregistering y) (heap y) (published y) (dispatched y).

(** [case subscriber := <-stream.deregister] *)
Definition on_deregister (sub : nat) (y : Sys) : Sys :=
  let '(s, subs) :=
    match getSubIndex sub (subscribers (stream y)) with
    | Some i => removeSubscriber i (stream y) (subs y)
    | None => (stream y, subs y)
    end in
  mkSys s (loop y) subs (registering y) (without sub (deregistering y)) (heap y) (published y) (dispatched y).

(** [case event := <-stream.event], up to the sends. *)
Definition on_event (id : string) (now : Time) (ev : loc) (q : list loc) (y : Sys) : Sys :=
  let s := with_event q (stream y) in
  let '(log, h) := if autoReplay s then Add id now ev (eventLog s) (heap y) else (eventLog s, heap y) in
  mkSys (with_log log s) (Delivering ev (subscribers s)) (subs y) (registering y) (deregistering y) h
    (published y) (dispatched y ++ [ev]).

(** [case <-stream.quit] *)
Definition on_quit (y : Sys) : Sys :=
  let '(s, subs) := removeAllSubscribers (stream y) (subs y) in
  mkSys s Stopped subs (registering y) (deregistering y) (heap y) (published y) (dispatched y).

Definition with_loop (l : loop_state) (y : Sys) : Sys :=
  mkSys (stream y) l (subs y) (registering y) (deregistering y) (heap y) (published y) (dispatched y).
Definition with_stream (s : Stream) (y : Sys) : Sys :=
  mkSys s (loop y) (subs y) (registering y) (deregistering y) (heap y) (published y) (dispatched y).
Definition on_sub (f : Subscriber -> Subscriber) (sub : nat) (y : Sys) : Sys :=
  mkSys (stream y) (loop y) (alter f sub (subs y)) (registering y) (deregistering y) (heap y) (published y) (dispatched y).

(** [stream.event <- event], when there is room. *)
Definition enqueue (ev : loc) (y : Sys) : Sys :=
  mkSys (with_event (event (stream y) ++ [ev]) (stream y)) (loop y) (subs y) (registering y) (deregistering y)
    (heap y) (published y ++ [ev]) (dispatched y).

(** [func (s *Subscriber) close()], its send on [quit]. *)
Definition Subscriber_close (sub : nat) (y : Sys) : Sys :=
  mkSys (stream y) (loop y) (subs y) (registering y) (deregistering y ++ [sub]) (heap y) (published y) (dispatched y).

Definition with_heap (h : Heap) (y : Sys) : Sys :=
  mkSys (stream y) (loop y) (subs y) (registering y) (deregistering y) h (published y) (dispatched y).

Definition room (sub : Subscriber) : Prop := (length (connection sub) < connCap)%nat.

(** The event makes the handler leave its loop. *)
Definition ends_handler (h : Heap) (ev : loc) : bool :=
  match h !! ev with
  | None => true
  | Some e => negb (nonempty (ev_Data e)) && negb (nonempty (ev_Comment e))
  end.

(** The atomic actions. *)
Inductive step : Sys -> Sys -> Prop :=
(** publishers, and any other writer of the events *)
| step_publish ev y :
    (length (event (stream y)) < buffSize (stream y))%nat -> step y (enqueue ev y)
| step_heap h y : step y (with_heap h y)
| step_quit y : step y (with_stream (Stream_close (stream y)) y)
(** handlers *)
| step_add sub id y : subs y !! sub = None -> step y (addSubscriber sub id y)
| step_receive sub x ev q y :
    subs y !! sub = Some x -> handling x = true -> connection x = ev :: q ->
    step y (on_sub (if ends_handler (heap y) ev then stop_handling ∘ receive else receive) sub y)
| step_drained sub x y :
    subs y !! sub = Some x -> conn_closed x = true -> connection x = [] -> step y (on_sub stop_handling sub y)
| step_close sub x y :
    subs y !! sub = Some x -> sub ∉ registering y -> step y (Subscriber_close sub y)
(** the stream's goroutine *)
| step_register sub y :
    loop y = Selecting -> sub ∈ registering y -> step y (on_register sub y)
| step_deregister sub y :
    loop y = Selecting -> sub ∈ deregistering y -> step y (on_deregister sub y)
| step_event id now ev q y :
    loop y = Selecting -> event (stream y) = ev :: q -> step y (on_event id now ev q y)
| step_stop y : loop y = Selecting -> quit (stream y) = true -> step y (on_quit y)
| step_deliver ev sub todo x y :
    loop y = Delivering ev (sub :: todo) -> subs y !! sub = Some x -> room x ->
    step y (with_loop (Delivering ev todo) (on_sub (send ev) sub y))
| step_delivered ev y : loop y = Delivering ev [] -> step y (with_loop Selecting y)
| step_replay sub ev todo x y :
    loop y = Replaying sub (ev :: todo) -> subs y !! sub = Some x -> replays (heap y) x ev = true -> room x ->
    step y (with_loop (Replaying sub todo) (on_sub (note_replayed ev ∘ send ev) sub y))
| step_replay_skip sub ev todo x y :
    loop y = Replaying sub (ev :: todo) -> subs y !! sub = Some x -> replays (heap y) x ev = false ->
    step y (with_loop (Replaying sub todo) y)
| step_replayed sub y : loop y = Replaying sub [] -> step y (with_loop Selecting y).

Definition reachable (y y' : Sys) : Prop := rtc step y y'.

#[export] Instance reachable_transitive : Transitive reachable.
Proof. intros x y z H1 H2. unfold reachable in *. by etrans. Qed.

(** * The invariant of a stream *)

(** What the goroutine still has to send to a subscriber. *)
Definition owed (l : loop_state) (sub : nat) : list loc :=
  match l with
  | Delivering ev todo => if decide (sub ∈ todo) then [ev] else []
  | _ => []
  end.

(** The history of one subscriber: its connection is a queue of bounded length,
    and what was sent on it is a replay of earlier events followed by the events
    dispatched since it joined, with no gap. *)
Definition sub_history (ds : list loc) (x : Subscriber) : Prop :=
  conn_sent x = received x ++ connection x /\ (length (connection x) <= connCap)%nat /\
  (joined x <= length ds)%nat /\ conn_sent x `prefix_of` replayed x ++ drop (joined x) ds /\
  replayed x `sublist_of` take (joined x) ds.

Definition loop_ok (y : Sys) : Prop :=
  match loop y with
  | Delivering ev todo => NoDup todo /\ todo ⊆ subscribers (stream y)
  | Replaying sub todo =>
      sub ∈ subscribers (stream y) /\
      forall x, subs y !! sub = Some x -> joined x = length (dispatched y) /\ replayed x ++ todo `sublist_of` dispatched y
  | Selecting | Stopped => True
  end.

Record Inv (y : Sys) : Prop := mkInv {
  inv_queue : published y = dispatched y ++ event (stream y);
  inv_nodup : NoDup (subscribers (stream y) ++ registering y);
  inv_open : forall sub, sub ∈ subscribers (stream y) ++ registering y ->
    exists x, subs y !! sub = Some x /\ conn_closed x = false;
  inv_fresh : forall sub x, sub ∈ registering y -> subs y !! sub = Some x -> conn_sent x = [] /\ replayed x = [];
  inv_history : forall sub x, subs y !! sub = Some x -> sub_history (dispatched y) x;
  inv_live : forall sub x, sub ∈ subscribers (stream y) -> subs y !! sub = Some x ->
    conn_sent x ++ owed (loop y) sub = replayed x ++ drop (joined x) (dispatched y);
  inv_loop : loop_ok y;
  inv_log : eventLog (stream y) `sublist_of` dispatched y;
  inv_count : loop y <> Stopped ->
    subscriberCount (stream y) = Z.of_nat (length (subscribers (stream y)) + length (registering y))
}.

Lemma initial_inv id size replay : Inv (initial id size replay).
Proof. constructor; try done; simpl; try set_solver; constructor. Qed.

(** A change of one subscriber that keeps its membership and its history. *)
Definition keeps (f : Subscriber -> Subscriber) : Prop := forall x,
  conn_closed (f x) = conn_closed x /\ conn_sent (f x) = conn_sent x /\
  replayed (f x) = replayed x /\ joined (f x) = joined x.

Lemma alter_lookup (f : Subscriber -> Subscriber) sub (m : Subs) s x' :
  alter f sub m !! s = Some x' -> exists x, m !! s = Some x /\ (s <> sub /\ x' = x \/ s = sub /\ x' = f x).
Proof.
  intros E. destruct (decide (s = sub)) as [->|Hne].
  - rewrite lookup_alter_eq in E. destruct (m !! sub) as [x|]; [|done]. simplify_eq/=. eauto 6.
  - rewrite lookup_alter_ne in E by done. eauto 6.
Qed.

Lemma alter_open f sub (m : Subs) s :
  (forall x, conn_closed (f x) = conn_closed x) ->
  (exists x, m !! s = Some x /\ conn_closed x = false) ->
  exists x, alter f sub m !! s = Some x /\ conn_closed x = false.
Proof.
  intros Hf (x & E & Hx). destruct (decide (s = sub)) as [->|Hne].
  - rewrite lookup_alter_eq, E. exists (f x). by rewrite Hf.
  - rewrite lookup_alter_ne by done. eauto.
Qed.

Lemma on_sub_keeps f sub y :
  keeps f -> Inv y ->
  (forall x, subs y !! sub = Some x -> sub_history (dispatched y) (f x)) -> Inv (on_sub f sub y).
Proof.
  intros Hk [Hq Hn Ho Hfr Hh Hl Hlo Hlg Hc] Hf.
  constructor; simpl; try done.
  - intros s Hs. apply alter_open; [apply Hk|auto].
  - intros s x' Hs E. apply alter_lookup in E as (x & Ex & [[_ ->]|[-> ->]]); [by eapply Hfr|].
    destruct (Hk x) as (_ & -> & -> & _). by eapply Hfr.
  - intros s x' E. apply alter_lookup in E as (x & Ex & [[_ ->]|[-> ->]]); eauto.
  - intros s x' Hs E. apply alter_lookup in E as (x & Ex & [[_ ->]|[-> ->]]); [eauto|].
    destruct (Hk x) as (_ & -> & -> & ->). eauto.
  - unfold loop_ok in *. simpl. destruct (loop y) as [| |s todo|]; try done. destruct Hlo as [Hin Hlo]. split; [done|].
    intros x' E. apply alter_lookup in E as (x & Ex & [[_ ->]|[-> ->]]); [eauto|]. destruct (Hk x) as (_ & _ & -> & ->). eauto.
Qed.

Lemma receive_keeps h ev : keeps (if ends_handler h ev then stop_handling ∘ receive else receive).
Proof. intros x. by destruct (ends_handler h ev). Qed.

Lemma receive_history h ev q x ds :
  connection x = ev :: q -> sub_history ds x ->
  sub_history ds ((if ends_handler h ev then stop_handling ∘ receive else receive) x).
Proof.
  intros E (H1 & H2 & H3). unfold sub_history. rewrite E in *. simpl in H2.
  destruct (ends_handler h ev); simpl; rewrite E; simpl; (split; [by rewrite H1, <- app_assoc|split; [lia|done]]).
Qed.

Lemma inv_receive sub x ev q y :
  subs y !! sub = Some x -> connection x = ev :: q -> Inv y ->
  Inv (on_sub (if ends_handler (heap y) ev then stop_handling ∘ receive else receive) sub y).
Proof.
  intros Ex Ec HI. apply on_sub_keeps; [apply receive_keeps|done|].
  intros x' Ex'. simplify_eq. eapply receive_history; [done|]. by apply (inv_history y HI sub).
Qed.

Lemma inv_stop_handling sub y : Inv y -> Inv (on_sub stop_handling sub y).
Proof.
  intros HI. apply on_sub_keeps; [by intros x|done|]. intros x Ex. apply (inv_history y HI sub x Ex).
Qed.

Lemma inv_enqueue ev y : Inv y -> Inv (enqueue ev y).
Proof. intros [Hq Hn Ho Hfr Hh Hl Hlo Hlg Hc]. constructor; simpl; try done. by rewrite Hq, app_assoc. Qed.

Lemma inv_add sub id y : subs y !! sub = None -> Inv y -> Inv (addSubscriber sub id y).
Proof.
  intros Hs [Hq Hn Ho Hfr Hh Hl Hlo Hlg Hc].
  assert (Hne : forall s, s ∈ subscribers (stream y) ++ registering y -> s <> sub).
  { intros s Hin ->. destruct (Ho _ Hin) as (x & E & _). by rewrite Hs in E. }
  assert (Hnew : sub_history (dispatched y) (new_subscriber id)).
  { repeat split; simpl; try lia; [apply prefix_nil|apply sublist_nil_l]. }
  constructor; simpl; try done.
  - rewrite app_assoc. apply NoDup_app. repeat split; [done| |apply NoDup_singleton].
    intros s Hin ->%list_elem_of_singleton. by apply (Hne sub).
  - intros s. rewrite app_assoc, elem_of_app, list_elem_of_singleton. intros [Hin| ->].
    + rewrite lookup_insert_ne by (symmetry; by apply Hne). auto.
    + rewrite lookup_insert_eq. by eexists.
  - intros s x. rewrite elem_of_app, list_elem_of_singleton, lookup_insert_Some.
    intros Hin [[<- <-]|[Hns E]]; [done|]. destruct Hin as [Hin| ->]; [by eapply Hfr|done].
  - intros s x [[<- <-]|[Hns E]]%lookup_insert_Some; [done|by eapply Hh].
  - intros s x Hin [[<- <-]|[Hns E]]%lookup_insert_Some; [|by eapply Hl]. exfalso. apply (Hne sub); set_solver.
  - unfold loop_ok in *. simpl. destruct (loop y) as [| |s todo|]; try done. destruct Hlo as [Hin Hlo]. split; [done|].
    intros x [[<- <-]|[Hns E]]%lookup_insert_Some; [|by apply Hlo]. exfalso. apply (Hne sub); set_solver.
  - intros Hst. rewrite Hc by done. rewrite length_app. simpl. lia.
Qed.

Lemma without_elem x s l : s ∈ without x l <-> s <> x /\ s ∈ l.
Proof. unfold without. by rewrite list_elem_of_filter. Qed.

Lemma without_length x l : NoDup l -> x ∈ l -> length l = S (length (without x l)).
Proof.
  induction 1 as [|a l Ha Hl IH]; intros Hx; [by apply not_elem_of_nil in Hx|]. unfold without in *. cbn [filter list_filter].
  case_decide as Hd.
  - simpl. f_equal. apply IH. set_solver.
  - assert (a = x) as -> by (by destruct (decide (a = x))). simpl. f_equal.
    clear -Ha. induction l as [|b l IH]; [done|]. cbn [filter list_filter]. rewrite decide_True by set_solver.
    simpl. f_equal. apply IH. set_solver.
Qed.

Lemma inv_register sub y : loop y = Selecting -> sub ∈ registering y -> Inv y -> Inv (on_register sub y).
Proof.
  intros Hloop Hin [Hq Hn Ho Hfr Hh Hl Hlo Hlg Hc].
  apply NoDup_app in Hn as (Hn1 & Hdis & Hn2).
  destruct (Ho sub ltac:(set_solver)) as (x0 & E0 & Hc0). destruct (Hfr sub x0 Hin E0) as [Hs0 Hr0].
  assert (Hlk : forall s x', alter (note_joined (length (dispatched y))) sub (subs y) !! s = Some x' ->
    s <> sub /\ subs y !! s = Some x' \/ s = sub /\ x' = note_joined (length (dispatched y)) x0).
  { intros s x' E. destruct (decide (s = sub)) as [->|Hne].
    - rewrite lookup_alter_eq, E0 in E. simplify_eq/=. by right.
    - rewrite lookup_alter_ne in E by done. by left. }
  assert (Howed : forall s, owed (if autoReplay (stream y) then Replaying sub (eventLog (stream y)) else Selecting) s = []).
  { intros s. by destruct (autoReplay (stream y)). }
  constructor; simpl; try done.
  - rewrite <- app_assoc. apply NoDup_app. repeat split; [done| |].
    + intros s Hs. simpl. rewrite elem_of_cons, without_elem. intros [->|[_ H]]; by eapply Hdis.
    + simpl. apply NoDup_cons. split; [rewrite without_elem; by intros []|by apply NoDup_filter].
  - intros s. rewrite <- app_assoc. simpl. rewrite elem_of_app, elem_of_cons, without_elem. intros Hs.
    destruct (decide (s = sub)) as [->|Hne].
    + rewrite lookup_alter_eq, E0. by eexists.
    + rewrite lookup_alter_ne by done. apply Ho. set_solver.
  - intros s x' [Hne Hs]%without_elem E. destruct (Hlk s x' E) as [[_ E']|[-> _]]; [by eapply Hfr|done].
  - intros s x' E. destruct (Hlk s x' E) as [[_ E']|[-> ->]]; [by eapply Hh|].
    destruct (Hh sub x0 E0) as (A & B & _). repeat split; simpl; try done.
    + rewrite Hs0. apply prefix_nil.
    + rewrite Hr0. apply sublist_nil_l.
  - intros s x' Hs E. rewrite Howed, app_nil_r. destruct (Hlk s x' E) as [[Hne E']|[-> ->]].
    + assert (Hs' : s ∈ subscribers (stream y)) by set_solver. specialize (Hl s x' Hs' E').
      rewrite Hloop in Hl. simpl in Hl. by rewrite app_nil_r in Hl.
    + simpl. by rewrite Hs0, Hr0, drop_ge.
  - unfold loop_ok. simpl. destruct (autoReplay (stream y)); [|done]. split; [set_solver|].
    intros x' E. destruct (Hlk sub x' E) as [[Hne _]|[_ ->]]; [done|]. simpl. by rewrite Hr0.
  - intros _. rewrite Hc by congruence. rewrite length_app. simpl. rewrite (without_length sub (registering y)) by done. lia.
Qed.

Lemma getSubIndex_spec sub l :
  match getSubIndex sub l with
  | Some i => l !! i = Some sub
  | None => sub ∉ l
  end.
Proof.
  induction l as [|s l IH]; simpl; [set_solver|]. case_decide as Hd; [by subst|].
  destruct (getSubIndex sub l); simpl; set_solver.
Qed.

Lemma inv_deregister sub y : loop y = Selecting -> Inv y -> Inv (on_deregister sub y).
Proof.
  intros Hloop [Hq Hn Ho Hfr Hh Hl Hlo Hlg Hc]. unfold on_deregister. pose proof (getSubIndex_spec sub (subscribers (stream y))) as Hi.
  destruct (getSubIndex sub (subscribers (stream y))) as [i|].
  2: { constructor; simpl; done. }
  unfold removeSubscriber. rewrite Hi. rewrite <- delete_take_drop.
  assert (Hperm : subscribers (stream y) ≡ₚ sub :: delete i (subscribers (stream y))) by (by apply delete_Permutation).
  assert (Hnot : sub ∉ delete i (subscribers (stream y)) ++ registering y).
  { rewrite Hperm in Hn. simpl in Hn. by apply NoDup_cons in Hn as [? _]. }
  assert (Hsub : forall s, s ∈ delete i (subscribers (stream y)) -> s ∈ subscribers (stream y)).
  { intros s Hs. rewrite Hperm. set_solver. }
  constructor; simpl; try done.
  - rewrite Hperm in Hn. simpl in Hn. by apply NoDup_cons in Hn as [_ ?].
  - intros s Hs. assert (s <> sub) by (intros ->; done). rewrite lookup_alter_ne by done. apply Ho. set_solver.
  - intros s x' Hs E. apply alter_lookup in E as (x & E & [[_ ->]|[-> ->]]); exact (Hfr _ _ Hs E).
  - intros s x' E. apply alter_lookup in E as (x & E & [[_ ->]|[-> ->]]); [by eapply Hh|]. exact (Hh _ _ E).
  - intros s x' Hs E. apply alter_lookup in E as (x & E & [[_ ->]|[-> ->]]); [|set_solver]. apply Hl; auto.
  - unfold loop_ok. simpl. by rewrite Hloop.
  - intros _. rewrite Hc by congruence. rewrite Hperm at 1. simpl. lia.
Qed.

Lemma Add_log id now ev log h ds : log `sublist_of` ds -> fst (Add id now ev log h) `sublist_of` ds ++ [ev].
Proof.
  intros Hl. unfold Add. destruct (h !! ev) as [e|]; [|by apply sublist_inserts_r].
  destruct (negb (hasContent e)); simpl; [by apply sublist_inserts_r|by apply sublist_app].
Qed.

Lemma inv_event id now ev q y :
  loop y = Selecting -> event (stream y) = ev :: q -> Inv y -> Inv (on_event id now ev q y).
Proof.
  intros Hloop Hev [Hq Hn Ho Hfr Hh Hl Hlo Hlg Hc]. unfold on_event. cbn [with_event autoReplay eventLog].
  set (lh := if autoReplay (stream y) then _ else _).
  assert (Hlog : fst lh `sublist_of` dispatched y ++ [ev]).
  { unfold lh. destruct (autoReplay (stream y)); [by apply Add_log|by apply sublist_inserts_r]. }
  destruct lh as [log h]. apply NoDup_app in Hn as (Hn1 & Hn2). constructor; simpl; try done.
  - rewrite Hq, Hev. by rewrite <- app_assoc.
  - by apply NoDup_app.
  - intros s x E. destruct (Hh s x E) as (A & B & C & D & F). repeat split; try done.
    + rewrite length_app. lia.
    + rewrite drop_app_le by lia. rewrite app_assoc. by apply prefix_app_r.
    + by rewrite take_app_le by lia.
  - intros s x Hs E. destruct (Hh s x E) as (_ & _ & C & _). specialize (Hl s x Hs E). rewrite Hloop in Hl. simpl in Hl.
    rewrite app_nil_r in Hl. rewrite decide_True by done. rewrite drop_app_le by lia. by rewrite Hl, app_assoc.
  - intros _. apply Hc. congruence.
Qed.

Lemma inv_deliver ev sub todo x y :
  loop y = Delivering ev (sub :: todo) -> subs y !! sub = Some x -> room x -> Inv y ->
  Inv (with_loop (Delivering ev todo) (on_sub (send ev) sub y)).
Proof.
  intros Hloop Ex Hroom [Hq Hn Ho Hfr Hh Hl Hlo Hlg Hc]. unfold loop_ok in Hlo. rewrite Hloop in Hlo.
  destruct Hlo as [[Hnot Hnd]%NoDup_cons Hsub]. assert (Hin : sub ∈ subscribers (stream y)) by set_solver.
  pose proof (Hl sub x Hin Ex) as Hlive. rewrite Hloop in Hlive. simpl in Hlive. rewrite decide_True in Hlive by set_solver.
  assert (Hnr : sub ∉ registering y) by (apply NoDup_app in Hn as (_ & Hd & _); by apply Hd).
  constructor; simpl; try done.
  - intros s Hs. by apply alter_open; [|auto].
  - intros s x' Hs E. apply alter_lookup in E as (z & Ez & [[_ ->]|[-> ->]]); [by eapply Hfr|done].
  - intros s x' E. apply alter_lookup in E as (z & Ez & [[_ ->]|[-> ->]]); [by eapply Hh|]. simplify_eq.
    destruct (Hh sub x Ex) as (A & B & C & _ & F). unfold room in Hroom. repeat split; simpl; try done.
    + by rewrite A, <- app_assoc.
    + rewrite length_app. simpl. lia.
    + by rewrite Hlive.
  - intros s x' Hs E. apply alter_lookup in E as (z & Ez & [[Hne ->]|[-> ->]]).
    + specialize (Hl s z Hs Ez). rewrite Hloop in Hl. simpl in Hl. rewrite <- Hl. f_equal.
      destruct (decide (s ∈ todo)); [by rewrite decide_True by set_solver|by rewrite decide_False by set_solver].
    + simplify_eq. rewrite decide_False by done. simpl. by rewrite app_nil_r.
  - unfold loop_ok. simpl. split; [done|set_solver].
  - intros _. apply Hc. congruence.
Qed.

Lemma inv_delivered ev y : loop y = Delivering ev [] -> Inv y -> Inv (with_loop Selecting y).
Proof.
  intros Hloop [Hq Hn Ho Hfr Hh Hl Hlo Hlg Hc]. constructor; simpl; try done.
  - intros s x Hs E. specialize (Hl s x Hs E). rewrite Hloop in Hl. simpl in Hl. done.
  - intros _. apply Hc. congruence.
Qed.

Lemma inv_replay sub ev todo x y :
  loop y = Replaying sub (ev :: todo) -> subs y !! sub = Some x -> room x -> Inv y ->
  Inv (with_loop (Replaying sub todo) (on_sub (note_replayed ev ∘ send ev) sub y)).
Proof.
  intros Hloop Ex Hroom [Hq Hn Ho Hfr Hh Hl Hlo Hlg Hc]. unfold loop_ok in Hlo. rewrite Hloop in Hlo.
  destruct Hlo as [Hin Hlo]. destruct (Hlo x Ex) as [Hj Hsl].
  pose proof (Hl sub x Hin Ex) as Hlive. rewrite Hloop, Hj, drop_ge, !app_nil_r in Hlive by done.
  assert (Hnr : sub ∉ registering y) by (apply NoDup_app in Hn as (_ & Hd & _); by apply Hd).
  assert (Hsl' : (replayed x ++ [ev]) ++ todo `sublist_of` dispatched y) by (by rewrite <- app_assoc).
  constructor; simpl; try done.
  - intros s Hs. by apply alter_open; [|auto].
  - intros s x' Hs E. apply alter_lookup in E as (z & Ez & [[_ ->]|[-> ->]]); [by eapply Hfr|done].
  - intros s x' E. apply alter_lookup in E as (z & Ez & [[_ ->]|[-> ->]]); [by eapply Hh|]. simplify_eq.
    destruct (Hh sub x Ex) as (A & B & C & _ & F). unfold room in Hroom. repeat split; simpl; try done.
    + by rewrite A, <- app_assoc.
    + rewrite length_app. simpl. lia.
    + rewrite Hlive. apply prefix_app_r, prefix_refl || (exists (drop (joined x) (dispatched y)); by rewrite <- app_assoc).
    + rewrite Hj, take_ge by done. etrans; [|exact Hsl']. apply sublist_inserts_r. done.
  - intros s x' Hs E. rewrite app_nil_r. apply alter_lookup in E as (z & Ez & [[Hne ->]|[-> ->]]).
    + specialize (Hl s z Hs Ez). rewrite Hloop in Hl. simpl in Hl. by rewrite app_nil_r in Hl.
    + simplify_eq. simpl. by rewrite Hj, drop_ge, app_nil_r, Hlive.
  - unfold loop_ok. simpl. split; [done|]. intros x' E. apply alter_lookup in E as (z & Ez & [[Hne ->]|[_ ->]]); [done|].
    simplify_eq. done.
  - intros _. apply Hc. congruence.
Qed.

Lemma inv_replay_skip sub ev todo y :
  loop y = Replaying sub (ev :: todo) -> Inv y -> Inv (with_loop (Replaying sub todo) y).
Proof.
  intros Hloop [Hq Hn Ho Hfr Hh Hl Hlo Hlg Hc]. rewrite Hloop in Hl. unfold loop_ok in Hlo. rewrite Hloop in Hlo.
  constructor; simpl; try done.
  - unfold loop_ok. simpl. destruct Hlo as [Hin Hlo]. split; [done|]. intros x E. destruct (Hlo x E) as [Hj Hsl].
    split; [done|]. etrans; [|exact Hsl]. apply sublist_app; [done|]. by apply sublist_cons.
  - intros _. apply Hc. congruence.
Qed.

Lemma inv_replayed sub y : loop y = Replaying sub [] -> Inv y -> Inv (with_loop Selecting y).
Proof.
  intros Hloop [Hq Hn Ho Hfr Hh Hl Hlo Hlg Hc]. rewrite Hloop in Hl. constructor; simpl; try done.
  intros _. apply Hc. congruence.
Qed.

Lemma close_all_lookup l (m : Subs) s x' :
  foldr (alter close_connection) m l !! s = Some x' ->
  exists x, m !! s = Some x /\ (x' = x \/ x' = close_connection x).
Proof.
  revert x'. induction l as [|a l IH]; intros x' E; simpl in E; [eauto|].
  apply alter_lookup in E as (z & Ez & Hz). destruct (IH z Ez) as (x & Ex & Hx). exists x. split; [done|].
  destruct Hz as [[_ ->]|[_ ->]], Hx as [->| ->]; auto.
Qed.

Lemma close_all_other l (m : Subs) s : s ∉ l -> foldr (alter close_connection) m l !! s = m !! s.
Proof.
  induction l as [|a l IH]; intros Hs; [done|]. simpl. rewrite lookup_alter_ne by set_solver. apply IH. set_solver.
Qed.

Lemma inv_quit y : loop y = Selecting -> Inv y -> Inv (on_quit y).
Proof.
  intros Hloop [Hq Hn Ho Hfr Hh Hl Hlo Hlg Hc]. apply NoDup_app in Hn as (Hn1 & Hd & Hn2).
  constructor; simpl; try done.
  - intros s Hs. rewrite close_all_other; [apply Ho; set_solver|]. intros Hin. by apply (Hd s).
  - intros s x' Hs E. rewrite close_all_other in E; [by eapply Hfr|]. intros Hin. by apply (Hd s).
  - intros s x' E. apply close_all_lookup in E as (x & Ex & [->| ->]); exact (Hh s x Ex).
  - intros s x' Hs. by apply not_elem_of_nil in Hs.
Qed.

(** Every action keeps the invariant. *)
Lemma stream_step_inv y y' : step y y' -> Inv y -> Inv y'.
Proof.
  destruct 1; intros HI; eauto using inv_enqueue, inv_add, inv_receive, inv_stop_handling, inv_register,
    inv_deregister, inv_event, inv_quit, inv_deliver, inv_delivered, inv_replay, inv_replay_skip, inv_replayed.
  all: by destruct HI.
Qed.

Lemma reachable_inv y y' : reachable y y' -> Inv y -> Inv y'.
Proof. induction 1; eauto using stream_step_inv. Qed.

(** C17: In every state a stream can reach, the events published are the events
    dispatched followed by the events still queued, in order; what a subscriber
    received or has waiting is a selection of the events dispatched before it
    joined (the replay, in order) followed by the events dispatched since, in
    order and without a gap or a repetition, and all of them once the stream is
    back at its select; no connection holds more than its capacity or is closed
    while the stream may still send on it; and the subscriber counter is exact
    until the stream stops. *)
Theorem sse_stream_delivery id size replay y :
  reachable (initial id size replay) y ->
  published y = dispatched y ++ event (stream y) /\
  (forall s x, subs y !! s = Some x ->
     received x ++ connection x `prefix_of` replayed x ++ drop (joined x) (dispatched y) /\
     replayed x `sublist_of` take (joined x) (dispatched y) /\
     (length (connection x) <= connCap)%nat) /\
  (forall s x, s ∈ subscribers (stream y) -> subs y !! s = Some x ->
     conn_closed x = false /\
     (loop y = Selecting -> received x ++ connection x = replayed x ++ drop (joined x) (dispatched y))) /\
  (loop y <> Stopped ->
     subscriberCount (stream y) = Z.of_nat (length (subscribers (stream y)) + length (registering y))).
Proof.
  intros Hr. pose proof (reachable_inv _ _ Hr (initial_inv id size replay)) as [Hq Hn Ho Hfr Hh Hl Hlo Hlg Hc].
  split; [done|]. split; [|split; [|done]].
  - intros s x E. destruct (Hh s x E) as (<- & B & _ & D & F). done.
  - intros s x Hs E. destruct (Ho s ltac:(set_solver)) as (x' & E' & Hx). simplify_eq. split; [done|].
    intros Hsel. specialize (Hl s x Hs E). rewrite Hsel in Hl. simpl in Hl. rewrite app_nil_r in Hl.
    by destruct (Hh s x E) as (<- & _).
Qed.

(** ** A run of steps *)


Definition joined_run (size : nat) : Sys :=
  with_loop Selecting (on_register 0 (addSubscriber 0 "" (initial "s" size true))).

Lemma joined_run_reachable size : reachable (initial "s" size true) (joined_run size).
Proof.
  eapply rtc_l; [apply (step_add 0 ""); done|].
  eapply rtc_l; [apply (step_register 0); [done|set_solver]|].
  eapply rtc_l; [by eapply (step_replayed 0)|]. apply rtc_refl.
Qed.

Lemma sse_stream_delivery_witness :
  let y := with_loop (Delivering 7 []) (on_sub (send 7) 0
             (on_event "a" zeroTime 7 [8%nat] (enqueue 8 (enqueue 7 (joined_run 4))))) in
  published y = [7; 8]%nat /\
  (forall s x, subs y !! s = Some x -> received x ++ connection x `prefix_of` replayed x ++ drop (joined x) [7%nat]).
Proof.
  intros y.
  assert (Hr : reachable (initial "s" 4 true) y).
  { etrans; [apply joined_run_reachable|].
    eapply rtc_l; [apply (step_publish 7); simpl; lia|].
    eapply rtc_l; [apply (step_publish 8); simpl; lia|].
    eapply rtc_l; [by apply (step_event "a" zeroTime 7 [8%nat])|].
    eapply rtc_l; [|apply rtc_refl].
    eapply (step_deliver 7 0 []); [done|done|]. unfold room, connCap. simpl. lia. }
  destruct (sse_stream_delivery "s" 4 true y Hr) as (Hp & Hs & _). split; [done|].
  intros s x E. apply (Hs s x E).
Defined.

(** * A stream that waits for a subscriber that left *)

(** The goroutine is sending to a subscriber whose handler has ended and whose
    connection is full. *)
Definition wedged (sub : nat) (y : Sys) : Prop :=
  exists ev todo x, loop y = Delivering ev (sub :: todo) /\ subs y !! sub = Some x /\
    handling x = false /\ length (connection x) = connCap.

Lemma wedged_step sub y y' :
  step y y' -> wedged sub y ->
  wedged sub y' /\ dispatched y' = dispatched y /\ deregistering y `prefix_of` deregistering y' /\
  subscribers (stream y') = subscribers (stream y).
Proof.
  intros Hs (ev & todo & x & Hloop & Ex & Hh & Hlen).
  destruct Hs; try congruence; simplify_eq; simpl;
    (split; [|split; [done|split; [try done|done]]]); try (exists ev, todo).
  - by exists x.
  - by exists x.
  - by exists x.
  - exists x. simpl. by rewrite lookup_insert_ne by congruence.
  - destruct (decide (sub = sub0)) as [->|Hne]; [congruence|]. exists x. simpl. by rewrite lookup_alter_ne.
  - destruct (decide (sub = sub0)) as [->|Hne].
    + exists (stop_handling x). simpl. by rewrite lookup_alter_eq, Ex.
    + exists x. simpl. by rewrite lookup_alter_ne.
  - by exists x.
  - by apply prefix_app_r.
  - exfalso. rewrite Hloop in H. simplify_eq. unfold room in *. lia.
Qed.

Lemma wedged_reachable sub y y' :
  reachable y y' -> wedged sub y ->
  wedged sub y' /\ dispatched y' = dispatched y /\ deregistering y `prefix_of` deregistering y' /\
  subscribers (stream y') = subscribers (stream y).
Proof.
  induction 1 as [y|y y1 y2 Hs _ IH]; intros Hw; [done|].
  destruct (wedged_step sub y y1 Hs Hw) as (Hw1 & Hd1 & Hp1 & Hs1). destruct (IH Hw1) as (Hw2 & Hd2 & Hp2 & Hs2).
  repeat split; [done|congruence|by etrans|congruence].
Qed.

(** At its select, with one subscriber, whose handler has ended and whose
    connection holds [k] events. *)
Definition idle (k : nat) (y : Sys) : Prop :=
  loop y = Selecting /\ event (stream y) = [] /\ (0 < buffSize (stream y))%nat /\ subscribers (stream y) = [0%nat] /\
  registering y = [] /\ exists x, subs y !! 0%nat = Some x /\ handling x = false /\ length (connection x) = k.

(** The state in which one more event is being sent. *)
Definition sending (ev : loc) (y : Sys) : Sys := on_event "id" zeroTime ev [] (enqueue ev y).

Lemma sending_reachable k (ev : loc) y :
  idle k y ->
  reachable y (sending ev y) /\ loop (sending ev y) = Delivering ev [0%nat] /\ event (stream (sending ev y)) = [] /\
  buffSize (stream (sending ev y)) = buffSize (stream y) /\ subscribers (stream (sending ev y)) = [0%nat] /\
  registering (sending ev y) = [] /\ subs (sending ev y) = subs y.
Proof.
  intros (Hl & He & Hb & Hs & Hr & x & Ex & Hh & Hlen). split.
  - eapply rtc_l; [apply (step_publish ev); rewrite He; done|].
    eapply rtc_l; [|apply rtc_refl]. apply (step_event "id" zeroTime ev []); [done|]. simpl. by rewrite He.
  - unfold sending, on_event. cbn [enqueue stream with_event autoReplay eventLog heap subs].
    destruct (if autoReplay (stream y) then _ else _) as [log h]. simpl. by rewrite Hs.
Qed.

Lemma idle_deliver k (ev : loc) y : idle k y -> (k < connCap)%nat -> exists y', reachable y y' /\ idle (S k) y'.
Proof.
  intros Hi Hk. destruct (sending_reachable k ev y Hi) as (Hr & Hl & He & Hb & Hs & Hg & Hu).
  destruct Hi as (_ & _ & Hb' & _ & _ & x & Ex & Hh & Hlen). set (z := sending ev y) in *.
  exists (with_loop Selecting (with_loop (Delivering ev []) (on_sub (send ev) 0 z))). split.
  - etrans; [exact Hr|]. eapply rtc_l.
    + eapply (step_deliver ev 0 [] x); [done|by rewrite Hu|]. unfold room. lia.
    + eapply rtc_l; [|apply rtc_refl]. by apply (step_delivered ev).
  - repeat split; simpl; try done; [lia|]. exists (send ev x). rewrite Hu, lookup_alter_eq, Ex.
    repeat split; [done|]. simpl. rewrite length_app. simpl. lia.
Qed.

Lemma idle_fill k (ev : loc) y : idle 0 y -> (k <= connCap)%nat -> exists y', reachable y y' /\ idle k y'.
Proof.
  intros Hi. induction k as [|k IH]; intros Hk; [by exists y; split; [apply rtc_refl|]|].
  destruct IH as (y1 & Hr1 & Hi1); [lia|]. destruct (idle_deliver k ev y1 Hi1) as (y2 & Hr2 & Hi2); [lia|].
  exists y2. split; [by etrans|done].
Qed.

(** A subscriber joins, and an event with neither data nor comment ends its
    handler. *)
Definition nameOnly : Event := WithEventName "ping" emptyEvent.

Lemma idle_reachable id size replay : (0 < size)%nat -> exists y, reachable (initial id size replay) y /\ idle 0 y.
Proof.
  intros Hsize. set (y0 := with_heap {[1%nat := nameOnly]} (initial id size replay)).
  set (y1 := with_loop Selecting (on_register 0 (addSubscriber 0 "" y0))).
  assert (H1 : reachable (initial id size replay) y1).
  { eapply rtc_l; [apply (step_heap {[1%nat := nameOnly]})|]. eapply rtc_l; [by apply (step_add 0 "")|].
    eapply rtc_l; [apply (step_register 0); [done|set_solver]|]. destruct replay; [|apply rtc_refl].
    eapply rtc_l; [by apply (step_replayed 0)|apply rtc_refl]. }
  set (y2 := on_event "id" zeroTime 1 [] (enqueue 1 y1)).
  set (y3 := with_loop Selecting (with_loop (Delivering 1 []) (on_sub (send 1) 0 y2))).
  assert (H2 : reachable y1 y3).
  { eapply rtc_l; [by apply (step_publish 1)|]. eapply rtc_l; [by apply (step_event "id" zeroTime 1 [])|].
    unfold y3, y2. destruct replay.
    - eapply rtc_l; [eapply (step_deliver 1 0 []); [done|done|]; unfold room, connCap; simpl; lia|].
      eapply rtc_l; [by apply (step_delivered 1)|apply rtc_refl].
    - eapply rtc_l; [eapply (step_deliver 1 0 []); [done|done|]; unfold room, connCap; simpl; lia|].
      eapply rtc_l; [by apply (step_delivered 1)|apply rtc_refl]. }
  assert (He : ends_handler (heap y3) 1 = true) by (by destruct replay).
  exists (on_sub (stop_handling ∘ receive) 0 y3). split.
  - etrans; [exact H1|]. etrans; [exact H2|]. eapply rtc_l; [|apply rtc_refl].
    assert (exists x, subs y3 !! 0%nat = Some x /\ handling x = true /\ connection x = [1%nat]) as (x & Ex & Hh & Hc).
    { destruct replay; by eexists. }
    pose proof (step_receive 0 x 1 [] y3 Ex Hh Hc) as Hstep. by rewrite He in Hstep.
  - destruct replay; repeat split; try done; by eexists.
Qed.

(** A stream can stop for ever: there is a run (an event without data and
    comment makes the only subscriber's handler leave its loop, and 65 more
    events follow) after which the goroutine waits to send on a full connection
    that nobody reads; from then on no event is dispatched, whatever is
    published, and the subscriber's request to be removed is never served. *)
Theorem sse_stream_wedges id size replay :
  (0 < size)%nat ->
  exists y, reachable (initial id size replay) y /\ 0%nat ∈ deregistering y /\
    forall y', reachable y y' ->
      dispatched y' = dispatched y /\ 0%nat ∈ deregistering y' /\ 0%nat ∈ subscribers (stream y').
Proof.
  intros Hsize. destruct (idle_reachable id size replay Hsize) as (y1 & H1 & Hi1).
  destruct (idle_fill connCap 2 y1 Hi1) as (y2 & H2 & Hi2); [done|].
  destruct (sending_reachable connCap 2 y2 Hi2) as (H3 & Hl & _ & _ & Hs & Hg & Hu).
  destruct Hi2 as (_ & _ & _ & _ & _ & x & Ex & Hh & Hlen).
  set (z := sending 2 y2) in *. exists (Subscriber_close 0 z).
  assert (Hw : wedged 0 (Subscriber_close 0 z)).
  { exists 2%nat, [], x. simpl. by rewrite Hu. }
  assert (Hin : 0%nat ∈ deregistering (Subscriber_close 0 z)) by (simpl; set_solver).
  split; [|split; [done|]].
  - etrans; [exact H1|]. etrans; [exact H2|]. etrans; [exact H3|]. eapply rtc_l; [|apply rtc_refl].
    apply (step_close 0 x); [by rewrite Hu|]. rewrite Hg. set_solver.
  - intros y' Hy. destruct (wedged_reachable 0 _ y' Hy Hw) as (_ & Hd & [k Hp] & Hsub).
    repeat split; [done|rewrite Hp; set_solver|]. rewrite Hsub. simpl. rewrite Hs. set_solver.
Qed.

Lemma sse_stream_wedges_witness :
  exists y, reachable (initial "s" 1024 true) y /\ 0%nat ∈ deregistering y.
Proof.
  destruct (sse_stream_wedges "s" 1024 true ltac:(lia)) as (y & H1 & H2 & _). by exists y.
Defined.
