(* ===== verification/SseServer.v ===== *)
(** [transport/sse], the server around the streams: [stream_manager.go],
    publishing ([server.go]) and the subscription handler ([http.go]). *)
From Stdlib Require Import ZArith Lia Ascii.
From S2P Require Import Prelude GoTime GoErrors Http SseEvent SseStream.
From stdpp Require Import base gmap strings list fin_maps.
Open Scope string_scope.
Open Scope list_scope.
Open Scope Z_scope.

(** * [stream_manager.go]

    Streams are pointers: [streams] is the store of the stream objects, and [mgr]
    the manager's map.  An operation of the manager holds its lock throughout. *)

Record Hub := mkHub { mgr : gmap string nat; streams : gmap nat Stream; hub_heap : Heap }.

Definition on_stream (f : Stream -> Stream) (p : nat) (u : Hub) : Hub :=
  mkHub (mgr u) (alter f p (streams u)) (hub_heap u).

(** [func (s *StreamManager) Clean()] *)
Definition Clean (u : Hub) : Hub :=
  mkHub ∅ (foldr (alter Stream_close) (streams u) (map snd (map_to_list (mgr u)))) (hub_heap u).

(** [Count], [Get], [Exist] *)
Definition Count (u : Hub) : Z := Z.of_nat (size (mgr u)).
Definition Get (streamId : string) (u : Hub) : option nat := mgr u !! streamId.
Definition Exist (streamId : string) (u : Hub) : bool := bool_decide (is_Some (Get streamId u)).

(** [func (s *StreamManager) Add(stream *Stream)] *)
Definition mgr_Add (p : nat) (s : Stream) (u : Hub) : Hub :=
  if Exist (st_id s) u then u else mkHub (<[st_id s := p]> (mgr u)) (streams u) (hub_heap u).

(** [func (s *StreamManager) RemoveWithID(streamId StreamID)] *)
Definition RemoveWithID (streamId : string) (u : Hub) : Hub :=
  match mgr u !! streamId with
  | None => u
  | Some p => mkHub (delete streamId (mgr u)) (alter Stream_close p (streams u)) (hub_heap u)
  end.

(** [func (s *StreamManager) Remove(stream *Stream)], the map in the order of
    [range]. *)
Definition Remove (order : list string) (p : nat) (u : Hub) : Hub :=
  match list_find (fun k => mgr u !! k = Some p) order with
  | None => u
  | Some (_, k) => mkHub (delete k (mgr u)) (alter Stream_close p (streams u)) (hub_heap u)
  end.

(** * [server.go] *)

(** The fields of [Server] used here; the streaming options are those of
    [SseEvent]. *)
Record Server := mkServer {
  bufferSize : nat;
  srv_encodeBase64 : bool;
  srv_autoStream : bool;
  srv_autoReplay : bool;
  corsAllowOrigin : string;
  srv_headers : list (string * string);
  streamIdKey : string;
  authorizeFunc : option (Request -> string -> option error);
  tokenExtractor : option (Request -> string);
  srv_streaming : streaming
}.

(** [func (s *Server) CreateStream(streamId StreamID) *Stream]; the new object is
    at a fresh pointer. *)
Definition CreateStream (srv : Server) (streamId : string) (u : Hub) : nat * Hub :=
  match Get streamId u with
  | Some p => (p, u)
  | None =>
      let p := fresh (dom (streams u)) in
      let s := newStream streamId (bufferSize srv) (srv_autoReplay srv) in
      (p, mgr_Add p s (mkHub (mgr u) (<[p := s]> (streams u)) (hub_heap u)))
  end.

Definition RemoveStream (streamId : string) (u : Hub) : Hub := RemoveWithID streamId u.

(** [func (s *Server) process(event *Event) *Event], in place. *)
Definition process (srv : Server) (ev : loc) (u : Hub) : Hub :=
  if srv_encodeBase64 srv then mkHub (mgr u) (streams u) (alter encodeBase64 ev (hub_heap u)) else u.

Definition has_room (s : Stream) : bool := (length (event s) <? buffSize s)%nat.

Definition push (ev : loc) (s : Stream) : Stream := with_event (event s ++ [ev]) s.

(** [select { case <-stream.quit: case stream.event <- s.process(event): }]: the
    operands are evaluated first, whichever case is then taken; with both ready
    [drop] is the choice; [None] when neither is ready, and the call blocks. *)
Definition select_send (srv : Server) (drop : bool) (p : nat) (ev : loc) (u : Hub) : option Hub :=
  let u := process srv ev u in
  match streams u !! p with
  | None => Some u
  | Some s =>
      if has_room s && negb (quit s && drop) then Some (on_stream (push ev) p u)
      else if quit s then Some u
      else None
  end.

(** [func (s *Server) Publish] *)
Definition Publish (srv : Server) (drop : bool) (streamId : string) (ev : loc) (u : Hub) : option Hub :=
  match Get streamId u with
  | None => Some u
  | Some p => select_send srv drop p ev u
  end.

(** [func (s *Server) TryPublish] *)
Definition TryPublish (srv : Server) (streamId : string) (ev : loc) (u : Hub) : bool * Hub :=
  match Get streamId u with
  | None => (false, u)
  | Some p =>
      let u := process srv ev u in
      match streams u !! p with
      | None => (false, u)
      | Some s => if has_room s then (true, on_stream (push ev) p u) else (false, u)
      end
  end.

(** [func (s *Server) Notify], the manager's streams in the order of [range]. *)
Fixpoint notify_all (srv : Server) (drop : bool) (ps : list nat) (ev : loc) (u : Hub) : option Hub :=
  match ps with
  | [] => Some u
  | p :: ps' => u ← select_send srv drop p ev u; notify_all srv drop ps' ev u
  end.

Definition Notify (srv : Server) (drop : bool) (order : list string) (ev : loc) (u : Hub) : option Hub :=
  notify_all srv drop (omap (fun k => mgr u !! k) order) ev u.

(** [func (s *Server) marshalEvent(data MessagePayload)]; [marshal] is the codec,
    and [None] a nil payload. *)
Definition marshalEvent {P} (marshal : P -> bytes + error) (data : option P) : Event + error :=
  match data with
  | None => inl emptyEvent
  | Some d =>
      match marshal d with
      | inl b => inl (with_Data b emptyEvent)
      | inr err => inr err
      end
  end.

(** [func (s *Server) PublishDataWithMeta], [PublishData] and
    [PublishDataWithEventName]: the event is a new object. *)
Definition PublishDataWithMeta {P} (srv : Server) (marshal : P -> bytes + error) (drop : bool) (streamId : string)
    (data : option P) (opts : list (Event -> Event)) (u : Hub) : option (option error * Hub) :=
  match marshalEvent marshal data with
  | inr err => Some (Some err, u)
  | inl e =>
      let ev := fresh (dom (hub_heap u)) in
      u ← Publish srv drop streamId ev (mkHub (mgr u) (streams u) (<[ev := apply_opts opts e]> (hub_heap u)));
      Some (None, u)
  end.

Definition PublishData {P} (srv : Server) (marshal : P -> bytes + error) (drop : bool) (streamId : string)
    (data : option P) (u : Hub) : option (option error * Hub) :=
  match marshalEvent marshal data with
  | inr err => Some (Some err, u)
  | inl e =>
      let ev := fresh (dom (hub_heap u)) in
      u ← Publish srv drop streamId ev (mkHub (mgr u) (streams u) (<[ev := e]> (hub_heap u)));
      Some (None, u)
  end.

Definition PublishDataWithEventName {P} (srv : Server) (marshal : P -> bytes + error) (drop : bool) (streamId eventName : string)
    (data : option P) (u : Hub) : option (option error * Hub) :=
  PublishDataWithMeta srv marshal drop streamId data [WithEventName eventName] u.

(** [func (s *Server) NotifyDataWithMeta], [NotifyData] (no options) and
    [NotifyDataWithEventName] *)
Definition NotifyDataWithMeta {P} (srv : Server) (marshal : P -> bytes + error) (drop : bool) (order : list string)
    (data : option P) (opts : list (Event -> Event)) (u : Hub) : option (option error * Hub) :=
  match marshalEvent marshal data with
  | inr err => Some (Some err, u)
  | inl e =>
      let ev := fresh (dom (hub_heap u)) in
      u ← Notify srv drop order ev (mkHub (mgr u) (streams u) (<[ev := apply_opts opts e]> (hub_heap u)));
      Some (None, u)
  end.

Definition NotifyData {P} (srv : Server) (marshal : P -> bytes + error) (drop : bool) (order : list string)
    (data : option P) (u : Hub) : option (option error * Hub) :=
  NotifyDataWithMeta srv marshal drop order data [] u.

Definition NotifyDataWithEventName {P} (srv : Server) (marshal : P -> bytes + error) (drop : bool) (order : list string)
    (eventName : string) (data : option P) (u : Hub) : option (option error * Hub) :=
  NotifyDataWithMeta srv marshal drop order data [WithEventName eventName] u.

(** [GetStream], [StreamCount] *)
Definition GetStream (streamId : string) (u : Hub) : option nat := Get streamId u.
Definition StreamCount (u : Hub) : Z := Count u.

(** * [http.go] *)

(** [func writeError] *)
Definition writeError (msg : string) (code : Z) : io unit :=
  HeaderMap (header_Set "Content-Type" "text/plain")
    (WriteHeader code (Write (msg ++ newline) (fun _ => Ret tt))).

(** [func (s *Server) prepareHeaderForSSE]; the extra headers in the order of
    [range]. *)
Definition prepareHeaderForSSE (srv : Server) (h : Header) : Header :=
  fold_left (fun h kv => header_Set (fst kv) (snd kv) h) (srv_headers srv)
    (header_Set "Access-Control-Allow-Headers" "Content-Type"
      (header_Set "Access-Control-Allow-Origin" (corsAllowOrigin srv)
        (header_Set "Connection" "keep-alive"
          (header_Set "Cache-Control" "no-cache"
            (header_Set "Content-Type" "text/event-stream" h))))).

Definition preflightHeader (srv : Server) (h : Header) : Header :=
  header_Set "Access-Control-Max-Age" "86400"
    (header_Set "Access-Control-Allow-Headers" "Content-Type, Authorization, X-Token, Last-Event-ID"
      (header_Set "Access-Control-Allow-Methods" "GET, OPTIONS"
        (header_Set "Access-Control-Allow-Origin" (corsAllowOrigin srv) h))).

(** The check of [authorizeFunc]: the error it refuses the request with. *)
Definition authorize (srv : Server) (r : Request) : option error :=
  match authorizeFunc srv with
  | None => None
  | Some f => f r (match tokenExtractor srv with Some e => e r | None => "" end)
  end.

Definition isForbidden (err : error) : bool := errors_Is "sse.ErrForbidden" err.

(** [func (s *Server) ServeHTTP]: [flusher] is whether the writer can flush,
    [query] the stream id of the request's query, [error_text] the text of an
    error, and [conn] what the subscriber's connection yields until it is closed.
    Counting the subscriber is the part of [addSubscriber] the handler does
    itself. *)
Definition ServeHTTP (srv : Server) (flusher : bool) (query : Request -> string) (error_text : error -> string)
    (conn : list (Time * Event)) : Handler Hub := fun r u =>
  if String.eqb (Method r) "OPTIONS" then
    serve u (HeaderMap (preflightHeader srv) (WriteHeader 204 (Ret tt)))
  else
    match authorize srv r with
    | Some err => serve u (writeError (error_text err) (if isForbidden err then 403 else 401))
    | None =>
        if negb flusher then serve u (writeError "Streaming unsupported!" 500)
        else
          HeaderMap (prepareHeaderForSSE srv)
            (if String.eqb (query r) "" then serve u (writeError "Please specify a stream!" 500)
             else
               let subscribe (p : nat) (u : Hub) :=
                 serve (on_stream (fun s => with_subscribers (subscribers s) (subscriberCount s + 1) s) p u)
                   (WriteHeader 200 (stream_events (srv_streaming srv) conn)) in
               match Get (query r) u with
               | Some p => subscribe p u
               | None =>
                   if negb (srv_autoStream srv) then serve u (writeError "Stream not found!" 500)
                   else let '(p, u) := CreateStream srv (query r) u in subscribe p u
               end)
    end.

(** * Broadcasting *)

Lemma base64_length l : length (base64_Encode l) = (4 * ((length l + 2) / 3))%nat.
Proof.
  induction l as [l IH] using (induction_ltof1 _ (@length ascii)). destruct l as [|a [|b [|c rest]]]; try done.
  cbn [base64_Encode length]. rewrite (IH rest) by (unfold ltof; simpl; lia).
  replace (S (S (S (length rest))) + 2)%nat with (length rest + 2 + 1 * 3)%nat by lia.
  rewrite Nat.div_add by lia. lia.
Qed.

Lemma base64_grows l : l <> [] -> (length l < length (base64_Encode l))%nat.
Proof.
  intros Hl. rewrite base64_length. assert (0 < length l)%nat by (destruct l; [done|simpl; lia]).
  pose proof (Nat.div_mod (length l + 2) 3). pose proof (Nat.mod_upper_bound (length l + 2) 3). lia.
Qed.

Lemma encodeBase64_data e : ev_Data (encodeBase64 e) = base64_Encode (ev_Data e).
Proof. unfold encodeBase64. by destruct (ev_Data e) eqn:E; simpl; rewrite ?E. Qed.

Lemma iter_encode_data n e : ev_Data (Nat.iter n encodeBase64 e) = Nat.iter n base64_Encode (ev_Data e).
Proof. induction n as [|n IH]; simpl; [done|]. by rewrite encodeBase64_data, IH. Qed.

Lemma iter_encode_grows n l : l <> [] -> (length l <= length (Nat.iter n base64_Encode l))%nat /\ Nat.iter n base64_Encode l <> [].
Proof.
  intros Hl. induction n as [|n [IH Hne]]; simpl; [done|]. pose proof (base64_grows _ Hne). split; [lia|].
  intros E. rewrite E in H. simpl in H. lia.
Qed.

(** Encoding again is never the same as encoding once. *)
Lemma iter_encode_ne n l : (2 <= n)%nat -> l <> [] -> Nat.iter n base64_Encode l <> base64_Encode l.
Proof.
  intros Hn Hl E. destruct n as [|[|n]]; [lia|lia|]. rewrite Nat.iter_succ in E.
  assert (Hs : Nat.iter (S n) base64_Encode l = Nat.iter n base64_Encode (base64_Encode l)) by apply Nat.iter_succ_r.
  assert (Hb : base64_Encode l <> []).
  { pose proof (base64_grows l Hl). intros E'. rewrite E' in H. simpl in H. lia. }
  destruct (iter_encode_grows n (base64_Encode l) Hb) as [Hle Hne]. rewrite <- Hs in *.
  pose proof (base64_grows _ Hne) as Hlt. rewrite E in Hlt. lia.
Qed.

(** A stream that takes an event. *)
Definition accepting (u : Hub) (p : nat) : Prop :=
  exists s, streams u !! p = Some s /\ quit s = false /\ has_room s = true.

Lemma process_heap srv ev u e :
  srv_encodeBase64 srv = true -> hub_heap u !! ev = Some e -> hub_heap (process srv ev u) !! ev = Some (encodeBase64 e).
Proof. intros Hb E. unfold process. rewrite Hb. simpl. by rewrite lookup_alter_eq, E. Qed.

Lemma process_streams srv ev u : streams (process srv ev u) = streams u.
Proof. unfold process. by destruct (srv_encodeBase64 srv). Qed.

Lemma select_send_accepting srv drop p ev u :
  accepting u p -> select_send srv drop p ev u = Some (on_stream (push ev) p (process srv ev u)).
Proof.
  intros (s & Es & Hq & Hr). unfold select_send. rewrite process_streams, Es, Hr, Hq. done.
Qed.

Lemma notify_accepting srv drop ps ev u e :
  srv_encodeBase64 srv = true -> hub_heap u !! ev = Some e -> NoDup ps -> Forall (accepting u) ps ->
  exists u', notify_all srv drop ps ev u = Some u' /\
    (forall p, streams u' !! p = if decide (p ∈ ps) then push ev <$> streams u !! p else streams u !! p) /\
    hub_heap u' !! ev = Some (Nat.iter (length ps) encodeBase64 e).
Proof.
  intros Hb. revert u e. induction ps as [|p ps IH]; intros u e He Hn Ha.
  - exists u. split; [done|]. split; [|done]. intros q. by rewrite decide_False by set_solver.
  - apply NoDup_cons in Hn as [Hp Hn]. apply Forall_cons in Ha as [Hap Ha].
    cbn [notify_all]. rewrite select_send_accepting by done. cbn [mbind option_bind].
    set (u1 := on_stream (push ev) p (process srv ev u)).
    assert (E1 : forall q, q <> p -> streams u1 !! q = streams u !! q).
    { intros q Hq. unfold u1. simpl. by rewrite lookup_alter_ne, process_streams. }
    destruct (IH u1 (encodeBase64 e)) as (u' & Eu & Hs & Hh).
    + by apply process_heap.
    + done.
    + apply Forall_forall. intros q Hq. rewrite Forall_forall in Ha. destruct (Ha q Hq) as (s & Es & H1).
      exists s. rewrite E1 by (intros ->; done). done.
    + exists u'. split; [done|]. split.
      * intros q. rewrite Hs. destruct (decide (q = p)) as [->|Hne].
        -- rewrite decide_False, decide_True by set_solver. unfold u1. simpl. by rewrite lookup_alter_eq, process_streams.
        -- rewrite E1 by done. destruct (decide (q ∈ ps)); [by rewrite decide_True by set_solver|by rewrite decide_False by set_solver].
      * rewrite Hh. cbn [length]. by rewrite Nat.iter_succ_r.
Qed.

(** With base64 encoding on, [Notify] to [n] open streams with room queues
    the one event object on each of them and encodes its data in place [n] times;
    from two streams on, what is queued when it returns is on none of them the
    base64 encoding of the data. *)
Theorem sse_notify_encodes_repeatedly srv drop order ev u e :
  let ps := omap (fun k => mgr u !! k) order in
  srv_encodeBase64 srv = true -> hub_heap u !! ev = Some e -> NoDup ps -> Forall (accepting u) ps ->
  exists u' e', Notify srv drop order ev u = Some u' /\
    (forall p s, p ∈ ps -> streams u !! p = Some s -> streams u' !! p = Some (push ev s)) /\
    hub_heap u' !! ev = Some e' /\ ev_Data e' = Nat.iter (length ps) base64_Encode (ev_Data e) /\
    ((2 <= length ps)%nat -> ev_Data e <> [] -> ev_Data e' <> base64_Encode (ev_Data e)).
Proof.
  intros ps Hb He Hn Ha. destruct (notify_accepting srv drop ps ev u e Hb He Hn Ha) as (u' & Eu & Hs & Hh).
  exists u', (Nat.iter (length ps) encodeBase64 e). split; [done|]. split; [|split; [done|]].
  - intros p s Hp Es. rewrite Hs, decide_True by done. by rewrite Es.
  - rewrite iter_encode_data. split; [done|]. apply iter_encode_ne.
Qed.

Definition plainServer : Server := mkServer 4 true false false "*" [] "stream" None None (mkStreaming 0 false).

Definition twoStreams : Hub :=
  mkHub {["a" := 0%nat; "b" := 1%nat]} {[0%nat := newStream "a" 4 false; 1%nat := newStream "b" 4 false]}
    {[9%nat := with_Data (of_string "hi") emptyEvent]}.

Lemma sse_notify_encodes_repeatedly_witness :
  exists u' e', Notify plainServer false ["a"; "b"] 9 twoStreams = Some u' /\ hub_heap u' !! 9%nat = Some e' /\
    ev_Data e' <> base64_Encode (of_string "hi").
Proof.
  destruct (sse_notify_encodes_repeatedly plainServer false ["a"; "b"] 9 twoStreams (with_Data (of_string "hi") emptyEvent))
    as (u' & e' & H1 & _ & H2 & _ & H3).
  - reflexivity.
  - reflexivity.
  - apply (bool_decide_eq_true_1 _). by vm_compute.
  - apply Forall_cons. split; [by eexists|]. apply Forall_cons. split; [by eexists|]. constructor.
  - exists u', e'. split; [done|]. split; [done|]. apply H3; [by vm_compute|done].
Defined.

(** * Subscribing *)

Lemma stream_writes cfg conn : exists b, writes (stream_events cfg conn) b.
Proof.
  induction conn as [|[now ev] conn [b IH]]; [exists []; apply writes_ret|]. cbn [stream_events].
  destruct (_ && _); [exists []; apply writes_ret|]. destruct (expired cfg now ev); [by exists b|].
  exists (wire cfg ev ++ b). apply writes_then; [apply writes_event|done].
Qed.

Lemma run_writeError u h msg code :
  200 <= code <= 599 -> exists resp, run (serve (W := Hub) u (writeError msg code)) (mkResponse h None "") = ((Returned tt, u), resp) /\
    exists h', sent resp = Some (code, h').
Proof.
  intros Hc. unfold serve, writeError. rewrite run_bind. cbn [run live sent body].
  unfold rw_WriteHeader. cbn [sent]. replace (code <=? 199) with false by lia. rewrite andb_false_r. cbn [andb live body].
  unfold rw_Write. cbn [sent]. assert (String.eqb (msg ++ newline) "" = false) as -> by (by destruct msg).
  destruct (bodyAllowedForStatus code); eexists; (split; [reflexivity|]); by eexists.
Qed.

Lemma CreateStream_Get srv id u : Get id (snd (CreateStream srv id u)) = Some (fst (CreateStream srv id u)).
Proof.
  unfold CreateStream. destruct (Get id u) eqn:E; [done|]. cbn [fst snd]. unfold mgr_Add, Exist, Get in *. cbn [mgr newStream st_id].
  rewrite bool_decide_eq_false_2 by (rewrite E; intros [? ?]; done). simpl. by rewrite lookup_insert_eq.
Qed.

Lemma run_subscribe srv conn p u h :
  exists resp, run (serve (on_stream (fun s => with_subscribers (subscribers s) (subscriberCount s + 1) s) p u)
      (WriteHeader 200 (stream_events (srv_streaming srv) conn))) (mkResponse h None "") =
    ((Returned tt, on_stream (fun s => with_subscribers (subscribers s) (subscriberCount s + 1) s) p u), resp) /\
    sent resp = Some (200, h).
Proof.
  unfold serve. rewrite run_bind. cbn [run]. unfold rw_WriteHeader. cbn [sent live body].
  change ((100 <=? 200) && (200 <=? 199) && negb (200 =? 101)) with false. cbv iota.
  destruct (stream_writes (srv_streaming srv) conn) as [b Hb].
  destruct (Hb (mkResponse h (Some (200, h)) "") h eq_refl) as [a E]. rewrite E. by eexists.
Qed.

(** The subscription handler always answers, and opens a stream to the
    client (status 200) exactly for a request that is not a preflight, passes the
    authorisation, has a writer that can flush, and names a stream that exists or
    may be created; the stream is then registered under that name and nothing
    else of the manager changes.  Every other request is answered with an error
    (204 for a preflight, 403 or 401 for one refused) and changes nothing. *)
Theorem sse_subscription srv flusher query error_text conn r u :
  let admitted := negb (String.eqb (Method r) "OPTIONS") && bool_decide (authorize srv r = None) && flusher &&
    negb (String.eqb (query r) "") && (bool_decide (is_Some (Get (query r) u)) || srv_autoStream srv) in
  exists u' resp code h,
    run (ServeHTTP srv flusher query error_text conn r u) fresh_response = ((Returned tt, u'), resp) /\
    sent resp = Some (code, h) /\
    (admitted = true -> code = 200 /\ (exists p, Get (query r) u' = Some p) /\
       forall id, id <> query r -> Get id u' = Get id u) /\
    (admitted = false -> u' = u /\
       code = if String.eqb (Method r) "OPTIONS" then 204
              else match authorize srv r with
                   | Some err => if isForbidden err then 403 else 401
                   | None => 500
                   end).
Proof.
  intros admitted. unfold ServeHTTP. destruct (String.eqb (Method r) "OPTIONS") eqn:Eo.
  { unfold admitted, serve. rewrite run_bind. cbn [run]. eexists u, _, 204, _. by repeat split. }
  destruct (authorize srv r) as [err|] eqn:Ea.
  { destruct (run_writeError u ∅ (error_text err) (if isForbidden err then 403 else 401)) as (resp & E & h' & Hs).
    { destruct (isForbidden err); lia. }
    exists u, resp, (if isForbidden err then 403 else 401), h'. by repeat split. }
  unfold admitted. rewrite bool_decide_eq_true_2 by done. cbn [negb andb]. destruct flusher; cbn [negb andb].
  2: { destruct (run_writeError u ∅ "Streaming unsupported!" 500) as (resp & E & h' & Hs); [lia|].
       exists u, resp, 500, h'. by repeat split. }
  cbn [run fresh_response live sent body]. set (h := prepareHeaderForSSE srv _).
  destruct (String.eqb (query r) "") eqn:Eq; cbn [negb andb].
  { destruct (run_writeError u h "Please specify a stream!" 500) as (resp & E & h' & Hs); [lia|].
    exists u, resp, 500, h'. by repeat split. }
  destruct (Get (query r) u) as [p|] eqn:Eg.
  { destruct (run_subscribe srv conn p u h) as (resp & E & Hs). eexists _, resp, 200, h.
    split; [exact E|]. rewrite bool_decide_eq_true_2 by eauto. split; [done|]. split; [|done]. intros _. split; [done|].
    split; [|done]. by exists p. }
  rewrite bool_decide_eq_false_2 by (intros [? ?]; done). destruct (srv_autoStream srv); cbn [negb orb].
  - pose proof (CreateStream_Get srv (query r) u) as Hg.
    assert (Ho : forall id, id <> query r -> Get id (snd (CreateStream srv (query r) u)) = Get id u).
    { intros id Hid. unfold CreateStream. rewrite Eg. cbn [snd]. unfold mgr_Add. destruct (Exist _ _); [done|].
      unfold Get. simpl. by rewrite lookup_insert_ne. }
    destruct (CreateStream srv (query r) u) as [p u1]. destruct (run_subscribe srv conn p u1 h) as (resp & E & Hs).
    eexists _, resp, 200, h. split; [exact E|]. split; [done|]. split; [|done]. intros _. split; [done|]. split; [by exists p|done].
  - destruct (run_writeError u h "Stream not found!" 500) as (resp & E & h' & Hs); [lia|].
    exists u, resp, 500, h'. by repeat split.
Qed.
