(* ===== verification/Cache.v ===== *)
(** [cache] and [cache/local]: the cache interface on top of FreeCache.

    FreeCache is third-party code: its operations are a parameter ([FreeCache]),
    with what the package documents of them as laws ([FreeCacheLaws]).  Every
    call on it is atomic (it locks a segment); the calls of one cache operation
    are not. *)
From Stdlib Require Import ZArith Lia.
From S2P Require Import Prelude Float64 GoTime GoErrors.
From stdpp Require Import base gmap strings list fin_maps.
Open Scope string_scope.
Open Scope list_scope.
Open Scope Z_scope.

(** [freecache.ErrNotFound] and [cache.ErrNotFound] *)
Definition fc_ErrNotFound : error := Sentinel "freecache.ErrNotFound" "Entry not found".
Definition ErrNotFound : error := Sentinel "cache.ErrNotFound" "cache: key not found".

(** A read also moves the store (access times, counters). *)
Class FreeCache (S : Type) := {
  fc_Get : string -> S -> (string + error) * S;
  fc_Set : string -> string -> Z -> S -> option error * S;
  fc_Del : string -> S -> S;
  fc_Clear : S -> S
}.

(** Reading leaves every entry; an entry just set is found, and one just deleted
    is not. *)
Class FreeCacheLaws S `{FreeCache S} := {
  get_get : forall k k' s, fst (fc_Get k (snd (fc_Get k' s))) = fst (fc_Get k s);
  get_set : forall k v e s, fst (fc_Set k v e s) = None -> fst (fc_Get k (snd (fc_Set k v e s))) = inl v;
  get_del : forall k s, fst (fc_Get k (fc_Del k s)) = inr fc_ErrNotFound
}.

(** [type Item struct] *)
Record Item := mkItem { item_Key : string; item_Value : string; item_TTL : Duration }.

(** [type config struct] *)
Record config := mkConfig { size_ : Z; defaultTTL : Duration }.

Definition WithSize (n : Z) : config -> config := fun c => if 0 <? n then mkConfig n (defaultTTL c) else c.
Definition WithDefaultTTL (ttl : Duration) : config -> config := fun c => mkConfig (size_ c) ttl.

Definition defaultConfig : config := mkConfig (256 * 1024 * 1024) 0.

Definition is_not_found (e : error) : bool :=
  match e with
  | Sentinel name _ => String.eqb name "freecache.ErrNotFound"
  | _ => false
  end.

Section cache.
Context {S : Type} `{FreeCache S} `{Arch} (cfg : config).

(** [expire := int(ttl.Seconds())] after the default is applied. *)
Definition expire (ttl : Duration) : Z :=
  let ttl := if ttl <=? 0 then defaultTTL cfg else ttl in
  f_to_int64 (Seconds ttl).

(** [func (c *Cache) Get] *)
Definition Get (key : string) (s : S) : (string + error) * S :=
  let '(r, s) := fc_Get key s in
  match r with
  | inr err => (inr (if is_not_found err then ErrNotFound else err), s)
  | inl val => (inl val, s)
  end.

(** [func (c *Cache) Set] *)
Definition Set_ (key value : string) (ttl : Duration) (s : S) : option error * S :=
  fc_Set key value (expire ttl) s.

(** [func (c *Cache) SetNX], its two calls: the check, which may already decide
    the result, and the write. *)
Definition SetNX_check (key : string) (s : S) : option (bool * option error) * S :=
  let '(r, s) := fc_Get key s in
  match r with
  | inl _ => (Some (false, None), s)
  | inr err => if is_not_found err then (None, s) else (Some (false, Some err), s)
  end.

Definition SetNX_set (key value : string) (ttl : Duration) (s : S) : (bool * option error) * S :=
  let '(err, s) := fc_Set key value (expire ttl) s in
  match err with
  | Some err => ((false, Some err), s)
  | None => ((true, None), s)
  end.

Definition SetNX (key value : string) (ttl : Duration) (s : S) : (bool * option error) * S :=
  let '(r, s) := SetNX_check key s in
  match r with
  | Some res => (res, s)
  | None => SetNX_set key value ttl s
  end.

(** [func (c *Cache) Delete] *)
Definition Delete (key : string) (s : S) : option error * S := (None, fc_Del key s).

(** [func (c *Cache) Has] *)
Definition Has (key : string) (s : S) : (bool * option error) * S :=
  let '(r, s) := fc_Get key s in
  match r with
  | inl _ => ((true, None), s)
  | inr err => if is_not_found err then ((false, None), s) else ((false, Some err), s)
  end.

(** [func (c *Cache) GetMulti]: the loop carries the results so far and whether
    one is missing; [None] is a nil value. *)
Fixpoint get_multi (keys : list string) (result : list (option string)) (hasMissing : bool) (s : S)
    : (list (option string) * option error) * S :=
  match keys with
  | [] => ((result, if hasMissing then Some ErrNotFound else None), s)
  | key :: keys' =>
      let '(r, s) := fc_Get key s in
      match r with
      | inl val => get_multi keys' (result ++ [Some val]) hasMissing s
      | inr err =>
          if is_not_found err then get_multi keys' (result ++ [None]) true s else (([], Some err), s)
      end
  end.
Definition GetMulti (keys : list string) : S -> (list (option string) * option error) * S := get_multi keys [] false.

(** [func (c *Cache) SetMulti] *)
Fixpoint SetMulti (items : list Item) (s : S) : option error * S :=
  match items with
  | [] => (None, s)
  | item :: items' =>
      let '(err, s) := fc_Set (item_Key item) (item_Value item) (expire (item_TTL item)) s in
      match err with
      | Some err => (Some err, s)
      | None => SetMulti items' s
      end
  end.

(** [func (c *Cache) Close] *)
Definition Close (s : S) : option error * S := (None, fc_Clear s).

(** * Properties *)

Context `{!FreeCacheLaws S}.

(** Two callers, each with its check and its write: the interleaving in which
    both check first. *)
Definition SetNX_race (key v1 v2 : string) (ttl1 ttl2 : Duration) (s : S)
    : ((bool * option error) * (bool * option error)) * S :=
  let '(r1, s) := SetNX_check key s in
  let '(r2, s) := SetNX_check key s in
  let '(res1, s) := match r1 with Some res => (res, s) | None => SetNX_set key v1 ttl1 s end in
  let '(res2, s) := match r2 with Some res => (res, s) | None => SetNX_set key v2 ttl2 s end in
  ((res1, res2), s).

Lemma SetNX_check_absent key s :
  fst (fc_Get key s) = inr fc_ErrNotFound ->
  fst (SetNX_check key s) = None /\ snd (SetNX_check key s) = snd (fc_Get key s).
Proof. unfold SetNX_check. destruct (fc_Get key s) as [r s']. simpl. intros ->. done. Qed.

Lemma SetNX_check_present key v s : fst (fc_Get key s) = inl v -> fst (SetNX_check key s) = Some (false, None) /\
  snd (SetNX_check key s) = snd (fc_Get key s).
Proof. unfold SetNX_check. destruct (fc_Get key s) as [r s']. simpl. intros ->. done. Qed.

Lemma SetNX_set_stores key v ttl s :
  fst (fc_Set key v (expire ttl) s) = None ->
  fst (SetNX_set key v ttl s) = (true, None) /\ fst (fc_Get key (snd (SetNX_set key v ttl s))) = inl v.
Proof.
  intros E. pose proof (get_set key v (expire ttl) s E) as Hg. unfold SetNX_set.
  destruct (fc_Set key v (expire ttl) s) as [r s']. simpl in *. by subst.
Qed.

(** [SetNX] on an absent key stores the value and reports it, and a call
    after it reports the key taken and leaves the value; but it is not atomic:
    two calls whose checks both come before their writes both report that they
    set the key, and the first value is lost. *)
Theorem cache_setnx key v1 v2 ttl1 ttl2 s :
  fst (fc_Get key s) = inr fc_ErrNotFound ->
  (forall v e s, fst (fc_Set key v e s) = None) ->
  (let '(res1, s1) := SetNX key v1 ttl1 s in
   let '(res2, s2) := SetNX key v2 ttl2 s1 in
   res1 = (true, None) /\ res2 = (false, None) /\ fst (Get key s2) = inl v1) /\
  (let '((res1, res2), s') := SetNX_race key v1 v2 ttl1 ttl2 s in
   res1 = (true, None) /\ res2 = (true, None) /\ fst (Get key s') = inl v2).
Proof.
  intros Ha Hset. destruct (SetNX_check_absent key s Ha) as [Hc Hcs]. split.
  - unfold SetNX at 1. destruct (SetNX_check key s) as [r s1]. simpl in Hc, Hcs. subst r.
    destruct (SetNX_set_stores key v1 ttl1 s1 (Hset _ _ _)) as [H1 H2]. destruct (SetNX_set key v1 ttl1 s1) as [res1 s2]. simpl in H1, H2.
    destruct (SetNX_check_present key v1 s2 H2) as [H3 H4]. unfold SetNX. destruct (SetNX_check key s2) as [r s3]. simpl in H3, H4. subst.
    repeat split. unfold Get. rewrite <- (get_get key key) in H2. by destruct (fc_Get key (snd (fc_Get key s2))) as [r s']; simpl in H2; subst.
  - unfold SetNX_race. destruct (SetNX_check key s) as [r s1]. simpl in Hc, Hcs. subst r s1.
    rewrite <- (get_get key key) in Ha. destruct (SetNX_check_absent key _ Ha) as [Hc2 Hcs2].
    destruct (SetNX_check key (snd (fc_Get key s))) as [r s2]. simpl in Hc2. subst r.
    destruct (SetNX_set_stores key v1 ttl1 s2 (Hset _ _ _)) as [H1 _]. destruct (SetNX_set key v1 ttl1 s2) as [res1 s3]. simpl in H1.
    destruct (SetNX_set_stores key v2 ttl2 s3 (Hset _ _ _)) as [H2 H3]. destruct (SetNX_set key v2 ttl2 s3) as [res2 s4]. simpl in H2, H3.
    subst. repeat split. unfold Get. by destruct (fc_Get key s4) as [r s']; simpl in H3; subst.
Qed.

(** [GetMulti] on keys without other errors: one value per key, and [ErrNotFound]
    exactly when one is missing. *)
Definition lookup_or_nil (key : string) (s : S) : option string :=
  match fst (fc_Get key s) with inl v => Some v | inr _ => None end.
Definition is_missing (key : string) (s : S) : bool :=
  match fst (fc_Get key s) with inl _ => false | inr _ => true end.

Lemma get_multi_spec keys acc missing s :
  Forall (fun k => forall e, fst (fc_Get k s) = inr e -> e = fc_ErrNotFound) keys ->
  fst (get_multi keys acc missing s) =
    (acc ++ map (fun k => lookup_or_nil k s) keys,
     if missing || existsb (fun k => is_missing k s) keys then Some ErrNotFound else None).
Proof.
  intros Hf. revert acc missing s Hf. induction keys as [|k keys IH]; intros acc missing s Hf; simpl.
  - by rewrite app_nil_r, orb_false_r.
  - apply Forall_cons in Hf as [Hk Hf]. pose proof (fun k' => get_get k' k s) as Hgg.
    assert (Hf1 : Forall (fun k' => forall e, fst (fc_Get k' (snd (fc_Get k s))) = inr e -> e = fc_ErrNotFound) keys).
    { eapply List.Forall_impl; [|exact Hf]. intros k' H' e. rewrite Hgg. apply H'. }
    assert (Hm : map (fun k' => lookup_or_nil k' (snd (fc_Get k s))) keys = map (fun k' => lookup_or_nil k' s) keys).
    { apply map_ext. intros k'. unfold lookup_or_nil. by rewrite Hgg. }
    assert (He : existsb (fun k' => is_missing k' (snd (fc_Get k s))) keys = existsb (fun k' => is_missing k' s) keys).
    { clear -Hgg. unfold is_missing. induction keys as [|k' keys IH]; simpl; [done|]. by rewrite Hgg, IH. }
    unfold lookup_or_nil at 1, is_missing at 1. destruct (fc_Get k s) as [[v|e] s1]; simpl in *.
    + rewrite IH, Hm, He by done. by rewrite <- app_assoc.
    + rewrite (Hk e) by done. simpl. rewrite IH, Hm, He by done. by rewrite <- app_assoc, orb_true_r.
Qed.
End cache.

(** A store that never expires or evicts. *)
#[local] Instance map_cache : FreeCache (gmap string string) := {|
  fc_Get := fun k s => (match s !! k with Some v => inl v | None => inr fc_ErrNotFound end, s);
  fc_Set := fun k v _ s => (None, <[k := v]> s);
  fc_Del := fun k s => delete k s;
  fc_Clear := fun _ => ∅
|}.

#[local] Instance map_cache_laws : FreeCacheLaws (gmap string string).
Proof.
  split; intros; simpl in *; [done|by rewrite lookup_insert_eq|by rewrite lookup_delete_eq].
Qed.

#[local] Existing Instance amd64.

Lemma cache_setnx_witness :
  fst (SetNX_race defaultConfig "lock" "a" "b" Second Second (∅ : gmap string string)) = ((true, None), (true, None)).
Proof.
  pose proof (cache_setnx defaultConfig "lock" "a" "b" Second Second (∅ : gmap string string) eq_refl (fun _ _ _ => eq_refl)) as [_ Hr].
  destruct (SetNX_race defaultConfig "lock" "a" "b" Second Second (∅ : gmap string string)) as [[r1 r2] s].
  destruct Hr as (-> & -> & _). reflexivity.
Defined.

(** A lifetime below a second is stored as no expiry. *)
Example sub_second_never_expires :
  map (expire defaultConfig) [Millisecond; 500 * Millisecond; 999 * Millisecond] = [0; 0; 0].
Proof. by vm_compute. Qed.
