(* ===== verification/Broker.v ===== *)
(** [broker], the core the drivers share: [message.go] and [subscriber.go].

    A message's maps may be nil ([None]).  Dynamic values ([any]) are strings or
    values of a type [A] whose [%v] text is a parameter; context keys are what
    [formatKey] distinguishes.  [Unsubscribe] of a subscriber is a call on code
    outside the map: its error is a parameter, and the calls are recorded. *)
From Stdlib Require Import ZArith Lia.
From S2P Require Import Prelude GoTime GoErrors.
From stdpp Require Import base gmap strings list fin_maps.
Open Scope string_scope.
Open Scope list_scope.
Open Scope Z_scope.

(** * [message.go] *)

(** A context key: nil, a string, a [fmt.Stringer] (by its type, identity and
    [String()] text), a value whose type is a struct or a pointer (by the name of
    the type and its identity), or another value (by its type and [%v] text). *)
Inductive ctxKey :=
| KNil
| KString (s : string)
| KStringer (t : string) (v : Z) (text : string)
| KTyped (t : string) (v : Z)
| KOther (t : string) (text : string).

#[export] Instance broker_ctxKey_eq_dec : EqDecision ctxKey.
Proof. solve_decision. Defined.

(** [func formatKey(key any) string] *)
Definition formatKey (key : ctxKey) : string :=
  match key with
  | KNil => ""
  | KString s => s
  | KStringer _ _ text => text
  | KTyped t _ => t
  | KOther _ text => text
  end.

Abbreviation Headers := (gmap string string).

Section message.
Context {A : Type} (fmt_v : A -> string).

(** A non-nil dynamic value. *)
Inductive any := AString (s : string) | AValue (a : A).

(** [fmt.Sprintf("%v", val)] *)
Definition Sprint (v : any) : string :=
  match v with
  | AString s => s
  | AValue a => fmt_v a
  end.

Abbreviation Metadata := (gmap string any).

(** [type Message struct]; [Msg] is nil or the raw message. *)
Record Message := mkMessage {
  ID : string;
  msg_Headers : option Headers;
  Body : option any;
  Key : string;
  msg_Metadata : option Metadata;
  Partition : Z;
  Offset : Z;
  Msg : option any
}.

Definition set_Headers (h : option Headers) (m : Message) : Message :=
  mkMessage (ID m) h (Body m) (Key m) (msg_Metadata m) (Partition m) (Offset m) (Msg m).
Definition set_Metadata (md : option Metadata) (m : Message) : Message :=
  mkMessage (ID m) (msg_Headers m) (Body m) (Key m) md (Partition m) (Offset m) (Msg m).

(** [func (m *Message) SetHeader(key, value string)] *)
Definition SetHeader (key value : string) (m : Message) : Message :=
  set_Headers (Some (<[key := value]> (default ∅ (msg_Headers m)))) m.

(** [func (m *Message) GetHeader(key string) string] *)
Definition GetHeader (key : string) (m : Message) : string :=
  match msg_Headers m with
  | None => ""
  | Some h => default "" (h !! key)
  end.

(** [func (m *Message) HeadersCopy() Headers] *)
Definition HeadersCopy (m : Message) : option Headers :=
  match msg_Headers m with
  | None => None
  | Some h => Some (map_fold (fun k v cp => <[k := v]> cp) ∅ h)
  end.

(** [func (m *Message) MergeHeaders(hdrs Headers)] *)
Definition MergeHeaders (hdrs : option Headers) (m : Message) : Message :=
  match hdrs with
  | None => m
  | Some h => map_fold (fun k v m => SetHeader k v m) m h
  end.

(** [func (m *Message) SetMetadata(key string, value any)] *)
Definition SetMetadata (key : string) (value : any) (m : Message) : Message :=
  set_Metadata (Some (<[key := value]> (default ∅ (msg_Metadata m)))) m.

(** [func (m *Message) MetadataCopy() Metadata] *)
Definition MetadataCopy (m : Message) : option Metadata :=
  match msg_Metadata m with
  | None => None
  | Some md => Some (map_fold (fun k v cp => <[k := v]> cp) ∅ md)
  end.

(** [func (m *Message) GetMetadata(key string) any] *)
Definition GetMetadata (key : string) (m : Message) : option any :=
  match msg_Metadata m with
  | None => None
  | Some md => md !! key
  end.

(** [WithBody], [WithKey], [SetDelay] *)
Definition WithBody (body : option any) (m : Message) : Message :=
  mkMessage (ID m) (msg_Headers m) body (Key m) (msg_Metadata m) (Partition m) (Offset m) (Msg m).
Definition WithKey (key : string) (m : Message) : Message :=
  mkMessage (ID m) (msg_Headers m) (Body m) key (msg_Metadata m) (Partition m) (Offset m) (Msg m).
Definition SetDelay (level : string) (m : Message) : Message := SetMetadata "x-delay-level" (AString level) m.

(** [func (m *Message) Clone() *Message] *)
Definition Clone (m : Message) : Message :=
  mkMessage (ID m) (HeadersCopy m) (Body m) (Key m) (MetadataCopy m) (Partition m) (Offset m) (Msg m).

(** [context.Context], innermost value first. *)
Definition Context := list (ctxKey * any).

Fixpoint ctx_Value (ctx : Context) (key : ctxKey) : option any :=
  match ctx with
  | [] => None
  | (k, v) :: ctx' => if decide (k = key) then Some v else ctx_Value ctx' key
  end.

Definition WithValue (ctx : Context) (key : ctxKey) (v : any) : Context := (key, v) :: ctx.

(** [func (m *Message) InjectContext(ctx context.Context, keys ...any) *Message] *)
Fixpoint InjectContext (ctx : Context) (keys : list ctxKey) (m : Message) : Message :=
  match keys with
  | [] => m
  | key :: keys' =>
      InjectContext ctx keys'
        (match ctx_Value ctx key with
         | Some val => SetHeader (formatKey key) (Sprint val) m
         | None => m
         end)
  end.

(** [func (m *Message) ExtractToContext(baseCtx, keyMapping) context.Context],
    the mapping in the order of [range]. *)
Fixpoint ExtractToContext (ctx : Context) (keyMapping : list (string * ctxKey)) (m : Message) : Context :=
  match keyMapping with
  | [] => ctx
  | (hKey, cKey) :: rest =>
      ExtractToContext
        (if String.eqb (GetHeader hKey m) "" then ctx else WithValue ctx cKey (AString (GetHeader hKey m))) rest m
  end.

(** [type MessageOption func( *Message)] and its constructors. *)
Definition WithID (id : string) : Message -> Message := fun m =>
  mkMessage id (msg_Headers m) (Body m) (Key m) (msg_Metadata m) (Partition m) (Offset m) (Msg m).
Definition WithMsg (msg : option any) : Message -> Message := fun m =>
  mkMessage (ID m) (msg_Headers m) (Body m) (Key m) (msg_Metadata m) (Partition m) (Offset m) msg.
Definition WithPartitionOffset (partition offset : Z) : Message -> Message := fun m =>
  mkMessage (ID m) (msg_Headers m) (Body m) (Key m) (msg_Metadata m) partition offset (Msg m).
Definition WithHeaders (h : option Headers) : Message -> Message := fun m =>
  match h with
  | None => m
  | Some h => set_Headers (Some (map_fold (fun k v acc => <[k := v]> acc) (default ∅ (msg_Headers m)) h)) m
  end.
Definition WithMetadata (md : option Metadata) : Message -> Message := fun m =>
  match md with
  | None => m
  | Some md => set_Metadata (Some (map_fold (fun k v acc => <[k := v]> acc) (default ∅ (msg_Metadata m)) md)) m
  end.

(** [func NewMessage(body any, opts ...MessageOption) *Message]; nil options are
    skipped. *)
Definition NewMessage (body : option any) (opts : list (option (Message -> Message))) : Message :=
  apply_opts (omap id opts) (mkMessage "" (Some ∅) body "" (Some ∅) (-1) (-1) None).

(** [func NewMessageWithContext] *)
Definition NewMessageWithContext (ctx : Context) (body : option any) (keys : list ctxKey) : Message :=
  InjectContext ctx keys (NewMessage body []).

(** ** Lemmas *)

Lemma fold_insert_union {V} (acc h : gmap string V) : map_fold (fun k v m => <[k := v]> m) acc h = h ∪ acc.
Proof.
  revert acc. induction h as [|k v h Hk Hfst IH] using map_first_key_ind; intros acc.
  - by rewrite map_fold_empty, (left_id_L ∅ (∪)).
  - rewrite map_fold_insert_first_key by done. rewrite IH. by rewrite insert_union_l.
Qed.

(** A clone is equal to its original, whatever its maps. *)
Lemma Clone_id m : Clone m = m.
Proof.
  destruct m as [i h b k md p o x]. unfold Clone, HeadersCopy, MetadataCopy. simpl.
  f_equal; [destruct h as [h|]|destruct md as [md|]]; try done; by rewrite fold_insert_union, (right_id_L ∅ (∪)).
Qed.

Lemma GetHeader_SetHeader k v k' m : GetHeader k' (SetHeader k v m) = if decide (k = k') then v else GetHeader k' m.
Proof.
  unfold GetHeader, SetHeader. simpl. destruct (decide (k = k')) as [->|Hne].
  - by rewrite lookup_insert_eq.
  - rewrite lookup_insert_ne by done. destruct (msg_Headers m); simpl; [done|]. by rewrite lookup_empty.
Qed.

(** The header a key leaves, or what was there. *)
Definition header_of (ctx : Context) (key : ctxKey) (old : string) : string :=
  match ctx_Value ctx key with Some v => Sprint v | None => old end.

Lemma InjectContext_other ctx keys k m :
  k ∉ map formatKey keys -> GetHeader k (InjectContext ctx keys m) = GetHeader k m.
Proof.
  revert m. induction keys as [|key keys IH]; intros m Hk; [done|]. simpl in Hk.
  apply not_elem_of_cons in Hk as [Hne Hk]. simpl. rewrite IH by done. destruct (ctx_Value ctx key); [|done].
  rewrite GetHeader_SetHeader, decide_False by congruence. done.
Qed.

Lemma InjectContext_header ctx keys key m :
  NoDup (map formatKey keys) -> key ∈ keys ->
  GetHeader (formatKey key) (InjectContext ctx keys m) = header_of ctx key (GetHeader (formatKey key) m).
Proof.
  revert m. induction keys as [|k keys IH]; intros m Hn Hk; [by apply not_elem_of_nil in Hk|].
  simpl in Hn. apply NoDup_cons in Hn as [Hno Hn]. simpl. apply elem_of_cons in Hk as [->|Hk].
  - rewrite InjectContext_other by done. unfold header_of. destruct (ctx_Value ctx k); [|done].
    by rewrite GetHeader_SetHeader, decide_True.
  - rewrite IH by done. assert (formatKey k <> formatKey key).
    { intros E. apply Hno. rewrite E. by apply list_elem_of_fmap_2. }
    destruct (ctx_Value ctx k); [|done]. by rewrite GetHeader_SetHeader, decide_False.
Qed.

Lemma ExtractToContext_value base km m key h :
  NoDup (map snd km) -> (h, key) ∈ km ->
  ctx_Value (ExtractToContext base km m) key =
    if String.eqb (GetHeader h m) "" then ctx_Value base key else Some (AString (GetHeader h m)).
Proof.
  assert (Hother : forall km base key, key ∉ map snd km -> ctx_Value (ExtractToContext base km m) key = ctx_Value base key).
  { clear. induction km as [|[h k] km IH]; intros base key Hk; [done|]. simpl in Hk. apply not_elem_of_cons in Hk as [Hne Hk].
    simpl. rewrite IH by done. destruct (String.eqb (GetHeader h m) ""); [done|]. simpl. by rewrite decide_False. }
  revert base. induction km as [|[h' k] km IH]; intros base Hn Hin; [by apply not_elem_of_nil in Hin|].
  simpl in Hn. apply NoDup_cons in Hn as [Hno Hn]. simpl. apply elem_of_cons in Hin as [[= -> ->]|Hin].
  - rewrite Hother by done. destruct (String.eqb (GetHeader h' m) ""); [done|]. simpl. by rewrite decide_True.
  - rewrite IH by done. assert (k <> key).
    { intros ->. apply Hno. by apply (list_elem_of_fmap_2 snd km (h, key)). }
    destruct (String.eqb (GetHeader h' m) ""), (String.eqb (GetHeader h m) ""); try done. simpl. by rewrite decide_False.
Qed.

(** Context values travel with a message: a message built from a context for
    some keys, and unpacked on the other side with the mapping of their header
    names, gives each key the text of the value it had (a key without a value,
    or with an empty text, keeps what the receiving context had), provided the
    keys have different header names. *)
Theorem broker_context_round_trip ctx base body keys key :
  NoDup (map formatKey keys) -> key ∈ keys ->
  let m := NewMessageWithContext ctx body keys in
  let received := ExtractToContext base (map (fun k => (formatKey k, k)) keys) (Clone m) in
  ctx_Value received key =
    match ctx_Value ctx key with
    | Some v => if String.eqb (Sprint v) "" then ctx_Value base key else Some (AString (Sprint v))
    | None => ctx_Value base key
    end.
Proof.
  intros Hn Hk m received. unfold received. rewrite Clone_id.
  rewrite (ExtractToContext_value _ _ _ key (formatKey key)).
  - unfold m, NewMessageWithContext. rewrite InjectContext_header by done. unfold header_of.
    destruct (ctx_Value ctx key) as [v|]; done.
  - rewrite map_map. simpl. rewrite map_id. by apply (NoDup_fmap_1 formatKey).
  - by apply (list_elem_of_fmap_2 (fun k => (formatKey k, k))).
Qed.
End message.

Lemma broker_context_round_trip_witness :
  let ctx := [(KString "trace-id", AString "abc"); (KTyped "auth.userKey" 0, AValue 7)] in
  ctx_Value (ExtractToContext [] [("trace-id", KString "trace-id"); ("auth.userKey", KTyped "auth.userKey" 0)]
    (Clone (NewMessageWithContext (fun _ : Z => "7") ctx None [KString "trace-id"; KTyped "auth.userKey" 0]))) (KTyped "auth.userKey" 0)
  = Some (AString "7").
Proof.
  intros ctx.
  etrans; [apply (broker_context_round_trip (fun _ : Z => "7") ctx [] None [KString "trace-id"; KTyped "auth.userKey" 0]
             (KTyped "auth.userKey" 0))|reflexivity]; apply (bool_decide_eq_true_1 _); by vm_compute.
Defined.

(** * [subscriber.go] *)

Section subscribers.
(** The error [Unsubscribe] of a subscriber returns; for the operations with a
    timeout, [None] when it does not return in time.  [not_found] and [timed_out]
    are the formatted errors. *)
Context (unsubscribe : nat -> option error) (in_time : nat -> bool).
Context (not_found timed_out : string -> error).

(** [type SubscriberSyncMap struct]: the map of subscribers (pointers), the calls
    of [Unsubscribe] made so far with their argument, and, for the statements,
    the subscribers that left the map without one. *)
Record SubscriberSyncMap := mkSyncMap {
  sm_m : gmap string nat;
  calls : list (nat * bool);
  dropped : list nat
}.

Definition NewSubscriberSyncMap : SubscriberSyncMap := mkSyncMap ∅ [] [].

(** [Topics], [Len], [Get], [GetAll], [Has], [Foreach] (its calls, in order) *)
Definition Topics (sm : SubscriberSyncMap) : list string := map fst (map_to_list (sm_m sm)).
Definition Len (sm : SubscriberSyncMap) : Z := Z.of_nat (size (sm_m sm)).
Definition Get (topic : string) (sm : SubscriberSyncMap) : option nat := sm_m sm !! topic.
Definition GetAll (sm : SubscriberSyncMap) : gmap string nat := map_fold (fun k v cp => <[k := v]> cp) ∅ (sm_m sm).
Definition Has (topic : string) (sm : SubscriberSyncMap) : bool := bool_decide (is_Some (sm_m sm !! topic)).
Definition Foreach (sm : SubscriberSyncMap) : list (string * nat) := map_to_list (sm_m sm).

(** [func (sm *SubscriberSyncMap) Add(topic string, sub Subscriber)] *)
Definition Add (topic : string) (sub : nat) (sm : SubscriberSyncMap) : SubscriberSyncMap :=
  mkSyncMap (<[topic := sub]> (sm_m sm)) (calls sm) (dropped sm ++ option_list (sm_m sm !! topic)).

(** [func (sm *SubscriberSyncMap) Remove(topic string) error] *)
Definition Remove (topic : string) (sm : SubscriberSyncMap) : option error * SubscriberSyncMap :=
  match sm_m sm !! topic with
  | None => (Some (not_found topic), sm)
  | Some sub => (unsubscribe sub, mkSyncMap (delete topic (sm_m sm)) (calls sm ++ [(sub, true)]) (dropped sm))
  end.

(** [func (sm *SubscriberSyncMap) RemoveOnly(topic string) bool] *)
Definition RemoveOnly (topic : string) (sm : SubscriberSyncMap) : bool * SubscriberSyncMap :=
  match sm_m sm !! topic with
  | None => (false, sm)
  | Some sub => (true, mkSyncMap (delete topic (sm_m sm)) (calls sm) (dropped sm ++ [sub]))
  end.

(** [func (sm *SubscriberSyncMap) Clear()] *)
Definition Clear (sm : SubscriberSyncMap) : SubscriberSyncMap :=
  mkSyncMap ∅ (calls sm ++ map (fun kv => (snd kv, false)) (map_to_list (sm_m sm))) (dropped sm).

(** [func (sm *SubscriberSyncMap) ForceClear()] *)
Definition ForceClear (sm : SubscriberSyncMap) : SubscriberSyncMap :=
  mkSyncMap ∅ (calls sm) (dropped sm ++ map snd (map_to_list (sm_m sm))).

(** [func (sm *SubscriberSyncMap) RemoveWithTimeout] *)
Definition RemoveWithTimeout (topic : string) (sm : SubscriberSyncMap) : option error * SubscriberSyncMap :=
  match sm_m sm !! topic with
  | None => (Some (not_found topic), sm)
  | Some sub =>
      (if in_time sub then unsubscribe sub else Some (timed_out topic),
       mkSyncMap (delete topic (sm_m sm)) (calls sm ++ [(sub, true)]) (dropped sm))
  end.

(** [func (sm *SubscriberSyncMap) ClearWithTimeout]: the topics that did not
    finish in time. *)
Definition ClearWithTimeout (sm : SubscriberSyncMap) : list string * SubscriberSyncMap :=
  (map fst (filter (fun kv => in_time (snd kv) = false) (map_to_list (sm_m sm))), Clear sm).

(** The operations that change the map. *)
Inductive op :=
| OpAdd (topic : string) (sub : nat)
| OpRemove (topic : string)
| OpRemoveOnly (topic : string)
| OpClear
| OpForceClear
| OpRemoveWithTimeout (topic : string)
| OpClearWithTimeout.

Definition apply_op (o : op) (sm : SubscriberSyncMap) : SubscriberSyncMap :=
  match o with
  | OpAdd topic sub => Add topic sub sm
  | OpRemove topic => snd (Remove topic sm)
  | OpRemoveOnly topic => snd (RemoveOnly topic sm)
  | OpClear => Clear sm
  | OpForceClear => ForceClear sm
  | OpRemoveWithTimeout topic => snd (RemoveWithTimeout topic sm)
  | OpClearWithTimeout => snd (ClearWithTimeout sm)
  end.

Definition run_ops (ops : list op) (sm : SubscriberSyncMap) : SubscriberSyncMap := fold_left (fun sm o => apply_op o sm) ops sm.

Definition added (ops : list op) : list nat :=
  omap (fun o => match o with OpAdd _ sub => Some sub | _ => None end) ops.

(** Where the subscribers of the history are. *)
Definition accounted (sm : SubscriberSyncMap) : list nat :=
  map snd (map_to_list (sm_m sm)) ++ map fst (calls sm) ++ dropped sm.

Lemma values_delete (m : gmap string nat) k v :
  m !! k = Some v -> map snd (map_to_list m) ≡ₚ v :: map snd (map_to_list (delete k m)).
Proof. intros E. by rewrite <- (map_to_list_delete m k v E). Qed.

Lemma values_insert (m : gmap string nat) k v :
  option_list (m !! k) ++ map snd (map_to_list (<[k := v]> m)) ≡ₚ v :: map snd (map_to_list m).
Proof.
  rewrite (values_delete (<[k := v]> m) k v) by apply lookup_insert_eq. rewrite delete_insert_eq.
  destruct (m !! k) as [v'|] eqn:E; simpl.
  - rewrite (values_delete m k v' E). apply perm_swap.
  - by rewrite delete_id.
Qed.

Lemma apply_op_accounted o sm : accounted (apply_op o sm) ≡ₚ added [o] ++ accounted sm.
Proof.
  destruct o as [topic sub|topic|topic| | |topic|]; unfold accounted; simpl.
  - etrans; [|exact (Permutation_app_tail (map fst (calls sm) ++ dropped sm) (values_insert (sm_m sm) topic sub))].
    rewrite !app_assoc. etrans; [apply Permutation_app_comm|]. by rewrite !app_assoc.
  - unfold Remove. destruct (sm_m sm !! topic) as [sub|] eqn:E; simpl; [|done].
    rewrite (values_delete _ _ _ E), map_app. simpl. rewrite <- !app_assoc. simpl. rewrite !app_assoc. symmetry. apply Permutation_middle.
  - unfold RemoveOnly. destruct (sm_m sm !! topic) as [sub|] eqn:E; simpl; [|done].
    rewrite (values_delete _ _ _ E). simpl. rewrite !app_assoc. symmetry. apply Permutation_cons_append.
  - rewrite map_to_list_empty, map_app, map_map. simpl. rewrite <- !app_assoc.
    rewrite (app_assoc _ (map fst (calls sm))), (Permutation_app_comm _ (map fst (calls sm))). by rewrite <- app_assoc.
  - rewrite map_to_list_empty. simpl. rewrite app_assoc, (Permutation_app_comm (_ ++ dropped sm)). by rewrite app_assoc.
  - unfold RemoveWithTimeout. destruct (sm_m sm !! topic) as [sub|] eqn:E; simpl; [|done].
    rewrite (values_delete _ _ _ E), map_app. simpl. rewrite <- !app_assoc. simpl. rewrite !app_assoc. symmetry. apply Permutation_middle.
  - rewrite map_to_list_empty, map_app, map_map. simpl. rewrite <- !app_assoc.
    rewrite (app_assoc _ (map fst (calls sm))), (Permutation_app_comm _ (map fst (calls sm))). by rewrite <- app_assoc.
Qed.

Lemma run_ops_accounted ops sm : accounted (run_ops ops sm) ≡ₚ added ops ++ accounted sm.
Proof.
  revert sm. induction ops as [|o ops IH]; intros sm; [done|]. change (run_ops (o :: ops) sm) with (run_ops ops (apply_op o sm)).
  rewrite IH, apply_op_accounted.
  unfold added. simpl. destruct o; simpl; try done. symmetry. apply Permutation_middle.
Qed.

(** Operations that never drop a subscriber silently. *)
Fixpoint careful (ops : list op) (sm : SubscriberSyncMap) : Prop :=
  match ops with
  | [] => True
  | o :: ops' =>
      match o with
      | OpAdd topic _ => sm_m sm !! topic = None
      | OpRemoveOnly _ | OpForceClear => False
      | _ => True
      end /\ careful ops' (apply_op o sm)
  end.

Lemma careful_dropped ops sm : careful ops sm -> dropped (run_ops ops sm) = dropped sm.
Proof.
  revert sm. induction ops as [|o ops IH]; intros sm; [done|]. intros [Ho Hc].
  change (run_ops (o :: ops) sm) with (run_ops ops (apply_op o sm)). rewrite IH by done.
  destruct o; simpl; try done; unfold Remove, RemoveWithTimeout.
  - rewrite Ho. simpl. by rewrite app_nil_r.
  - by destruct (sm_m sm !! topic).
  - by destruct (sm_m sm !! topic).
Qed.

(** No subscription is lost or ended twice: after any operations on a map of
    subscribers, the subscribers added are, as many times each, those still in
    the map, those [Unsubscribe] was called on, and those that left without it
    ([RemoveOnly], [ForceClear], and a subscriber replaced by [Add] on a topic in
    use).  When none of the latter happen and the map is cleared at the end,
    [Unsubscribe] was called exactly once per subscriber added. *)
Theorem broker_subscribers_accounted ops :
  let sm := run_ops ops NewSubscriberSyncMap in
  added ops ≡ₚ map snd (map_to_list (sm_m sm)) ++ map fst (calls sm) ++ dropped sm /\
  (careful ops NewSubscriberSyncMap ->
     map fst (calls (Clear sm)) ≡ₚ added ops /\ sm_m (Clear sm) = ∅).
Proof.
  intros sm. pose proof (run_ops_accounted ops NewSubscriberSyncMap) as Ha. fold sm in Ha.
  unfold accounted in Ha. simpl in Ha. rewrite map_to_list_empty, app_nil_r in Ha. split; [done|].
  intros Hc. split; [|done]. rewrite <- Ha. apply careful_dropped in Hc. fold sm in Hc. rewrite Hc. simpl.
  rewrite app_nil_r, map_app, map_map. simpl. apply Permutation_app_comm.
Qed.
End subscribers.
