(* ===== verification/Encoding.v ===== *)
(** [encoding/encoding.go]: the codec contract and the global, case-insensitive
    registry of codecs. *)
From Stdlib Require Import ZArith Lia Ascii.
From S2P Require Import Prelude GoErrors Http NetPacket.
From stdpp Require Import base gmap strings list fin_maps.
Open Scope string_scope.
Open Scope list_scope.

(** [strings.ToLower], on the ASCII names the registry holds. *)
Fixpoint ToLower (s : string) : string :=
  match s with
  | EmptyString => EmptyString
  | String c s' => String (lower_char c) (ToLower s')
  end.

Section registry.
(** The Go values the codecs encode, and decode into. *)
Context {V : Type}.

(** [type Codec interface]; [Unmarshal] writes through its pointer argument. *)
Record Codec := mkCodec {
  codec_Marshal : V -> bytes + error;
  codec_Unmarshal : bytes -> V -> option error * V;
  codec_Name : string
}.

(** [var codecs = map[string]Codec{}] *)
Abbreviation codecs := (gmap string Codec).

(** [func RegisterCodec(c Codec)] *)
Definition RegisterCodec (c : option Codec) : Go codecs unit :=
  match c with
  | None => go_panic
  | Some c =>
      let name := ToLower (codec_Name c) in
      if String.eqb name "" then go_panic else go_modify <[name := c]>
  end.

(** [func GetCodec(name string) Codec] *)
Definition GetCodec (name : string) (cs : codecs) : option Codec :=
  if String.eqb name "" then None else cs !! ToLower name.

(** A program of registrations, as the [init] functions of the codec packages
    make them; it stops at the first panic. *)
Fixpoint register_all (l : list (option Codec)) : Go codecs unit :=
  match l with
  | [] => mret tt
  | c :: l' => RegisterCodec c ;; register_all l'
  end.
End registry.
Arguments Codec : clear implicits.
Abbreviation codecs V := (gmap string (Codec V)).

(** * Properties *)

Lemma lower_char_idemp c : lower_char (lower_char c) = lower_char c.
Proof. destruct c as [[] [] [] [] [] [] [] []]; reflexivity. Qed.

Lemma ToLower_idemp s : ToLower (ToLower s) = ToLower s.
Proof. induction s as [|c s IH]; simpl; [done|]. by rewrite lower_char_idemp, IH. Qed.

Lemma ToLower_empty s : ToLower s = "" <-> s = "".
Proof. by destruct s. Qed.

#[export] Hint Rewrite lower_char_idemp ToLower_idemp : lulu.

Section registry_facts.
Context {V : Type}.
Implicit Types (cs : codecs V) (c : Codec V).

(** Every codec is under the lower-cased form of its own, non-empty, name. *)
Definition registry_ok cs : Prop :=
  map_Forall (fun name c => name = ToLower (codec_Name c) /\ name <> "") cs.

Lemma RegisterCodec_ok oc cs : registry_ok cs -> registry_ok (snd (RegisterCodec oc cs)).
Proof.
  intros H. destruct oc as [c|]; [|done]. unfold RegisterCodec. destruct (String.eqb_spec (ToLower (codec_Name c)) "").
  - done.
  - simpl. intros ? ?. rewrite lookup_insert_Some. intros [[<- <-]|[_ ?]]; [done|by apply H].
Qed.

Lemma register_all_ok l cs : registry_ok cs -> registry_ok (snd (register_all l cs)).
Proof.
  revert cs. induction l as [|oc l IH]; intros cs H; [done|]. cbn [register_all].
  apply (go_bind_inv registry_ok); auto using RegisterCodec_ok.
Qed.

(** A registered codec is found under every spelling of its name. *)
Lemma GetCodec_RegisterCodec c cs name :
  codec_Name c <> "" ->
  GetCodec name (snd (RegisterCodec (Some c) cs)) =
    if String.eqb (ToLower name) (ToLower (codec_Name c)) then Some c else GetCodec name cs.
Proof.
  intros Hn. unfold RegisterCodec, GetCodec.
  destruct (String.eqb_spec (ToLower (codec_Name c)) "") as [E|_]; [by destruct Hn; apply ToLower_empty|].
  cbn [snd go_modify].
  destruct (String.eqb_spec name "") as [->|Hne].
  - destruct (codec_Name c); [done|reflexivity].
  - destruct (String.eqb_spec (ToLower name) (ToLower (codec_Name c))) as [->|Hd].
    + by rewrite lookup_insert_eq.
    + by rewrite lookup_insert_ne.
Qed.

(** What [GetCodec] finds bears the name asked for, up to case. *)
Lemma GetCodec_name cs name c :
  registry_ok cs -> GetCodec name cs = Some c -> ToLower (codec_Name c) = ToLower name.
Proof.
  unfold GetCodec. intros Hok. destruct (String.eqb name ""); [done|]. intros H. by destruct (Hok _ _ H).
Qed.

(** Registering any list of codecs with non-empty names does not panic;
    afterwards a lookup returns the codec registered last under that name up to
    letter case, and nil exactly when there is none; every codec sits under the
    lower-cased form of its own name. *)
Theorem encoding_registry (l : list (Codec V)) name :
  Forall (fun c => codec_Name c <> "") l ->
  let '(r, cs) := register_all (map Some l) ∅ in
  r = Returned tt /\ registry_ok cs /\
  GetCodec name cs = last (filter (fun c => ToLower (codec_Name c) = ToLower name) l).
Proof.
  intros Hl. cut (forall cs0, registry_ok cs0 ->
    let '(r, cs) := register_all (map Some l) cs0 in
    r = Returned tt /\ registry_ok cs /\ GetCodec name cs =
      match last (filter (fun c => ToLower (codec_Name c) = ToLower name) l) with
      | Some c => Some c | None => GetCodec name cs0 end).
  { intros H. specialize (H ∅ ltac:(by intros ? ? ?%lookup_empty_Some)). destruct (register_all _ _) as [r cs].
    destruct H as (?&?&->). split; [done|split; [done|]]. destruct (last _); [done|].
    unfold GetCodec. by destruct (String.eqb name ""). }
  induction Hl as [|c l Hc Hl IH]; intros cs0 H0; [done|]. cbn [map register_all].
  assert (exists cs1, RegisterCodec (Some c) cs0 = (Returned tt, cs1)) as [cs1 E1].
  { unfold RegisterCodec. destruct (String.eqb_spec (ToLower (codec_Name c)) "") as [E|_]; [|by eexists].
    by destruct Hc; apply ToLower_empty. }
  rewrite (go_bind_returned _ _ _ _ _ E1).
  assert (cs1 = snd (RegisterCodec (Some c) cs0)) as Hcs1 by by rewrite E1.
  specialize (IH cs1). destruct (register_all (map Some l) cs1) as [r cs].
  destruct IH as (?&?&->); [subst cs1; by apply RegisterCodec_ok|]. split; [done|split; [done|]].
  rewrite filter_cons. subst cs1. rewrite GetCodec_RegisterCodec by done.
  destruct (String.eqb_spec (ToLower name) (ToLower (codec_Name c))).
  - rewrite decide_True by done. rewrite last_cons. by destruct (last _).
  - rewrite decide_False by done. done.
Qed.
End registry_facts.

Lemma encoding_registry_witness :
  let c n := mkCodec (V := string) (fun v => inl (String.list_ascii_of_string v)) (fun b _ => (None, String.string_of_list_ascii b)) n in
  let l := [c "json"; c "Xml"; c "JSON"] in
  snd (register_all (map Some l) ∅) = <["json" := c "JSON"]> (<["xml" := c "Xml"]> (<["json" := c "json"]> ∅)) /\
  GetCodec "Json" (snd (register_all (map Some l) ∅)) = Some (c "JSON").
Proof.
  intros c l. split; [reflexivity|].
  pose proof (encoding_registry l "Json" ltac:(repeat constructor; done)) as H.
  destruct (register_all (map Some l) ∅) as [r cs]. destruct H as (_&_&H). exact H.
Defined.
