(* ===== verification/HttpCodec.v ===== *)
(** [transport/http/middleware/codec/codec.go]: content negotiation.

    The codec the middleware leaves in the request's context, under the package's
    own key, is passed to the handler beside the request. *)
From Stdlib Require Import ZArith Lia Ascii.
From S2P Require Import Prelude GoErrors Http NetPacket Encoding.
From stdpp Require Import base gmap strings list fin_maps.
Open Scope string_scope.
Open Scope list_scope.
Open Scope Z_scope.

(** * Strings *)

(** The ASCII white space of [unicode.IsSpace]. *)
Definition is_space (c : ascii) : bool :=
  let n := nat_of_ascii c in ((9 <=? n) && (n <=? 13) || (n =? 32))%nat.

Fixpoint trim_left (s : string) : string :=
  match s with
  | EmptyString => EmptyString
  | String c s' => if is_space c then trim_left s' else s
  end.

Fixpoint trim_right (s : string) : string :=
  match s with
  | EmptyString => EmptyString
  | String c s' =>
      match trim_right s' with
      | EmptyString => if is_space c then EmptyString else String c EmptyString
      | t => String c t
      end
  end.

(** [strings.TrimSpace] *)
Definition TrimSpace (s : string) : string := trim_right (trim_left s).

(** [if idx := strings.IndexByte(s, b); idx >= 0 { s = s[:idx] }] *)
Fixpoint cut_at (b : ascii) (s : string) : option string :=
  match s with
  | EmptyString => None
  | String c s' => if Ascii.eqb c b then Some EmptyString else String c <$> cut_at b s'
  end.

(** * MIME types and codec names *)

(** [var mimeToCodec] *)
Definition mimeToCodec : gmap string string := list_to_map [
  ("application/json", "json");
  ("application/xml", "xml");
  ("text/xml", "xml");
  ("application/x-yaml", "yaml");
  ("text/yaml", "yaml");
  ("application/protobuf", "proto");
  ("application/x-protobuf", "proto");
  ("application/avro", "avro");
  ("application/x-msgpack", "msgpack");
  ("application/x-toml", "toml");
  ("text/toml", "toml");
  ("application/x-gob", "gob");
  ("application/cbor", "cbor");
  ("application/x-cbor", "cbor");
  ("application/x-thrift", "thrift");
  ("application/x-flatbuffers", "flatbuffers");
  ("application/bson", "bson")].

(** [func RegisterMimeType(mime, codecName string)] *)
Definition RegisterMimeType (mime codecName : string) (mimes : gmap string string) : gmap string string :=
  <[ToLower (TrimSpace mime) := codecName]> mimes.

(** [func codecNameFromMIME(mime string) string] *)
Definition codecNameFromMIME (mimes : gmap string string) (mime : string) : string :=
  let mime := ToLower (TrimSpace mime) in
  let mime := match cut_at ";"%char mime with Some m => TrimSpace m | None => mime end in
  let name := default "" (mimes !! mime) in
  if String.eqb name "" then "json" else name.

(** [var codecToMime] *)
Definition codecToMime : list (string * string) := [
  ("json", "application/json");
  ("xml", "application/xml");
  ("yaml", "application/x-yaml");
  ("proto", "application/protobuf");
  ("avro", "application/avro");
  ("msgpack", "application/x-msgpack");
  ("toml", "application/x-toml");
  ("gob", "application/x-gob");
  ("cbor", "application/cbor");
  ("thrift", "application/x-thrift");
  ("flatbuffers", "application/x-flatbuffers");
  ("bson", "application/bson")].

(** [func mimeFromCodecName(name string) string] *)
Definition mimeFromCodecName (name : string) : string :=
  match (list_to_map codecToMime : gmap string string) !! name with
  | Some mime => mime
  | None => "application/json"
  end.

Definition ErrCodecNotFound : error :=
  Sentinel "codec.ErrCodecNotFound" "codec: no codec found in context (middleware not registered?)".

Section middleware.
Context {V W : Type}.
Implicit Types (cs : codecs V) (mimes : gmap string string).

(** [type options struct] *)
Record options := mkOptions { defaultCodec : string }.
Definition WithDefaultCodec (name : string) : options -> options := fun _ => mkOptions name.

(** The codec [Middleware] resolves. *)
Definition resolve cs mimes (cfg : options) (r : Request) : option (Codec V) :=
  match GetCodec (codecNameFromMIME mimes (header_Get "Content-Type" (req_Header r))) cs with
  | Some c => Some c
  | None => GetCodec (defaultCodec cfg) cs
  end.

(** [func Middleware(opts ...Option) httpPlugin.Middleware] *)
Definition Middleware cs mimes (opts : list (options -> options)) (next : option (Codec V) -> Handler W) : Handler W :=
  let cfg := apply_opts opts (mkOptions "json") in
  fun r w =>
    match resolve cs mimes cfg r with
    | None => serve w (http_Error "unsupported content type" 415)
    | Some c => next (Some c) r w
    end.

(** [func ReadBody(r *http.Request, target any) error]: [body] is the result of
    reading the body; the body the request holds afterwards is the last
    component, unchanged ([None]) when it was not replaced. *)
Definition ReadBody (c : option (Codec V)) (body : bytes + error) (target : V) : option error * V * option bytes :=
  match c with
  | None => (Some ErrCodecNotFound, target, None)
  | Some c =>
      match body with
      | inr err => (Some err, target, None)
      | inl b => let '(err, v) := codec_Unmarshal c b target in (err, v, Some b)
      end
  end.

(** [func Respond(w http.ResponseWriter, r *http.Request, statusCode int, data any) error];
    with no codec at all the nil interface is called, which panics. *)
Definition Respond cs (c : option (Codec V)) (statusCode : Z) (data : V) : io (result (option error)) :=
  match (match c with Some c => Some c | None => GetCodec "json" cs end) with
  | None => mret Panicked
  | Some c =>
      match codec_Marshal c data with
      | inr err => mret (Returned (Some err))
      | inl body =>
          HeaderMap (header_Set "Content-Type" (mimeFromCodecName (codec_Name c)))
            (WriteHeader statusCode
              (Write (String.string_of_list_ascii body) (fun '(_, err) => Ret (Returned err))))
      end
  end.
End middleware.

(** * Properties *)

Lemma is_space_lower c : is_space (lower_char c) = is_space c.
Proof. destruct c as [[] [] [] [] [] [] [] []]; reflexivity. Qed.

Lemma semicolon_lower c : Ascii.eqb (lower_char c) ";" = Ascii.eqb c ";".
Proof. destruct c as [[] [] [] [] [] [] [] []]; reflexivity. Qed.

Lemma trim_left_idemp s : trim_left (trim_left s) = trim_left s.
Proof. induction s as [|c s IH]; simpl; [done|]. destruct (is_space c) eqn:E; [done|]. simpl. by rewrite E. Qed.

Lemma ToLower_trim_left s : ToLower (trim_left s) = trim_left (ToLower s).
Proof. induction s as [|c s IH]; simpl; [done|]. rewrite is_space_lower. by destruct (is_space c). Qed.

Lemma ToLower_trim_right s : ToLower (trim_right s) = trim_right (ToLower s).
Proof.
  induction s as [|c s IH]; simpl; [done|]. rewrite is_space_lower, <- IH.
  destruct (trim_right s); simpl; [by destruct (is_space c)|done].
Qed.

Lemma ToLower_app s t : ToLower (s ++ t) = (ToLower s ++ ToLower t)%string.
Proof. induction s as [|c s IH]; simpl; [done|]. by rewrite IH. Qed.

(** Trimming does not reach past a separator that is not a space. *)
Lemma trim_left_app c s t : is_space c = false -> trim_left (s ++ String c t) = (trim_left s ++ String c t)%string.
Proof. intros Hc. induction s as [|d s IH]; simpl; [by rewrite Hc|]. by destruct (is_space d). Qed.

Lemma trim_right_app c s t : is_space c = false -> exists t', trim_right (s ++ String c t) = (s ++ String c t')%string.
Proof.
  intros Hc. induction s as [|d s [t' IH]]; simpl.
  - rewrite Hc. destruct (trim_right t); eauto.
  - rewrite IH. exists t'. by destruct s.
Qed.

Lemma cut_at_lower s : cut_at ";" (ToLower s) = ToLower <$> cut_at ";" s.
Proof.
  induction s as [|c s IH]; simpl; [done|]. rewrite semicolon_lower. destruct (Ascii.eqb c ";"); [done|].
  rewrite IH. by destruct (cut_at ";" s).
Qed.

Lemma cut_at_trim_left s : cut_at ";" s = None -> cut_at ";" (trim_left s) = None.
Proof.
  induction s as [|c s IH]; simpl; [done|]. destruct (Ascii.eqb c ";") eqn:E; [done|].
  rewrite fmap_None. intros H. destruct (is_space c); [auto|]. simpl. by rewrite E, H.
Qed.

Lemma cut_at_trim_right s : cut_at ";" s = None -> cut_at ";" (trim_right s) = None.
Proof.
  induction s as [|c s IH]; simpl; [done|]. destruct (Ascii.eqb c ";") eqn:E; [done|].
  rewrite fmap_None. intros H. specialize (IH H). destruct (trim_right s).
  - destruct (is_space c); simpl; [done|]. by rewrite E.
  - cbn [cut_at]. rewrite E. by rewrite fmap_None.
Qed.

Lemma cut_at_app s t : cut_at ";" s = None -> cut_at ";" (s ++ String ";" t) = Some s.
Proof.
  induction s as [|c s IH]; simpl; [done|]. destruct (Ascii.eqb c ";"); [done|].
  rewrite fmap_None. intros H. by rewrite IH.
Qed.

(** Parameters after the MIME type do not change the codec. *)
Lemma codecNameFromMIME_params mimes mime params :
  cut_at ";" mime = None -> codecNameFromMIME mimes (mime ++ String ";" params) = codecNameFromMIME mimes mime.
Proof.
  intros H. unfold codecNameFromMIME, TrimSpace.
  rewrite trim_left_app by done. destruct (trim_right_app ";" (trim_left mime) params) as [t' ->]; [done|].
  rewrite ToLower_app. cbn [ToLower]. change (lower_char ";") with ";"%char.
  rewrite cut_at_app by (rewrite cut_at_lower, cut_at_trim_left; done).
  rewrite cut_at_lower, cut_at_trim_right by by apply cut_at_trim_left. cbn [fmap option_fmap option_map].
  by rewrite ToLower_trim_right, ToLower_trim_left, trim_left_idemp.
Qed.

(** The canonical MIME type of every codec names that codec. *)
Lemma codec_mime_round_trip :
  Forall (fun '(name, mime) => mimeFromCodecName name = mime /\ codecNameFromMIME mimeToCodec mime = name /\
                               cut_at ";" mime = None /\ ToLower name = name /\ name <> "") codecToMime.
Proof. repeat constructor; done. Qed.

Section middleware_facts.
Context {V : Type}.
Implicit Types (cs : codecs V).

(** An unrecognised content type selects the JSON codec whenever that is
    registered, whatever [WithDefaultCodec] says. *)
Lemma default_codec_unused cs opts r c :
  mimeToCodec !! header_Get "Content-Type" (req_Header r) = None ->
  TrimSpace (header_Get "Content-Type" (req_Header r)) = header_Get "Content-Type" (req_Header r) ->
  ToLower (header_Get "Content-Type" (req_Header r)) = header_Get "Content-Type" (req_Header r) ->
  cut_at ";" (header_Get "Content-Type" (req_Header r)) = None ->
  cs !! "json" = Some c -> resolve cs mimeToCodec (apply_opts opts (mkOptions "json")) r = Some c.
Proof.
  intros Hm Ht Hl Hc Hj. unfold resolve, codecNameFromMIME. rewrite Ht, Hl, Hc, Hm. cbn.
  unfold GetCodec. cbn. by setoid_rewrite Hj.
Qed.

(** A codec found under some name is found under its own. *)
Lemma GetCodec_own_name cs name c :
  registry_ok cs -> GetCodec name cs = Some c -> codec_Name c <> "" -> GetCodec (codec_Name c) cs = Some c.
Proof.
  intros Hok H Hn. pose proof (GetCodec_name _ _ _ Hok H) as E. revert H. unfold GetCodec.
  destruct (String.eqb name ""); [done|]. destruct (String.eqb_spec (codec_Name c) ""); [done|]. by rewrite E.
Qed.

Lemma resolve_own_name cs cfg r c :
  registry_ok cs -> resolve cs mimeToCodec cfg r = Some c -> codec_Name c <> "" ->
  GetCodec (codec_Name c) cs = Some c.
Proof.
  intros Hok. unfold resolve. case_match eqn:E; [intros [= <-]|intros E']; eauto using GetCodec_own_name.
Qed.

(** What [Respond] writes. *)
Lemma run_Respond cs c code data body :
  bodyAllowedForStatus code = true -> codec_Marshal c data = inl body ->
  let h := header_Set "Content-Type" (mimeFromCodecName (codec_Name c)) ∅ in
  run (Respond cs (Some c) code data) fresh_response =
    (Returned None, mkResponse h (Some (code, h)) (String.string_of_list_ascii body)).
Proof.
  intros Hb Hm h. unfold Respond. rewrite Hm. cbn [run]. fold h. unfold rw_WriteHeader. cbn [sent fresh_response live].
  assert ((100 <=? code) && (code <=? 199) = false) as ->.
  { unfold bodyAllowedForStatus in Hb. by destruct ((100 <=? code) && (code <=? 199)). }
  cbn. unfold rw_Write. cbn. destruct (String.eqb_spec (String.string_of_list_ascii body) "") as [->|]; [done|].
  by rewrite Hb.
Qed.

(** The middleware answers 415 without running the handler exactly when
    neither the codec the Content-Type names nor the default one is registered,
    and otherwise runs the handler with the resolved codec.  A handler that
    answers with [Respond] and a codec of the standard table sends a Content-Type
    which, with any parameters appended, makes the middleware resolve the same
    codec again: both ends of an exchange agree on the codec. *)
Theorem http_codec_negotiation {W} cs opts (next : option (Codec V) -> Handler W) r w :
  registry_ok cs ->
  match resolve cs mimeToCodec (apply_opts opts (mkOptions "json")) r with
  | None =>
      exists resp, run (Middleware cs mimeToCodec opts next r w) fresh_response = ((Returned tt, w), resp) /\
                   fst <$> sent resp = Some 415
  | Some c =>
      Middleware cs mimeToCodec opts next r w = next (Some c) r w /\
      forall code data body, bodyAllowedForStatus code = true -> codec_Marshal c data = inl body ->
        codec_Name c ∈ map fst codecToMime ->
        exists h, run (Respond cs (Some c) code data) fresh_response =
            (Returned None, mkResponse h (Some (code, h)) (String.string_of_list_ascii body)) /\
          forall r' params,
            header_Get "Content-Type" (req_Header r') = (header_Get "Content-Type" h ++ String ";" params)%string ->
            resolve cs mimeToCodec (apply_opts opts (mkOptions "json")) r' = Some c
  end.
Proof.
  intros Hok. unfold Middleware. destruct (resolve _ _ _ r) as [c|] eqn:E.
  - split; [done|]. intros code data body Hb Hm Hc. eexists. split; [by apply run_Respond|].
    intros r' params Hr'. apply list_elem_of_fmap in Hc as ([name mime]&Hn&Hin). simpl in Hn.
    pose proof (proj1 (Forall_forall _ _) codec_mime_round_trip _ Hin) as (H1&H2&H3&_&H5).
    unfold resolve. rewrite Hr'. unfold header_Get at 1, header_Set. rewrite lookup_insert_eq.
    rewrite Hn, H1, codecNameFromMIME_params, H2 by done. rewrite <- Hn.
    by rewrite (resolve_own_name _ _ _ _ Hok E) by congruence.
  - edestruct (run_serve_error w "unsupported content type" 415 fresh_response) as (resp&->&Hs&_); [lia..|done|].
    exists resp. by rewrite Hs.
Qed.
End middleware_facts.

Lemma http_codec_negotiation_witness :
  let c n := mkCodec (V := string) (fun v => inl (String.list_ascii_of_string v))
               (fun b _ => (None, String.string_of_list_ascii b)) n in
  let cs := list_to_map [("json", c "json"); ("xml", c "xml")] : codecs string in
  let r := mkRequest "POST" "/" {["Content-Type" := ["Text/XML; charset=utf-8"]]} [] in
  let next : option (Codec string) -> Handler unit := fun c _ w => serve w (_ ← Respond cs c 200 "ok"; mret tt) in
  resolve cs mimeToCodec (apply_opts [] (mkOptions "json")) r = Some (c "xml") /\
  Middleware cs mimeToCodec [] next r () = next (Some (c "xml")) r ().
Proof.
  intros c cs r next. split; [reflexivity|].
  assert (registry_ok cs) as Hok.
  { intros k x H. unfold cs in H. apply elem_of_list_to_map_2 in H.
    repeat (apply elem_of_cons in H as [[= -> ->]|H]; [done|]). by apply elem_of_nil in H. }
  exact (proj1 (http_codec_negotiation cs [] next r () Hok)).
Defined.
