(* ===== verification/HttpGuards.v ===== *)
(** Three HTTP middlewares that may answer in the handler's place:
    [transport/http/middleware/timeout], [errors] and [validate]. *)
From Stdlib Require Import ZArith Lia Ascii.
From S2P Require Import Prelude GoTime GoErrors Http Encoding HttpCodec.
From stdpp Require Import base gmap strings list fin_maps pretty.
Open Scope string_scope.
Open Scope list_scope.
Open Scope Z_scope.

(** * [timeout] *)
Module timeout.

(** Running the first [n] writer calls of a handler: what is left of it, and the
    response so far. *)
Fixpoint run_for {A} (n : nat) (m : io A) (r : Response) : io A * Response :=
  match n with
  | O => (m, r)
  | S n' =>
      match m with
      | Ret a => (Ret a, r)
      | HeaderMap f k => run_for n' k (mkResponse (f (live r)) (sent r) (body r))
      | HeaderGet k => run_for n' (k (live r)) r
      | WriteHeader c k => run_for n' k (rw_WriteHeader c r)
      | Write b k => let '(res, r') := rw_Write b r in run_for n' (k res) r'
      end
  end.

(** [type options struct] *)
Record options := mkOptions {
  status : Z;
  message : string;
  skipFunc : option (Request -> bool);
  timeoutFunc : option (Request -> Duration)
}.
Definition WithStatus (code : Z) : options -> options := fun o => mkOptions code (message o) (skipFunc o) (timeoutFunc o).
Definition WithMessage (msg : string) : options -> options := fun o => mkOptions (status o) msg (skipFunc o) (timeoutFunc o).
Definition WithSkipFunc (fn : option (Request -> bool)) : options -> options := fun o =>
  mkOptions (status o) (message o) fn (timeoutFunc o).
Definition WithTimeoutFunc (fn : option (Request -> Duration)) : options -> options := fun o =>
  mkOptions (status o) (message o) (skipFunc o) fn.

(** The goroutines of a timed request: the handler's, and the one that answers.  Each call of
    the writer is taken as one step (two at the same moment are a data race of the writer);
    [true] is a call of the handler. *)
Fixpoint weave {A B} (sched : list bool) (h : io A) (e : io B) (r : Response) : io A * io B * Response :=
  match sched with
  | [] => (h, e, r)
  | true :: s => let '(h, r) := run_for 1 h r in weave s h e r
  | false :: s => let '(e, r) := run_for 1 e r in weave s h e r
  end.

(** How a timed request goes: the handler's goroutine ends first, or the context does after
    [n] of its writer calls.  The calls of the timeout response then interleave with the
    handler's as [sched] says, and when the response is complete the handler has made [m]
    more calls by the time the server has finished with it. *)
Inductive race := HandlerFirst | TimeoutAfter (n : nat) (sched : list bool) (m : nat).

(** What becomes of a request: it is served (a panic is the server's to recover from), or
    the process dies of a panic in a goroutine that nobody recovers. *)
Inductive ending := Served (res : result unit) (resp : Response) | ProcessDies.
Definition panicked {W} (h : io (result unit * W)) : bool :=
  match h with Ret (Panicked, _) => true | _ => false end.

(** The time limit of a request, [None] when it has none. *)
Definition limit (defaultTimeout : Duration) (cfg : options) (r : Request) : option Duration :=
  if match skipFunc cfg with Some f => f r | None => false end then None
  else
    let t := match timeoutFunc cfg with
             | Some f => if 0 <? f r then f r else defaultTimeout
             | None => defaultTimeout
             end in
    if t <=? 0 then None else Some t.

(** [func Middleware(defaultTimeout time.Duration, opts ...Option)] *)
Definition Middleware {W} (defaultTimeout : Duration) (opts : list (options -> options)) (next : Handler W) (how : race)
    (r : Request) (w : W) (resp : Response) : ending :=
  let cfg := apply_opts opts (mkOptions 503 "Service Unavailable" None None) in
  match limit defaultTimeout cfg r with
  | None => let '((res, _), resp') := run (next r w) resp in Served res resp'
  | Some _ =>
      match how with
      | HandlerFirst =>
          match run (next r w) resp with
          | ((Returned _, _), resp') => Served (Returned tt) resp'
          | ((Panicked, _), _) => ProcessDies
          end
      | TimeoutAfter n sched m =>
          let '(h, resp) := run_for n (next r w) resp in
          let '(h, e, resp) := weave sched h (http_Error (message cfg) (status cfg)) resp in
          let '(_, resp) := run e resp in
          let '(h, resp) := run_for m h resp in
          if panicked h then ProcessDies else Served (Returned tt) resp
      end
  end.
End timeout.

(** * [errors] *)
Module errors.
(** [type ErrorBody struct] *)
Record ErrorBody := mkBody { b_Code : Z; b_Reason : string; b_Message : string; b_Meta : option (gmap string string) }.

Section errors.
(** The bodies an application builds, and their JSON text with the newline the
    encoder adds ([None] when they do not encode). *)
Context {B : Type} (default_body : ErrorBody -> B) (json : B -> option string).

(** [func defaultBodyBuilder] *)
Definition defaultBodyBuilder : Request -> Error -> B := fun _ e =>
  default_body (mkBody (Code e) (Reason e) (Message e) (Metadata e)).

(** [func configFromRequest]: the builder the middleware left in the context, if
    it is installed. *)
Definition configFromRequest (installed : option (Request -> Error -> B)) : Request -> Error -> B :=
  match installed with
  | Some b => b
  | None => defaultBodyBuilder
  end.

(** The error [Respond] answers with. *)
Definition respond_error (err : option error) : Error :=
  match FromError err with
  | Some e => e
  | None => New 500 "INTERNAL" "internal server error"
  end.

(** [func Respond(w http.ResponseWriter, r *http.Request, err error)] *)
Definition Respond (installed : option (Request -> Error -> B)) (r : Request) (err : option error) : io unit :=
  let e := respond_error err in
  let body := configFromRequest installed r e in
  HeaderMap (header_Set "Content-Type" "application/json; charset=utf-8")
    (WriteHeader (Code e)
      (match json body with
       | Some text => Write text (fun _ => Ret tt)
       | None => Ret tt
       end)).
End errors.
End errors.

(** * [validate] *)
Module validate.
(** [type options struct]; nil maps are empty. *)
Record options := mkOptions {
  maxBodySize : Z;
  allowedTypes : gset string;
  requiredHeaders : gset string;
  validator : option (Request -> option string)
}.
Definition WithMaxBodySize (n : Z) : options -> options := fun o =>
  mkOptions n (allowedTypes o) (requiredHeaders o) (validator o).
Definition WithAllowedContentTypes (types : list string) : options -> options := fun o =>
  mkOptions (maxBodySize o) (allowedTypes o ∪ list_to_set (map (fun t => TrimSpace (ToLower t)) types)) (requiredHeaders o) (validator o).
Definition WithRequiredHeaders (headers : list string) : options -> options := fun o =>
  mkOptions (maxBodySize o) (allowedTypes o) (requiredHeaders o ∪ list_to_set (map CanonicalHeaderKey headers)) (validator o).
Definition WithValidator (fn : option (Request -> option string)) : options -> options := fun o =>
  mkOptions (maxBodySize o) (allowedTypes o) (requiredHeaders o) fn.

(** The content type checked: parameters stripped, the rest trimmed then only. *)
Definition bare_type (ct : string) : string :=
  match cut_at ";"%char ct with
  | Some t => TrimSpace t
  | None => ct
  end.

(** What the checks answer, in their order: a message and a status.  [content_length]
    is the request's; a validator's error is its text. *)
Definition refusal (cfg : options) (content_length : Z) (r : Request) : option (string * Z) :=
  match list_find (fun h => header_Get h (req_Header r) = "") (elements (requiredHeaders cfg)) with
  | Some (_, h) => Some (("missing required header: " ++ h)%string, 400)
  | None =>
      let ct := header_Get "Content-Type" (req_Header r) in
      if bool_decide (allowedTypes cfg <> ∅) && negb (String.eqb ct "") && negb (bool_decide (ToLower (bare_type ct) ∈ allowedTypes cfg))
      then Some (("unsupported content type: " ++ bare_type ct)%string, 415)
      else if (0 <? maxBodySize cfg) && (content_length >? maxBodySize cfg)
      then Some (("request body exceeds " ++ pretty (maxBodySize cfg) ++ " bytes")%string, 413)
      else
        match validator cfg with
        | Some f => match f r with Some text => Some (text, 400) | None => None end
        | None => None
        end
  end.

(** [func Middleware(opts ...Option) httpPlugin.Middleware]; limiting the body of
    the request passed on is the reader's business. *)
Definition Middleware {W} (opts : list (options -> options)) (content_length : Request -> Z) : Http.Middleware W := fun next r w =>
  match refusal (apply_opts opts (mkOptions 0 ∅ ∅ None)) (content_length r) r with
  | Some (msg, code) => serve w (http_Error msg code)
  | None => next r w
  end.
End validate.

(** * Properties *)





(** ** The timeout response, a call at a time *)
Section answer.
Context (msg : string) (code : Z) (Hcode : 200 <= code <= 599).






End answer.




(** A handler that sends its status between the two steps of the timeout response: the
    client gets that status with the message, and then the handler's body. *)
Example handler_status_wins :
  let next : Handler unit := fun _ w => serve w (WriteHeader 200 (Write "late" (fun _ => Ret tt))) in
  match timeout.Middleware 1000 [] next (timeout.TimeoutAfter 0 [false; true; false] 1) (mkRequest "GET" "/" ∅ []) () fresh_response with
  | timeout.Served _ resp => fst <$> sent resp = Some 200 /\ body resp = ("Service Unavailable" ++ newline ++ "late")%string
  | timeout.ProcessDies => False
  end.
Proof. vm_compute. done. Qed.
(** A handler that panics late ends the process. *)
Example late_panic :
  timeout.Middleware 1000 [] (fun (_ : Request) (w : unit) => Write "x" (fun _ => Ret (Panicked, w))) (timeout.TimeoutAfter 0 [] 1) (mkRequest "GET" "/" ∅ []) () fresh_response = timeout.ProcessDies.
Proof. reflexivity. Qed.

(** Errors that carry no application error are answered alike: nothing of them
    reaches the client. *)
Lemma errors_do_not_leak {B} (default_body : errors.ErrorBody -> B) json installed r err1 err2 :
  FromError err1 = None -> FromError err2 = None ->
  errors.Respond default_body json installed r err1 = errors.Respond default_body json installed r err2.
Proof. intros H1 H2. unfold errors.Respond, errors.respond_error. by rewrite H1, H2. Qed.

(** A request passes exactly when it has every required header, an allowed
    content type or none, a declared size within the limit, and the validator's
    consent. *)
Lemma validate_spec cfg n r :
  validate.refusal cfg n r = None <->
  (forall h, h ∈ validate.requiredHeaders cfg -> header_Get h (req_Header r) <> "") /\
  (validate.allowedTypes cfg <> ∅ -> header_Get "Content-Type" (req_Header r) <> "" ->
     ToLower (validate.bare_type (header_Get "Content-Type" (req_Header r))) ∈ validate.allowedTypes cfg) /\
  (0 < validate.maxBodySize cfg -> n <= validate.maxBodySize cfg) /\
  (forall f, validate.validator cfg = Some f -> f r = None).
Proof.
  unfold validate.refusal. destruct (list_find _ _) as [[i h]|] eqn:Ef.
  - apply list_find_Some in Ef as (Hi&Hh&_). split; [done|]. intros (H&_). destruct (H h); [|done].
    apply elem_of_elements. by eapply list_elem_of_lookup_2.
  - apply list_find_None in Ef. rewrite Forall_forall in Ef.
    assert (forall h, h ∈ validate.requiredHeaders cfg -> header_Get h (req_Header r) <> "") as Hreq
      by (intros h Hh; apply Ef; by apply elem_of_elements).
    set (ct := header_Get "Content-Type" (req_Header r)).
    destruct (bool_decide_reflect (validate.allowedTypes cfg <> ∅)), (String.eqb_spec ct ""),
      (bool_decide_reflect (ToLower (validate.bare_type ct) ∈ validate.allowedTypes cfg)); cbn [andb negb];
      destruct (Z.ltb_spec 0 (validate.maxBodySize cfg)), (Z.gtb_spec n (validate.maxBodySize cfg)); cbn [andb];
      try (split; [done|]; intros (_&H1&H2&_); exfalso; tauto || lia);
      (split; [intros Hv; split_and!; auto; try tauto; try lia; intros f Hf; rewrite Hf in Hv; by destruct (f r)
              |intros (_&_&_&Hv); destruct (validate.validator cfg) as [f|]; [by rewrite (Hv f eq_refl)|done]]).
Qed.
