(* ===== verification/GrpcContext.v ===== *)
(** Request metadata across gRPC calls: [transport/grpc/middleware/requestid] and
    [transport/grpc/middleware/metadata], on both sides of a call. *)
From Stdlib Require Import ZArith Lia.
From S2P Require Import Prelude GoErrors Http Encoding HttpCodec HttpRequestId.
From stdpp Require Import base gmap strings list fin_maps.
Open Scope string_scope.
Open Scope list_scope.

(** A context as the interceptors use it: the values under their own keys (those
    of [Http], which both families of middlewares define alike), the incoming
    metadata of a server's context, and the pairs appended to the outgoing
    metadata, in order, keys in lower case. *)
Record Ctx := mkCtx {
  values : Http.Context;
  incoming : option (gmap string (list string));
  outgoing : list (string * string)
}.

(** [md.Get(k)] lower-cases its key. *)
Definition md_Get (md : gmap string (list string)) (k : string) : list string := default [] (md !! ToLower k).

(** [metadata.AppendToOutgoingContext(ctx, pairs...)] *)
Definition AppendToOutgoingContext (pairs : list (string * string)) (ctx : Ctx) : Ctx :=
  mkCtx (values ctx) (incoming ctx) (outgoing ctx ++ map (fun '(k, v) => (ToLower k, v)) pairs).

(** The transport: the server's handler gets a context of its own, whose incoming
    metadata holds the caller's outgoing pairs.  gRPC documents that the values of
    a key keep their order. *)
Class Wire := { deliver : list (string * string) -> gmap string (list string) }.
Class WireLaws `{Wire} := {
  deliver_values : forall out k, default [] (deliver out !! k) = omap (fun '(k', v) => if decide (k' = k) then Some v else None) out
}.
Definition call `{Wire} (ctx : Ctx) : Ctx := mkCtx [] (Some (deliver (outgoing ctx))) [].

(** A transport that has the law. *)
Definition model_deliver (out : list (string * string)) : gmap string (list string) :=
  foldr (fun '(k, v) md => <[k := v :: default [] (md !! k)]> md) ∅ out.
#[local] Instance model_wire : Wire := {| deliver := model_deliver |}.

Lemma model_wire_laws : WireLaws.
Proof.
  split. intros out k. simpl. induction out as [|[k' v] out IH]; [done|]. simpl. case_decide as E.
  - subst. rewrite lookup_insert_eq. simpl. f_equal. exact IH.
  - by rewrite lookup_insert_ne.
Qed.

(** * [requestid] *)
Module requestid.
Definition MetadataKey : string := "x-request-id".

(** [func WithRequestID], [func FromContext] *)
Definition WithRequestID (ctx : Ctx) (id : string) : Ctx :=
  mkCtx (context_WithValue (values ctx) RequestIDKey id) (incoming ctx) (outgoing ctx).
Definition FromContext (ctx : Ctx) : string := default "" (ctx_Value (values ctx) RequestIDKey).

(** [func extractFromIncoming(ctx context.Context) string] *)
Definition extractFromIncoming (ctx : Ctx) : string :=
  match incoming ctx with
  | None => ""
  | Some md =>
      match md_Get md MetadataKey with
      | [] => ""
      | v :: _ => TrimSpace v
      end
  end.

Section generator.
(** [cfg.idGenerator], with the state it draws from. *)
Context {W : Type} (idGenerator : W -> string * W).

(** [func UnaryServerInterceptor] and [StreamServerInterceptor]: the context of the
    handler, the wrapped stream's [Context()] included. *)
Definition ServerInterceptor (ctx : Ctx) (w : W) : Ctx * W :=
  let id := extractFromIncoming ctx in
  let '(id, w) := if String.eqb id "" then idGenerator w else (id, w) in
  (WithRequestID ctx id, w).

(** [func injectOutgoing(ctx context.Context, cfg *options) context.Context], the
    context [UnaryClientInterceptor] and [StreamClientInterceptor] call with. *)
Definition injectOutgoing (ctx : Ctx) (w : W) : Ctx * W :=
  let id := FromContext ctx in
  let '(id, w) := if String.eqb id "" then idGenerator w else (id, w) in
  (AppendToOutgoingContext [(MetadataKey, id)] ctx, w).

(** A call from one service to the next: client side, transport, server side. *)
Definition hop `{Wire} (ctx : Ctx) (w : W) : Ctx * W :=
  let '(ctx, w) := injectOutgoing ctx w in ServerInterceptor (call ctx) w.

Fixpoint hops `{Wire} (n : nat) (ctx : Ctx) (w : W) : Ctx * W :=
  match n with
  | O => (ctx, w)
  | S n' => let '(ctx, w) := hop ctx w in hops n' ctx w
  end.
End generator.
End requestid.

(** * [metadata] *)
Module metadata.
(** [type options struct]; a nil map is empty. *)
Record options := mkOptions { keys : list string; constantMD : gmap string string }.

Definition WithKeys (ks : list string) : options -> options := fun o => mkOptions (keys o ++ ks) (constantMD o).
Definition WithConstant (kv : gmap string string) : options -> options := fun o =>
  mkOptions (keys o) (map_fold (fun k v m => <[k := v]> m) (constantMD o) kv).
Definition newConfig (opts : list (options -> options)) : options := apply_opts opts (mkOptions [] ∅).

(** [func WithMetadata], [func FromContext] *)
Definition WithMetadata (ctx : Ctx) (key value : string) : Ctx :=
  mkCtx (context_WithValue (values ctx) (Http.MetadataKey key) value) (incoming ctx) (outgoing ctx).
Definition FromContext (ctx : Ctx) (key : string) : string := default "" (ctx_Value (values ctx) (Http.MetadataKey key)).

(** [func extractToContext(ctx context.Context, keys []string) context.Context] *)
Definition extractToContext (ctx : Ctx) (ks : list string) : Ctx :=
  match incoming ctx with
  | None => ctx
  | Some md =>
      fold_left (fun ctx key =>
        match md_Get md key with
        | [] => ctx
        | v :: _ => WithMetadata ctx key v
        end) ks ctx
  end.

(** [func injectFromContext], the constants in the order of [range]. *)
Definition injectFromContext (ctx : Ctx) (ks : list string) (cfg : options) : Ctx :=
  let pairs := omap (fun key => if String.eqb (FromContext ctx key) "" then None else Some (key, FromContext ctx key)) ks
               ++ map_to_list (constantMD cfg) in
  if (0 <? length pairs)%nat then AppendToOutgoingContext pairs ctx else ctx.

(** [UnaryServerInterceptor], [StreamServerInterceptor]: the handler's context;
    [UnaryClientInterceptor], [StreamClientInterceptor]: the call's. *)
Definition ServerInterceptor (opts : list (options -> options)) (ctx : Ctx) : Ctx :=
  extractToContext ctx (keys (newConfig opts)).
Definition ClientInterceptor (opts : list (options -> options)) (ctx : Ctx) : Ctx :=
  injectFromContext ctx (keys (newConfig opts)) (newConfig opts).
End metadata.

(** * Properties *)

Section propagation.
Context `{WireLaws}.

Lemma call_values ctx k md : incoming (call ctx) = Some md ->
  md_Get md k = omap (fun '(k', v) => if decide (k' = ToLower k) then Some v else None) (outgoing ctx).
Proof. intros [= <-]. unfold md_Get. apply deliver_values. Qed.

Lemma outgoing_append k pairs ctx :
  omap (fun '(k', v) => if decide (k' = k) then Some v else None) (outgoing (AppendToOutgoingContext pairs ctx)) =
  omap (fun '(k', v) => if decide (k' = k) then Some v else None) (outgoing ctx) ++
  omap (fun '(k', v) => if decide (ToLower k' = k) then Some v else None) pairs.
Proof.
  simpl. rewrite omap_app. f_equal. induction pairs as [|[k' v] pairs IH]; [done|]. simpl. case_decide; [f_equal|]; exact IH.
Qed.

Import requestid.

Lemma FromContext_WithRequestID_grpc ctx id : FromContext (WithRequestID ctx id) = id.
Proof. reflexivity. Qed.

Lemma hop_id {W} (gen : W -> string * W) ctx w id :
  omap (fun '(k', v) => if decide (k' = MetadataKey) then Some v else None) (outgoing ctx) = [] ->
  FromContext ctx = id -> id <> "" -> TrimSpace id = id ->
  exists ctx', hop gen ctx w = (ctx', w) /\ FromContext ctx' = id /\ outgoing ctx' = [].
Proof.
  intros Ho Hid Hne Ht. unfold hop, injectOutgoing. rewrite Hid. apply String.eqb_neq in Hne as Hne'. rewrite Hne'.
  unfold ServerInterceptor, extractFromIncoming. cbn [call incoming].
  rewrite (call_values _ MetadataKey _ eq_refl). change (ToLower MetadataKey) with MetadataKey.
  rewrite outgoing_append, Ho. simpl. rewrite Ht, Hne'.
  eexists. split; [reflexivity|]. split; [apply FromContext_WithRequestID_grpc|done].
Qed.

(** Along a chain of any length of services that use the request-id
    interceptors on both sides, every service sees the request id of the first
    one, and the generator is not consulted again; without an id the first call
    generates one, which is then the id of every service after it. *)
Theorem grpc_request_id {W} (gen : W -> string * W) ctx w n id :
  outgoing ctx = [] -> id <> "" -> TrimSpace id = id ->
  (FromContext ctx = id -> exists ctx', hops gen n ctx w = (ctx', w) /\ FromContext ctx' = id) /\
  (FromContext ctx = "" -> gen w = (id, snd (gen w)) ->
     exists ctx', hops gen (S n) ctx w = (ctx', snd (gen w)) /\ FromContext ctx' = id).
Proof.
  intros Ho Hne Ht.
  assert (forall ctx w, outgoing ctx = [] -> FromContext ctx = id ->
    exists ctx', hops gen n ctx w = (ctx', w) /\ FromContext ctx' = id) as Hn.
  { clear Ho ctx w. induction n as [|n IH]; intros ctx w Ho Hid; [by eexists|]. cbn [hops].
    destruct (hop_id gen ctx w id ltac:(by rewrite Ho) Hid Hne Ht) as (ctx1&->&Hid1&Ho1). by apply IH. }
  split; [by apply Hn|]. intros Hid Hg. cbn [hops]. unfold hop, injectOutgoing. rewrite Hid. simpl. rewrite Hg.
  unfold ServerInterceptor, extractFromIncoming. cbn [call incoming snd].
  rewrite (call_values _ MetadataKey _ eq_refl), outgoing_append, Ho. simpl.
  apply String.eqb_neq in Hne as Hne'. rewrite Ht, Hne'. apply Hn; [done|]. apply FromContext_WithRequestID_grpc.
Qed.

(** ** Metadata keys *)
Import metadata.

Lemma FromContext_WithMetadata ctx k v k' :
  metadata.FromContext (metadata.WithMetadata ctx k v) k' = if decide (k = k') then v else metadata.FromContext ctx k'.
Proof.
  unfold metadata.FromContext, metadata.WithMetadata. cbn [values context_WithValue ctx_Value].
  unfold context_WithValue. cbn [ctx_Value]. destruct (decide (k = k')) as [->|Hne].
  - by rewrite decide_True.
  - rewrite decide_False by congruence. done.
Qed.

(** What a server reads of one key: the first value sent under it. *)
Lemma extract_key ctx md ks key :
  incoming ctx = Some md -> values ctx = [] ->
  metadata.FromContext (extractToContext ctx ks) key =
    if decide (key ∈ ks) then default "" (head (md_Get md key)) else "".
Proof.
  intros Hi Hv. unfold extractToContext. rewrite Hi. clear Hi.
  assert (forall c, metadata.FromContext (fold_left (fun ctx key => match md_Get md key with [] => ctx | v :: _ => WithMetadata ctx key v end) ks c) key =
    if decide (key ∈ ks) then default (metadata.FromContext c key) (head (md_Get md key)) else metadata.FromContext c key) as E.
  { induction ks as [|k ks IH]; intros c; [done|]. cbn [fold_left]. rewrite IH. destruct (decide (k = key)) as [->|Hne].
    - rewrite (decide_True (P := key ∈ key :: ks)) by left. destruct (md_Get md key) as [|v vs]; simpl; [by case_decide|].
      rewrite FromContext_WithMetadata, (decide_True (P := key = key)) by done. by case_decide.
    - rewrite (decide_ext (key ∈ k :: ks) (key ∈ ks)) by set_solver.
      destruct (md_Get md k) as [|v vs]; [done|]. by rewrite FromContext_WithMetadata, (decide_False (P := k = key)). }
  rewrite E. unfold metadata.FromContext. by rewrite Hv.
Qed.

(** The value a constant gives a key, up to case. *)
Definition constant_value (cfg : options) (key : string) : option string :=
  head (omap (fun '(k, v) => if decide (ToLower k = ToLower key) then Some v else None) (map_to_list (constantMD cfg))).

Lemma injected_values ctx ks key :
  (forall k, k ∈ ks -> ToLower k = ToLower key -> k = key) ->
  head (omap (fun '(k', v) => if decide (ToLower k' = ToLower key) then Some v else None)
    (omap (fun k => if String.eqb (metadata.FromContext ctx k) "" then None else Some (k, metadata.FromContext ctx k)) ks)) =
  if decide (key ∈ ks) then (if String.eqb (metadata.FromContext ctx key) "" then None else Some (metadata.FromContext ctx key)) else None.
Proof.
  intros Hinj. induction ks as [|k ks IH]; [done|].
  assert (forall k, k ∈ ks -> ToLower k = ToLower key -> k = key) as Hinj' by (intros; apply Hinj; [by right|done]).
  specialize (IH Hinj'). cbn [omap list_omap]. destruct (decide (k = key)) as [->|Hne].
  - rewrite (decide_True (P := key ∈ key :: ks)) by left.
    destruct (String.eqb (metadata.FromContext ctx key) "") eqn:E.
    + etrans; [exact IH|]. by case_decide.
    + cbn [omap list_omap]. by rewrite decide_True.
  - rewrite (decide_ext (key ∈ k :: ks) (key ∈ ks)) by set_solver.
    destruct (String.eqb (metadata.FromContext ctx k) ""); [exact IH|]. cbn [omap list_omap].
    rewrite decide_False; [exact IH|]. intros E. apply Hne. apply Hinj; [by left|done].
Qed.

(** A key the interceptors of both sides propagate has, in the server's
    context, the value it has in the client's; a key empty there has the value of
    the constants, if any; and other keys have none. *)
Theorem grpc_metadata opts ctx key :
  outgoing ctx = [] ->
  (forall k, k ∈ keys (newConfig opts) -> ToLower k = ToLower key -> k = key) ->
  metadata.FromContext (metadata.ServerInterceptor opts (call (ClientInterceptor opts ctx))) key =
    if decide (key ∈ keys (newConfig opts))
    then (if String.eqb (metadata.FromContext ctx key) "" then default "" (constant_value (newConfig opts) key)
          else metadata.FromContext ctx key)
    else "".
Proof.
  intros Ho Hinj. unfold metadata.ServerInterceptor.
  rewrite (extract_key _ (deliver (outgoing (ClientInterceptor opts ctx)))) by done.
  case_decide as Hk; [|done]. rewrite (call_values _ key _ eq_refl).
  unfold ClientInterceptor, injectFromContext. set (cfg := newConfig opts) in *.
  set (ps := omap _ (keys cfg) ++ _).
  assert (omap (fun '(k', v) => if decide (k' = ToLower key) then Some v else None)
    (outgoing (if (0 <? length ps)%nat then AppendToOutgoingContext ps ctx else ctx)) =
    omap (fun '(k', v) => if decide (ToLower k' = ToLower key) then Some v else None) ps) as ->.
  { destruct (Nat.ltb_spec 0 (length ps)).
    - by rewrite outgoing_append, Ho.
    - rewrite Ho. destruct ps; [done|simpl in *; lia]. }
  unfold ps. rewrite omap_app. pose proof (injected_values ctx (keys cfg) key Hinj) as E. rewrite decide_True in E by done.
  destruct (omap _ (omap _ (keys cfg))) as [|v vs]; simpl in E; destruct (String.eqb (metadata.FromContext ctx key) ""); try done.
  by injection E as ->.
Qed.
End propagation.

Lemma grpc_request_id_witness :
  exists ctx', requestid.hops (W := nat) (fun w => ("r1", S w)) 3 (mkCtx [] None []) 0 = (ctx', 1%nat) /\ requestid.FromContext ctx' = "r1".
Proof.
  pose proof model_wire_laws.
  exact (proj2 (grpc_request_id (fun w => ("r1", S w)) (mkCtx [] None []) 0%nat 2%nat "r1" eq_refl ltac:(discriminate) eq_refl) eq_refl eq_refl).
Defined.

Lemma grpc_metadata_witness :
  let opts := [metadata.WithKeys ["X-Tenant"]; metadata.WithConstant {["x-zone" := "eu"]}] in
  let ctx := metadata.WithMetadata (mkCtx [] None []) "X-Tenant" "acme" in
  metadata.FromContext (metadata.ServerInterceptor opts (call (metadata.ClientInterceptor opts ctx))) "X-Tenant" = "acme".
Proof.
  intros opts ctx. pose proof model_wire_laws.
  refine (grpc_metadata opts ctx "X-Tenant" eq_refl _). intros k Hk _. apply list_elem_of_singleton in Hk. exact Hk.
Defined.
