(* ===== verification/GrpcCalls.v ===== *)
(** The gRPC interceptors around a single call:
    [transport/grpc/middleware/timeout], [recovery], [validate] and [codec]. *)
From Stdlib Require Import ZArith Lia.
From S2P Require Import Prelude GoTime GoErrors Http NetPacket Encoding Grpc.
From stdpp Require Import base gmap strings list fin_maps.
Open Scope string_scope.
Open Scope list_scope.
Open Scope Z_scope.

(** * [timeout] *)
Module timeout.

(** A context: its deadline, and the moment it is cancelled at, if it is. *)
Record Ctx := mkCtx { Deadline : option Z; cancelled_at : option Z }.

(** [ctx.Err()] at a moment. *)
Definition ctx_Err (ctx : Ctx) (now : Z) : option error :=
  match cancelled_at ctx, Deadline ctx with
  | Some c, Some d => if (c <=? now) && (c <=? d) then Some Canceled else if d <=? now then Some DeadlineExceeded
                      else if c <=? now then Some Canceled else None
  | Some c, None => if c <=? now then Some Canceled else None
  | None, Some d => if d <=? now then Some DeadlineExceeded else None
  | None, None => None
  end.

(** [context.WithTimeout(ctx, d)] of a context without a deadline. *)
Definition WithTimeout (ctx : Ctx) (now : Z) (d : Duration) : Ctx := mkCtx (Some (now + d)) (cancelled_at ctx).

(** The effect of the deferred [cancel()] at the moment the interceptor returns. *)
Definition cancel (ctx : Ctx) (now : Z) : Ctx :=
  mkCtx (Deadline ctx) (Some (match cancelled_at ctx with Some c => Z.min c now | None => now end)).

(** The guard all four interceptors share: skipped, called with the context
    unchanged, or with a timeout added. *)
Inductive choice := Skip | Keep (ctx : Ctx) | Timed (ctx : Ctx).

Definition choose (defaultTimeout : Duration) (skipFunc : option (string -> bool)) (method : string) (ctx : Ctx) (now : Z) : choice :=
  if match skipFunc with Some f => f method | None => false end then Skip
  else match Deadline ctx with
       | None => if 0 <? defaultTimeout then Timed (WithTimeout ctx now defaultTimeout) else Keep ctx
       | Some _ => Keep ctx
       end.

Section interceptors.
Context (defaultTimeout : Duration) (skipFunc : option (string -> bool)).

(** [func UnaryServerInterceptor]: the handler's result and the moment it returns. *)
Definition UnaryServerInterceptor {R} (handler : Ctx -> (option R * option error) * Z) (method : string) (ctx : Ctx) (now : Z) :
    option R * option error :=
  match choose defaultTimeout skipFunc method ctx now with
  | Skip => fst (handler ctx)
  | Keep ctx | Timed ctx =>
      let '((resp, err), t) := handler ctx in
      match err with
      | Some _ => (resp, err)
      | None =>
          match ctx_Err ctx t with
          | Some _ => (None, Some (StatusError codes.DeadlineExceeded "handler exceeded deadline"))
          | None => (resp, None)
          end
      end
  end.

(** [func StreamServerInterceptor]: the context of the stream given to the handler. *)
Definition StreamServerInterceptor (handler : Ctx -> option error) (method : string) (ctx : Ctx) (now : Z) : option error :=
  match choose defaultTimeout skipFunc method ctx now with
  | Skip => handler ctx
  | Keep ctx | Timed ctx => handler ctx
  end.

(** [func UnaryClientInterceptor] *)
Definition UnaryClientInterceptor (invoker : Ctx -> option error) (method : string) (ctx : Ctx) (now : Z) : option error :=
  match choose defaultTimeout skipFunc method ctx now with
  | Skip => invoker ctx
  | Keep ctx | Timed ctx => invoker ctx
  end.

(** [func StreamClientInterceptor]: the stream, and the context it lives in once
    the interceptor has returned, at [t]; the deferred [cancel] has run by then. *)
Definition StreamClientInterceptor {S} (streamer : Ctx -> (option S * option error) * Z) (method : string) (ctx : Ctx) (now : Z) :
    (option S * option error) * Ctx :=
  match choose defaultTimeout skipFunc method ctx now with
  | Skip => (fst (streamer ctx), ctx)
  | Keep ctx => (fst (streamer ctx), ctx)
  | Timed ctx => let '(res, t) := streamer ctx in (res, cancel ctx t)
  end.
End interceptors.
End timeout.

(** * [recovery] *)
Module recovery.
(** [func UnaryInterceptor]: [log] is what the configured logger does with a panic. *)
Definition UnaryInterceptor {R W} (log : bool -> W -> W) (logStack : bool) (handler : Go W (option R * option error)) :
    Go W (option R * option error) := fun w =>
  match handler w with
  | (Returned r, w) => (Returned r, w)
  | (Panicked, w) => (Returned (None, Some (StatusError codes.Internal "internal server error")), log logStack w)
  end.
(** [func StreamInterceptor] *)
Definition StreamInterceptor {W} (log : bool -> W -> W) (logStack : bool) (handler : Go W (option error)) : Go W (option error) := fun w =>
  match handler w with
  | (Returned r, w) => (Returned r, w)
  | (Panicked, w) => (Returned (Some (StatusError codes.Internal "internal server error")), log logStack w)
  end.
End recovery.

(** * [validate] *)
Module validate.
Section validate.
(** Messages: [v.( Validator)] with its [Validate] method, and the [%T] name. *)
Context {V : Type} (Validate : V -> option (option error)) (typeName : V -> string) (err_text : error -> string).

Record options := mkOptions { customValidators : gmap string (V -> option error); skipMethods : gset string }.
Definition WithValidator (name : string) (fn : V -> option error) : options -> options := fun o =>
  mkOptions (<[name := fn]> (customValidators o)) (skipMethods o).
Definition WithSkipMethod (methods : list string) : options -> options := fun o =>
  mkOptions (customValidators o) (skipMethods o ∪ list_to_set methods).

(** [func validateMessage(req any, cfg *options) error] *)
Definition validateMessage (req : V) (cfg : options) : option error :=
  match Validate req with
  | Some err => err
  | None =>
      match customValidators cfg !! typeName req with
      | Some fn => fn req
      | None => None
      end
  end.

(** [func UnaryServerInterceptor] *)
Definition UnaryServerInterceptor {R} (cfg : options) (handler : V -> option R * option error) (method : string) (req : V) :
    option R * option error :=
  if bool_decide (method ∈ skipMethods cfg) then handler req
  else
    match validateMessage req cfg with
    | Some err => (None, Some (StatusError codes.InvalidArgument (err_text err)))
    | None => handler req
    end.

(** [func (s *validatingStream) RecvMsg(m any) error], on what the stream received. *)
Definition RecvMsg (cfg : options) (recv : V + error) : V + error :=
  match recv with
  | inr err => inr err
  | inl m =>
      match validateMessage m cfg with
      | Some err => inr (StatusError codes.InvalidArgument (err_text err))
      | None => inl m
      end
  end.
End validate.
End validate.

(** * [codec] *)
Module codec.
(** [type grpcCodec struct] around an [encoding.Codec]. *)
Definition WrapCodec {V} (c : option (Codec V)) : option (Codec V) :=
  match c with
  | None => None
  | Some c => Some (mkCodec (codec_Marshal c) (codec_Unmarshal c) (ToLower (codec_Name c)))
  end.

(** [func RegisterByName(names ...string) []string]: gRPC's own registry is keyed by
    the lower-cased name. *)
Fixpoint RegisterByName {V} (names : list string) (cs : codecs V) (grpc_registry : codecs V) : list string * codecs V :=
  match names with
  | [] => ([], grpc_registry)
  | name :: names' =>
      match WrapCodec (GetCodec name cs) with
      | None => RegisterByName names' cs grpc_registry
      | Some c =>
          let '(registered, g) := RegisterByName names' cs (<[codec_Name c := c]> grpc_registry) in
          (codec_Name c :: registered, g)
      end
  end.
End codec.

(** * Properties *)
Import timeout.

(** An interceptor with a positive default gives every call it does not
    skip a deadline: the caller's own when there is one, never extended, else the
    default one; and the server side never reports success for a call that
    finished at or after its deadline, while a handler's own error is passed on
    unchanged. *)
Theorem grpc_timeout {R} (d : Duration) skip (handler : Ctx -> (option R * option error) * Z) method ctx now :
  0 < d -> match skip with Some f => f method = false | None => True end ->
  exists ctx' dl, Deadline ctx' = Some dl /\ cancelled_at ctx' = cancelled_at ctx /\
    dl = default (now + d) (Deadline ctx) /\
    let '((resp, err), t) := handler ctx' in
    UnaryServerInterceptor d skip handler method ctx now =
      match err with
      | Some _ => (resp, err)
      | None => if ctx_Err ctx' t then (None, Some (StatusError codes.DeadlineExceeded "handler exceeded deadline")) else (resp, None)
      end /\
    (dl <= t -> snd (UnaryServerInterceptor d skip handler method ctx now) <> None).
Proof.
  intros Hd Hskip.
  assert (match skip with Some f => f method | None => false end = false) as Es by (by destruct skip).
  assert (exists ctx' dl, (choose d skip method ctx now = Keep ctx' \/ choose d skip method ctx now = Timed ctx') /\
    Deadline ctx' = Some dl /\ cancelled_at ctx' = cancelled_at ctx /\ dl = default (now + d) (Deadline ctx)) as (ctx'&dl&Hch&Hdl&Hc&Hv).
  { unfold choose. rewrite Es. destruct (Deadline ctx) as [dl|] eqn:E.
    - exists ctx, dl. auto.
    - replace (0 <? d) with true by (symmetry; apply Z.ltb_lt; lia). exists (WithTimeout ctx now d), (now + d). auto. }
  exists ctx', dl. split_and!; auto.
  assert (UnaryServerInterceptor d skip handler method ctx now =
    let '((resp, err), t) := handler ctx' in
    match err with Some _ => (resp, err) | None => if ctx_Err ctx' t then (None, Some (StatusError codes.DeadlineExceeded "handler exceeded deadline")) else (resp, None) end) as E.
  { unfold UnaryServerInterceptor. destruct Hch as [-> | ->]; destruct (handler ctx') as [[resp [err|]] t]; try done; by destruct (ctx_Err ctx' t). }
  rewrite E. destruct (handler ctx') as [[resp [err|]] t]; [done|]. split; [done|]. intros Ht.
  unfold ctx_Err. rewrite Hdl. destruct (cancelled_at ctx') as [c|].
  - destruct (Z.leb_spec c t), (Z.leb_spec c dl), (Z.leb_spec dl t); simpl; try done; lia.
  - destruct (Z.leb_spec dl t); [done|lia].
Qed.

(** A client stream to which the interceptor added the default timeout is
    handed to the caller with its context already cancelled: the deferred
    [cancel] runs when the interceptor returns, not when the stream ends. *)
Theorem grpc_stream_cancelled {S} (d : Duration) skip (streamer : Ctx -> (option S * option error) * Z) method ctx now :
  0 < d -> match skip with Some f => f method = false | None => True end -> Deadline ctx = None ->
  let '(_, sctx) := StreamClientInterceptor d skip streamer method ctx now in
  let t := snd (streamer (WithTimeout ctx now d)) in
  forall later, t <= later -> ctx_Err sctx later <> None.
Proof.
  intros Hd Hskip Hn.
  assert (match skip with Some f => f method | None => false end = false) as Es by (by destruct skip).
  unfold StreamClientInterceptor, choose. rewrite Es, Hn. replace (0 <? d) with true by (symmetry; apply Z.ltb_lt; lia).
  destruct (streamer (WithTimeout ctx now d)) as [res t]. simpl. intros later Hl. unfold ctx_Err, cancel, WithTimeout. simpl.
  set (c := match cancelled_at ctx with Some c => Z.min c t | None => t end).
  assert (c <= later) by (unfold c; destruct (cancelled_at ctx); lia).
  destruct (Z.leb_spec c later); [|lia]. simpl. repeat case_match; done.
Qed.

Lemma grpc_timeout_witness :
  let handler : Ctx -> (option nat * option error) * Z := fun _ => ((Some 1%nat, None), 30) in
  UnaryServerInterceptor 20 None handler "/svc/M" (mkCtx None None) 5 =
    (None, Some (StatusError codes.DeadlineExceeded "handler exceeded deadline")).
Proof.
  intros handler.
  destruct (grpc_timeout 20 None handler "/svc/M" (mkCtx None None) 5 ltac:(lia) I) as (ctx'&dl&Hdl&Hc&Hv&H).
  simpl in H, Hv. destruct H as [E _]. rewrite E. unfold ctx_Err. rewrite Hdl, Hc, Hv. reflexivity.
Defined.

Lemma grpc_stream_cancelled_witness :
  let streamer : Ctx -> (option nat * option error) * Z := fun _ => ((Some 1%nat, None), 6) in
  let '(res, sctx) := StreamClientInterceptor 1000 None streamer "/svc/S" (mkCtx None None) 5 in
  res = (Some 1%nat, None) /\ ctx_Err sctx 7 <> None.
Proof.
  intros streamer. split; [reflexivity|].
  exact (grpc_stream_cancelled 1000 None streamer "/svc/S" (mkCtx None None) 5 ltac:(lia) I eq_refl 7 ltac:(simpl; lia)).
Defined.

(** A panic never leaves the recovery interceptors; a result that returns is
    unchanged. *)
Lemma recovery_total {R W} (log : bool -> W -> W) b (handler : Go W (option R * option error)) w :
  exists r, fst (recovery.UnaryInterceptor log b handler w) = Returned r /\
    match fst (handler w) with
    | Returned r0 => r = r0
    | Panicked => r = (None, Some (StatusError codes.Internal "internal server error"))
    end.
Proof. unfold recovery.UnaryInterceptor. destruct (handler w) as [[r|] w']; simpl; eauto. Qed.

(** The handler never sees a message its validation refuses, unless its method is
    skipped; streams have no skipped methods. *)
Lemma validate_guards {V R} Validate typeName err_text cfg (handler : V -> option R * option error) method req err :
  validate.validateMessage Validate typeName req cfg = Some err ->
  (method ∉ validate.skipMethods cfg ->
     validate.UnaryServerInterceptor Validate typeName err_text cfg handler method req =
       (None, Some (StatusError codes.InvalidArgument (err_text err)))) /\
  validate.RecvMsg Validate typeName err_text cfg (inl req) = inr (StatusError codes.InvalidArgument (err_text err)).
Proof.
  intros E. unfold validate.UnaryServerInterceptor, validate.RecvMsg. rewrite E. split; [|done].
  intros Hn. by rewrite bool_decide_eq_false_2.
Qed.
