(* ===== verification/GrpcObserve.v ===== *)
(** [transport/grpc/middleware/logging], [metrics] and [tracing]: the interceptors
    that observe calls, a module each, on the loggers, sinks and tracers of
    [HttpObserve].

    A handler, invoker or streamer is a computation on the world; its value is a
    response or a stream (nil is [None]) and an error. *)
From Stdlib Require Import ZArith Lia Ascii.
From S2P Require Import Prelude Float64 GoTime GoErrors GoStrings Http NetPacket Encoding Grpc Metrics HttpObserve.
From stdpp Require Import base gmap strings list fin_maps.
Open Scope string_scope.
Open Scope list_scope.
Open Scope Z_scope.

Definition go_Now {W} `{Runtime W} : Go W Time := fun w => let '(t, w) := time_Now w in (Returned t, w).

(** A computation beside a state it has no part in. *)
Definition go_beside {W J A} (m : Go W A) : Go (W * J) A := fun '(w, j) => let '(r, w) := m w in (r, (w, j)).

(** * [logging] *)
Module logging.
Section interceptors.
Context {C W : Type} `{Runtime W} `{GrpcLib} (error_text : error -> string).

Record options := mkOptions { logger : Logger C W; skipMethods : gset string }.
Definition WithLogger (l : Logger C W) : options -> options := fun o => mkOptions l (skipMethods o).
Definition WithSkipMethods (methods : list string) : options -> options := fun o => mkOptions (logger o) (skipMethods o ∪ list_to_set methods).

(** [level := log.LevelInfo; if err != nil { ... }] *)
Definition level_of (err : option error) : Level :=
  match err with
  | None => LevelInfo
  | Some e =>
      let '(st, _) := status_FromError e in
      if codes.Internal <=? fst st then LevelError else if codes.NotFound <=? fst st then LevelWarn else LevelInfo
  end.
(** [if err != nil { args = append(args, ...) } else { ... }] *)
Definition result_args (err : option error) : list (string * arg) :=
  match err with
  | Some e => [("code", AStr (code_String (fst (fst (status_FromError e))))); ("error", AStr (error_text e))]
  | None => [("code", AStr (code_String codes.OK))]
  end.

(** The text the interceptors share: [args] are those before the latency, [err_of] the
    error of the call's value. *)
Definition logged {A} (cfg : options) (method : string) (ctx : C) (msg : string) (args : list (string * arg))
    (err_of : A -> option error) (m : Go W A) : Go W A :=
  if decide (method ∈ skipMethods cfg) then m
  else
    start ← go_Now;
    x ← m;
    now ← go_Now;
    logAt (logger cfg) (level_of (err_of x)) ctx msg
      (args ++ [("latency_ms", AInt (Milliseconds (time_sub now start)))] ++ result_args (err_of x)) ;;
    mret x.

Context (default : Logger C W) (opts : list (options -> options)).
Definition cfg : options := apply_opts opts (mkOptions default ∅).

(** [func UnaryInterceptor(opts ...Option) grpc.UnaryServerInterceptor] *)
Definition UnaryInterceptor {R} (fullMethod : string) (ctx : C) (handler : Go W (option R * option error)) : Go W (option R * option error) :=
  logged cfg fullMethod ctx "grpc unary rpc" [("method", AStr fullMethod)] snd handler.

(** [func StreamInterceptor(opts ...Option) grpc.StreamServerInterceptor] *)
Definition StreamInterceptor (fullMethod : string) (isClientStream isServerStream : bool) (ctx : C) (handler : Go W (option error)) : Go W (option error) :=
  logged cfg fullMethod ctx "grpc stream rpc"
    [("method", AStr fullMethod); ("client_stream", ABool isClientStream); ("server_stream", ABool isServerStream)] id handler.

(** [func UnaryClientInterceptor(opts ...Option) grpc.UnaryClientInterceptor] *)
Definition UnaryClientInterceptor (method target : string) (ctx : C) (invoker : Go W (option error)) : Go W (option error) :=
  logged cfg method ctx "grpc unary client rpc" [("method", AStr method); ("target", AStr target)] id invoker.

(** [func StreamClientInterceptor(opts ...Option) grpc.StreamClientInterceptor] *)
Definition StreamClientInterceptor {St} (method target : string) (clientStreams serverStreams : bool) (ctx : C)
    (streamer : Go W (option St * option error)) : Go W (option St * option error) :=
  logged cfg method ctx "grpc stream client rpc"
    [("method", AStr method); ("target", AStr target); ("client_stream", ABool clientStreams); ("server_stream", ABool serverStreams)] snd streamer.
End interceptors.

(** A logger that keeps its records. *)
Abbreviation logs W := (W * list (Level * string * list (string * arg)))%type.
Definition keep {C W} (level : Level) (_ : C) (msg : string) (args : list (string * arg)) : Go (logs W) unit :=
  go_modify (fun '(w, j) => (w, j ++ [(level, msg, args)])).
Definition keeper {C W} : Logger C (logs W) := mkLogger (keep LevelDebug) (keep LevelInfo) (keep LevelWarn) (keep LevelError).

Section properties.
Context {C W : Type} `{Runtime W} `{GrpcLib} (error_text : error -> string).

Lemma logAt_keeper level (ctx : C) msg args (w : W) j : logAt keeper level ctx msg args (w, j) = (Returned tt, (w, j ++ [(level, msg, args)])).
Proof. by destruct level. Qed.

(** The value of a call goes through, and one record is made of it; a panic leaves no
    record. *)
Lemma logged_once {A} skip method (ctx : C) msg args err_of (m : Go W A) w j :
  method ∉ skip ->
  let '(start, w0) := time_Now w in
  let '(r, w1) := m w0 in
  logged error_text (mkOptions keeper skip) method ctx msg args err_of (go_beside m) (w, j) =
    match r with
    | Panicked => (Panicked, (w1, j))
    | Returned x =>
        let '(now, w2) := time_Now w1 in
        (Returned x, (w2, j ++ [(level_of (err_of x), msg, args ++ [("latency_ms", AInt (Milliseconds (time_sub now start)))] ++ result_args error_text (err_of x))]))
    end.
Proof.
  intros Hs. unfold logged. rewrite decide_False by done. unfold mbind, Go_bind, go_Now, go_beside. cbn.
  destruct (time_Now w) as [start w0]. destruct (m w0) as [[x|] w1]; [|done]. destruct (time_Now w1) as [now w2].
  cbn [logger]. by rewrite logAt_keeper.
Qed.

(** A server's unary call through the logging interceptor: its response and error go
    through unchanged, with one record, whose level is error from [Internal] on,
    warning from [NotFound] on, and else info. *)
Theorem grpc_logging {R} opts method (ctx : C) (handler : Go W (option R * option error)) w j :
  method ∉ skipMethods (cfg keeper opts) -> logger (cfg keeper opts) = keeper ->
  let '(start, w0) := time_Now w in
  let '(r, w1) := handler w0 in
  UnaryInterceptor error_text keeper opts method ctx (go_beside handler) (w, j) =
    match r with
    | Panicked => (Panicked, (w1, j))
    | Returned (resp, err) =>
        let '(now, w2) := time_Now w1 in
        (Returned (resp, err), (w2, j ++ [(level_of err, "grpc unary rpc",
          [("method", AStr method); ("latency_ms", AInt (Milliseconds (time_sub now start)))] ++ result_args error_text err)]))
    end.
Proof.
  intros Hs Hl. unfold UnaryInterceptor. destruct (cfg keeper opts) as [lg skip]. simpl in Hs, Hl. subst lg.
  pose proof (logged_once skip method ctx "grpc unary rpc" [("method", AStr method)] snd handler w j Hs) as Hlog.
  destruct (time_Now w) as [start w0]. destruct (handler w0) as [[[resp err]|] w1]; [|done]. by destruct (time_Now w1).
Qed.

(** An application error, or any other without a status, is logged as information. *)
Lemma plain_errors_are_info `{!GrpcLaws} e : level_of (Some (AppError e)) = LevelInfo.
Proof.
  unfold level_of. pose proof (FromError_app e) as [_ Hc]. destruct (status_FromError (AppError e)) as [st ok]. simpl in Hc. by rewrite Hc.
Qed.
End properties.
End logging.

(** * [metrics] *)

(** [func serviceFromMethod(fullMethod string) string], of [metrics] and [tracing] *)
Definition serviceFromMethod (fullMethod : string) : string :=
  let parts := Split fullMethod "/" in
  if (2 <=? length parts)%nat then default "" (parts !! (length parts - 2)%nat) else fullMethod.

Module metrics.
Record options := mkOptions {
  requestCounter : string;
  latencyHistogram : string;
  inFlightGauge : string;
  labelFunc : string -> option error -> labels_t;
  skipFunc : option (string -> bool)
}.
Definition WithRequestCounterName (n : string) : options -> options := fun o => mkOptions n (latencyHistogram o) (inFlightGauge o) (labelFunc o) (skipFunc o).
Definition WithLatencyHistogramName (n : string) : options -> options := fun o => mkOptions (requestCounter o) n (inFlightGauge o) (labelFunc o) (skipFunc o).
Definition WithInFlightGaugeName (n : string) : options -> options := fun o => mkOptions (requestCounter o) (latencyHistogram o) n (labelFunc o) (skipFunc o).
Definition WithLabelFunc (f : string -> option error -> labels_t) : options -> options := fun o => mkOptions (requestCounter o) (latencyHistogram o) (inFlightGauge o) f (skipFunc o).
Definition WithSkipFunc (f : string -> bool) : options -> options := fun o => mkOptions (requestCounter o) (latencyHistogram o) (inFlightGauge o) (labelFunc o) (Some f).

Section interceptors.
Context {C W : Type} `{Runtime W} `{GrpcLib}.

(** [func defaultLabels(method string, err error) map[string]string] *)
Definition defaultLabels (method : string) (err : option error) : labels_t :=
  let code := match err with Some e => code_String (fst (fst (status_FromError e))) | None => code_String codes.OK end in
  {["method" := method; "service" := serviceFromMethod method; "code" := code]}.

(** [func newConfig(opts []Option) *options] *)
Definition newConfig (opts : list (options -> options)) : options :=
  apply_opts opts (mkOptions "grpc_requests_total" "grpc_request_duration_seconds" "grpc_requests_in_flight" defaultLabels None).

Definition skips (cfg : options) (method : string) : bool := match skipFunc cfg with Some f => f method | None => false end.

(** The text that all but the last interceptor share. *)
Definition measured {A} (m : Metrics C W) (cfg : options) (method : string) (ctx : C) (err_of : A -> option error) (call : Go W A) : Go W A :=
  if skips cfg method then call
  else
    let labels := labelFunc cfg method None in
    Gauge m ctx (inFlightGauge cfg) (f_of_Z 1) labels ;;
    go_deferred
      (start ← go_Now;
       x ← call;
       now ← go_Now;
       let labels := labelFunc cfg method (err_of x) in
       Counter m ctx (requestCounter cfg) (f_of_Z 1) labels ;;
       Histogram m ctx (latencyHistogram cfg) (Seconds (time_sub now start)) labels ;;
       mret x)
      (Gauge m ctx (inFlightGauge cfg) (f_of_Z 0) labels).

Context (m : Metrics C W) (opts : list (options -> options)).

(** [func UnaryServerInterceptor], [StreamServerInterceptor], [UnaryClientInterceptor] *)
Definition UnaryServerInterceptor {R} (fullMethod : string) (ctx : C) (handler : Go W (option R * option error)) : Go W (option R * option error) :=
  measured m (newConfig opts) fullMethod ctx snd handler.
Definition StreamServerInterceptor (fullMethod : string) (ctx : C) (handler : Go W (option error)) : Go W (option error) :=
  measured m (newConfig opts) fullMethod ctx id handler.
Definition UnaryClientInterceptor (method : string) (ctx : C) (invoker : Go W (option error)) : Go W (option error) :=
  measured m (newConfig opts) method ctx id invoker.

(** [func StreamClientInterceptor(m metrics.Metrics, opts ...Option)] *)
Definition StreamClientInterceptor {St} (method : string) (ctx : C) (streamer : Go W (option St * option error)) : Go W (option St * option error) :=
  let cfg := newConfig opts in
  if skips cfg method then streamer
  else
    Gauge m ctx (inFlightGauge cfg) (f_of_Z 1) (labelFunc cfg method None) ;;
    start ← go_Now;
    x ← streamer;
    match snd x with
    | None => mret x
    | Some err =>
        now ← go_Now;
        let labels := labelFunc cfg method (Some err) in
        Counter m ctx (requestCounter cfg) (f_of_Z 1) labels ;;
        Histogram m ctx (latencyHistogram cfg) (Seconds (time_sub now start)) labels ;;
        Gauge m ctx (inFlightGauge cfg) (f_of_Z 0) labels ;;
        mret x
    end.
End interceptors.

Section properties.
Context {C W : Type} `{Runtime W} `{GrpcLib}.
Import HttpObserve.metrics(journal).

(** The first three interceptors: the call's value goes through; the sink is told of
    the gauge, the call counted and timed under the labels of its error, and the
    gauge again; of a call that panics, only the gauge. *)
Theorem grpc_metrics {A} cfg method (ctx : C) err_of (call : Go W A) w j :
  skips cfg method = false ->
  let '(start, w0) := time_Now w in
  let '(r, w1) := call w0 in
  let up := (KGauge, inFlightGauge cfg, f_of_Z 1, labelFunc cfg method None) in
  let down := (KGauge, inFlightGauge cfg, f_of_Z 0, labelFunc cfg method None) in
  measured journal cfg method ctx err_of (go_beside call) (w, j) =
    match r with
    | Panicked => (Panicked, (w1, j ++ [up; down]))
    | Returned x =>
        let '(now, w2) := time_Now w1 in
        let labels := labelFunc cfg method (err_of x) in
        (Returned x, (w2, j ++ [up; (KCounter, requestCounter cfg, f_of_Z 1, labels);
          (KHistogram, latencyHistogram cfg, Seconds (time_sub now start), labels); down]))
    end.
Proof.
  intros Hs. unfold measured. rewrite Hs. unfold mbind, Go_bind, go_deferred, go_Now, go_beside. cbn -[f_of_Z Seconds].
  destruct (time_Now w) as [start w0]. destruct (call w0) as [[x|] w1]; cbn -[f_of_Z Seconds]; [|by rewrite <- app_assoc].
  destruct (time_Now w1) as [now w2]. cbn -[f_of_Z Seconds]. by rewrite <- !app_assoc.
Qed.

(** A client's stream that is opened is never counted, and sets the gauge to 1 for
    good; one that fails is counted, and sets the gauge to 0 under the labels of the
    failure, which are not those it was set to 1 under. *)
Theorem grpc_stream_client_metrics {St} opts method (ctx : C) (streamer : Go W (option St * option error)) w j :
  let cfg := newConfig opts in
  skips cfg method = false ->
  let '(start, w0) := time_Now w in
  let '(r, w1) := streamer w0 in
  let up := (KGauge, inFlightGauge cfg, f_of_Z 1, labelFunc cfg method None) in
  StreamClientInterceptor journal opts method ctx (go_beside streamer) (w, j) =
    match r with
    | Panicked => (Panicked, (w1, j ++ [up]))
    | Returned (st, None) => (Returned (st, None), (w1, j ++ [up]))
    | Returned (st, Some err) =>
        let '(now, w2) := time_Now w1 in
        let labels := labelFunc cfg method (Some err) in
        (Returned (st, Some err), (w2, j ++ [up; (KCounter, requestCounter cfg, f_of_Z 1, labels);
          (KHistogram, latencyHistogram cfg, Seconds (time_sub now start), labels); (KGauge, inFlightGauge cfg, f_of_Z 0, labels)]))
    end.
Proof.
  intros cfg Hs. unfold StreamClientInterceptor. fold cfg. rewrite Hs. unfold mbind, Go_bind, go_Now, go_beside. cbn -[f_of_Z Seconds].
  destruct (time_Now w) as [start w0]. destruct (streamer w0) as [[[st [err|]]|] w1]; cbn -[f_of_Z Seconds]; [|done|done].
  destruct (time_Now w1) as [now w2]. cbn -[f_of_Z Seconds]. by rewrite <- !app_assoc.
Qed.
End properties.
End metrics.

(** The service of a full method name. *)
Lemma serviceFromMethod_full svc name :
  lacks "/"%char svc = true -> lacks "/"%char name = true -> serviceFromMethod ("/" ++ svc ++ "/" ++ name) = svc.
Proof.
  intros Hs Hn. unfold serviceFromMethod.
  assert (Split ("/" ++ svc ++ "/" ++ name) "/" = [""; svc; name]) as ->; [|done].
  pose proof (cut_app "/"%char "" (svc ++ "/" ++ name)%string eq_refl) as Hc. change ("" ++ String "/" (svc ++ "/" ++ name))%string with ("/" ++ svc ++ "/" ++ name)%string in Hc.
  unfold Split at 1. cbn [split_fuel]. rewrite Hc. f_equal. apply (Split_two "/"%char svc name Hs Hn).
Qed.

(** * [tracing] *)
Module tracing.
Abbreviation MD := (gmap string (list string)).

(** The metadata of a context, and the context with other outgoing metadata. *)
Class MetaCtx (C : Type) := {
  FromIncomingContext : C -> option MD;
  FromOutgoingContext : C -> option MD;
  NewOutgoingContext : C -> MD -> C
}.

(** [type mdCarrier struct], over metadata: [Get], [Keys], [Set] *)
Definition mdCarrier_Get (md : MD) (key : string) : string :=
  match default [] (md !! ToLower key) with [] => "" | v :: _ => v end.
Definition mdCarrier_Keys (md : MD) : list string := (map_to_list md).*1.
Definition mdCarrier_Set (key value : string) (md : MD) : MD := <[ToLower key := [value]]> md.

Section interceptors.
Context {C Sp W : Type} `{MetaCtx C} `{GrpcLib}.

Record options := mkOptions { tracer : Tracer C Sp W; propagators : Propagator C }.
Definition WithTracer (t : Tracer C Sp W) : options -> options := fun o => mkOptions t (propagators o).
Definition WithPropagators (p : Propagator C) : options -> options := fun o => mkOptions (tracer o) p.

(** [func extractTrace], [func injectTrace] *)
Definition extractTrace (ctx : C) (p : Propagator C) : C :=
  match FromIncomingContext ctx with
  | None => ctx
  | Some md => Extract p ctx (mdCarrier_Get md) (mdCarrier_Keys md)
  end.
Definition injectTrace (ctx : C) (p : Propagator C) : C :=
  let md := default ∅ (FromOutgoingContext ctx) in
  NewOutgoingContext ctx (fold_left (fun md '(k, v) => mdCarrier_Set k v md) (Inject p ctx) md).

(** What the span gets of the call's error. *)
Definition span_result (t : Tracer C Sp W) (span : Sp) (err : option error) : Go W unit :=
  match err with
  | Some e =>
      let '(st, _) := status_FromError e in
      SetAttributes t span [("rpc.grpc.status", AStr (code_String (fst st)))] ;;
      if codes.Internal <=? fst st then SetError t span (snd st) else mret tt
  | None => SetAttributes t span [("rpc.grpc.status", AStr (code_String codes.OK))]
  end.

Definition rpc_attrs (method : string) : list (string * arg) :=
  [("rpc.system", AStr "grpc"); ("rpc.method", AStr method); ("rpc.service", AStr (serviceFromMethod method))].
Definition stream_attrs (method : string) (client server : bool) : list (string * arg) :=
  rpc_attrs method ++ [("rpc.grpc.client_stream", ABool client); ("rpc.grpc.server_stream", ABool server)].

(** A call within a span, in the span's context after [f]. *)
Definition spanned {A} (t : Tracer C Sp W) (ctx : C) (method : string) (k : SpanKind) (attrs : list (string * arg))
    (f : C -> C) (err_of : A -> option error) (call : C -> Go W A) : Go W A :=
  '(ctx, span) ← Start t ctx method k attrs;
  go_deferred (x ← call (f ctx); span_result t span (err_of x) ;; mret x) (End_ t span).

Context (global : options) (opts : list (options -> options)).
Definition cfg : options := apply_opts opts global.

(** [func UnaryInterceptor], [func StreamInterceptor] *)
Definition UnaryInterceptor {R} (fullMethod : string) (ctx : C) (handler : C -> Go W (option R * option error)) : Go W (option R * option error) :=
  spanned (tracer cfg) (extractTrace ctx (propagators cfg)) fullMethod SpanKindServer (rpc_attrs fullMethod) id snd handler.
Definition StreamInterceptor (fullMethod : string) (isClientStream isServerStream : bool) (ctx : C) (handler : C -> Go W (option error)) : Go W (option error) :=
  spanned (tracer cfg) (extractTrace ctx (propagators cfg)) fullMethod SpanKindServer
    (stream_attrs fullMethod isClientStream isServerStream) id id handler.

(** [func UnaryClientInterceptor] *)
Definition UnaryClientInterceptor (method : string) (ctx : C) (invoker : C -> Go W (option error)) : Go W (option error) :=
  spanned (tracer cfg) ctx method SpanKindClient (rpc_attrs method) (fun ctx => injectTrace ctx (propagators cfg)) id invoker.

(** [type tracedClientStream struct], with its [Header] and [CloseSend], given those of
    the stream *)
Record tracedClientStream (St : Type) := mkTraced { ClientStream : St; span : Sp }.
Arguments mkTraced {St}.
Arguments span {St}.
Definition stream_Header {St M} (s : tracedClientStream St) (inner : Go W (M * option error)) : Go W (M * option error) :=
  x ← inner;
  match snd x with
  | Some _ => span_result (tracer cfg) (span s) (snd x) ;; End_ (tracer cfg) (span s) ;; mret x
  | None => mret x
  end.
Definition stream_CloseSend {St} (s : tracedClientStream St) (inner : Go W (option error)) : Go W (option error) :=
  err ← inner;
  span_result (tracer cfg) (span s) None ;;
  End_ (tracer cfg) (span s) ;;
  mret err.

(** [func StreamClientInterceptor]: a stream that was opened is wrapped. *)
Definition StreamClientInterceptor {St} (method : string) (clientStreams serverStreams : bool) (ctx : C)
    (streamer : C -> Go W (option St * option error)) : Go W (option (St + tracedClientStream St) * option error) :=
  '(ctx, sp) ← Start (tracer cfg) ctx method SpanKindClient (stream_attrs method clientStreams serverStreams);
  let ctx := injectTrace ctx (propagators cfg) in
  '(stream, err) ← streamer ctx;
  match err with
  | Some _ => span_result (tracer cfg) sp err ;; End_ (tracer cfg) sp ;; mret (inl <$> stream, err)
  | None => mret ((fun s => inr (mkTraced s sp)) <$> stream, None)
  end.
End interceptors.

(** ** Properties *)

Section properties.
Context {C W : Type} `{MetaCtx C} `{GrpcLib} (mark : nat -> C -> C).
Abbreviation rec := (recorder (W := W) mark).

(** What is recorded of a call's error. *)
Definition result_events (id : nat) (err : option error) : list span_event :=
  match err with
  | Some e =>
      let '(st, _) := status_FromError e in
      EAttributes id [("rpc.grpc.status", AStr (code_String (fst st)))] ::
      (if codes.Internal <=? fst st then [EError id (snd st)] else [])
  | None => [EAttributes id [("rpc.grpc.status", AStr (code_String codes.OK))]]
  end.

Lemma span_result_events id err w es : span_result rec id err (w, es) = (Returned tt, (w, es ++ result_events id err)).
Proof.
  unfold span_result, result_events. destruct err as [e|]; [|done]. destruct (status_FromError e) as [st ok].
  unfold mbind, Go_bind. cbn -[Z.leb]. destruct (codes.Internal <=? fst st); [|done]. unfold trace_event, go_modify. by rewrite <- app_assoc.
Qed.

(** A call within a span: its value goes through; the span is ended once and last,
    whether the call returns or panics, and has the call's status; the call gets the
    span's context. *)
Theorem grpc_tracing {A} ctx method k attrs f err_of (call : C -> Go W A) w es :
  let id := length es in
  let '(r, w1) := call (f (mark id ctx)) w in
  spanned rec ctx method k attrs f err_of (fun c => go_beside (call c)) (w, es) =
    match r with
    | Panicked => (Panicked, (w1, es ++ [EStart id method k attrs; EEnd id]))
    | Returned x => (Returned x, (w1, es ++ EStart id method k attrs :: result_events id (err_of x) ++ [EEnd id]))
    end.
Proof.
  cbn. unfold spanned, mbind, Go_bind, go_deferred, go_beside. cbn. destruct (call (f (mark (length es) ctx)) w) as [[x|] w1].
  - rewrite span_result_events. cbn. by rewrite <- !app_assoc.
  - cbn. by rewrite <- app_assoc.
Qed.

(** The trace context of a client reaches the server: of the keys that its propagator
    injects, different in lower case, the server's carrier reads the values from the
    metadata the client sent. *)
Lemma fold_carrier pairs md : forall key value,
  NoDup (ToLower <$> pairs.*1) -> (key, value) ∈ pairs ->
  mdCarrier_Get (fold_left (fun md '(k, v) => mdCarrier_Set k v md) pairs md) key = value.
Proof.
  assert (forall pairs md key, ToLower key ∉ ToLower <$> pairs.*1 ->
    mdCarrier_Get (fold_left (fun md '(k, v) => mdCarrier_Set k v md) pairs md) key = mdCarrier_Get md key) as Hother.
  { clear. induction pairs as [|[k v] pairs IH]; intros md key Hn; [done|]. simpl in *. apply not_elem_of_cons in Hn as [H1 H2].
    rewrite IH by done. unfold mdCarrier_Get, mdCarrier_Set. by rewrite lookup_insert_ne. }
  revert md. induction pairs as [|[k v] pairs IH]; intros md key value Hnd Hin; [by apply elem_of_nil in Hin|].
  simpl in *. apply NoDup_cons in Hnd as [Hk Hnd]. apply elem_of_cons in Hin as [[= -> ->]|Hin]; [|by apply IH].
  rewrite Hother by done. unfold mdCarrier_Get, mdCarrier_Set. by rewrite lookup_insert_eq.
Qed.

Theorem grpc_trace_propagates ctx server_ctx (p : Propagator C) md key value :
  FromOutgoingContext (injectTrace ctx p) = Some md ->
  (forall m, FromOutgoingContext (NewOutgoingContext ctx m) = Some m) ->
  FromIncomingContext server_ctx = Some md ->
  NoDup (ToLower <$> (Inject p ctx).*1) -> (key, value) ∈ Inject p ctx ->
  exists get keys, extractTrace server_ctx p = Extract p server_ctx get keys /\ get key = value.
Proof.
  intros Hout Hlaw Hin Hnd Hkv. unfold injectTrace in Hout. rewrite Hlaw in Hout. injection Hout as <-.
  unfold extractTrace. rewrite Hin. eexists _, _. split; [done|]. by apply fold_carrier.
Qed.

(** A client's stream that was opened: its span is ended once by every failed [Header]
    and by every [CloseSend], and not otherwise. *)
Inductive stream_call := SHeader (err : option error) | SCloseSend (err : option error).
Definition stream_run (global : options (C := C) (Sp := nat) (W := traced W)) (s : tracedClientStream (Sp := nat) unit) (c : stream_call) : Go (traced W) unit :=
  match c with
  | SHeader err => stream_Header global [] s (mret (tt, err)) ;; mret tt
  | SCloseSend err => stream_CloseSend global [] s (mret err) ;; mret tt
  end.
Fixpoint stream_runs (global : options (C := C) (Sp := nat) (W := traced W)) (s : tracedClientStream (Sp := nat) unit) (cs : list stream_call) : Go (traced W) unit :=
  match cs with [] => mret tt | c :: cs' => stream_run global s c ;; stream_runs global s cs' end.
Definition ends (c : stream_call) : bool := match c with SHeader None => false | _ => true end.
Definition count_ends (id : nat) (es : list span_event) : nat := length (List.filter (is_end id) es).

Lemma count_ends_result id err : count_ends id (result_events id err) = 0%nat.
Proof. unfold result_events. destruct err as [e|]; [|done]. destruct (status_FromError e) as [st ok]. by destruct (codes.Internal <=? fst st). Qed.

Theorem grpc_stream_span_ends p st id cs w es :
  exists es', stream_runs (mkOptions rec p) (mkTraced unit st id) cs (w, es) = (Returned tt, (w, es')) /\
    count_ends id es' = (count_ends id es + length (List.filter ends cs))%nat.
Proof.
  revert es. induction cs as [|c cs IH]; intros es; [exists es; split; [done|simpl; lia]|].
  assert (exists es1, stream_run (mkOptions rec p) (mkTraced unit st id) c (w, es) = (Returned tt, (w, es1)) /\
    count_ends id es1 = (count_ends id es + if ends c then 1 else 0)%nat) as (es1&H1&H2).
  { assert (forall err, count_ends id ((es ++ result_events id err) ++ [EEnd id]) = (count_ends id es + 1)%nat) as Hone.
    { intros err. unfold count_ends. rewrite !List.filter_app, !length_app. simpl. rewrite Nat.eqb_refl.
      pose proof (count_ends_result id err) as Hz. unfold count_ends in Hz. rewrite Hz. simpl. lia. }
    destruct c as [[e|]|err]; unfold stream_run, stream_Header, stream_CloseSend, mbind, Go_bind; cbn -[span_result].
    - rewrite span_result_events. cbn -[result_events]. eauto.
    - exists es. split; [done|lia].
    - rewrite span_result_events. cbn -[result_events]. eauto. }
  destruct (IH es1) as (es'&H3&H4). exists es'. split.
  - cbn. unfold mbind, Go_bind. by rewrite H1.
  - rewrite H4, H2. simpl. destruct (ends c); simpl; lia.
Qed.
End properties.
End tracing.
