(* ===== verification/Crypto.v ===== *)
(** [security/crypto]: the registries of ciphers, hashers, signers and verifiers;
    [transport/http/middleware/crypto]: the middleware that decrypts requests and
    encrypts responses; [transport/grpc/middleware/crypto]: the encrypting codec.

    The ciphers are third-party code: a record of functions, with what a cipher
    promises as a law. *)
From Stdlib Require Import ZArith Lia Ascii.
From S2P Require Import Prelude GoErrors Http NetPacket Encoding.
From stdpp Require Import base gmap strings list fin_maps.
Open Scope list_scope.
Open Scope string_scope.

(** * [security/crypto/crypto.go] *)

(** The four registries have one text: values [A] with a name. *)
Section registry.
Context {A : Type} (Name : A -> string).

(** [func RegisterCipher], [RegisterHasher], [RegisterSigner], [RegisterVerifier] *)
Definition Register_ (c : option A) : Go (gmap string A) unit :=
  match c with
  | None => go_panic
  | Some c => let name := ToLower (Name c) in if String.eqb name "" then go_panic else go_modify <[name := c]>
  end.

(** [func GetCipher], [GetHasher], [GetSigner], [GetVerifier] *)
Definition Get_ (name : string) (m : gmap string A) : option A := if String.eqb name "" then None else m !! ToLower name.

(** A value registered is found under its name in any case, and every other name
    finds what it did. *)
Lemma crypto_registry c m name :
  Name c <> "" ->
  fst (Register_ (Some c) m) = Returned tt /\
  Get_ name (snd (Register_ (Some c) m)) =
    if decide (ToLower name = ToLower (Name c)) then Some c else Get_ name m.
Proof.
  intros Hc. unfold Register_, Get_. assert (ToLower (Name c) <> "") as Hl by (by rewrite ToLower_empty).
  apply String.eqb_neq in Hl as Hl'. rewrite Hl'. split; [done|]. simpl.
  destruct (String.eqb_spec name "") as [->|Hn].
  - simpl. rewrite decide_False by congruence. done.
  - case_decide as He; [rewrite He; apply lookup_insert_eq|apply lookup_insert_ne; congruence].
Qed.
End registry.

(** A [Cipher] on texts, and on the bytes of a codec. *)
Record Cipher := mkCipher {
  Encrypt : string -> string + error;
  Decrypt : string -> string + error;
  cipher_Name : string
}.
Definition RegisterCipher := Register_ cipher_Name.
Definition GetCipher := @Get_ Cipher.

(** What a cipher promises. *)
Definition cipher_ok (c : Cipher) : Prop := forall p, exists e, Encrypt c p = inl e /\ Decrypt c e = inl p.

(** * The HTTP middleware *)

Record options := mkOptions { skipFunc : option (Request -> bool); encryptResponse : bool; decryptRequest : bool }.
Definition WithSkipFunc (f : Request -> bool) : options -> options := fun o => mkOptions (Some f) (encryptResponse o) (decryptRequest o).
Definition WithEncryptResponse (b : bool) : options -> options := fun o => mkOptions (skipFunc o) b (decryptRequest o).
Definition WithDecryptRequest (b : bool) : options -> options := fun o => mkOptions (skipFunc o) (encryptResponse o) b.
Definition config (opts : list (options -> options)) : options := apply_opts opts (mkOptions None true true).

(** The calls of a handler on an [encryptingWriter]: writes are buffered, the rest
    goes through. *)
Fixpoint encrypting {A} (m : io A) (buf : string) : io (A * string) :=
  match m with
  | Ret a => Ret (a, buf)
  | HeaderMap f k => HeaderMap f (encrypting k buf)
  | HeaderGet k => HeaderGet (fun h => encrypting (k h) buf)
  | WriteHeader c k => WriteHeader c (encrypting k buf)
  | Write b k => encrypting (k (Z.of_nat (String.length b), None)) (buf ++ b)
  end.

(** [func (ew *encryptingWriter) flush()] *)
Definition flush (c : Cipher) (buf : string) : io unit :=
  if (String.length buf =? 0)%nat then Ret tt
  else
    match Encrypt c buf with
    | inr _ => Write buf (fun _ => Ret tt)
    | inl encrypted => Write encrypted (fun _ => Ret tt)
    end.

Section middleware.
Context {W : Type}.

(** [r.Body], nil or what reading it gives, and [r.ContentLength]. *)
Abbreviation BodyHandler := (option (string + error) -> Z -> Handler W).

(** [ew] around the next handler, and the flush if it returned. *)
Definition serve_encrypted (c : Cipher) (m : io (result unit * W)) : io (result unit * W) :=
  x ← encrypting m "";
  match fst (fst x) with
  | Returned _ => flush c (snd x) ;; mret (fst x)
  | Panicked => mret (fst x)
  end.

(** [func Middleware(cipher secCrypto.Cipher, opts ...Option) httpPlugin.Middleware].
    A body that was read and closed and found empty is left in place: [closed] is what
    reading it again gives, nothing or an error, as the server's body decides. *)
Definition Middleware (c : Cipher) (closed : string + error) (opts : list (options -> options)) (next : BodyHandler) : BodyHandler :=
  let cfg := config opts in
  fun b n r w =>
  if match skipFunc cfg with Some f => f r | None => false end then next b n r w
  else
    let pass b n := if encryptResponse cfg then serve_encrypted c (next b n r w) else next b n r w in
    if decryptRequest cfg then
      match b with
      | None => pass None n
      | Some (inr _) => serve w (http_Error "failed to read request body" 400)
      | Some (inl ciphertext) =>
          if (0 <? String.length ciphertext)%nat then
            match Decrypt c ciphertext with
            | inr _ => serve w (http_Error "failed to decrypt request body" 400)
            | inl plaintext => pass (Some (inl plaintext)) (Z.of_nat (String.length plaintext))
            end
          else pass (Some closed) n
      end
    else pass b n.

(** ** Properties *)

(** What a handler writes, with the results the encrypting writer gives it, and its
    result. *)
Fixpoint written {A} (m : io A) (h : Header) : A * string :=
  match m with
  | Ret a => (a, "")
  | HeaderMap f k => written k (f h)
  | HeaderGet k => written (k h) h
  | WriteHeader _ k => written k h
  | Write b k => let '(a, s) := written (k (Z.of_nat (String.length b), None)) h in (a, b ++ s)
  end.

Lemma live_WriteHeader code r : live (rw_WriteHeader code r) = live r /\ body (rw_WriteHeader code r) = body r.
Proof. unfold rw_WriteHeader. destruct (sent r); [done|]. by destruct (_ && _). Qed.

Lemma run_encrypting {A} (m : io A) : forall buf r,
  exists r', run (encrypting m buf) r = ((fst (written m (live r)), buf ++ snd (written m (live r))), r') /\ body r' = body r.
Proof.
  induction m as [a|f k IH|k IH|code k IH|b k IH]; intros buf r; cbn [encrypting run written].
  - exists r. by rewrite string_app_nil.
  - destruct (IH buf (mkResponse (f (live r)) (sent r) (body r))) as (r'&Hr&Hb). eauto.
  - destruct (IH (live r) buf r) as (r'&Hr&Hb). eauto.
  - destruct (live_WriteHeader code r) as [Hl Hb]. destruct (IH buf (rw_WriteHeader code r)) as (r'&Hr&Hb').
    rewrite Hl in Hr. exists r'. split; [done|congruence].
  - destruct (IH (Z.of_nat (String.length b), None) (buf ++ b) r) as (r'&Hr&Hb). exists r'. rewrite Hr.
    destruct (written (k (Z.of_nat (String.length b), None)) (live r)) as [a s]. simpl. by rewrite string_app_assoc.
Qed.

(** A request and its response through the middleware: when the client encrypts a
    body that is not empty, the handler gets the plain text and its length; and if it
    returns after writing something, under a status that allows a body, the client
    decrypts from the response exactly what the handler wrote, all its writes
    joined. *)
Theorem http_crypto_round_trip c closed opts (next : BodyHandler) n r w plain e :
  cipher_ok c -> match skipFunc (config opts) with Some f => f r | None => false end = false ->
  encryptResponse (config opts) = true -> decryptRequest (config opts) = true ->
  Encrypt c plain = inl e -> e <> "" ->
  let '((res, w'), out) := written (next (Some (inl plain)) (Z.of_nat (String.length plain)) r w) ∅ in
  res = Returned tt -> out <> "" -> (forall p, Encrypt c out = inl p -> p <> "") ->
  forall resp, run (Middleware c closed opts next (Some (inl e)) n r w) fresh_response = ((Returned tt, w'), resp) ->
    (forall code h, sent resp = Some (code, h) -> bodyAllowedForStatus code = true) ->
    Decrypt c (body resp) = inl out.
Proof.
  intros Hc Hskip He Hd Henc Hne. unfold Middleware. rewrite Hskip, He, Hd.
  assert (Decrypt c e = inl plain) as Hdec by (destruct (Hc plain) as (e'&H1&H2); congruence).
  assert ((0 <? String.length e)%nat = true) as -> by (destruct e; done). rewrite Hdec.
  destruct (written (next (Some (inl plain)) _ r w) ∅) as [[res w'] out] eqn:Ew.
  intros -> Hout Hpos resp. unfold serve_encrypted. rewrite run_bind.
  destruct (run_encrypting (next (Some (inl plain)) (Z.of_nat (String.length plain)) r w) "" fresh_response) as (r'&Hr&Hb).
  change (live fresh_response) with (∅ : Header) in Hr. rewrite Ew in Hr. rewrite Hr. cbn [fst snd]. rewrite run_bind.
  destruct (Hc out) as (p&Hp1&Hp2). unfold flush. change ("" ++ out) with out.
  assert ((String.length out =? 0)%nat = false) as -> by (destruct out; done). rewrite Hp1.
  specialize (Hpos p Hp1). cbn [run]. unfold rw_Write. assert (String.eqb p "" = false) as -> by (by apply String.eqb_neq).
  destruct (sent r') as [[code h]|] eqn:Es.
  - rewrite Es. destruct (bodyAllowedForStatus code) eqn:Eb; intros [= <-] Hallow.
    + simpl. rewrite Hb. simpl. done.
    + simpl in Hallow. specialize (Hallow code h Es). congruence.
  - unfold rw_WriteHeader. rewrite Es. cbn. intros [= <-] _. simpl. rewrite Hb. done.
Qed.
End middleware.

(** A handler whose length header was set for the plain text: the header is sent as
    it is, with an encrypted body of another length. *)
Definition doubling : Cipher := mkCipher (fun p => inl (p ++ p)) (fun e => inl (String.substring 0 (Nat.div2 (String.length e)) e)) "double".
Example length_header_stays :
  let h : option (string + error) -> Z -> Handler unit := fun _ _ _ w =>
    HeaderMap (header_Set "Content-Length" "2") (Write "ok" (fun _ => Ret (Returned tt, w))) in
  let '(_, resp) := run (Middleware doubling (inl "") [] h None 0%Z (mkRequest "GET" "/" ∅ []) tt) fresh_response in
  body resp = "okok" /\ header_Get "Content-Length" (live resp) = "2".
Proof. vm_compute. done. Qed.

(** When encryption fails the response goes out in plain text. *)
Example plaintext_on_failure :
  let failing := mkCipher (fun _ => inr (Errorf "no key")) (fun _ => inr (Errorf "no key")) "x" in
  let h : option (string + error) -> Z -> Handler unit := fun _ _ _ w => Write "secret" (fun _ => Ret (Returned tt, w)) in
  body (snd (run (Middleware failing (inl "") [] h None 0%Z (mkRequest "GET" "/" ∅ []) tt) fresh_response)) = "secret".
Proof. vm_compute. reflexivity. Qed.

Lemma substring_app (p q : string) : String.substring 0 (String.length p) (p ++ q) = p.
Proof.
  induction p as [|x p IH]; [by destruct q|]. change (String.length (String x p)) with (S (String.length p)).
  change (String x p ++ q) with (String x (p ++ q)). cbn [String.substring]. by rewrite IH.
Qed.
Lemma http_crypto_round_trip_witness :
  Decrypt doubling (body (snd (run (Middleware doubling (inl "") [] (fun b _ _ (w : unit) =>
    Write (match b with Some (inl s) => s ++ "!" | _ => "?" end) (fun _ => Ret (Returned tt, w)))
    (Some (inl "hihi")) 4%Z (mkRequest "GET" "/" ∅ []) tt) fresh_response))) = inl "hi!".
Proof.
  pose proof (http_crypto_round_trip doubling (inl "") [] (fun b _ _ (w : unit) =>
    Write (match b with Some (inl s) => s ++ "!" | _ => "?" end) (fun _ => Ret (Returned tt, w))) 4%Z (mkRequest "GET" "/" ∅ []) tt "hi" "hihi") as H.
  cbn [written] in H.
  eapply H; try reflexivity; try done.
  - intros p. exists (p ++ p). split; [done|]. simpl. rewrite string_length_app.
    replace (String.length p + String.length p)%nat with (2 * String.length p)%nat by lia.
    by rewrite Nat.div2_double, substring_app.
  - intros p [= <-]. done.
  - vm_compute. intros code h0 [= <- <-]. reflexivity.
Defined.

(** * The gRPC codec *)

(** A [Cipher] on bytes. *)
Record BytesCipher := mkBytesCipher { bEncrypt : bytes -> bytes + error; bDecrypt : bytes -> bytes + error; bName : string }.

(** [type EncryptedCodec struct] as the codec it implements: [Marshal], [Unmarshal]
    and [Name]. *)
Definition NewEncryptedCodec {V} (inner : Codec V) (c : BytesCipher) : Codec V :=
  mkCodec
    (fun v => match codec_Marshal inner v with inr err => inr err | inl plain => bEncrypt c plain end)
    (fun data v => match bDecrypt c data with inr err => (Some err, v) | inl plain => codec_Unmarshal inner plain v end)
    (ToLower (bName c ++ "-" ++ codec_Name inner)).

(** A codec that decodes what it encodes still does under encryption, and an error of
    the inner codec or of the cipher is passed on. *)
Lemma grpc_crypto_codec {V} (inner : Codec V) (c : BytesCipher) v target plain :
  (forall p, exists e, bEncrypt c p = inl e /\ bDecrypt c e = inl p) ->
  codec_Marshal inner v = inl plain -> codec_Unmarshal inner plain target = (None, v) ->
  exists data, codec_Marshal (NewEncryptedCodec inner c) v = inl data /\
    codec_Unmarshal (NewEncryptedCodec inner c) data target = (None, v).
Proof. intros Hc Hm Hu. destruct (Hc plain) as (e&H1&H2). exists e. simpl. by rewrite Hm, H2. Qed.
