(* ===== verification/BrokerCodec.v ===== *)
(** [broker], bodies and handlers: [encoding.go], [event.go], [publish.go],
    [typed_handler.go], [broker.go], and the protobuf codec of
    [encoding/proto/proto.go], which the drivers combine with them. *)
From Stdlib Require Import ZArith Lia Ascii.
From S2P Require Import Prelude GoErrors NetPacket Encoding Broker.
From stdpp Require Import base gmap strings list fin_maps.
Open Scope string_scope.
Open Scope list_scope.
Open Scope Z_scope.

(** * Dynamic values *)

(** The values a broker handles besides strings: byte slices, pointers to and
    values of an application type [T], values of another type (by its name), and
    a pointer to an interface variable holding a value. *)
Inductive gv (T : Type) :=
| GBytes (b : bytes)
| GPtr (t : T)
| GVal (t : T)
| GOther (type_name : string)
| GPtrAny (v : gv T).
Arguments GBytes {T}.
Arguments GPtr {T}.
Arguments GVal {T}.
Arguments GOther {T}.
Arguments GPtrAny {T}.

Abbreviation value T := (any (A := gv T)).

(** [%T] of a value, [T]'s name being a parameter. *)
Fixpoint type_text {T} (name : string) (v : gv T) : string :=
  match v with
  | GBytes _ => "[]uint8"
  | GPtr _ => "*" ++ name
  | GVal _ => name
  | GOther t => t
  | GPtrAny _ => "*interface {}"
  end.

Section codec.
Context {T : Type} (name : string).

(** * [encoding/proto/proto.go] *)

(** [v.( proto.Message)]: the generated types implement it on their pointers; a
    pointer to an interface variable implements nothing. *)
Definition as_proto (v : value T) : option T :=
  match v with
  | AValue (GPtr t) => Some t
  | _ => None
  end.

Definition value_text (v : value T) : string :=
  match v with
  | AString _ => "string"
  | AValue a => type_text name a
  end.

(** [proto.Marshal] and [proto.Unmarshal] are the protobuf library's. *)
Definition proto_codec (proto_Marshal : T -> bytes + error) (proto_Unmarshal : bytes -> T -> option error * T) : Codec (value T) :=
  mkCodec
    (fun v =>
      match as_proto v with
      | None => inr (Errorf ("proto: failed to marshal " ++ value_text v ++ " — not a proto.Message"))
      | Some m => proto_Marshal m
      end)
    (fun data v =>
      match as_proto v with
      | None => (Some (Errorf ("proto: failed to unmarshal into " ++ value_text v ++ " — not a proto.Message")), v)
      | Some m => let '(err, m') := proto_Unmarshal data m in (err, AValue (GPtr m'))
      end)
    "proto".

(** * [broker/encoding.go] *)

(** [encoding/gob], used without a codec. *)
Context (gob_Encode : value T -> bytes + error) (gob_Decode : bytes -> value T -> option error * value T).

(** [func Marshal(codec encoding.Codec, msg any) ([]byte, error)] *)
Definition Marshal (codec : option (Codec (value T))) (msg : option (value T)) : bytes + error :=
  match msg with
  | None => inr (Errorf "message is nil")
  | Some m =>
      match codec with
      | Some c => codec_Marshal c m
      | None =>
          match m with
          | AValue (GBytes t) => inl t
          | AString t => inl (String.list_ascii_of_string t)
          | _ => gob_Encode m
          end
      end
  end.

(** The target of [Unmarshal]: a [*[]byte], a [*string], or another pointer. *)
Inductive target := TBytes (b : bytes) | TString (s : string) | TPtr (v : value T).

(** [func Unmarshal(codec encoding.Codec, inputData []byte, outValue any) error];
    a nil slice and a nil target are [None]. *)
Definition Unmarshal (codec : option (Codec (value T))) (inputData : option bytes) (outValue : option target) :
    option error * option target :=
  match inputData, outValue with
  | None, _ => (Some (Errorf "inputData is nil"), outValue)
  | _, None => (Some (Errorf "outValue is nil; must be a pointer to the target value"), None)
  | Some data, Some out =>
      match codec, out with
      | Some c, TPtr v => let '(err, v') := codec_Unmarshal c data v in (err, Some (TPtr v'))
      | Some c, TBytes _ => let '(err, v') := codec_Unmarshal c data (AValue (GOther "*[]uint8")) in (err, Some (TPtr v'))
      | Some c, TString _ => let '(err, v') := codec_Unmarshal c data (AValue (GOther "*string")) in (err, Some (TPtr v'))
      | None, TBytes _ => (None, Some (TBytes data))
      | None, TString _ => (None, Some (TString (String.string_of_list_ascii data)))
      | None, TPtr v => let '(err, v') := gob_Decode data v in (err, Some (TPtr v'))
      end
  end.

(** The idiom of every driver's subscriber: [bm.Body = binder()] and
    [broker.Unmarshal(codec, data, &bm.Body)], a pointer to the interface
    variable.  [None] when [binder] is nil: the body is the raw data. *)
Definition decode_body (codec : option (Codec (value T))) (binder : option (unit -> gv T)) (data : bytes) : value T + error :=
  match binder with
  | None => inl (AValue (GBytes data))
  | Some b =>
      match Unmarshal codec (Some data) (Some (TPtr (AValue (GPtrAny (b tt))))) with
      | (Some err, _) => inr err
      | (None, Some (TPtr (AValue (GPtrAny v)))) => inl (AValue v)
      | (None, Some (TPtr v)) => inl v
      | (None, Some (TBytes b)) => inl (AValue (GBytes b))
      | (None, Some (TString s)) => inl (AString s)
      | (None, None) => inr (Errorf "outValue is nil; must be a pointer to the target value")
      end
  end.

(** * Handlers: [event.go], [typed_handler.go], [broker.go] *)

(** [type Event interface], as the handlers read it. *)
Record Event := mkEvent { evt_Topic : string; evt_Message : option (Message (A := gv T)) }.

Context {C : Type}.
Abbreviation Handler := (C -> option Event -> option error).
Abbreviation TypedHandler := (C -> string -> option Headers -> T -> option error).

(** [func TypedToEventHandler[T any](h TypedHandler[T]) Handler] *)
Definition TypedToEventHandler (h : TypedHandler) : Handler := fun ctx evt =>
  match evt with
  | None => Some (Errorf "evt is nil")
  | Some e =>
      match evt_Message e with
      | None => Some (Errorf "event message or body is nil")
      | Some msg =>
          match Body msg with
          | None => Some (Errorf "event message or body is nil")
          | Some (AValue (GPtr v)) => h ctx (evt_Topic e) (msg_Headers msg) v
          | Some (AValue (GVal v)) => h ctx (evt_Topic e) (msg_Headers msg) v
          | Some v => Some (Errorf ("unsupported body type: expected *" ++ name ++ ", got " ++ value_text v))
          end
      end
  end.

(** The handler and the binder [Subscribe[T any]] passes to the driver. *)
Definition Subscribe_handler (handler : TypedHandler) : Handler := fun ctx evt =>
  match evt with
  | None => Some (Errorf "event or message body is nil")
  | Some e =>
      match evt_Message e with
      | None => Some (Errorf "event or message body is nil")
      | Some msg =>
          match Body msg with
          | None => Some (Errorf "event or message body is nil")
          | Some (AValue (GPtr v)) => match handler ctx (evt_Topic e) (msg_Headers msg) v with Some err => Some err | None => None end
          | Some (AValue (GVal v)) => match handler ctx (evt_Topic e) (msg_Headers msg) v with Some err => Some err | None => None end
          | Some v => Some (Errorf ("unsupported type: expected *" ++ name ++ ", got " ++ value_text v))
          end
      end
  end.

Definition Subscribe_binder (zero : T) : unit -> gv T := fun _ => GPtr zero.
End codec.

(** * Middleware chains: [event.go] and [publish.go] *)

(** [func ChainSubscriberMiddleware(h Handler, mws []SubscriberMiddleware) Handler];
    nil middlewares are skipped.  The loop runs from the last to the first. *)
Fixpoint chain_loop {H : Type} (mws : list (option (H -> H))) (i : nat) (h : H) : H :=
  match i with
  | O => h
  | S i' =>
      chain_loop mws i'
        (match mws !! i' with
         | Some (Some mw) => mw h
         | _ => h
         end)
  end.

Definition ChainSubscriberMiddleware {H : Type} (h : H) (mws : list (option (H -> H))) : H :=
  if (length mws =? 0)%nat then h else chain_loop mws (length mws) h.

(** [func ChainPublishMiddleware(h PublishHandler, mws []PublishMiddleware) PublishHandler] *)
Definition ChainPublishMiddleware {H : Type} (h : H) (mws : list (option (H -> H))) : H :=
  if (length mws =? 0)%nat then h else chain_loop mws (length mws) h.

(** [func WrapLegacyPublishHandler] *)
Definition WrapLegacyPublishHandler {A C O} (h : C -> string -> option (any (A := A)) -> O -> option error) :
    C -> string -> option (Message (A := A)) -> O -> option error :=
  fun ctx topic msg opts =>
    let payload :=
      match msg with
      | None => None
      | Some m => match Msg m with Some v => Some v | None => Body m end
      end in
    h ctx topic payload opts.

(** * Properties *)

(** The loops compose the middlewares from the outermost (the first) in. *)
Lemma chain_loop_foldr {H : Type} (mws mws' : list (option (H -> H))) h :
  chain_loop (mws ++ mws') (length mws) h = foldr (fun mw h => match mw with Some f => f h | None => h end) h mws.
Proof.
  revert mws' h. induction mws as [|mw mws IH] using rev_ind; intros mws' h; [done|].
  rewrite length_app, Nat.add_comm. cbn [length Nat.add chain_loop].
  rewrite <- app_assoc, lookup_app_r, Nat.sub_diag by lia. cbn [app lookup list_lookup].
  rewrite IH, foldr_app. reflexivity.
Qed.

Lemma ChainSubscriberMiddleware_foldr {H : Type} (h : H) mws :
  ChainSubscriberMiddleware h mws = foldr (fun f h => f h) h (omap id mws).
Proof.
  unfold ChainSubscriberMiddleware. pose proof (chain_loop_foldr mws [] h) as E. rewrite app_nil_r in E.
  replace (if (length mws =? 0)%nat then h else chain_loop mws (length mws) h) with (chain_loop mws (length mws) h)
    by by destruct mws. rewrite E. clear E. induction mws as [|[f|] mws IH]; simpl; [done|by f_equal|done].
Qed.

Lemma ChainPublishMiddleware_foldr {H : Type} (h : H) mws :
  ChainPublishMiddleware h mws = foldr (fun f h => f h) h (omap id mws).
Proof. apply ChainSubscriberMiddleware_foldr. Qed.

Section codec_facts.
Context {T : Type} (name : string).
Context (gob_Encode : value T -> bytes + error) (gob_Decode : bytes -> value T -> option error * value T).

(** The two ways to give a typed handler to a driver differ in the text of their
    errors only. *)
Lemma typed_handlers_agree {C} (h : C -> string -> option Headers -> T -> option error) ctx evt :
  TypedToEventHandler name h ctx evt = Subscribe_handler name h ctx evt \/
  exists e1 e2, TypedToEventHandler name h ctx evt = Some e1 /\ Subscribe_handler name h ctx evt = Some e2.
Proof.
  unfold TypedToEventHandler, Subscribe_handler. destruct evt as [[t [[? ? [[|[]]|] ? ? ? ? ?]|]]|]; cbn [evt_Message Body];
    try (right; by do 2 eexists); left; by case_match.
Qed.

(** Nothing decodes into a driver's message under the protobuf codec: the target
    the drivers pass is never a protobuf message. *)
Lemma decode_body_proto pm pu binder data :
  exists err, decode_body gob_Decode (Some (proto_codec name pm pu)) (Some binder) data = inr err.
Proof. unfold decode_body, Unmarshal. simpl. eauto. Qed.

(** Without a codec bytes and strings pass unchanged, both ways. *)
Lemma raw_round_trip (v : value T) data :
  v = AValue (GBytes data) \/ (exists s, v = AString s /\ String.list_ascii_of_string s = data) ->
  Marshal gob_Encode None (Some v) = inl data /\
  Unmarshal gob_Decode None (Some data) (Some (TBytes [])) = (None, Some (TBytes data)) /\
  Unmarshal gob_Decode None (Some data) (Some (TString "")) = (None, Some (TString (String.string_of_list_ascii data))).
Proof. intros [->|(s&->&<-)]; repeat split. Qed.
End codec_facts.
