(* ===== verification/BrokerOptions.v ===== *)
(** [broker/options.go], [publish_options.go], [request_options.go]: the option
    records every driver reads, and the context values the drivers' own options
    travel in. *)
From Stdlib Require Import ZArith Lia Ascii.
From S2P Require Import Prelude GoErrors GoTime NetPacket Encoding Broker BrokerCodec.
From stdpp Require Import base gmap strings list fin_maps.
Open Scope string_scope.
Open Scope list_scope.
Open Scope Z_scope.

(** * Contexts of options *)

Section contexts.
(** The keys and the dynamic values of a driver's options. *)
Context {K V : Type} `{EqDecision K}.

(** [context.Context] as a carrier of values, the innermost first; a nil context
    is [None] where the code allows it. *)
Definition OptContext := list (K * V).

Fixpoint Value (ctx : OptContext) (key : K) : option V :=
  match ctx with
  | [] => None
  | (k, v) :: ctx' => if decide (k = key) then Some v else Value ctx' key
  end.

(** [if o.Context == nil { o.Context = context.Background() }] and
    [context.WithValue]: the body of [OptionContextWithValue],
    [PublishContextWithValue] and [RequestContextWithValue]. *)
Definition ContextWithValue (k : K) (v : V) (ctx : option OptContext) : option OptContext := Some ((k, v) :: default [] ctx).

(** A method call on a nil context panics. *)
Definition ctx_Value (ctx : option OptContext) (key : K) : result (option V) :=
  match ctx with
  | Some c => Returned (Value c key)
  | None => Panicked
  end.
End contexts.
Arguments OptContext : clear implicits.

(** * [options.go] *)

Section options.
Context {K V T H M P : Type} `{EqDecision K}.

(** [type Options struct]; [H] is the handlers' type, [M] and [P] the
    middlewares', a TLS configuration is known by a number. *)
Record Options := mkOptions {
  Addrs : list string;
  Codec_ : option (Codec (value T));
  ErrorHandler : option H;
  Secure : bool;
  TLSConfig : option nat;
  Context_ : option (OptContext K V);
  Tracings : list string;
  SubscriberMiddlewares : list M;
  PublishMiddlewares : list P
}.

(** [func NewOptions() Options]; [cs] is the codec registry when the package was
    initialised, where [DefaultCodec] was read from it. *)
Definition NewOptions (cs : codecs (value T)) : Options :=
  mkOptions [] (GetCodec "json" cs) None false None (Some []) [] [] [].

(** [func (o *Options) Apply(opts ...Option)], [func NewOptionsAndApply]; a nil
    receiver is [None]. *)
Definition Apply (opts : list (Options -> Options)) (o : option Options) : option Options := apply_opts opts <$> o.
Definition NewOptionsAndApply (cs : codecs (value T)) (opts : list (Options -> Options)) : Options :=
  apply_opts opts (NewOptions cs).

Definition set_Context (c : option (OptContext K V)) (o : Options) : Options :=
  mkOptions (Addrs o) (Codec_ o) (ErrorHandler o) (Secure o) (TLSConfig o) c (Tracings o) (SubscriberMiddlewares o) (PublishMiddlewares o).

(** The options *)
Definition WithOptionContext (ctx : option (OptContext K V)) : Options -> Options := set_Context ctx.
Definition OptionContextWithValue (k : K) (v : V) : Options -> Options := fun o => set_Context (ContextWithValue k v (Context_ o)) o.
Definition WithAddress (addressList : list string) : Options -> Options := fun o =>
  mkOptions addressList (Codec_ o) (ErrorHandler o) (Secure o) (TLSConfig o) (Context_ o) (Tracings o) (SubscriberMiddlewares o) (PublishMiddlewares o).
Definition WithCodec (cs : codecs (value T)) (name : string) : Options -> Options := fun o =>
  mkOptions (Addrs o) (GetCodec name cs) (ErrorHandler o) (Secure o) (TLSConfig o) (Context_ o) (Tracings o) (SubscriberMiddlewares o) (PublishMiddlewares o).
Definition WithErrorHandler (h : option H) : Options -> Options := fun o =>
  mkOptions (Addrs o) (Codec_ o) h (Secure o) (TLSConfig o) (Context_ o) (Tracings o) (SubscriberMiddlewares o) (PublishMiddlewares o).
Definition WithEnableSecure (enable : bool) : Options -> Options := fun o =>
  mkOptions (Addrs o) (Codec_ o) (ErrorHandler o) enable (TLSConfig o) (Context_ o) (Tracings o) (SubscriberMiddlewares o) (PublishMiddlewares o).
Definition WithTLSConfig (config : option nat) : Options -> Options := fun o =>
  mkOptions (Addrs o) (Codec_ o) (ErrorHandler o) (match config with Some _ => true | None => Secure o end) config (Context_ o)
    (Tracings o) (SubscriberMiddlewares o) (PublishMiddlewares o).
Definition WithTracing (t : string) : Options -> Options := fun o =>
  mkOptions (Addrs o) (Codec_ o) (ErrorHandler o) (Secure o) (TLSConfig o) (Context_ o) (Tracings o ++ [t]) (SubscriberMiddlewares o) (PublishMiddlewares o).
Definition WithSubscriberMiddlewares (mws : list M) : Options -> Options := fun o =>
  mkOptions (Addrs o) (Codec_ o) (ErrorHandler o) (Secure o) (TLSConfig o) (Context_ o) (Tracings o) mws (PublishMiddlewares o).
Definition WithPublishMiddlewares (mws : list P) : Options -> Options := fun o =>
  mkOptions (Addrs o) (Codec_ o) (ErrorHandler o) (Secure o) (TLSConfig o) (Context_ o) (Tracings o) (SubscriberMiddlewares o) mws.
End options.
Arguments Options : clear implicits.

(** * [publish_options.go] and [request_options.go] *)

Section publish_options.
Context {K V : Type} `{EqDecision K}.

Record PublishOptions := mkPublishOptions {
  po_Context : option (OptContext K V);
  po_Timeout : Duration;
  Retries : Z;
  Async : bool;
  Callback : option nat;
  RequiredAcks : Z;
  po_BodyCodec : string
}.

Definition NewPublishOptions (opts : list (PublishOptions -> PublishOptions)) : PublishOptions :=
  apply_opts opts (mkPublishOptions (Some []) 0 0 false None 0 "").

Definition PublishContextWithValue (k : K) (v : V) : PublishOptions -> PublishOptions := fun o =>
  mkPublishOptions (ContextWithValue k v (po_Context o)) (po_Timeout o) (Retries o) (Async o) (Callback o) (RequiredAcks o) (po_BodyCodec o).
Definition WithPublishContext (ctx : option (OptContext K V)) : PublishOptions -> PublishOptions := fun o =>
  mkPublishOptions ctx (po_Timeout o) (Retries o) (Async o) (Callback o) (RequiredAcks o) (po_BodyCodec o).
Definition WithPublishTimeout (d : Duration) : PublishOptions -> PublishOptions := fun o =>
  mkPublishOptions (po_Context o) d (Retries o) (Async o) (Callback o) (RequiredAcks o) (po_BodyCodec o).
Definition WithPublishAsync (cb : option nat) : PublishOptions -> PublishOptions := fun o =>
  mkPublishOptions (po_Context o) (po_Timeout o) (Retries o) true cb (RequiredAcks o) (po_BodyCodec o).
Definition WithPublishRetries (n : Z) : PublishOptions -> PublishOptions := fun o =>
  mkPublishOptions (po_Context o) (po_Timeout o) n (Async o) (Callback o) (RequiredAcks o) (po_BodyCodec o).
Definition WithPublishRequiredAcks (acks : Z) : PublishOptions -> PublishOptions := fun o =>
  mkPublishOptions (po_Context o) (po_Timeout o) (Retries o) (Async o) (Callback o) acks (po_BodyCodec o).
Definition WithPublishBodyCodec (codec : string) : PublishOptions -> PublishOptions := fun o =>
  mkPublishOptions (po_Context o) (po_Timeout o) (Retries o) (Async o) (Callback o) (RequiredAcks o) codec.
Definition WithPublishCallback (cb : option nat) : PublishOptions -> PublishOptions := fun o =>
  mkPublishOptions (po_Context o) (po_Timeout o) (Retries o) (Async o) cb (RequiredAcks o) (po_BodyCodec o).

(** What a driver starts from when it builds the record itself. *)
Definition publish_options (ctx : option (OptContext K V)) (opts : list (PublishOptions -> PublishOptions)) : PublishOptions :=
  apply_opts opts (mkPublishOptions ctx 0 0 false None 0 "").

Record RequestOptions := mkRequestOptions {
  ro_Context : option (OptContext K V);
  ro_Timeout : Duration;
  ReplyTopic : string;
  ro_BodyCodec : string
}.

Definition NewRequestOptions (opts : list (RequestOptions -> RequestOptions)) : RequestOptions :=
  apply_opts opts (mkRequestOptions (Some []) (10 * Second) "" "").
Definition RequestContextWithValue (k : K) (v : V) : RequestOptions -> RequestOptions := fun o =>
  mkRequestOptions (ContextWithValue k v (ro_Context o)) (ro_Timeout o) (ReplyTopic o) (ro_BodyCodec o).
Definition WithRequestContext (ctx : option (OptContext K V)) : RequestOptions -> RequestOptions := fun o =>
  mkRequestOptions ctx (ro_Timeout o) (ReplyTopic o) (ro_BodyCodec o).
Definition WithRequestTimeout (d : Duration) : RequestOptions -> RequestOptions := fun o =>
  mkRequestOptions (ro_Context o) d (ReplyTopic o) (ro_BodyCodec o).
Definition WithReplyTopic (topic : string) : RequestOptions -> RequestOptions := fun o =>
  mkRequestOptions (ro_Context o) (ro_Timeout o) topic (ro_BodyCodec o).
Definition WithRequestBodyCodec (codec : string) : RequestOptions -> RequestOptions := fun o =>
  mkRequestOptions (ro_Context o) (ro_Timeout o) (ReplyTopic o) codec.
Definition request_options (ctx : option (OptContext K V)) (opts : list (RequestOptions -> RequestOptions)) : RequestOptions :=
  apply_opts opts (mkRequestOptions ctx 0 "" "").
End publish_options.
Arguments PublishOptions : clear implicits.
Arguments RequestOptions : clear implicits.

(** * What a driver does with one message it received *)

Section delivery.
Context {T : Type} (gob_Decode : bytes -> value T -> option error * value T).

(** The name check of the drivers that treat protobuf apart: [Codec.Name()] of a
    nil codec panics, and under ["proto"] the binder's value is asserted to be a
    protobuf message, which the pointer types are. *)
Definition bind_guarded (codec : option (Codec (value T))) (binder : unit -> gv T) : result (gv T) :=
  match codec with
  | None => Panicked
  | Some c =>
      let v := binder tt in
      if String.eqb (codec_Name c) "proto" then match v with GPtr _ => Returned v | _ => Panicked end else Returned v
  end.

(** How the handling of a message ended, before any acknowledgement. *)
Inductive handled := Undecodable (err : error) | Failed (err : error) | Succeeded.

(** Decoding, and the handler with the resulting message. *)
Definition handle (codec : option (Codec (value T))) (binder : option (unit -> gv T)) (data : bytes)
    (handler : value T -> option error) : handled :=
  match decode_body gob_Decode codec binder data with
  | inr err => Undecodable err
  | inl body => match handler body with Some err => Failed err | None => Succeeded end
  end.
End delivery.

(** * The reconnecting loops of the drivers

    [if delay < max { delay *= 2 }] between the attempts. *)
Definition next_delay (max delay : Duration) : Duration := if delay <? max then mul64 delay 2 else delay.

Fixpoint delays (max delay : Duration) (n : nat) : list Duration :=
  match n with
  | O => []
  | S n' => delay :: delays max (next_delay max delay) n'
  end.

(** * Properties *)

Section context_facts.
Context {K V : Type} `{EqDecision K}.

(** The value an option context holds for a key is the last one set; keys do not
    interfere. *)
Lemma Value_set_all (sets : list (K * V)) ctx key :
  Value (default [] (fold_left (fun c '(k, v) => ContextWithValue k v c) sets (Some ctx))) key =
    match Value (reverse sets) key with Some v => Some v | None => Value ctx key end.
Proof.
  revert ctx. induction sets as [|[k v] sets IH]; intros ctx; [done|]. cbn [fold_left ContextWithValue]. cbn [default from_option].
  unfold ContextWithValue at 2. cbn [from_option id]. rewrite IH, reverse_cons.
  assert (forall l, Value (l ++ [(k, v)]) key = match Value l key with Some x => Some x | None => if decide (k = key) then Some v else None end) as ->.
  { intros l. induction l as [|[k' v'] l IHl]; simpl; [done|]. by destruct (decide (k' = key)). }
  destruct (Value (reverse sets) key); [done|]. simpl. by destruct (decide (k = key)).
Qed.

(** The options of one publish: the context ends up with the last value of every
    key that was set, on top of the context it started from. *)
Theorem publish_context_last_wins ctx (sets : list (K * V)) key :
  match po_Context (publish_options (Some ctx) (map (fun '(k, v) => PublishContextWithValue k v) sets)) with
  | Some c => Value c key = match Value (reverse sets) key with Some v => Some v | None => Value ctx key end
  | None => False
  end.
Proof.
  pose proof (Value_set_all sets ctx key) as Hv. unfold publish_options, apply_opts.
  assert (forall (sets : list (K * V)) (c0 : OptContext K V), po_Context (fold_left (fun o opt => opt o) (map (fun '(k, v) => PublishContextWithValue k v) sets)
      (mkPublishOptions (Some c0) 0 0 false None 0 "")) = fold_left (fun c '(k, v) => ContextWithValue k v c) sets (Some c0)) as E.
  { clear. intros l. induction l as [|[k v] l IH]; intros c0; [done|]. apply IH. }
  rewrite E. clear E. destruct (fold_left _ sets (Some ctx)) eqn:E; [exact Hv|].
  exfalso. clear Hv. revert ctx E. induction sets as [|[k v] sets IH]; intros ctx E; [done|]. exact (IH _ E).
Qed.
End context_facts.

(** The delays double from one second and stop growing past the maximum: with
    the drivers' thirty seconds they reach thirty-two. *)
Lemma delays_bounded n d : 0 < d < 64 * Second -> Forall (fun x => 0 < x < 64 * Second) (delays (30 * Second) d n).
Proof.
  revert d. induction n as [|n IH]; intros d Hd; constructor; [done|]. apply IH. unfold next_delay.
  destruct (Z.ltb_spec d (30 * Second)) as [Hlt|]; [|done].
  unfold Second, Millisecond, Microsecond, Nanosecond in *. unfold mul64. rewrite wrap64_id; unfold in_int64, int64_min, int64_max; lia.
Qed.

Example delays_reached : delays (30 * Second) Second 7 = map (fun n => n * Second) [1; 2; 4; 8; 16; 32; 32].
Proof. reflexivity. Qed.
