(* ===== verification/Nats.v ===== *)
(** [broker/nats]: the core and the JetStream driver ([nats.go], [jetstream.go],
    [jetstream_pub.go], [jetstream_sub.go], [subscriber.go], [publication.go],
    [options.go], [utils.go]) over a NATS connection whose results are
    parameters.  The spans are in [BrokerTracing]. *)
From Stdlib Require Import ZArith Lia Ascii.
From S2P Require Import Prelude GoErrors GoTime NetPacket Encoding Broker BrokerCodec BrokerOptions.
From stdpp Require Import base gmap strings list fin_maps.
Open Scope string_scope.
Open Scope list_scope.
Open Scope Z_scope.

(** * Options *)

(** The context keys of the driver's options, and their values. *)
Inductive key :=
| headersKey | requestTimeoutKey
| pubMsgIdKey | pubExpectStreamKey | pubExpectLastSequenceKey | pubExpectLastSequencePerSubjectKey | pubExpectLastMsgIdKey | pubRawOptsKey
| subDurableKey | subDeliverAllKey | subDeliverLastKey | subDeliverNewKey | subStartSequenceKey | subStartTimeKey | subAckWaitKey
| subMaxAckPendingKey | subBindStreamKey | subReplayInstantKey | subDescriptionKey | subManualAckKey | subPullKey | subPullBatchSizeKey
| subRawOptsKey.

#[export] Instance key_eq_dec : EqDecision key.
Proof. solve_decision. Defined.

(** [natsGo.PubOpt] and [natsGo.SubOpt], as the driver builds them. *)
Inductive PubOpt := MsgId (s : string) | ExpectStream (s : string) | ExpectLastSequence (n : Z) | ExpectLastSequencePerSubject (n : Z)
| ExpectLastMsgId (s : string) | RawPub (n : nat).
Inductive SubOpt := Durable (s : string) | DeliverAll | DeliverLast | DeliverNew | StartSequence (n : Z) | StartTime (t : Z) | AckWait (d : Duration)
| MaxAckPending (n : Z) | BindStream (s : string) | ReplayInstant | Description (s : string) | ManualAck | RawSub (n : nat).

(** Times are nanoseconds since year 1, so that the zero time is 0. *)
Inductive val :=
| VString (s : string) | VUint (n : Z) | VInt (n : Z) | VDuration (d : Duration) | VTime (t : Z) | VBool (b : bool)
| VHeaders (h : gmap string (list string)) | VPubOpts (l : list PubOpt) | VSubOpts (l : list SubOpt).

Abbreviation ctx_t := (OptContext key val).
Abbreviation PubOptions := (PublishOptions key val).
Abbreviation ReqOptions := (RequestOptions key val).

Definition WithHeaders (h : gmap string (list string)) : PubOptions -> PubOptions := PublishContextWithValue headersKey (VHeaders h).
Definition WithMsgId (id : string) : PubOptions -> PubOptions := PublishContextWithValue pubMsgIdKey (VString id).
Definition WithExpectStream (s : string) : PubOptions -> PubOptions := PublishContextWithValue pubExpectStreamKey (VString s).
Definition WithExpectLastSequence (n : Z) : PubOptions -> PubOptions := PublishContextWithValue pubExpectLastSequenceKey (VUint n).
Definition WithExpectLastSequencePerSubject (n : Z) : PubOptions -> PubOptions := PublishContextWithValue pubExpectLastSequencePerSubjectKey (VUint n).
Definition WithExpectLastMsgId (id : string) : PubOptions -> PubOptions := PublishContextWithValue pubExpectLastMsgIdKey (VString id).
Definition WithPublishRawOpts (l : list PubOpt) : PubOptions -> PubOptions := PublishContextWithValue pubRawOptsKey (VPubOpts l).
Definition WithRequestTimeout_ (d : Duration) : ReqOptions -> ReqOptions := RequestContextWithValue requestTimeoutKey (VDuration d).
Definition WithRequestHeaders (h : gmap string (list string)) : ReqOptions -> ReqOptions := RequestContextWithValue headersKey (VHeaders h).

(** The type assertions [v, ok := ctx.Value(k).(T)]. *)
Definition str (v : option val) : option string := match v with Some (VString s) => Some s | _ => None end.
Definition uint (v : option val) : option Z := match v with Some (VUint n) => Some n | _ => None end.
Definition int (v : option val) : option Z := match v with Some (VInt n) => Some n | _ => None end.
Definition dur (v : option val) : option Duration := match v with Some (VDuration d) => Some d | _ => None end.
Definition hdrs (v : option val) : option (gmap string (list string)) := match v with Some (VHeaders h) => Some h | _ => None end.
Definition nonempty (s : option string) : option string := s ≫= fun s => if String.eqb s "" then None else Some s.
Definition positive (n : option Z) : option Z := n ≫= fun n => if 0 <? n then Some n else None.
Definition is_set (v : option val) : bool := match v with Some _ => true | None => false end.

(** The options a JetStream publish builds, in order. *)
Definition build_pub_opts (c : ctx_t) : list PubOpt :=
  option_list (MsgId <$> nonempty (str (Value c pubMsgIdKey))) ++
  option_list (ExpectStream <$> nonempty (str (Value c pubExpectStreamKey))) ++
  option_list (ExpectLastSequence <$> uint (Value c pubExpectLastSequenceKey)) ++
  option_list (ExpectLastSequencePerSubject <$> uint (Value c pubExpectLastSequencePerSubjectKey)) ++
  option_list (ExpectLastMsgId <$> nonempty (str (Value c pubExpectLastMsgIdKey))) ++
  match Value c pubRawOptsKey with Some (VPubOpts l) => l | _ => [] end.

(** [func buildSubOpts(options broker.SubscribeOptions) []natsGo.SubOpt] *)
Definition buildSubOpts (c : ctx_t) : list SubOpt :=
  let flag k o := if is_set (Value c k) then [o] else [] in
  option_list (Durable <$> nonempty (str (Value c subDurableKey))) ++
  flag subDeliverAllKey DeliverAll ++ flag subDeliverLastKey DeliverLast ++ flag subDeliverNewKey DeliverNew ++
  option_list (StartSequence <$> uint (Value c subStartSequenceKey)) ++
  match Value c subStartTimeKey with Some (VTime t) => if t =? 0 then [] else [StartTime t] | _ => [] end ++
  option_list (AckWait <$> positive (dur (Value c subAckWaitKey))) ++
  option_list (MaxAckPending <$> positive (int (Value c subMaxAckPendingKey))) ++
  option_list (BindStream <$> nonempty (str (Value c subBindStreamKey))) ++
  flag subReplayInstantKey ReplayInstant ++
  option_list (Description <$> nonempty (str (Value c subDescriptionKey))) ++
  flag subManualAckKey ManualAck ++
  match Value c subRawOptsKey with Some (VSubOpts l) => l | _ => [] end.

(** * Addresses and settings *)

Definition DefaultURL : string := "nats://127.0.0.1:4222".

(** [func (b *natsBroker) setAddrs(addrs []string) []string], and JetStream's *)
Definition setAddrs (addrs : list string) : list string :=
  match omap (fun addr => if String.eqb addr "" then None
                          else Some (if String.prefix "nats://" addr then addr else "nats://" ++ addr)%string) addrs with
  | [] => [DefaultURL]
  | l => l
  end.

(** The settings [setOption] completes from [natsGo.Options]; the addresses
    [setAddrs] returns are not kept. *)
Record natsOptions := mkNatsOptions { Servers : list string; nats_Secure : bool; nats_TLS : option nat }.
Record net_settings := mkNet { addrs : list string; secure : bool; tls : option nat }.
Definition setOption (n : natsOptions) (s : net_settings) : net_settings :=
  let a := if (length (addrs s) =? 0)%nat then Servers n else addrs s in
  let _ := setAddrs a in
  mkNet a (if secure s then true else nats_Secure n) (match tls s with Some t => Some t | None => nats_TLS n end).

(** What [Connect] dials with. *)
Definition dial_options (s : net_settings) : natsOptions :=
  mkNatsOptions (addrs s) (match tls s with Some _ => true | None => secure s end) (tls s).

(** [func (b *natsBroker) Address() string]; [url] is the connected URL. *)
Definition Address (url : option string) (s : net_settings) : string :=
  match url with
  | Some u => u
  | None => match addrs s with a :: _ => a | [] => DefaultURL end
  end.

(** The JetStream driver's copies of the three. *)
Definition js_setAddrs := setAddrs.
Definition js_setOption := setOption.
Definition js_Address := Address.

(** * The connection *)

(** [natsGo.Status]: connected, reconnecting or connecting against the others. *)
Record natsBroker := mkBroker { connected : bool; conn : option nat; js : bool; drain : bool; subscribers : SubscriberSyncMap }.

(** [func (b *natsBroker) Connect() error]: [live] is whether the present
    connection's status is a connected one; [dial] the new connection, or the
    error. *)
Definition Connect (live : bool) (dial : nat + error) (b : natsBroker) : option error * natsBroker :=
  if connected b then (None, b)
  else if live && match conn b with Some _ => true | None => false end then
    (None, mkBroker true (conn b) (js b) (drain b) (subscribers b))
  else
    match dial with
    | inr err => (Some err, b)
    | inl c => (None, mkBroker true (Some c) (js b) (drain b) (subscribers b))
    end.

(** [func (b *jetStreamBroker) Connect() error]: a connection without a JetStream
    context is closed again, and kept. *)
Definition js_Connect (live : bool) (dial : nat + error) (context : option error) (b : natsBroker) : option error * natsBroker :=
  if connected b then (None, b)
  else if live && match conn b with Some _ => true | None => false end then
    (None, mkBroker true (conn b) (js b) (drain b) (subscribers b))
  else
    match dial with
    | inr err => (Some (Wrapf "failed to connect to NATS server: " err), b)
    | inl c =>
        match context with
        | Some err => (Some (Wrapf "failed to create JetStream context: " err), mkBroker false (Some c) (js b) (drain b) (subscribers b))
        | None => (None, mkBroker true (Some c) true (drain b) (subscribers b))
        end
    end.

(** [func (b *natsBroker) Disconnect() error], and JetStream's: [None] when it does
    not return.  With [DrainConnection] it sends on [closeCh], an unbuffered
    channel from which nothing in the package receives. *)
Definition Disconnect (b : natsBroker) : option natsBroker :=
  if drain b then None
  else Some (mkBroker false (conn b) (js b) (drain b) (Clear (subscribers b))).

Definition js_Disconnect := Disconnect.

(** * Publishing *)

Record natsMsg := mkNatsMsg { Subject : string; Header : gmap string (list string); Data : bytes; Reply : string }.

(** [m.Header.Add(k, vv)], for every value of every key. *)
Definition add_headers (h : gmap string (list string)) (acc : gmap string (list string)) : gmap string (list string) :=
  map_fold (fun k vs acc => fold_left (fun acc v => <[k := default [] (acc !! k) ++ [v]]> acc) vs acc) acc h.

Section operations.
Context {T : Type} (name : string) (gob_Encode : value T -> bytes + error) (gob_Decode : bytes -> value T -> option error * value T).

(** The message for a topic, with the headers of the options' context only. *)
Definition build_msg (topic : string) (data : bytes) (c : ctx_t) : natsMsg :=
  mkNatsMsg topic (match hdrs (Value c headersKey) with Some h => add_headers h ∅ | None => ∅ end) data "".

(** [internalPublish] and [publish] of the core driver: the result, and the
    message handed to [PublishMsg].  A nil context set by an option panics. *)
Definition publish (b : natsBroker) (codec : option (Codec (value T))) (send : natsMsg -> option error) (ctx : ctx_t) (topic : string)
    (msg : Message (A := gv T)) (opts : list (PubOptions -> PubOptions)) : result (option error * option natsMsg) :=
  match Marshal gob_Encode codec (Body msg) with
  | inr err => Returned (Some err, None)
  | inl data =>
      match conn b with
      | None => Returned (Some (Errorf "not connected"), None)
      | Some _ =>
          match po_Context (publish_options (Some ctx) opts) with
          | None => Panicked
          | Some c => let m := build_msg topic data c in Returned (send m, Some m)
          end
      end
  end.

(** [publish] of the JetStream driver: the caller's context is not used. *)
Definition js_publish (b : natsBroker) (codec : option (Codec (value T))) (send : natsMsg -> list PubOpt -> option error) (topic : string)
    (msg : Message (A := gv T)) (opts : list (PubOptions -> PubOptions)) : result (option error * option (natsMsg * list PubOpt)) :=
  match Marshal gob_Encode codec (Body msg) with
  | inr err => Returned (Some err, None)
  | inl data =>
      if negb (js b) then Returned (Some (Errorf "not connected"), None)
      else
        match po_Context (NewPublishOptions opts) with
        | None => Panicked
        | Some c => let m := build_msg topic data c in Returned (send m (build_pub_opts c), Some (m, build_pub_opts c))
        end
  end.

(** [func (b *natsBroker) Publish]: the middleware chain around it. *)
Definition Publish {H} (internal : H) (mws : list (option (H -> H))) : H :=
  if (0 <? length mws)%nat then ChainPublishMiddleware internal mws else internal.

(** The timeout of a request, two seconds unless an option gives a positive one. *)
Definition request_timeout (c : ctx_t) : Duration := default (2 * Second) (positive (dur (Value c requestTimeoutKey))).

(** [func (b *natsBroker) Request] and [request]: the message and the timeout given
    to [RequestMsg], or the error before it. *)
Definition Request (b : natsBroker) (codec : option (Codec (value T))) (ctx : ctx_t) (topic : string) (msg : Message (A := gv T))
    (opts : list (ReqOptions -> ReqOptions)) : result (natsMsg * Duration + error) :=
  match Marshal gob_Encode codec (Body msg) with
  | inr err => Returned (inr err)
  | inl data =>
      match conn b with
      | None => Returned (inr (Errorf "not connected"))
      | Some _ =>
          match ro_Context (request_options (Some ctx) opts) with
          | None => Panicked
          | Some c => Returned (inl (build_msg topic data c, request_timeout c))
          end
      end
  end.

(** [Request] of the JetStream driver: the connection is asked for first, and the
    options start from a fresh context. *)
Definition js_Request (b : natsBroker) (codec : option (Codec (value T))) (topic : string) (msg : Message (A := gv T))
    (opts : list (ReqOptions -> ReqOptions)) : result (natsMsg * Duration + error) :=
  match conn b with
  | None => Returned (inr (Errorf "not connected"))
  | Some _ =>
      let options := NewRequestOptions opts in
      match Marshal gob_Encode codec (Body msg) with
      | inr err => Returned (inr err)
      | inl data =>
          match ro_Context options with
          | None => Panicked
          | Some c => Returned (inl (build_msg topic data c, request_timeout c))
          end
      end
  end.

(** What the two hand back for the answer of [RequestMsg]: the core driver wraps
    the reply (nil on an error) beside the error, JetStream only a reply. *)
Definition request_result (res : natsMsg + error) : option natsMsg * option error :=
  match res with
  | inl m => (Some m, None)
  | inr err => (None, Some err)
  end.

(** * Consuming *)

(** [func natsHeaderToMap(h natsGo.Header) map[string]string]: [v[0]] panics on a
    header without values. *)
Definition natsHeaderToMap (h : gmap string (list string)) : result Headers :=
  map_fold (fun k vs acc =>
    match acc, vs with
    | Returned m, v :: _ => Returned (<[k := v]> m)
    | _, _ => Panicked
    end) (Returned ∅) h.

(** What the callback does with a message: calls of the handler and of the error
    handler, and what it tells the server. *)
Inductive action := AHandler (e : Event (T := T)) | AErrorHandler (err : error) | AAck | ANak.

Definition event_of (msg : natsMsg) (h : Headers) (body : value T) : Event (T := T) :=
  mkEvent (Subject msg) (Some (mkMessage "" (Some h) (Some body) "" None 0 0 None)).

(** [func (p *publication) Ack() error]: only messages with a reply subject. *)
Definition ack_actions (msg : natsMsg) : list action := if String.eqb (Reply msg) "" then [] else [AAck].

Section callback.
Context (codec : option (Codec (value T))) (binder : option (unit -> gv T)) (handler : Event (T := T) -> option error) (eh : bool).

(** The body both callbacks share; [nak] are the actions on a failure, [ack] on
    success. *)
Definition callback (nak ack : list action) (msg : natsMsg) : result (list action) :=
  match natsHeaderToMap (Header msg) with
  | Panicked => Panicked
  | Returned h =>
      let report err := (if eh then [AErrorHandler err] else []) ++ nak in
      match (match binder with Some f => match bind_guarded codec f with Returned _ => true | Panicked => false end | None => true end) with
      | false => Panicked
      | true =>
          match decode_body gob_Decode codec binder (Data msg) with
          | inr err => Returned (report err)
          | inl body =>
              let e := event_of msg h body in
              Returned (AHandler e :: match handler e with Some err => report err | None => ack end)
          end
      end
  end.

(** [fn] of the core [Subscribe]. *)
Definition fn (autoAck : bool) (msg : natsMsg) : result (list action) := callback [] (if autoAck then ack_actions msg else []) msg.

(** [fn] of the JetStream [Subscribe]. *)
Definition js_fn (autoAck manualAck : bool) (msg : natsMsg) : result (list action) :=
  callback [ANak] (if autoAck && negb manualAck then ack_actions msg else []) msg.
End callback.

(** [func (b *jetStreamBroker) pullLoop]: each round is whether the subscriber is
    closed when it starts and what [Fetch] returns: a timeout or a closed
    connection, another error (with whether the subscriber is closed by then), or
    messages.  The messages handled, and whether the loop ended. *)
Inductive fetch := FetchRetry | FetchError (closed : bool) | Fetched (msgs : list natsMsg).

Fixpoint pullLoop (rounds : list (bool * fetch)) : list natsMsg * bool :=
  match rounds with
  | [] => ([], false)
  | (true, _) :: _ => ([], true)
  | (false, FetchRetry) :: rs => pullLoop rs
  | (false, FetchError true) :: _ => ([], true)
  | (false, FetchError false) :: rs => pullLoop rs
  | (false, Fetched msgs) :: rs => let '(l, e) := pullLoop rs in (msgs ++ l, e)
  end.

(** How [Subscribe] subscribes: by pull with a durable name and a batch size, in a
    queue group, or plainly. *)
Inductive subscription := Pull (durable : string) (batch : Z) | QueueSubscribe (queue : string) | PlainSubscribe.
Definition js_subscription (queue : string) (c : ctx_t) : subscription :=
  if is_set (Value c subPullKey) then
    Pull (default "" (nonempty (str (Value c subDurableKey)))) (default 10 (positive (int (Value c subPullBatchSizeKey))))
  else if String.eqb queue "" then PlainSubscribe else QueueSubscribe queue.
Definition core_subscription (queue : string) : subscription := if String.eqb queue "" then PlainSubscribe else QueueSubscribe queue.

(** [func (b *natsBroker) Subscribe]: [sub] is what the library returns, as the new
    subscriber's number. *)
Definition Subscribe (connected_ : bool) (topic : string) (sub : nat + error) (b : natsBroker) : (nat + error) * natsBroker :=
  if negb connected_ then (inr (Errorf "not connected"), b)
  else
    match sub with
    | inr err => (inr err, b)
    | inl s => (inl s, mkBroker (connected b) (conn b) (js b) (drain b) (Broker.Add topic s (subscribers b)))
    end.

(** JetStream's [Subscribe], which asks for the JetStream context and wraps the
    library's errors. *)
Definition js_Subscribe (topic queue : string) (c : ctx_t) (sub : subscription -> list SubOpt -> nat + error) (b : natsBroker) :
    (nat + error) * natsBroker :=
  if negb (js b) then (inr (Errorf "not connected"), b)
  else
    let how := js_subscription queue c in
    match sub how (buildSubOpts c) with
    | inr err =>
        (inr (match how with
              | Pull _ _ => Wrapf "failed to create pull subscription: " err
              | _ => Wrapf ("failed to subscribe to " ++ topic ++ ": ") err
              end), b)
    | inl s => (inl s, mkBroker (connected b) (conn b) (js b) (drain b) (Broker.Add topic s (subscribers b)))
    end.

(** [func (s *subscriber) Unsubscribe(removeFromManager bool) error]: the result of
    the library's; [subject] is the subscription's, if there is one. *)
Definition Unsubscribe (subject : option string) (lib : option error) (removeFromManager : bool) (b : natsBroker) : option error * natsBroker :=
  match subject with
  | None => (None, b)
  | Some s =>
      (lib, if removeFromManager
            then mkBroker (connected b) (conn b) (js b) (drain b) (snd (RemoveOnly s (subscribers b))) else b)
  end.
End operations.

(** * Properties *)

(** A header map without empty entries, as the wire carries it. *)
Definition wire (h : gmap string (list string)) : Prop := map_Forall (fun _ vs => vs <> []) h.

Lemma fold_add k vs acc :
  fold_left (fun (acc : gmap string (list string)) v => <[k := default [] (acc !! k) ++ [v]]> acc) vs acc =
    match vs with [] => acc | _ => <[k := default [] (acc !! k) ++ vs]> acc end.
Proof.
  revert acc. induction vs as [|v vs IH]; intros acc; [done|]. cbn [fold_left]. rewrite IH. destruct vs as [|v' vs]; [done|].
  rewrite lookup_insert_eq. simpl. by rewrite insert_insert_eq, <- (assoc app).
Qed.

(** The headers of the options, entries without values left out. *)
Lemma add_headers_lookup h k : add_headers h ∅ !! k = match h !! k with Some [] | None => None | Some vs => Some vs end.
Proof.
  unfold add_headers. revert k.
  apply (map_fold_weak_ind (fun r m => forall k, r !! k = match m !! k with Some [] | None => None | Some vs => Some vs end)).
  - intros k. by rewrite !lookup_empty.
  - intros i vs m r Hi IH k. rewrite fold_add. destruct (decide (i = k)) as [->|Hne].
    + rewrite lookup_insert_eq. destruct vs as [|v vs]; [by rewrite IH, Hi|]. rewrite lookup_insert_eq, IH, Hi. done.
    + rewrite lookup_insert_ne by done. destruct vs; [apply IH|]. by rewrite lookup_insert_ne, IH.
Qed.

Lemma add_headers_wire h : wire (add_headers h ∅).
Proof. intros k vs. rewrite add_headers_lookup. destruct (h !! k) as [[|]|]; try done. by intros [= <-]. Qed.

(** A consumer sees the first value of every header. *)
Lemma natsHeaderToMap_wire h : wire h -> natsHeaderToMap h = Returned (omap head h).
Proof.
  unfold natsHeaderToMap. apply (map_fold_weak_ind (fun r m => wire m -> r = Returned (omap head m))).
  - intros _. by rewrite omap_empty.
  - intros k vs m r Hk IH Hw. rewrite IH by (intros j l Hj; apply (Hw j); rewrite lookup_insert_ne; [done|]; congruence).
    pose proof (Hw k vs (lookup_insert_eq m k vs)) as Hne. destruct vs as [|v vs]; [done|].
    by rewrite omap_insert_Some with (y := v).
Qed.

Lemma omap_head_add h : omap head (add_headers h ∅) = omap head h.
Proof.
  apply map_eq. intros k. rewrite !lookup_omap, add_headers_lookup. by destruct (h !! k) as [[|]|].
Qed.

Section facts.
Context {T : Type} (gob_Encode : value T -> bytes + error) (gob_Decode : bytes -> value T -> option error * value T).

(** The binder is usable: there is none, or there is a codec and, if it is the
    protobuf one, the binder makes messages. *)
Definition bindable (codec : option (Codec (value T))) (binder : option (unit -> gv T)) : Prop :=
  forall f, binder = Some f -> exists v, bind_guarded codec f = Returned v.

Lemma callback_returns codec binder handler eh nak ack msg :
  wire (Header msg) -> bindable codec binder ->
  callback gob_Decode codec binder handler eh nak ack msg =
    Returned
      match decode_body gob_Decode codec binder (Data msg) with
      | inr err => (if eh then [AErrorHandler err] else []) ++ nak
      | inl body =>
          let e := event_of msg (omap head (Header msg)) body in
          AHandler e :: match handler e with Some err => (if eh then [AErrorHandler err] else []) ++ nak | None => ack end
      end.
Proof.
  intros Hw Hb. unfold callback. rewrite natsHeaderToMap_wire by done. destruct binder as [f|].
  - destruct (Hb f eq_refl) as [v ->]. by destruct (decode_body _ _ _ _).
  - reflexivity.
Qed.

(** A message published on NATS reaches the subscriber's handler under its
    topic, with the body the codec decodes from what the publisher encoded, and
    with the first values of the headers of [WithHeaders]; the headers of the
    message itself do not travel.  An undecodable body goes to the error handler
    and not to the handler. *)
Theorem nats_round_trip b codec send ctx topic (msg : Message (A := gv T)) hs m binder handler eh autoAck :
  publish gob_Encode b codec send ctx topic msg [WithHeaders hs] = Returned (None, Some m) -> bindable codec binder ->
  exists data, Marshal gob_Encode codec (Body msg) = inl data /\
    fn gob_Decode codec binder handler eh autoAck m =
      Returned
        match decode_body gob_Decode codec binder data with
        | inr err => if eh then [AErrorHandler err] else []
        | inl body =>
            let e := mkEvent topic (Some (mkMessage "" (Some (omap head hs)) (Some body) "" None 0 0 None)) in
            AHandler e :: match handler e with Some err => if eh then [AErrorHandler err] else [] | None => [] end
        end.
Proof.
  intros Hp Hb. unfold publish in Hp. destruct (Marshal gob_Encode codec (Body msg)) as [data|]; [|done].
  destruct (conn b); [|done]. exists data. split; [done|].
  assert (build_msg topic data ((headersKey, VHeaders hs) :: ctx) = mkNatsMsg topic (add_headers hs ∅) data "") as E
    by (unfold build_msg; cbn [Value]; by rewrite decide_True).
  cbn [publish_options apply_opts fold_left WithHeaders PublishContextWithValue po_Context ContextWithValue from_option id] in Hp.
  rewrite E in Hp. injection Hp as _ <-. unfold fn. rewrite callback_returns by (done || apply add_headers_wire).
  unfold event_of, ack_actions. cbn [Subject Header Data Reply String.eqb]. rewrite omap_head_add.
  destruct (decode_body _ _ _ data); [|by rewrite app_nil_r]. destruct (handler _); [by rewrite app_nil_r|by destruct autoAck].
Qed.

(** The settlements among a callback's actions. *)
Definition settlements (l : list (action (T := T))) : list (action (T := T)) :=
  List.filter (fun a => match a with AAck | ANak => true | _ => false end) l.

(** JetStream messages are settled once: a message that cannot be decoded or
    whose handler fails is negatively acknowledged, exactly once; one whose
    handler succeeds is acknowledged exactly once when automatic acknowledgement
    is on, not overridden by [WithManualAck], and the message can be acknowledged,
    and not at all otherwise.  The handler runs at most once. *)
Theorem nats_js_settlement codec binder handler eh autoAck manualAck msg :
  wire (Header msg) -> bindable codec binder ->
  exists acts, js_fn gob_Decode codec binder handler eh autoAck manualAck msg = Returned acts /\
    settlements acts =
      match handle gob_Decode codec binder (Data msg) (fun body => handler (event_of msg (omap head (Header msg)) body)) with
      | Undecodable _ | Failed _ => [ANak]
      | Succeeded => if autoAck && negb manualAck && negb (String.eqb (Reply msg) "") then [AAck] else []
      end /\
    (length (List.filter (fun a => match a with AHandler _ => true | _ => false end) acts) <= 1)%nat.
Proof.
  intros Hw Hb. eexists. split; [unfold js_fn; by apply callback_returns|]. unfold handle.
  destruct (decode_body _ _ _ _) as [body|err]; [|destruct eh; simpl; auto].
  cbn zeta. destruct (handler _) as [err|]; [destruct eh; simpl; auto|].
  unfold ack_actions. destruct autoAck, manualAck, (String.eqb (Reply msg) ""); simpl; auto.
Qed.

(** The pull loop handles every message it fetches, in order, until the first
    round that finds the subscriber closed, and ends there. *)
Fixpoint fetched (rounds : list (bool * fetch)) : list natsMsg :=
  match rounds with
  | (false, Fetched msgs) :: rs => msgs ++ fetched rs
  | (false, FetchRetry) :: rs | (false, FetchError false) :: rs => fetched rs
  | _ => []
  end.
Lemma pullLoop_fetched rounds :
  fst (pullLoop rounds) = fetched rounds /\
  (snd (pullLoop rounds) = true <-> exists r, r ∈ rounds /\ (fst r = true \/ snd r = FetchError true)).
Proof.
  induction rounds as [|[[] f] rounds [IH1 IH2]]; cbn [pullLoop fetched].
  - split; [done|]. split; [done|]. by intros (r&[]%elem_of_nil&_).
  - split; [done|]. split; [|done]. intros _. exists (true, f). split; [left|by left].
  - destruct f as [|[]|msgs]; cbn [fst snd].
    + split; [done|]. rewrite IH2. split; intros (r&Hr&Hc); exists r; [split; [by right|done]|].
      apply elem_of_cons in Hr as [->|]; [destruct Hc; done|done].
    + split; [done|]. split; [|done]. intros _. exists (false, FetchError true). split; [left|by right].
    + split; [done|]. rewrite IH2. split; intros (r&Hr&Hc); exists r; [split; [by right|done]|].
      apply elem_of_cons in Hr as [->|]; [destruct Hc; done|done].
    + destruct (pullLoop rounds) as [l e]. cbn [fst snd] in *. split; [by rewrite IH1|]. rewrite IH2.
      split; intros (r&Hr&Hc); exists r; [split; [by right|done]|]. apply elem_of_cons in Hr as [->|]; [destruct Hc; done|done].
Qed.
End facts.

(** ** The connection *)

Inductive conn_op := OpConnect (live : bool) (dial : nat + error) (context : option error) | OpDisconnect.
Definition conn_step (o : conn_op) (b : natsBroker) : natsBroker :=
  match o with
  | OpConnect live dial context => snd (js_Connect live dial context b)
  | OpDisconnect => default b (Disconnect b)
  end.
Definition new_broker (drain : bool) : natsBroker := mkBroker false None false drain NewSubscriberSyncMap.

(** JetStream's bookkeeping: whenever the driver counts as connected it has a
    connection and a context, so that a publish is not refused; this holds whatever
    connecting, failing and disconnecting came before, provided a connection is
    only found alive when it has a context (a failed [Connect] closes its own). *)
Theorem nats_js_connected ops d :
  Forall (fun o => match o with OpConnect true _ _ => False | _ => True end) ops ->
  let b := fold_left (fun b o => conn_step o b) ops (new_broker d) in
  connected b = true -> js b = true /\ is_Some (conn b).
Proof.
  intros Hops. assert (forall b, (connected b = true -> js b = true /\ is_Some (conn b)) ->
    connected (fold_left (fun b o => conn_step o b) ops b) = true ->
    js (fold_left (fun b o => conn_step o b) ops b) = true /\ is_Some (conn (fold_left (fun b o => conn_step o b) ops b))) as H; [|by apply H].
  induction Hops as [|o ops Ho _ IH]; intros b Hb; [done|]. cbn [fold_left]. apply IH.
  destruct o as [live dial context|]; cbn [conn_step].
  - unfold js_Connect. destruct (connected b) eqn:E; [cbn; auto|]. destruct live; [done|]. cbn [andb].
    destruct dial as [c|]; [|cbn; congruence]. destruct context; cbn; [done|]. eauto.
  - unfold Disconnect. destruct (drain b); cbn; done.
Qed.

(** With [DrainConnection] the driver cannot be disconnected: [Disconnect] blocks
    for ever, holding the driver's lock. *)
Theorem nats_drain_blocks b : drain b = true -> Disconnect b = None.
Proof. intros H. unfold Disconnect. by rewrite H. Qed.

(** The scheme [setAddrs] adds is not used: the addresses dialled are those given. *)
Lemma setAddrs_unused n s : addrs s <> [] -> Servers (dial_options (setOption n s)) = addrs s.
Proof. intros H. unfold setOption, dial_options. cbn. by destruct (addrs s). Qed.

(** A message of a core request is acknowledged: its reply subject is taken for
    JetStream's. *)
Example core_request_acked :
  fn (T := unit) (fun _ v => (None, v)) None None (fun _ => None) false true (mkNatsMsg "svc" ∅ [] "_INBOX.1") =
    Returned [AHandler (mkEvent "svc" (Some (mkMessage "" (Some ∅) (Some (AValue (GBytes []))) "" None 0 0 None))); AAck].
Proof. reflexivity. Qed.

Lemma nats_round_trip_witness :
  let no_gob := fun (_ : value unit) => inr (Errorf "gob") : bytes + error in
  let no_gobd := fun (_ : bytes) (v : value unit) => (None, v) in
  let msg := mkMessage "" (Some {["a" := "lost"]}) (Some (AString "hi")) "" None 0 0 None in
  let b := mkBroker true (Some 0%nat) false false NewSubscriberSyncMap in
  let m := mkNatsMsg "t" {["h" := ["1"; "2"]]} (String.list_ascii_of_string "hi") "" in
  publish no_gob b None (fun _ => None) [] "t" msg [WithHeaders {["h" := ["1"; "2"]; "e" := []]}] = Returned (None, Some m) /\
  exists data, Marshal no_gob None (Body msg) = inl data /\
    fn no_gobd None None (fun _ => None) false true m =
      Returned [AHandler (mkEvent "t" (Some (mkMessage "" (Some {["h" := "1"]}) (Some (AValue (GBytes data))) "" None 0 0 None)))].
Proof.
  intros no_gob no_gobd msg b m.
  assert (publish no_gob b None (fun _ => None) [] "t" msg [WithHeaders {["h" := ["1"; "2"]; "e" := []]}] = Returned (None, Some m)) as Hp
    by (vm_compute; reflexivity).
  split; [exact Hp|].
  destruct (nats_round_trip no_gob no_gobd b None (fun _ => None) [] "t" msg _ m None (fun _ => None) false true Hp ltac:(done)) as (data&Hd&Hf).
  exists data. split; [exact Hd|]. etransitivity; [exact Hf|]. reflexivity.
Defined.

Lemma nats_js_settlement_witness :
  exists acts, js_fn (T := unit) (fun _ v => (None, v)) None None (fun _ => Some (Errorf "no")) true true false
      (mkNatsMsg "t" ∅ [] "$JS.ACK") = Returned acts /\ settlements acts = [ANak].
Proof.
  assert (wire (Header (mkNatsMsg "t" ∅ [] "$JS.ACK"))) as Hw by (intros k v; cbn; by rewrite lookup_empty).
  destruct (nats_js_settlement (T := unit) (fun _ v => (None, v)) None None (fun _ => Some (Errorf "no")) true true false
    (mkNatsMsg "t" ∅ [] "$JS.ACK") Hw ltac:(done)) as (acts&H1&H2&_).
  exists acts. split; [exact H1|exact H2].
Defined.
