(* ===== verification/Redis.v ===== *)
(** [broker/redis]: the connection options, the Pub/Sub driver and the Stream
    driver.  Redis itself is a parameter; its replies are values of the protocol
    as redigo returns them: bulk strings as byte slices, simple strings as
    strings. *)
From Stdlib Require Import ZArith Lia Ascii.
From S2P Require Import Prelude GoErrors GoTime NetPacket Encoding Broker BrokerCodec BrokerOptions.
From stdpp Require Import base gmap strings list fin_maps.
Open Scope string_scope.
Open Scope list_scope.
Open Scope Z_scope.

Abbreviation chars := String.list_ascii_of_string.

(** * [option/option.go] *)

Record CommonOptions := mkCommon {
  MaxIdle : Z;
  MaxActive : Z;
  IdleTimeout : Duration;
  ConnectTimeout : Duration;
  ReadTimeout : Duration;
  WriteTimeout : Duration
}.

Definition zero_options : CommonOptions := mkCommon 0 0 0 0 0 0.
(** The default constants, and what [NewBroker] starts from. *)
Definition default_options : CommonOptions := mkCommon 256 0 0 (30 * Second) (30 * Second) (30 * Second).
Definition DefaultHealthCheckPeriod : Duration := 60 * Second.

(** The options' value in the broker's context, if there is one.  An option writes
    its field through the pointer, or puts a new record there. *)
Definition with_field (f : CommonOptions -> CommonOptions) (ctx : option CommonOptions) : option CommonOptions :=
  Some (f (default zero_options ctx)).

Definition WithConnectTimeout (d : Duration) := with_field (fun o => mkCommon (MaxIdle o) (MaxActive o) (IdleTimeout o) d (ReadTimeout o) (WriteTimeout o)).
Definition WithReadTimeout (d : Duration) := with_field (fun o => mkCommon (MaxIdle o) (MaxActive o) (IdleTimeout o) (ConnectTimeout o) d (WriteTimeout o)).
Definition WithWriteTimeout (d : Duration) := with_field (fun o => mkCommon (MaxIdle o) (MaxActive o) (IdleTimeout o) (ConnectTimeout o) (ReadTimeout o) d).
Definition WithIdleTimeout (d : Duration) := with_field (fun o => mkCommon (MaxIdle o) (MaxActive o) d (ConnectTimeout o) (ReadTimeout o) (WriteTimeout o)).
Definition WithMaxIdle (n : Z) := with_field (fun o => mkCommon n (MaxActive o) (IdleTimeout o) (ConnectTimeout o) (ReadTimeout o) (WriteTimeout o)).
Definition WithMaxActive (n : Z) := with_field (fun o => mkCommon (MaxIdle o) n (IdleTimeout o) (ConnectTimeout o) (ReadTimeout o) (WriteTimeout o)).
Definition WithDefaultOptions (ctx : option CommonOptions) : option CommonOptions := Some default_options.

(** * What the two drivers share *)

Definition defaultBroker : string := "redis://127.0.0.1:6379".

Definition init_addr (addrs : list string) : string :=
  match addrs with
  | [] => defaultBroker
  | a :: _ => if String.eqb a "" then defaultBroker else if String.prefix "redis://" a then a else ("redis://" ++ a)%string
  end.

(** The broker: its address, whether it has a pool (with the settings it was made
    of), the addresses and the context of its options, and its subscribers. *)
Record redisBroker := mkBroker {
  addr : string;
  pool : option CommonOptions;
  opt_addrs : list string;
  opt_ctx : option CommonOptions;
  commonOpts : CommonOptions;
  subscribers : SubscriberSyncMap
}.

(** [func NewBroker(opts ...broker.Option)] of both packages. *)
Definition NewBroker (addrs : list string) (ctx : option CommonOptions) : redisBroker :=
  mkBroker "" None addrs ctx default_options NewSubscriberSyncMap.

(** [func (b *pubsubBroker) Init], [func (b *streamBroker) Init]: the address is
    computed before the options are applied. *)
Definition Init (who : string) (opts : list ((list string * option CommonOptions) -> (list string * option CommonOptions))) (b : redisBroker) :
    option error * redisBroker :=
  match pool b with
  | Some _ => (Some (Errorf (who ++ ": cannot init while connected")%string), b)
  | None =>
      let a := init_addr (opt_addrs b) in
      let '(addrs', ctx') := apply_opts opts (opt_addrs b, opt_ctx b) in
      (None, mkBroker a None addrs' ctx' (default (commonOpts b) ctx') (subscribers b))
  end.

(** [func (b *pubsubBroker) Connect], and the stream driver's: the pool dials
    lazily. *)
Definition Connect (b : redisBroker) : redisBroker :=
  match pool b with
  | Some _ => b
  | None => mkBroker (addr b) (Some (commonOpts b)) (opt_addrs b) (opt_ctx b) (commonOpts b) (subscribers b)
  end.

(** [func (b *streamBroker) Disconnect() error]; the Pub/Sub driver's has no test of
    the pool, whose [Close] panics when it is nil. *)
Definition stream_Disconnect (b : redisBroker) : redisBroker :=
  match pool b with
  | None => b
  | Some _ => mkBroker "" None (opt_addrs b) (opt_ctx b) (commonOpts b) (Clear (subscribers b))
  end.
Definition pubsub_Disconnect (b : redisBroker) : result redisBroker :=
  match pool b with
  | None => Panicked
  | Some _ => Returned (mkBroker "" None (opt_addrs b) (opt_ctx b) (commonOpts b) (Clear (subscribers b)))
  end.

Section drivers.
Context {T : Type} (gob_Encode : value T -> bytes + error) (gob_Decode : bytes -> value T -> option error * value T).

(** [func (b *pubsubBroker) Request], and the stream driver's. *)
Definition Request : error := Errorf "not implemented".

(** The body both [internalPublish]s send. *)
Definition publish_body (codec : option (Codec (value T))) (msg : Message (A := gv T)) : bytes + error := Marshal gob_Encode codec (Body msg).

(** * The Pub/Sub driver *)

(** [publish]: the arguments of [PUBLISH]; a nil pool panics. *)
Definition pubsub_publish (b : redisBroker) (codec : option (Codec (value T))) (topic : string) (msg : Message (A := gv T)) : result (string * bytes + error) :=
  match publish_body codec msg with
  | inr err => Returned (inr err)
  | inl data => match pool b with None => Panicked | Some _ => Returned (inl (topic, data)) end
  end.

(** [func (s *subscriber) onMessage] of both drivers: decoding, the handler, and
    whether [Ack] is called. *)
Definition onMessage (codec : option (Codec (value T))) (binder : option (unit -> gv T)) (handler : Event (T := T) -> option error)
    (autoAck : bool) (topic : string) (data : bytes) : option error * bool :=
  match decode_body gob_Decode codec binder data with
  | inr err => (Some err, false)
  | inl body =>
      match handler (mkEvent topic (Some (mkMessage "" None (Some body) "" None 0 0 None))) with
      | Some err => (Some err, false)
      | None => (None, autoAck)
      end
  end.

(** What [receiveLoop] meets: the health check's report, a nil connection, or what
    [Receive] returns. *)
Inductive inbound := Ping (err : option error) | NoConn | RecvError (err : error) | RecvMessage (channel : string) (data : bytes)
| RecvSubscription (count : Z) | Pong.

(** [func (s *subscriber) receiveLoop() error]: the messages handed to [onMessage],
    and the result ([None] while it goes on). *)
Fixpoint receiveLoop (ins : list inbound) : list (string * bytes) * option (option error) :=
  match ins with
  | [] => ([], None)
  | Ping err :: _ => ([], Some err)
  | NoConn :: _ => ([], Some (Some (Errorf "connection is nil")))
  | RecvError err :: _ => ([], Some (Some err))
  | RecvMessage c d :: rest => let '(l, r) := receiveLoop rest in ((c, d) :: l, r)
  | RecvSubscription n :: rest => if n =? 0 then ([], Some None) else receiveLoop rest
  | Pong :: rest => receiveLoop rest
  end.

(** One round of [recv]: whether the subscriber is closed at its start, whether a
    needed [reconnect] succeeds, what the receiving loop meets, whether the
    subscriber is closed then, and whether the context ends the wait. *)
Record round := mkRound { r_closed : bool; r_reconnect : bool; r_in : list inbound; r_closed_after : bool; r_done : bool }.

(** After a round: still receiving, at the end, or after the pause that follows a
    failure. *)
Inductive recv_end := Receiving | Ended | Sleeping (has_conn : bool) (slept next : Duration).

Definition maxReconnectDelay : Duration := 30 * Second.

Definition recv_round (r : round) (has_conn : bool) (delay : Duration) : list (string * bytes) * recv_end :=
  let pause d := if r_done r then Ended else Sleeping false d (next_delay maxReconnectDelay d) in
  if r_closed r then ([], Ended)
  else if negb has_conn && negb (r_reconnect r) then ([], pause delay)
  else
    let d := if has_conn then delay else 1 * Second in
    let '(msgs, res) := receiveLoop (r_in r) in
    (msgs, match res with
           | None => Receiving
           | Some None => Ended
           | Some (Some _) => if r_closed_after r then Ended else pause d
           end).

(** [func (s *subscriber) recv()]: messages, delays slept, and whether it ended. *)
Fixpoint recv (rs : list round) (has_conn : bool) (delay : Duration) : list (string * bytes) * list Duration * bool :=
  match rs with
  | [] => ([], [], false)
  | r :: rs' =>
      let '(msgs, e) := recv_round r has_conn delay in
      match e with
      | Receiving => (msgs, [], false)
      | Ended => (msgs, [], true)
      | Sleeping hc slept next => let '(m, ds, b) := recv rs' hc next in (msgs ++ m, slept :: ds, b)
      end
  end.

(** * The Stream driver *)

(** An argument of a command, and a reply. *)
Inductive arg := ArgString (s : string) | ArgBytes (b : bytes) | ArgInt (n : Z).
Inductive reply := RNil | RInt (n : Z) | RSimple (s : string) | RBulk (b : bytes) | RArray (l : list reply).

(** [publish]: the arguments of [XADD]; [maxLen] is the option's value. *)
Definition xadd_args (stream : string) (maxLen : option Z) (data : bytes) (headers : option Headers) : list arg :=
  [ArgString stream] ++
  (if 0 <? default 0 maxLen then [ArgString "MAXLEN"; ArgString "~"; ArgInt (default 0 maxLen)] else []) ++
  [ArgString "*"; ArgString "body"; ArgBytes data] ++
  concat (map (fun '(k, v) => [ArgString k; ArgString v]) (map_to_list (default ∅ headers))).

Definition stream_publish (b : redisBroker) (codec : option (Codec (value T))) (maxLen : option Z) (stream : string) (msg : Message (A := gv T)) :
    result (list arg + error) :=
  match publish_body codec msg with
  | inr err => Returned (inr err)
  | inl data => match pool b with None => Panicked | Some _ => Returned (inl (xadd_args stream maxLen data (msg_Headers msg))) end
  end.

(** [func (b *streamBroker) ensureGroup]: [do] is the result of [XGROUP CREATE], and
    whether its text contains [BUSYGROUP]. *)
Definition ensureGroup (do : option (error * bool)) : option error :=
  match do with
  | Some (err, busy) => if busy then None else Some err
  | None => None
  end.

(** [func (s *subscriber) extractField(fields []any, key string) any] *)
Fixpoint extractField (fields : list reply) (key : string) : option reply :=
  match fields with
  | k :: v :: rest =>
      if match k with RBulk b => bool_decide (b = chars key) | _ => false end then Some v else extractField rest key
  | _ => None
  end.

(** One entry of a reply: the identifier and the data given to [onMessage].  The
    identifier is asserted to be a string. *)
Definition entry (e : reply) : option (string * bytes) :=
  match e with
  | RArray (i :: fs :: _) =>
      let msgID := match i with RSimple s => s | _ => "" end in
      let fields := match fs with RArray l => l | _ => [] end in
      match extractField fields "body" with
      | Some (RBulk data) => Some (msgID, data)
      | _ => None
      end
  | _ => None
  end.

(** The messages of a reply, until the subscriber is found closed; [open] counts
    the entries seen before that. *)
Definition reply_entries (r : reply) : list reply :=
  match r with
  | RArray streams => concat (map (fun s => match s with RArray (_ :: RArray msgs :: _) => msgs | _ => [] end) streams)
  | _ => []
  end.
Definition stream_messages (open : nat) (r : reply) : list (string * bytes) := omap entry (take open (reply_entries r)).

(** [func (p *publication) Ack() error]: the arguments of [XACK], once; [do] is its
    result. *)
Definition stream_Ack (acked has_pool : bool) (topic group msgID : string) (do : option error) : option error * bool * option (string * string * string) :=
  if acked then (None, true, None)
  else if negb has_pool then (None, false, None)
  else (do, match do with None => true | Some _ => false end, Some (topic, group, msgID)).

(** The settings of a subscription. *)
Record stream_sub := mkStreamSub { group : string; consumer : string; blockTime : Duration; count : Z }.
Definition stream_settings (g c : option string) (block : option Duration) (n : option Z) : stream_sub :=
  let str v d := match v with Some s => if String.eqb s "" then d else s | None => d end in
  let pos v d := match v with Some x => if 0 <? x then x else d | None => d end in
  mkStreamSub (str g "wind-group") (str c "wind-consumer") (pos block (5 * Second)) (pos n 10).

(** One pass of the stream driver's [receiveLoop]: whether the subscriber is closed
    or its context done, the broker's pool (read at every pass), the reply of
    [XREADGROUP], and how many entries are seen before the subscriber is found
    closed. *)
Record pass := mkPass { p_closed : bool; p_done : bool; p_pool : option CommonOptions; p_read : reply + error; p_open : nat }.

(** [func (s *subscriber) receiveLoop() error] of the stream driver: the messages
    handed to [onMessage], and how it ends ([None] while it goes on); a nil pool
    panics. *)
Fixpoint stream_receiveLoop (ps : list pass) : list (string * bytes) * option (result (option error)) :=
  match ps with
  | [] => ([], None)
  | p :: ps' =>
      if p_closed p || p_done p then ([], Some (Returned None))
      else
        match p_pool p, p_read p with
        | None, _ => ([], Some Panicked)
        | Some _, inr err => ([], Some (Returned (Some err)))
        | Some _, inl r =>
            let msgs := stream_messages (p_open p) r in
            if (length (reply_entries r) <=? p_open p)%nat then let '(l, e) := stream_receiveLoop ps' in (msgs ++ l, e)
            else (msgs, Some (Returned None))
        end
  end.

(** One round of the stream driver's [recv]; [sr_pool] is the pool [ensureGroup]
    finds after the pause. *)
Record stream_round := mkStreamRound { sr_closed : bool; sr_passes : list pass; sr_closed_after : bool; sr_done : bool; sr_pool : option CommonOptions }.

Inductive stream_end := SRunning | SEnded | SCrashed.

(** [func (s *subscriber) recv()] of the stream driver: messages, pauses, and how it
    ends.  The delay is never reset. *)
Fixpoint stream_recv (rs : list stream_round) (delay : Duration) : list (string * bytes) * list Duration * stream_end :=
  match rs with
  | [] => ([], [], SRunning)
  | r :: rs' =>
      if sr_closed r then ([], [], SEnded)
      else
        let '(msgs, res) := stream_receiveLoop (sr_passes r) in
        match res with
        | None => (msgs, [], SRunning)
        | Some Panicked => (msgs, [], SCrashed)
        | Some (Returned None) => (msgs, [], SEnded)
        | Some (Returned (Some _)) =>
            if sr_closed_after r || sr_done r then (msgs, [], SEnded)
            else
              match sr_pool r with
              | None => (msgs, [delay], SCrashed)
              | Some _ => let '(m, ds, e) := stream_recv rs' (next_delay maxReconnectDelay delay) in (msgs ++ m, delay :: ds, e)
              end
        end
  end.

(** [func (b *streamBroker) Subscribe], [func (b *pubsubBroker) Subscribe]: [n] is the
    new subscriber; a nil pool panics. *)
Definition stream_Subscribe (topic : string) (do : option (error * bool)) (n : nat) (b : redisBroker) : result ((nat + error) * redisBroker) :=
  match pool b with
  | None => Panicked
  | Some _ =>
      Returned match ensureGroup do with
               | Some err => (inr err, b)
               | None => (inl n, mkBroker (addr b) (pool b) (opt_addrs b) (opt_ctx b) (commonOpts b) (Broker.Add topic n (subscribers b)))
               end
  end.
Definition pubsub_Subscribe (topic : string) (do : option error) (n : nat) (b : redisBroker) : result ((nat + error) * redisBroker) :=
  match pool b with
  | None => Panicked
  | Some _ =>
      Returned match do with
               | Some err => (inr err, b)
               | None => (inl n, mkBroker (addr b) (pool b) (opt_addrs b) (opt_ctx b) (commonOpts b) (Broker.Add topic n (subscribers b)))
               end
  end.

(** [func (s *subscriber) reconnect() bool]: [get] is whether the pool gives a
    connection, [do] the result of subscribing on it. *)
Definition reconnect (has_pool get : bool) (do : option error) : bool :=
  has_pool && get && match do with None => true | Some _ => false end.

(** [func (s *subscriber) Unsubscribe(removeFromManager bool) error] of both drivers *)
Definition Unsubscribe (topic : string) (removeFromManager : bool) (b : redisBroker) : redisBroker :=
  if removeFromManager
  then mkBroker (addr b) (pool b) (opt_addrs b) (opt_ctx b) (commonOpts b) (snd (RemoveOnly topic (subscribers b))) else b.
End drivers.

(** The two drivers' own copies of what they share. *)
Definition pubsub_Init := Init "redis".
Definition stream_Init := Init "redis-stream".
Definition pubsub_NewBroker := NewBroker.
Definition stream_NewBroker := NewBroker.
Definition stream_Connect := Connect.

(** [func NewBroker(driverType option.DriverType, opts ...broker.Option)]: whether
    the stream driver is made. *)
Definition is_stream (driverType : string) : bool := String.eqb driverType "stream".

(** * Properties *)

(** What Redis stores for an [XADD], and returns for the entry: the fields after
    the identifier, as bulk strings. *)
Definition arg_bytes (a : arg) : bytes := match a with ArgString s => chars s | ArgBytes b => b | ArgInt _ => [] end.
Fixpoint after_star (l : list arg) : list arg :=
  match l with
  | ArgString "*" :: rest => rest
  | _ :: rest => after_star rest
  | [] => []
  end.
Definition stored (args : list arg) : list reply := map (fun a => RBulk (arg_bytes a)) (after_star (drop 1 args)).
Definition read_reply (stream id : bytes) (args : list arg) : reply :=
  RArray [RArray [RBulk stream; RArray [RArray [RBulk id; RArray (stored args)]]]].

Section facts.
Context {T : Type} (gob_Encode : value T -> bytes + error) (gob_Decode : bytes -> value T -> option error * value T).

Lemma stored_xadd stream maxLen data headers :
  stored (xadd_args stream maxLen data headers) =
    RBulk (chars "body") :: RBulk data ::
      map (fun a => RBulk (arg_bytes a)) (concat (map (fun '(k, v) => [ArgString k; ArgString v]) (map_to_list (default ∅ headers)))).
Proof. unfold stored, xadd_args. by destruct (0 <? default 0 maxLen). Qed.

(** A message added to a Redis stream is delivered: whatever its headers
    (even one named [body]) and length limit, the subscriber that reads the entry
    hands exactly the encoded body to [onMessage], once, and the handler gets the
    decoded value; but none of the headers, and the entry's identifier, a bulk
    string, arrives empty, so that acknowledging it asks Redis to acknowledge the
    empty identifier. *)
Theorem redis_stream_round_trip b codec maxLen topic id (msg : Message (A := gv T)) args binder handler autoAck group acked_result :
  stream_publish gob_Encode b codec maxLen topic msg = Returned (inl args) ->
  exists data, Marshal gob_Encode codec (Body msg) = inl data /\
    stream_messages 1 (read_reply (chars topic) id args) = [("", data)] /\
    onMessage gob_Decode codec binder handler autoAck topic data =
      match decode_body gob_Decode codec binder data with
      | inr err => (Some err, false)
      | inl body =>
          match handler (mkEvent topic (Some (mkMessage "" None (Some body) "" None 0 0 None))) with
          | Some err => (Some err, false)
          | None => (None, autoAck)
          end
      end /\
    snd (stream_Ack false true topic group "" acked_result) = Some (topic, group, "").
Proof.
  unfold stream_publish, publish_body. intros H. destruct (Marshal gob_Encode codec (Body msg)) as [data|]; [|done].
  destruct (pool b); [|done]. injection H as <-. exists data. split_and!; [done| |done|done].
  unfold stream_messages, read_reply. cbn [reply_entries map concat app take omap list_omap entry]. rewrite stored_xadd. reflexivity.
Qed.

(** The receiving goroutine of a Pub/Sub subscription sleeps between attempts
    for a time that starts at one second, doubles and never reaches sixty-four;
    and it ends only when the subscription was closed, its context is done, or the
    server confirmed the last unsubscription. *)
Theorem redis_pubsub_recv rs has_conn delay :
  0 < delay < 64 * Second ->
  Forall (fun d => 0 < d < 64 * Second) (snd (fst (recv rs has_conn delay))) /\
  (forall msgs ds, recv rs has_conn delay = (msgs, ds, true) ->
     exists r, r ∈ rs /\ (r_closed r = true \/ r_closed_after r = true \/ r_done r = true \/
       snd (receiveLoop (r_in r)) = Some None)).
Proof.
  revert has_conn delay. induction rs as [|r rs IH]; intros has_conn delay Hd; [by split|]. cbn [recv].
  assert (0 < next_delay maxReconnectDelay delay < 64 * Second) as Hn.
  { pose proof (delays_bounded 2 delay Hd) as H. cbn [delays] in H. by apply Forall_cons in H as [_ [? _]%Forall_cons]. }
  assert (0 < next_delay maxReconnectDelay (1 * Second) < 64 * Second) as Hn1 by (vm_compute; done).
  assert (forall (d : Duration) msgs, 0 < d < 64 * Second -> 0 < next_delay maxReconnectDelay d < 64 * Second ->
    forall p, p = (let '(m, ds, b) := recv rs false (next_delay maxReconnectDelay d) in (msgs ++ m, d :: ds, b)) ->
    Forall (fun d => 0 < d < 64 * Second) (snd (fst p)) /\
    (forall msgs ds, p = (msgs, ds, true) -> exists r0, r0 ∈ r :: rs /\ (r_closed r0 = true \/ r_closed_after r0 = true \/ r_done r0 = true \/
       snd (receiveLoop (r_in r0)) = Some None))) as Hsleep.
  { intros d msgs Hd' Hn' p ->. destruct (IH false _ Hn') as [Hf He]. destruct (recv rs false _) as [[m ds] e] eqn:E. cbn in *.
    split; [by constructor|]. intros ms ds' [= _ _ ->]. destruct (He _ _ eq_refl) as (r0&?&?). exists r0. split; [by right|done]. }
  unfold recv_round. destruct (r_closed r) eqn:Ec.
  { split; [done|]. intros ? ? _. exists r. split; [left|by left]. }
  destruct (negb has_conn && negb (r_reconnect r)).
  { destruct (r_done r) eqn:Edone; [|by eapply (Hsleep delay [])]. split; [done|]. intros ? ? _. exists r. split; [left|by right; right; left]. }
  destruct (receiveLoop (r_in r)) as [msgs res] eqn:Er.
  destruct res as [[err|]|]; [|split; [done|]; intros ? ? _; exists r; split; [left|by rewrite Er; auto]|by split].
  destruct (r_closed_after r) eqn:Ea; [split; [done|]; intros ? ? _; exists r; split; [left|by right; left]|].
  destruct (r_done r) eqn:Edone; [split; [done|]; intros ? ? _; exists r; split; [left|by right; right; left]|].
  destruct has_conn; [by eapply (Hsleep delay msgs)|by eapply (Hsleep (1 * Second) msgs)].
Qed.

(** The entries Redis delivered to a subscriber whose loop was not closed. *)
Definition delivered (ps : list pass) : list (string * bytes) :=
  concat (map (fun p => match p_read p with inl r => omap entry (reply_entries r) | inr _ => [] end) ps).

Lemma stream_receiveLoop_prefix ps : fst (stream_receiveLoop ps) `prefix_of` delivered ps.
Proof.
  induction ps as [|p ps IH]; [done|]. cbn [stream_receiveLoop]. unfold delivered. cbn [map concat]. fold (delivered ps).
  destruct (p_closed p || p_done p); [apply prefix_nil|].
  destruct (p_pool p), (p_read p) as [r|err]; try apply prefix_nil. unfold stream_messages.
  destruct (Nat.leb_spec (length (reply_entries r)) (p_open p)) as [Hle|Hlt].
  - destruct (stream_receiveLoop ps) as [l e]. cbn [fst] in *. rewrite take_ge by done. by apply prefix_app.
  - cbn [fst]. apply prefix_app_r. rewrite <- (take_drop (p_open p) (reply_entries r)) at 2. rewrite omap_app. by apply prefix_app_r.
Qed.

(** The receiving goroutine of a stream subscription.  Within one connection
    the messages handed on are an initial part of those Redis delivered, in order;
    the pauses are those of [delays], from the first on, never reset by a success;
    and while the broker keeps its pool the goroutine does not crash. *)
Theorem redis_stream_recv rs delay :
  snd (fst (stream_recv rs delay)) = delays maxReconnectDelay delay (length (snd (fst (stream_recv rs delay)))) /\
  fst (fst (stream_recv rs delay)) `sublist_of` concat (map (fun r => delivered (sr_passes r)) rs) /\
  (snd (stream_recv rs delay) = SCrashed -> exists r, r ∈ rs /\ (sr_pool r = None \/ exists p, p ∈ sr_passes r /\ p_pool p = None)).
Proof.
  revert delay. induction rs as [|r rs IH]; intros delay; [done|]. cbn [stream_recv map concat].
  destruct (sr_closed r); [split_and!; [done|apply sublist_nil_l|done]|].
  pose proof (stream_receiveLoop_prefix (sr_passes r)) as Hp.
  assert (snd (stream_receiveLoop (sr_passes r)) = Some Panicked -> exists p, p ∈ sr_passes r /\ p_pool p = None) as Hpan.
  { clear. induction (sr_passes r) as [|p ps IHp]; [done|]. cbn [stream_receiveLoop]. destruct (p_closed p || p_done p); [done|].
    destruct (p_pool p) eqn:E; [|intros _; exists p; split; [left|done]]. destruct (p_read p); [|done].
    destruct (_ <=? _)%nat; [|done]. destruct (stream_receiveLoop ps); cbn [snd] in *. intros H.
    destruct (IHp H) as (q&?&?). exists q. split; [by right|done]. }
  destruct (stream_receiveLoop (sr_passes r)) as [msgs res]. cbn [fst snd] in *.
  assert (msgs `sublist_of` delivered (sr_passes r) ++ concat (map (fun r => delivered (sr_passes r)) rs)) as Hs.
  { destruct Hp as [k ->]. rewrite <- (assoc app). apply sublist_inserts_r. done. }
  destruct res as [[[err|]|]|]; cbn [fst snd length delays]; try (split_and!; [done|exact Hs|done]);
    [|split_and!; [done|exact Hs|]; intros _; exists r; split; [left|right; by apply Hpan]].
  destruct (sr_closed_after r || sr_done r); [split_and!; [done|exact Hs|done]|].
  destruct (sr_pool r) eqn:Epool; [|split_and!; [done|exact Hs|intros _; exists r; split; [left|by left]]].
  destruct (IH (next_delay maxReconnectDelay delay)) as (H1&H2&H3). destruct (stream_recv rs _) as [[m ds] e]. cbn [fst snd] in *.
  split_and!; [cbn [length delays]; congruence| |].
  - apply sublist_app; [|done]. destruct Hp as [k ->]. by apply sublist_inserts_r.
  - intros He. destruct (H3 He) as (r0&?&?). exists r0. split; [by right|done].
Qed.
End facts.

(** Setting one option alone resets every other to zero: the defaults only hold
    when no option is given. *)
Theorem redis_options_reset d :
  commonOpts (snd (Init "redis" [] (NewBroker [] None))) = default_options /\
  commonOpts (snd (Init "redis" [] (NewBroker [] (WithConnectTimeout d None)))) = mkCommon 0 0 0 d 0 0.
Proof. split; reflexivity. Qed.

(** An address given to [Init] comes too late for it. *)
Lemma init_ignores_address a :
  addr (snd (Init "redis" [fun '(_, c) => ([a], c)] (NewBroker [] None))) = defaultBroker.
Proof. reflexivity. Qed.

(** [Disconnect] takes the pool away before it closes the subscribers: a stream
    subscriber between two passes then panics, and the process with it. *)
Example disconnect_crashes_subscriber :
  stream_recv [mkStreamRound false [mkPass false false (pool (stream_Disconnect (Connect (NewBroker [] None)))) (inl RNil) 0] false false None] Second =
    ([], [], SCrashed) /\
  pubsub_Disconnect (NewBroker [] None) = Panicked.
Proof. split; reflexivity. Qed.

Lemma redis_stream_round_trip_witness :
  let no_gob := fun (_ : value unit) => inr (Errorf "gob") : bytes + error in
  let no_gobd := fun (_ : bytes) (v : value unit) => (None : option error, v) in
  let msg := mkMessage "" (Some {["body" := "trap"]}) (Some (AString "hi")) "" None 0 0 None in
  let b := Connect (NewBroker [] None) in
  exists args, stream_publish no_gob b None (Some 100) "s" msg = Returned (inl args) /\
    exists data, Marshal no_gob None (Body msg) = inl data /\ stream_messages 1 (read_reply (chars "s") (chars "1-0") args) = [("", data)].
Proof.
  intros no_gob no_gobd msg b. eexists. split; [reflexivity|].
  destruct (redis_stream_round_trip no_gob no_gobd b None (Some 100) "s" (chars "1-0") msg _ None (fun _ => None) true "g" None eq_refl)
    as (data&H1&H2&_).
  exists data. split; [exact H1|exact H2].
Defined.

Lemma redis_pubsub_recv_witness :
  let rs := [mkRound false false [RecvMessage "c" []; RecvError (Errorf "x")] false false; mkRound false false [] false false;
             mkRound false true [RecvSubscription 0] false false] in
  recv rs true (1 * Second) = ([("c", [])], [1 * Second; 2 * Second], true) /\
  Forall (fun d => 0 < d < 64 * Second) [1 * Second; 2 * Second].
Proof.
  intros rs. assert (0 < 1 * Second < 64 * Second) as Hd by (vm_compute; split; reflexivity).
  split; [reflexivity|]. exact (proj1 (redis_pubsub_recv rs true (1 * Second) Hd)).
Defined.
