(* ===== verification/Mqtt.v ===== *)
(** [broker/mqtt]: addresses ([utils.go]), the client's settings and the options
    ([mqtt.go], [options.go]), publishing and consuming, and the subscriptions
    through losses of the connection ([mqtt.go], [subscriber.go]).  The paho
    client and the MQTT server are parameters: what the tokens report. *)
From Stdlib Require Import ZArith Lia Ascii DecimalString DecimalZ.
From S2P Require Import Prelude GoErrors GoStrings GoTime NetPacket Encoding Broker BrokerCodec BrokerOptions.
From stdpp Require Import base gmap strings list fin_maps fin_sets.
Open Scope list_scope.
Open Scope string_scope.
Open Scope Z_scope.

(** * [utils.go] *)

(** The port of an address without one. *)
Definition default_port (scheme : string) : Z :=
  if String.eqb scheme "tcp" then 1883 else if String.eqb scheme "ssl" then 8883 else if String.eqb scheme "ws" then 80 else 1883.

(** One round of the loop of [setAddrs]: the address it appends, if any. *)
Definition normalize (addr : string) : option string :=
  if String.eqb addr "" then None
  else
    let parts := Split addr "://" in
    let '(scheme, parts) :=
      match parts with
      | scheme :: rest :: _ => (scheme, Split rest ":")
      | [one] => ("tcp", Split one ":")
      | [] => ("tcp", [])
      end in
    if negb (String.eqb scheme "tcp" || String.eqb scheme "ssl" || String.eqb scheme "ws") then None
    else
      match parts with
      | [] => None
      | [host] => Some (scheme ++ "://" ++ host ++ ":" ++ Itoa (default_port scheme))
      | host :: port :: _ => Some (scheme ++ "://" ++ host ++ ":" ++ Itoa (fst (Atoi port)))
      end.

(** [func setAddrs(addrs []string) []string] *)
Definition setAddrs (addrs : list string) : list string :=
  match omap normalize addrs with
  | [] => ["tcp://127.0.0.1:1883"]
  | l => l
  end.

(** * The client's settings: [options.go] and [newClient] *)

Inductive key :=
| protocolVersionKey | cleanSessionKey | authKey | clientIdKey | keepAliveKey | maxReconnectIntervalKey | connectRetryIntervalKey
| writeTimeoutKey | connectTimeoutKey | pingTimeoutKey | autoReconnectKey | resumeSubsKey | orderMattersKey
| errorLoggerKey | criticalLoggerKey | warnLoggerKey | debugLoggerKey | loggerKey | onConnectedKey | onDisconnectKey
| qosSubscribeKey | qosPublishKey | retainedPublishKey.

#[export] Instance key_eq_dec : EqDecision key.
Proof. solve_decision. Defined.

Record LoggerOptions := mkLogger { log_Error : bool; log_Critical : bool; log_Warn : bool; log_Debug : bool }.

(** Callbacks are known by a number. *)
Inductive val :=
| VBool (b : bool) | VUint (n : Z) | VByte (n : Z) | VString (s : string) | VDuration (d : Duration)
| VAuth (username password : string) | VLogger (o : LoggerOptions) | VCallback (n : nat).

Abbreviation ctx_t := (OptContext key val).

Section options.
Context {T H M P : Type}.
Abbreviation Options := (BrokerOptions.Options key val T H M P).

Definition WithCleanSession (enable : bool) : Options -> Options := OptionContextWithValue cleanSessionKey (VBool enable).
Definition WithAuth (username password : string) : Options -> Options := OptionContextWithValue authKey (VAuth username password).
Definition WithClientId (clientId : string) : Options -> Options := OptionContextWithValue clientIdKey (VString clientId).
Definition WithAutoReconnect (enable : bool) : Options -> Options := OptionContextWithValue autoReconnectKey (VBool enable).
Definition WithResumeSubs (enable : bool) : Options -> Options := OptionContextWithValue resumeSubsKey (VBool enable).
Definition WithOrderMatters (enable : bool) : Options -> Options := OptionContextWithValue orderMattersKey (VBool enable).
Definition WithKeepAlive (k : Duration) : Options -> Options := OptionContextWithValue keepAliveKey (VDuration k).
Definition WithMaxReconnectInterval (k : Duration) : Options -> Options := OptionContextWithValue maxReconnectIntervalKey (VDuration k).
Definition WithConnectRetryInterval (k : Duration) : Options -> Options := OptionContextWithValue connectRetryIntervalKey (VDuration k).
Definition WithWriteTimeout (k : Duration) : Options -> Options := OptionContextWithValue writeTimeoutKey (VDuration k).
Definition WithConnectTimeout (k : Duration) : Options -> Options := OptionContextWithValue connectTimeoutKey (VDuration k).
Definition WithPingTimeout (k : Duration) : Options -> Options := OptionContextWithValue pingTimeoutKey (VDuration k).
Definition WithProtocolVersion (pv : Z) : Options -> Options := OptionContextWithValue protocolVersionKey (VUint pv).
Definition WithErrorLogger : Options -> Options := OptionContextWithValue errorLoggerKey (VBool true).
Definition WithCriticalLogger : Options -> Options := OptionContextWithValue criticalLoggerKey (VBool true).
Definition WithWarnLogger : Options -> Options := OptionContextWithValue warnLoggerKey (VBool true).
Definition WithDebugLogger : Options -> Options := OptionContextWithValue debugLoggerKey (VBool true).
Definition WithLogger (o : LoggerOptions) : Options -> Options := OptionContextWithValue loggerKey (VLogger o).
Definition WithOnConnect (cb : nat) : Options -> Options := OptionContextWithValue onConnectedKey (VCallback cb).
Definition WithOnDisconnect (cb : nat) : Options -> Options := OptionContextWithValue onDisconnectKey (VCallback cb).
End options.

Definition WithPublishQos (qos : Z) : PublishOptions key val -> PublishOptions key val := PublishContextWithValue qosPublishKey (VByte qos).
Definition WithPublishRetained (b : bool) : PublishOptions key val -> PublishOptions key val := PublishContextWithValue retainedPublishKey (VBool b).

(** The type assertions [v, ok := ctx.Value(k).(T)]. *)
Definition as_bool (v : option val) : option bool := match v with Some (VBool b) => Some b | _ => None end.
Definition as_dur (v : option val) : option Duration := match v with Some (VDuration d) => Some d | _ => None end.
Definition as_byte (v : option val) : option Z := match v with Some (VByte n) => Some n | _ => None end.
Definition as_cb (v : option val) : option nat := match v with Some (VCallback n) => Some n | _ => None end.

(** What the driver sets in [paho.ClientOptions]; an unset field is [None] and
    keeps paho's default.  With it, paho's package loggers and the broker's
    callbacks it sets on the way. *)
Record ClientOptions := mkClientOptions {
  Servers : list string;
  ClientID : string;
  CleanSession : bool;
  AutoReconnect : bool;
  ResumeSubs : bool;
  OrderMatters : option bool;
  Auth : option (string * string);
  ProtocolVersion : option Z;
  KeepAlive : option Duration;
  MaxReconnectInterval : option Duration;
  ConnectRetryInterval : option Duration;
  WriteTimeout : option Duration;
  ConnectTimeout : option Duration;
  PingTimeout : option Duration;
  co_TLS : option nat;
  Loggers : LoggerOptions;
  OnConnect : option nat;
  OnDisconnect : option nat
}.

(** [func newClient(addrs []string, opts broker.Options, b *mqttBroker) paho.Client]:
    [newID] is the generated client identifier. *)
Definition newClient (newID : string) (addrs : list string) (tls : option nat) (c : ctx_t) : ClientOptions :=
  let flag k := match as_bool (Value c k) with Some _ => true | None => false end in
  let lo := match Value c loggerKey with Some (VLogger o) => o | _ => mkLogger false false false false end in
  mkClientOptions addrs
    (match Value c clientIdKey with Some (VString s) => if String.eqb s "" then newID else s | _ => newID end)
    (default true (as_bool (Value c cleanSessionKey)))
    (default false (as_bool (Value c autoReconnectKey)))
    (default true (as_bool (Value c resumeSubsKey)))
    (as_bool (Value c orderMattersKey))
    (match Value c authKey with Some (VAuth u p) => Some (u, p) | _ => None end)
    (match Value c protocolVersionKey with Some (VUint n) => Some n | _ => None end)
    (as_dur (Value c keepAliveKey))
    (as_dur (Value c maxReconnectIntervalKey))
    (as_dur (Value c connectRetryIntervalKey))
    (as_dur (Value c writeTimeoutKey))
    (as_dur (Value c connectTimeoutKey))
    (as_dur (Value c pingTimeoutKey))
    tls
    (mkLogger (flag errorLoggerKey || log_Error lo) (flag criticalLoggerKey || log_Critical lo)
              (flag warnLoggerKey || log_Warn lo) (flag debugLoggerKey || log_Debug lo))
    (as_cb (Value c onConnectedKey))
    (as_cb (Value c onDisconnectKey)).

(** [func newBroker], [func (m *mqttBroker) Init]: the addresses the client gets are
    normalized by the second only. *)
Definition newBroker_addrs (addrs : list string) : list string := addrs.
Definition Init (connected : bool) (addrs : list string) : list string + error :=
  if connected then inr (Errorf "cannot init while connected") else inl (setAddrs addrs).

(** [func (m *mqttBroker) Address() string] *)
Definition Address (addrs : list string) : string := String.concat "," addrs.

(** * Publishing and consuming *)

Section messages.
Context {T : Type} (gob_Encode : value T -> bytes + error) (gob_Decode : bytes -> value T -> option error * value T).

(** What is given to [client.Publish]. *)
Record packet := mkPk { pk_topic : string; pk_qos : Z; pk_retained : bool; pk_payload : bytes }.

(** [internalPublish] and [publish]: the result, and the packet published; [send] is
    the error of the token, which is waited for.  A nil context set by an option
    panics. *)
Definition publish (connected : bool) (codec : option (Codec (value T))) (send : packet -> option error) (ctx : ctx_t) (topic : string)
    (msg : Message (A := gv T)) (opts : list (PublishOptions key val -> PublishOptions key val)) : result (option error * option packet) :=
  match Marshal gob_Encode codec (Body msg) with
  | inr err => Returned (Some err, None)
  | inl data =>
      if negb connected then Returned (Some (Errorf "not connected"), None)
      else
        match po_Context (publish_options (Some ctx) opts) with
        | None => Panicked
        | Some c =>
            let p := mkPk topic (default 1 (as_byte (Value c qosPublishKey))) (default false (as_bool (Value c retainedPublishKey))) data in
            Returned (send p, Some p)
        end
  end.

(** [callback] of [Subscribe]: the event the handler is called with, if it is; the
    handler's error is logged only. *)
Definition callback (codec : option (Codec (value T))) (binder : option (unit -> gv T)) (p : packet) : option (Event (T := T)) :=
  match decode_body gob_Decode codec binder (pk_payload p) with
  | inr _ => None
  | inl body => Some (mkEvent (pk_topic p) (Some (mkMessage "" None (Some body) "" None 0 0 None)))
  end.
End messages.

(** * The connection and its subscriptions *)

(** A [subscriber]: its topic and quality of service. *)
Record subscriber := mkSub { s_topic : string; s_qos : Z }.

(** A call that has done its part at the library and not yet the one on the broker's map:
    a [Subscribe] before [subscribers.Add], an [Unsubscribe(true)] before
    [subscribers.RemoveOnly], a [Disconnect] before [subscribers.Clear], and a subscriber
    that a [Clear] has taken out of the map and not yet unsubscribed. *)
Inductive call := CAdd (n : nat) | CRemoveOnly (topic : string) | CClear | CUnsubscribe (n : nat).

(** The subscribers made so far, the broker's map of them, whether the client is
    connected, what the server has subscribed (the subscriber whose callback gets
    the topic), the runs of [onConnect] (before their copy of the map, or with what
    is left of it), the calls under way; and, for the statements, the topics given up:
    those a subscription failed for since the last copy was made, those that were
    unsubscribed, and those whose [Subscribe] was under way when the copy was made and
    that the server did not have any more. *)
Record World := mkWorld {
  objects : list subscriber;
  subscribers : SubscriberSyncMap;
  connected : bool;
  server : gmap string (nat * Z);
  runs : list (option (list (string * nat)));
  pending : list call;
  given_up : gset string
}.

Definition new_world : World := mkWorld [] NewSubscriberSyncMap false ∅ [] [] ∅.

(** The topics whose [Subscribe] is under way. *)
Definition adding (w : World) : gset string :=
  list_to_set (omap (fun c => match c with CAdd n => s_topic <$> objects w !! n | _ => None end) (pending w)).

Section connection.
(** Whether the client asks for a clean session, so that the server forgets the
    subscriptions with the connection. *)
Context (clean : bool).

Definition after_loss (srv : gmap string (nat * Z)) : gmap string (nat * Z) := if clean then ∅ else srv.

(** [func checkClientToken(token paho.Token) (bool, error)] *)
Definition checkClientToken (err : option error) : bool * option error :=
  match err with Some e => (false, Some e) | None => (true, None) end.

(** [func (m *mqttBroker) Connect() error]: on success paho runs [onConnect] in a
    goroutine of its own. *)
Definition Connect (err : option error) (w : World) : option error * World :=
  if connected w then (None, w)
  else
    match checkClientToken err with
    | (false, e) => (e, w)
    | (true, _) => (None, mkWorld (objects w) (subscribers w) true (server w) (runs w ++ [None]) (pending w) (given_up w))
    end.

(** [func (m *mqttBroker) loopConnect]: the delays slept for the results of the
    attempts, and whether it ended. *)
Fixpoint loopConnect (attempts : list (option error)) (delay : Duration) : list Duration * bool :=
  match attempts with
  | [] => ([], false)
  | err :: rest =>
      if fst (checkClientToken err) then ([], true)
      else let '(ds, b) := loopConnect rest (next_delay (30 * Second) delay) in (delay :: ds, b)
  end.

(** [func (m *mqttBroker) onConnectionLost]: the loss itself; the loop then connects
    again, see [Connect] and [loopConnect]. *)
Definition connection_lost (w : World) : option World :=
  if connected w then Some (mkWorld (objects w) (subscribers w) false (after_loss (server w)) (runs w) (pending w) (given_up w)) else None.

(** [func (m *mqttBroker) doSubscribe]: the server's table; a client that is not
    connected fails. *)
Definition doSubscribe (topic : string) (qos : Z) (n : nat) (err : option error) (w : World) : option error * gmap string (nat * Z) :=
  let err := if connected w then err else match err with Some e => Some e | None => Some (Errorf "not Connected") end in
  match checkClientToken err with
  | (false, e) => (e, server w)
  | (true, _) => (None, <[topic := (n, qos)]> (server w))
  end.

(** [func (m *mqttBroker) onConnect]: the copy of the map [Foreach] makes, then its
    entries one by one, an error being logged only. *)
Definition on_connect_copy (i : nat) (w : World) : option World :=
  match runs w !! i with
  | Some None =>
      Some (mkWorld (objects w) (subscribers w) (connected w) (server w) (<[i := Some (Foreach (subscribers w))]> (runs w)) (pending w)
              (filter (fun topic => server w !! topic = None) (adding w)))
  | _ => None
  end.
Definition on_connect_entry (i : nat) (err : option error) (w : World) : option World :=
  match runs w !! i with
  | Some (Some ((topic, n) :: rest)) =>
      s ← objects w !! n;
      let '(e, srv) := doSubscribe (s_topic s) (s_qos s) n err w in
      Some (mkWorld (objects w) (subscribers w) (connected w) srv (<[i := Some rest]> (runs w)) (pending w)
              (match e with Some _ => {[topic]} ∪ given_up w | None => given_up w ∖ {[topic]} end))
  | _ => None
  end.

(** [func (m *mqttBroker) Subscribe]: the library subscribes; [subscribers.Add] is a step
    of its own, see [finish]. *)
Definition Subscribe (topic : string) (qos : option Z) (err : option error) (w : World) : (nat + error) * World :=
  if negb (connected w) then (inr (Errorf "not connected"), w)
  else
    let n := length (objects w) in
    let q := default 1 qos in
    match doSubscribe topic q n err w with
    | (Some e, _) => (inr e, w)
    | (None, srv) =>
        (inl n, mkWorld (objects w ++ [mkSub topic q]) (subscribers w) (connected w) srv (runs w) (pending w ++ [CAdd n])
                  (given_up w ∖ {[topic]}))
    end.

(** [func (s *subscriber) Unsubscribe(removeFromManager bool) error]: the token's
    error is read at once, before the answer; [err] is what it shows then.  The
    server drops the topic if the client is connected.  [subscribers.RemoveOnly] is a step
    of its own. *)
Definition Unsubscribe (n : nat) (removeFromManager : bool) (err : option error) (w : World) : option (option error * World) :=
  s ← objects w !! n;
  Some (err, mkWorld (objects w) (subscribers w) (connected w)
    (if connected w then delete (s_topic s) (server w) else server w) (runs w)
    (if removeFromManager then pending w ++ [CRemoveOnly (s_topic s)] else pending w)
    (if connected w then {[s_topic s]} ∪ given_up w else given_up w)).

(** [func (m *mqttBroker) Disconnect() error]: the library disconnects;
    [subscribers.Clear] is a step of its own. *)
Definition Disconnect (w : World) : World :=
  if negb (connected w) then w
  else mkWorld (objects w) (subscribers w) false (after_loss (server w)) (runs w) (pending w ++ [CClear]) (given_up w).

(** The map's part of a call.  [Clear] empties the map first and then unsubscribes what was
    in it, one after the other and without removing. *)
Definition finish (i : nat) (w : World) : option World :=
  c ← pending w !! i;
  let w' := mkWorld (objects w) (subscribers w) (connected w) (server w) (runs w) (delete i (pending w)) (given_up w) in
  let on_map sm := mkWorld (objects w) sm (connected w) (server w) (runs w) (delete i (pending w)) (given_up w) in
  match c with
  | CAdd n => s ← objects w !! n; Some (on_map (Broker.Add (s_topic s) n (subscribers w)))
  | CRemoveOnly topic => Some (on_map (snd (RemoveOnly topic (subscribers w))))
  | CClear =>
      Some (mkWorld (objects w) (Clear (subscribers w)) (connected w) (server w) (runs w)
              (delete i (pending w) ++ map (fun kv => CUnsubscribe (snd kv)) (Foreach (subscribers w))) (given_up w))
  | CUnsubscribe n => snd <$> Unsubscribe n false None w'
  end.

Inductive event :=
| EConnect (err : option error) | ELost | ECopy (i : nat) | EEntry (i : nat) (err : option error)
| ESubscribe (topic : string) (qos : option Z) (err : option error) | EUnsubscribe (n : nat) (removeFromManager : bool) (err : option error)
| EDisconnect | EFinish (i : nat).

Definition step (e : event) (w : World) : option World :=
  match e with
  | EConnect err => Some (snd (Connect err w))
  | ELost => connection_lost w
  | ECopy i => on_connect_copy i w
  | EEntry i err => on_connect_entry i err w
  | ESubscribe topic qos err => Some (snd (Subscribe topic qos err w))
  | EUnsubscribe n rm err => snd <$> Unsubscribe n rm err w
  | EDisconnect => Some (Disconnect w)
  | EFinish i => finish i w
  end.

Inductive reachable : World -> Prop :=
| reach_new : reachable new_world
| reach_step e w w' : reachable w -> step e w = Some w' -> reachable w'.

Fixpoint run_events (es : list event) (w : World) : option World :=
  match es with
  | [] => Some w
  | e :: es' => w' ← step e w; run_events es' w'
  end.
End connection.

(** * Properties: addresses *)

(** A normalized address: one of the three schemes, a host without a colon, and a
    port that is an [int]. *)
Definition canonical (a : string) : Prop :=
  exists scheme host port, a = scheme ++ "://" ++ host ++ ":" ++ Itoa port /\
    (scheme = "tcp" \/ scheme = "ssl" \/ scheme = "ws") /\ lacks ":" host = true /\ in_int64 port.

Lemma normalize_canonical a a' : normalize a = Some a' -> canonical a'.
Proof.
  unfold normalize. destruct (String.eqb a ""); [done|].
  assert (forall scheme rest, (if negb (String.eqb scheme "tcp" || String.eqb scheme "ssl" || String.eqb scheme "ws") then None
    else match Split rest ":" with
      | [] => None
      | [host] => Some (scheme ++ "://" ++ host ++ ":" ++ Itoa (default_port scheme))
      | host :: port :: _ => Some (scheme ++ "://" ++ host ++ ":" ++ Itoa (fst (Atoi port)))
      end) = Some a' -> canonical a') as Hgen.
  { intros scheme rest. destruct (String.eqb scheme "tcp" || String.eqb scheme "ssl" || String.eqb scheme "ws") eqn:Es; [|done]. cbn [negb].
    assert (scheme = "tcp" \/ scheme = "ssl" \/ scheme = "ws") as Hs.
    { rewrite !orb_true_iff, !String.eqb_eq in Es. tauto. }
    destruct (Split_first ":" rest) as (host&ps&->&Hh). destruct ps as [|port ps]; intros [= <-].
    - exists scheme, host, (default_port scheme). split_and!; try done. destruct Hs as [->|[->| ->]]; done.
    - exists scheme, host, (fst (Atoi port)). split_and!; try done. apply Atoi_range. }
  unfold Split at 1. cbn [split_fuel]. destruct (cut "://" a) as [[scheme rest]|]; [|apply (Hgen "tcp" a)].
  destruct (String.length a) as [|n]; cbn [split_fuel]; [apply (Hgen scheme rest)|].
  destruct (cut "://" rest) as [[r1 r2]|]; [apply (Hgen scheme r1)|apply (Hgen scheme rest)].
Qed.

(** No ["://"] in a host and a number with a colon between them. *)
Lemma cut_host_port host port : lacks ":" host = true -> cut "://" (host ++ String ":" (Itoa port)) = None.
Proof.
  intros Hh. induction host as [|c host IH].
  - change ("" ++ String ":" (Itoa port)) with (String ":" (Itoa port)). cbn [cut]. pose proof (Itoa_lacks port) as Hl.
    assert (String.prefix "://" (String ":" (Itoa port)) = false) as ->.
    { cbn. unfold Itoa, NilZero.string_of_int. destruct (Z.to_int port) as [d|d]; [|done]. destruct d; done. }
    by rewrite (cut_lacks ":" "//" _ Hl).
  - simpl in Hh. apply andb_true_iff in Hh as [Hc Hh]. apply negb_true_iff in Hc.
    change (String c host ++ String ":" (Itoa port)) with (String c (host ++ String ":" (Itoa port))). cbn [cut].
    by rewrite (prefix_other ":" c "//" _ Hc), (IH Hh).
Qed.

Lemma cut_scheme scheme rest :
  scheme = "tcp" \/ scheme = "ssl" \/ scheme = "ws" -> cut "://" (scheme ++ "://" ++ rest) = Some (scheme, rest).
Proof.
  assert (cut "://" ("://" ++ rest) = Some ("", rest)) as E.
  { change (cut "://" ("://" ++ rest)) with
      (if String.prefix "" rest then Some ("", String.substring 0 (S (S (S (String.length rest)))) rest)
       else (fun '(a, b) => (String ":" a, b)) <$> cut "://" (String "/" (String "/" rest))).
    rewrite substring_all by lia. by destruct rest. }
  assert (forall d s, Ascii.eqb d ":" = false -> cut "://" (String d s) = (fun '(a, b) => (String d a, b)) <$> cut "://" s) as Hc.
  { intros d s Hd. pose proof (prefix_other ":" d "//" s Hd) as Hp. change (cut "://" (String d s)) with
      (if String.prefix "://" (String d s) then Some ("", String.substring 3 (S (String.length s)) (String d s))
       else (fun '(a, b) => (String d a, b)) <$> cut "://" s). by rewrite Hp. }
  remember ("://" ++ rest) as r eqn:Er. clear Er.
  intros [->|[->| ->]];
    [change ("tcp" ++ r) with (String "t" (String "c" (String "p" r)))|change ("ssl" ++ r) with (String "s" (String "s" (String "l" r)))
    |change ("ws" ++ r) with (String "w" (String "s" r))]; by rewrite !Hc, E by done.
Qed.

Lemma normalize_fixed a : canonical a -> normalize a = Some a.
Proof.
  intros (scheme&host&port&->&Hs&Hh&Hp). unfold normalize.
  change (":" ++ Itoa port) with (String ":" (Itoa port)).
  assert (Split (scheme ++ "://" ++ host ++ String ":" (Itoa port)) "://" = [scheme; host ++ String ":" (Itoa port)]) as ->.
  { unfold Split. cbn [split_fuel]. rewrite (cut_scheme scheme _ Hs).
    destruct (String.length (scheme ++ "://" ++ host ++ String ":" (Itoa port))); cbn [split_fuel]; [done|]. by rewrite (cut_host_port host port Hh). }
  rewrite (Split_two ":" host (Itoa port) Hh (Itoa_lacks port)), (Atoi_Itoa port Hp).
  by destruct Hs as [->|[->| ->]].
Qed.

(** [setAddrs] brings addresses into a normal form: whatever it is given, the
    result is not empty, every address in it is a scheme of the three, a host and a
    port, and normalizing the result again changes nothing. *)
Theorem mqtt_addrs_normal addrs :
  setAddrs addrs <> [] /\ Forall canonical (setAddrs addrs) /\ setAddrs (setAddrs addrs) = setAddrs addrs.
Proof.
  assert (Forall canonical (setAddrs addrs)) as Hc.
  { unfold setAddrs. destruct (omap normalize addrs) as [|a l] eqn:E.
    - constructor; [|constructor]. exists "tcp", "127.0.0.1", 1883. split_and!; try done. by left.
    - rewrite <- E. apply Forall_forall. intros x (y&_&Hy)%list_elem_of_omap. by eapply normalize_canonical. }
  assert (setAddrs addrs <> []) as Hne by (unfold setAddrs; by destruct (omap normalize addrs)).
  split_and!; [done|done|]. unfold setAddrs at 1.
  assert (omap normalize (setAddrs addrs) = setAddrs addrs) as ->; [|by destruct (setAddrs addrs)].
  clear Hne. induction Hc as [|a l Ha _ IH]; [done|].
  change (omap normalize (a :: l)) with (match normalize a with Some b => b :: omap normalize l | None => omap normalize l end).
  by rewrite (normalize_fixed a Ha), IH.
Qed.

(** Addresses it does not understand vanish: of another scheme, and the port of an
    IPv6 host. *)
Example mqtt_addrs_lost :
  setAddrs ["mqtt://broker.example:1883"] = ["tcp://127.0.0.1:1883"] /\ setAddrs ["tcp://[::1]:1884"] = ["tcp://[:0"] /\
  setAddrs ["localhost"; "ssl://h"; "ws://h:9001/mqtt"] = ["tcp://localhost:1883"; "ssl://h:8883"; "ws://h:0"].
Proof. split_and!; reflexivity. Qed.

(** * Properties: subscriptions *)

Section subscription_facts.
Context (clean : bool).
Implicit Types (w : World).

(** The subscriber [n] is one of [topic]. *)
Definition of_topic w (topic : string) (n : nat) : Prop := exists s, objects w !! n = Some s /\ s_topic s = topic.

(** The topic is subscribed at the server, given up, or still to be subscribed by a
    run of [onConnect]. *)
Definition looked_after w (topic : string) : Prop :=
  is_Some (server w !! topic) \/ topic ∈ given_up w \/ None ∈ runs w \/
  exists l n, Some l ∈ runs w /\ (topic, n) ∈ l.

(** The topics the driver has to look after: those of the map, and those about to be put
    there. *)
Definition wanted w (topic : string) : Prop :=
  is_Some (sm_m (subscribers w) !! topic) \/ exists n, CAdd n ∈ pending w /\ of_topic w topic n.

Record world_ok w : Prop := {
  map_ok : forall topic n, sm_m (subscribers w) !! topic = Some n -> of_topic w topic n;
  runs_ok : forall l topic n, Some l ∈ runs w -> (topic, n) ∈ l -> of_topic w topic n;
  server_ok : forall topic n q, server w !! topic = Some (n, q) -> objects w !! n = Some (mkSub topic q);
  pending_ok : forall n, CAdd n ∈ pending w -> is_Some (objects w !! n);
  kept : connected w = true -> forall topic, wanted w topic -> looked_after w topic
}.

Lemma new_world_ok : world_ok new_world.
Proof. split; simpl; try done; intros *; by rewrite ?elem_of_nil. Qed.

Lemma Connect_ok err w : world_ok w -> world_ok (snd (Connect err w)).
Proof.
  intros Hok. unfold Connect. destruct (connected w); [exact Hok|]. destruct err; [exact Hok|].
  destruct Hok as [H1 H2 H3 H4 H5]. cbn. split; cbn; [done| |done..|].
  - intros l topic n [Hl|Hl]%elem_of_app Hin; [by eapply H2|set_solver].
  - intros _ topic _. right; right; left. cbn. set_solver.
Qed.

Lemma connection_lost_ok w w' : world_ok w -> connection_lost clean w = Some w' -> world_ok w'.
Proof.
  intros [H1 H2 H3 H4 H5]. unfold connection_lost. destruct (connected w); [|done]. intros [= <-]. split; cbn; try done.
  unfold after_loss. intros topic n q. destruct clean; [by rewrite lookup_empty|auto].
Qed.

Lemma mqtt_Disconnect_ok w : world_ok w -> world_ok (Disconnect clean w).
Proof.
  intros Hok. unfold Disconnect. destruct (connected w); [|exact Hok]. destruct Hok as [H1 H2 H3 H4 H5]. split; cbn; try done.
  - unfold after_loss. intros topic n q. destruct clean; [by rewrite lookup_empty|auto].
  - intros n [Hn|Hn]%elem_of_app; [auto|set_solver].
Qed.

Lemma elem_of_adding w topic : topic ∈ adding w <-> exists n, CAdd n ∈ pending w /\ of_topic w topic n.
Proof.
  unfold adding. rewrite elem_of_list_to_set, list_elem_of_omap. split.
  - intros (c&Hc&H). destruct c as [n|t| |n]; try done. apply fmap_Some in H as (s&Hs&->). exists n. split; [done|]. by exists s.
  - intros (n&Hc&s&Hs&<-). exists (CAdd n). split; [done|]. by rewrite Hs.
Qed.

Lemma on_connect_copy_ok i w w' : world_ok w -> on_connect_copy i w = Some w' -> world_ok w'.
Proof.
  intros [H1 H2 H3 H4 H5]. unfold on_connect_copy. destruct (runs w !! i) as [[l|]|] eqn:Hi; try done. intros [= <-].
  assert (Some (Foreach (subscribers w)) ∈ <[i:=Some (Foreach (subscribers w))]> (runs w)) as Hcopy.
  { apply list_elem_of_lookup. exists i. apply list_lookup_insert_eq. by eapply lookup_lt_Some. }
  split; cbn; [done| |done..|].
  - intros l topic n Hl Hin. apply list_elem_of_lookup in Hl as [j Hj].
    destruct (decide (i = j)) as [<-|Hne]; [|rewrite list_lookup_insert_ne in Hj by done; eapply H2; [by eapply list_elem_of_lookup_2|done]].
    rewrite list_lookup_insert_eq in Hj by (by eapply lookup_lt_Some). injection Hj as <-.
    apply elem_of_map_to_list in Hin. by apply H1.
  - intros _ topic [[n Hm]|Hp].
    + right; right; right. exists (Foreach (subscribers w)), n. split; [done|]. by apply elem_of_map_to_list.
    + apply (elem_of_adding w) in Hp. unfold looked_after. cbn. destruct (server w !! topic) eqn:E; [left; eauto|].
      right; left. by apply elem_of_filter.
Qed.

Lemma doSubscribe_spec topic qos n err w :
  (exists e, doSubscribe topic qos n err w = (Some e, server w)) \/
  (connected w = true /\ err = None /\ doSubscribe topic qos n err w = (None, <[topic := (n, qos)]> (server w))).
Proof. unfold doSubscribe. destruct (connected w), err; cbn; eauto. Qed.

Lemma on_connect_entry_ok i err w w' : world_ok w -> on_connect_entry i err w = Some w' -> world_ok w'.
Proof.
  intros [H1 H2 H3 H4 H5]. unfold on_connect_entry. destruct (runs w !! i) as [[[|[topic n] rest]|]|] eqn:Hi; try done.
  intros (s&Hs&H)%bind_Some. pose proof (list_elem_of_lookup_2 _ _ _ Hi) as Hrun.
  destruct (H2 _ topic n Hrun) as (s'&Hs'&Htopic); [left|]. rewrite Hs in Hs'. injection Hs' as <-.
  assert (forall l, Some l ∈ <[i:=Some rest]> (runs w) -> Some l ∈ runs w \/ l = rest) as Hruns.
  { intros l (j&Hj)%list_elem_of_lookup. destruct (decide (i = j)) as [<-|Hne].
    - rewrite list_lookup_insert_eq in Hj by (by eapply lookup_lt_Some). injection Hj as <-. by right.
    - rewrite list_lookup_insert_ne in Hj by done. left. by eapply list_elem_of_lookup_2. }
  assert (forall t : string, looked_after w t -> t <> topic ->
    None ∈ <[i:=Some rest]> (runs w) \/ (exists l m, Some l ∈ <[i:=Some rest]> (runs w) /\ (t, m) ∈ l) \/ is_Some (server w !! t) \/ t ∈ given_up w) as Hother.
  { intros t [Ht|[Ht|[(j&Hj)%list_elem_of_lookup|(l&m&(j&Hj)%list_elem_of_lookup&Hin)]]] Hne; [auto|auto| |].
    - left. apply (list_elem_of_lookup_2 _ j). rewrite list_lookup_insert_ne; [done|congruence].
    - right; left. destruct (decide (i = j)) as [<-|Hij].
      + rewrite Hi in Hj. injection Hj as <-. exists rest, m. split; [|set_solver].
        apply (list_elem_of_lookup_2 _ i). apply list_lookup_insert_eq. by eapply lookup_lt_Some.
      + exists l, m. split; [|done]. apply (list_elem_of_lookup_2 _ j). by rewrite list_lookup_insert_ne. }
  assert (forall l t m, Some l ∈ <[i:=Some rest]> (runs w) -> (t, m) ∈ l -> exists s0, objects w !! m = Some s0 /\ s_topic s0 = t) as Hro.
  { intros l t m [Hl| ->]%Hruns Hin; [by eapply H2|]. eapply (H2 _ t m Hrun). by right. }
  destruct (doSubscribe_spec (s_topic s) (s_qos s) n err w) as [[e E]|(Hc&->&E)]; rewrite E in H; injection H as <-; split; cbn; try done.
  - intros Hc t Hm. unfold looked_after. cbn. destruct (decide (t = topic)) as [->|Hne]; [right; left; set_solver|].
    destruct (Hother t (H5 Hc t Hm) Hne) as [?|[?|[?|?]]]; auto. right; left. set_solver.
  - intros t m q. destruct (decide (t = topic)) as [->|Hne].
    + rewrite Htopic, lookup_insert_eq. intros [= <- <-]. rewrite Hs. by destruct s; simpl in *; subst.
    + rewrite lookup_insert_ne by congruence. apply H3.
  - intros _ t Hm. unfold looked_after. cbn. destruct (decide (t = topic)) as [->|Hne]; [left; rewrite Htopic, lookup_insert_eq; eauto|].
    destruct (Hother t (H5 Hc t Hm) Hne) as [?|[?|[?|?]]]; auto; [left; by rewrite lookup_insert_ne by congruence|right; left; set_solver].
Qed.

Lemma of_topic_grow w w' topic n : (forall m s, objects w !! m = Some s -> objects w' !! m = Some s) -> of_topic w topic n -> of_topic w' topic n.
Proof. intros H (s&Hs&?). exists s. auto. Qed.

Lemma mqtt_Subscribe_ok topic qos err w : world_ok w -> world_ok (snd (Subscribe topic qos err w)).
Proof.
  intros Hok. unfold Subscribe. destruct (negb (connected w)); [exact Hok|].
  destruct (doSubscribe_spec topic (default 1 qos) (length (objects w)) err w) as [[e ->]|(Hc&->&->)]; [exact Hok|].
  destruct Hok as [H1 H2 H3 H4 H5].
  assert (forall m s, objects w !! m = Some s -> (objects w ++ [mkSub topic (default 1 qos)])%list !! m = Some s) as Hgrow.
  { intros m s Hm. by apply lookup_app_l_Some. }
  assert ((objects w ++ [mkSub topic (default 1 qos)])%list !! length (objects w) = Some (mkSub topic (default 1 qos))) as Hnew.
  { by rewrite lookup_app_r, Nat.sub_diag by lia. }
  split; cbn.
  - intros t n Hm. eapply (of_topic_grow w); [exact Hgrow|auto].
  - intros l t n Hl Hin. eapply (of_topic_grow w); [exact Hgrow|eauto].
  - intros t n q. destruct (decide (t = topic)) as [->|Hne].
    + rewrite lookup_insert_eq. by intros [= <- <-].
    + rewrite lookup_insert_ne by congruence. auto.
  - intros n [Hn|Hn]%elem_of_app; [destruct (H4 n Hn) as [s0 Hs0]; eauto|]. apply list_elem_of_singleton in Hn. injection Hn as ->. eauto.
  - intros _ t Hw. unfold looked_after. cbn. destruct (decide (t = topic)) as [->|Hne]; [left; rewrite lookup_insert_eq; eauto|].
    rewrite lookup_insert_ne by congruence.
    assert (wanted w t) as Hw'.
    { destruct Hw as [?|(n&Hn&s&Hs&Ht)]; [by left|]. right. cbn in *. exists n. apply elem_of_app in Hn as [Hn|Hn].
      - split; [done|]. destruct (H4 n Hn) as [s0 Hs0]. exists s0. split; [done|]. rewrite (Hgrow _ _ Hs0) in Hs. by injection Hs as ->.
      - apply list_elem_of_singleton in Hn. injection Hn as ->. rewrite Hnew in Hs. by injection Hs as <-. }
    destruct (H5 Hc t Hw') as [?|[?|?]]; auto. right; left. set_solver.
Qed.

Lemma mqtt_Unsubscribe_ok n rm err w p : world_ok w -> Unsubscribe n rm err w = Some p -> world_ok (snd p).
Proof.
  intros [H1 H2 H3 H4 H5] (s&Hs&[= <-])%bind_Some. cbn [snd].
  assert (forall m, CAdd m ∈ (if rm then pending w ++ [CRemoveOnly (s_topic s)] else pending w)%list -> CAdd m ∈ pending w) as Hp.
  { intros m. destruct rm; [|done]. intros [?|?]%elem_of_app; [done|set_solver]. }
  split; cbn; [done|done| |by eauto|].
  - intros t m q. destruct (connected w); [|apply H3]. intros [_ ?]%lookup_delete_Some. by apply H3.
  - intros Hc t Hw. rewrite Hc. assert (wanted w t) as Hw' by (destruct Hw as [?|(m&Hm&?)]; [by left|right; exists m; by eauto]).
    unfold looked_after. cbn. destruct (decide (t = s_topic s)) as [->|Hne]; [right; left; set_solver|].
    rewrite lookup_delete_ne by done. destruct (H5 Hc t Hw') as [?|[?|?]]; auto. right; left. set_solver.
Qed.

Lemma mqtt_finish_ok i w w' : world_ok w -> finish i w = Some w' -> world_ok w'.
Proof.
  intros Hok (c&Hc&H)%bind_Some. pose proof Hok as [H1 H2 H3 H4 H5].
  assert (forall m, CAdd m ∈ delete i (pending w) -> CAdd m ∈ pending w) as Hdel.
  { intros m. apply list_elem_of_delete_inv. }
  assert (world_ok (mkWorld (objects w) (subscribers w) (connected w) (server w) (runs w) (delete i (pending w)) (given_up w))) as Hok'.
  { split; cbn; [done..|by eauto|]. intros Hcn t [?|(m&Hm&?)]; apply H5; [done|by left|done|right; exists m; by eauto]. }
  destruct c as [n|topic| |n].
  - apply bind_Some in H as (s&Hs&[= <-]). destruct Hok' as [_ _ _ K4 K5]. split; cbn; [|done|done|done|].
    + intros t m. destruct (decide (t = s_topic s)) as [->|Hne]; [rewrite lookup_insert_eq; intros [= <-]; by exists s|].
      rewrite lookup_insert_ne by done. apply H1.
    + intros Hcn t [Hm|Hp]; [|apply (K5 Hcn); by right]. apply (H5 Hcn). cbn in Hm.
      destruct (decide (t = s_topic s)) as [->|Hne]; [|rewrite lookup_insert_ne in Hm by done; by left].
      right. exists n. split; [by eapply list_elem_of_lookup_2|by exists s].
  - injection H as <-. destruct Hok' as [_ _ _ K4 K5].
    assert (forall t m, sm_m (snd (RemoveOnly topic (subscribers w))) !! t = Some m -> sm_m (subscribers w) !! t = Some m) as Hrm.
    { intros t m. unfold RemoveOnly. destruct (sm_m (subscribers w) !! topic); cbn; [by intros [_ ?]%lookup_delete_Some|done]. }
    split; cbn; [by eauto|done|done|done|]. intros Hcn t [[m Hm]|Hp]; apply (K5 Hcn); [left; eauto|by right].
  - injection H as <-. destruct Hok' as [_ _ _ K4 K5].
    assert (forall m, CAdd m ∈ (delete i (pending w) ++ map (fun kv => CUnsubscribe (snd kv)) (Foreach (subscribers w)))%list ->
              CAdd m ∈ delete i (pending w)) as Hadd.
    { intros m [?|Hm]%elem_of_app; [done|]. apply list_elem_of_In, in_map_iff in Hm as (?&?&_). done. }
    split; cbn; [intros *; by rewrite lookup_empty|done|done|by eauto|].
    intros Hcn t [[m Hm]|(m&Hm&?)]; [cbn in Hm; by rewrite lookup_empty in Hm|]. apply (K5 Hcn). right. exists m. by eauto.
  - apply fmap_Some in H as (p&Hp&->). by eapply mqtt_Unsubscribe_ok.
Qed.

Lemma mqtt_step_ok e w w' : world_ok w -> step clean e w = Some w' -> world_ok w'.
Proof.
  intros Hok. destruct e; cbn.
  - intros [= <-]. by apply Connect_ok.
  - by apply connection_lost_ok.
  - by apply on_connect_copy_ok.
  - by apply on_connect_entry_ok.
  - intros [= <-]. by apply mqtt_Subscribe_ok.
  - intros (p&Hp&->)%fmap_Some. by eapply mqtt_Unsubscribe_ok.
  - intros [= <-]. by apply mqtt_Disconnect_ok.
  - by apply mqtt_finish_ok.
Qed.

Lemma mqtt_reachable_ok w : reachable clean w -> world_ok w.
Proof. induction 1; [apply new_world_ok|by eapply mqtt_step_ok]. Qed.

Lemma mqtt_run_reachable es w w' : reachable clean w -> run_events clean es w = Some w' -> reachable clean w'.
Proof.
  revert w. induction es as [|e es IH]; intros w Hr; [by intros [= <-]|]. intros (w1&H1&H2)%bind_Some. eapply IH; [|done]. by econstructor.
Qed.

(** ** One uninterrupted run of [onConnect] *)

Lemma run_entries i l w :
  world_ok w -> connected w = true -> runs w !! i = Some (Some l) -> NoDup l.*1 ->
  exists w', run_events clean (replicate (length l) (EEntry i None)) w = Some w' /\
    objects w' = objects w /\ subscribers w' = subscribers w /\ connected w' = true /\ runs w' = <[i := Some []]> (runs w) /\
    pending w' = pending w /\ given_up w' ⊆ given_up w /\
    (forall topic n, (topic, n) ∈ l -> fst <$> server w' !! topic = Some n) /\
    (forall topic, topic ∉ l.*1 -> server w' !! topic = server w !! topic).
Proof.
  revert w. induction l as [|[topic n] l IH]; intros w Hok Hc Hi Hnd.
  { exists w. split_and!; try done. by rewrite list_insert_id. set_solver. }
  apply NoDup_cons in Hnd as [Hnotin Hnd].
  destruct (runs_ok w Hok _ topic n (list_elem_of_lookup_2 _ _ _ Hi)) as (s&Hs&Htopic); [left|].
  set (w1 := mkWorld (objects w) (subscribers w) (connected w) (<[topic := (n, s_qos s)]> (server w)) (<[i := Some l]> (runs w)) (pending w) (given_up w ∖ {[topic]})).
  assert (step clean (EEntry i None) w = Some w1) as Hstep.
  { cbn. unfold on_connect_entry. rewrite Hi, Hs. cbn. unfold doSubscribe. rewrite Hc. cbn. by rewrite Htopic, <- Hc. }
  pose proof (mqtt_step_ok _ _ _ Hok Hstep) as Hok1.
  assert (runs w1 !! i = Some (Some l)) as Hi1 by (cbn; apply list_lookup_insert_eq; by eapply lookup_lt_Some).
  destruct (IH w1 Hok1 Hc Hi1 Hnd) as (w'&Hrun&Ho&Hsu&Hc'&Hr&Hpe&Hg&Hin&Hout). exists w'.
  split; [cbn [replicate length run_events]; by rewrite Hstep|].
  split_and!; [done|done|done|rewrite Hr; cbn; by rewrite list_insert_insert_eq|done|cbn in Hg; set_solver| |].
  - intros t m [[= -> ->]|Hl]%elem_of_cons; [|by apply Hin]. rewrite (Hout topic Hnotin). cbn. by rewrite lookup_insert_eq.
  - intros t Ht. cbn in Ht. rewrite not_elem_of_cons in Ht. destruct Ht as [Hne Ht]. rewrite (Hout t Ht). cbn. by rewrite lookup_insert_ne by congruence.
Qed.

(** C23: the driver keeps its subscriptions through losses of the connection.  Its calls
    act on the library and on the subscriber map in two steps, and may interleave.  In
    every reachable state in which the client is connected and no [onConnect] is
    under way, each topic of the subscriber map is subscribed at the server, its
    messages going to a subscriber of that topic, unless the topic was given up
    since the last reconnection: a subscription failed, the application unsubscribed it,
    or its [Subscribe] was between its two steps when the reconnection copied the map and
    the server had lost it.  And from every reachable state without a connection, a
    reconnection that succeeds brings all topics of the map back, each with
    its present subscriber, and gives up at most those whose [Subscribe] is under way. *)
Theorem mqtt_resubscribes w :
  reachable clean w ->
  (connected w = true -> (forall r, r ∈ runs w -> r = Some []) ->
     forall topic n, sm_m (subscribers w) !! topic = Some n -> topic ∉ given_up w ->
       exists m q, server w !! topic = Some (m, q) /\ objects w !! m = Some (mkSub topic q)) /\
  (connected w = false ->
     exists es w', run_events clean (EConnect None :: ECopy (length (runs w)) :: es) w = Some w' /\
       length es = size (sm_m (subscribers w)) /\ connected w' = true /\ subscribers w' = subscribers w /\
       pending w' = pending w /\ given_up w' ⊆ adding w /\
       forall topic n, sm_m (subscribers w) !! topic = Some n -> fst <$> server w' !! topic = Some n).
Proof.
  intros Hreach. pose proof (mqtt_reachable_ok w Hreach) as Hok. split.
  - intros Hc Hruns topic n Hm Hg.
    destruct (kept w Hok Hc topic ltac:(left; eauto)) as [[[m q] Hs]|[?|[Hr|(l&m&Hl&Hin)]]]; [|done|by apply Hruns in Hr|].
    + exists m, q. split; [done|]. by apply (server_ok w Hok).
    + apply Hruns in Hl. injection Hl as ->. by apply elem_of_nil in Hin.
  - intros Hc. set (l := Foreach (subscribers w)).
    set (w1 := snd (Connect None w)).
    assert (w1 = mkWorld (objects w) (subscribers w) true (server w) (runs w ++ [None]) (pending w) (given_up w)) as E1.
    { unfold w1, Connect. by rewrite Hc. }
    set (w2 := mkWorld (objects w) (subscribers w) true (server w) (runs w ++ [Some l]) (pending w)
                 (filter (fun topic => server w !! topic = None) (adding w))).
    assert (step clean (ECopy (length (runs w))) w1 = Some w2) as E2.
    { rewrite E1. cbn. unfold on_connect_copy. cbn. rewrite lookup_app_r, Nat.sub_diag by lia. cbn. unfold w2. f_equal. f_equal.
      by rewrite insert_app_r_alt, Nat.sub_diag by lia. }
    assert (world_ok w2) as Hok2 by (eapply mqtt_step_ok; [|exact E2]; by apply Connect_ok).
    destruct (run_entries (length (runs w)) l w2 Hok2 eq_refl) as (w'&Hrun&_&Hsu&Hc'&_&Hpe&Hg&Hin&_).
    { cbn. by rewrite lookup_app_r, Nat.sub_diag by lia. }
    { apply NoDup_fst_map_to_list. }
    exists (replicate (length l) (EEntry (length (runs w)) None)), w'. split_and!; try done.
    + cbn [run_events step]. fold w1. cbn [mbind option_bind]. change (on_connect_copy (length (runs w)) w1) with (step clean (ECopy (length (runs w))) w1).
      by rewrite E2.
    + rewrite length_replicate. apply length_map_to_list.
    + intros t Ht%Hg. by apply elem_of_filter in Ht as [_ ?].
    + intros topic n Hm. apply Hin. by apply elem_of_map_to_list.
Qed.

(** [Disconnect] while the driver is between two attempts to reconnect does nothing:
    the loop goes on, and connects. *)
Lemma mqtt_disconnect_ignored w : connected w = false -> Disconnect clean w = w /\ connected (snd (Connect None (Disconnect clean w))) = true.
Proof. intros H. unfold Disconnect, Connect. by rewrite H; cbn; rewrite H. Qed.

(** The loop sleeps for the delays of [delays] and ends at the first success. *)
Lemma loopConnect_delays fails rest delay :
  Forall (fun e => e <> None) fails -> loopConnect (fails ++ None :: rest)%list delay = (delays (30 * Second) delay (length fails), true).
Proof.
  intros H. revert delay. induction H as [|e l He _ IH]; intros delay; [done|]. destruct e; [|done]. simpl. by rewrite IH.
Qed.
End subscription_facts.

(** A topic subscribed a second time: unsubscribing the first subscriber ends the
    second one's subscription. *)
Example mqtt_unsubscribe_hits_successor :
  run_events true [EConnect None; ECopy 0; ESubscribe "t" None None; EFinish 0; ESubscribe "t" None None; EFinish 0; EUnsubscribe 0 true None; EFinish 0] new_world =
    Some (mkWorld [mkSub "t" 1; mkSub "t" 1] (mkSyncMap ∅ [] [0; 1]%nat) true ∅ [Some []] [] {["t"]}).
Proof. vm_compute. reflexivity. Qed.

(** A connection that is lost and made again between the two steps of [Subscribe], which
    returns no error: the topic is in the map, no [onConnect] is under way, and the server
    does not have it. *)
Example mqtt_subscribe_across_reconnection :
  let w := default new_world (run_events true [EConnect None; ECopy 0; ESubscribe "t" None None; ELost; EConnect None; ECopy 1; EFinish 0] new_world) in
  connected w = true /\ runs w = [Some []; Some []] /\ pending w = [] /\ sm_m (subscribers w) = {["t" := 0%nat]} /\ server w = ∅ /\
  given_up w = {["t"]}.
Proof. vm_compute. split_and!; reflexivity. Qed.

Definition two_topics : list event :=
  [EConnect None; ECopy 0; ESubscribe "a" None None; EFinish 0; ESubscribe "b" (Some 2) None; EFinish 0; ELost].
Lemma mqtt_resubscribes_witness :
  let w := default new_world (run_events true two_topics new_world) in
  connected w = false /\ server w = ∅ /\
  exists es w', run_events true (EConnect None :: ECopy (length (runs w)) :: es) w = Some w' /\ fst <$> server w' !! "b" = Some 1%nat.
Proof.
  set (w := default new_world (run_events true two_topics new_world)).
  assert (reachable true w) as Hr.
  { apply (mqtt_run_reachable true two_topics new_world); [constructor|vm_compute; reflexivity]. }
  split; [vm_compute; reflexivity|]. split; [vm_compute; reflexivity|].
  destruct (proj2 (mqtt_resubscribes true w Hr) ltac:(vm_compute; reflexivity)) as (es&w'&H1&_&_&_&_&_&H2).
  exists es, w'. split; [exact H1|]. apply H2. vm_compute. reflexivity.
Defined.
