(* ===== verification/Rocket.v ===== *)
(** [broker/rocketmq]: the options the three drivers share ([option]), and the
    drivers over [rocketmq-client-go] (V2), [rocketmq-clients] (V5) and Aliyun's
    HTTP service.  The client libraries are parameters: what their calls return.
    A message is the sequence of calls the driver makes on the library's message.
    Spans are not modelled. *)
From Stdlib Require Import ZArith Lia Ascii.
From S2P Require Import Prelude GoErrors GoTime NetPacket Encoding Broker BrokerCodec BrokerOptions.
From stdpp Require Import base gmap strings list fin_maps fin_sets.
Open Scope string_scope.
Open Scope list_scope.
Open Scope Z_scope.

(** * [option] *)

Inductive key :=
| EnableTraceKey | NameServersKey | NameServerUrlKey | AccessKey | SecretKey | SecurityTokenKey | CredentialsKey | RetryCountKey | NamespaceKey
| InstanceNameKey | GroupNameKey | SubscriptionExpressionsKey | AwaitDurationKey | MaxMessageNumKey | InvisibleDurationKey | ReceiveIntervalKey
| LoggerLevelKey
| CompressKey | BatchKey | PropertiesKey | DelayTimeLevelKey | TagsKey | KeysKey | ShardingKeyKey | DeliveryTimestampKey | MessageGroupKey
| SendAsyncKey | SendWithTransactionKey | SubscriptionFilterExpressionKey | ConsumerModelKey.

#[export] Instance key_eq_dec : EqDecision key.
Proof. solve_decision. Defined.

Record Credentials := mkCred { AccessKey_ : string; AccessSecret : string; SecurityToken : string }.

Inductive MessageModel := MessageModelBroadCasting | MessageModelClustering.

(** Filter expressions are known by a number. *)
Inductive val :=
| VBool (b : bool) | VInt (n : Z) | VInt32 (n : Z) | VString (s : string) | VStrings (l : list string) | VDuration (d : Duration) | VTime (t : Z)
| VCredentials (c : Credentials) | VProperties (m : gmap string string) | VExpressions (m : gmap string nat) | VFilter (n : nat) | VModel (m : MessageModel).

Abbreviation ctx_t := (OptContext key val).

Section options.
Context {T H M P : Type}.
Abbreviation Options := (BrokerOptions.Options key val T H M P).
Definition WithEnableTrace : Options -> Options := OptionContextWithValue EnableTraceKey (VBool true).
Definition WithNameServer (addrs : list string) : Options -> Options := OptionContextWithValue NameServersKey (VStrings addrs).
Definition WithNameServerDomain (uri : string) : Options -> Options := OptionContextWithValue NameServerUrlKey (VString uri).
Definition WithAccessKey (k : string) : Options -> Options := OptionContextWithValue AccessKey (VString k).
Definition WithSecretKey (s : string) : Options -> Options := OptionContextWithValue SecretKey (VString s).
Definition WithSecurityToken (t : string) : Options -> Options := OptionContextWithValue SecurityTokenKey (VString t).
Definition WithCredentials (a s t : string) : Options -> Options := OptionContextWithValue CredentialsKey (VCredentials (mkCred a s t)).
Definition WithRetryCount (n : Z) : Options -> Options := OptionContextWithValue RetryCountKey (VInt n).
Definition WithNamespace (ns : string) : Options -> Options := OptionContextWithValue NamespaceKey (VString ns).
Definition WithInstanceName (n : string) : Options -> Options := OptionContextWithValue InstanceNameKey (VString n).
Definition WithGroupName (n : string) : Options -> Options := OptionContextWithValue GroupNameKey (VString n).
Definition WithSubscriptionExpressions (m : gmap string nat) : Options -> Options := OptionContextWithValue SubscriptionExpressionsKey (VExpressions m).
Definition WithAwaitDuration (d : Duration) : Options -> Options := OptionContextWithValue AwaitDurationKey (VDuration d).
Definition WithMaxMessageNumKey (n : Z) : Options -> Options := OptionContextWithValue MaxMessageNumKey (VInt32 n).
Definition WithInvisibleDuration (d : Duration) : Options -> Options := OptionContextWithValue InvisibleDurationKey (VDuration d).
Definition WithReceiveInterval (d : Duration) : Options -> Options := OptionContextWithValue ReceiveIntervalKey (VDuration d).
End options.

Abbreviation PubOptions := (PublishOptions key val).
Definition WithCompress (b : bool) : PubOptions -> PubOptions := PublishContextWithValue CompressKey (VBool b).
Definition WithBatch (b : bool) : PubOptions -> PubOptions := PublishContextWithValue BatchKey (VBool b).
Definition WithProperties (m : gmap string string) : PubOptions -> PubOptions := PublishContextWithValue PropertiesKey (VProperties m).
Definition WithDelayTimeLevel (n : Z) : PubOptions -> PubOptions := PublishContextWithValue DelayTimeLevelKey (VInt n).
Definition WithTag (t : string) : PubOptions -> PubOptions := PublishContextWithValue TagsKey (VString t).
Definition WithKeys (l : list string) : PubOptions -> PubOptions := PublishContextWithValue KeysKey (VStrings l).
Definition WithShardingKey (s : string) : PubOptions -> PubOptions := PublishContextWithValue ShardingKeyKey (VString s).
Definition WithDeliveryTimestamp (t : Z) : PubOptions -> PubOptions := PublishContextWithValue DeliveryTimestampKey (VTime t).
Definition WithMessageGroup (g : string) : PubOptions -> PubOptions := PublishContextWithValue MessageGroupKey (VString g).
Definition WithSendAsync (b : bool) : PubOptions -> PubOptions := PublishContextWithValue SendAsyncKey (VBool b).
Definition WithSendWithTransaction (b : bool) : PubOptions -> PubOptions := PublishContextWithValue SendWithTransactionKey (VBool b).

(** The type assertions [v, ok := ctx.Value(k).(T)]. *)
Definition as_bool (v : option val) : option bool := match v with Some (VBool b) => Some b | _ => None end.
Definition as_int (v : option val) : option Z := match v with Some (VInt n) => Some n | _ => None end.
Definition as_int32 (v : option val) : option Z := match v with Some (VInt32 n) => Some n | _ => None end.
Definition as_str (v : option val) : option string := match v with Some (VString s) => Some s | _ => None end.
Definition as_strs (v : option val) : option (list string) := match v with Some (VStrings l) => Some l | _ => None end.
Definition as_dur (v : option val) : option Duration := match v with Some (VDuration d) => Some d | _ => None end.
Definition as_time (v : option val) : option Z := match v with Some (VTime t) => Some t | _ => None end.
Definition as_props (v : option val) : option (gmap string string) := match v with Some (VProperties m) => Some m | _ => None end.

(** * What the drivers share *)

(** The settings [Init] reads. *)
Record Settings := mkSettings {
  nameServers : list string;
  nameServerUrl : string;
  credentials : Credentials;
  retryCount : Z;
  instanceName : string;
  groupName : string;
  namespace : string
}.

Definition new_settings : Settings := mkSettings [] "" (mkCred "" "" "") 2 "" "" "".

(** The common part of the three [Init]s: each value replaces the field if it is
    there; a whole credentials record wins over its three parts. *)
Definition Init (c : ctx_t) (s : Settings) : Settings :=
  let parts := mkCred (default (AccessKey_ (credentials s)) (as_str (Value c AccessKey)))
                      (default (AccessSecret (credentials s)) (as_str (Value c SecretKey)))
                      (default (SecurityToken (credentials s)) (as_str (Value c SecurityTokenKey))) in
  mkSettings
    (default (nameServers s) (as_strs (Value c NameServersKey)))
    (default (nameServerUrl s) (as_str (Value c NameServerUrlKey)))
    (match Value c CredentialsKey with Some (VCredentials cr) => cr | _ => parts end)
    (default (retryCount s) (as_int (Value c RetryCountKey)))
    (default (instanceName s) (as_str (Value c InstanceNameKey)))
    (default (groupName s) (as_str (Value c GroupNameKey)))
    (default (namespace s) (as_str (Value c NamespaceKey))).

Definition DefaultAddr : string := "127.0.0.1:9876".

(** [func (b *rocketmqBroker) Address() string], the same in the three drivers. *)
Definition Address (s : Settings) : string :=
  match nameServers s with
  | a :: _ => a
  | [] => if String.eqb (nameServerUrl s) "" then DefaultAddr else nameServerUrl s
  end.

(** [func NewBroker(driverType rocketmqOption.DriverType, opts ...broker.Option)]: [None]
    is a nil broker. *)
Inductive driver := Aliyun_ | V2_ | V5_.
Definition NewBroker (driverType : string) : option driver :=
  if String.eqb driverType "aliyun" then Some Aliyun_
  else if String.eqb driverType "v2" then Some V2_
  else if String.eqb driverType "v5" then Some V5_
  else None.

(** The calls on the library's message, in order. *)
Inductive setter :=
| SetProperties (m : gmap string string) | AddProperties (m : gmap string string) | SetCompress (b : bool) | SetBatch (b : bool) | SetDelayLevel (n : Z)
| SetTag (t : string) | SetKeys (l : list string) | SetShardingKey (s : string) | SetDelayTimestamp (t : Z) | SetMessageGroup (g : string).

Definition setting {A} (f : A -> setter) (v : option A) : list setter := option_list (f <$> v).

(** The body of the two [internalPublish]s and what the message is built from. *)
Definition headers_of {A} (msg : Message (A := A)) : gmap string string := default ∅ (msg_Headers msg).

(** What a delivered message becomes: the handler's event, or the decoding error. *)
Section delivery.
Context {T : Type} (gob_Decode : bytes -> value T -> option error * value T).

Definition deliver (codec : option (Codec (value T))) (binder : option (unit -> gv T)) (handler : Event (T := T) -> option error)
    (topic : string) (headers : gmap string string) (body : bytes) : option error * list (Event (T := T)) :=
  match decode_body gob_Decode codec binder body with
  | inr err => (Some err, [])
  | inl b =>
      let e := mkEvent topic (Some (mkMessage "" (Some headers) (Some b) "" None 0 0 None)) in
      (handler e, [e])
  end.
End delivery.

(** * The driver over [rocketmq-client-go] *)
Module V2.

(** [primitive.TraceConfig], as far as it is set, and the options of the library's
    producer and consumer. *)
Inductive resolver := Passthrough (addrs : list string) | HttpResolver (url : string).
Record TraceConfig := mkTrace { tr_GroupName : string; tr_Credentials : option Credentials; tr_Resolver : resolver }.
Inductive client_option :=
| OTrace (t : TraceConfig) | OCredentials (c : Credentials) | ONsResolver (r : resolver) | ORetry (n : Z) | OInstance (s : string) | OGroup (s : string)
| OAutoCommit (b : bool) | ONamespace (s : string) | OModel (m : MessageModel).

(** [func (b *rocketmqBroker) createNsResolver()] *)
Definition createNsResolver (s : Settings) : resolver :=
  match nameServers s with
  | _ :: _ => Passthrough (nameServers s)
  | [] => HttpResolver (if String.eqb (nameServerUrl s) "" then DefaultAddr else nameServerUrl s)
  end.

Definition complete (c : Credentials) : bool := negb (String.eqb (AccessKey_ c) "") && negb (String.eqb (AccessSecret c) "").

(** The options of [createProducer] *)
Definition producer_options (enableTrace : bool) (s : Settings) : list client_option :=
  let c := credentials s in
  let r := createNsResolver s in
  (if enableTrace then [OTrace (mkTrace (if String.eqb (groupName s) "" then "DEFAULT" else groupName s) (if complete c then Some c else None) r)] else []) ++
  (if complete c then [OCredentials c] else []) ++
  [ONsResolver r; ORetry (retryCount s)] ++
  (if String.eqb (instanceName s) "" then [] else [OInstance (instanceName s)]) ++
  (if String.eqb (groupName s) "" then [] else [OGroup (groupName s)]).

(** The options of [createConsumer] *)
Definition consumer_options (enableTrace : bool) (s : Settings) (queue : string) (autoAck : bool) (c : ctx_t) : list client_option :=
  [OGroup queue; OAutoCommit autoAck; ORetry (retryCount s); ONamespace (namespace s); OInstance (instanceName s);
   OCredentials (credentials s); ONsResolver (createNsResolver s)] ++
  match Value c ConsumerModelKey with Some (VModel m) => [OModel m] | _ => [] end ++
  (if enableTrace then [OTrace (mkTrace queue (Some (credentials s)) (createNsResolver s))] else []).

(** ** Publishing *)

(** The message [publish] builds. *)
Definition build (headers : gmap string string) (c : ctx_t) : list setter :=
  (if decide (headers = ∅) then [] else [SetProperties headers]) ++
  setting SetCompress (as_bool (Value c CompressKey)) ++
  setting SetBatch (as_bool (Value c BatchKey)) ++
  setting SetProperties (as_props (Value c PropertiesKey)) ++
  setting SetDelayLevel (as_int (Value c DelayTimeLevelKey)) ++
  setting SetTag (as_str (Value c TagsKey)) ++
  setting SetKeys (as_strs (Value c KeysKey)) ++
  setting SetShardingKey (as_str (Value c ShardingKeyKey)).

(** Where a call of [publish] is: with a producer (from the map or new), with its
    producer shut down after a failure, with a second producer, returned. *)
Inductive call :=
| CHas (topic : string) (p : nat) (cached : bool) | CShut (topic : string) (err : error) | CAgain (topic : string) (p : nat)
| CReturned (r : option error).

(** The broker: the producers by topic, and whether it is connected; the producers
    created so far, those not shut down, the calls of [publish], which of them
    had a message accepted, the calls of [Disconnect] that found the broker connected and
    wait for its lock; and, for the statements, the producers shut down by a [Disconnect]
    that failed at a later one. *)
Record World := mkWorld {
  producers : gmap string nat;
  connected : bool;
  created : gset nat;
  live : gset nat;
  calls : gmap nat call;
  accepted : gset nat;
  leaving : nat;
  stale : gset nat
}.

Definition new_world : World := mkWorld ∅ false ∅ ∅ ∅ ∅ 0 ∅.

Definition set_call (id : nat) (c : call) (w : World) : World :=
  mkWorld (producers w) (connected w) (created w) (live w) (<[id := c]> (calls w)) (accepted w) (leaving w) (stale w).

(** [func (b *rocketmqBroker) Connect() error] *)
Definition Connect (w : World) : World := mkWorld (producers w) true (created w) (live w) (calls w) (accepted w) (leaving w) (stale w).

(** [createProducer]: a new producer, started, or an error. *)
Definition create (r : nat + error) (w : World) : option (nat + error) :=
  match r with
  | inl p => if decide (p ∈ created w) then None else Some (inl p)
  | inr err => Some (inr err)
  end.
Definition born (p : nat) (w : World) : World :=
  mkWorld (producers w) (connected w) ({[p]} ∪ created w) ({[p]} ∪ live w) (calls w) (accepted w) (leaving w) (stale w).
Definition store (topic : string) (p : nat) (w : World) : World :=
  mkWorld (<[topic := p]> (producers w)) (connected w) (created w) (live w) (calls w) (accepted w) (leaving w) (stale w).
Definition accept (id : nat) (w : World) : World :=
  mkWorld (producers w) (connected w) (created w) (live w) (calls w) ({[id]} ∪ accepted w) (leaving w) (stale w).

(** [publish] up to the first [SendSync], under the lock: the producer of the topic,
    created if there is none. *)
Definition publish_begin (id : nat) (topic : string) (r : nat + error) (w : World) : option World :=
  match calls w !! id with
  | Some _ => None
  | None =>
      match producers w !! topic with
      | Some p => Some (set_call id (CHas topic p true) w)
      | None =>
          r ← create r w;
          Some match r with
               | inr err => set_call id (CReturned (Some err)) w
               | inl p => set_call id (CHas topic p false) (store topic p (born p w))
               end
      end
  end.

(** The first [SendSync]; after a failure with a cached producer, that is shut down
    and the topic's entry deleted, under the lock. *)
Definition publish_send (id : nat) (err : option error) (w : World) : option World :=
  match calls w !! id with
  | Some (CHas topic p cached) =>
      Some match err with
           | None => set_call id (CReturned None) (accept id w)
           | Some e =>
               if cached then
                 mkWorld (delete topic (producers w)) (connected w) (created w) (live w ∖ {[p]}) (<[id := CShut topic e]> (calls w)) (accepted w) (leaving w) (stale w)
               else set_call id (CReturned (Some e)) w
           end
  | _ => None
  end.

(** The second producer; if there is none, the first error is returned. *)
Definition publish_create (id : nat) (r : nat + error) (w : World) : option World :=
  match calls w !! id with
  | Some (CShut topic e) =>
      r ← create r w;
      Some match r with
           | inr _ => set_call id (CReturned (Some e)) w
           | inl p => set_call id (CAgain topic p) (born p w)
           end
  | _ => None
  end.

(** The second [SendSync], and the new producer stored after a success. *)
Definition publish_resend (id : nat) (err : option error) (w : World) : option World :=
  match calls w !! id with
  | Some (CAgain topic p) =>
      Some match err with
           | Some e => set_call id (CReturned (Some e)) w
           | None => set_call id (CReturned None) (accept id (store topic p w))
           end
  | _ => None
  end.

(** [func (b *rocketmqBroker) Disconnect() error]: the check under the read lock, which
    returns nil when the broker is not connected, and then, under the lock (the check is
    not repeated), the producers are shut down one after the other, in the order of the map; the first error ends it, with the
    ones before it shut down and all of them still in the map. *)
Fixpoint shutdown_all (ps : list nat) (fails : nat -> option error) (l : gset nat) : option error * gset nat :=
  match ps with
  | [] => (None, l)
  | p :: ps' =>
      match fails p with
      | Some e => (Some e, l)
      | None => shutdown_all ps' fails (l ∖ {[p]})
      end
  end.
Definition Disconnect_check (w : World) : World :=
  if connected w then mkWorld (producers w) true (created w) (live w) (calls w) (accepted w) (S (leaving w)) (stale w) else w.
Definition Disconnect (fails : nat -> option error) (w : World) : option (option error * World) :=
  match leaving w with
  | O => None
  | S n =>
      Some match shutdown_all (map snd (map_to_list (producers w))) fails (live w) with
           | (Some e, l) =>
               (Some e, mkWorld (producers w) (connected w) (created w) l (calls w) (accepted w) n (stale w ∪ (live w ∖ l)))
           | (None, l) => (None, mkWorld ∅ false (created w) l (calls w) (accepted w) n ∅)
           end
  end.

Inductive event :=
| EBegin (id : nat) (topic : string) (r : nat + error) | ESend (id : nat) (err : option error) | ECreate (id : nat) (r : nat + error)
| EResend (id : nat) (err : option error) | EConnect | EDisconnect | EShutdown (fails : nat -> option error).

Definition step (e : event) (w : World) : option World :=
  match e with
  | EBegin id topic r => publish_begin id topic r w
  | ESend id err => publish_send id err w
  | ECreate id r => publish_create id r w
  | EResend id err => publish_resend id err w
  | EConnect => Some (Connect w)
  | EDisconnect => Some (Disconnect_check w)
  | EShutdown fails => snd <$> Disconnect fails w
  end.

Fixpoint run (es : list event) (w : World) : option World :=
  match es with
  | [] => Some w
  | e :: es' => w' ← step e w; run es' w'
  end.

(** ** Consuming *)

Section consume.
Context {T : Type} (gob_Decode : bytes -> value T -> option error * value T).
Context (codec : option (Codec (value T))) (binder : option (unit -> gv T)) (handler : Event (T := T) -> option error).

(** A received message: topic, properties, body. *)
Record MessageExt := mkExt { ext_Topic : string; ext_Properties : gmap string string; ext_Body : bytes; ext_MsgId : string }.

Definition on_message (m : MessageExt) : option error * list (Event (T := T)) :=
  deliver gob_Decode codec binder handler (ext_Topic m) (ext_Properties m) (ext_Body m).

(** The callback given to [c.Subscribe]: the calls of the handler, and whether
    [ConsumeRetryLater] is returned.  [Ack] does nothing and succeeds. *)
Fixpoint consume (msgs : list MessageExt) : list (Event (T := T)) * bool :=
  match msgs with
  | [] => ([], false)
  | m :: ms =>
      let '(err, es) := on_message m in
      let '(es', failed) := consume ms in
      (es ++ es', match err with Some _ => true | None => failed end)
  end.
End consume.

(** [func (s *subscriber) Unsubscribe(removeFromManager bool) error]: [Subscribe] makes
    the subscriber without its broker, so removing it from the manager panics. *)
Definition Unsubscribe (err : option error) (removeFromManager : bool) : result (option error) :=
  if removeFromManager then Panicked else Returned err.

(** ** Properties *)

Section producer_facts.
Implicit Types (w : World).

(** The producer a call uses. *)
Definition held (c : call) : option nat :=
  match c with
  | CHas _ p _ | CAgain _ p => Some p
  | _ => None
  end.

(** What a call relies on: the producer it has is the one of its topic, if it is in
    the map at all; a second producer is alive, not in the map, and nobody
    else's. *)
Definition call_ok w (id : nat) (c : call) : Prop :=
  match c with
  | CHas t p _ =>
      p ∈ created w /\ (forall t', producers w !! t' = Some p -> t' = t) /\
      forall id' t', id' <> id -> calls w !! id' <> Some (CAgain t' p)
  | CAgain t p =>
      p ∈ live w /\ (forall t', producers w !! t' <> Some p) /\
      forall id' c', id' <> id -> calls w !! id' = Some c' -> held c' <> Some p
  | _ => True
  end.

Record world_ok w : Prop := {
  map_live : forall t p, producers w !! t = Some p -> p ∈ live w \/ p ∈ stale w;
  map_inj : forall t t' p, producers w !! t = Some p -> producers w !! t' = Some p -> t = t';
  live_created : live w ∪ stale w ⊆ created w;
  calls_ok : forall id c, calls w !! id = Some c -> call_ok w id c;
  accepted_ok : forall id, id ∈ accepted w <-> calls w !! id = Some (CReturned None)
}.

Lemma new_ok : world_ok new_world.
Proof. split; cbn; intros *; by rewrite ?lookup_empty || set_solver. Qed.

Lemma map_created w t p : world_ok w -> producers w !! t = Some p -> p ∈ created w.
Proof. intros Hok Ht. pose proof (map_live w Hok t p Ht). pose proof (live_created w Hok). set_solver. Qed.

Lemma create_fresh r w p : create r w = Some (inl p) -> p ∉ created w.
Proof. unfold create. destruct r; [|done]. case_decide; [done|]. by intros [= <-]. Qed.

(** A held producer was created. *)
Lemma held_created w id c p : world_ok w -> calls w !! id = Some c -> held c = Some p -> p ∈ created w.
Proof.
  intros Hok Hc Hh. pose proof (calls_ok w Hok _ _ Hc) as H. destruct c; cbn in Hh; try done; injection Hh as <-; cbn in H; [tauto|].
  pose proof (live_created w Hok). set_solver.
Qed.

(** Moving one call on. *)
Lemma set_call_ok id c acc w :
  world_ok w -> call_ok w id c -> (forall i, i <> id -> i ∈ acc <-> i ∈ accepted w) -> (id ∈ acc <-> c = CReturned None) ->
  world_ok (mkWorld (producers w) (connected w) (created w) (live w) (<[id := c]> (calls w)) acc (leaving w) (stale w)).
Proof.
  intros [H1 H2 H3 H4 H5] Hc Ha Hid. split; cbn; try done.
  - intros i c' [[<- <-]|[Hne Hi]]%lookup_insert_Some.
    + destruct c as [t p b|t e|t p|r]; cbn in *; [|done| |done]; destruct Hc as (Hx&Hy&Hz); split_and!; try done.
      * intros i' t' Hi'. rewrite lookup_insert_ne by done. by apply Hz.
      * intros i' c' Hi'. rewrite lookup_insert_ne by done. by apply Hz.
    + pose proof (H4 _ _ Hi) as Hok. destruct c' as [t p b|t e|t p|r]; cbn in *; [|done| |done]; destruct Hok as (Hx&Hy&Hz); split_and!; try done.
      * intros i' t' Hi' [[<- Hc']|[? ?]]%lookup_insert_Some; [|by eapply Hz]. subst c. cbn in Hc. destruct Hc as (_&_&Hc). by apply (Hc i _ ltac:(done) Hi).
      * intros i' c'' Hi' [[<- <-]|[? ?]]%lookup_insert_Some; [|by eapply Hz].
        destruct c as [t' p' b'|t' e'|t' p'|r']; cbn in *; try done; intros [= ->]; destruct Hc as (_&_&Hc); [by apply (Hc i t ltac:(done))|by apply (Hc i _ ltac:(done) Hi)].
  - intros i. destruct (decide (i = id)) as [->|Hne]; [rewrite lookup_insert_eq, Hid; split; [by intros ->|by intros [= ->]]|].
    rewrite lookup_insert_ne by done. by rewrite Ha, H5.
Qed.

(** A new producer. *)
Lemma born_ok p w : world_ok w -> p ∉ created w -> world_ok (born p w).
Proof.
  intros [H1 H2 H3 H4 H5] Hp. split; cbn; try done; [intros t q Ht; apply H1 in Ht; set_solver|set_solver|].
  intros id c Hc. pose proof (H4 _ _ Hc) as Hok. destruct c; cbn in *; try done; destruct Hok as (?&?&?); split_and!; try done; set_solver.
Qed.

(** A live producer nobody uses becomes the one of a topic. *)
Lemma store_ok topic p w :
  world_ok w -> p ∈ live w -> (forall t, producers w !! t <> Some p) -> (forall id c, calls w !! id = Some c -> held c <> Some p) ->
  world_ok (store topic p w).
Proof.
  intros [H1 H2 H3 H4 H5] Hl Hm Hh. split; cbn; try done.
  - intros t q [[<- <-]|[? ?]]%lookup_insert_Some; [by left|eauto].
  - intros t t' q [[<- <-]|[? Ht]]%lookup_insert_Some [[<- Hq]|[? Ht']]%lookup_insert_Some; subst; try done; [by destruct (Hm t')|by destruct (Hm t)|by eapply H2].
  - intros id c Hc. pose proof (H4 _ _ Hc) as Hok. pose proof (Hh _ _ Hc) as Hne.
    destruct c; cbn in *; try done; destruct Hok as (?&Hu&?); split_and!; try done; intros t' [[<- <-]|[? ?]]%lookup_insert_Some; try done; [by apply Hu|by eapply Hu].
Qed.

(** The failed producer is shut down and leaves the map. *)
Lemma drop_ok id topic p e w :
  world_ok w -> calls w !! id = Some (CHas topic p true) ->
  world_ok (mkWorld (delete topic (producers w)) (connected w) (created w) (live w ∖ {[p]}) (<[id := CShut topic e]> (calls w)) (accepted w) (leaving w) (stale w)).
Proof.
  intros Hok Hid. pose proof (calls_ok w Hok _ _ Hid) as (Hp&Htopic&Hag).
  assert (world_ok (mkWorld (producers w) (connected w) (created w) (live w) (<[id := CShut topic e]> (calls w)) (accepted w) (leaving w) (stale w))) as [H1 H2 H3 H4 H5].
  { apply set_call_ok; try done. rewrite (accepted_ok w Hok), Hid. done. }
  split; cbn in *; try done.
  - intros t q [Hne Ht]%lookup_delete_Some. pose proof (H1 _ _ Ht). assert (q <> p) by (intros ->; apply Hne; symmetry; by apply Htopic). set_solver.
  - intros t t' q [_ ?]%lookup_delete_Some [_ ?]%lookup_delete_Some. by eapply H2.
  - set_solver.
  - intros i c Hc. pose proof (H4 _ _ Hc) as Hco. destruct c as [t q b|t e'|t q|r]; cbn in *; try done; destruct Hco as (Hx&Hu&Hz); split_and!; try done.
    + intros t' [_ ?]%lookup_delete_Some. by apply Hu.
    + assert (q <> p); [|set_solver]. intros ->. apply lookup_insert_Some in Hc as [[_ ?]|[Hne Hc]]; [done|]. by apply (Hag i t).
    + intros t' [_ ?]%lookup_delete_Some. by eapply Hu.
Qed.

Lemma shutdown_all_ok ps fails l :
  (snd (shutdown_all ps fails l) ⊆ l /\ forall p, p ∈ l -> p ∉ ps -> p ∈ snd (shutdown_all ps fails l)) /\
  ((forall p, fails p = None) -> fst (shutdown_all ps fails l) = None).
Proof.
  revert l. induction ps as [|p ps IH]; intros l; cbn; [by split|]. destruct (fails p) as [e|] eqn:Hf; cbn.
  - split; [done|]. intros H. by rewrite H in Hf.
  - destruct (IH (l ∖ {[p]})) as [[H1 H2] H3]. split; [|exact H3]. split; [set_solver|]. intros q Hq Hn. apply H2; set_solver.
Qed.

Lemma Disconnect_check_ok w : world_ok w -> world_ok (Disconnect_check w).
Proof. intros Hok. unfold Disconnect_check. destruct (connected w); [|exact Hok]. by destruct Hok. Qed.

Lemma Disconnect_ok fails w r : world_ok w -> Disconnect fails w = Some r -> world_ok (snd r).
Proof.
  intros Hok. unfold Disconnect. destruct (leaving w) as [|n]; [done|]. intros [= <-].
  pose proof (shutdown_all_ok (map snd (map_to_list (producers w))) fails (live w)) as [[Hsub Hkeep] _].
  destruct (shutdown_all _ fails (live w)) as [e l]. cbn [snd] in Hsub, Hkeep. destruct Hok as [H1 H2 H3 H4 H5].
  assert (forall id c, calls w !! id = Some c -> match c with CAgain _ q => q ∈ l | _ => True end) as Hl.
  { intros id c Hc. pose proof (H4 _ _ Hc) as Hco. destruct c as [| |t q|]; cbn in *; try done. destruct Hco as (Hq&Hu&_).
    apply Hkeep; [done|]. intros ((t'&q')&Heq&Hin)%list_elem_of_fmap. cbn in Heq. subst q'. apply elem_of_map_to_list in Hin. by apply (Hu t'). }
  destruct e as [e|]; split; cbn; try done.
  - intros t p Ht. specialize (H1 t p Ht). destruct (decide (p ∈ l)); set_solver.
  - set_solver.
  - intros id c Hc. pose proof (H4 _ _ Hc) as Hco. specialize (Hl _ _ Hc). destruct c; cbn in *; try done; tauto.
  - set_solver.
  - intros id c Hc. pose proof (H4 _ _ Hc) as Hco. specialize (Hl _ _ Hc). destruct c; cbn in *; try done; split_and!; try tauto; intros *; by rewrite lookup_empty.
Qed.

Lemma not_accepted w id c : world_ok w -> calls w !! id = Some c -> c <> CReturned None -> id ∉ accepted w.
Proof. intros Hok Hc Hn. rewrite (accepted_ok w Hok), Hc. congruence. Qed.

Lemma publish_begin_ok id topic r w w' : world_ok w -> publish_begin id topic r w = Some w' -> world_ok w'.
Proof.
  unfold publish_begin. intros Hok. destruct (calls w !! id) eqn:Hid; [done|].
  assert (id ∉ accepted w) as Hna by (by rewrite (accepted_ok w Hok), Hid).
  destruct (producers w !! topic) as [p|] eqn:Hp.
  - intros [= <-]. apply set_call_ok; try done. split_and!.
    + by apply (map_created w topic).
    + intros t' Ht'. by eapply (map_inj w Hok).
    + intros id' t' _ Hc. destruct (calls_ok w Hok _ _ Hc) as (_&Hu&_). by apply (Hu topic).
  - intros (r'&Hr&[= <-])%bind_Some. destruct r' as [p|err]; [|by apply set_call_ok; try done; split].
    apply create_fresh in Hr.
    assert (forall i c, calls w !! i = Some c -> held c <> Some p) as Hnh by (intros i c Hc Hh; by apply Hr, (held_created w i c p Hok)).
    assert (world_ok (store topic p (born p w))) as Hok'.
    { apply store_ok; [by apply born_ok|cbn; set_solver| |exact Hnh].
      cbn. intros t Ht. by apply Hr, (map_created w t). }
    apply (set_call_ok id (CHas topic p false) (accepted w)) in Hok'; try done. cbn. split_and!; [set_solver| |].
    + intros t' [[<- _]|[_ Ht]]%lookup_insert_Some; [done|]. exfalso. by apply Hr, (map_created w t').
    + intros id' t' _ Hc. by apply (Hnh _ _ Hc).
Qed.

Lemma publish_send_ok id err w w' : world_ok w -> publish_send id err w = Some w' -> world_ok w'.
Proof.
  unfold publish_send. intros Hok. destruct (calls w !! id) as [[topic p cached| | |]|] eqn:Hid; try done. intros [= <-].
  pose proof (not_accepted w id _ Hok Hid ltac:(done)) as Hna.
  destruct err as [e|]; [destruct cached; [by apply drop_ok|by apply set_call_ok; try done; split]|].
  apply (set_call_ok id (CReturned None) ({[id]} ∪ accepted w) w); [done|done|cbn; set_solver|cbn; split; [done|intros _; set_solver]].
Qed.

Lemma publish_create_ok id r w w' : world_ok w -> publish_create id r w = Some w' -> world_ok w'.
Proof.
  unfold publish_create. intros Hok. destruct (calls w !! id) as [[|topic e| |]|] eqn:Hid; try done.
  pose proof (not_accepted w id _ Hok Hid ltac:(done)) as Hna.
  intros (r'&Hr&[= <-])%bind_Some. destruct r' as [p|err]; [|by apply set_call_ok; try done; split].
  apply create_fresh in Hr. pose proof (born_ok p w Hok Hr) as Hok'.
  apply (set_call_ok id (CAgain topic p) (accepted w)) in Hok'; try done. cbn. split_and!; [set_solver| |].
  - intros t' Ht. by apply Hr, (map_created w t').
  - intros id' c' _ Hc Hh. by apply Hr, (held_created w id' c' p Hok).
Qed.

Lemma publish_resend_ok id err w w' : world_ok w -> publish_resend id err w = Some w' -> world_ok w'.
Proof.
  unfold publish_resend. intros Hok. destruct (calls w !! id) as [[| |topic p|]|] eqn:Hid; try done. intros [= <-].
  pose proof (not_accepted w id _ Hok Hid ltac:(done)) as Hna.
  destruct err as [e|]; [by apply set_call_ok; try done; split|].
  destruct (calls_ok w Hok _ _ Hid) as (Hl&Hm&Hu).
  assert (world_ok (set_call id (CReturned None) (accept id w))) as Hok' by (apply (set_call_ok id (CReturned None) ({[id]} ∪ accepted w) w); [done|done|cbn; set_solver|cbn; split; [done|intros _; set_solver]]).
  apply (store_ok topic p) in Hok'; try done. cbn. intros i c [[<- <-]|[Hne Hc]]%lookup_insert_Some; [done|]. by apply (Hu i).
Qed.

Lemma v2_step_ok e w w' : world_ok w -> step e w = Some w' -> world_ok w'.
Proof.
  intros Hok. destruct e; cbn; intros H1.
  - by eapply publish_begin_ok.
  - by eapply publish_send_ok.
  - by eapply publish_create_ok.
  - by eapply publish_resend_ok.
  - injection H1 as <-. destruct Hok; split; done.
  - injection H1 as <-. by apply Disconnect_check_ok.
  - apply fmap_Some in H1 as (r&Hr&->). by eapply Disconnect_ok.
Qed.
Lemma v2_run_ok es w w' : world_ok w -> run es w = Some w' -> world_ok w'.
Proof.
  revert w. induction es as [|e es IH]; intros w Hok; [by intros [= <-]|].
  intros (w1&H1&H2)%bind_Some. eapply IH; [|exact H2]. by eapply v2_step_ok.
Qed.

(** A [Disconnect] whose producers all shut down without an error. *)
Definition clean_event (e : event) : Prop := match e with EShutdown fails => forall p, fails p = None | _ => True end.

(** Only a [Disconnect] that fails leaves producers behind. *)
Lemma clean_step e w w' : clean_event e -> stale w = ∅ -> step e w = Some w' -> stale w' = ∅.
Proof.
  intros He Hs. destruct e; cbn in *.
  - unfold publish_begin. destruct (calls w !! id); [done|]. destruct (producers w !! topic); [by intros [= <-]|]. intros ([]&_&[= <-])%bind_Some; done.
  - unfold publish_send. destruct (calls w !! id) as [[? ? []| | |]|]; try done; destruct err; intros [= <-]; done.
  - unfold publish_create. destruct (calls w !! id) as [[]|]; try done. intros ([]&_&[= <-])%bind_Some; done.
  - unfold publish_resend. destruct (calls w !! id) as [[]|]; try done; destruct err; intros [= <-]; done.
  - by intros [= <-].
  - intros [= <-]. unfold Disconnect_check. by destruct (connected w).
  - unfold Disconnect. destruct (leaving w); [done|]. pose proof (shutdown_all_ok (map snd (map_to_list (producers w))) fails (live w)) as [_ Hok].
    specialize (Hok He). destruct (shutdown_all _ fails (live w)) as [[]]; [done|]. by intros [= <-].
Qed.
Lemma clean_run es w w' : Forall clean_event es -> stale w = ∅ -> run es w = Some w' -> stale w' = ∅.
Proof.
  intros Hes. revert w. induction Hes as [|e es He _ IH]; intros w Hs; [by intros [= <-]|].
  intros (w1&H1&H2)%bind_Some. eapply IH; [|exact H2]. by eapply clean_step.
Qed.

(** C24: concurrent publishing keeps the producer cache sound, as far as [Disconnect] does.
    However the steps of any number of [publish] calls, of connecting and of disconnecting
    interleave, whether producers start, send and shut down or fail to: every producer in
    the cache serves one topic only, and it is running, or it was shut down by a [Disconnect]
    that failed to shut down a later one and gave up, which leaves the whole cache in place;
    when every producer [Disconnect] tries does shut down, all of the cache is running.
    A call returns nil exactly if a producer accepted its message. *)
Theorem rocket_producer_cache es w :
  run es new_world = Some w ->
  (forall t p, producers w !! t = Some p -> (p ∈ live w \/ p ∈ stale w) /\ forall t', producers w !! t' = Some p -> t' = t) /\
  (Forall clean_event es -> stale w = ∅) /\
  (forall id r, calls w !! id = Some (CReturned r) -> (r = None <-> id ∈ accepted w)).
Proof.
  intros Hrun. pose proof (v2_run_ok es _ w new_ok Hrun) as Hok. split_and!.
  - intros t p Ht. split; [by apply (map_live w Hok t)|]. intros t' Ht'. by eapply (map_inj w Hok).
  - intros Hes. by apply (clean_run es new_world w).
  - intros id r Hr. rewrite (accepted_ok w Hok), Hr. split; congruence.
Qed.
End producer_facts.

(** A second producer whose send fails too is left running, and no later
    [Disconnect] knows it. *)
Example producer_leaked :
  let lost := Errorf "lost" in
  match run [EConnect; EBegin 0 "t" (inl 0%nat); ESend 0 None; EBegin 1 "t" (inl 0%nat); ESend 1 (Some lost); ECreate 1 (inl 1%nat); EResend 1 (Some lost);
             EDisconnect; EShutdown (fun _ => None)] new_world with
  | Some w => producers w = ∅ /\ elements (live w) = [1%nat]
  | None => False
  end.
Proof. vm_compute. split; reflexivity. Qed.

(** A producer that does not shut down stops [Disconnect] half way: producers
    already shut down stay in the cache. *)
Example cache_after_failed_disconnect :
  match run [EConnect; EBegin 0 "a" (inl 0%nat); EBegin 1 "b" (inl 1%nat);
             EDisconnect; EShutdown (fun p => if (p =? 0)%nat then None else Some (Errorf "x"))] new_world with
  | Some w => producers w !! "a" = Some 0%nat /\ connected w = true /\ elements (live w) = [1%nat] /\ elements (stale w) = [0%nat]
  | None => False
  end.
Proof. vm_compute. split_and!; reflexivity. Qed.

Lemma rocket_producer_cache_witness :
  let es := [EConnect; EBegin 0 "t" (inl 0%nat); EBegin 1 "t" (inl 0%nat); ESend 0 None; ESend 1 (Some (Errorf "lost")); ECreate 1 (inl 1%nat); EResend 1 None] in
  exists w, run es new_world = Some w /\ producers w !! "t" = Some 1%nat /\ (1%nat ∈ live w \/ 1%nat ∈ stale w) /\ stale w = ∅.
Proof.
  set (es := [EConnect; EBegin 0 "t" (inl 0%nat); EBegin 1 "t" (inl 0%nat); ESend 0 None; ESend 1 (Some (Errorf "lost")); ECreate 1 (inl 1%nat); EResend 1 None]).
  set (w := default new_world (run es new_world)). exists w. assert (run es new_world = Some w) as Hrun by (vm_compute; reflexivity).
  split; [exact Hrun|]. assert (producers w !! "t" = Some 1%nat) as Hp by (vm_compute; reflexivity). split; [exact Hp|].
  destruct (rocket_producer_cache es w Hrun) as (H1&H2&_). split; [exact (proj1 (H1 "t" 1%nat Hp))|]. apply H2. repeat constructor.
Defined.

Section consume_facts.
Context {T : Type} (gob_Decode : bytes -> value T -> option error * value T).
Context (codec : option (Codec (value T))) (binder : option (unit -> gv T)) (handler : Event (T := T) -> option error).
Abbreviation consume := (consume gob_Decode codec binder handler).
Abbreviation on_message := (on_message gob_Decode codec binder handler).

(** A batch is confirmed exactly if every message of it was decoded and handled
    without an error; the handler is called once for each that can be decoded, in
    order, whatever happened to the others, so that a retried batch hands it the
    successful ones again. *)
Theorem rocket_batch msgs :
  (snd (consume msgs) = false <-> Forall (fun m => fst (on_message m) = None) msgs) /\
  fst (consume msgs) = concat (map (fun m => snd (on_message m)) msgs).
Proof.
  induction msgs as [|m ms [IH1 IH2]]; [by split|]. cbn [V2.consume map concat]. destruct (on_message m) as [err evs] eqn:E.
  destruct (consume ms) as [es failed]. cbn [fst snd] in *. rewrite Forall_cons, E, IH2. split; [|done]. cbn [fst].
  destruct err; [split; [done|by intros [? _]]|rewrite IH1; tauto].
Qed.
End consume_facts.
End V2.

(** * The driver over [rocketmq-clients] *)
Module V5.

(** What [Init] reads besides the common settings. *)
Record Receiving := mkReceiving {
  subscriptionExpressions : gmap string nat;
  awaitDuration : Duration;
  maxMessageNum : Z;
  invisibleDuration : Duration;
  receiveInterval : Duration
}.
Definition default_receiving : Receiving := mkReceiving ∅ (5 * Second) 16 (20 * Second) (3 * Second).
Definition Init (c : ctx_t) (s : Settings * Receiving) : Settings * Receiving :=
  let '(s, r) := s in
  (Rocket.Init c s,
   mkReceiving
     (match Value c SubscriptionExpressionsKey with Some (VExpressions m) => m | _ => subscriptionExpressions r end)
     (default (awaitDuration r) (as_dur (Value c AwaitDurationKey)))
     (default (maxMessageNum r) (as_int32 (Value c MaxMessageNumKey)))
     (default (invisibleDuration r) (as_dur (Value c InvisibleDurationKey)))
     (default (receiveInterval r) (as_dur (Value c ReceiveIntervalKey)))).

(** [func (b *rocketmqBroker) makeConfig()] *)
Record Config := mkConfig { Endpoint : string; NameSpace : string; ConsumerGroup : string; cfg_Credentials : Credentials }.
Definition makeConfig (s : Settings) : Config := mkConfig (Address s) (namespace s) (groupName s) (credentials s).

(** ** Publishing *)

(** The message [publish] builds. *)
Definition build (headers : gmap string string) (c : ctx_t) : list setter :=
  AddProperties headers :: setting AddProperties (as_props (Value c PropertiesKey)) ++
  setting SetTag (as_str (Value c TagsKey)) ++
  setting SetKeys (as_strs (Value c KeysKey)) ++
  setting SetDelayTimestamp (as_time (Value c DeliveryTimestampKey)) ++
  setting SetMessageGroup (as_str (Value c MessageGroupKey)).

(** How the message is sent, and what [publish] returns then: [doSend],
    [doSendAsync], whose error is logged only, and [doSendTransaction]. *)
Inductive mode := Plain | Async | Transaction.
Definition send_mode (c : ctx_t) : mode :=
  if default false (as_bool (Value c SendWithTransactionKey)) then Transaction
  else if default false (as_bool (Value c SendAsyncKey)) then Async
  else Plain.
Definition send (m : mode) (err commit : option error) : option error :=
  match m with
  | Plain => err
  | Async => None
  | Transaction => match err with Some e => Some e | None => commit end
  end.

Section publish.
Context {T : Type} (gob_Encode : value T -> bytes + error).

(** [internalPublish] and [publish]: [made] is what [createProducer] returns, if it
    is called.  The result, the producers, and the body and the calls of the message
    sent. *)
Definition publish (codec : option (Codec (value T))) (producers : gmap string nat) (made : nat + error) (err commit : option error) (ctx : ctx_t)
    (topic : string) (msg : Message (A := gv T)) (opts : list (PubOptions -> PubOptions)) :
    result (option error * gmap string nat * option (nat * bytes * list setter)) :=
  match Marshal gob_Encode codec (Body msg) with
  | inr e => Returned (Some e, producers, None)
  | inl data =>
      let c := po_Context (publish_options (Some ctx) opts) in
      let go p producers :=
        match c with
        | None => Panicked
        | Some c => Returned (send (send_mode c) err commit, producers, Some (p, data, build (headers_of msg) c))
        end in
      match producers !! topic with
      | Some p => go p producers
      | None =>
          match made with
          | inr e => Returned (Some e, producers, None)
          | inl p => go p (<[topic := p]> producers)
          end
      end
  end.
End publish.

(** ** Receiving *)

(** The goroutine of [run]: before its tests, in [Receive], returned. *)
Inductive runner := RLoop | RReceiving | RExited.

#[export] Instance runner_eq_dec : EqDecision runner.
Proof. solve_decision. Defined.

(** The broker: connected, [done] closed, the consumer, the subscribers; the
    goroutines, and the consumer a [Subscribe] has created and not yet stored. *)
Record World := mkWorld {
  connected : bool;
  done : bool;
  consumer : option nat;
  subscribers : SubscriberSyncMap;
  runners : list runner;
  creating : option nat
}.

Definition new_world : World := mkWorld false false None NewSubscriberSyncMap [] None.

(** [Subscribe] finds no consumer: [createConsumer], which starts [run]. *)
Definition create_consumer (n : nat) (w : World) : option World :=
  match consumer w, creating w with
  | None, None => Some (mkWorld (connected w) (done w) None (subscribers w) (runners w ++ [RLoop]) (Some n))
  | _, _ => None
  end.

(** [b.consumer = c] *)
Definition store_consumer (w : World) : option World :=
  n ← creating w;
  Some (mkWorld (connected w) (done w) (Some n) (subscribers w) (runners w) None).

(** The rest of [Subscribe], with the result of the consumer's. *)
Definition subscribe (topic : string) (sub : nat) (err : option error) (w : World) : option World :=
  match consumer w, err with
  | None, _ => None
  | Some _, Some _ => Some w
  | Some _, None => Some (mkWorld (connected w) (done w) (consumer w) (Broker.Add topic sub (subscribers w)) (runners w) (creating w))
  end.

(** [run]: the two tests, and a return of [Receive]. *)
Definition run_test (i : nat) (w : World) : option World :=
  match runners w !! i with
  | Some RLoop =>
      let next := if done w then RExited else match consumer w with None => RExited | Some _ => RReceiving end in
      Some (mkWorld (connected w) (done w) (consumer w) (subscribers w) (<[i := next]> (runners w)) (creating w))
  | _ => None
  end.
Definition run_receive (i : nat) (w : World) : option World :=
  match runners w !! i with
  | Some RReceiving => Some (mkWorld (connected w) (done w) (consumer w) (subscribers w) (<[i := RLoop]> (runners w)) (creating w))
  | _ => None
  end.

(** [func (b *rocketmqBroker) Connect() error] *)
Definition Connect (w : World) : World := mkWorld true (done w) (consumer w) (subscribers w) (runners w) (creating w).

(** [func (b *rocketmqBroker) Disconnect() error]: closing [done] again panics; [err]
    is the first error of a producer, which ends it. *)
Definition Disconnect (err : option error) (w : World) : result (option error * World) :=
  if negb (connected w) then Returned (None, w)
  else if done w then Panicked
  else
    match err with
    | Some e => Returned (Some e, mkWorld true true (consumer w) (subscribers w) (runners w) (creating w))
    | None => Returned (None, mkWorld false true None (subscribers w) (runners w) (creating w))
    end.

Inductive event :=
| ECreate (n : nat) | EStore | ESubscribe (topic : string) (sub : nat) (err : option error) | ETest (i : nat) | EReceive (i : nat) | EConnect
| EDisconnect (err : option error).
Definition step (e : event) (w : World) : option World :=
  match e with
  | ECreate n => create_consumer n w
  | EStore => store_consumer w
  | ESubscribe topic sub err => subscribe topic sub err w
  | ETest i => run_test i w
  | EReceive i => run_receive i w
  | EConnect => Some (Connect w)
  | EDisconnect err => match Disconnect err w with Returned (_, w') => Some w' | Panicked => None end
  end.
Fixpoint run_events (es : list event) (w : World) : option World :=
  match es with
  | [] => Some w
  | e :: es' => w' ← step e w; run_events es' w'
  end.

(** ** Dispatching *)

Section dispatch.
Context {T : Type} (gob_Decode : bytes -> value T -> option error * value T).
Context (codec : option (Codec (value T))).

(** A subscriber: binder, handler, automatic acknowledgement, and whether it has its
    consumer. *)
Record subscriber := mkSub { s_binder : option (unit -> gv T); s_handler : Event (T := T) -> option error; s_autoAck : bool; s_reader : bool }.

(** A message view: topic, properties, body; [None] is a nil one. *)
Record MessageView := mkView { mv_Topic : string; mv_Properties : gmap string string; mv_Body : bytes }.

(** [func (s *subscriber) onMessage], with [ack] the result of acknowledging: its
    error, the handler's event, and whether the message was acknowledged. *)
Definition onMessage (ack : option error) (s : subscriber) (m : MessageView) : option error * list (Event (T := T)) * bool :=
  match deliver gob_Decode codec (s_binder s) (s_handler s) (mv_Topic m) (mv_Properties m) (mv_Body m) with
  | (Some err, es) => (Some err, es, false)
  | (None, es) =>
      if s_autoAck s then
        if s_reader s then (ack, es, match ack with None => true | Some _ => false end) else (Some (Errorf "reader is nil"), es, false)
      else (None, es, false)
  end.

(** One message of [run]'s inner loop. *)
Definition dispatch (subs : gmap string subscriber) (ack : MessageView -> option error) (m : option MessageView) : list (Event (T := T)) * list MessageView :=
  match m with
  | None => ([], [])
  | Some mv =>
      match subs !! mv_Topic mv with
      | None => ([], [])
      | Some s => let '(_, es, acked) := onMessage (ack mv) s mv in (es, if acked then [mv] else [])
      end
  end.
End dispatch.

(** ** Properties *)

(** No goroutine receives, though there is a consumer. *)
Definition deaf (w : World) : Prop := consumer w <> None /\ creating w = None /\ Forall (fun r => r = RExited) (runners w).

Lemma exited_lookup w i r : Forall (fun r => r = RExited) (runners w) -> runners w !! i = Some r -> r = RExited.
Proof. rewrite Forall_lookup. eauto. Qed.

(** The goroutine [createConsumer] starts may look for the consumer before
    [Subscribe] has stored it, and end; from then on, whatever is subscribed, no
    message is received until the broker is disconnected. *)
Theorem rocket_v5_deaf :
  (exists w, run_events [EConnect; ECreate 0; ETest 0; EStore; ESubscribe "t" 1 None] new_world = Some w /\ deaf w /\ Get "t" (subscribers w) = Some 1%nat) /\
  forall e w w', deaf w -> step e w = Some w' -> (forall err, e <> EDisconnect err) -> deaf w' /\ forall i, e <> EReceive i.
Proof.
  split.
  - eexists. split; [vm_compute; reflexivity|]. split; [|vm_compute; reflexivity]. split_and!; [done|done|]. repeat constructor.
  - intros e w w' (Hc&Hn&Hr) Hs Hd. unfold deaf. destruct e; cbn in Hs.
    + unfold create_consumer in Hs. by destruct (consumer w).
    + unfold store_consumer in Hs. by rewrite Hn in Hs.
    + unfold subscribe in Hs. destruct (consumer w) eqn:E; [|done]. destruct err; injection Hs as <-; cbn; by rewrite ?E.
    + unfold run_test in Hs. destruct (runners w !! i) as [r|] eqn:Hi; [|done]. by rewrite (exited_lookup w i r Hr Hi) in Hs.
    + unfold run_receive in Hs. destruct (runners w !! i) as [r|] eqn:Hi; [|done]. by rewrite (exited_lookup w i r Hr Hi) in Hs.
    + by injection Hs as <-.
    + by destruct (Hd err).
Qed.

(** After the first [Disconnect] the broker is used up: every goroutine ends at its
    next test, also one started later, and the next [Disconnect] of a reconnected
    broker panics. *)
Theorem rocket_v5_no_restart err w w' :
  connected w = true -> Disconnect err w = Returned w' ->
  done (snd w') = true /\ Disconnect err (Connect (snd w')) = Panicked /\
  forall e w1 w2, done w1 = true -> step e w1 = Some w2 -> done w2 = true /\ forall i, e = ETest i -> runners w2 !! i = Some RExited.
Proof.
  unfold Disconnect. intros Hc H. rewrite Hc in H. cbn in H. destruct (done w) eqn:Ed; [done|]. split_and!.
  - destruct err; by injection H as <-.
  - destruct err; injection H as <-; done.
  - intros e w1 w2 Hd Hs. destruct e; cbn in Hs; unfold create_consumer, store_consumer, subscribe, run_test, run_receive in Hs.
    + repeat case_match; simplify_eq/=; by split.
    + apply bind_Some in Hs as (n&_&[= <-]). by split.
    + repeat case_match; simplify_eq/=; by split.
    + destruct (runners w1 !! i) as [[]|] eqn:Hi; try done. injection Hs as <-. cbn. split; [done|]. intros j [= <-]. rewrite Hd.
      apply list_lookup_insert_eq. by eapply lookup_lt_Some.
    + repeat case_match; simplify_eq/=; by split.
    + injection Hs as <-. by split.
    + unfold Disconnect in Hs. rewrite Hd in Hs. destruct (negb (connected w1)); [|done]. injection Hs as <-. by split.
Qed.

(** A message is acknowledged exactly if its topic has a subscriber that
    acknowledges, the body was decoded, the handler succeeded, and the server took
    the acknowledgement. *)
Lemma dispatch_acked {T} (gob_Decode : bytes -> value T -> option error * value T) codec subs ack mv :
  mv ∈ snd (dispatch gob_Decode codec subs ack (Some mv)) <->
  exists s, subs !! mv_Topic mv = Some s /\ s_autoAck s = true /\ s_reader s = true /\ ack mv = None /\
    fst (deliver gob_Decode codec (s_binder s) (s_handler s) (mv_Topic mv) (mv_Properties mv) (mv_Body mv)) = None.
Proof.
  unfold dispatch, onMessage. destruct (subs !! mv_Topic mv) as [s|]; [|cbn; split; [by intros ?%elem_of_nil|by intros (?&?&_)]].
  destruct (deliver _ _ _ _ _ _ _) as [[err|] es] eqn:E; cbn.
  - split; [by intros ?%elem_of_nil|]. intros (s'&[= <-]&_&_&_&Hd). by rewrite E in Hd.
  - destruct (s_autoAck s) eqn:Ea, (s_reader s) eqn:Er, (ack mv) eqn:Ek; cbn; split; try (by intros ?%elem_of_nil);
      try (intros (s'&[= <-]&?&?&?&?); congruence).
    + intros _. exists s. by rewrite E.
    + intros _. left.
Qed.
End V5.

(** * The driver over Aliyun's HTTP service *)
Module Aliyun.

(** The broker: its client, its producers by topic (which outlive the client), and
    whether it is connected. *)
Record aliyunmqBroker := mkBroker { client : option (string * Credentials); producers : gmap string nat; connected : bool }.

(** [func (b *aliyunmqBroker) Connect() error], [Disconnect] *)
Definition Connect (s : Settings) (b : aliyunmqBroker) : aliyunmqBroker :=
  if connected b then b else mkBroker (Some (Address s, credentials s)) (producers b) true.
Definition Disconnect (b : aliyunmqBroker) : aliyunmqBroker :=
  if connected b then mkBroker None (producers b) false else b.

(** [aliyun.PublishMessageRequest] *)
Record PublishMessageRequest := mkReq {
  MessageBody : bytes;
  Properties : option (gmap string string);
  StartDeliverTime : Z;
  MessageTag : string;
  MessageKey : string;
  ShardingKey : string
}.

(** The request [publish] builds: the properties of the options replace the headers,
    the keys are followed by a blank each. *)
Definition build (data : bytes) (headers : option (gmap string string)) (c : ctx_t) : PublishMessageRequest :=
  mkReq data
    (match as_props (Value c PropertiesKey) with Some m => Some m | None => headers end)
    (default 0 (as_int (Value c DelayTimeLevelKey)))
    (default "" (as_str (Value c TagsKey)))
    (match as_strs (Value c KeysKey) with Some l => String.concat "" (map (fun k => (k ++ " ")%string) l) | None => "" end)
    (default "" (as_str (Value c ShardingKeyKey))).

Section publish.
Context {T : Type} (gob_Encode : value T -> bytes + error).

(** [internalPublish] and [publish]: [made] is what [GetProducer] returns, if it is
    called. *)
Definition publish (codec : option (Codec (value T))) (b : aliyunmqBroker) (made : option nat) (send : nat -> PublishMessageRequest -> option error) (ctx : ctx_t)
    (topic : string) (msg : Message (A := gv T)) (opts : list (PubOptions -> PubOptions)) :
    result (option error * aliyunmqBroker * option (nat * PublishMessageRequest)) :=
  match Marshal gob_Encode codec (Body msg) with
  | inr e => Returned (Some e, b, None)
  | inl data =>
      match client b with
      | None => Returned (Some (Errorf "client is nil"), b, None)
      | Some _ =>
          let go p b' :=
            match po_Context (publish_options (Some ctx) opts) with
            | None => Panicked
            | Some c => let r := build data (msg_Headers msg) c in Returned (send p r, b', Some (p, r))
            end in
          match producers b !! topic, made with
          | Some p, _ => go p b
          | None, None => Returned (Some (Errorf "create producer failed"), b, None)
          | None, Some p => go p (mkBroker (client b) (<[topic := p]> (producers b)) (connected b))
          end
      end
  end.
End publish.

(** ** Consuming *)

Section consume.
Context {T : Type} (gob_Decode : bytes -> value T -> option error * value T).
Context (codec : option (Codec (value T))) (binder : option (unit -> gv T)) (handler : Event (T := T) -> option error) (autoAck : bool).

(** An entry of a response: its identifier, tag, key, body, properties and receipt, and
    the [Message] field of the embedded response header. *)
Record Entry := mkEntry {
  e_Message : string; e_Properties : gmap string string; e_Body : string; e_Receipt : string;
  e_MessageId : string; e_MessageTag : string; e_MessageKey : string
}.

(** The round's treatment of one message: without a binder the body is handed over as
    a string; the event's topic is the header's [Message]. *)
Definition on_entry (e : Entry) : option error * list (Event (T := T)) :=
  let ev body := mkEvent (e_Message e) (Some (mkMessage "" (Some (e_Properties e)) (Some body) "" None 0 0 None)) in
  match binder with
  | None => let x := ev (AString (e_Body e)) in (handler x, [x])
  | Some _ =>
      match decode_body gob_Decode codec binder (String.list_ascii_of_string (e_Body e)) with
      | inr err => (Some err, [])
      | inl body => let x := ev body in (handler x, [x])
      end
  end.

(** The calls of the handler, and the receipts acknowledged. *)
Definition on_response (msgs : list Entry) : list (Event (T := T)) * list string :=
  (concat (map (fun e => snd (on_entry e)) msgs),
   omap (fun e => match fst (on_entry e) with None => if autoAck then Some (e_Receipt e) else None | Some _ => None end) msgs).

(** What the helper goroutine of a round meets first: a response, an error (with
    whether it pauses), the timeout, the closed [done]. *)
Inductive got := GotResponse (msgs : list Entry) | GotError (pause : bool) | GotTimeout | GotDone.

(** [func (b *aliyunmqBroker) doConsume(sub *Subscriber)]: what the rounds deliver, the
    seconds slept, and whether the loop is stuck: a helper that saw [done] returns
    without a word, and the loop waits for its word for ever. *)
Fixpoint doConsume (rounds : list got) : list (Event (T := T)) * list string * Z * bool :=
  match rounds with
  | [] => ([], [], 0, false)
  | g :: rest =>
      let '(es, acks, slept, stuck) := doConsume rest in
      match g with
      | GotResponse msgs => let '(e, a) := on_response msgs in (e ++ es, a ++ acks, slept, stuck)
      | GotError pause => (es, acks, (if pause then 3 else 0) + slept, stuck)
      | GotTimeout => (es, acks, slept, stuck)
      | GotDone => ([], [], 0, true)
      end
  end.
End consume.

(** [func (s *Subscriber) Unsubscribe(removeFromManager bool) error]: whether [done] is
    closed now; a second call does nothing. *)
Definition Unsubscribe (closed : bool) : bool * bool := (true, negb closed).

(** Unsubscribing ends the deliveries, and leaves the consuming goroutine waiting:
    it never returns. *)
Lemma unsubscribe_sticks {T} (gob_Decode : bytes -> value T -> option error * value T) codec binder handler autoAck before after_ :
  Forall (fun g => g <> GotDone) before ->
  doConsume gob_Decode codec binder handler autoAck (before ++ GotDone :: after_) =
    (fst (doConsume gob_Decode codec binder handler autoAck before), true).
Proof.
  intros H. induction H as [|g l Hg _ IH]; [cbn; by destruct (doConsume _ _ _ _ _ after_) as [[[? ?] ?] ?]|]. cbn [app doConsume]. rewrite IH.
  destruct (doConsume _ _ _ _ _ l) as [[[es acks] slept] stuck]. destruct g; cbn; try congruence.
Qed.

(** Topics of events: the service's message header, not the topic. *)
Lemma event_topic {T} (gob_Decode : bytes -> value T -> option error * value T) codec binder handler e x :
  x ∈ snd (on_entry gob_Decode codec binder handler e) -> evt_Topic x = e_Message e.
Proof.
  unfold on_entry. destruct binder; [|by intros ->%list_elem_of_singleton].
  destruct (decode_body _ _ _ _); [by intros ->%list_elem_of_singleton|by intros ?%elem_of_nil].
Qed.
End Aliyun.
