(* ===== verification/Registry.v ===== *)
(** [registry/kubernetes] and [registry/nacos]: registration, discovery and the
    watchers.

    The API server's pods and the informer's copy of them are maps; JSON is the
    third-party json-iterator and the naming client is the Nacos SDK, both
    parameters.  [url.Parse] is a parameter too, since its grammar of hosts differs
    between Go releases: the statements use it on plain endpoints only
    ([UrlLaws]). *)
From Stdlib Require Import ZArith Lia Ascii DecimalString SpecFloat.
From S2P Require Import Prelude Float64 GoErrors GoStrings NetPacket Servers.
From stdpp Require Import base gmap strings list fin_maps.
Open Scope string_scope.
Open Scope list_scope.
Open Scope Z_scope.

(** [lulu.Instance] as the registries use it; a nil [Metadata] is [None]. *)
Record Instance := mkInstance {
  inst_ID : string;
  inst_Name : string;
  inst_Version : string;
  inst_Metadata : option (gmap string string);
  inst_Endpoints : list string
}.

(** * [net/url] *)

Record URL := mkURL { Scheme : string; Host : string }.

Class NetUrl := { url_Parse : string -> URL + error }.

(** Characters of the schemes and of the hosts of a plain endpoint. *)
Definition is_lower (c : ascii) : bool := (97 <=? nat_of_ascii c)%nat && (nat_of_ascii c <=? 122)%nat.
Definition is_digit (c : ascii) : bool := (48 <=? nat_of_ascii c)%nat && (nat_of_ascii c <=? 57)%nat.
Definition is_host_char (c : ascii) : bool := is_lower c || is_digit c || Ascii.eqb c "." || Ascii.eqb c "-".
Definition plain (p : ascii -> bool) (s : string) : Prop := s <> "" /\ forallb p (chars s) = true.

(** [fmt.Sprintf("%s://%s:%d", scheme, host, port)] *)
Definition format_endpoint (scheme host : string) (port : Z) : string := (scheme ++ "://" ++ host ++ ":" ++ Itoa port)%string.

(** What the documentation of [url.Parse] says of [scheme://host:port]. *)
Class UrlLaws `{NetUrl} := {
  parse_plain : forall scheme host port, plain is_lower scheme -> plain is_host_char host -> 0 <= port < 65536 ->
    url_Parse (format_endpoint scheme host port) = inl (mkURL scheme (host ++ ":" ++ Itoa port)%string)
}.

(** [validOptionalPort] and [func (u *URL) Port() string] *)
Definition validOptionalPort (port : bytes) : bool :=
  match port with
  | [] => true
  | c :: digits => Ascii.eqb c ":" && forallb is_digit digits
  end.
Definition Port (u : URL) : string :=
  let h := chars (Host u) in
  match LastIndexByte ":" h with
  | Some i => if validOptionalPort (drop i h) then text (drop (S i) h) else ""
  | None => ""
  end.

Lemma chars_app (a b : string) : chars (a ++ b)%string = chars a ++ chars b.
Proof. induction a as [|c a IH]; [done|]. change (chars (String c a ++ b)%string) with (c :: chars (a ++ b)%string). by rewrite IH. Qed.

Lemma digits_uint d : forallb is_digit (chars (NilEmpty.string_of_uint d)) = true.
Proof. by induction d. Qed.

Lemma digits_Itoa n : 0 <= n -> forallb is_digit (chars (Itoa n)) = true.
Proof.
  intros Hn. unfold Itoa. destruct n as [|p|p]; [done| |lia]. cbn. unfold NilZero.string_of_uint.
  destruct (Pos.to_uint p); try done; apply (digits_uint (_ u)).
Qed.

(** The port of a plain address. *)
Lemma Port_plain scheme host port : 0 <= port -> Port (mkURL scheme (host ++ ":" ++ Itoa port)%string) = Itoa port.
Proof.
  intros Hp. pose proof (digits_Itoa port Hp) as Hd. unfold Port. cbn [Host]. rewrite !chars_app.
  change (chars ":" ++ chars (Itoa port)) with (":"%char :: chars (Itoa port)).
  rewrite LastIndexByte_app.
  - rewrite drop_app_length. simpl. rewrite Hd. rewrite <-(Nat.add_1_r (length _)), <-drop_drop, drop_app_length. simpl.
    apply String.string_of_list_ascii_of_string.
  - intros Hin. rewrite forallb_forall in Hd. apply list_elem_of_In in Hin. by specialize (Hd _ Hin).
Qed.

(** * [registry/kubernetes] *)

Module Kubernetes.

Definition LabelsKeyServiceID : string := "lulu-service-id".
Definition LabelsKeyServiceName : string := "lulu-service-app".
Definition LabelsKeyServiceVersion : string := "lulu-service-version".
Definition AnnotationsKeyMetadata : string := "lulu-service-metadata".
Definition AnnotationsKeyProtocolMap : string := "lulu-service-protocols".

Definition ErrIteratorClosed : error := Sentinel "ErrIteratorClosed" "iterator closed".

(** What the registry reads of a [corev1.Pod]; an absent label reads as "". *)
Record ContainerPort := mkContainerPort { cp_Name : string; cp_ContainerPort : Z; cp_Protocol : string }.
Record Pod := mkPod {
  pod_Namespace : string;
  pod_Name : string;
  pod_Labels : gmap string string;
  pod_Annotations : gmap string string;
  pod_Phase : string;
  pod_IP : string;
  pod_Containers : list (list ContainerPort)
}.

(** Pods by namespace and name. *)
Abbreviation Pods := (gmap (string * string) Pod).

(** [m[key]] of a Go map of strings. *)
Definition index (m : gmap string string) (key : string) : string := default "" (m !! key).

(** json-iterator: encoding a map (nil or not), decoding into an empty map. *)
Class Json := {
  json_Marshal : option (gmap string string) -> string + error;
  json_Unmarshal : string -> gmap string string + error
}.

(** The error [ErrorHandleResource], which does not unwrap; the text of the reason
    is left out. *)
Definition ErrorHandleResource (pod : Pod) (reason : error) : error :=
  Errorf ("failed to handle resource(namespace=" ++ pod_Namespace pod ++ ", name=" ++ pod_Name pod ++ ")")%string.

Definition isEmptyObjectString (s : string) : bool :=
  String.eqb s "" || String.eqb s "{}" || String.eqb s "null" || String.eqb s "nil" || String.eqb s "[]".

(** [func (m protocolMap) GetProtocol(port int32) string] *)
Definition GetProtocol (m : gmap string string) (port : Z) : string := index m (Itoa port).

Section registry.
Context `{NetUrl} `{Json}.

(** [func getProtocolMapByEndpoints(endpoints []string) (protocolMap, error)] *)
Fixpoint protocol_loop (endpoints : list string) (ret : gmap string string) : gmap string string + error :=
  match endpoints with
  | [] => inl ret
  | endpoint :: rest =>
      match url_Parse endpoint with
      | inr err => inr err
      | inl u => protocol_loop rest (<[Port u := Scheme u]> ret)
      end
  end.
Definition getProtocolMapByEndpoints (endpoints : list string) : gmap string string + error := protocol_loop endpoints ∅.

(** The annotation [key] of a pod, decoded: [getProtocolMapFromPod] and
    [getMetadataFromPod]. *)
Definition annotation_map (key : string) (pod : Pod) : gmap string string + error :=
  let s := index (pod_Annotations pod) key in
  if isEmptyObjectString s then inl ∅
  else match json_Unmarshal s with inl m => inl m | inr err => inr (ErrorHandleResource pod err) end.
Definition getProtocolMapFromPod := annotation_map AnnotationsKeyProtocolMap.
Definition getMetadataFromPod := annotation_map AnnotationsKeyMetadata.

(** The protocol of a container port. *)
Definition port_protocol (protocolMap : gmap string string) (cp : ContainerPort) : string :=
  let protocol := GetProtocol protocolMap (cp_ContainerPort cp) in
  if String.eqb protocol "" then
    if negb (String.eqb (cp_Name cp) "") then default "" (head (Split (cp_Name cp) "-")) else cp_Protocol cp
  else protocol.

(** [func getServiceInstanceFromPod(pod *corev1.Pod) ( *lulu.Instance, error)] *)
Definition getServiceInstanceFromPod (pod : Pod) : Instance + error :=
  match getMetadataFromPod pod with
  | inr err => inr err
  | inl metadata =>
      match getProtocolMapFromPod pod with
      | inr err => inr err
      | inl protocolMap =>
          inl (mkInstance (index (pod_Labels pod) LabelsKeyServiceID) (index (pod_Labels pod) LabelsKeyServiceName)
                 (index (pod_Labels pod) LabelsKeyServiceVersion) (Some metadata)
                 (map (fun cp => format_endpoint (port_protocol protocolMap cp) (pod_IP pod) (cp_ContainerPort cp))
                    (concat (pod_Containers pod))))
      end
  end.

(** The strategic merge patch of [Register]: its labels and annotations are merged
    into the pod's. *)
Definition patched (service : Instance) (metadataVal protocolMapVal : string) (pod : Pod) : Pod :=
  mkPod (pod_Namespace pod) (pod_Name pod)
    (<[LabelsKeyServiceID := inst_ID service]> (<[LabelsKeyServiceName := inst_Name service]>
      (<[LabelsKeyServiceVersion := inst_Version service]> (pod_Labels pod))))
    (<[AnnotationsKeyMetadata := metadataVal]> (<[AnnotationsKeyProtocolMap := protocolMapVal]> (pod_Annotations pod)))
    (pod_Phase pod) (pod_IP pod) (pod_Containers pod).

(** [func (s *Registry) Register]: [here] is the process's own pod ([GetNamespace],
    [GetPodName]), [reject] the API server's answer to the patch. *)
Definition Register (here : string * string) (service : Instance) (reject : option error) (api : Pods) : option error * Pods :=
  match json_Marshal (inst_Metadata service) with
  | inr err => (Some err, api)
  | inl metadataVal =>
      match getProtocolMapByEndpoints (inst_Endpoints service) with
      | inr err => (Some err, api)
      | inl protocolMap =>
          match json_Marshal (Some protocolMap) with
          | inr err => (Some err, api)
          | inl protocolMapVal =>
              match reject, api !! here with
              | Some err, _ => (Some err, api)
              | None, None => (Some (Sentinel "NotFound" "pods not found"), api)
              | None, Some pod => (None, <[here := patched service metadataVal protocolMapVal pod]> api)
              end
          end
      end
  end.

(** [func (s *Registry) Deregister] *)
Definition Deregister (here : string * string) (reject : option error) (api : Pods) : option error * Pods :=
  Register here (mkInstance "" "" "" (Some ∅) []) reject api.

(** The pods [podLister.List] selects from the informer's memory, where it does not
    fail: those that carry the label with that value. *)
Definition selected (name : string) (e : (string * string) * Pod) : Prop :=
  pod_Labels (snd e) !! LabelsKeyServiceName = Some name.
#[export] Instance selected_dec name e : Decision (selected name e).
Proof. unfold selected. apply _. Defined.

(** [func (s *Registry) GetService], over the informer's cache.  The lister walks a Go map,
    so the order of its pods differs from call to call; here it is one fixed order for each
    cache, and what is said of the lists below is up to that order. *)
Fixpoint instances_loop (pods : list Pod) : list Instance + error :=
  match pods with
  | [] => inl []
  | pod :: rest =>
      if negb (String.eqb (pod_Phase pod) "Running") then instances_loop rest
      else
        match getServiceInstanceFromPod pod with
        | inr err => inr err
        | inl instance => match instances_loop rest with inr err => inr err | inl ret => inl (instance :: ret) end
        end
  end.
Definition GetService (cache : Pods) (name : string) : list Instance + error :=
  instances_loop (map snd (map_to_list (filter (selected name) cache))).

(** ** The watcher

    The informer keeps for each handler a queue of notices, which one goroutine
    takes one at a time.  A notice has the pod before and after; the removal of a
    pod the informer missed comes as a tombstone. *)
Inductive notice := Changed (old new : option Pod) | Tombstone.

(** [closed] and [stopped] are the registry's and the iterator's [stopCh]; [ch] is
    the announcement channel of capacity 1 and [sending] the list a handler waits to
    put there.  A panic of the handler ends the process.  For the statements, the
    lists announced and those [Next] returned. *)
Record Watching := mkWatching {
  w_cache : Pods;
  closed : bool;
  stopped : bool;
  queue : list notice;
  ch : list (list Instance);
  sending : option (list Instance);
  panicked : bool;
  announced : list (list Instance);
  delivered : list (list Instance)
}.

Context (name : string).

(** [func (s *Registry) Watch]: the informer first reports every pod it has. *)
Definition Watch (cache : Pods) (isClosed : bool) : Watching :=
  mkWatching cache isClosed false (map (fun e => Changed None (Some (snd e))) (map_to_list cache)) [] None false [] [].

(** The informer learns of a change; [missed] says it did not see the deletion. *)
Definition informer_change (k : string * string) (new : option Pod) (missed : bool) (w : Watching) : option Watching :=
  if closed w then None
  else
    let old := w_cache w !! k in
    let n := if missed && bool_decide (new = None) then Tombstone else Changed old new in
    Some (mkWatching (partial_alter (fun _ => new) k (w_cache w)) (closed w) (stopped w) (queue w ++ [n])
            (ch w) (sending w) (panicked w) (announced w) (delivered w)).

(** [FilterFunc], on a pod. *)
Definition FilterFunc (w : Watching) (pod : Pod) : bool :=
  if stopped w || closed w then false else String.eqb (index (pod_Labels pod) LabelsKeyServiceName) name.

(** [sendLatestInstances] *)
Definition sendLatestInstances (w : Watching) : Watching :=
  match GetService (w_cache w) name with
  | inr _ => mkWatching (w_cache w) (closed w) (stopped w) (queue w) (ch w) (sending w) true (announced w) (delivered w)
  | inl instances =>
      mkWatching (w_cache w) (closed w) (stopped w) (queue w)
        (match ch w with [] => [instances] | l => l end)
        (match ch w with [] => sending w | _ => Some instances end)
        (panicked w) (announced w ++ [instances]) (delivered w)
  end.

(** The handler takes a notice: an event passes when its pod passes, an update when
    either pod does; the assertion [obj.( *corev1.Pod)] fails on a tombstone. *)
Definition passes (w : Watching) (n : notice) : option bool :=
  match n with
  | Changed old new =>
      Some (default false (FilterFunc w <$> old) || default false (FilterFunc w <$> new))
  | Tombstone => if stopped w || closed w then Some false else None
  end.
Definition handle (w : Watching) : option Watching :=
  match queue w, sending w, panicked w with
  | n :: rest, None, false =>
      let w' := mkWatching (w_cache w) (closed w) (stopped w) rest (ch w) None false (announced w) (delivered w) in
      Some match passes w n with
           | Some true => sendLatestInstances w'
           | Some false => w'
           | None => mkWatching (w_cache w) (closed w) (stopped w) rest (ch w) None true (announced w) (delivered w)
           end
  | _, _, _ => None
  end.

(** [func (iter *Iterator) Next]: [prefer_stop] is the choice of the select when both
    cases are ready; [None] is a call that waits.  A handler that waits to send does
    so when the channel has room. *)
Definition Next (prefer_stop : bool) (w : Watching) : option ((list Instance + error) * Watching) :=
  match ch w with
  | instances :: _ =>
      if stopped w && prefer_stop then Some (inr ErrIteratorClosed, w)
      else Some (inl instances,
             mkWatching (w_cache w) (closed w) (stopped w) (queue w) (option_list (sending w)) None (panicked w)
               (announced w) (delivered w ++ [instances]))
  | [] => if stopped w then Some (inr ErrIteratorClosed, w) else None
  end.

(** [func (iter *Iterator) Stop] and [func (s *Registry) Close] *)
Definition Stop (w : Watching) : Watching :=
  mkWatching (w_cache w) (closed w) true (queue w) (ch w) (sending w) (panicked w) (announced w) (delivered w).
Definition Close (w : Watching) : Watching :=
  mkWatching (w_cache w) true (stopped w) (queue w) (ch w) (sending w) (panicked w) (announced w) (delivered w).

Inductive event :=
| EChange (k : string * string) (new : option Pod) (missed : bool)
| EHandle | ENext (prefer_stop : bool) | EStop | EClose.

Definition step (e : event) (w : Watching) : option Watching :=
  match e with
  | EChange k new missed => informer_change k new missed w
  | EHandle => handle w
  | ENext b => snd <$> Next b w
  | EStop => Some (Stop w)
  | EClose => Some (Close w)
  end.
Fixpoint run (es : list event) (w : Watching) : option Watching :=
  match es with
  | [] => Some w
  | e :: es' => w' ← step e w; run es' w'
  end.

(** ** Properties: the watcher *)

(** A notice that leads to an announcement, or to a panic. *)
Definition relevant (n : notice) : Prop :=
  match n with
  | Changed old new =>
      (exists p, (old = Some p \/ new = Some p) /\ index (pod_Labels p) LabelsKeyServiceName = name)
  | Tombstone => True
  end.

Definition up_to_date (w : Watching) : Prop :=
  stopped w = false -> closed w = false -> panicked w = false -> Forall (fun n => ~ relevant n) (queue w) ->
  GetService (w_cache w) name = inl (default [] (last (announced w))).

Definition watch_ok (w : Watching) : Prop :=
  announced w = delivered w ++ ch w ++ option_list (sending w) /\
  (length (ch w) <= 1)%nat /\ (sending w <> None -> length (ch w) = 1%nat) /\ up_to_date w.

Lemma selected_relevant k p : selected name (k, p) -> index (pod_Labels p) LabelsKeyServiceName = name.
Proof. unfold selected, index. simpl. by intros ->. Qed.

(** A change neither of whose pods passes leaves what is selected. *)
Lemma irrelevant_change cache k new :
  ~ relevant (Changed (cache !! k) new) -> GetService (partial_alter (fun _ => new) k cache) name = GetService cache name.
Proof.
  intros Hn. unfold GetService.
  enough (filter (selected name) (partial_alter (fun _ => new) k cache) = filter (selected name) cache) as -> by done.
  apply map_eq. intros j. rewrite !map_lookup_filter.
  destruct (decide (j = k)) as [->|Hj]; [|by rewrite lookup_partial_alter_ne].
  rewrite lookup_partial_alter_eq.
  assert (forall o, (forall p, o = Some p -> index (pod_Labels p) LabelsKeyServiceName <> name) ->
    (o ≫= fun x => guard (selected name (k, x)) ;; Some x) = None) as Hnone.
  { intros [p|] Hp; [|done]. simpl. case_guard as Hs; [|done]. exfalso. by apply (Hp p eq_refl), (selected_relevant k). }
  rewrite !Hnone; [done| |]; intros p Ho Hp; apply Hn; simpl; eauto.
Qed.

Lemma irrelevant_cache cache :
  Forall (fun n => ~ relevant n) (map (fun e => Changed None (Some (snd e))) (map_to_list cache)) ->
  GetService cache name = inl [].
Proof.
  intros Hn. unfold GetService. replace (filter (selected name) cache) with (∅ : Pods); [by rewrite map_to_list_empty|].
  symmetry. apply map_empty. intros k. rewrite map_lookup_filter. destruct (cache !! k) as [p|] eqn:E; [|done]. simpl.
  case_guard as Hs; [|done]. exfalso. rewrite Forall_forall in Hn. refine (Hn (Changed None (Some p)) _ _).
  - apply list_elem_of_fmap. exists (k, p). split; [done|]. by apply elem_of_map_to_list.
  - simpl. exists p. split; [auto|]. by apply (selected_relevant k).
Qed.

Lemma watch_start cache c : watch_ok (Watch cache c).
Proof.
  unfold Watch. split_and!; try done; [simpl; lia|]. intros _ _ _ Hq. by apply irrelevant_cache.
Qed.

Lemma passes_false w n : stopped w = false -> closed w = false -> passes w n = Some false -> ~ relevant n.
Proof.
  intros Hs Hc. unfold passes, FilterFunc. rewrite Hs, Hc. simpl. destruct n as [old new|]; [|done].
  intros [= [Ho Hn]%orb_false_iff] (p&Hp&Hl). apply (proj2 (String.eqb_eq _ _)) in Hl.
  destruct Hp as [->| ->]; simpl in *; congruence.
Qed.

Lemma send_ok w : announced w = delivered w ++ ch w -> sending w = None -> (length (ch w) <= 1)%nat ->
  watch_ok (sendLatestInstances w).
Proof.
  intros Ha Hs Hl. unfold sendLatestInstances, watch_ok. destruct (GetService (w_cache w) name) as [l|err] eqn:E; simpl.
  - split_and!.
    + rewrite Ha. destruct (ch w); simpl; rewrite ?Hs; simpl; by rewrite <-!app_assoc.
    + destruct (ch w); simpl in *; lia.
    + destruct (ch w) as [|x [|]]; simpl in *; [|done|lia]. by rewrite Hs.
    + intros _ _ _ _. simpl. rewrite E, last_snoc. done.
  - split_and!; try done. by rewrite Hs, app_nil_r.
Qed.

Lemma handle_ok w w' : watch_ok w -> handle w = Some w' -> watch_ok w'.
Proof.
  intros (Ha&Hl&Hs&Hu). unfold handle. destruct (queue w) as [|n rest] eqn:Eq; [done|].
  destruct (sending w) eqn:Es; [done|]. destruct (panicked w) eqn:Ep; [done|]. simpl in Ha. rewrite app_nil_r in Ha.
  destruct (passes w n) as [[]|] eqn:En; intros [= <-].
  - by apply send_ok.
  - split_and!; simpl; rewrite ?app_nil_r; try done. intros H1 H2 _ H3. simpl in *. apply Hu; try done. rewrite Eq.
    constructor; [|done]. by eapply passes_false.
  - split_and!; simpl; rewrite ?app_nil_r; try done.
Qed.

Lemma k8s_step_ok e w w' : watch_ok w -> step e w = Some w' -> watch_ok w'.
Proof.
  intros Hok. pose proof Hok as (Ha&Hl&Hs&Hu). destruct e as [k new missed| |b| |]; simpl.
  - unfold informer_change. destruct (closed w) eqn:Ec; [done|]. intros [= <-]. split_and!; try done.
    intros H1 _ H2 [H3 H4]%Forall_app. simpl in *. apply Forall_cons in H4 as [H4 _].
    destruct (missed && bool_decide (new = None)); [by destruct H4|].
    rewrite irrelevant_change by done. by apply Hu.
  - by apply handle_ok.
  - unfold Next. destruct (ch w) as [|x l] eqn:Ech.
    + destruct (stopped w); [|done]. by intros [= <-].
    + destruct (stopped w && b); intros [= <-]; [done|]. destruct l; [|simpl in Hl; lia].
      split_and!; simpl in *; try done. { by rewrite Ha, <-!app_assoc, app_nil_r. } by destruct (sending w); simpl; lia.
  - intros [= <-]. split_and!; try done.
  - intros [= <-]. split_and!; try done.
Qed.

(** C26: the watcher of a service: whatever the order in which pods change, the
    informer's handler runs and the iterator is read, every announced list of
    instances is returned by [Next] once and in order, or still in the channel, or
    held by the one handler that waits; and when no pending notice concerns the
    service, the last list announced is what [GetService] returns now. *)
Theorem kubernetes_watch es cache w :
  run es (Watch cache false) = Some w ->
  announced w = delivered w ++ ch w ++ option_list (sending w) /\ (length (ch w) <= 1)%nat /\
  (stopped w = false -> closed w = false -> panicked w = false -> Forall (fun n => ~ relevant n) (queue w) ->
   GetService (w_cache w) name = inl (default [] (last (announced w)))).
Proof.
  assert (forall w0, watch_ok w0 -> run es w0 = Some w -> watch_ok w) as Hrun.
  { induction es as [|e es IH]; intros w0 Hw0; simpl; [by intros [= <-]|].
    destruct (step e w0) as [w1|] eqn:E; simpl; [|done]. by apply IH, (k8s_step_ok e w0). }
  intros Hr. destruct (Hrun _ (watch_start cache false) Hr) as (Ha&Hl&_&Hu). done.
Qed.

(** ** Properties: registration *)

(** What json-iterator is relied on for: nil is null, an empty map is empty braces,
    and a map it can encode ([encodable]: valid UTF-8) decodes to itself. *)
Class JsonLaws := {
  encodable : gmap string string -> Prop;
  marshal_nil : json_Marshal None = inl "null";
  marshal_empty : json_Marshal (Some ∅) = inl "{}";
  marshal_round : forall m, encodable m -> m <> ∅ ->
    exists s, json_Marshal (Some m) = inl (String "{" s) /\ s <> "}" /\ json_Unmarshal (String "{" s) = inl m
}.
Context `{!UrlLaws} `{!JsonLaws}.

(** An encoded map is read back from the annotation. *)
Lemma annotation_round m key pod s :
  match m with Some md => md = ∅ \/ encodable md | None => True end -> json_Marshal m = inl s ->
  pod_Annotations pod !! key = Some s -> annotation_map key pod = inl (default ∅ m).
Proof.
  intros Hm Hs Hp. unfold annotation_map, index. rewrite Hp. simpl.
  destruct m as [md|]; [|rewrite marshal_nil in Hs; by injection Hs as <-].
  destruct (decide (md = ∅)) as [->|Hne]; [rewrite marshal_empty in Hs; by injection Hs as <-|].
  destruct Hm as [->|Hm]; [done|]. destruct (marshal_round md Hm Hne) as (s'&Hm1&Hm2&Hm3).
  rewrite Hm1 in Hs. injection Hs as <-.
  assert (isEmptyObjectString (String "{" s') = false) as ->; [|by rewrite Hm3].
  unfold isEmptyObjectString. rewrite !orb_false_iff, !String.eqb_neq. split_and!; try done. by intros [= ->].
Qed.

(** A plain endpoint: scheme, host and port. *)
Record target := mkTarget { t_scheme : string; t_host : string; t_port : Z }.
Definition plain_target (t : target) : Prop :=
  plain is_lower (t_scheme t) /\ plain is_host_char (t_host t) /\ 0 <= t_port t < 65536.
Definition endpoint_of (t : target) : string := format_endpoint (t_scheme t) (t_host t) (t_port t).

Definition protocols (ts : list target) (m : gmap string string) : gmap string string :=
  foldl (fun acc t => <[Itoa (t_port t) := t_scheme t]> acc) m ts.

Lemma protocol_loop_plain ts m : Forall plain_target ts -> protocol_loop (map endpoint_of ts) m = inl (protocols ts m).
Proof.
  intros Hts. revert m. induction Hts as [|t ts (Hs&Hh&Hp) Hts IH]; intros m; [done|]. simpl.
  unfold endpoint_of at 1. rewrite (parse_plain _ _ _ Hs Hh Hp). simpl. by rewrite IH, Port_plain by lia.
Qed.

Lemma protocols_lookup ts m t :
  NoDup (map t_port ts) -> t ∈ ts -> protocols ts m !! Itoa (t_port t) = Some (t_scheme t).
Proof.
  revert m. induction ts as [|t' ts IH]; intros m Hnd Hin; [by apply elem_of_nil in Hin|].
  apply NoDup_cons in Hnd as [Hn Hnd]. apply elem_of_cons in Hin as [->|Hin]; [|by apply IH]. simpl.
  assert (forall m0, protocols ts m0 !! Itoa (t_port t') = m0 !! Itoa (t_port t')) as ->; [|by rewrite lookup_insert_eq].
  clear IH Hnd. induction ts as [|t2 ts IH]; intros m0; [done|]. simpl. rewrite IH.
  - rewrite lookup_insert_ne; [done|]. intros He%Itoa_inj. apply Hn. simpl. rewrite He. apply elem_of_cons. auto.
  - intros Hin. apply Hn. simpl. apply elem_of_cons. auto.
Qed.

(** The endpoints of a pod that declares a service's ports carry their schemes. *)
Lemma endpoints_plain ts all ip cps :
  NoDup (map t_port all) -> Forall plain_target all -> (forall t, t ∈ ts -> t ∈ all) -> map cp_ContainerPort cps = map t_port ts ->
  map (fun cp => format_endpoint (port_protocol (protocols all ∅) cp) ip (cp_ContainerPort cp)) cps =
  map (fun t => format_endpoint (t_scheme t) ip (t_port t)) ts.
Proof.
  intros Hnd Hpl. revert cps. induction ts as [|t ts IH]; intros [|cp cps] Hall Heq; try done.
  injection Heq as Hcp Heq. simpl. f_equal.
  - unfold port_protocol, GetProtocol, index. rewrite Hcp, (protocols_lookup all ∅ t Hnd) by (apply Hall, elem_of_cons; auto).
    simpl. destruct (String.eqb_spec (t_scheme t) "") as [He|]; [|done].
    rewrite Forall_forall in Hpl. destruct (Hpl t) as [[Hne _] _]; [apply Hall, elem_of_cons; auto|]. done.
  - apply IH; [|done]. intros t' Ht'. apply Hall, elem_of_cons. auto.
Qed.

(** Pods that all decode give instances that all decode. *)
Lemma instances_total pods :
  (forall p, p ∈ pods -> exists i, getServiceInstanceFromPod p = inl i) ->
  exists l, instances_loop pods = inl l /\
    forall p i, p ∈ pods -> pod_Phase p = "Running" -> getServiceInstanceFromPod p = inl i -> i ∈ l.
Proof.
  induction pods as [|p pods IH]; intros Hall; [exists []; split; [done|]; intros p i Hin; by apply elem_of_nil in Hin|].
  destruct IH as (l&Hl&Hin); [intros q Hq; apply Hall, elem_of_cons; auto|]. simpl. rewrite Hl.
  destruct (String.eqb_spec (pod_Phase p) "Running") as [Hp|Hp]; simpl.
  - destruct (Hall p) as (i&Hi); [apply elem_of_cons; auto|]. rewrite Hi. exists (i :: l). split; [done|].
    intros q j [->|Hq]%elem_of_cons Hr Hj; apply elem_of_cons; [left; congruence|]. right. eauto.
  - exists l. split; [done|]. intros q j [->|Hq]%elem_of_cons Hr Hj; [done|]. eauto.
Qed.

Lemma getService_total cache n :
  (forall k p, cache !! k = Some p -> selected n (k, p) -> exists i, getServiceInstanceFromPod p = inl i) ->
  exists l, GetService cache n = inl l /\
    forall k p i, cache !! k = Some p -> selected n (k, p) -> pod_Phase p = "Running" -> getServiceInstanceFromPod p = inl i -> i ∈ l.
Proof.
  intros Hall. unfold GetService.
  destruct (instances_total (map snd (map_to_list (filter (selected n) cache)))) as (l&Hl&Hin).
  - intros p ((k&p')&->&[Hk Hs]%elem_of_map_to_list%map_lookup_filter_Some)%list_elem_of_fmap. eauto.
  - exists l. split; [done|]. intros k p i Hk Hs Hr Hi. eapply Hin; [|done..].
    apply list_elem_of_fmap. exists (k, p). split; [done|]. by apply elem_of_map_to_list, map_lookup_filter_Some.
Qed.

(** The keys of the patch are distinct. *)
Lemma patched_labels svc a b pod :
  index (pod_Labels (patched svc a b pod)) LabelsKeyServiceID = inst_ID svc /\
  pod_Labels (patched svc a b pod) !! LabelsKeyServiceName = Some (inst_Name svc) /\
  index (pod_Labels (patched svc a b pod)) LabelsKeyServiceVersion = inst_Version svc /\
  pod_Annotations (patched svc a b pod) !! AnnotationsKeyMetadata = Some a /\
  pod_Annotations (patched svc a b pod) !! AnnotationsKeyProtocolMap = Some b.
Proof.
  unfold patched, index. cbn [pod_Labels pod_Annotations].
  split_and!; repeat (rewrite lookup_insert_eq || rewrite lookup_insert_ne by done); done.
Qed.

Lemma register_here here svc api pod a m b :
  json_Marshal (inst_Metadata svc) = inl a -> getProtocolMapByEndpoints (inst_Endpoints svc) = inl m ->
  json_Marshal (Some m) = inl b -> api !! here = Some pod ->
  Register here svc None api = (None, <[here := patched svc a b pod]> api).
Proof. intros Ha Hm Hb Hp. unfold Register. by rewrite Ha, Hm, Hb, Hp. Qed.

Lemma marshal_total m : match m with Some md => md = ∅ \/ encodable md | None => True end -> exists s, json_Marshal m = inl s.
Proof.
  destruct m as [md|]; [|eauto using marshal_nil]. intros Hm.
  destruct (decide (md = ∅)) as [->|Hne]; [eauto using marshal_empty|]. destruct Hm as [->|Hm]; [done|].
  destruct (marshal_round md Hm Hne) as (s&Hs&_). eauto.
Qed.

(** C25: registration and discovery on Kubernetes: a running pod that registers a
    service whose endpoints' ports it declares is listed by [GetService], once the
    informer has its labels, with the ID, name, version and metadata registered and
    with each port under the scheme of its endpoint and the pod's address; after
    [Deregister] the pod is no longer listed for that name.  Every other pod must
    decode, for one that does not makes [GetService] fail. *)
Theorem kubernetes_round_trip here svc ts api pod :
  api !! here = Some pod -> pod_Phase pod = "Running" ->
  inst_Endpoints svc = map endpoint_of ts -> Forall plain_target ts -> NoDup (map t_port ts) ->
  map cp_ContainerPort (concat (pod_Containers pod)) = map t_port ts ->
  match inst_Metadata svc with Some md => md = ∅ \/ encodable md | None => True end ->
  (protocols ts ∅ = ∅ \/ encodable (protocols ts ∅)) ->
  exists api', Register here svc None api = (None, api') /\
  (forall cache, cache !! here = api' !! here ->
     (forall k p, k <> here -> cache !! k = Some p -> exists i, getServiceInstanceFromPod p = inl i) ->
     exists l, GetService cache (inst_Name svc) = inl l /\
       mkInstance (inst_ID svc) (inst_Name svc) (inst_Version svc) (Some (default ∅ (inst_Metadata svc)))
         (map (fun t => format_endpoint (t_scheme t) (pod_IP pod) (t_port t)) ts) ∈ l) /\
  exists api'', Deregister here None api' = (None, api'') /\
  (inst_Name svc <> "" -> forall cache, cache !! here = api'' !! here ->
     GetService cache (inst_Name svc) = GetService (delete here cache) (inst_Name svc)).
Proof.
  intros Hpod Hrun Heps Hpl Hnd Hports Hmd Hprot.
  assert (getProtocolMapByEndpoints (inst_Endpoints svc) = inl (protocols ts ∅)) as Hm by (rewrite Heps; by apply protocol_loop_plain).
  destruct (marshal_total _ Hmd) as (a&Ha). destruct (marshal_total (Some (protocols ts ∅)) Hprot) as (b&Hb).
  destruct (patched_labels svc a b pod) as (L1&L2&L3&A1&A2).
  eexists. split; [by eapply register_here|]. split.
  - intros cache Hc Hothers. rewrite lookup_insert_eq in Hc.
    assert (getServiceInstanceFromPod (patched svc a b pod) = inl (mkInstance (inst_ID svc) (inst_Name svc) (inst_Version svc)
      (Some (default ∅ (inst_Metadata svc))) (map (fun t => format_endpoint (t_scheme t) (pod_IP pod) (t_port t)) ts))) as Hinst.
    { unfold getServiceInstanceFromPod, getMetadataFromPod, getProtocolMapFromPod.
      rewrite (annotation_round _ _ _ _ Hmd Ha A1), (annotation_round (Some (protocols ts ∅)) _ _ _ Hprot Hb A2), L1, L3.
      unfold index at 1. rewrite L2. simpl. by rewrite (endpoints_plain ts ts). }
    destruct (getService_total cache (inst_Name svc)) as (l&Hl&Hin).
    + intros k p Hk _. destruct (decide (k = here)) as [->|Hne]; [|by eapply Hothers]. rewrite Hc in Hk. injection Hk as <-. eauto.
    + exists l. split; [done|]. by eapply Hin.
  - eexists. split; [eapply register_here; [apply marshal_empty|done|apply marshal_empty|apply lookup_insert_eq]|].
    intros Hn cache Hc. rewrite lookup_insert_eq in Hc. unfold GetService.
    rewrite (map_filter_delete_not _ cache); [done|]. intros p Hp. rewrite Hc in Hp. injection Hp as <-.
    unfold selected. simpl. rewrite lookup_insert_ne, lookup_insert_eq by done. congruence.
Qed.
End registry.
End Kubernetes.


(** * [registry/nacos] *)

Module Nacos.

Definition ErrServiceInstanceNameEmpty : error := Sentinel "ErrServiceInstanceNameEmpty" "lulu/nacos: ServiceInstance.Name can not be empty".

(** [options.go] and [New] *)
Record options := mkOptions { o_prefix : string; o_weight : float64; o_cluster : string; o_group : string; o_kind : string }.
Definition WithPrefix (v : string) : options -> options := fun o => mkOptions v (o_weight o) (o_cluster o) (o_group o) (o_kind o).
Definition WithWeight (v : float64) : options -> options := fun o => mkOptions (o_prefix o) v (o_cluster o) (o_group o) (o_kind o).
Definition WithCluster (v : string) : options -> options := fun o => mkOptions (o_prefix o) (o_weight o) v (o_group o) (o_kind o).
Definition WithGroup (v : string) : options -> options := fun o => mkOptions (o_prefix o) (o_weight o) (o_cluster o) v (o_kind o).
Definition WithDefaultKind (v : string) : options -> options := fun o => mkOptions (o_prefix o) (o_weight o) (o_cluster o) (o_group o) v.
Definition New (opts : list (options -> options)) : options :=
  apply_opts opts (mkOptions "/microservices" (f_of_Z 100) "DEFAULT" "DEFAULT_GROUP" "grpc").

(** [vo.RegisterInstanceParam], [vo.DeregisterInstanceParam] and [model.Instance], as
    the source uses them. *)
Record RegisterParam := mkRegister {
  r_Ip : string; r_Port : Z; r_ServiceName : string; r_Weight : float64; r_Enable : bool; r_Healthy : bool; r_Ephemeral : bool;
  r_Metadata : gmap string string; r_ClusterName : string; r_GroupName : string
}.
Record DeregisterParam := mkDeregister {
  d_Ip : string; d_Port : Z; d_ServiceName : string; d_GroupName : string; d_Cluster : string; d_Ephemeral : bool
}.
Record Host_ := mkHost {
  h_InstanceId : string; h_ServiceName : string; h_Ip : string; h_Port : Z; h_Weight : float64; h_Metadata : option (gmap string string)
}.

(** The naming client over its state, and [strconv.ParseFloat(w, 64)]. *)
Class NamingClient (S : Type) := {
  cli_RegisterInstance : RegisterParam -> S -> option error * S;
  cli_DeregisterInstance : DeregisterParam -> S -> option error * S;
  cli_SelectInstances : string -> string -> S -> list Host_ + error;
  ParseFloat : string -> float64 + error
}.

(** [math.Ceil] followed by the conversion to [int]. *)
Definition ceil_int `{Arch} (x : float64) : Z :=
  match x, f_trunc x with
  | S754_finite _ _ _, Some z => f_to_int64 (f_of_Z (if fltb (f_of_Z z) x then z + 1 else z))
  | _, _ => f_to_int64 x
  end.

Section registry.
Context {S : Type} `{NetUrl} `{NamingClient S} `{Arch} (opts : options).

(** The address an endpoint names: scheme, host, port. *)
Definition parse_target (endpoint : string) : (string * string * Z) + error :=
  match url_Parse endpoint with
  | inr err => inr err
  | inl u =>
      match SplitHostPort (chars (Host u)) with
      | inr err => inr err
      | inl (host, port) =>
          match Atoi (text port) with
          | (_, Some err) => inr err
          | (p, None) => inl (Scheme u, text host, p)
          end
      end
  end.

(** [uint64(p)] *)
Definition uint64 (p : Z) : Z := p mod 2 ^ 64.

Definition metadata_of (si : Instance) (scheme : string) : gmap string string :=
  <["version" := inst_Version si]> (<["kind" := scheme]> (default ∅ (inst_Metadata si))).
Definition weight_of (si : Instance) : float64 :=
  match inst_Metadata si ≫= (.!! "weight") with
  | Some w => match ParseFloat w with inl x => x | inr _ => o_weight opts end
  | None => o_weight opts
  end.
Definition service_name (name scheme : string) : string := (name ++ "." ++ scheme)%string.

Definition register_param (si : Instance) (t : string * string * Z) : RegisterParam :=
  let '(scheme, host, p) := t in
  mkRegister host (uint64 p) (service_name (inst_Name si) scheme) (weight_of si) true true true (metadata_of si scheme) (o_cluster opts) (o_group opts).
Definition deregister_param (si : Instance) (t : string * string * Z) : DeregisterParam :=
  let '(scheme, host, p) := t in
  mkDeregister host (uint64 p) (service_name (inst_Name si) scheme) (o_group opts) (o_cluster opts) true.

(** [func (r *Registry) Register]; the text of a refusal is left out of the error. *)
Fixpoint register_loop (si : Instance) (endpoints : list string) (s : S) : option error * S :=
  match endpoints with
  | [] => (None, s)
  | endpoint :: rest =>
      match parse_target endpoint with
      | inr err => (Some err, s)
      | inl t =>
          match cli_RegisterInstance (register_param si t) s with
          | (Some e, s') => (Some (Errorf ("RegisterInstance err " ++ endpoint)%string), s')
          | (None, s') => register_loop si rest s'
          end
      end
  end.
Definition Register (si : Instance) (s : S) : option error * S :=
  if String.eqb (inst_Name si) "" then (Some ErrServiceInstanceNameEmpty, s) else register_loop si (inst_Endpoints si) s.

(** [func (r *Registry) Deregister] *)
Fixpoint deregister_loop (service : Instance) (endpoints : list string) (s : S) : option error * S :=
  match endpoints with
  | [] => (None, s)
  | endpoint :: rest =>
      match parse_target endpoint with
      | inr err => (Some err, s)
      | inl t =>
          match cli_DeregisterInstance (deregister_param service t) s with
          | (Some e, s') => (Some e, s')
          | (None, s') => deregister_loop service rest s'
          end
      end
  end.
Definition Deregister (service : Instance) (s : S) : option error * S := deregister_loop service (inst_Endpoints service) s.

(** [func (r *Registry) GetService]: the assignment to the metadata panics when the
    map is nil. *)
Definition instance_of (h : Host_) : option Instance :=
  md ← h_Metadata h;
  let kind := default (o_kind opts) (md !! "kind") in
  let weight := if fgtb (h_Weight h) f0 then h_Weight h else o_weight opts in
  Some (mkInstance (h_InstanceId h) (h_ServiceName h) (default "" (md !! "version"))
          (Some (<["weight" := Itoa (ceil_int weight)]> md)) [format_endpoint kind (h_Ip h) (h_Port h)]).
Definition GetService (serviceName : string) (s : S) : result (list Instance + error) :=
  match cli_SelectInstances serviceName (o_group opts) s with
  | inr err => Returned (inr err)
  | inl res => match mapM instance_of res with Some items => Returned (inl items) | None => Panicked end
  end.

(** ** What the naming service keeps

    Instances by service, group, cluster, address and port, each with its metadata and
    whether it is [ready]: enabled, healthy and of a positive weight. *)
Definition Key : Type := string * string * string * string * Z.
Record Entry := mkEntry { e_metadata : gmap string string; e_ready : bool }.
Abbreviation Table := (gmap (string * string * string * string * Z) Entry).

Definition register_key (p : RegisterParam) : Key := (r_ServiceName p, r_GroupName p, r_ClusterName p, r_Ip p, r_Port p).
Definition register_entry (p : RegisterParam) : Entry := mkEntry (r_Metadata p) (r_Enable p && r_Healthy p && fgtb (r_Weight p) f0).
Definition deregister_key (p : DeregisterParam) : Key := (d_ServiceName p, d_GroupName p, d_Cluster p, d_Ip p, d_Port p).

(** The service and group of a key, and a table in which one service has lost instances. *)
Definition service_of (k : Key) : string * string := let '(service, group, _, _, _) := k in (service, group).
Definition loses (service : string * string) (m m' : Table) : Prop :=
  forall k, m' !! k = m !! k \/ service_of k = service /\ m' !! k = None.

(** What the SDK documents of the calls that succeed: a registration puts its instance in
    the table, a removal takes its instance out, and neither touches another service (a
    client may keep one instance of a service only, so that others of that service can go).
    A call that fails may have had any effect.  A selection of the healthy instances reads
    [seen], the client's own copy of the table, which follows it, and returns the instances
    of the service and group that are ready. *)
Class NamingLaws := {
  table : S -> Table;
  seen : S -> Table;
  register_law : forall p s s', cli_RegisterInstance p s = (None, s') ->
    exists m, loses (r_ServiceName p, r_GroupName p) (table s) m /\ table s' = <[register_key p := register_entry p]> m;
  deregister_law : forall p s s', cli_DeregisterInstance p s = (None, s') ->
    exists m, loses (d_ServiceName p, d_GroupName p) (table s) m /\ table s' = delete (deregister_key p) m;
  select_law : forall service group s hosts, cli_SelectInstances service group s = inl hosts ->
    forall cluster ip port e, seen s !! (service, group, cluster, ip, port) = Some e -> e_ready e = true ->
      exists h, h ∈ hosts /\ h_Ip h = ip /\ h_Port h = port /\ h_Metadata h = Some (e_metadata e)
}.
Context `{!NamingLaws}.

(** ** Properties *)

Definition key_of (si : Instance) (t : string * string * Z) : Key :=
  let '(scheme, host, p) := t in (service_name (inst_Name si) scheme, o_group opts, o_cluster opts, host, uint64 p).
Definition entry_of (si : Instance) (t : string * string * Z) : Entry := mkEntry (metadata_of si (fst (fst t))) (fgtb (weight_of si) f0).

(** The addresses of the endpoints before the first that does not parse. *)
Fixpoint targets (endpoints : list string) : list (string * string * Z) :=
  match endpoints with
  | [] => []
  | e :: rest => match parse_target e with inl t => t :: targets rest | inr _ => [] end
  end.

(** The services of some addresses of the instance. *)
Definition services (si : Instance) (ts : list (string * string * Z)) : list (string * string) := map (fun t => service_of (key_of si t)) ts.

Lemma string_app_inv (a b c : string) : (a ++ b)%string = (a ++ c)%string -> b = c.
Proof. induction a as [|x a IH]; [done|]. intros H'. injection H' as H'. by apply IH. Qed.

(** Addresses of one service have one scheme. *)
Lemma service_scheme si t t' : service_of (key_of si t) = service_of (key_of si t') -> fst (fst t) = fst (fst t').
Proof.
  destruct t as [[sc h] p], t' as [[sc' h'] p']. intros [= Hn]. simpl.
  apply string_app_inv in Hn. change ("." ++ sc)%string with (String "." sc) in Hn. by injection Hn as ->.
Qed.

Lemma loses_other service m m' k : loses service m m' -> service_of k <> service -> m' !! k = m !! k.
Proof. intros Hl Hk. by destruct (Hl k) as [|[? _]]. Qed.

(** One registration and one removal. *)
Lemma register_one si t s s' :
  cli_RegisterInstance (register_param si t) s = (None, s') ->
  table s' !! key_of si t = Some (entry_of si t) /\ forall k, service_of k <> service_of (key_of si t) -> table s' !! k = table s !! k.
Proof.
  intros (m&Hm&->)%register_law. destruct t as [[scheme host] p]. split; [apply lookup_insert_eq|].
  intros k Hk. rewrite lookup_insert_ne by (intros <-; by apply Hk). by eapply loses_other.
Qed.
Lemma deregister_one si t s s' :
  cli_DeregisterInstance (deregister_param si t) s = (None, s') ->
  table s' !! key_of si t = None /\
  forall k, table s' !! k = table s !! k \/ service_of k = service_of (key_of si t) /\ table s' !! k = None.
Proof.
  intros (m&Hm&->)%deregister_law. destruct t as [[scheme host] p]. split; [apply lookup_delete_eq|].
  intros k. destruct (decide (k = key_of si (scheme, host, p))) as [->|Hne]; [right; split; [done|apply lookup_delete_eq]|].
  rewrite lookup_delete_ne by (intros <-; by apply Hne). apply Hm.
Qed.

(** How far a registration came: [n] addresses were registered, which left [s1]. *)
Definition registered (si : Instance) (eps : list string) (s : S) (n : nat) (s1 : S) : Prop :=
  let ts := take n (targets eps) in
  (n <= length (targets eps))%nat /\
  (forall k, service_of k ∉ services si ts -> table s1 !! k = table s !! k) /\
  (NoDup (map (fun t => fst (fst t)) ts) -> forall t, t ∈ ts -> table s1 !! key_of si t = Some (entry_of si t)).

(** It ended there: with all endpoints registered; at an endpoint that does not parse; or at
    a call of the SDK that failed. *)
Definition ends_register (si : Instance) (eps : list string) (n : nat) (s1 : S) (e : option error) (s' : S) : Prop :=
  match e with
  | None => s' = s1 /\ n = length eps /\ length (targets eps) = length eps
  | Some _ =>
      s' = s1 /\ n = length (targets eps) /\ (n < length eps)%nat \/
      exists t err, targets eps !! n = Some t /\ cli_RegisterInstance (register_param si t) s1 = (Some err, s')
  end.

Lemma register_loop_spec si eps s :
  exists n s1, registered si eps s n s1 /\ ends_register si eps n s1 (fst (register_loop si eps s)) (snd (register_loop si eps s)).
Proof.
  assert (forall eps s, registered si eps s 0 s) as Hnone.
  { intros eps0 s0. split_and!; [lia|done|]. intros _ t Ht. by apply elem_of_nil in Ht. }
  revert s. induction eps as [|e eps IH]; intros s; [by exists 0%nat, s|]. cbn [register_loop].
  destruct (parse_target e) as [t|err] eqn:Ep.
  2: { exists 0%nat, s. split; [apply Hnone|]. left. simpl. rewrite Ep. split_and!; [done|done|lia]. }
  destruct (cli_RegisterInstance (register_param si t) s) as [[err|] s0] eqn:E.
  { exists 0%nat, s. split; [apply Hnone|]. right. exists t, err. simpl. by rewrite Ep. }
  destruct (register_one _ _ _ _ E) as [Hin Hother]. destruct (IH s0) as (n&s1&(Hn&Hrest&Hts)&Hend).
  exists (Datatypes.S n), s1. split.
  - unfold registered. simpl. rewrite Ep. simpl. split_and!; [lia| |].
    + intros k Hk. rewrite not_elem_of_cons in Hk. destruct Hk as [Hk1 Hk2]. rewrite (Hrest k Hk2). by apply Hother.
    + intros [Hnotin Hnd]%NoDup_cons t' [->|Ht']%elem_of_cons; [|by apply Hts].
      rewrite Hrest; [done|]. intros (u&Hu&Hin')%list_elem_of_fmap. apply Hnotin, list_elem_of_fmap.
      exists u. split; [|done]. by apply (service_scheme si).
  - unfold ends_register in *. simpl targets. rewrite Ep. simpl. destruct (fst (register_loop si eps s0)).
    + destruct Hend as [(->&->&?)|(t'&err'&?&?)]; [left; split_and!; [done|done|lia]|right; by exists t', err'].
    + destruct Hend as (->&->&?). by split_and!; [|done|lia].
Qed.

Lemma deregister_loop_spec si eps s :
  fst (deregister_loop si eps s) = None ->
  (forall t, t ∈ targets eps -> table (snd (deregister_loop si eps s)) !! key_of si t = None) /\
  forall k, table (snd (deregister_loop si eps s)) !! k = table s !! k \/
            service_of k ∈ services si (targets eps) /\ table (snd (deregister_loop si eps s)) !! k = None.
Proof.
  revert s. induction eps as [|e eps IH]; intros s; [intros _; split; [intros t Ht; by apply elem_of_nil in Ht|by left]|].
  cbn [deregister_loop targets]. destruct (parse_target e) as [t|err]; [|done].
  destruct (cli_DeregisterInstance (deregister_param si t) s) as [[err|] s0] eqn:E; [done|]. intros Hd.
  destruct (IH s0 Hd) as [Hgone Hrest]. destruct (deregister_one _ _ _ _ E) as [Hout Hother]. split.
  - intros t' [->|Ht']%elem_of_cons; [|by apply Hgone]. destruct (Hrest (key_of si t)) as [->|[_ ?]]; done.
  - intros k. simpl. destruct (Hrest k) as [->|[Hk ->]]; [|right; by rewrite elem_of_cons; auto].
    destruct (Hother k) as [?|[-> ?]]; [by left|right; by rewrite elem_of_cons; auto].
Qed.

Lemma listed hosts h : h ∈ hosts ->
  match mapM instance_of hosts with
  | Some l => exists i, instance_of h = Some i /\ i ∈ l
  | None => exists h', h' ∈ hosts /\ h_Metadata h' = None
  end.
Proof.
  assert (forall h, instance_of h = None -> h_Metadata h = None) as Hnone by (intros h0; unfold instance_of; by destruct (h_Metadata h0)).
  intros Hh. destruct (mapM instance_of hosts) as [l|] eqn:El.
  - apply mapM_Some in El. apply list_elem_of_lookup in Hh as [n Hn]. eapply Forall2_lookup_l in El as (i&Hi&Hhi); [|exact Hn].
    exists i. split; [done|]. by eapply list_elem_of_lookup_2.
  - apply mapM_None_1, Exists_exists in El as (h'&Hin&Hn). exists h'. split; [done|]. by apply Hnone.
Qed.

(** C27: the Nacos registry keeps a service's addresses.  [Register] registers the addresses
    of the endpoints in order and stops at the first that does not parse or whose call
    fails; it touches no other service, and returns no error exactly when it came to the
    end.  Then, if the endpoints have different schemes and the weight is positive, each
    endpoint is listed by [GetService] of the name with the scheme appended, as soon as the
    client has seen the registration and its request succeeds: with the version, and with
    the endpoint as scheme, address and port (a host without metadata among the results
    makes [GetService] panic).  A [Deregister] that succeeds, in any state, removes all of
    these addresses, puts nothing in the table and touches no other service. *)
Theorem nacos_registry si s :
  inst_Name si <> "" ->
  let eps := inst_Endpoints si in
  let '(e, s') := Register si s in
  (exists n s1, registered si eps s n s1 /\ ends_register si eps n s1 e s') /\
  (e = None -> NoDup (map (fun t => fst (fst t)) (targets eps)) -> fgtb (weight_of si) f0 = true ->
    forall scheme host p s2 hosts, (scheme, host, p) ∈ targets eps ->
      let k := key_of si (scheme, host, p) in
      seen s2 !! k = table s' !! k ->
      cli_SelectInstances (service_name (inst_Name si) scheme) (o_group opts) s2 = inl hosts ->
      match GetService (service_name (inst_Name si) scheme) s2 with
      | Returned (inl l) => exists i, i ∈ l /\ inst_Version i = inst_Version si /\ inst_Endpoints i = [format_endpoint scheme host (uint64 p)]
      | Returned (inr _) => False
      | Panicked => exists h, h ∈ hosts /\ h_Metadata h = None
      end) /\
  (forall s3 s'', Deregister si s3 = (None, s'') ->
    (forall t, t ∈ targets eps -> table s'' !! key_of si t = None) /\
    forall k, table s'' !! k = table s3 !! k \/ service_of k ∈ services si (targets eps) /\ table s'' !! k = None).
Proof.
  intros Hname eps. unfold Register. apply String.eqb_neq in Hname. rewrite Hname. fold eps.
  destruct (register_loop_spec si eps s) as (n&s1&Hreg&Hend).
  destruct (register_loop si eps s) as [e s'] eqn:E. cbn [fst snd] in Hend. split; [by exists n, s1|]. split.
  - intros -> Hnd Hw scheme host p s2 hosts Hin Hk Hsel. destruct Hend as (->&->&Hlen). destruct Hreg as (_&_&Hall).
    rewrite take_ge in Hall by lia. specialize (Hall Hnd _ Hin). rewrite Hall in Hk.
    destruct (select_law _ _ _ _ Hsel _ _ _ _ Hk Hw) as (h&Hh&Hip&Hport&Hm).
    unfold GetService. rewrite Hsel. pose proof (listed hosts h Hh) as Hl. destruct (mapM instance_of hosts) as [l|]; [|done].
    destruct Hl as (i&Hi&Hil). exists i. split; [done|].
    unfold instance_of in Hi. rewrite Hm in Hi. injection Hi as <-. cbn [inst_Version inst_Endpoints entry_of e_metadata fst].
    unfold metadata_of. rewrite Hip, Hport. split; by repeat (rewrite lookup_insert_eq || rewrite lookup_insert_ne by done).
  - intros s3 s'' Hd. pose proof (deregister_loop_spec si eps s3) as Hspec. unfold Deregister in Hd. fold eps in Hd. rewrite Hd in Hspec.
    by apply Hspec.
Qed.

End registry.

(** ** [watcher.go]

    [token] is the channel [watchChan] of capacity 1; the naming client calls the
    callback after each change while the subscription lasts.  [Next] is two steps:
    the select, and the request to the naming client with its loop. *)
Record watcher := mkWatcher {
  token : bool;
  cancelled : option error;
  subscribed : bool;
  reading : bool;
  hosts : list Host_;
  returned : list (list Instance + error)
}.

Section watcher.
Context (opts : options) (serviceName : string).

(** The callback, and the line after [Subscribe]: a token if there is none. *)
Definition notify (w : watcher) : watcher :=
  mkWatcher true (cancelled w) (subscribed w) (reading w) (hosts w) (returned w).

(** [func newWatcher]: the watcher is returned with the error too. *)
Definition newWatcher (err : option error) (now : list Host_) : option error * watcher :=
  (err, notify (mkWatcher false None (match err with None => true | Some _ => false end) false now [])).

Definition watch_instance (resName : string) (h : Host_) : Instance :=
  let md := default ∅ (h_Metadata h) in
  mkInstance (h_InstanceId h) resName (default "" (md !! "version")) (h_Metadata h)
    [format_endpoint (default (o_kind opts) (md !! "kind")) (h_Ip h) (h_Port h)].

(** [func (w *watcher) Next] *)
Definition Next_select (prefer_done : bool) (w : watcher) : option watcher :=
  if reading w then None
  else
    match cancelled w with
    | Some err =>
        if prefer_done || negb (token w)
        then Some (mkWatcher (token w) (cancelled w) (subscribed w) false (hosts w) (returned w ++ [inr err]))
        else Some (mkWatcher false (cancelled w) (subscribed w) true (hosts w) (returned w))
    | None => if token w then Some (mkWatcher false (cancelled w) (subscribed w) true (hosts w) (returned w)) else None
    end.
Definition Next_read (err : option error) (w : watcher) : option watcher :=
  if reading w then
    Some (mkWatcher (token w) (cancelled w) (subscribed w) false (hosts w)
      (returned w ++ [match err with Some e => inr e | None => inl (map (watch_instance serviceName) (hosts w)) end]))
  else None.

(** The context of the watcher ends, by its parent or by [Stop]; the first reason
    stays. *)
Definition context_done (err : error) (w : watcher) : watcher :=
  mkWatcher (token w) (Some (default err (cancelled w))) (subscribed w) (reading w) (hosts w) (returned w).

(** [func (w *watcher) Stop] *)
Definition Stop (err : option error) (w : watcher) : option error * watcher :=
  (err, mkWatcher (token w) (Some (default Canceled (cancelled w))) (match err with None => false | Some _ => subscribed w end) (reading w) (hosts w) (returned w)).

(** The service changes; the callback follows. *)
Definition service_changed (now : list Host_) (w : watcher) : watcher :=
  let w := mkWatcher (token w) (cancelled w) (subscribed w) (reading w) now (returned w) in
  if subscribed w then notify w else w.

Inductive event :=
| EChanged (now : list Host_) | ESelect (prefer_done : bool) | ERead (err : option error) | EStop (err : option error)
| EDone (err : error).
Definition step (e : event) (w : watcher) : option watcher :=
  match e with
  | EChanged now => Some (service_changed now w)
  | ESelect b => Next_select b w
  | ERead err => Next_read err w
  | EStop err => Some (snd (Stop err w))
  | EDone err => Some (context_done err w)
  end.
Fixpoint run (es : list event) (w : watcher) : option watcher :=
  match es with
  | [] => Some w
  | e :: es' => w' ← step e w; run es' w'
  end.

(** The last result is the service's instances as they are. *)
Definition current (w : watcher) : Prop :=
  last (returned w) = Some (inl (map (watch_instance serviceName) (hosts w))).
Definition failed (w : watcher) : Prop := exists err, last (returned w) = Some (inr err).

Lemma watch_step e w w' :
  (cancelled w = None -> subscribed w = true -> token w = true \/ reading w = true \/ current w \/ failed w) ->
  step e w = Some w' -> cancelled w' = None -> subscribed w' = true -> token w' = true \/ reading w' = true \/ current w' \/ failed w'.
Proof.
  intros Hinv. destruct e as [now|b|err|err|err]; simpl.
  - intros [= <-]. unfold service_changed. simpl. destruct (subscribed w) eqn:Es; simpl; [auto|congruence].
  - unfold Next_select. destruct (reading w); [done|].
    destruct (cancelled w) eqn:Ec; [destruct (b || negb (token w)); intros [= <-]; simpl; congruence|].
    destruct (token w); intros [= <-]; simpl; auto.
  - unfold Next_read. destruct (reading w); [|done]. intros [= <-] _ _. right. right. unfold current, failed. simpl.
    rewrite !last_snoc. destruct err; [right; eauto|by left].
  - by intros [= <-].
  - by intros [= <-].
Qed.

(** No change is missed: while the watcher is subscribed and not stopped, either
    a call of [Next] will return at once, or one is reading the service, or the last
    call returned the instances as they are now, or it returned an error. *)
Theorem nacos_watch es now w :
  run es (snd (newWatcher None now)) = Some w -> cancelled w = None -> subscribed w = true ->
  token w = true \/ reading w = true \/ current w \/ failed w.
Proof.
  assert (forall w0, (cancelled w0 = None -> subscribed w0 = true -> token w0 = true \/ reading w0 = true \/ current w0 \/ failed w0) ->
    run es w0 = Some w -> cancelled w = None -> subscribed w = true -> token w = true \/ reading w = true \/ current w \/ failed w) as Hrun.
  { induction es as [|e es IH]; intros w0 Hw0; simpl; [by intros [= <-]|].
    destruct (step e w0) as [w1|] eqn:E; simpl; [|done]. apply IH. by apply (watch_step e w0). }
  apply Hrun. simpl. auto.
Qed.
End watcher.

(** A request that fails takes the token with it: the change is not reported again. *)
Example nacos_watch_error_loses (h : Host_) (err : error) :
  exists w, run (mkOptions "" f0 "" "" "") "shop" [ESelect false; ERead None; EChanged [h]; ESelect false; ERead (Some err)]
    (snd (newWatcher None [])) = Some w /\ hosts w = [h] /\ Next_select false w = None.
Proof. eexists. split; [reflexivity|]. done. Qed.
End Nacos.


(** A concrete JSON of two maps and a concrete [url.Parse] for the witnesses. *)
Module Sample.
#[local] Instance url : NetUrl := {|
  url_Parse s := match cut ":" s with
                 | Some (a, String "/" (String "/" b)) => inl (mkURL a b)
                 | _ => inr (Errorf "parse")
                 end
|}.

Lemma plain_lacks s : forallb is_lower (chars s) = true -> lacks ":" s = true.
Proof.
  induction s as [|c s IH]; [done|]. simpl. intros [Hc Hs]%andb_true_iff. rewrite (IH Hs), andb_true_r.
  destruct (Ascii.eqb_spec c ":") as [->|]; [done|done].
Qed.

#[local] Instance url_laws : UrlLaws.
Proof.
  constructor. intros scheme host port [_ Hs] _ _. unfold format_endpoint. cbn [url_Parse url].
  change (scheme ++ "://" ++ host ++ ":" ++ Itoa port)%string with (scheme ++ String ":" ("//" ++ host ++ ":" ++ Itoa port))%string.
  by rewrite (cut_app ":" scheme _ (plain_lacks scheme Hs)).
Qed.

Definition ports : gmap string string := {["80" := "http"]}.
Definition zone : gmap string string := {["zone" := "a"]}.

#[local] Instance json : Kubernetes.Json := {|
  Kubernetes.json_Marshal m :=
    match m with
    | None => inl "null"
    | Some m => if decide (m = ∅) then inl "{}" else if decide (m = ports) then inl "{80}" else if decide (m = zone) then inl "{zone}"
                else inr (Errorf "encode")
    end;
  Kubernetes.json_Unmarshal s :=
    if String.eqb s "{80}" then inl ports else if String.eqb s "{zone}" then inl zone else inr (Errorf "decode")
|}.
#[local] Instance json_laws : Kubernetes.JsonLaws.
Proof.
  refine {| Kubernetes.encodable m := m = ports \/ m = zone |}; [done|done|].
  intros m [->| ->] _; [exists "80}"|exists "zone}"]; done.
Defined.

Definition svc : Instance := mkInstance "id-1" "shop" "v1" (Some zone) ["http://shop.local:80"].
Definition pod : Kubernetes.Pod :=
  Kubernetes.mkPod "ns" "pod-1" ∅ ∅ "Running" "10.0.0.7" [[Kubernetes.mkContainerPort "web" 80 "TCP"]].
Definition api : gmap (string * string) Kubernetes.Pod := {[("ns", "pod-1") := pod]}.

Definition labelled : Kubernetes.Pod := Kubernetes.patched svc "{zone}" "{80}" pod.

Lemma kubernetes_round_trip_witness :
  exists api', Kubernetes.Register ("ns", "pod-1") svc None api = (None, api') /\
  exists l, Kubernetes.GetService api' "shop" = inl l /\
    mkInstance "id-1" "shop" "v1" (Some zone) ["http://10.0.0.7:80"] ∈ l.
Proof.
  destruct (Kubernetes.kubernetes_round_trip ("ns", "pod-1") svc [Kubernetes.mkTarget "http" "shop.local" 80] api pod)
    as (api'&Hr&Hg&_).
  - reflexivity.
  - reflexivity.
  - reflexivity.
  - repeat constructor; done.
  - repeat constructor. by intros ?%elem_of_nil.
  - reflexivity.
  - by right; right.
  - by right; left.
  - exists api'. split; [done|]. destruct (Hg api' eq_refl) as (l&Hl&Hin); [|by exists l].
    intros k p Hk Hp. exfalso. assert (Kubernetes.Register ("ns", "pod-1") svc None api = (None, {[("ns", "pod-1") := labelled]})) as E by (vm_compute; reflexivity).
    rewrite E in Hr. injection Hr as <-.
    apply lookup_singleton_Some in Hp as [Hk' _]. by apply Hk.
Defined.

(** The pod appears after the watch began; its announcement is taken by [Next]. *)
Definition watch_events : list Kubernetes.event :=
  [Kubernetes.EHandle; Kubernetes.EChange ("ns", "pod-1") (Some labelled) false; Kubernetes.EHandle; Kubernetes.ENext false].

Lemma kubernetes_watch_witness :
  exists w, Kubernetes.run "shop" watch_events (Kubernetes.Watch api false) = Some w /\
    Kubernetes.GetService (Kubernetes.w_cache w) "shop" = inl (default [] (last (Kubernetes.announced w))) /\
    Kubernetes.delivered w = [[mkInstance "id-1" "shop" "v1" (Some zone) ["http://10.0.0.7:80"]]].
Proof.
  destruct (Kubernetes.run "shop" watch_events (Kubernetes.Watch api false)) as [w|] eqn:E; [|by vm_compute in E].
  exists w. split; [done|].
  destruct (Kubernetes.kubernetes_watch "shop" watch_events api w E) as (_&_&H). vm_compute in E. injection E as <-.
  split; [apply H; done|reflexivity].
Defined.

(** One pod whose annotation does not decode makes the handler of a watch panic, as
    does a tombstone. *)
Definition broken : Kubernetes.Pod :=
  Kubernetes.mkPod "ns" "pod-2" {[Kubernetes.LabelsKeyServiceName := "shop"]} {[Kubernetes.AnnotationsKeyMetadata := "oops"]} "Running" "10.0.0.8" [].
Example kubernetes_watch_panics :
  Kubernetes.panicked <$> Kubernetes.run "shop" [Kubernetes.EHandle] (Kubernetes.Watch {[("ns", "pod-2") := broken]} false) = Some true /\
  Kubernetes.panicked <$> Kubernetes.run "shop" [Kubernetes.EHandle; Kubernetes.EChange ("ns", "pod-1") None true; Kubernetes.EHandle]
    (Kubernetes.Watch api false) = Some true.
Proof. split; vm_compute; reflexivity. Qed.

(** A handler that waits to announce is not released by [Stop] or [Close]. *)
Example kubernetes_handler_stays :
  let twice := [Kubernetes.EHandle; Kubernetes.EChange ("ns", "pod-1") (Some labelled) false; Kubernetes.EHandle;
    Kubernetes.EChange ("ns", "pod-1") (Some labelled) false; Kubernetes.EHandle; Kubernetes.EStop; Kubernetes.EClose] in
  (fun w => bool_decide (Kubernetes.sending w = None)) <$> Kubernetes.run "shop" twice (Kubernetes.Watch api false) = Some false.
Proof. vm_compute. reflexivity. Qed.

(** A naming service that is its table, seen at once. *)
Definition host_of (e : Nacos.Key * Nacos.Entry) : Nacos.Host_ :=
  let '((service, group, cluster, ip, port), en) := e in
  Nacos.mkHost "" service ip port f1 (Some (Nacos.e_metadata en)).
Definition ready_in (service group : string) (e : Nacos.Key * Nacos.Entry) : Prop :=
  Nacos.service_of (fst e) = (service, group) /\ Nacos.e_ready (snd e) = true.
#[local] Instance ready_in_dec service group e : Decision (ready_in service group e).
Proof. unfold ready_in. apply _. Defined.

#[local] Instance naming : Nacos.NamingClient (gmap (string * string * string * string * Z) Nacos.Entry) := {|
  Nacos.cli_RegisterInstance p s := (None, <[Nacos.register_key p := Nacos.register_entry p]> s);
  Nacos.cli_DeregisterInstance p s := (None, delete (Nacos.deregister_key p) s);
  Nacos.cli_SelectInstances service group s := inl (map host_of (map_to_list (filter (ready_in service group) s)));
  Nacos.ParseFloat _ := inl f1
|}.
#[local] Instance naming_laws : Nacos.NamingLaws.
Proof.
  refine {| Nacos.table s := s; Nacos.seen s := s |}.
  - intros p s s' [= <-]. exists s. split; [by left|done].
  - intros p s s' [= <-]. exists s. split; [by left|done].
  - intros service group s hosts [= <-] cluster ip port e He Hr. exists (host_of ((service, group, cluster, ip, port), e)). split; [|done].
    apply list_elem_of_fmap. exists ((service, group, cluster, ip, port), e). split; [done|].
    by apply elem_of_map_to_list, map_lookup_filter_Some.
Defined.

Lemma nacos_registry_witness :
  let o := Nacos.New [] in
  exists s' s'', Nacos.Register (H := url) o svc ∅ = (None, s') /\ Nacos.Deregister o svc s' = (None, s'') /\
    Nacos.targets (inst_Endpoints svc) = [("http", "shop.local", 80)] /\
    s' !! Nacos.key_of o svc ("http", "shop.local", 80) <> None /\ s'' !! Nacos.key_of o svc ("http", "shop.local", 80) = None /\
    exists l i, Nacos.GetService (H1 := amd64) o "shop.http" s' = Returned (inl l) /\ i ∈ l /\ inst_Endpoints i = ["http://shop.local:80"].
Proof.
  intros o. pose proof (@Nacos.nacos_registry _ _ _ amd64 o _ svc ∅) as H.
  destruct (Nacos.Register o svc ∅) as [e s'] eqn:E.
  assert (e = None) as -> by (change e with (fst (e, s')); rewrite <-E; vm_compute; reflexivity).
  assert (Nacos.targets (inst_Endpoints svc) = [("http", "shop.local", 80)]) as Hts by (vm_compute; reflexivity).
  destruct H as (_&Hl&Hd); [done|].
  specialize (Hl eq_refl ltac:(rewrite Hts; apply NoDup_singleton) ltac:(vm_compute; reflexivity) "http" "shop.local" 80 s'
    (map host_of (map_to_list (filter (ready_in "shop.http" "DEFAULT_GROUP") s'))) ltac:(rewrite Hts; by left) eq_refl eq_refl).
  rewrite Hts in *. exists s', (snd (Nacos.Deregister o svc s')). split_and!; [done|done|done| | |].
  - change s' with (snd (None : option error, s')). rewrite <-E. by vm_compute.
  - apply (Hd s' _ eq_refl). by left.
  - change (Nacos.service_name (inst_Name svc) "http") with "shop.http" in Hl.
    assert (exists l, Nacos.GetService (H1 := amd64) o "shop.http" s' = Returned (inl l)) as (l&El).
    { change s' with (snd (None : option error, s')). rewrite <-E. eexists. vm_compute. reflexivity. }
    rewrite El in Hl. destruct Hl as (i&Hi&_&He). by exists l, i.
Defined.

Definition a_host : Nacos.Host_ := Nacos.mkHost "i" "shop.http" "10.0.0.7" 80 f1 (Some {["kind" := "http"]}).

Lemma nacos_watch_witness :
  exists w, Nacos.run (Nacos.New []) "shop.http"
    [Nacos.ESelect false; Nacos.EChanged [a_host]; Nacos.ERead None; Nacos.ESelect false; Nacos.ERead None]
    (snd (Nacos.newWatcher None [])) = Some w /\ Nacos.token w = false /\
  (Nacos.token w = true \/ Nacos.reading w = true \/ Nacos.current (Nacos.New []) "shop.http" w \/ Nacos.failed w).
Proof.
  eexists. split; [reflexivity|]. split; [reflexivity|].
  eapply (Nacos.nacos_watch (Nacos.New []) "shop.http"
    [Nacos.ESelect false; Nacos.EChanged [a_host]; Nacos.ERead None; Nacos.ESelect false; Nacos.ERead None] []); reflexivity.
Defined.
End Sample.
