(* ===== verification/Kafka.v ===== *)
(** [broker/kafka]: publishing ([kafka.go], [writer.go]), the subscriber's loops
    ([subscriber.go], [publication.go], [utils.go]) and the header carrier
    ([message.go]).

    kafka-go's writers and readers are outside the sources: the results of their
    calls are consumed from an environment, and the calls are recorded. *)
From Stdlib Require Import ZArith Lia Ascii.
From S2P Require Import Prelude GoTime GoErrors NetPacket Encoding Broker BrokerCodec.
From stdpp Require Import base gmap strings list fin_maps.
Open Scope string_scope.
Open Scope list_scope.
Open Scope Z_scope.

(** * Messages and headers *)

(** [kafkaGo.Header] and [kafkaGo.Message]. *)
Record KHeader := mkKHeader { h_Key : string; h_Value : bytes }.
Record KMessage := mkKMessage {
  k_Topic : string;
  k_Value : bytes;
  k_Key : bytes;
  k_Offset : Z;
  k_Partition : Z;
  k_Headers : list KHeader
}.

(** [func kafkaHeaderToMap(h []kafkaGo.Header) broker.Headers] *)
Definition kafkaHeaderToMap (h : list KHeader) : Headers :=
  fold_left (fun m v => <[h_Key v := String.string_of_list_ascii (h_Value v)]> m) h ∅.

(** [type MessageCarrier struct]: [Get], [Set] and [Keys] on the headers. *)
Definition carrier_Get (key : string) (hs : list KHeader) : string :=
  match list_find (fun h => h_Key h = key) hs with
  | Some (_, h) => String.string_of_list_ascii (h_Value h)
  | None => ""
  end.
Definition carrier_Set (key val : string) (hs : list KHeader) : list KHeader :=
  filter (fun h => h_Key h <> key) hs ++ [mkKHeader key (String.list_ascii_of_string val)].
Definition carrier_Keys (hs : list KHeader) : list string := map h_Key hs.

(** * Publishing *)

(** [type Writer struct]; kafka-go writers are numbered in the order they are
    created.  A nil map is [None]. *)
Record Writer := mkWriter {
  w_Writer : option nat;
  w_Writers : option (gmap string nat);
  EnableOneTopicOneWriter : bool
}.

Definition NewWriter (enable : bool) : Writer := mkWriter None (Some ∅) enable.

(** The environment: results of the coming [WriteMessages] and [Close] calls (nil
    when the list is exhausted), the messages writers accepted, the writers
    closed, the writers created, and the number of [WriteMessages] calls. *)
Record Env := mkEnv {
  write_results : list (option error);
  close_results : list (option error);
  accepted : list (nat * KMessage);
  closed : list nat;
  created : nat;
  writes : nat
}.

Section publish.
Context {T : Type} (gob_Encode : value T -> bytes + error).
(** [errors.As(err, &kerr)] with [kerr.Temporary() && !kerr.Timeout()] *)
Context (temporary : error -> bool).

(** The fields of [kafkaBroker] publishing uses. *)
Record kafkaBroker := mkBroker {
  b_writer : option Writer;
  connected : bool;
  Addrs : list string;
  b_Codec : option (Codec (value T));
  retriesCount : Z;
  locked : bool
}.

Definition St : Type := kafkaBroker * Env.

Definition set_writer (w : option Writer) (b : kafkaBroker) : kafkaBroker :=
  mkBroker w (connected b) (Addrs b) (b_Codec b) (retriesCount b) (locked b).

(** kafka-go *)
Definition WriteMessages (wr : nat) (m : KMessage) : Go St (option error) := fun '(b, e) =>
  let r := default None (head (write_results e)) in
  (Returned r,
   (b, mkEnv (tail (write_results e)) (close_results e)
         (match r with None => accepted e ++ [(wr, m)] | Some _ => accepted e end) (closed e) (created e) (S (writes e)))).

Definition writer_Close (wr : nat) : Go St (option error) := fun '(b, e) =>
  (Returned (default None (head (close_results e))),
   (b, mkEnv (write_results e) (tail (close_results e)) (accepted e) (closed e ++ [wr]) (created e) (writes e))).

(** [func (w *Writer) CreateProducer] *)
Definition CreateProducer : Go St nat := fun '(b, e) =>
  (Returned (created e), (b, mkEnv (write_results e) (close_results e) (accepted e) (closed e) (S (created e)) (writes e))).

(** [b.Lock()] and [b.Unlock()], the calls being made one after the other: taking
    a lock that an earlier call left held does not return, which has the same
    outcome here as a panic. *)
Definition Lock : Go St unit := fun '(b, e) =>
  if locked b then (Panicked, (b, e))
  else (Returned tt, (mkBroker (b_writer b) (connected b) (Addrs b) (b_Codec b) (retriesCount b) true, e)).
Definition Unlock : Go St unit := fun '(b, e) =>
  (Returned tt, (mkBroker (b_writer b) (connected b) (Addrs b) (b_Codec b) (retriesCount b) false, e)).

(** Reading [b.writer], a nil pointer being a panic. *)
Definition get_writer : Go St Writer := fun '(b, e) =>
  match b_writer b with
  | Some w => (Returned w, (b, e))
  | None => (Panicked, (b, e))
  end.
Definition put_writer (w : Writer) : Go St unit := fun '(b, e) => (Returned tt, (set_writer (Some w) b, e)).

(** [b.writer.Writers[topic] = writer]: a nil map panics. *)
Definition store_writer (topic : string) (wr : nat) : Go St unit :=
  w ← get_writer;
  match w_Writers w with
  | None => go_panic
  | Some ws => put_writer (mkWriter (w_Writer w) (Some (<[topic := wr]> ws)) (EnableOneTopicOneWriter w))
  end.

(** The message for kafka-go, the headers in the order of [range]. *)
Definition kMsg_of (topic : string) (msg : Message (A := gv T)) (buf : bytes) : KMessage :=
  mkKMessage topic buf (String.list_ascii_of_string (Key msg)) (Offset msg) (Partition msg)
    (map (fun '(k, v) => mkKHeader k (String.list_ascii_of_string v)) (map_to_list (default ∅ (msg_Headers msg)))).

(** [for i := 0; i < b.retriesCount; i++ { ... }]: [store] files the writer that
    succeeded. *)
Fixpoint retry_writes (n : nat) (wr : nat) (m : KMessage) (store : Go St unit) (err : option error) : Go St (option error) :=
  match n with
  | O => mret err
  | S n' =>
      r ← WriteMessages wr m;
      match r with
      | None => Lock ;; store ;; Unlock ;; mret None
      | Some _ => retry_writes n' wr m store r
      end
  end.

(** What both publish functions do with the writer they found or made. *)
Definition write_or_retry (cached : bool) (wr : nat) (m : KMessage) (forget store_new : nat -> Go St unit) : Go St (option error) :=
  err ← WriteMessages wr m;
  match err with
  | None => mret None
  | Some e =>
      if cached then
        Lock ;;
        cerr ← writer_Close wr;
        match cerr with
        | Some _ => Unlock ;; mret cerr
        | None =>
            forget wr ;; Unlock ;;
            wr' ← CreateProducer;
            s ← go_get;
            r ← retry_writes (Z.to_nat (retriesCount (fst s))) wr' m (store_new wr') None;
            match r with
            | None => mret None
            | Some _ => writer_Close wr' ;; mret r
            end
        end
      else if temporary e then WriteMessages wr m
      else mret err
  end.

(** [func (b *kafkaBroker) publishMultipleWriter], without a tracer: with one,
    [startProducerSpan] adds its headers to the message before the first write
    ([BrokerTracing.kafka_startProducerSpan]). *)
Definition publishMultipleWriter (topic : string) (msg : Message (A := gv T)) (buf : bytes) : Go St (option error) :=
  s ← go_get;
  match b_writer (fst s) with
  | None => mret (Some (Errorf "kafka writer not initialized"))
  | Some _ =>
      Lock ;;
      w ← get_writer;
      wc ← match default ∅ (w_Writers w) !! topic with
           | Some wr => mret (wr, true)
           | None => wr ← CreateProducer; store_writer topic wr ;; mret (wr, false)
           end;
      Unlock ;;
      write_or_retry (snd wc) (fst wc) (kMsg_of topic msg buf)
        (fun _ => w ← get_writer;
                  put_writer (mkWriter (w_Writer w) (delete topic <$> w_Writers w) (EnableOneTopicOneWriter w)))
        (store_writer topic)
  end.

(** [func (b *kafkaBroker) publishOneWriter], likewise. *)
Definition publishOneWriter (topic : string) (msg : Message (A := gv T)) (buf : bytes) : Go St (option error) :=
  s ← go_get;
  match b_writer (fst s) with
  | None => mret (Some (Errorf "kafka writer not initialized"))
  | Some _ =>
      Lock ;;
      w ← get_writer;
      wc ← match w_Writer w with
           | Some wr => mret (wr, true)
           | None => wr ← CreateProducer;
                     put_writer (mkWriter (Some wr) (w_Writers w) (EnableOneTopicOneWriter w)) ;; mret (wr, false)
           end;
      Unlock ;;
      write_or_retry (snd wc) (fst wc) (kMsg_of topic msg buf)
        (fun _ => w ← get_writer; put_writer (mkWriter None (w_Writers w) (EnableOneTopicOneWriter w)))
        (fun wr => w ← get_writer; put_writer (mkWriter (Some wr) (w_Writers w) (EnableOneTopicOneWriter w)))
  end.

(** [func (b *kafkaBroker) internalPublish]: [msg.Clone()] shares nothing that
    matters here; the clone's body is the encoded one. *)
Definition internalPublish (topic : string) (msg : Message (A := gv T)) : Go St (option error) :=
  s ← go_get;
  match Marshal gob_Encode (b_Codec (fst s)) (Body msg) with
  | inr err => mret (Some err)
  | inl buf =>
      w ← get_writer;
      if EnableOneTopicOneWriter w then publishMultipleWriter topic (Clone msg) buf
      else publishOneWriter topic (Clone msg) buf
  end.

(** [func (b *kafkaBroker) Publish] *)
Definition Publish (mws : list (option ((string -> Message (A := gv T) -> Go St (option error)) ->
                                        (string -> Message (A := gv T) -> Go St (option error)))))
    (topic : string) (msg : Message (A := gv T)) : Go St (option error) :=
  (if (0 <? length mws)%nat then ChainPublishMiddleware internalPublish mws else internalPublish) topic msg.

(** [func (b *kafkaBroker) Connect() error] *)
Definition Connect : Go St (option error) := fun '(b, e) =>
  if locked b then (Panicked, (b, e))
  else if connected b then (Returned None, (b, e))
  else if (length (Addrs b) =? 0)%nat then (Returned (Some (Errorf "no available brokers")), (b, e))
  else (Returned None, (mkBroker (b_writer b) true (Addrs b) (b_Codec b) (retriesCount b) (locked b), e)).

(** [func (w *Writer) Close()], which leaves a nil map. *)
Definition Writer_Close (w : Writer) : Writer := mkWriter None None (EnableOneTopicOneWriter w).

(** [func (b *kafkaBroker) Disconnect() error], the writers' part; the subscriber
    map is [Broker]'s. *)
Definition Disconnect : Go St (option error) := fun '(b, e) =>
  if locked b then (Panicked, (b, e))
  else if negb (connected b) then (Returned None, (b, e))
  else
    (Returned None,
     (mkBroker (Writer_Close <$> b_writer b) false (Addrs b) (b_Codec b) (retriesCount b) (locked b),
      match b_writer b with
      | None => e
      | Some w =>
          mkEnv (write_results e) (close_results e) (accepted e)
            (closed e ++ option_list (w_Writer w) ++ map snd (map_to_list (default ∅ (w_Writers w)))) (created e) (writes e)
      end)).
End publish.
Arguments kafkaBroker : clear implicits.
Arguments St : clear implicits.

(** * Properties of publishing *)

Section publish_facts.
Context {T : Type} (gob_Encode : value T -> bytes + error) (temporary : error -> bool).
Implicit Types (b : kafkaBroker T) (e : Env).

(** The broker is initialised, not disconnected. *)
Definition ready b : Prop := exists w ws, b_writer b = Some w /\ w_Writers w = Some ws.

(** An action on the broker's writers, under the lock. *)
Definition updates (p : Go (St T) unit) : Prop :=
  forall b e, ready b -> exists b', p (b, e) = (Returned tt, (b', e)) /\ ready b' /\ locked b' = locked b /\ retriesCount b' = retriesCount b.

(** The message was accepted once, or the call failed and it was not. *)
Definition published (m : KMessage) e e' (r : option error) : Prop :=
  match r with
  | None => exists wr, accepted e' = accepted e ++ [(wr, m)]
  | Some _ => accepted e' = accepted e
  end.

Definition outcome (m : KMessage) (n : nat) e (res : result (option error) * St T) : Prop :=
  exists r b' e', res = (Returned r, (b', e')) /\ ready b' /\ locked b' = false /\ published m e e' r /\
    (writes e' <= writes e + n)%nat.

Lemma updates_put (f : Writer -> Writer) :
  (forall w ws, w_Writers w = Some ws -> is_Some (w_Writers (f w))) ->
  updates (w ← get_writer; put_writer (f w)).
Proof.
  intros Hf b e (w&ws&Hb&Hw). destruct (Hf w ws Hw) as [ws' Hws'].
  exists (set_writer (Some (f w)) b). unfold mbind, Go_bind, get_writer. rewrite Hb. repeat split. by exists (f w), ws'.
Qed.

Lemma updates_store topic wr : updates (store_writer topic wr).
Proof.
  intros b e (w&ws&Hb&Hw). eexists. unfold store_writer, mbind, Go_bind, get_writer. rewrite Hb. cbn. rewrite Hw. cbn.
  split; [done|]. repeat split. by do 2 eexists.
Qed.

Lemma ready_lock b l :
  ready b -> ready (mkBroker (b_writer b) (connected b) (Addrs b) (b_Codec b) (retriesCount b) l).
Proof. by intros (w&ws&?&?); exists w, ws. Qed.

(** An update between [Lock] and [Unlock]. *)
Lemma locked_update {A} (p : Go (St T) unit) (k : Go (St T) A) b e :
  updates p -> ready b -> locked b = false ->
  exists b', (Lock ;; p ;; Unlock ;; k) (b, e) = k (b', e) /\ ready b' /\ locked b' = false /\ retriesCount b' = retriesCount b.
Proof.
  intros Hp Hb Hl. destruct (Hp _ e (ready_lock b true Hb)) as (b1&E1&Hb1&Hl1&Hr1).
  exists (mkBroker (b_writer b1) (connected b1) (Addrs b1) (b_Codec b1) (retriesCount b1) false).
  split; [|split; [by apply ready_lock|done]].
  unfold mbind at 1, Go_bind at 1. cbn [Lock]. rewrite Hl. unfold mbind at 1, Go_bind at 1. rewrite E1. done.
Qed.

Lemma retry_writes_spec n wr m store err b e :
  updates store -> ready b -> locked b = false ->
  (n = O -> err <> None) -> outcome m n e (retry_writes n wr m store err (b, e)).
Proof.
  revert err b e. induction n as [|n IH]; intros err b e Hs Hb Hl Hn.
  - destruct err as [er|]; [|by destruct Hn]. exists (Some er), b, e. split_and!; auto; [done|lia].
  - cbn [retry_writes]. unfold mbind at 1, Go_bind at 1. cbn [WriteMessages].
    destruct (default None (head (write_results e))) as [er|] eqn:Er.
    + set (e1 := mkEnv _ _ _ _ _ _). destruct (IH (Some er) b e1 Hs Hb Hl ltac:(done)) as (r&b'&e'&E&Hb'&Hl'&Hp&Hw).
      exists r, b', e'. split_and!; auto. cbn in Hw. lia.
    + set (e1 := mkEnv _ _ _ _ _ _). destruct (locked_update store (mret (None : option error)) b e1 Hs Hb Hl) as (b'&E&Hb'&Hl'&_).
      exists None, b', e1. split_and!; auto; [by eexists|simpl; lia].
Qed.

Lemma write_or_retry_spec cached wr m forget store_new b e :
  (forall wr, updates (forget wr)) -> (forall wr, updates (store_new wr)) ->
  ready b -> locked b = false -> 1 <= retriesCount b ->
  outcome m (1 + Nat.max 1 (Z.to_nat (retriesCount b))) e (write_or_retry temporary cached wr m forget store_new (b, e)).
Proof.
  intros Hf Hs Hb Hl Hr. unfold write_or_retry. unfold mbind at 1, Go_bind at 1. cbn [WriteMessages].
  destruct (default None (head (write_results e))) as [er|] eqn:Er; set (e1 := mkEnv _ _ _ _ _ _).
  2:{ exists None, b, e1. split_and!; auto; [by eexists|simpl; lia]. }
  destruct cached.
  - unfold mbind at 1, Go_bind at 1. cbn [Lock]. rewrite Hl. unfold mbind at 1, Go_bind at 1. cbn [writer_Close].
    set (b1 := mkBroker _ _ _ _ _ true). set (e2 := mkEnv _ _ _ _ _ _).
    destruct (default None (head (close_results e1))) as [ce|].
    + exists (Some ce), b, e2. split_and!; auto; [|done|simpl; lia]. destruct b; simpl in *. by subst.
    + destruct (Hf wr b1 e2) as (b2&E2&Hb2&Hl2&Hr2); [by apply ready_lock|].
      unfold mbind at 1, Go_bind at 1. rewrite E2. unfold mbind at 1, Go_bind at 1. cbn [Unlock].
      set (b3 := mkBroker _ _ _ _ _ false). unfold mbind at 1, Go_bind at 1. cbn [CreateProducer].
      set (e3 := mkEnv _ _ _ _ _ _). unfold mbind at 1, Go_bind at 1. cbn [go_get fst].
      assert (retriesCount b3 = retriesCount b) as Hr3 by (simpl; by rewrite Hr2).
      destruct (retry_writes_spec (Z.to_nat (retriesCount b3)) (created e2) m (store_new (created e2)) None b3 e3
        (Hs _) (ready_lock b2 false Hb2) eq_refl ltac:(lia)) as (r&b'&e'&E&Hb'&Hl'&Hp&Hw).
      unfold mbind at 1, Go_bind at 1. rewrite E. rewrite Hr3 in Hw. simpl in Hw.
      destruct r as [er'|]; [|exists None, b', e'; split_and!; auto; lia].
      eexists (Some er'), b', _. split; [reflexivity|]. split_and!; auto. simpl. lia.
  - destruct (temporary er).
    + cbn [WriteMessages]. destruct (default None (head (write_results e1))) as [er2|]; do 3 eexists;
        (split; [reflexivity|]); split_and!; auto; simpl; try lia; [done|by eexists].
    + exists (Some er), b, e1. split_and!; auto; [done|simpl; lia].
Qed.

(** Getting the writer, then writing. *)
Lemma publish_spec (one_topic : bool) topic msg buf b e :
  ready b -> locked b = false -> 1 <= retriesCount b ->
  outcome (kMsg_of topic msg buf) (1 + Nat.max 1 (Z.to_nat (retriesCount b))) e
    ((if one_topic then publishMultipleWriter temporary topic msg buf else publishOneWriter temporary topic msg buf) (b, e)).
Proof.
  intros Hb Hl Hr. pose proof Hb as (w&ws&Ew&Ews).
  assert (forall cached wr forget store_new b' e',
    (forall wr, updates (forget wr)) -> (forall wr, updates (store_new wr)) ->
    ready b' -> locked b' = false -> retriesCount b' = retriesCount b -> accepted e' = accepted e -> writes e' = writes e ->
    outcome (kMsg_of topic msg buf) (1 + Nat.max 1 (Z.to_nat (retriesCount b))) e
      (write_or_retry temporary cached wr (kMsg_of topic msg buf) forget store_new (b', e'))) as Hgo.
  { intros cached wr forget store_new b' e' Hf Hs Hb' Hl' Hr' Ha Hw.
    destruct (write_or_retry_spec cached wr (kMsg_of topic msg buf) forget store_new b' e' Hf Hs Hb' Hl' ltac:(lia))
      as (r&b2&e2&E&?&?&Hp&?). exists r, b2, e2. rewrite Hr' in *. split_and!; auto; [|lia].
    unfold published in *. rewrite Ha in Hp. done. }
  assert (ready (mkBroker (b_writer b) (connected b) (Addrs b) (b_Codec b) (retriesCount b) true)) as Hb1 by by apply ready_lock.
  assert (updates (w ← get_writer; put_writer (mkWriter (w_Writer w) (delete topic <$> w_Writers w) (EnableOneTopicOneWriter w)))) as Hforget.
  { apply (updates_put (fun w => mkWriter (w_Writer w) (delete topic <$> w_Writers w) (EnableOneTopicOneWriter w))).
    intros w' ws' E'. simpl. rewrite E'. by eexists. }
  assert (forall o, updates (w ← get_writer; put_writer (mkWriter o (w_Writers w) (EnableOneTopicOneWriter w)))) as Hone.
  { intros o. apply (updates_put (fun w => mkWriter o (w_Writers w) (EnableOneTopicOneWriter w))). intros w' ws' E'. by exists ws'. }
  destruct one_topic; unfold publishMultipleWriter, publishOneWriter; unfold mbind at 1, Go_bind at 1; cbn [go_get fst]; rewrite Ew;
    unfold mbind at 1, Go_bind at 1; cbn [Lock]; rewrite Hl; unfold mbind at 1, Go_bind at 1; unfold get_writer at 1;
    cbn [b_writer]; rewrite Ew.
  - rewrite Ews. change (default ∅ (Some ws)) with ws. destruct (ws !! topic) as [wr|] eqn:Et.
    + refine (Hgo true wr _ _ (mkBroker (Some w) (connected b) (Addrs b) (b_Codec b) (retriesCount b) false) e
                (fun _ => Hforget) (updates_store topic) _ _ _ _ _); try done. by exists w, ws.
    + unfold mbind at 1, Go_bind at 1. unfold mbind at 1, Go_bind at 1. cbn [CreateProducer].
      unfold mbind at 1, Go_bind at 1. set (e1 := mkEnv _ _ _ _ _ _). rewrite Ew in Hb1.
      destruct (updates_store topic (created e) _ e1 Hb1) as (b2&->&Hb2&Hl2&Hr2).
      by refine (Hgo false (created e) _ _ (mkBroker (b_writer b2) (connected b2) (Addrs b2) (b_Codec b2) (retriesCount b2) false) e1
                (fun _ => Hforget) (updates_store topic) (ready_lock _ _ Hb2) eq_refl Hr2 eq_refl eq_refl).
  - destruct (w_Writer w) as [wr|].
    + refine (Hgo true wr _ _ (mkBroker (Some w) (connected b) (Addrs b) (b_Codec b) (retriesCount b) false) e
                (fun _ => Hone None) (fun wr => Hone (Some wr)) _ _ _ _ _); try done. by exists w, ws.
    + refine (Hgo false (created e) _ _ (mkBroker (Some (mkWriter (Some (created e)) (w_Writers w) (EnableOneTopicOneWriter w)))
                   (connected b) (Addrs b) (b_Codec b) (retriesCount b) false) (mkEnv _ _ _ _ (S (created e)) _)
                (fun _ => Hone None) (fun wr => Hone (Some wr)) _ _ _ _ _); try done. by do 2 eexists.
Qed.

(** C18: a broker that was initialised and not disconnected, with at least one
    retry configured, publishes without panicking and with its lock released: on
    success a writer accepted the message exactly once, with the encoded body and
    the message's key, partition, offset and headers; on an error none did; and it
    took at most [1 + max(1, retries)] calls of [WriteMessages]. *)
Theorem kafka_publish topic msg b e :
  ready b -> locked b = false -> 1 <= retriesCount b ->
  match Marshal gob_Encode (b_Codec b) (Body msg) with
  | inr err => internalPublish gob_Encode temporary topic msg (b, e) = (Returned (Some err), (b, e))
  | inl buf =>
      outcome (kMsg_of topic msg buf) (1 + Nat.max 1 (Z.to_nat (retriesCount b))) e
        (internalPublish gob_Encode temporary topic msg (b, e))
  end.
Proof.
  intros Hb Hl Hr. unfold internalPublish. unfold mbind, Go_bind. cbn [go_get fst].
  destruct (Marshal _ _ _) as [buf|err]; [|done]. pose proof Hb as (w&ws&Ew&_). unfold get_writer at 1. rewrite Ew.
  pose proof (publish_spec (EnableOneTopicOneWriter w) topic (Clone msg) buf b e Hb Hl Hr) as H.
  rewrite Clone_id in *. by destruct (EnableOneTopicOneWriter w).
Qed.

(** With no retry configured a cached writer's failure is reported as success,
    and the message is gone. *)
Lemma publish_lost topic msg buf b e er w ws wr :
  b_writer b = Some w -> w_Writers w = Some ws -> ws !! topic = Some wr -> locked b = false -> retriesCount b <= 0 ->
  head (write_results e) = Some (Some er) -> default None (head (close_results e)) = None ->
  exists b' e', publishMultipleWriter temporary topic msg buf (b, e) = (Returned None, (b', e')) /\ accepted e' = accepted e.
Proof.
  intros Ew Ews Et Hl Hr Hw Hc. unfold publishMultipleWriter, write_or_retry, get_writer, put_writer, mbind, Go_bind. cbn. rewrite Ew. cbn. rewrite Hl.
  cbn. rewrite Ew. cbn. rewrite Ews. cbn. rewrite Et. cbn. rewrite Hw. cbn. rewrite Hc. cbn. rewrite ?Ew. cbn.
  replace (Z.to_nat (retriesCount b)) with 0%nat by lia. cbn. by do 2 eexists.
Qed.

(** After [Disconnect], in the one-writer-per-topic mode, publishing panics with
    the broker's lock held, [Connect] or not. *)
Lemma publish_after_disconnect topic msg b e w buf :
  b_writer b = Some w -> EnableOneTopicOneWriter w = true -> connected b = true -> locked b = false ->
  Marshal gob_Encode (b_Codec b) (Body msg) = inl buf ->
  exists b' e', (Disconnect ;; Connect ;; internalPublish gob_Encode temporary topic msg) (b, e) = (Panicked, (b', e')) /\ locked b' = true.
Proof.
  intros Ew Eo Hc Hl Hm. unfold mbind, Go_bind, Disconnect. rewrite Hl, Hc. cbn [negb]. rewrite Ew. unfold Connect. cbn [locked connected Addrs].
  rewrite ?Hl. unfold internalPublish, mbind, Go_bind.
  destruct (length (Addrs b) =? 0)%nat; cbn; rewrite Hm; unfold publishMultipleWriter, mbind, Go_bind; cbn; rewrite ?Eo, ?Hl; cbn;
    rewrite ?Hl; cbn; by do 2 eexists.
Qed.
End publish_facts.

(** * The subscriber *)

Definition defaultDeadlineMin : Duration := 50 * Millisecond.
Definition defaultDeadlineMax : Duration := 500 * Millisecond.
Definition defaultErrorMin : Duration := 500 * Millisecond.
Definition defaultErrorMax : Duration := 5 * Second.

(** [func backoffSleep(attempt int, min, max time.Duration)]: the time it sleeps;
    [rnd] is what the random source gives for [Int63n]. *)
Definition backoffSleep (rnd : Z) (attempt : Z) (min max : Duration) : Duration :=
  let min := if min <=? 0 then 50 * Millisecond else min in
  let max := if max <? min then min else max in
  let d := wrap64 (Z.shiftl min attempt) in
  let d := if d <? min then min else d in
  let d := if d >? max then max else d in
  let jitter := rnd mod (add64 (quot64 d 2) 1) in
  add64 (quot64 d 2) jitter.

(** [func isFatalError(s *subscriber, err error) bool]: the context's error, the
    subscriber's [closed] flag, and whether [err] is a [net.Error] that is not
    temporary are read at that moment. *)
Definition isFatalError (ctx_err is_closed permanent : bool) (err : error) : bool :=
  errors_Is "context.Canceled" err || ctx_err || is_closed || permanent.

Section subscriber.
Context {T : Type} (gob_Decode : bytes -> value T -> option error * value T).
Context (codec : option (Codec (value T))) (binder : option (unit -> gv T)).
(** The application's handler, and kafka-go's [CommitMessages]. *)
Context (handler : string -> Message (A := gv T) -> option error) (commit : KMessage -> option error).
Context (AutoAck : bool).

(** What the subscriber does, in order. *)
Inductive action :=
| AHandle (topic : string) (m : Message (A := gv T)) (err : option error)
| ACommit (km : KMessage) (err : option error)
| AProcessed (km : KMessage) (failed : bool)
| ASleep (d : Duration)
| AClose.

(** [func (s *subscriber) handleMessage(km kafkaGo.Message) bool]; [pub.Ack()] is
    the reader's commit. *)
Definition handleMessage (km : KMessage) : bool * list action :=
  let bm body := mkMessage "" (Some (kafkaHeaderToMap (k_Headers km))) (Some body) "" None (k_Partition km) (k_Offset km) None in
  match decode_body gob_Decode codec binder (k_Value km) with
  | inr _ => (true, [])
  | inl body =>
      let err := handler (k_Topic km) (bm body) in
      let h := AHandle (k_Topic km) (bm body) err in
      match err with
      | Some _ => (true, [h])
      | None =>
          if AutoAck then
            match commit km with
            | Some cerr => (true, [h; ACommit km (Some cerr)])
            | None => (false, [h; ACommit km None])
            end
          else (false, [h])
      end
  end.

Definition processed (km : KMessage) : list action :=
  let '(failed, acts) := handleMessage km in acts ++ [AProcessed km failed].

(** [func (s *subscriber) handleBatchMessage] *)
Definition handleBatchMessage (messages : list KMessage) : list action := messages ≫= processed.

(** What one round of a loop meets: the context or [done] ready, the ticker, or
    a fetch with its result (a failed fetch with the facts [isFatalError] reads
    and the random number of the backoff). *)
Inductive input :=
| IStop
| ITick
| IFetched (km : KMessage)
| IError (err : error) (ctx_err is_closed permanent : bool) (rnd : Z).

Record loop := mkLoop {
  buffer : list KMessage;
  deadlineAttempt : Z;
  errorAttempt : Z;
  log : list action;
  running : bool
}.

Definition loop_start : loop := mkLoop [] 0 0 [] true.

Definition bump (attempt : Z) : Z := if attempt <? 6 then attempt + 1 else attempt.

(** One round of [processBatchMessage]. *)
Definition batch_round (batchSize : Z) (i : input) (l : loop) : loop :=
  if negb (running l) then l else
  match i with
  | IStop => mkLoop (buffer l) (deadlineAttempt l) (errorAttempt l) (log l ++ [AClose]) false
  | ITick =>
      if (0 <? length (buffer l))%nat
      then mkLoop [] (deadlineAttempt l) (errorAttempt l) (log l ++ handleBatchMessage (buffer l)) true
      else l
  | IFetched km =>
      let buf := buffer l ++ [km] in
      if batchSize <=? Z.of_nat (length buf)
      then mkLoop [] 0 0 (log l ++ handleBatchMessage buf) true
      else mkLoop buf 0 0 (log l) true
  | IError err ctx_err is_closed permanent rnd =>
      if isFatalError ctx_err is_closed permanent err
      then mkLoop (buffer l) (deadlineAttempt l) (errorAttempt l) (log l) false
      else if errors_Is "context.DeadlineExceeded" err
      then mkLoop (buffer l) (bump (deadlineAttempt l)) (errorAttempt l)
             (log l ++ [ASleep (backoffSleep rnd (deadlineAttempt l) defaultDeadlineMin defaultDeadlineMax)]) true
      else mkLoop (buffer l) (deadlineAttempt l) (bump (errorAttempt l))
             (log l ++ [ASleep (backoffSleep rnd (errorAttempt l) defaultErrorMin defaultErrorMax)]) true
  end.

(** [make([]T, 0, n)] for a [T] of [size] bytes: it panics on a negative capacity and on
    one whose array is larger than the address space of the runtime (linux/amd64). *)
Definition maxAlloc : Z := 2 ^ 48.
Definition makeslice_ok (size n : Z) : bool := (0 <=? n) && (size * n <=? maxAlloc).

(** [func (s *subscriber) processBatchMessage()]: the buffer is made first, with room for a
    batch of messages of [size] bytes each; [time.NewTicker] panics on an interval that is
    not positive. *)
Definition processBatchMessage (size batchSize : Z) (batchInterval : Duration) (inputs : list input) : result loop :=
  if negb (makeslice_ok size batchSize) then Panicked
  else if batchInterval <=? 0 then Panicked
  else Returned (fold_left (fun l i => batch_round batchSize i l) inputs loop_start).

(** One round of [processSingleMessage], which has no ticker. *)
Definition single_round (i : input) (l : loop) : loop :=
  if negb (running l) then l else
  match i with
  | IStop => mkLoop (buffer l) (deadlineAttempt l) (errorAttempt l) (log l ++ [AClose]) false
  | ITick => l
  | IFetched km => mkLoop (buffer l) (deadlineAttempt l) 0 (log l ++ processed km) true
  | IError err ctx_err is_closed permanent rnd =>
      if isFatalError ctx_err is_closed permanent err
      then mkLoop (buffer l) (deadlineAttempt l) (errorAttempt l) (log l) false
      else mkLoop (buffer l) (deadlineAttempt l) (bump (errorAttempt l))
             (log l ++ [ASleep (backoffSleep rnd (errorAttempt l) defaultErrorMin defaultErrorMax)]) true
  end.

Definition processSingleMessage (inputs : list input) : loop := fold_left (fun l i => single_round i l) inputs loop_start.

(** [func (s *subscriber) isBatchMode() bool] and [run] *)
Definition isBatchMode (batchSize : Z) (batchInterval : Duration) : bool := (0 <? batchSize) || (0 <? batchInterval).
Definition sub_run (size batchSize : Z) (batchInterval : Duration) (inputs : list input) : result loop :=
  if isBatchMode batchSize batchInterval then processBatchMessage size batchSize batchInterval inputs
  else Returned (processSingleMessage inputs).
End subscriber.

(** The close path: [func (s *subscriber) closeLocked() error] closes the reader
    once; [Unsubscribe] then takes the topic out of the broker's map. *)
Record sub_state := mkSub { sub_closed : bool; reader_closes : nat }.
Definition closeLocked (reader_Close : option error) (s : sub_state) : option error * sub_state :=
  if sub_closed s then (None, s) else (reader_Close, mkSub true (S (reader_closes s))).
Definition sub_Unsubscribe (reader_Close : option error) (removeFromManager : bool) (topic : string)
    (s : sub_state) (sm : SubscriberSyncMap) : option error * sub_state * SubscriberSyncMap :=
  let '(err, s') := closeLocked reader_Close s in
  (err, s', if removeFromManager then snd (RemoveOnly topic sm) else sm).

(** ** Properties *)

(** The backoff doubles from [min] up to [max]; the sleep is between half of it
    and all of it. *)
Lemma backoffSleep_bounds rnd attempt min max :
  0 <= attempt <= 6 -> 0 < min <= max -> max <= 2 ^ 50 ->
  let d := Z.min max (min * 2 ^ attempt) in d / 2 <= backoffSleep rnd attempt min max <= d.
Proof.
  intros Ha Hm Hmax d. unfold backoffSleep.
  assert (1 <= 2 ^ attempt <= 2 ^ 6) as Hp by (split; [apply (Z.pow_le_mono_r 2 0); lia|apply Z.pow_le_mono_r; lia]).
  assert (min <= min * 2 ^ attempt <= 2 ^ 56) as Hd.
  { change (2 ^ 6) with 64 in Hp. change (2 ^ 56) with (2 ^ 50 * 64). nia. }
  replace (min <=? 0) with false by (symmetry; apply Z.leb_gt; lia).
  replace (max <? min) with false by (symmetry; apply Z.ltb_ge; lia).
  rewrite Z.shiftl_mul_pow2 by lia. rewrite wrap64_id by (unfold in_int64, int64_min, int64_max; lia).
  replace (min * 2 ^ attempt <? min) with false by (symmetry; apply Z.ltb_ge; lia).
  assert ((if min * 2 ^ attempt >? max then max else min * 2 ^ attempt) = d) as ->.
  { unfold d. destruct (Z.gtb_spec (min * 2 ^ attempt) max); lia. }
  assert (0 < d <= 2 ^ 56) as Hd' by lia.
  unfold quot64, add64. rewrite Z.quot_div_nonneg by lia.
  assert (0 <= d / 2 <= d) by (split; [apply Z.div_pos; lia|apply Z.div_le_upper_bound; lia]).
  rewrite (wrap64_id (d / 2)), (wrap64_id (d / 2 + 1)) by (unfold in_int64, int64_min, int64_max; lia).
  pose proof (Z.mod_pos_bound rnd (d / 2 + 1)) as Hj. pose proof (Z.mul_div_le d 2).
  rewrite wrap64_id by (unfold in_int64, int64_min, int64_max; lia). lia.
Qed.

Section subscriber_facts.
Context {T : Type} (gob_Decode : bytes -> value T -> option error * value T).
Context (codec : option (Codec (value T))) (binder : option (unit -> gv T)).
Context (handler : string -> Message (A := gv T) -> option error) (commit : KMessage -> option error) (AutoAck : bool).
Abbreviation processed := (processed gob_Decode codec binder handler commit AutoAck).
Abbreviation batch_round := (batch_round gob_Decode codec binder handler commit AutoAck).
Abbreviation single_round := (single_round gob_Decode codec binder handler commit AutoAck).

(** The messages whose handling is complete, in order. *)
Definition done (l : list (action (T := T))) : list KMessage :=
  omap (fun a => match a with AProcessed km _ => Some km | _ => None end) l.

(** The messages fetched before the loop ends. *)
Fixpoint taken (inputs : list input) : list KMessage :=
  match inputs with
  | [] => []
  | IStop :: _ => []
  | ITick :: rest => taken rest
  | IFetched km :: rest => km :: taken rest
  | IError err ctx_err is_closed permanent _ :: rest => if isFatalError ctx_err is_closed permanent err then [] else taken rest
  end.

Definition sleeps_ok (l : list (action (T := T))) : Prop :=
  Forall (fun a => match a with ASleep d => 0 <= d <= defaultErrorMax | _ => True end) l.

Lemma done_app l1 l2 : done (l1 ++ l2) = done l1 ++ done l2.
Proof. apply omap_app. Qed.

Lemma processed_facts km : done (processed km) = [km] /\ sleeps_ok (processed km).
Proof.
  unfold Kafka.processed, handleMessage. destruct (decode_body _ _ _ _); simpl; [|split; [done|by repeat constructor]].
  destruct (handler _ _); simpl; [split; [done|by repeat constructor]|].
  destruct AutoAck; [destruct (commit km)|]; simpl; (split; [done|by repeat constructor]).
Qed.

Lemma batch_facts ms :
  done (handleBatchMessage gob_Decode codec binder handler commit AutoAck ms) = ms /\
  sleeps_ok (handleBatchMessage gob_Decode codec binder handler commit AutoAck ms).
Proof.
  induction ms as [|m ms [IH1 IH2]]; [by split; [|constructor]|]. unfold handleBatchMessage in *. rewrite bind_cons.
  destruct (processed_facts m) as [H1 H2]. split.
  - rewrite done_app, H1, IH1. done.
  - by apply Forall_app.
Qed.

Record loop_ok (batchSize : Z) (l : loop) : Prop := {
  lo_buffer : Z.of_nat (length (buffer l)) < Z.max 1 batchSize;
  lo_attempts : 0 <= deadlineAttempt l <= 6 /\ 0 <= errorAttempt l <= 6;
  lo_sleeps : sleeps_ok (log l)
}.

Lemma bump_range a : 0 <= a <= 6 -> 0 <= bump a <= 6.
Proof. unfold bump. destruct (Z.ltb_spec a 6); lia. Qed.

Lemma sleep_bound rnd a : 0 <= a <= 6 ->
  0 <= backoffSleep rnd a defaultDeadlineMin defaultDeadlineMax <= defaultErrorMax /\
  0 <= backoffSleep rnd a defaultErrorMin defaultErrorMax <= defaultErrorMax.
Proof.
  intros Ha. unfold defaultDeadlineMin, defaultDeadlineMax, defaultErrorMin, defaultErrorMax, Millisecond, Second in *.
  assert (forall min max, 0 < min <= max -> max <= 5 * 1000000000 -> 0 <= backoffSleep rnd a min max <= 5 * 1000000000) as H.
  { intros min max Hm Hx. pose proof (backoffSleep_bounds rnd a min max Ha Hm ltac:(lia)) as Hb. cbv zeta in Hb.
    assert (0 <= Z.min max (min * 2 ^ a)) by (apply Z.min_glb; [lia|]; apply Z.mul_nonneg_nonneg; [lia|]; apply Z.pow_nonneg; lia).
    assert (0 <= Z.min max (min * 2 ^ a) / 2) by (apply Z.div_pos; lia). lia. }
  split; apply H; lia.
Qed.

(** One round handles what it takes out of the buffer, in order, and nothing
    else. *)
Lemma batch_round_ok batchSize i l :
  loop_ok batchSize l -> running l = true ->
  loop_ok batchSize (batch_round batchSize i l) /\
  done (log (batch_round batchSize i l)) ++ buffer (batch_round batchSize i l) = done (log l) ++ buffer l ++ taken [i].
Proof.
  intros [Hb [Hd He] Hs] Hr. unfold Kafka.batch_round. rewrite Hr. cbn [negb]. destruct i as [| |km|err c cl p rnd].
  - split; [split; simpl; auto; apply Forall_app; by repeat constructor|].
    cbn [log buffer taken]. by rewrite done_app, app_nil_r, app_nil_r.
  - destruct (batch_facts (buffer l)) as [H1 H2]. destruct (0 <? length (buffer l))%nat; [|split; [done|by rewrite app_nil_r]].
    split; [split; simpl; auto; [lia|by apply Forall_app]|]. cbn [log buffer taken]. rewrite done_app, H1. by rewrite !app_nil_r.
  - destruct (batch_facts (buffer l ++ [km])) as [H1 H2]. destruct (Z.leb_spec batchSize (Z.of_nat (length (buffer l ++ [km])))).
    + split; [split; simpl; auto; [lia|lia|by apply Forall_app]|]. cbn [log buffer taken]. rewrite done_app, H1. by rewrite !app_nil_r.
    + split; [split; simpl; auto; lia|done].
  - cbn [taken]. destruct (sleep_bound rnd (deadlineAttempt l) Hd) as [Hsd _]. destruct (sleep_bound rnd (errorAttempt l) He) as [_ Hse].
    destruct (isFatalError c cl p err); [split; [by split|by rewrite app_nil_r]|].
    destruct (errors_Is _ err); (split; [split; simpl; auto using bump_range; apply Forall_app; split; [done|by apply Forall_singleton]|]);
      cbn [log buffer]; rewrite done_app; simpl; by rewrite !app_nil_r.
Qed.

(** The inputs that end a loop. *)
Definition ends (i : input) : bool :=
  match i with
  | IStop => true
  | IError err ctx_err is_closed permanent _ => isFatalError ctx_err is_closed permanent err
  | _ => false
  end.

Lemma taken_cons i inputs : taken (i :: inputs) = taken [i] ++ (if ends i then [] else taken inputs).
Proof. destruct i; simpl; try done. by destruct (isFatalError _ _ _ _). Qed.

(** A loop whose rounds are right is right. *)
Lemma rounds_ok (round : input -> loop -> loop) (P : loop -> Prop) inputs l :
  (forall i l, running l = false -> round i l = l) ->
  (forall i l, running l = true -> running (round i l) = negb (ends i)) ->
  (forall i l, P l -> running l = true ->
     P (round i l) /\ done (log (round i l)) ++ buffer (round i l) = done (log l) ++ buffer l ++ taken [i]) ->
  P l -> running l = true ->
  let l' := fold_left (fun l i => round i l) inputs l in
  P l' /\ done (log l') ++ buffer l' = done (log l) ++ buffer l ++ taken inputs.
Proof.
  intros Hstop Hends Hround. revert l. induction inputs as [|i inputs IH]; intros l Hl Hr; [by rewrite app_nil_r|].
  cbn [fold_left]. destruct (Hround i l Hl Hr) as [Hl1 E1]. rewrite taken_cons. pose proof (Hends i l Hr) as He.
  destruct (ends i); cbn [negb] in He.
  - assert (forall js, fold_left (fun l i => round i l) js (round i l) = round i l) as Hfix.
    { induction js as [|k js IHj]; [done|]. cbn [fold_left]. by rewrite (Hstop k _ He). }
    rewrite Hfix. by rewrite app_nil_r.
  - destruct (IH _ Hl1 He) as [H1 H2]. split; [done|]. by rewrite H2, app_assoc, E1, <- !app_assoc.
Qed.

Lemma batch_round_runs batchSize i l : running l = true -> running (batch_round batchSize i l) = negb (ends i).
Proof.
  intros Hr. unfold Kafka.batch_round. rewrite Hr. destruct i as [| |km|err c cl p rnd]; simpl; try done; repeat case_match; done.
Qed.

Lemma single_round_ok i l :
  loop_ok 0 l -> running l = true ->
  loop_ok 0 (single_round i l) /\
  done (log (single_round i l)) ++ buffer (single_round i l) = done (log l) ++ buffer l ++ taken [i].
Proof.
  intros Hl Hr. assert (buffer l = []) as Hb0 by (pose proof (lo_buffer _ _ Hl); destruct (buffer l); simpl in *; [done|lia]).
  destruct Hl as [Hb [Hd He] Hs]. unfold Kafka.single_round. rewrite Hr. cbn [negb]. destruct i as [| |km|err c cl p rnd].
  - split; [split; simpl; auto; apply Forall_app; by repeat constructor|].
    cbn [log buffer taken]. by rewrite done_app, app_nil_r, app_nil_r.
  - split; [done|by rewrite app_nil_r].
  - destruct (processed_facts km) as [H1 H2].
    split; [split; simpl; auto; [lia|by apply Forall_app]|]. cbn [log buffer taken]. rewrite done_app, H1, Hb0. by rewrite app_nil_r.
  - cbn [taken]. destruct (sleep_bound rnd (errorAttempt l) He) as [_ Hse].
    destruct (isFatalError c cl p err); [split; [by split|by rewrite app_nil_r]|].
    split; [split; simpl; auto using bump_range; apply Forall_app; split; [done|by apply Forall_singleton]|].
    cbn [log buffer]. rewrite done_app. simpl. by rewrite !app_nil_r.
Qed.

Lemma single_round_runs i l : running l = true -> running (single_round i l) = negb (ends i).
Proof.
  intros Hr. unfold Kafka.single_round. rewrite Hr. destruct i as [| |km|err c cl p rnd]; simpl; try done; repeat case_match; done.
Qed.

Lemma loop_start_ok n : loop_ok n (loop_start (T := T)).
Proof. split; simpl; try lia. constructor. Qed.

Lemma batch_loop n inputs :
  let l := fold_left (fun l i => batch_round n i l) inputs loop_start in
  loop_ok n l /\ done (log l) ++ buffer l = taken inputs.
Proof.
  apply (rounds_ok (batch_round n) (loop_ok n) inputs loop_start);
    eauto using batch_round_ok, batch_round_runs, loop_start_ok.
  intros i l Hl. unfold Kafka.batch_round. by rewrite Hl.
Qed.

Lemma single_loop inputs :
  let l := fold_left (fun l i => single_round i l) inputs loop_start in
  loop_ok 0 l /\ done (log l) ++ buffer l = taken inputs.
Proof.
  apply (rounds_ok single_round (loop_ok 0) inputs loop_start);
    eauto using single_round_ok, single_round_runs, loop_start_ok.
  intros i l Hl. unfold Kafka.single_round. by rewrite Hl.
Qed.

Lemma fold_insert_list (l : list (string * string)) (m0 : gmap string string) :
  NoDup l.*1 -> fold_left (fun m '(k, v) => <[k := v]> m) l m0 = list_to_map l ∪ m0.
Proof.
  revert m0. induction l as [|[k v] l IH]; intros m0 Hnd; [symmetry; apply map_empty_union|].
  cbn in Hnd. apply NoDup_cons in Hnd as [Hk Hnd]. cbn [fold_left list_to_map foldr]. rewrite IH by done.
  rewrite <- insert_union_r by by apply not_elem_of_list_to_map_1. by rewrite insert_union_l.
Qed.

(** The headers a publisher sends are those the subscriber reads. *)
Lemma headers_round_trip topic (msg : Message (A := gv T)) buf :
  kafkaHeaderToMap (k_Headers (kMsg_of topic msg buf)) = default ∅ (msg_Headers msg).
Proof.
  unfold kafkaHeaderToMap, kMsg_of. cbn [k_Headers]. set (h := default ∅ (msg_Headers msg)).
  assert (forall l (m0 : gmap string string), fold_left (fun m v => <[h_Key v := String.string_of_list_ascii (h_Value v)]> m)
            (map (fun '(k, v) => mkKHeader k (String.list_ascii_of_string v)) l) m0 =
          fold_left (fun m '(k, v) => <[k := v]> m) l m0) as E.
  { induction l as [|[k v] l IH]; intros m0; [done|]. simpl. by rewrite String.string_of_list_ascii_of_string, IH. }
  rewrite E, fold_insert_list by apply NoDup_fst_map_to_list. by rewrite list_to_map_to_list, map_union_empty.
Qed.

(** What Kafka hands on of a published message reaches the application's
    handler with the publisher's headers and the body its codec decodes; the
    message is acknowledged once, after the handler returned without error, in
    the automatic mode; a handler error, or a body that does not decode, is not
    acknowledged. *)
Theorem kafka_round_trip topic (msg : Message (A := gv T)) buf km :
  k_Topic km = topic -> k_Value km = k_Value (kMsg_of topic msg buf) ->
  k_Headers km = k_Headers (kMsg_of topic msg buf) ->
  match decode_body gob_Decode codec binder buf with
  | inr _ => handleMessage gob_Decode codec binder handler commit AutoAck km = (true, [])
  | inl v =>
      let m := mkMessage "" (Some (default ∅ (msg_Headers msg))) (Some v) "" None (k_Partition km) (k_Offset km) None in
      exists failed acks,
        handleMessage gob_Decode codec binder handler commit AutoAck km = (failed, AHandle topic m (handler topic m) :: acks) /\
        acks = (if bool_decide (handler topic m = None) && AutoAck then [ACommit km (commit km)] else []) /\
        (failed = false <-> handler topic m = None /\ (AutoAck = true -> commit km = None))
  end.
Proof.
  intros Ht Hv Hh. unfold handleMessage. rewrite Hv, Hh, headers_round_trip, Ht. cbn [k_Value kMsg_of].
  destruct (decode_body _ _ _ _) as [v|]; [|done]. cbv zeta. destruct (handler topic _) as [err|]; simpl.
  - do 2 eexists. split; [reflexivity|]. split; [done|]. naive_solver.
  - destruct AutoAck; [destruct (commit km) eqn:Ec|]; do 2 eexists; (split; [reflexivity|]); (split; [done|]); naive_solver.
Qed.

(** C19: whatever a subscriber meets (messages, ticks, errors, the end), in batch
    and in single mode: it handles every message it fetched, once and in the
    order fetched, except those still in its buffer; the buffer stays below the
    batch size, and is empty in single mode; every sleep is at most five seconds.
    It panics exactly when it is in batch mode (a positive size or interval) and the
    batch size is negative or too large to allocate, or the interval is not positive. *)
Theorem kafka_consumption size batchSize batchInterval inputs :
  let bad := (0 < batchSize \/ 0 < batchInterval) /\ (batchSize < 0 \/ maxAlloc < size * batchSize \/ batchInterval <= 0) in
  match sub_run gob_Decode codec binder handler commit AutoAck size batchSize batchInterval inputs with
  | Panicked => bad
  | Returned l =>
      ~ bad /\
      done (log l) ++ buffer l = taken inputs /\
      Z.of_nat (length (buffer l)) < Z.max 1 (if isBatchMode batchSize batchInterval then batchSize else 0) /\
      sleeps_ok (log l)
  end.
Proof.
  unfold sub_run, processBatchMessage, processSingleMessage, makeslice_ok, isBatchMode.
  destruct (batch_loop batchSize inputs) as [[Hb _ Hs] E]. destruct (single_loop inputs) as [[Hb' _ Hs'] E'].
  destruct (Z.ltb_spec 0 batchSize), (Z.ltb_spec 0 batchInterval), (Z.leb_spec batchInterval 0),
    (Z.leb_spec 0 batchSize), (Z.leb_spec (size * batchSize) maxAlloc); cbn [orb andb negb]; try lia; split_and?; done || lia.
Qed.
End subscriber_facts.

Definition no_gob {T} : value T -> bytes + error := fun _ => inr (Errorf "gob").
Definition no_ungob {T} : bytes -> value T -> option error * value T := fun _ v => (Some (Errorf "gob"), v).
(** A codec of byte strings, for the examples. *)
Definition text_codec : Codec (value bytes) :=
  mkCodec (fun v => match v with AValue (GPtr b) => inl b | _ => inr (Errorf "type") end)
    (fun data v => match v with AValue (GPtrAny (GPtr _)) => (None, AValue (GPtrAny (GPtr data))) | _ => (Some (Errorf "type"), v) end)
    "text".
Definition hi : bytes := String.list_ascii_of_string "hi".
Definition hi_msg : Message (A := gv bytes) := mkMessage "" (Some {["k" := "v"]}) (Some (AValue (GPtr hi))) "key" None 0 0 None.
Definition demo_broker : kafkaBroker bytes :=
  mkBroker (Some (mkWriter None (Some {["t" := 0%nat]}) true)) true ["a:9092"] (Some text_codec) 1 false.

(** The cached writer fails; the new one accepts the message. *)
Lemma kafka_publish_witness :
  let e := mkEnv [Some (Errorf "broken pipe")] [] [] [] 1 0 in
  Marshal no_gob (b_Codec demo_broker) (Body hi_msg) = inl hi /\
  outcome (kMsg_of "t" hi_msg hi) 2 e (internalPublish no_gob (fun _ => false) "t" hi_msg (demo_broker, e)) /\
  accepted (snd (snd (internalPublish no_gob (fun _ => false) "t" hi_msg (demo_broker, e)))) = [(1%nat, kMsg_of "t" hi_msg hi)].
Proof.
  intros e. split; [reflexivity|]. split; [|vm_compute; reflexivity].
  exact (kafka_publish no_gob (fun _ => false) "t" hi_msg demo_broker e
    (ex_intro _ _ (ex_intro _ _ (conj eq_refl eq_refl))) eq_refl ltac:(simpl; lia)).
Defined.

Lemma kafka_round_trip_witness :
  let km := mkKMessage "t" hi [] 41 2 (k_Headers (kMsg_of "t" hi_msg hi)) in
  let m := mkMessage "" (Some {["k" := "v"]}) (Some (AValue (GPtr hi))) "" None 2 41 None in
  handleMessage no_ungob (Some text_codec) (Some (fun _ => GPtr [])) (fun _ _ => None) (fun _ => None) true km =
    (false, [AHandle "t" m None; ACommit km None]).
Proof.
  intros km m.
  destruct (kafka_round_trip no_ungob (Some text_codec) (Some (fun _ => GPtr [])) (fun _ _ => None) (fun _ => None) true
    "t" hi_msg hi km eq_refl eq_refl eq_refl) as (failed&acks&E&Ea&Hf).
  rewrite E, Ea. f_equal. apply Hf. split; reflexivity.
Defined.

(** The trace carrier: a header set is the one read back, once. *)
Lemma carrier_Get_cons key h hs :
  carrier_Get key (h :: hs) = if decide (h_Key h = key) then String.string_of_list_ascii (h_Value h) else carrier_Get key hs.
Proof.
  unfold carrier_Get. cbn [list_find]. case_decide; [done|]. by destruct (list_find _ hs) as [[? ?]|].
Qed.

Lemma carrier_Get_Set key val key' hs :
  carrier_Get key' (carrier_Set key val hs) = if decide (key = key') then val else carrier_Get key' hs.
Proof.
  unfold carrier_Set. induction hs as [|h hs IH].
  - cbn [filter list_filter app]. rewrite carrier_Get_cons. cbn [h_Key h_Value]. by rewrite String.string_of_list_ascii_of_string.
  - rewrite filter_cons. destruct (decide (h_Key h <> key)) as [Hn|Hn].
    + rewrite <- app_comm_cons, !carrier_Get_cons, IH. by repeat case_decide; subst.
    + apply dec_stable in Hn. rewrite IH, carrier_Get_cons. by repeat case_decide; subst.
Qed.
