(* ===== verification/KafkaConfig.v ===== *)
(** [broker/kafka], configuration: the options of [options.go], [NewBroker], [Init],
    [Subscribe] and [CreateProducer] of [kafka.go] and [writer.go].

    Dialers are pointers: a store of dialers, whose first is the package variable
    [kafkaGo.DefaultDialer] that every broker of the process shares.  Loggers,
    callbacks and TLS configurations are known by numbers. *)
From Stdlib Require Import ZArith Lia Ascii.
From S2P Require Import Prelude GoErrors GoTime NetPacket Encoding Broker BrokerCodec BrokerOptions.
From stdpp Require Import base gmap strings list fin_maps.
Open Scope string_scope.
Open Scope list_scope.
Open Scope Z_scope.

Definition defaultAddr : string := "127.0.0.1:9092".
Definition defaultRetriesCount : Z := 1.

(** The numeric fields of [kafkaGo.ReaderConfig] and of [WriterConfig]. *)
Inductive reader_field :=
| Partition | QueueCapacity | MinBytes | MaxBytes | MaxWait | ReadBatchTimeout | ReadLagInterval | HeartbeatInterval
| CommitInterval | PartitionWatchInterval | SessionTimeout | RebalanceTimeout | RetentionTime | StartOffset | ReaderMaxAttempts
| ReadBackoffMin | ReadBackoffMax.
Inductive writer_field := WriterMaxAttempts | BatchSize | BatchBytes | BatchTimeout | ReadTimeout | WriteTimeout | RequiredAcks_.
#[export] Instance reader_field_eq : EqDecision reader_field.
Proof. solve_decision. Defined.
#[export] Instance writer_field_eq : EqDecision writer_field.
Proof. solve_decision. Defined.

(** A logger: nil, the package's own [Logger] and [ErrorLogger], or the caller's. *)
Inductive logger := NoLogger | OwnLogger | OwnErrorLogger | CallerLogger (n : nat).

Inductive balancer :=
| LeastBytes | RoundRobin | Hash (hasher : nat) | ReferenceHash (hasher : nat) | CRC32Balancer (consistent : bool)
| Murmur2Balancer (consistent : bool).

(** [sasl.Mechanism], as the options make it. *)
Inductive mechanism := Plain (username password : string) | Scram (sha512 : bool) (username password : string).

Record ReaderConfig := mkReader {
  rc_Brokers : list string;
  rc_GroupID : string;
  rc_Topic : string;
  rc_Dialer : option nat;
  rc_WatchPartitionChanges : bool;
  rc_Logger : logger;
  rc_ErrorLogger : logger;
  rc_num : reader_field -> Z
}.
Record WriterConfig := mkWriterConfig {
  wc_Brokers : list string;
  wc_Balancer : balancer;
  wc_Async : bool;
  wc_Logger : logger;
  wc_ErrorLogger : logger;
  wc_AllowAutoTopicCreation : bool;
  wc_Completion : option nat;
  wc_num : writer_field -> Z
}.

(** [kafkaGo.Dialer] *)
Record Dialer := mkDialer { d_Timeout : Duration; d_SASL : option mechanism; d_TLS : option nat }.

(** * [options.go] *)

Inductive key :=
| readerConfigKey | writerConfigKey | retriesCountKey | enableOneTopicOneWriterKey | mechanismKey
| maxAttemptsKey | loggerKey | errorLoggerKey | enableLoggerKey | enableErrorLoggerKey | batchSizeKey
| batchTimeoutKey | batchBytesKey | asyncKey | readTimeoutKey | writeTimeoutKey
| allowPublishAutoTopicCreationKey | completionKey | dialerTimeoutKey | subscribeRetriesCountKey
| queueCapacityKey | minBytesKey | maxBytesKey | maxWaitKey | readLagIntervalKey | heartbeatIntervalKey
| commitIntervalKey | partitionWatchIntervalKey | watchPartitionChangesKey | sessionTimeoutKey
| rebalanceTimeoutKey | retentionTimeKey | startOffsetKey | dialerConfigKey | partitionKey
| readBatchTimeoutKey | readBackoffMin | readBackoffMax | subscribeBatchSizeKey | subscribeBatchIntervalKey
| autoSubscribeCreateTopicKey
| balancerKey.
#[export] Instance key_eq : EqDecision key.
Proof. solve_decision. Defined.

(** The dynamic values. *)
Inductive val :=
| VInt (n : Z) | VInt64 (n : Z) | VDuration (d : Duration) | VBool (b : bool) | VLogger (l : option nat) | VFunc (f : nat)
| VMechanism (m : mechanism) | VDialer (d : nat) | VReader (c : ReaderConfig) | VWriter (c : WriterConfig) | VBalancer (b : balancer)
| VCreateTopic (topic : string) (numPartitions replicationFactor : Z).

Abbreviation ctx_t := (OptContext key val).

Section options.
Context {T H M P : Type}.
Abbreviation Options := (BrokerOptions.Options key val T H M P).

Definition WithReaderConfig (cfg : ReaderConfig) : Options -> Options := OptionContextWithValue readerConfigKey (VReader cfg).
Definition WithWriterConfig (cfg : WriterConfig) : Options -> Options := OptionContextWithValue writerConfigKey (VWriter cfg).
Definition WithEnableOneTopicOneWriter (enable : bool) : Options -> Options := OptionContextWithValue enableOneTopicOneWriterKey (VBool enable).
Definition WithPlainMechanism (username password : string) : Options -> Options := OptionContextWithValue mechanismKey (VMechanism (Plain username password)).
Definition WithMaxAttempts (cnt : Z) : Options -> Options := OptionContextWithValue maxAttemptsKey (VInt cnt).
Definition WithLogger (l : option nat) : Options -> Options := OptionContextWithValue loggerKey (VLogger l).
Definition WithErrorLogger (l : option nat) : Options -> Options := OptionContextWithValue errorLoggerKey (VLogger l).
Definition WithEnableLogger (enable : bool) : Options -> Options := OptionContextWithValue enableLoggerKey (VBool enable).
Definition WithEnableErrorLogger (enable : bool) : Options -> Options := OptionContextWithValue enableErrorLoggerKey (VBool enable).
Definition WithBatchSize (size : Z) : Options -> Options := OptionContextWithValue batchSizeKey (VInt size).
Definition WithBatchTimeout (timeout : Duration) : Options -> Options := OptionContextWithValue batchTimeoutKey (VDuration timeout).
Definition WithBatchBytes (by_ : Z) : Options -> Options := OptionContextWithValue batchBytesKey (VInt64 by_).
Definition WithAsync (enable : bool) : Options -> Options := OptionContextWithValue asyncKey (VBool enable).
Definition WithPublishMaxAttempts (cnt : Z) : Options -> Options := OptionContextWithValue maxAttemptsKey (VInt cnt).
Definition WithReadTimeout (timeout : Duration) : Options -> Options := OptionContextWithValue readTimeoutKey (VDuration timeout).
Definition WithWriteTimeout (timeout : Duration) : Options -> Options := OptionContextWithValue writeTimeoutKey (VDuration timeout).
Definition WithAllowPublishAutoTopicCreation (enable : bool) : Options -> Options := OptionContextWithValue allowPublishAutoTopicCreationKey (VBool enable).
Definition WithCompletion (f : nat) : Options -> Options := OptionContextWithValue completionKey (VFunc f).
(** The mechanism is made by the library; when it fails the option does nothing. *)
Definition WithScramMechanism (made : option error) (sha512 : bool) (username password : string) : Options -> Options :=
  match made with
  | Some _ => fun o => o
  | None => OptionContextWithValue mechanismKey (VMechanism (Scram sha512 username password))
  end.
End options.

Definition WithLeastBytesBalancer : PublishOptions key val -> PublishOptions key val := PublishContextWithValue balancerKey (VBalancer LeastBytes).
Definition WithRoundRobinBalancer : PublishOptions key val -> PublishOptions key val := PublishContextWithValue balancerKey (VBalancer RoundRobin).
Definition WithHashBalancer (hasher : nat) : PublishOptions key val -> PublishOptions key val := PublishContextWithValue balancerKey (VBalancer (Hash hasher)).
Definition WithReferenceHashBalancer (hasher : nat) : PublishOptions key val -> PublishOptions key val := PublishContextWithValue balancerKey (VBalancer (ReferenceHash hasher)).
Definition WithCrc32Balancer (consistent : bool) : PublishOptions key val -> PublishOptions key val := PublishContextWithValue balancerKey (VBalancer (CRC32Balancer consistent)).
Definition WithMurmur2Balancer (consistent : bool) : PublishOptions key val -> PublishOptions key val := PublishContextWithValue balancerKey (VBalancer (Murmur2Balancer consistent)).

(** The subscribe options, as the drivers' [SubscribeOptions]: the context and the
    queue. *)
Record SubscribeOptions := mkSubscribeOptions { so_Context : ctx_t; so_Queue : string }.
Definition SubscribeContextWithValue (k : key) (v : val) : SubscribeOptions -> SubscribeOptions := fun o =>
  mkSubscribeOptions ((k, v) :: so_Context o) (so_Queue o).
Definition WithSubscribeQueueName (name : string) : SubscribeOptions -> SubscribeOptions := fun o => mkSubscribeOptions (so_Context o) name.

Definition WithDialerTimeout (tm : Duration) : SubscribeOptions -> SubscribeOptions := SubscribeContextWithValue dialerTimeoutKey (VDuration tm).
Definition WithRetries (cnt : Z) : SubscribeOptions -> SubscribeOptions := SubscribeContextWithValue subscribeRetriesCountKey (VInt cnt).
Definition WithQueueCapacity (cap : Z) : SubscribeOptions -> SubscribeOptions := SubscribeContextWithValue queueCapacityKey (VInt cap).
Definition WithMinBytes (n : Z) : SubscribeOptions -> SubscribeOptions := SubscribeContextWithValue minBytesKey (VInt n).
Definition WithMaxBytes (n : Z) : SubscribeOptions -> SubscribeOptions := SubscribeContextWithValue maxBytesKey (VInt n).
Definition WithMaxWait (d : Duration) : SubscribeOptions -> SubscribeOptions := SubscribeContextWithValue maxWaitKey (VDuration d).
Definition WithReadLagInterval (d : Duration) : SubscribeOptions -> SubscribeOptions := SubscribeContextWithValue readLagIntervalKey (VDuration d).
Definition WithHeartbeatInterval (d : Duration) : SubscribeOptions -> SubscribeOptions := SubscribeContextWithValue heartbeatIntervalKey (VDuration d).
Definition WithCommitInterval (d : Duration) : SubscribeOptions -> SubscribeOptions := SubscribeContextWithValue commitIntervalKey (VDuration d).
Definition WithPartitionWatchInterval (d : Duration) : SubscribeOptions -> SubscribeOptions := SubscribeContextWithValue partitionWatchIntervalKey (VDuration d).
Definition WithWatchPartitionChanges (enable : bool) : SubscribeOptions -> SubscribeOptions := SubscribeContextWithValue watchPartitionChangesKey (VBool enable).
Definition WithSessionTimeout (d : Duration) : SubscribeOptions -> SubscribeOptions := SubscribeContextWithValue sessionTimeoutKey (VDuration d).
Definition WithRebalanceTimeout (d : Duration) : SubscribeOptions -> SubscribeOptions := SubscribeContextWithValue rebalanceTimeoutKey (VDuration d).
Definition WithRetentionTime (d : Duration) : SubscribeOptions -> SubscribeOptions := SubscribeContextWithValue retentionTimeKey (VDuration d).
Definition WithStartOffset (offset : Z) : SubscribeOptions -> SubscribeOptions := SubscribeContextWithValue startOffsetKey (VInt64 offset).
Definition WithDialer (d : nat) : SubscribeOptions -> SubscribeOptions := SubscribeContextWithValue dialerConfigKey (VDialer d).
Definition WithPartition (n : Z) : SubscribeOptions -> SubscribeOptions := SubscribeContextWithValue partitionKey (VInt n).
Definition WithReadBatchTimeout (d : Duration) : SubscribeOptions -> SubscribeOptions := SubscribeContextWithValue readBatchTimeoutKey (VDuration d).
Definition WithReadBackoffMin (d : Duration) : SubscribeOptions -> SubscribeOptions := SubscribeContextWithValue readBackoffMin (VDuration d).
Definition WithReadBackoffMax (d : Duration) : SubscribeOptions -> SubscribeOptions := SubscribeContextWithValue readBackoffMax (VDuration d).
Definition WithSubscribeBatchSize (n : Z) : SubscribeOptions -> SubscribeOptions := SubscribeContextWithValue subscribeBatchSizeKey (VInt n).
Definition WithSubscribeBatchInterval (d : Duration) : SubscribeOptions -> SubscribeOptions := SubscribeContextWithValue subscribeBatchIntervalKey (VDuration d).
Definition WithSubscribeAutoCreateTopic (topic : string) (numPartitions replicationFactor : Z) : SubscribeOptions -> SubscribeOptions := SubscribeContextWithValue autoSubscribeCreateTopicKey (VCreateTopic topic numPartitions replicationFactor).

(** The type assertions of [ctx.Value(k).(T)]. *)
Definition as_int (v : option val) : option Z := match v with Some (VInt n) => Some n | _ => None end.
Definition as_int64 (v : option val) : option Z := match v with Some (VInt64 n) => Some n | _ => None end.
Definition as_dur (v : option val) : option Z := match v with Some (VDuration d) => Some d | _ => None end.
Definition as_bool (v : option val) : option bool := match v with Some (VBool b) => Some b | _ => None end.
(** A nil logger fails the assertion to the interface. *)
Definition as_logger (v : option val) : option logger := match v with Some (VLogger (Some n)) => Some (CallerLogger n) | _ => None end.

(** * [NewBroker] and [Init] *)

Record kafkaBroker := mkBroker {
  b_reader : ReaderConfig;
  b_writer : WriterConfig;
  b_sasl : option mechanism;
  b_addrs : list string;
  b_oneTopic : option bool;
  b_retries : Z
}.

Definition set_reader (f : reader_field) (v : Z) (c : ReaderConfig) : ReaderConfig :=
  mkReader (rc_Brokers c) (rc_GroupID c) (rc_Topic c) (rc_Dialer c) (rc_WatchPartitionChanges c) (rc_Logger c) (rc_ErrorLogger c)
    (fun g => if decide (g = f) then v else rc_num c g).
Definition set_writer (f : writer_field) (v : Z) (c : WriterConfig) : WriterConfig :=
  mkWriterConfig (wc_Brokers c) (wc_Balancer c) (wc_Async c) (wc_Logger c) (wc_ErrorLogger c) (wc_AllowAutoTopicCreation c) (wc_Completion c)
    (fun g => if decide (g = f) then v else wc_num c g).
Definition set_dialer (d : option nat) (c : ReaderConfig) : ReaderConfig :=
  mkReader (rc_Brokers c) (rc_GroupID c) (rc_Topic c) d (rc_WatchPartitionChanges c) (rc_Logger c) (rc_ErrorLogger c) (rc_num c).

Definition NewBroker : kafkaBroker :=
  mkBroker
    (mkReader [] "" "" None true NoLogger OwnErrorLogger (fun f => if decide (f = MaxWait) then 500 * Millisecond else 0))
    (mkWriterConfig [] LeastBytes true NoLogger OwnErrorLogger false None (fun f => if decide (f = BatchTimeout) then 10 * Millisecond else 0))
    None [] None defaultRetriesCount.

(** [func (b *kafkaBroker) Address() string] *)
Definition Address (b : kafkaBroker) : string := match b_addrs b with a :: _ => a | [] => defaultAddr end.

(** The addresses [Init] keeps. *)
Definition init_addrs (addrs : list string) : list string :=
  match filter (fun a => a <> "") addrs with [] => [defaultAddr] | l => l end.

(** The numeric settings of the writer [Init] reads, in its order. *)
Definition writer_settings : list (key * (option val -> option Z) * writer_field) :=
  [(batchSizeKey, as_int, BatchSize); (batchTimeoutKey, as_dur, BatchTimeout); (batchBytesKey, as_int64, BatchBytes);
   (maxAttemptsKey, as_int, WriterMaxAttempts); (readTimeoutKey, as_dur, ReadTimeout); (writeTimeoutKey, as_dur, WriteTimeout)].

Definition apply_writer (ctx : ctx_t) (c : WriterConfig) : WriterConfig :=
  foldl (fun c '(k, conv, f) => match conv (Value ctx k) with Some v => set_writer f v c | None => c end) c writer_settings.

(** The loggers: the caller's, then the switches. *)
Definition pick_logger (ctx : ctx_t) (k enable : key) (own : logger) (l : logger) : logger :=
  let l := default l (as_logger (Value ctx k)) in
  match as_bool (Value ctx enable) with Some true => own | Some false => NoLogger | None => l end.

(** The reader's dialer and the store of dialers: the package's default dialer when
    there is none, then the mechanism and TLS are written into it. *)
Definition init_dialer (sasl : option mechanism) (tls : option nat) (c : ReaderConfig) (ds : list Dialer) : option nat * list Dialer :=
  let d := default 0%nat (rc_Dialer c) in
  let ds := match sasl with
            | Some m => alter (fun x => mkDialer (d_Timeout x) (Some m) (d_TLS x)) d ds
            | None => ds
            end in
  let ds := match tls with
            | Some t => alter (fun x => mkDialer (d_Timeout x) (d_SASL x) (Some t)) d ds
            | None => ds
            end in
  (Some d, ds).

(** [func (b *kafkaBroker) Init(opts ...broker.Option) error], from the addresses,
    the TLS configuration (when the options ask for security) and the context of the
    broker's options with [opts] applied. *)
Definition Init (addrs : list string) (tls : option nat) (ctx : ctx_t) (b : kafkaBroker) (ds : list Dialer) : kafkaBroker * list Dialer :=
  let w := match Value ctx writerConfigKey with Some (VWriter c) => c | _ => b_writer b end in
  let sasl := match Value ctx mechanismKey with Some (VMechanism m) => Some m | _ => b_sasl b end in
  let addrs := init_addrs addrs in
  let r := match Value ctx readerConfigKey with
           | Some (VReader c) => c
           | _ => let r := b_reader b in
                  mkReader addrs (rc_GroupID r) (rc_Topic r) (rc_Dialer r) (rc_WatchPartitionChanges r) (rc_Logger r) (rc_ErrorLogger r) (rc_num r)
           end in
  let '(d, ds) := init_dialer sasl tls r ds in
  let r := mkReader (rc_Brokers r) (rc_GroupID r) (rc_Topic r) d (rc_WatchPartitionChanges r)
             (pick_logger ctx loggerKey enableLoggerKey OwnLogger (rc_Logger r))
             (pick_logger ctx errorLoggerKey enableErrorLoggerKey OwnErrorLogger (rc_ErrorLogger r)) (rc_num r) in
  let w := mkWriterConfig addrs (wc_Balancer w) (default (wc_Async w) (as_bool (Value ctx asyncKey)))
             (pick_logger ctx loggerKey enableLoggerKey OwnLogger (wc_Logger w))
             (pick_logger ctx errorLoggerKey enableErrorLoggerKey OwnErrorLogger (wc_ErrorLogger w))
             (default (wc_AllowAutoTopicCreation w) (as_bool (Value ctx allowPublishAutoTopicCreationKey)))
             (match Value ctx completionKey with Some (VFunc f) => Some f | _ => wc_Completion w end) (wc_num w) in
  (mkBroker r (apply_writer ctx w) sasl addrs (Some (default true (as_bool (Value ctx enableOneTopicOneWriterKey))))
     (default (b_retries b) (as_int (Value ctx retriesCountKey))), ds).

(** [func (b *kafkaBroker) Connect() error]: what it does to the configuration. *)
Definition Connect (b : kafkaBroker) : option error * kafkaBroker :=
  match b_addrs b with
  | [] => (Some (Errorf "no available brokers"), b)
  | addrs =>
      let r := b_reader b in
      (None, mkBroker (mkReader addrs (rc_GroupID r) (rc_Topic r) (rc_Dialer r) (rc_WatchPartitionChanges r) (rc_Logger r) (rc_ErrorLogger r) (rc_num r))
               (b_writer b) (b_sasl b) addrs (b_oneTopic b) (b_retries b))
  end.

(** [func (b *kafkaBroker) initPublishOption], and [CreateProducer]: the writer's
    settings, with SASL and TLS of its transport. *)
Definition initPublishOption (ctx : ctx_t) (bal : balancer) : balancer :=
  match Value ctx balancerKey with Some (VBalancer b) => b | _ => bal end.
Record producer := mkProducer { pr_config : WriterConfig; pr_SASL : option mechanism; pr_TLS : option nat }.
Definition CreateProducer (c : WriterConfig) (sasl : option mechanism) (tls : option nat) : producer := mkProducer c sasl tls.

(** * [Subscribe] *)

(** The numeric settings [Subscribe] reads, in its order. *)
Definition reader_settings : list (key * (option val -> option Z) * reader_field) :=
  [(queueCapacityKey, as_int, QueueCapacity); (minBytesKey, as_int, MinBytes); (maxBytesKey, as_int, MaxBytes);
   (maxWaitKey, as_dur, MaxWait); (readLagIntervalKey, as_dur, ReadLagInterval); (heartbeatIntervalKey, as_dur, HeartbeatInterval);
   (commitIntervalKey, as_dur, CommitInterval); (partitionWatchIntervalKey, as_dur, PartitionWatchInterval);
   (sessionTimeoutKey, as_dur, SessionTimeout); (rebalanceTimeoutKey, as_dur, RebalanceTimeout);
   (retentionTimeKey, as_dur, RetentionTime); (startOffsetKey, as_int64, StartOffset); (maxAttemptsKey, as_int, ReaderMaxAttempts);
   (partitionKey, as_int, Partition); (readBatchTimeoutKey, as_dur, ReadBatchTimeout); (readBackoffMin, as_dur, ReadBackoffMin);
   (readBackoffMax, as_dur, ReadBackoffMax)].

Definition apply_reader (ctx : ctx_t) (c : ReaderConfig) : ReaderConfig :=
  foldl (fun c '(k, conv, f) => match conv (Value ctx k) with Some v => set_reader f v c | None => c end) c reader_settings.

(** What [Subscribe] starts: the reader's configuration, the topic it tries to create,
    and the subscriber's batch size and interval. *)
Record subscription := mkSubscription {
  s_reader : ReaderConfig;
  s_create : option (string * string * Z * Z);
  s_batchSize : Z;
  s_batchInterval : Duration
}.

(** [func (b *kafkaBroker) Subscribe]: [bctx] is the context of the broker's options,
    [newID] the generated queue name. *)
Definition Subscribe (bctx : ctx_t) (newID topic : string) (opts : list (SubscribeOptions -> SubscribeOptions)) (b : kafkaBroker)
    (ds : list Dialer) : subscription * list Dialer :=
  let options := apply_opts opts (mkSubscribeOptions [] newID) in
  let r := b_reader b in
  let r := mkReader (rc_Brokers r) (so_Queue options) topic (Some (default 0%nat (rc_Dialer r)))
             (default (rc_WatchPartitionChanges r) (as_bool (Value bctx watchPartitionChangesKey))) (rc_Logger r) (rc_ErrorLogger r) (rc_num r) in
  let r := apply_reader bctx r in
  let r := match Value bctx dialerConfigKey with Some (VDialer d) => set_dialer (Some d) r | _ => r end in
  let ds := match as_dur (Value bctx dialerTimeoutKey), rc_Dialer r with
            | Some t, Some d => alter (fun x => mkDialer t (d_SASL x) (d_TLS x)) d ds
            | _, _ => ds
            end in
  (mkSubscription r
     (match Value (so_Context options) autoSubscribeCreateTopicKey with
      | Some (VCreateTopic t n f) => Some (Address b, t, n, f)
      | _ => None
      end)
     (default 0 (as_int (Value (so_Context options) subscribeBatchSizeKey)))
     (default 0 (as_dur (Value (so_Context options) subscribeBatchIntervalKey))), ds).

(** * Properties *)

Section tables.
Context {C F : Type} `{EqDecision F} (num : C -> F -> Z) (set : F -> Z -> C -> C).
Context (num_set : forall f v c g, num (set f v c) g = if decide (g = f) then v else num c g).

Definition apply_table (ctx : ctx_t) (table : list (key * (option val -> option Z) * F)) (c : C) : C :=
  foldl (fun c '(k, conv, f) => match conv (Value ctx k) with Some v => set f v c | None => c end) c table.

Lemma apply_table_other ctx table c f : f ∉ map snd table -> num (apply_table ctx table c) f = num c f.
Proof.
  revert c. induction table as [|[[k conv] g] table IH]; intros c Hf; [done|]. simpl in *. rewrite elem_of_cons in Hf.
  rewrite IH by tauto. destruct (conv (Value ctx k)); [|done]. rewrite num_set, decide_False by tauto. done.
Qed.

(** A table of settings gives each field the value of its key, if the context has
    one of the right type. *)
Lemma apply_table_field ctx table c k conv f : NoDup (map snd table) -> (k, conv, f) ∈ table ->
  num (apply_table ctx table c) f = default (num c f) (conv (Value ctx k)).
Proof.
  revert c. induction table as [|[[k' conv'] g] table IH]; intros c Hnd Hin; [by apply elem_of_nil in Hin|].
  simpl in *. apply NoDup_cons in Hnd as [Hg Hnd]. apply elem_of_cons in Hin as [[= <- <- <-]|Hin].
  - rewrite apply_table_other by done. destruct (conv (Value ctx k)); [|done]. by rewrite num_set, decide_True.
  - rewrite IH by done. destruct (conv' (Value ctx k')); [|done]. rewrite num_set, decide_False; [done|].
    intros ->. apply Hg, list_elem_of_fmap. by exists (k, conv, g).
Qed.
End tables.

Lemma writer_settings_nodup : NoDup (map snd writer_settings).
Proof. apply (bool_decide_unpack _). by vm_compute. Qed.
Lemma reader_settings_nodup : NoDup (map snd reader_settings).
Proof. apply (bool_decide_unpack _). by vm_compute. Qed.

(** The fold changes the numeric fields only, and only by them. *)
Lemma apply_writer_keeps ctx c : wc_Brokers (apply_writer ctx c) = wc_Brokers c.
Proof.
  unfold apply_writer. generalize writer_settings as l. intros l. revert c. induction l as [|[[k conv] f] l IH]; intros c; [done|].
  simpl. rewrite IH. by destruct (conv (Value ctx k)).
Qed.
Lemma apply_writer_num ctx c c' : wc_num c = wc_num c' -> wc_num (apply_writer ctx c) = wc_num (apply_writer ctx c').
Proof.
  unfold apply_writer. generalize writer_settings as l. intros l. revert c c'. induction l as [|[[k conv] f] l IH]; intros c c' Hc; [done|].
  simpl. apply IH. destruct (conv (Value ctx k)); [|done]. simpl. by rewrite Hc.
Qed.
Lemma subscribe_num bctx newID topic opts b ds :
  rc_num (s_reader (fst (Subscribe bctx newID topic opts b ds))) =
  rc_num (apply_reader bctx (mkReader (rc_Brokers (b_reader b)) (so_Queue (apply_opts opts (mkSubscribeOptions [] newID))) topic
    (Some (default 0%nat (rc_Dialer (b_reader b)))) (default (rc_WatchPartitionChanges (b_reader b)) (as_bool (Value bctx watchPartitionChangesKey)))
    (rc_Logger (b_reader b)) (rc_ErrorLogger (b_reader b)) (rc_num (b_reader b)))).
Proof. unfold Subscribe. cbn [fst s_reader]. by destruct (Value bctx dialerConfigKey) as [[]|]. Qed.

Lemma init_addrs_ok addrs : init_addrs addrs <> [] /\ Forall (fun a => a <> "") (init_addrs addrs).
Proof.
  unfold init_addrs. destruct (filter (fun a => a <> "") addrs) as [|a l] eqn:E.
  - split; [done|]. by repeat constructor.
  - split; [done|]. rewrite <-E. apply Forall_forall. intros x Hx. by apply list_elem_of_filter in Hx as [].
Qed.

(** The driver's configuration.  After [Init] the addresses are the ones given
    that are not empty, or the default one, for the writer and for the broker; each
    numeric setting of the writer is the value of its option, the last one given, or
    what the base configuration has.  A subscription's reader takes each of its
    settings from the options of the broker alone: the options given to [Subscribe]
    change only the group, whatever settings they carry. *)
Theorem kafka_configuration addrs tls ctx b ds :
  let b' := fst (Init addrs tls ctx b ds) in
  b_addrs b' = init_addrs addrs /\ b_addrs b' <> [] /\ Forall (fun a => a <> "") (b_addrs b') /\ wc_Brokers (b_writer b') = b_addrs b' /\
  (forall k conv f, (k, conv, f) ∈ writer_settings ->
     wc_num (b_writer b') f =
       default (wc_num (match Value ctx writerConfigKey with Some (VWriter c) => c | _ => b_writer b end) f) (conv (Value ctx k))) /\
  forall bctx newID topic opts ds', let s := fst (Subscribe bctx newID topic opts b' ds') in
    (forall k conv f, (k, conv, f) ∈ reader_settings ->
       rc_num (s_reader s) f = default (rc_num (b_reader b') f) (conv (Value bctx k))) /\
    forall opts', so_Queue (apply_opts opts' (mkSubscribeOptions [] newID)) = so_Queue (apply_opts opts (mkSubscribeOptions [] newID)) ->
      s_reader (fst (Subscribe bctx newID topic opts' b' ds')) = s_reader s.
Proof.
  intros b'. assert (b_addrs b' = init_addrs addrs /\ wc_Brokers (b_writer b') = init_addrs addrs /\
    wc_num (b_writer b') = wc_num (apply_writer ctx (match Value ctx writerConfigKey with Some (VWriter c) => c | _ => b_writer b end))) as (Ha&Hb&Hn).
  { subst b'. unfold Init. destruct (init_dialer _ _ _ _) as [d ds']. cbn [fst b_addrs b_writer]. split_and!; [done| |].
    - apply apply_writer_keeps.
    - by apply apply_writer_num. }
  rewrite Ha. split_and!; [done|apply init_addrs_ok|apply init_addrs_ok|done| |].
  - intros k conv f Hin. rewrite Hn. apply (apply_table_field wc_num set_writer); [done|apply writer_settings_nodup|done].
  - intros bctx newID topic opts ds' s. split.
    + intros k conv f Hin. subst s. rewrite subscribe_num.
      etransitivity; [apply (apply_table_field rc_num set_reader); [done|apply reader_settings_nodup|done]|done].
    + intros opts' Hq. subst s. unfold Subscribe. cbn [fst s_reader]. by rewrite Hq.
Qed.

(** The default dialer is one object of the process: the credentials one broker puts
    there are used by a broker that has none. *)
Example kafka_shared_dialer :
  let ds := [mkDialer (10 * Second) None None] in
  let '(a, ds) := Init ["a:9092"] None [(mechanismKey, VMechanism (Plain "alice" "secret"))] NewBroker ds in
  let '(b, ds) := Init ["b:9092"] None [] NewBroker ds in
  b_sasl b = None /\ rc_Dialer (b_reader b) = Some 0%nat /\ d_SASL <$> ds !! 0%nat = Some (Some (Plain "alice" "secret")).
Proof. vm_compute. done. Qed.

(** A subscribe option of the driver, such as the least number of bytes to fetch, is
    not read. *)
Example kafka_min_bytes_ignored :
  let '(b, ds) := Init ["a:9092"] None [] NewBroker [mkDialer (10 * Second) None None] in
  rc_num (s_reader (fst (Subscribe [] "q" "t" [WithMinBytes 1024] b ds))) MinBytes = 0.
Proof. vm_compute. reflexivity. Qed.

(** A reader configuration given as an option loses the addresses until [Connect]. *)
Example kafka_reader_config_addresses (c : ReaderConfig) :
  let b := fst (Init ["a:9092"] None [(readerConfigKey, VReader c)] NewBroker [mkDialer (10 * Second) None None]) in
  rc_Brokers (b_reader b) = rc_Brokers c /\ rc_Brokers (b_reader (snd (Connect b))) = ["a:9092"].
Proof. done. Qed.
