(* ===== verification/Config.v ===== *)
(** [config]: the source contract ([config.go]) and the fallback combinator
    ([fallback.go]).

    A source is what it implements of [Reader], [Closer] and [ValueWatcher]; its
    answers depend on a world [W] that changes between calls.  The goroutines of
    [WatchValue] are interleaved steps. *)
From Stdlib Require Import ZArith Lia Ascii.
From S2P Require Import Prelude GoErrors NetPacket.
From stdpp Require Import base gmap strings list fin_maps pretty.
Open Scope string_scope.
Open Scope list_scope.

(** [strconv.Quote], the [%q] of package [fmt]: quotes and backslashes are escaped,
    the control characters by letter or number.  Bytes above 127 are kept, as
    those of a printable character of UTF-8 are; a key with others differs in
    this text only. *)
Definition hex_digit (n : nat) : ascii := ascii_of_nat (if (n <? 10)%nat then 48 + n else 87 + n).
Definition quote_char (c : ascii) : string :=
  match nat_of_ascii c with
  | 7%nat => "\a" | 8%nat => "\b" | 9%nat => "\t" | 10%nat => "\n" | 11%nat => "\v" | 12%nat => "\f" | 13%nat => "\r" | 92%nat => "\\"
  | 34%nat => String (ascii_of_nat 92) (String c "")
  | n => if ((n <? 32) || (n =? 127))%nat
         then ("\x" ++ String (hex_digit (n / 16)) (String (hex_digit (n mod 16)) ""))%string
         else String c ""
  end.
Definition quote (key : string) : string :=
  String (ascii_of_nat 34) (fold_right (fun c s => quote_char c ++ s)%string "" (String.list_ascii_of_string key) ++ String (ascii_of_nat 34) "").

Example quote_escapes :
  quote ("a\b" ++ String (ascii_of_nat 34) (String (ascii_of_nat 10) (String (ascii_of_nat 1) ""))) =
    String (ascii_of_nat 34) ("a\\b\" ++ String (ascii_of_nat 34) ("\n\x01" ++ String (ascii_of_nat 34) "")).
Proof. reflexivity. Qed.

Section config.
Context {W : Type}.

(** [type Reader interface], [Closer] and [ValueWatcher]: the optional interfaces
    are [None] when the source does not implement them.  [Load] returns data
    (nil is [None]) and an error; a watch is the channel it returns, by number,
    or an error. *)
Record Source := mkSource {
  src_Load : W -> string -> option bytes * option error;
  src_Close : option (option error);
  src_WatchValue : option (string -> option nat + error)
}.

(** [func NewFallbackReader(readers ...Reader) ( *FallbackReader, error)] *)
Definition NewFallbackReader (readers : list Source) : list Source + error :=
  if (length readers =? 0)%nat then inr (Errorf "fallback: at least one reader is required") else inl readers.

(** [func (f *FallbackReader) Load]: the loop with the errors so far. *)
Fixpoint load_loop (w : W) (key : string) (readers : list Source) (errs : list error) : option bytes * option error :=
  match readers with
  | [] =>
      if (0 <? length errs)%nat then (None, errors_Join (map Some errs))
      else (None, Some (Errorf ("fallback: no source could resolve key " ++ quote key)))
  | r :: readers' =>
      match src_Load r w key with
      | (Some data, None) => (Some data, None)
      | (_, Some err) => load_loop w key readers' (errs ++ [err])
      | (None, None) => load_loop w key readers' errs
      end
  end.

Definition Load (readers : list Source) (w : W) (key : string) : option bytes * option error := load_loop w key readers [].

(** [func (f *FallbackReader) Close() error] *)
Definition Close (readers : list Source) : option error :=
  errors_Join (omap (fun r => match src_Close r with
                              | Some (Some err) => Some (Some err)
                              | _ => None
                              end) readers).

(** The first half of [WatchValue]: the channels of the sources that watch. *)
Fixpoint open_watches (ws : list (string -> option nat + error)) (key : string) : list nat + error :=
  match ws with
  | [] => inl []
  | watch :: ws' =>
      match watch key with
      | inr err => inr (Wrapf "fallback: sub-source WatchValue failed: " err)
      | inl ch =>
          match open_watches ws' key with
          | inr err => inr err
          | inl subs => inl (option_list ch ++ subs)
          end
      end
  end.

Definition WatchValue_start (readers : list Source) (key : string) : list nat + error :=
  match omap src_WatchValue readers with
  | [] => inr (Errorf "fallback: none of the sub-sources implement ValueWatcher")
  | watchers =>
      match open_watches watchers key with
      | inr err => inr err
      | inl [] => inr (Errorf "fallback: all sub-source WatchValue returned nil channels")
      | inl subs => inl subs
      end
  end.

(** A fallback reader is itself a source. *)
Definition as_source (watch : list Source -> string -> option nat + error) (readers : list Source) : Source :=
  mkSource (Load readers) (Some (Close readers)) (Some (watch readers)).

(** * The forwarding goroutines *)

(** One goroutine per channel: waiting, holding an effective value to send, or
    returned. *)
Inductive forwarder := Waiting | Holding (v : bytes) | Gone.

(** The goroutines, the output channel (capacity one), whether it is closed, and
    the history: the effective values each goroutine read, those it sent, and
    those the consumer received. *)
Record Watch := mkWatch {
  forwarders : list forwarder;
  out : list bytes;
  out_closed : bool;
  loads : list (nat * bytes);
  sends : list (nat * bytes);
  received : list bytes
}.

Definition start_watch (subs : list nat) : Watch := mkWatch (map (fun _ => Waiting) subs) [] false [] [] [].

(** What can happen: a notification on a goroutine's channel while the world is
    [w]; the end of its channel; its send; the context's end; the close of the
    output after all have returned; a receive by the consumer. *)
Inductive event :=
| Notify (i : nat) (w : W)
| SubClosed (i : nat)
| SendOut (i : nat)
| CtxDone (i : nat)
| CloseOut
| Receive.

Definition is_gone (f : forwarder) : bool := match f with Gone => true | _ => false end.

(** [None] when the event cannot happen now; a send on the closed channel is the
    panic [Some None]. *)
Definition step (readers : list Source) (key : string) (e : event) (s : Watch) : option (option Watch) :=
  let set i f := <[i := f]> (forwarders s) in
  match e with
  | Notify i w =>
      match forwarders s !! i with
      | Some Waiting =>
          match Load readers w key with
          | (Some v, None) =>
              Some (Some (mkWatch (set i (Holding v)) (out s) (out_closed s) (loads s ++ [(i, v)]) (sends s) (received s)))
          | _ => Some (Some s)
          end
      | _ => None
      end
  | SubClosed i =>
      match forwarders s !! i with
      | Some Waiting => Some (Some (mkWatch (set i Gone) (out s) (out_closed s) (loads s) (sends s) (received s)))
      | _ => None
      end
  | SendOut i =>
      match forwarders s !! i with
      | Some (Holding v) =>
          if out_closed s then Some None
          else if (length (out s) <? 1)%nat
          then Some (Some (mkWatch (set i Waiting) (out s ++ [v]) (out_closed s) (loads s) (sends s ++ [(i, v)]) (received s)))
          else None
      | _ => None
      end
  | CtxDone i =>
      match forwarders s !! i with
      | Some Waiting | Some (Holding _) =>
          Some (Some (mkWatch (set i Gone) (out s) (out_closed s) (loads s) (sends s) (received s)))
      | _ => None
      end
  | CloseOut =>
      if forallb is_gone (forwarders s) && negb (out_closed s)
      then Some (Some (mkWatch (forwarders s) (out s) true (loads s) (sends s) (received s)))
      else None
  | Receive =>
      match out s with
      | v :: o => Some (Some (mkWatch (forwarders s) o (out_closed s) (loads s) (sends s) (received s ++ [v])))
      | [] => None
      end
  end.

(** Runs of the goroutines; [Some None] once one panicked. *)
Fixpoint run_watch (readers : list Source) (key : string) (es : list event) (s : Watch) : option (option Watch) :=
  match es with
  | [] => Some (Some s)
  | e :: es' =>
      match step readers key e s with
      | None => None
      | Some None => Some None
      | Some (Some s') => run_watch readers key es' s'
      end
  end.
End config.
Arguments Source : clear implicits.

(** * Properties *)

Section config_facts.
Context {W : Type}.
Implicit Types (r : Source W) (readers : list (Source W)) (s : Watch).

(** What a source contributes to a load. *)
Definition resolved (w : W) (key : string) r : option bytes :=
  match src_Load r w key with
  | (Some data, None) => Some data
  | _ => None
  end.
Definition failure (w : W) (key : string) r : option error := snd (src_Load r w key).

Lemma errors_Join_all es : errors_Join (map Some es) = match es with [] => None | _ => Some (Joined es) end.
Proof.
  unfold errors_Join. assert (omap id (map Some es) = es) as ->; [|by destruct es].
  induction es as [|x es IH]; [done|]. cbn. f_equal. exact IH.
Qed.

Lemma load_loop_spec w key readers errs :
  load_loop w key readers errs =
    match head (omap (resolved w key) readers) with
    | Some data => (Some data, None)
    | None =>
        (None, Some (match errs ++ omap (failure w key) readers with
                     | [] => Errorf ("fallback: no source could resolve key " ++ quote key)
                     | es => Joined es
                     end))
    end.
Proof.
  revert errs. induction readers as [|r readers IH]; intros errs; cbn [load_loop].
  - cbn [omap list_omap head]. rewrite app_nil_r, errors_Join_all. by destruct errs.
  - cbn [omap list_omap]. unfold resolved at 1, failure at 1. destruct (src_Load r w key) as [[data|] [err|]]; simpl; rewrite ?IH; try done;
      by rewrite <- app_assoc.
Qed.

(** C32: [Load] answers with the first source, in the order of priority, that
    returns data without an error; when there is none it fails, with the errors
    of all the sources in order, or with its own when none of them had one.
    Fallback readers compose: as a source of another one, a fallback reader
    yields the data its own sources would yield in its place. *)
Theorem config_fallback readers watch w key :
  Load readers w key =
    match head (omap (resolved w key) readers) with
    | Some data => (Some data, None)
    | None =>
        (None, Some (match omap (failure w key) readers with
                     | [] => Errorf ("fallback: no source could resolve key " ++ quote key)
                     | es => Joined es
                     end))
    end /\
  forall before after,
    fst (Load (before ++ as_source watch readers :: after) w key) = fst (Load (before ++ readers ++ after) w key).
Proof.
  unfold Load. split; [by rewrite load_loop_spec|]. intros before after.
  assert (omap (resolved w key) [as_source watch readers] = option_list (head (omap (resolved w key) readers))) as E.
  { simpl. unfold resolved at 1. simpl. unfold Load. rewrite load_loop_spec. by destruct (head _). }
  rewrite !load_loop_spec, (cons_middle (as_source watch readers)), !omap_app, E.
  destruct (omap (resolved w key) before) as [|d ds]; [|done]. simpl.
  destruct (omap (resolved w key) readers) as [|d ds]; simpl; [by case_match|done].
Qed.

(** ** Watching *)

(** The values of one goroutine in a history. *)
Definition by_forwarder (i : nat) (h : list (nat * bytes)) : list bytes :=
  omap (fun '(j, v) => if decide (j = i) then Some v else None) h.

Definition in_hand (f : option forwarder) : list bytes := match f with Some (Holding v) => [v] | _ => [] end.

Record watch_ok s : Prop := {
  wo_closed : out_closed s = true -> forallb is_gone (forwarders s) = true;
  wo_cap : (length (out s) <= 1)%nat;
  wo_fifo : received s ++ out s = map snd (sends s);
  wo_order : forall i, exists lost,
    by_forwarder i (sends s) ++ lost ++ in_hand (forwarders s !! i) = by_forwarder i (loads s) /\
    (forwarders s !! i <> Some Gone -> lost = [])
}.

Lemma by_forwarder_snoc i h j v : by_forwarder i (h ++ [(j, v)]) = by_forwarder i h ++ (if decide (j = i) then [v] else []).
Proof. unfold by_forwarder. rewrite omap_app. simpl. by case_decide. Qed.

Lemma gone_lookup fs i f : forallb is_gone fs = true -> fs !! i = Some f -> f = Gone.
Proof.
  intros H Hi. rewrite forallb_forall in H. apply list_elem_of_lookup_2 in Hi.
  specialize (H f ltac:(by apply list_elem_of_In)). by destruct f.
Qed.

(** Changing one goroutine's state, with the histories that go with it. *)
Lemma watch_ok_set s i f f' o ls ss rv :
  watch_ok s -> forwarders s !! i = Some f -> f <> Gone -> (length o <= 1)%nat -> rv ++ o = map snd ss ->
  (forall j, j <> i -> by_forwarder j ss = by_forwarder j (sends s) /\ by_forwarder j ls = by_forwarder j (loads s)) ->
  (exists lost, by_forwarder i ss ++ lost ++ in_hand (Some f') = by_forwarder i ls /\ (f' <> Gone -> lost = [])) ->
  watch_ok (mkWatch (<[i := f']> (forwarders s)) o (out_closed s) ls ss rv).
Proof.
  intros [Hc Hcap Hf Ho] Hi Hg Hlen Hfifo Hother Hown. split; cbn [forwarders out out_closed loads sends received]; auto.
  - intros Hcl. destruct Hg. eapply gone_lookup; eauto.
  - intros j. destruct (decide (j = i)) as [->|Hne].
    + rewrite list_lookup_insert_eq by (by eapply lookup_lt_Some). destruct Hown as (lost&E&H).
      exists lost. split; [done|]. intros H'. apply H. congruence.
    + rewrite list_lookup_insert_ne by done. destruct (Hother j Hne) as [-> ->]. apply Ho.
Qed.

Lemma step_ok readers key e s o : watch_ok s -> step readers key e s = Some o -> exists s1, o = Some s1 /\ watch_ok s1.
Proof.
  intros Hs H. pose proof Hs as [Hc Hcap Hf Ho]. destruct e as [i w|i|i|i| |]; cbn [step] in H.
  - destruct (forwarders s !! i) as [[| |]|] eqn:Hi; try done.
    destruct (Load readers w key) as [[v|] [err|]]; simplify_eq; try by eexists.
    eexists. split; [done|]. apply (watch_ok_set s i Waiting); auto; try done.
    + intros j Hne. rewrite by_forwarder_snoc, decide_False, app_nil_r by congruence. done.
    + destruct (Ho i) as (lost&E&Hl). rewrite Hi in E, Hl. rewrite (Hl ltac:(done)) in E. simpl in E. rewrite app_nil_r in E.
      exists []. rewrite by_forwarder_snoc, decide_True by done. by rewrite E.
  - destruct (forwarders s !! i) as [[| |]|] eqn:Hi; try done. simplify_eq. eexists. split; [done|].
    apply (watch_ok_set s i Waiting); auto; try done. destruct (Ho i) as (lost&E&Hl). rewrite Hi in E. by exists lost.
  - destruct (forwarders s !! i) as [[|v|]|] eqn:Hi; try done. destruct (out_closed s) eqn:Ecl.
    { by pose proof (gone_lookup _ _ _ (Hc eq_refl) Hi). }
    destruct (Nat.ltb_spec (length (out s)) 1); simplify_eq. rewrite <- Ecl. eexists. split; [done|].
    apply (watch_ok_set s i (Holding v)); auto; try done; [rewrite length_app; simpl; lia| | |].
    + rewrite app_assoc, Hf, map_app. done.
    + intros j Hne. rewrite by_forwarder_snoc, decide_False, app_nil_r by congruence. done.
    + destruct (Ho i) as (lost&E&Hl). rewrite Hi in E, Hl. rewrite (Hl ltac:(done)) in E. simpl in E.
      exists []. rewrite by_forwarder_snoc, decide_True by done. simpl. by rewrite app_nil_r.
  - destruct (Ho i) as (lost&E&Hl). destruct (forwarders s !! i) as [[|v|]|] eqn:Hi; try done; simplify_eq; (eexists; split; [done|]).
    + apply (watch_ok_set s i Waiting); auto; try done. by exists lost.
    + apply (watch_ok_set s i (Holding v)); auto; try done. simpl in E. exists (lost ++ [v]). simpl. by rewrite app_nil_r.
  - destruct (forallb is_gone (forwarders s) && negb (out_closed s)) eqn:E; simplify_eq. apply andb_prop in E as [E _].
    eexists. split; [done|]. by split.
  - destruct (out s) as [|v vs] eqn:Eo; simplify_eq. eexists. split; [done|]. split; simpl in *; auto; [lia|].
    by rewrite <- app_assoc.
Qed.

Lemma start_watch_ok subs : watch_ok (start_watch subs).
Proof.
  split; simpl; auto; try done; try lia. intros i. exists []. split; [|done]. simpl.
  rewrite list_lookup_fmap. by destruct (subs !! i).
Qed.

(** However notifications, sends, ends of channels, cancellations and
    receives interleave, the merged watch never sends on its closed channel; it is
    closed only after every goroutine returned; the consumer receives exactly the
    values sent, in order; and each goroutine sends the effective values it read
    after its notifications, in order and without gaps, up to the one a
    cancellation interrupted. *)
Theorem config_watch readers key subs es :
  match run_watch readers key es (start_watch subs) with
  | None => True
  | Some None => False
  | Some (Some s) =>
      (out_closed s = true -> forallb is_gone (forwarders s) = true) /\
      received s ++ out s = map snd (sends s) /\ (length (out s) <= 1)%nat /\
      (forall i, by_forwarder i (sends s) `prefix_of` by_forwarder i (loads s)) /\
      (forall i, forwarders s !! i = Some Waiting -> by_forwarder i (sends s) = by_forwarder i (loads s))
  end.
Proof.
  cut (forall s0, watch_ok s0 ->
    match run_watch readers key es s0 with None => True | Some None => False | Some (Some s) => watch_ok s end).
  { intros H. specialize (H _ (start_watch_ok subs)). destruct (run_watch _ _ _ _) as [[s|]|]; auto.
    destruct H as [Hc Hcap Hf Ho]. split_and!; auto.
    - intros i. destruct (Ho i) as (lost&E&_). by eexists.
    - intros i Hi. destruct (Ho i) as (lost&E&Hl). rewrite Hi in E, Hl. rewrite (Hl ltac:(done)) in E. simpl in E.
      by rewrite app_nil_r in E. }
  induction es as [|e es IH]; intros s0 H0; [done|]. cbn [run_watch].
  destruct (step readers key e s0) as [o|] eqn:E; [|done]. destruct (step_ok _ _ _ _ _ H0 E) as (s1&->&H1). by apply IH.
Qed.
End config_facts.
