(* ===== verification/ConfigSources.v ===== *)
(** The configuration sources: [config/env], [config/fs], [config/file],
    [config/http], [config/oss], [config/redis], [config/kubernetes] and
    [config/nacos].

    Each watching source runs one goroutine that takes events (a poll, a file
    event, a message), decides, and sends on a channel of capacity 1 until its
    context ends: the machine [Pump], with a decision function per source.  What
    the servers and the file system answer is part of the events. *)
From Stdlib Require Import ZArith Lia Ascii.
From S2P Require Import Prelude GoErrors GoTime GoStrings NetPacket Config.
From stdpp Require Import base gmap strings list fin_maps.
Open Scope string_scope.
Open Scope list_scope.

Abbreviation chars := String.list_ascii_of_string.

(** A [[]byte] that may be nil. *)
Abbreviation value := (option bytes).

(** * The watching goroutine *)

(** The decision of one round: continue, send, or return. *)
Inductive action := Skip | Push (v : value) | Exit.
(** In the outer select, in the select that sends, or returned, the channel closed. *)
Inductive phase := Idle | Sending (v : value) | Ended.

Section pump.
Context {St Ev : Type} (on_event : Ev -> St -> St * action).

Record Pump := mkPump {
  st : St;
  ph : phase;
  ch : list value;
  ctx_done : bool;
  received : list value;
  taken : list Ev
}.
Definition new_pump (s : St) : Pump := mkPump s Idle [] false [] [].

Inductive step_label := PEvent (e : Ev) | PSend | PLeave | PRead | PCancel.
Definition pump_step (l : step_label) (p : Pump) : option Pump :=
  match l with
  | PEvent e =>
      match ph p with
      | Idle =>
          let '(s, a) := on_event e (st p) in
          Some (mkPump s (match a with Skip => Idle | Push v => Sending v | Exit => Ended end) (ch p) (ctx_done p) (received p) (taken p ++ [e]))
      | _ => None
      end
  | PSend =>
      match ph p, ch p with
      | Sending v, [] => Some (mkPump (st p) Idle [v] (ctx_done p) (received p) (taken p))
      | _, _ => None
      end
  | PLeave =>
      match ph p with
      | Ended => None
      | _ => if ctx_done p then Some (mkPump (st p) Ended (ch p) true (received p) (taken p)) else None
      end
  | PRead =>
      match ch p with
      | v :: vs => Some (mkPump (st p) (ph p) vs (ctx_done p) (received p ++ [v]) (taken p))
      | [] => None
      end
  | PCancel => Some (mkPump (st p) (ph p) (ch p) true (received p) (taken p))
  end.
Fixpoint pump_run (ls : list step_label) (p : Pump) : option Pump :=
  match ls with
  | [] => Some p
  | l :: ls' => p' ← pump_step l p; pump_run ls' p'
  end.

(** The values a list of events makes the goroutine send, and its state after. *)
Fixpoint outputs (es : list Ev) (s : St) : list value * St :=
  match es with
  | [] => ([], s)
  | e :: es' =>
      let '(s', a) := on_event e s in
      let '(vs, s'') := outputs es' s' in
      (match a with Push v => v :: vs | _ => vs end, s'')
  end.

Lemma outputs_snoc es e s :
  outputs (es ++ [e]) s =
  let '(vs, s') := outputs es s in
  let '(s'', a) := on_event e s' in (vs ++ match a with Push v => [v] | _ => [] end, s'').
Proof.
  revert s. induction es as [|e' es IH]; intros s; simpl.
  - destruct (on_event e s) as [s' []]; done.
  - destruct (on_event e' s) as [s1 a1]. rewrite IH. destruct (outputs es s1) as [vs s2].
    destruct (on_event e s2) as [s3 a3]. by destruct a1.
Qed.

(** What is held by the goroutine; a goroutine that left may have dropped one. *)
Definition held (p : Pump) : list value := match ph p with Sending v => [v] | _ => [] end.

Definition pump_ok (s0 : St) (p : Pump) : Prop :=
  st p = snd (outputs (taken p) s0) /\ (length (ch p) <= 1)%nat /\
  exists dropped, fst (outputs (taken p) s0) = received p ++ ch p ++ held p ++ dropped /\
    (length dropped <= 1)%nat /\ (dropped <> [] -> ph p = Ended /\ ctx_done p = true).

Lemma pump_step_ok s0 l p p' : pump_ok s0 p -> pump_step l p = Some p' -> pump_ok s0 p'.
Proof.
  intros (Hs&Hc&d&Ho&Hd&Hd'). unfold pump_ok. destruct l as [e| | | |]; simpl.
  - destruct (ph p) eqn:Ep; try done. destruct (on_event e (st p)) as [s a] eqn:Ea. intros [= <-]. simpl.
    rewrite outputs_snoc. destruct (outputs (taken p) s0) as [vs s1] eqn:Eo. simpl in *. subst s1. rewrite Ea. simpl.
    assert (d = []) as -> by (destruct d; [done|]; by destruct Hd').
    split_and!; [done|done|]. unfold held in *. rewrite Ep in Ho. rewrite Ho, !app_nil_r. simpl.
    exists []. rewrite !app_nil_r. split_and!; try (simpl; lia); try done. destruct a; by rewrite <-?app_assoc, ?app_nil_r.
  - destruct (ph p) as [|v|] eqn:Ep; try done. destruct (ch p) eqn:Ec; try done. intros [= <-]. simpl.
    unfold held in Ho. rewrite Ep in Ho. split_and!; [done|lia|]. exists d. split_and!; [|done|].
    + rewrite Ho. done.
    + intros [? ?]%Hd'. done.
  - intros Hl. assert (ph p <> Ended /\ ctx_done p = true /\ p' = mkPump (st p) Ended (ch p) true (received p) (taken p)) as (He&Hx&->).
    { destruct (ph p); try done; destruct (ctx_done p); try done; injection Hl as <-; done. }
    simpl. split_and!; [done|done|]. assert (d = []) as -> by (destruct d; [done|]; destruct Hd'; [done|contradiction]).
    exists (held p). rewrite app_nil_r in Ho. split_and!; [done| |done]. unfold held. destruct (ph p); simpl; lia.
  - destruct (ch p) as [|v vs] eqn:Ec; try done. intros [= <-]. simpl in *. split_and!; [done|lia|].
    exists d. split_and!; [|done|done]. rewrite Ho, <-!app_assoc. done.
  - intros [= <-]. simpl. split_and!; [done|done|]. exists d. split_and!; [done|done|]. intros [? ?]%Hd'. done.
Qed.

(** Every value the goroutine decided to send is read, in order and once, or in the
    channel, or held; only when the context ends may one, the last, be dropped. *)
Lemma pump_delivers ls s0 p : pump_run ls (new_pump s0) = Some p -> pump_ok s0 p.
Proof.
  assert (forall q, pump_ok s0 q -> pump_run ls q = Some p -> pump_ok s0 p) as H.
  { induction ls as [|l ls IH]; intros q Hq; simpl; [by intros [= <-]|].
    destruct (pump_step l q) as [q'|] eqn:E; simpl; [|done]. by apply IH, (pump_step_ok s0 l q). }
  apply H. unfold pump_ok, held. simpl. split_and!; [done|lia|]. exists []. split_and!; [done|simpl; lia|done].
Qed.

(** When the context has ended the goroutine can leave, whatever the reader does. *)
Lemma pump_leaves p : ctx_done p = true -> ph p = Ended \/ exists p', pump_step PLeave p = Some p' /\ ph p' = Ended.
Proof. intros Hd. simpl. rewrite Hd. destruct (ph p); eauto. Qed.
End pump.

(** * [config/env] *)

Module Env.
Record options := mkOptions { prefix : string; key : string }.
Definition WithPrefix (p : string) : options -> options := fun o => mkOptions p (key o).
Definition WithKey (k : string) : options -> options := fun o => mkOptions (prefix o) k.
Definition New (opts : list (options -> options)) : options := apply_opts opts (mkOptions "" "").

Definition resolveKey (o : options) (k : string) : string :=
  let k := if String.eqb k "" then key o else k in
  if negb (String.eqb (prefix o) "") && negb (String.eqb k "") then (prefix o ++ k)%string else k.

(** [lookupEnv], on the environment of the process. *)
Definition lookupEnv (env : gmap string string) (k : string) : option string := env !! k.

Definition Load (o : options) (env : gmap string string) (k : string) : value * option error :=
  let envKey := resolveKey o k in
  if String.eqb envKey "" then (None, Some (Errorf "env: no key specified"))
  else match lookupEnv env envKey with Some val => (Some (chars val), None) | None => (None, None) end.
End Env.

(** * [config/fs] *)

Module Fs.
(** [fs.FS] by what [fs.ReadFile] returns. *)
Record options := mkOptions { fsys : option (string -> bytes + error); path : string }.
Definition WithFS (f : string -> bytes + error) : options -> options := fun o => mkOptions (Some f) (path o).
Definition WithPath (p : string) : options -> options := fun o => mkOptions (fsys o) p.
Definition New (opts : list (options -> options)) : options + error :=
  let o := apply_opts opts (mkOptions None "") in
  match fsys o with
  | None => inr (Errorf "fsys invalid: an io/fs.FS must be provided")
  | Some _ => inl o
  end.

Definition resolveKey (o : options) (k : string) : string := if negb (String.eqb k "") then k else path o.
Definition Load (o : options) (ReadFile : string -> bytes + error) (k : string) : value * option error :=
  let p := resolveKey o k in
  if String.eqb p "" then (None, Some (Errorf "no file path specified"))
  else match ReadFile p with
       | inr err => (None, Some (Wrapf ("read embedded file " ++ p) err))
       | inl data => (Some data, None)
       end.
End Fs.

(** * [config/http] *)

Module Http.
Record options := mkOptions { url : string; method : string; headers : gmap string string; pollInterval : Duration }.
Definition WithURL (u : string) : options -> options := fun o => mkOptions u (method o) (headers o) (pollInterval o).
Definition WithMethod (m : string) : options -> options := fun o => mkOptions (url o) m (headers o) (pollInterval o).
Definition WithHeader (k v : string) : options -> options := fun o => mkOptions (url o) (method o) (<[k := v]> (headers o)) (pollInterval o).
Definition WithPollInterval (d : Duration) : options -> options := fun o =>
  if (0 <? d)%Z then mkOptions (url o) (method o) (headers o) d else o.
Definition defaultPollInterval : Duration := (30 * Second)%Z.
Definition New (opts : list (options -> options)) : options + error :=
  let o := apply_opts opts (mkOptions "" "GET" ∅ defaultPollInterval) in
  if String.eqb (url o) "" then inr (Errorf "url invalid") else inl o.

Definition resolveKey (o : options) (k : string) : string := if negb (String.eqb k "") then k else url o.

(** A response: status, the [ETag] header, and the body as [io.ReadAll] returns it. *)
Record response := mkResponse { status : Z; etag : string; body : bytes + error }.
(** The server's answer, by the tag sent in [If-None-Match] ("" for none); an error
    of the request or of the transport. *)
Definition server := string -> response + error.

Definition Load (o : options) (srv : server) (k : string) : value * option error :=
  let u := resolveKey o k in
  match srv "" with
  | inr err => (None, Some (Wrapf ("http request " ++ u) err))
  | inl resp =>
      if (status resp =? 304)%Z then (None, None)
      else if ((status resp <? 200) || (300 <=? status resp))%Z then (None, Some (Errorf ("http " ++ u)))
      else match body resp with
           | inr err => (None, Some (Wrapf "read response body" err))
           | inl data => (Some data, None)
           end
  end.

(** [func (s *source) fetchWithETag] *)
Definition fetchWithETag (srv : server) (tag : string) : value * string * option error :=
  match srv tag with
  | inr err => (None, "", Some err)
  | inl resp =>
      if (status resp =? 304)%Z then (None, etag resp, None)
      else if ((status resp <? 200) || (300 <=? status resp))%Z then (None, etag resp, Some (Errorf "http"))
      else match body resp with
           | inr err => (None, etag resp, Some (Wrapf "read response body" err))
           | inl data => (Some data, etag resp, None)
           end
  end.

(** The goroutine of [WatchValue]: its state is whether the initial fetch was made,
    and [lastETag]. *)
Definition on_poll (srv : server) (s : bool * string) : (bool * string) * action :=
  let '(started, lastETag) := s in
  if started then
    match fetchWithETag srv lastETag with
    | (_, _, Some _) => ((true, lastETag), Skip)
    | (data, tag, None) =>
        let last := if negb (String.eqb tag "") then tag else lastETag in
        ((true, last), match data with None => Skip | Some d => Push (Some d) end)
    end
  else
    match fetchWithETag srv "" with
    | (_, _, Some _) => ((true, lastETag), Skip)
    | (Some d, tag, None) => ((true, tag), Push (Some d))
    | (None, tag, None) => ((true, if negb (String.eqb tag "") then tag else lastETag), Skip)
    end.
Definition watch_start : bool * string := (false, "").
End Http.

(** * [config/oss] *)

Module Oss.
Record options := mkOptions { bucket : string; key : string; pollInterval : Duration }.
Definition WithBucket (b : string) : options -> options := fun o => mkOptions b (key o) (pollInterval o).
Definition WithKey (k : string) : options -> options := fun o => mkOptions (bucket o) k (pollInterval o).
Definition WithPollInterval (d : Duration) : options -> options := fun o =>
  if (0 <? d)%Z then mkOptions (bucket o) (key o) d else o.
Definition New (client : bool) (opts : list (options -> options)) : options + error :=
  if negb client then inr (Errorf "s3 client is nil")
  else
    let o := apply_opts opts (mkOptions "" "" (30 * Second)%Z) in
    if String.eqb (bucket o) "" then inr (Errorf "bucket invalid") else inl o.

Definition resolveKey (o : options) (k : string) : string := if negb (String.eqb k "") then k else key o.

(** What [GetObject] and reading its body give, and the tag [HeadObject] gives, nil
    for none. *)
Record store := mkStore { get_object : bytes + error; head_object : option string + error }.

Definition Load (o : options) (s : store) (k : string) : value * option error :=
  let objKey := resolveKey o k in
  if String.eqb objKey "" then (None, Some (Errorf "no object key specified"))
  else match get_object s with
       | inr err => (None, Some (Wrapf ("s3 get object " ++ bucket o ++ "/" ++ objKey) err))
       | inl data => (Some data, None)
       end.

(** [func (s *source) headObject] *)
Definition headObject (s : store) : string + error :=
  match head_object s with inr err => inr err | inl tag => inl (default "" tag) end.

(** The start of [WatchValue], which refuses an empty key. *)
Definition WatchValue (o : options) (k : string) : (bool * string) + error :=
  if String.eqb (resolveKey o k) "" then inr (Errorf "no object key specified") else inl (false, "").

(** A round: the store as the head request finds it, and as the load does. *)
Definition on_poll (o : options) (objKey : string) (e : store * store) (s : bool * string) : (bool * string) * action :=
  let '(started, lastETag) := s in
  match headObject (fst e) with
  | inr _ => ((true, lastETag), Skip)
  | inl tag =>
      if started && String.eqb tag lastETag then ((true, lastETag), Skip)
      else ((true, tag), match Load o (snd e) objKey with (d, None) => Push d | (_, Some _) => Skip end)
  end.
End Oss.

(** * Polling delivers the changes *)

(** What a round finds: the tag, "" for none, and nothing when the request fails; and the
    body, nothing when it cannot be read.  The object store's tag and body come from two
    requests, which may see two versions and fail one without the other. *)
Record round := mkRound { r_tag : option string; r_body : option bytes }.

(** A server that answers conditional requests: not modified when the tag it is given is
    the version's. *)
Definition http_serve (r : round) : Http.server := fun tag =>
  match r_tag r with
  | None => inr (Errorf "unreachable")
  | Some t =>
      if decide (tag = t /\ t <> "") then inl (Http.mkResponse 304 t (inl []))
      else inl (Http.mkResponse 200 t (match r_body r with Some b => inl b | None => inr (Errorf "unexpected EOF") end))
  end.
Definition oss_serve (r : round) : Oss.store * Oss.store :=
  (Oss.mkStore (inr (Errorf "")) (match r_tag r with None => inr (Errorf "unreachable") | Some t => inl (Some t) end),
   Oss.mkStore (match r_body r with Some b => inl b | None => inr (Errorf "unreachable") end) (inr (Errorf ""))).

(** The reference.  A round is a change when its tag is not the last one noted before: the
    HTTP source notes the tags of the versions whose body it has read, and a version without
    a tag is always a change; the object store's notes every tag that is found, also when
    the object is not loaded, and the first round is always a change.  The bodies of the
    changes are delivered, where they can be read. *)
Definition http_noted (r : round) : option string :=
  match r_tag r, r_body r with Some t, Some _ => if String.eqb t "" then None else Some t | _, _ => None end.
Definition http_change (before : list round) (t : string) : bool :=
  String.eqb t "" || negb (bool_decide (last (omap http_noted before) = Some t)).
Definition oss_change (before : list round) (t : string) : bool :=
  match before with [] => true | _ => negb (String.eqb t (default "" (last (omap r_tag before)))) end.
Definition delivery (change : list round -> string -> bool) (rs : list round) (i : nat) : option value :=
  r ← rs !! i; t ← r_tag r; b ← r_body r; if change (take i rs) t then Some (Some b) else None.
Definition deliveries (change : list round -> string -> bool) (rs : list round) : list value :=
  omap (delivery change rs) (seq 0 (length rs)).

Lemma deliveries_snoc change rs r :
  deliveries change (rs ++ [r]) =
  deliveries change rs ++ option_list (t ← r_tag r; b ← r_body r; if change rs t then Some (Some b) else None).
Proof.
  unfold deliveries. rewrite length_app, Nat.add_1_r, seq_S, omap_app. f_equal.
  - apply list_omap_ext, Forall_Forall2_diag, Forall_forall. intros i (_&Hi)%list_elem_of_In%in_seq. simpl in Hi. unfold delivery.
    by rewrite lookup_app_l, take_app_le by lia.
  - simpl. unfold delivery. rewrite lookup_app_r, Nat.sub_diag, take_app_length by lia. simpl.
    by destruct (t ← r_tag r; b ← r_body r; if change rs t then Some (Some b) else None).
Qed.

Lemma http_noted_last rs t : last (omap http_noted rs) = Some t -> t <> "".
Proof.
  intros [l E]%last_Some. assert (t ∈ omap http_noted rs) as (r&_&Hr)%list_elem_of_omap by (rewrite E; set_solver).
  unfold http_noted in Hr. repeat case_match; try done. injection Hr as <-. by apply String.eqb_neq.
Qed.
Lemma omap_one {A B} (f : A -> option B) x : omap f [x] = option_list (f x).
Proof. cbn. by destruct (f x). Qed.

(** One round of each source. *)
Lemma http_round noted started r : (forall t, last noted = Some t -> t <> "") -> (started = false -> noted = []) ->
  Http.on_poll (http_serve r) (started, default "" (last noted)) =
  ((true, default "" (last (noted ++ option_list (http_noted r)))),
   match r_tag r, r_body r with
   | Some t, Some b => if String.eqb t "" || negb (bool_decide (last noted = Some t)) then Push (Some b) else Skip
   | _, _ => Skip
   end).
Proof.
  intros Hne Hs. unfold Http.on_poll, Http.fetchWithETag, http_serve, http_noted. destruct r as [[t|] body]; cbn [r_tag r_body].
  2: { destruct started; by rewrite app_nil_r. }
  assert (forall tag, (tag = t /\ t <> "") -> last noted = Some tag -> started = true) as Hst.
  { intros tag _ Hl. destruct started; [done|]. by rewrite Hs in Hl. }
  destruct (String.eqb_spec t "") as [->|Ht].
  { destruct started; rewrite decide_False by naive_solver; destruct body; cbn; rewrite ?app_nil_r; try done. by rewrite Hs. }
  apply String.eqb_neq in Ht as Ht'. destruct (decide (last noted = Some t)) as [El|El].
  - rewrite (Hst t) by done. rewrite El. cbn [default]. rewrite decide_True, bool_decide_true by done. cbn. rewrite Ht'.
    destruct body; cbn; by rewrite ?app_nil_r, ?last_snoc, ?El.
  - rewrite (bool_decide_false (last noted = Some t)) by done.
    destruct started; rewrite decide_False by (destruct (last noted); naive_solver); destruct body; cbn;
      rewrite ?Ht', ?app_nil_r; cbn; by rewrite ?last_snoc.
Qed.

Lemma nonempty_started {A} (l : list A) : bool_decide (l <> []) = false -> l = [].
Proof. intros H%bool_decide_eq_false. destruct l; [done|]. by destruct H. Qed.

Lemma http_outputs rs :
  outputs Http.on_poll (map http_serve rs) (false, "") =
  (deliveries http_change rs, (bool_decide (rs <> []), default "" (last (omap http_noted rs)))).
Proof.
  induction rs as [|r rs IH] using rev_ind; [done|]. rewrite map_app. change (map http_serve [r]) with [http_serve r].
  rewrite outputs_snoc, IH, deliveries_snoc, omap_app, omap_one, http_round.
  - rewrite (bool_decide_true (rs ++ [r] <> [])) by (by destruct rs). f_equal. f_equal. unfold http_change.
    destruct (r_tag r), (r_body r); try done. cbn. by destruct (String.eqb s "" || _).
  - intros t. apply http_noted_last.
  - by intros ->%nonempty_started.
Qed.

Lemma oss_outputs o k rs : k <> "" ->
  outputs (Oss.on_poll o k) (map oss_serve rs) (false, "") =
  (deliveries oss_change rs, (bool_decide (rs <> []), default "" (last (omap r_tag rs)))).
Proof.
  intros Hk. apply String.eqb_neq in Hk.
  induction rs as [|r rs IH] using rev_ind; [done|]. rewrite map_app. change (map oss_serve [r]) with [oss_serve r]. rewrite outputs_snoc, IH, deliveries_snoc, omap_app.
  rewrite (bool_decide_true (rs ++ [r] <> [])) by (by destruct rs). destruct r as [tag body].
  unfold Oss.on_poll, oss_serve, Oss.headObject, Oss.Load, Oss.resolveKey. cbn [r_tag r_body fst snd Oss.head_object Oss.get_object].
  rewrite Hk. cbn [negb]. rewrite Hk, omap_one. destruct tag as [t|]; [|cbn; by rewrite !app_nil_r]. cbn [default].
  set (ds := deliveries oss_change rs). change (id t) with t.
  assert (bool_decide (rs <> []) && String.eqb t (default "" (last (omap r_tag rs))) = negb (oss_change rs t)) as ->.
  { unfold oss_change. destruct rs; [done|]. by rewrite negb_involutive. }
  destruct (oss_change rs t) eqn:Ec; cbn [negb].
  - cbn. rewrite last_snoc. destruct body; cbn; by rewrite ?Ec, ?app_nil_r.
  - cbn. rewrite last_snoc. assert (default "" (last (omap r_tag rs)) = t) as ->.
    { unfold oss_change in Ec. destruct rs; [done|]. symmetry. apply String.eqb_eq. by destruct (String.eqb t _). }
    destruct body; cbn; by rewrite ?Ec, ?app_nil_r.
Qed.

(** A polling source, and its reference: the HTTP source or the object store's. *)
Inductive polling : (round -> bool * string -> (bool * string) * action) -> (list round -> string -> bool) -> Prop :=
| polling_http : polling (fun r => Http.on_poll (http_serve r)) http_change
| polling_oss o k : k <> "" -> polling (fun r => Oss.on_poll o k (oss_serve r)) oss_change.

Lemma outputs_map {St Ev Ev'} (f : Ev' -> St -> St * action) (g : Ev -> Ev') es s :
  outputs (fun e => f (g e)) es s = outputs f (map g es) s.
Proof. revert s. induction es as [|e es IH]; intros s; [done|]. simpl. destruct (f (g e) s). by rewrite IH. Qed.

Lemma polling_outputs on_event change rs : polling on_event change -> fst (outputs on_event rs (false, "")) = deliveries change rs.
Proof. intros []; rewrite outputs_map; [by rewrite http_outputs|by rewrite oss_outputs]. Qed.

(** C33: polling delivers the changes: whatever the interleaving of polls, reads and the end
    of the context, and whatever requests fail, the values an HTTP or object-store watch has
    delivered, holds in its channel and holds to send are, in order and once each, the
    bodies read in the rounds whose tag is not the last one noted before; only
    when the context has ended may one of them be dropped, and then the goroutine
    can leave and close the channel without the reader.  The HTTP source, whose server
    answers conditional requests, notes the tags of the versions it has read, so that a
    change it could not read is found again; a version without a tag is delivered each time.
    The object store's source notes each tag it finds before it loads the object, so that a
    change whose load fails is lost until the tag changes again; the first round counts as
    a change, and the body may be of a later version than the tag. *)
Theorem config_poll_changes on_event change ls p :
  polling on_event change -> pump_run on_event ls (new_pump (false, "")) = Some p ->
  (exists dropped, deliveries change (taken p) = received p ++ ch p ++ held p ++ dropped /\
     (length dropped <= 1)%nat /\ (dropped <> [] -> ctx_done p = true)) /\
  (ctx_done p = true -> ph p = Ended \/ exists p', pump_step on_event PLeave p = Some p' /\ ph p' = Ended).
Proof.
  intros Hp Hrun. split; [|apply pump_leaves].
  destruct (pump_delivers on_event ls (false, "") p Hrun) as (_&_&d&Ho&Hd&Hd').
  exists d. rewrite <-Ho, (polling_outputs on_event change) by done. split_and!; [done|done|]. by intros [_ ?]%Hd'.
Qed.

(** A version, a failed poll, the same version again, a second one that cannot be read at
    first. *)
Definition some_rounds : list round :=
  [mkRound (Some "1") (Some (chars "a")); mkRound None None; mkRound (Some "1") (Some (chars "a"));
   mkRound (Some "2") None; mkRound (Some "2") (Some (chars "b"))].
Lemma config_poll_changes_witness :
  exists p, pump_run (fun r => Http.on_poll (http_serve r)) (PEvent (mkRound (Some "1") (Some (chars "a"))) :: PSend :: PRead :: map PEvent (tail some_rounds))
    (new_pump (false, "")) = Some p /\ received p = [Some (chars "a")] /\
  exists dropped, [Some (chars "a"); Some (chars "b")] = received p ++ ch p ++ held p ++ dropped.
Proof.
  eexists. split; [reflexivity|]. split; [reflexivity|].
  destruct (config_poll_changes (fun r => Http.on_poll (http_serve r)) http_change
    (PEvent (mkRound (Some "1") (Some (chars "a"))) :: PSend :: PRead :: map PEvent (tail some_rounds)) _ polling_http eq_refl) as [(d&Hd&_) _].
  exists d. exact Hd.
Defined.

(** On the same rounds the object store's source loses the second version. *)
Example oss_failed_load_loses o :
  fst (outputs (fun r => Oss.on_poll o "k" (oss_serve r)) some_rounds (false, "")) = [Some (chars "a")] /\
  deliveries http_change some_rounds = [Some (chars "a"); Some (chars "b")].
Proof. split; reflexivity. Qed.

(** An object without a tag is never delivered when the first request fails. *)
Example oss_tagless_lost o b :
  fst (outputs (fun r => Oss.on_poll o "k" (oss_serve r)) [mkRound None None; mkRound (Some "") (Some b); mkRound (Some "") (Some b)] (false, "")) = [].
Proof. reflexivity. Qed.

(** * [config/file] *)

Module File.
Record options := mkOptions { path : string; watch : bool }.
Definition WithPath (p : string) : options -> options := fun o => mkOptions p (watch o).
Definition WithWatch (b : bool) : options -> options := fun o => mkOptions (path o) b.

Section file.
(** [filepath.Abs] and [filepath.Dir], which depend on the system. *)
Context (Abs : string -> string + error) (Dir : string -> string).

(** The source: its path, and the directory its fsnotify watcher watches, if it has
    a watcher. *)
Record source := mkSource_ { s_path : string; s_watcher : option string }.

(** [func New]: [add] is what creating the watcher and adding the directory give. *)
Definition New (opts : list (options -> options)) (add : option error) : source + error :=
  let o := apply_opts opts (mkOptions "" false) in
  if String.eqb (path o) "" then inr (Errorf "path invalid")
  else
    match Abs (path o) with
    | inr err => inr (Wrapf "resolve absolute path" err)
    | inl abs =>
        if watch o then
          match add with
          | Some err => inr (Wrapf ("watch directory " ++ Dir abs) err)
          | None => inl (mkSource_ abs (Some (Dir abs)))
          end
        else inl (mkSource_ abs None)
    end.

Definition resolveKey (s : source) (k : string) : string :=
  if negb (String.eqb k "") then match Abs k with inr _ => k | inl abs => abs end else s_path s.

Definition Load (s : source) (ReadFile : string -> bytes + error) (k : string) : value * option error :=
  let p := resolveKey s k in
  match ReadFile p with
  | inr err => (None, Some (Wrapf ("read file " ++ p) err))
  | inl data => (Some data, None)
  end.

(** [func (s *source) WatchValue], up to its goroutine: the path it watches. *)
Definition WatchValue (s : source) (k : string) (add : option error) : (string + error) * source :=
  let p := resolveKey s k in
  match s_watcher s with
  | Some _ => (inl p, s)
  | None =>
      match add with
      | Some err => (inr (Wrapf ("watch directory " ++ Dir p) err), s)
      | None => (inl p, mkSource_ (s_path s) (Some (Dir p)))
      end
  end.

(** What the goroutine receives: an event with its name, whether it is a write or a
    creation, and what [os.ReadFile] then gives; an error of the watcher; the end of
    a channel. *)
Inductive event := Changed (name : string) (write_or_create : bool) (content : bytes + error) | WatcherError (err : error) | Closed.

Definition on_event (p : string) (e : event) (s : unit) : unit * action :=
  match e with
  | Changed name wc content =>
      (s, if negb (String.eqb name p) then Skip
          else if negb wc then Skip
          else match content with inr _ => Skip | inl data => Push (Some data) end)
  | WatcherError _ | Closed => (s, Exit)
  end.
End file.
End File.

(** The contents a file watch sends are those read after the events of the file. *)
Lemma file_outputs p es :
  Forall (fun e => match e with File.Changed _ _ _ => True | _ => False end) es ->
  fst (outputs (File.on_event p) es tt) =
  omap (fun e => match e with
                 | File.Changed name true (inl data) => if String.eqb name p then Some (Some data) else None
                 | _ => None
                 end) es.
Proof.
  induction 1 as [|e es He Hes IH]; [done|]. destruct e as [name wc content| |]; try done. cbn [outputs File.on_event].
  destruct (outputs (File.on_event p) es tt) as [vs s] eqn:E. simpl in IH. simpl.
  destruct (String.eqb name p), wc, content; simpl; by rewrite IH.
Qed.

(** The watcher of a source made without one watches the directory of the first
    watch: a second watch, of a file elsewhere, gets no events. *)
Example file_second_directory (Dir : string -> string) :
  let s := File.mkSource_ "/etc/a/x" None in
  let '(_, s1) := File.WatchValue inl Dir s "" None in
  let '(r, s2) := File.WatchValue inl Dir s1 "/etc/b/y" None in
  r = inl "/etc/b/y" /\ File.s_watcher s2 = Some (Dir "/etc/a/x").
Proof. done. Qed.

(** * [config/redis] *)

Module Redis.
Definition WithPath (p : string) : string -> string := fun _ => p.
(** The options are the path alone. *)
Definition New (client : bool) (opts : list (string -> string)) : string + error :=
  if negb client then inr (Errorf "redis client is nil")
  else
    let path := apply_opts opts "" in
    if String.eqb path "" then inr (Errorf "path invalid") else inl path.

Definition resolveKey (path k : string) : string := if negb (String.eqb k "") then k else path.

(** [goredis.Nil] *)
Definition Nil : error := Sentinel "goredis.Nil" "redis: nil".

(** [get] is what [GET] gives. *)
Definition Load (path : string) (get : string -> bytes + error) (k : string) : value * option error :=
  let p := resolveKey path k in
  match get p with
  | inl val => (Some val, None)
  | inr (Sentinel "goredis.Nil" _) => (None, None)
  | inr err => (None, Some (Wrapf ("redis get " ++ p) err))
  end.

Definition watchChannel (k : string) : string := ("__windcfg__:" ++ k)%string.

(** [WatchValue] subscribes to the channel of the key and waits for the answer. *)
Definition WatchValue (path k : string) (receive : string -> option error) : string + error :=
  let channel := watchChannel (resolveKey path k) in
  match receive channel with
  | Some err => inr (Wrapf ("redis subscribe " ++ channel) err)
  | None => inl channel
  end.

(** The goroutine: a message with its payload and what [GET] gives then; the end of
    the subscription. *)
Inductive event := Message (payload : bytes) (get : string -> bytes + error) | Closed.
Definition on_event (path : string) (e : event) (s : unit) : unit * action :=
  match e with
  | Closed => (s, Exit)
  | Message payload get =>
      (s, if (0 <? length payload)%nat then Push (Some payload)
          else match Load path get path with (_, Some _) => Skip | (data, None) => Push data end)
  end.
End Redis.

(** An announcement without a value of a key that was deleted sends nil. *)
Example redis_deleted_key_sends_nil :
  fst (outputs (Redis.on_event "app") [Redis.Message [] (fun _ => inr Redis.Nil)] tt) = [None].
Proof. reflexivity. Qed.

(** * [config/kubernetes] *)

Module Kube.
Record options := mkOptions { Namespace : string; LabelSelector : string; FieldSelector : string; KubeConfig : string; Master : string }.
Definition WithNamespace (v : string) : options -> options := fun o => mkOptions v (LabelSelector o) (FieldSelector o) (KubeConfig o) (Master o).
Definition WithLabelSelector (v : string) : options -> options := fun o => mkOptions (Namespace o) v (FieldSelector o) (KubeConfig o) (Master o).
Definition WithFieldSelector (v : string) : options -> options := fun o => mkOptions (Namespace o) (LabelSelector o) v (KubeConfig o) (Master o).
Definition WithKubeConfig (v : string) : options -> options := fun o => mkOptions (Namespace o) (LabelSelector o) (FieldSelector o) v (Master o).
Definition WithMaster (v : string) : options -> options := fun o => mkOptions (Namespace o) (LabelSelector o) (FieldSelector o) (KubeConfig o) v.
Definition New (opts : list (options -> options)) : options := apply_opts opts (mkOptions "" "" "" "" "").

(** [strings.SplitN(key, "/", 3)] and [resolveKey]: namespace, name, data key. *)
Definition resolveKey (o : options) (k : string) : string * string * string :=
  match cut "/" k with
  | None => (Namespace o, k, "")
  | Some (ns, rest) => match cut "/" rest with None => (ns, rest, "") | Some (name, dataKey) => (ns, name, dataKey) end
  end.

(** A ConfigMap: its name, and its data in the order a range over it visits. *)
Record ConfigMap := mkConfigMap { cm_Name : string; cm_Data : list (string * string) }.

(** [strings.Join(parts, sep)] *)
Fixpoint Join (parts : list string) (sep : string) : string :=
  match parts with
  | [] => ""
  | [p] => p
  | p :: ps => (p ++ sep ++ Join ps sep)%string
  end.

Fixpoint assoc (k : string) (l : list (string * string)) : option string :=
  match l with
  | [] => None
  | (k', v) :: l' => if String.eqb k k' then Some v else assoc k l'
  end.

Definition newline : string := String (ascii_of_nat 10) "".

Definition configMapData (cm : ConfigMap) (dataKey : string) : bytes + error :=
  if negb (String.eqb dataKey "") then
    match assoc dataKey (cm_Data cm) with
    | None => inr (Errorf ("key not found in configmap: " ++ dataKey))
    | Some val => inl (chars val)
    end
  else inl (chars (Join (map snd (cm_Data cm)) newline)).

(** [func (k *kube) Load]: [init] is what making the client gives while there is
    none. *)
Definition Load (o : options) (init : option error) (get : string -> string -> ConfigMap + error) (k : string) : value * option error :=
  match init with
  | Some err => (None, Some err)
  | None =>
      let '(ns, name, dataKey) := resolveKey o k in
      if String.eqb ns "" then (None, Some (Errorf "namespace not specified"))
      else
        match get ns name with
        | inr err => (None, Some err)
        | inl cm => match configMapData cm dataKey with inr err => (None, Some err) | inl data => (Some data, None) end
        end
  end.

(** The goroutine of [WatchValue]: an event with its object, which may be nil or no
    ConfigMap, and whether it is a deletion; the end of the watch. *)
Inductive object := NoObject | OtherObject | ObjectMap (cm : ConfigMap).
Inductive event := Event (obj : object) (deleted : bool) | Closed.
Definition on_event (name dataKey : string) (e : event) (s : unit) : unit * action :=
  (s, match e with
      | Closed => Exit
      | Event NoObject _ => Exit
      | Event OtherObject _ => Skip
      | Event (ObjectMap cm) deleted =>
          if negb (String.eqb (cm_Name cm) name) then Skip
          else if deleted then Exit
          else match configMapData cm dataKey with inr _ => Skip | inl data => Push (Some data) end
      end).
End Kube.

(** Without slashes a key is a name; with two its parts are found back. *)
Lemma kube_resolveKey o ns name dataKey :
  lacks "/" ns = true -> lacks "/" name = true ->
  Kube.resolveKey o name = (Kube.Namespace o, name, "") /\
  Kube.resolveKey o (ns ++ "/" ++ name ++ "/" ++ dataKey)%string = (ns, name, dataKey).
Proof.
  intros Hns Hname. unfold Kube.resolveKey. rewrite (cut_lacks "/" "" name Hname). split; [done|].
  change (ns ++ "/" ++ name ++ "/" ++ dataKey)%string with (ns ++ String "/" (name ++ String "/" dataKey))%string.
  by rewrite (cut_app "/" ns _ Hns), (cut_app "/" name _ Hname).
Qed.

(** A merged ConfigMap depends on the order in which the map is visited, and is no
    JSON object. *)
Example kube_merge_order :
  Kube.configMapData (Kube.mkConfigMap "c" [("a", "1"); ("b", "2")]) "" <>
  Kube.configMapData (Kube.mkConfigMap "c" [("b", "2"); ("a", "1")]) "".
Proof. vm_compute. congruence. Qed.

(** * [config/nacos] *)

Module Nacos.
Record options := mkOptions { group : string; dataID : string }.
Definition WithGroup (v : string) : options -> options := fun o => mkOptions v (dataID o).
Definition WithDataID (v : string) : options -> options := fun o => mkOptions (group o) v.
Definition New (opts : list (options -> options)) : options := apply_opts opts (mkOptions "" "").

Definition resolveDataID (o : options) (k : string) : string := if negb (String.eqb k "") then k else dataID o.

(** [get] is the client's [GetConfig] by data id and group. *)
Definition Load (o : options) (get : string -> string -> string + error) (k : string) : value * option error :=
  match get (resolveDataID o k) (group o) with
  | inr err => (None, Some err)
  | inl content => (Some (chars content), None)
  end.

(** The watch: the channel, whether it is closed, whether the context ended, the
    callbacks of the client that wait in their select, a callback having panicked,
    and what was read. *)
Record Watch := mkWatch {
  out : list bytes;
  out_closed : bool;
  done : bool;
  sending : list bytes;
  crashed : bool;
  got : list bytes
}.
Definition new_watch : Watch := mkWatch [] false false [] false [].

Section watch.
Context (o : options) (id : string).

(** [OnChange]: only for the group and the data id of the watch. *)
Definition OnChange (grp dID : string) (data : bytes) (w : Watch) : Watch :=
  if String.eqb dID id && String.eqb grp (group o)
  then mkWatch (out w) (out_closed w) (done w) (sending w ++ [data]) (crashed w) (got w) else w.

(** The select of the [i]-th waiting callback: the send, which panics on the closed
    channel, or the context. *)
Definition callback_send (i : nat) (w : Watch) : option Watch :=
  data ← sending w !! i;
  let rest := delete i (sending w) in
  if out_closed w then Some (mkWatch (out w) true (done w) rest true (got w))
  else match out w with
       | [] => Some (mkWatch [data] false (done w) rest (crashed w) (got w))
       | _ => None
       end.
Definition callback_leave (i : nat) (w : Watch) : option Watch :=
  _ ← sending w !! i;
  if done w then Some (mkWatch (out w) (out_closed w) true (delete i (sending w)) (crashed w) (got w)) else None.

(** The goroutine: after the context it stops listening and closes the channel. *)
Definition close_out (w : Watch) : option Watch :=
  if done w && negb (out_closed w) then Some (mkWatch (out w) true true (sending w) (crashed w) (got w)) else None.
Definition cancel (w : Watch) : Watch := mkWatch (out w) (out_closed w) true (sending w) (crashed w) (got w).
Definition read (w : Watch) : option Watch :=
  match out w with
  | d :: l => Some (mkWatch l (out_closed w) (done w) (sending w) (crashed w) (got w ++ [d]))
  | [] => None
  end.

Inductive event := EChange (grp dID : string) (data : bytes) | ESend (i : nat) | ELeave (i : nat) | EClose | ECancel | ERead.
Definition step (e : event) (w : Watch) : option Watch :=
  match e with
  | EChange grp dID data => Some (OnChange grp dID data w)
  | ESend i => callback_send i w
  | ELeave i => callback_leave i w
  | EClose => close_out w
  | ECancel => Some (cancel w)
  | ERead => read w
  end.
Fixpoint run (es : list event) (w : Watch) : option Watch :=
  match es with
  | [] => Some w
  | e :: es' => w' ← step e w; run es' w'
  end.

(** Until the context ends the channel is open and no callback panics. *)
Lemma nacos_no_crash es w : run es new_watch = Some w -> done w = false -> out_closed w = false /\ crashed w = false.
Proof.
  assert (forall w0, (out_closed w0 = true -> done w0 = true) /\ (crashed w0 = true -> done w0 = true) ->
    run es w0 = Some w -> (out_closed w = true -> done w = true) /\ (crashed w = true -> done w = true)) as H.
  { induction es as [|e es IH]; intros w0 [Hc Hk]; simpl; [by intros [= <-]|].
    destruct (step e w0) as [w1|] eqn:E; simpl; [|done]. apply IH. clear IH.
    destruct e as [grp dID data|i|i| | |]; simpl in E.
    - injection E as <-. unfold OnChange. by destruct (_ && _).
    - unfold callback_send in E. destruct (sending w0 !! i); [|done]. simpl in E. destruct (out_closed w0) eqn:Eo.
      + injection E as <-. simpl. split; intros _; by apply Hc.
      + destruct (out w0); [|done]. by injection E as <-.
    - unfold callback_leave in E. destruct (sending w0 !! i); [|done]. simpl in E. destruct (done w0); [|done]. by injection E as <-.
    - unfold close_out in E. destruct (done w0 && negb (out_closed w0)); [|done]. by injection E as <-.
    - by injection E as <-.
    - unfold read in E. destruct (out w0); [done|]. by injection E as <-. }
  intros Hr Hd. destruct (H new_watch (conj (fun x => x) (fun x => x)) Hr) as [H1 H2].
  destruct (out_closed w), (crashed w); naive_solver.
Qed.
End watch.

(** A callback still in its select when the goroutine has closed the channel may
    choose the send and panic. *)
Example nacos_send_on_closed (data : bytes) :
  crashed <$> run (mkOptions "g" "id") "id" [EChange "g" "id" data; ECancel; EClose; ESend 0] new_watch = Some true.
Proof. reflexivity. Qed.
End Nacos.

(** * The sources under the fallback *)

(** The environment and the embedded files of a process. *)
Record process := mkProcess { p_env : gmap string string; p_files : string -> bytes + error }.
Definition env_source (o : Env.options) : Source process := mkSource (fun w k => Env.Load o (p_env w) k) None None.
Definition fs_source (o : Fs.options) : Source process := mkSource (fun w k => Fs.Load o (p_files w) k) None None.

(** The environment over embedded files: a fallback of the two returns, for a key
    that names both, the variable with the prefix when it is set, even to the empty
    text, and the file otherwise; an error names the file only. *)
Theorem config_env_over_files o p w k :
  k <> "" ->
  Load [env_source o; fs_source p] w k =
  match p_env w !! (Env.prefix o ++ k)%string with
  | Some val => (Some (chars val), None)
  | None =>
      match p_files w k with
      | inl data => (Some data, None)
      | inr err => (None, Some (Joined [Wrapf ("read embedded file " ++ k) err]))
      end
  end.
Proof.
  intros Hk. apply String.eqb_neq in Hk as Hk'. unfold Load. simpl. unfold Env.Load, Fs.Load, Fs.resolveKey, Env.lookupEnv.
  assert (Env.resolveKey o k = (Env.prefix o ++ k)%string) as ->.
  { unfold Env.resolveKey. rewrite !Hk'. destruct (String.eqb_spec (Env.prefix o) "") as [->|]; done. }
  assert (String.eqb (Env.prefix o ++ k)%string "" = false) as ->.
  { apply String.eqb_neq. destruct (Env.prefix o); done. }
  destruct (p_env w !! (Env.prefix o ++ k)%string); [done|]. rewrite Hk'. simpl. rewrite Hk'. by destruct (p_files w k).
Qed.

Lemma config_env_over_files_witness :
  Load [env_source (Env.New [Env.WithPrefix "APP_"]); fs_source (Fs.mkOptions None "")]
    (mkProcess {["APP_PORT" := "80"]} (fun _ => inl [])) "PORT" = (Some (chars "80"), None).
Proof. rewrite (config_env_over_files _ _ _ "PORT") by done. reflexivity. Defined.
