(* ===== verification/WebSocket.v ===== *)
(** [transport/websocket], messages and dispatch: [message.go], [types.go],
    [options.go] and the message half of [server.go].  The sessions are in
    [WsSession]. *)
From Stdlib Require Import ZArith Lia Ascii.
From S2P Require Import Prelude GoErrors Http NetPacket Encoding.
From stdpp Require Import base gmap strings list fin_maps pretty.
Open Scope string_scope.
Open Scope list_scope.
Open Scope Z_scope.

(** [type PayloadType uint8] and its constants *)
Definition PayloadTypeBinary : Z := 0.
Definition PayloadTypeText : Z := 1.

(** [type TextNetPacket struct] *)
Record TextNetPacket := mkText { txt_Type : Z; txt_Payload : bytes }.

Section websocket.
(** The application's message values, and [json.Unmarshal] into a
    [TextNetPacket]. *)
Context {T : Type} (json_Unmarshal : bytes -> TextNetPacket -> option error * TextNetPacket).

(** The values the server gives its codec: an application value, or the packet
    of the text mode. *)
Inductive any := AText (p : TextNetPacket) | AValue (v : T).

(** [MessagePayload] as a handler receives it: the raw bytes when the handler has
    no [Creator], else the decoded instance. *)
Inductive MessagePayload := PBytes (b : bytes) | PValue (v : any).

(** [type MessageHandlerData struct]; [Creator] may be nil, and may return nil. *)
Record MessageHandlerData := mkHandlerData {
  Handler : string -> MessagePayload -> option error;
  Creator : option (unit -> option any)
}.

(** [func (h *MessageHandlerData) Create() any] *)
Definition Create (h : MessageHandlerData) : option any :=
  match Creator h with
  | Some c => c tt
  | None => None
  end.

Abbreviation NetMessageHandlerMap := (gmap Z MessageHandlerData).

(** The parts of [Server] the messages depend on.  The function fields are nil
    until [NewServer] defaults them. *)
Record Server := mkServer {
  path : string;
  injectToken : bool;
  tokenKey : string;
  payloadType : Z;
  codec : option (Codec any);
  messageHandlers : NetMessageHandlerMap;
  netPacketMarshaler : option (Z -> any -> result (bytes + error));
  netPacketUnmarshaler : option (bytes -> result (MessageHandlerData * MessagePayload + error));
  socketRawDataHandler : option (string -> bytes -> result (option error))
}.

(** * Handler registration, under [handlerMu] *)

Definition with_handlers (m : NetMessageHandlerMap) (s : Server) : Server :=
  mkServer (path s) (injectToken s) (tokenKey s) (payloadType s) (codec s) m
    (netPacketMarshaler s) (netPacketUnmarshaler s) (socketRawDataHandler s).

(** [func (s *Server) RegisterMessageHandler]: the first registration wins. *)
Definition RegisterMessageHandler (messageType : Z) (handler : string -> MessagePayload -> option error)
    (binder : option (unit -> option any)) (s : Server) : Server :=
  match messageHandlers s !! messageType with
  | Some _ => s
  | None => with_handlers (<[messageType := mkHandlerData handler binder]> (messageHandlers s)) s
  end.

(** [func RegisterServerMessageHandler[T any]]: [cast] is the type switch on [*T],
    [zero] the new instance and [type_text] the [%T] of the payload. *)
Definition RegisterServerMessageHandler {U} (cast : MessagePayload -> option U) (zero : any)
    (type_text : MessagePayload -> string) (messageType : Z) (handler : string -> U -> option error)
    (s : Server) : Server :=
  RegisterMessageHandler messageType
    (fun sessionId payload =>
      match cast payload with
      | Some t => handler sessionId t
      | None => Some (Errorf ("invalid payload struct type: " ++ type_text payload))
      end)
    (Some (fun _ => Some zero)) s.

(** [func (s *Server) DeregisterMessageHandler] *)
Definition DeregisterMessageHandler (messageType : Z) (s : Server) : Server :=
  with_handlers (delete messageType (messageHandlers s)) s.

(** [func (s *Server) GetMessageHandler] *)
Definition GetMessageHandler (messageType : Z) (s : Server) : option MessageHandlerData :=
  messageHandlers s !! messageType.

(** * Packets *)

(** A method call on the codec, a nil interface being a panic. *)
Definition with_codec {A} (s : Server) (f : Codec any -> result A) : result A :=
  match codec s with
  | Some c => f c
  | None => Panicked
  end.

(** [func (s *Server) defaultMarshalNetPacket] *)
Definition defaultMarshalNetPacket (s : Server) (messageType : Z) (message : any) : result (bytes + error) :=
  with_codec s (fun c =>
    match codec_Marshal c message with
    | inr err => Returned (inr err)
    | inl payload =>
        if payloadType s =? PayloadTypeBinary then Returned (Marshal (mkPacket messageType payload))
        else if payloadType s =? PayloadTypeText then Returned (codec_Marshal c (AText (mkText messageType payload)))
        else Returned (inr (Errorf "unknown payload type"))
    end).

(** The packet's type and raw payload, in the server's mode; an unknown mode
    leaves the zero values. *)
Definition unpack (s : Server) (buf : bytes) : Z * bytes + error :=
  if payloadType s =? PayloadTypeBinary then
    match Unmarshal (mkPacket 0 []) buf with
    | (Some err, _) => inr err
    | (None, m) => inl (pkt_Type m, pkt_Payload m)
    end
  else if payloadType s =? PayloadTypeText then
    match json_Unmarshal buf (mkText 0 []) with
    | (Some err, _) => inr err
    | (None, m) => inl (txt_Type m, txt_Payload m)
    end
  else inl (0, []).

(** [func (s *Server) defaultUnmarshalNetPacket] *)
Definition defaultUnmarshalNetPacket (s : Server) (buf : bytes) : result (MessageHandlerData * MessagePayload + error) :=
  match unpack s buf with
  | inr err => Returned (inr err)
  | inl (messageType, rawPayload) =>
      match GetMessageHandler messageType s with
      | None => Returned (inr (Errorf ("message handler not found: " ++ pretty messageType)))
      | Some handler =>
          match Create handler with
          | None => Returned (inl (handler, PBytes rawPayload))
          | Some payload =>
              with_codec s (fun c =>
                match codec_Unmarshal c rawPayload payload with
                | (Some err, _) => Returned (inr err)
                | (None, payload) => Returned (inl (handler, PValue payload))
                end)
          end
      end
  end.

(** [func extractMessageType(buf []byte, payloadType PayloadType) NetMessageType]:
    what [Unmarshal] left in the packet, its error ignored. *)
Definition extractMessageType (buf : bytes) (payloadType : Z) : Z :=
  if payloadType =? PayloadTypeBinary then pkt_Type (snd (Unmarshal (mkPacket 0 []) buf))
  else if payloadType =? PayloadTypeText then txt_Type (snd (json_Unmarshal buf (mkText 0 [])))
  else 0.

(** [func (s *Server) defaultHandleSocketRawData]: the handler is looked up a
    second time, in [s'], the server as it is by then. *)
Definition defaultHandleSocketRawData (s s' : Server) (sessionId : string) (buf : bytes) : result (option error) :=
  match defaultUnmarshalNetPacket s buf with
  | Panicked => Panicked
  | Returned (inr err) => Returned (Some err)
  | Returned (inl (_, payload)) =>
      match GetMessageHandler (extractMessageType buf (payloadType s')) s' with
      | None => Returned (Some (Errorf "message handler not found"))
      | Some handler => Returned (Handler handler sessionId payload)
      end
  end.

(** * Options and construction *)

Definition WithPath (p : string) : Server -> Server := fun s =>
  if String.eqb p "" then s else
  mkServer p (injectToken s) (tokenKey s) (payloadType s) (codec s) (messageHandlers s)
    (netPacketMarshaler s) (netPacketUnmarshaler s) (socketRawDataHandler s).
Definition WithPayloadType (t : Z) : Server -> Server := fun s =>
  mkServer (path s) (injectToken s) (tokenKey s) t (codec s) (messageHandlers s)
    (netPacketMarshaler s) (netPacketUnmarshaler s) (socketRawDataHandler s).
Definition WithCodec (cs : codecs any) (name : string) : Server -> Server := fun s =>
  if String.eqb name "" then s else
  mkServer (path s) (injectToken s) (tokenKey s) (payloadType s) (GetCodec name cs) (messageHandlers s)
    (netPacketMarshaler s) (netPacketUnmarshaler s) (socketRawDataHandler s).
Definition WithInjectTokenToQuery (enable : bool) (key : string) : Server -> Server := fun s =>
  mkServer (path s) enable key (payloadType s) (codec s) (messageHandlers s)
    (netPacketMarshaler s) (netPacketUnmarshaler s) (socketRawDataHandler s).
Definition WithMessageMarshaler (m : option (Z -> any -> result (bytes + error))) : Server -> Server := fun s =>
  mkServer (path s) (injectToken s) (tokenKey s) (payloadType s) (codec s) (messageHandlers s)
    m (netPacketUnmarshaler s) (socketRawDataHandler s).
Definition WithMessageUnmarshaler (m : option (bytes -> result (MessageHandlerData * MessagePayload + error))) :
    Server -> Server := fun s =>
  mkServer (path s) (injectToken s) (tokenKey s) (payloadType s) (codec s) (messageHandlers s)
    (netPacketMarshaler s) m (socketRawDataHandler s).
Definition WithSocketRawDataHandler (h : option (string -> bytes -> result (option error))) : Server -> Server := fun s =>
  match h with
  | None => s
  | Some _ =>
      mkServer (path s) (injectToken s) (tokenKey s) (payloadType s) (codec s) (messageHandlers s)
        (netPacketMarshaler s) (netPacketUnmarshaler s) h
  end.

(** [func NewServer(addr string, opts ...Option) *Server]: a function field left
    nil stands for the server's own default method, resolved at the call. *)
Definition NewServer (cs : codecs any) (opts : list (Server -> Server)) : Server :=
  let s := apply_opts opts (mkServer "/ws" true "token" PayloadTypeBinary None ∅ None None None) in
  match codec s with
  | Some _ => s
  | None =>
      mkServer (path s) (injectToken s) (tokenKey s) (payloadType s) (GetCodec "json" cs) (messageHandlers s)
        (netPacketMarshaler s) (netPacketUnmarshaler s) (socketRawDataHandler s)
  end.

(** [func (s *Server) marshalMessage] *)
Definition marshalMessage (s : Server) (messageType : Z) (message : any) : result (bytes + error) :=
  match netPacketMarshaler s with
  | Some f => f messageType message
  | None => defaultMarshalNetPacket s messageType message
  end.

(** [func (s *Server) handleSocketRawData] *)
Definition handleSocketRawData (s s' : Server) (sessionId : string) (buf : bytes) : result (option error) :=
  match socketRawDataHandler s with
  | Some f => f sessionId buf
  | None => defaultHandleSocketRawData s s' sessionId buf
  end.
End websocket.
Arguments any : clear implicits.
Arguments MessagePayload : clear implicits.
Arguments MessageHandlerData : clear implicits.
Arguments Server : clear implicits.

(** * Properties *)

Section websocket_facts.
Context {T : Type} (json_Unmarshal : bytes -> TextNetPacket -> option error * TextNetPacket).
Implicit Types (s : Server T) (t : Z).

(** The first registration of a type wins until it is deregistered; other types
    are not affected. *)
Lemma GetMessageHandler_register t t' h b s :
  GetMessageHandler t' (RegisterMessageHandler t h b s) =
    if decide (t = t') then Some (default (mkHandlerData h b) (GetMessageHandler t s)) else GetMessageHandler t' s.
Proof.
  unfold RegisterMessageHandler, GetMessageHandler. destruct (messageHandlers s !! t) eqn:E; simpl.
  - destruct (decide (t = t')) as [<-|]; [done|done].
  - destruct (decide (t = t')) as [<-|]; [by rewrite lookup_insert_eq|by rewrite lookup_insert_ne].
Qed.

Lemma GetMessageHandler_deregister t t' s :
  GetMessageHandler t' (DeregisterMessageHandler t s) = if decide (t = t') then None else GetMessageHandler t' s.
Proof.
  unfold DeregisterMessageHandler, GetMessageHandler. simpl.
  destruct (decide (t = t')) as [<-|]; [by rewrite lookup_delete_eq|by rewrite lookup_delete_ne].
Qed.

(** The type a packet unpacks to is the one extracted from it again. *)
Lemma extract_unpack s buf t raw :
  unpack json_Unmarshal s buf = inl (t, raw) -> extractMessageType json_Unmarshal buf (payloadType s) = t.
Proof.
  unfold unpack, extractMessageType. destruct (payloadType s =? PayloadTypeBinary).
  - destruct (Unmarshal _ buf) as [[?|] m]; [done|]. by intros [= <- _].
  - destruct (payloadType s =? PayloadTypeText); [|by intros [= <- _]].
    destruct (json_Unmarshal _ _) as [[?|] m]; [done|]. by intros [= <- _].
Qed.

(** What a packet is meant to do: one lookup, one decoding, one call. *)
Definition dispatch_spec s (sessionId : string) (buf : bytes) : result (option error) :=
  match unpack json_Unmarshal s buf with
  | inr err => Returned (Some err)
  | inl (t, raw) =>
      match messageHandlers s !! t with
      | None => Returned (Some (Errorf ("message handler not found: " ++ pretty t)))
      | Some h =>
          match Create h with
          | None => Returned (Handler h sessionId (PBytes raw))
          | Some v0 =>
              match codec s with
              | None => Panicked
              | Some c =>
                  match codec_Unmarshal c raw v0 with
                  | (Some err, _) => Returned (Some err)
                  | (None, v) => Returned (Handler h sessionId (PValue v))
                  end
              end
          end
      end
  end.

(** While the handlers do not change, the two-phase dispatch of the code is the
    intended one. *)
Lemma defaultHandle_dispatch s sessionId buf :
  defaultHandleSocketRawData json_Unmarshal s s sessionId buf = dispatch_spec s sessionId buf.
Proof.
  unfold defaultHandleSocketRawData, defaultUnmarshalNetPacket, dispatch_spec, with_codec, GetMessageHandler.
  destruct (unpack json_Unmarshal s buf) as [[t raw]|err] eqn:E; [|done].
  rewrite (extract_unpack _ _ _ _ E). destruct (messageHandlers s !! t) as [h|]; [|done].
  destruct (Create h) as [v0|]; [|done]. destruct (codec s) as [c|]; [|done].
  by destruct (codec_Unmarshal c raw v0) as [[err|] v].
Qed.

(** A handler deregistered between the two lookups is reported as missing, and
    not called. *)
Lemma dispatch_deregistered s sessionId buf t raw :
  unpack json_Unmarshal s buf = inl (t, raw) ->
  forall h v, defaultUnmarshalNetPacket json_Unmarshal s buf = Returned (inl (h, v)) ->
  defaultHandleSocketRawData json_Unmarshal s (DeregisterMessageHandler t s) sessionId buf =
    Returned (Some (Errorf "message handler not found")).
Proof.
  intros E h v Hu. unfold defaultHandleSocketRawData. rewrite Hu. cbn [payloadType DeregisterMessageHandler with_handlers].
  rewrite (extract_unpack _ _ _ _ E), GetMessageHandler_deregister. by rewrite decide_True.
Qed.

(** [encoding/json] documents that it decodes what it encoded, for strings of
    valid UTF-8 ([text_ok]); the codec of the text mode is JSON. *)
Definition json_text_codec (text_ok : bytes -> bool) (c : Codec (any T)) : Prop :=
  forall t p buf, in_uint32 t -> text_ok p = true -> codec_Marshal c (AText (mkText t p)) = inl buf ->
    json_Unmarshal buf (mkText 0 []) = (None, mkText t p).

Lemma unpack_marshal s text_ok c t p buf :
  json_text_codec text_ok c -> codec s = Some c -> in_uint32 t ->
  (payloadType s = PayloadTypeText -> text_ok p = true) ->
  (forall v, codec_Marshal c v = inl p ->
    defaultMarshalNetPacket s t v = Returned (inl buf) -> unpack json_Unmarshal s buf = inl (t, p)).
Proof.
  intros Hj Hc Ht Hok v Hp. unfold defaultMarshalNetPacket, with_codec, unpack. rewrite Hc, Hp.
  destruct (payloadType s =? PayloadTypeBinary) eqn:Eb.
  - intros Hm. assert (Marshal (mkPacket t p) = inl buf) as Hm' by congruence.
    rewrite (unmarshal_marshal (mkPacket t p) (mkPacket 0 []) buf Ht Hm'). done.
  - destruct (payloadType s =? PayloadTypeText) eqn:Et; [|done]. apply Z.eqb_eq in Et.
    intros [= Hm]. by rewrite (Hj _ _ _ Ht (Hok Et) Hm).
Qed.

(** A message one server marshals, in either payload mode, is dispatched by
    a server of the same configuration to the handler registered for its type,
    with the value the codec decodes into the handler's fresh instance; a handler
    without creator gets the encoded payload itself.  Errors of the codec reach
    the caller, and no other handler runs. *)
Theorem ws_message_round_trip s text_ok c t v p buf h sessionId :
  json_text_codec text_ok c -> codec s = Some c -> in_uint32 t ->
  (payloadType s = PayloadTypeText -> text_ok p = true) ->
  netPacketMarshaler s = None -> socketRawDataHandler s = None ->
  codec_Marshal c v = inl p -> marshalMessage s t v = Returned (inl buf) ->
  GetMessageHandler t s = Some h ->
  handleSocketRawData json_Unmarshal s s sessionId buf =
    match Create h with
    | None => Returned (Handler h sessionId (PBytes p))
    | Some v0 =>
        match codec_Unmarshal c p v0 with
        | (Some err, _) => Returned (Some err)
        | (None, v') => Returned (Handler h sessionId (PValue v'))
        end
    end.
Proof.
  intros Hj Hc Ht Hok Hn Hr Hp Hm Hh. unfold marshalMessage in Hm. rewrite Hn in Hm.
  unfold handleSocketRawData. rewrite Hr, defaultHandle_dispatch. unfold dispatch_spec.
  rewrite (unpack_marshal s text_ok c t p buf Hj Hc Ht Hok v Hp Hm).
  unfold GetMessageHandler in Hh. rewrite Hh, Hc. done.
Qed.
End websocket_facts.

(** A JSON codec restricted to what the witness sends: packets of type 7. *)
Definition toy_text (p : bytes) : bytes := String.list_ascii_of_string "{type:7}" ++ p.
Definition toy_json (b : bytes) (m : TextNetPacket) : option error * TextNetPacket :=
  if decide (take 8 b = toy_text []) then (None, mkText 7 (drop 8 b)) else (Some (Errorf "bad"), m).
Definition toy_codec : Codec (any string) :=
  mkCodec
    (fun v => match v with
              | AText p => if txt_Type p =? 7 then inl (toy_text (txt_Payload p)) else inr (Errorf "type")
              | AValue x => inl (String.list_ascii_of_string x)
              end)
    (fun b _ => (None, AValue (String.string_of_list_ascii b))) "json".
Definition toy_handler : MessageHandlerData string :=
  mkHandlerData (fun sid v => match v with
                              | PValue (AValue x) => if String.eqb x "hi" then None else Some (Errorf x)
                              | _ => Some (Errorf sid) end)
    (Some (fun _ => Some (AValue ""))).

Lemma ws_message_round_trip_witness :
  let s := with_handlers {[7 := toy_handler]}
             (NewServer {["json" := toy_codec]} [WithPayloadType PayloadTypeText]) in
  marshalMessage s 7 (AValue "hi") = Returned (inl (toy_text (String.list_ascii_of_string "hi"))) /\
  handleSocketRawData toy_json s s "sid" (toy_text (String.list_ascii_of_string "hi")) = Returned None.
Proof.
  intros s. split; [reflexivity|].
  refine (ws_message_round_trip toy_json s (fun _ => true) toy_codec 7 (AValue "hi")
    (String.list_ascii_of_string "hi") _ toy_handler "sid" _ _ _ _ _ _ _ _ _); try reflexivity.
  - intros t p buf _ _. simpl. destruct (Z.eqb_spec t 7) as [->|]; [|done]. intros [= <-].
    unfold toy_json. rewrite decide_True; reflexivity.
  - unfold in_uint32. lia.
Defined.
