(* ===== verification/WsSession.v ===== *)
(** [transport/websocket], sessions: [session.go], [session_manager.go] and the
    session half of [server.go], as interleaved steps of the goroutines that
    share a session: the HTTP handler that makes it, its write and read pumps,
    senders, whoever closes it, and [Clean]. *)
From Stdlib Require Import ZArith Lia Ascii.
From S2P Require Import Prelude GoErrors Http NetPacket WebSocket.
From stdpp Require Import base gmap strings list fin_maps.
Open Scope string_scope.
Open Scope list_scope.

(** * A session *)

(** How far [wsHandler] has brought the session: made, stored in the manager,
    announced to the observer, its pumps started. *)
Inductive phase := Made | Stored | Announced | Listening.

(** How far the function under [closeOnce] has run: [close(s.done)], [s.conn = nil],
    [conn.Close()], the deletion from the manager, the observer's callback. *)
Inductive stage := Open | Quit | Detached | Disconnected | Removed | Closed.

#[export] Instance phase_eq_dec : EqDecision phase.
Proof. solve_decision. Defined.
#[export] Instance stage_eq_dec : EqDecision stage.
Proof. solve_decision. Defined.

Definition phase_rank (p : phase) : nat := match p with Made => 0 | Stored => 1 | Announced => 2 | Listening => 3 end.
Definition stage_rank (s : stage) : nat :=
  match s with Open => 0 | Quit => 1 | Detached => 2 | Disconnected => 3 | Removed => 4 | Closed => 5 end.

(** [writePump]: in its select, with a message, with a message and the
    connection, in the deferred [Close], returned. *)
Inductive wpump := WNone | WIdle | WHolding (m : bytes) | WConn (m : bytes) | WClosing | WExited.
(** [readPump]: at the top of its loop, in [ReadMessage], in the deferred
    [Close], returned. *)
Inductive rpump := RNone | RIdle | RReading | RClosing | RExited.

(** What [conn.ReadMessage] returns; a ping carries whether the pong is sent. *)
Inductive inbound := MsgErr | MsgClose | MsgBinary (d : bytes) | MsgText (d : bytes) | MsgPing (ok : bool) | MsgPong.

(** [type Session struct], with its history: the messages accepted by
    [SendMessage], those written to the connection, the data handed on. *)
Record Session := mkSession {
  sid : string;
  queries : gmap string (list string);
  cap : nat;
  ph : phase;
  stg : stage;
  send : list bytes;
  wp : wpump;
  rp : rpump;
  accepted : list bytes;
  written : list bytes;
  handled : list bytes
}.

(** [func NewSession]: the channel's capacity is the package's [channelBufSize] at
    this moment. *)
Definition NewSession (channelBufSize : nat) (id : string) (vars : gmap string (list string)) : Session :=
  mkSession id vars channelBufSize Made Open [] WNone RNone [] [] [].

Definition set_ph p s := mkSession (sid s) (queries s) (cap s) p (stg s) (send s) (wp s) (rp s) (accepted s) (written s) (handled s).
Definition set_stg g s := mkSession (sid s) (queries s) (cap s) (ph s) g (send s) (wp s) (rp s) (accepted s) (written s) (handled s).
Definition set_wp w s := mkSession (sid s) (queries s) (cap s) (ph s) (stg s) (send s) w (rp s) (accepted s) (written s) (handled s).
Definition set_rp r s := mkSession (sid s) (queries s) (cap s) (ph s) (stg s) (send s) (wp s) r (accepted s) (written s) (handled s).

(** [s.done] is closed; [s.conn] is nil; the connection is closed. *)
Definition is_done (s : Session) : bool := (1 <=? stage_rank (stg s))%nat.
Definition conn_nil (s : Session) : bool := (2 <=? stage_rank (stg s))%nat.
Definition conn_closed (s : Session) : bool := (3 <=? stage_rank (stg s))%nat.

(** [func (s *Session) SendMessage(message []byte)]: with both cases of the select
    ready, [drop] is the choice; [None] while the call blocks. *)
Definition SendMessage (drop : bool) (m : bytes) (s : Session) : option Session :=
  if is_done s && drop then Some s
  else if (length (send s) <? cap s)%nat then
    Some (mkSession (sid s) (queries s) (cap s) (ph s) (stg s) (send s ++ [m]) (wp s) (rp s)
            (accepted s ++ [m]) (written s) (handled s))
  else if is_done s then Some s
  else None.

(** ** [func (s *Session) writePump()] *)

Section pumps.
Context (payloadType : Z).

(** [case msg := <-s.send] *)
Definition write_take (s : Session) : option Session :=
  match wp s, send s with
  | WIdle, m :: q =>
      Some (mkSession (sid s) (queries s) (cap s) (ph s) (stg s) q (WHolding m) (rp s) (accepted s) (written s) (handled s))
  | _, _ => None
  end.

(** [case <-s.done: return] *)
Definition write_done (s : Session) : option Session :=
  match wp s with
  | WIdle => if is_done s then Some (set_wp WClosing s) else None
  | _ => None
  end.

(** The switch on the payload type and [conn := s.conn] of [sendBinaryMessage] and
    [sendTextMessage]: a nil connection is no error. *)
Definition write_conn (s : Session) : option Session :=
  match wp s with
  | WHolding m =>
      if (payloadType =? PayloadTypeBinary)%Z || (payloadType =? PayloadTypeText)%Z then
        if conn_nil s then Some (set_wp WIdle s) else Some (set_wp (WConn m) s)
      else Some (set_wp WIdle s)
  | _ => None
  end.

(** [conn.WriteMessage], which fails on a closed connection. *)
Definition write_message (ok : bool) (s : Session) : option Session :=
  match wp s with
  | WConn m =>
      if ok && negb (conn_closed s) then
        Some (mkSession (sid s) (queries s) (cap s) (ph s) (stg s) (send s) WIdle (rp s) (accepted s)
                (written s ++ [m]) (handled s))
      else Some (set_wp WClosing s)
  | _ => None
  end.

(** ** [func (s *Session) readPump()] *)

Definition read_check (s : Session) : option Session :=
  match rp s with
  | RIdle => Some (set_rp (if is_done s || conn_nil s then RClosing else RReading) s)
  | _ => None
  end.

Definition read_message (m : inbound) (s : Session) : option Session :=
  match rp s with
  | RReading =>
      let deliver d := mkSession (sid s) (queries s) (cap s) (ph s) (stg s) (send s) (wp s) RIdle (accepted s)
                         (written s) (handled s ++ [d]) in
      match (if conn_closed s then MsgErr else m) with
      | MsgErr | MsgClose | MsgPing false => Some (set_rp RClosing s)
      | MsgBinary d => Some (deliver d)
      | MsgText d => Some (deliver d)
      | MsgPing true | MsgPong => Some (set_rp RIdle s)
      end
  | _ => None
  end.

(** ** [func (s *Session) Close()]

    The pumps call it on their way out and wait for it to finish: [closeOnce]
    runs its function once, and every other caller waits for that run. *)

Definition pump_closes (s : Session) : bool :=
  match wp s, rp s with
  | WClosing, _ | _, RClosing => true
  | _, _ => false
  end.

Definition close_begin (s : Session) : option Session :=
  match stg s with Open => Some (set_stg Quit s) | _ => None end.

(** [func (s *Session) closeConnect()] *)
Definition close_detach (s : Session) : option Session :=
  match stg s with Quit => Some (set_stg Detached s) | _ => None end.
Definition close_disconnect (s : Session) : option Session :=
  match stg s with Detached => Some (set_stg Disconnected s) | _ => None end.

Definition pump_exit (s : Session) : option Session :=
  match stg s with
  | Closed =>
      match wp s, rp s with
      | WClosing, _ => Some (set_wp WExited s)
      | _, RClosing => Some (set_rp RExited s)
      | _, _ => None
      end
  | _ => None
  end.

(** [func (s *Session) Listen()]: once, after the session was announced. *)
Definition Listen (s : Session) : option Session :=
  match ph s with
  | Announced => Some (set_rp RIdle (set_wp WIdle (set_ph Listening s)))
  | _ => None
  end.

(** The steps of a session that touch nothing else. *)
Inductive local :=
| LListen
| LSend (drop : bool) (m : bytes)
| LTake | LWriteDone | LConn | LWrite (ok : bool)
| LCheck | LRead (m : inbound)
| LPumpClose | LDetach | LDisconnect | LExit.

Definition local_step (l : local) (s : Session) : option Session :=
  match l with
  | LListen => Listen s
  | LSend drop m => SendMessage drop m s
  | LTake => write_take s
  | LWriteDone => write_done s
  | LConn => write_conn s
  | LWrite ok => write_message ok s
  | LCheck => read_check s
  | LRead m => read_message m s
  | LPumpClose => if pump_closes s then close_begin s else None
  | LDetach => close_detach s
  | LDisconnect => close_disconnect s
  | LExit => pump_exit s
  end.

(** * The manager *)

(** The session objects, the manager's map, the observer's callbacks in order
    (the session and whether it connected), and the runs of [Clean]: the
    sessions its [Range] must still see closed. *)
Record Manager := mkManager {
  objects : gmap nat Session;
  sessions : gmap string nat;
  callbacks : list (nat * bool);
  cleaners : list (list nat)
}.

Definition on_session (f : Session -> option Session) (p : nat) (g : Manager) : option Manager :=
  s ← objects g !! p;
  s' ← f s;
  Some (mkManager (<[p := s']> (objects g)) (sessions g) (callbacks g) (cleaners g)).

(** [func (s *Server) wsHandler], after a successful upgrade: [uuid.New] gives an
    identifier no session has. *)
Definition make_session (channelBufSize p : nat) (id : string) (vars : gmap string (list string)) (g : Manager) : option Manager :=
  if decide (objects g !! p = None /\ map_Forall (fun _ s => sid s <> id) (objects g))
  then Some (mkManager (<[p := NewSession channelBufSize id vars]> (objects g)) (sessions g) (callbacks g) (cleaners g))
  else None.

(** [func (sm *SessionManager) AddSession]: the store, then the observer. *)
Definition add_store (p : nat) (g : Manager) : option Manager :=
  s ← objects g !! p;
  match ph s with
  | Made => Some (mkManager (<[p := set_ph Stored s]> (objects g)) (<[sid s := p]> (sessions g)) (callbacks g) (cleaners g))
  | _ => None
  end.

Definition add_notify (p : nat) (g : Manager) : option Manager :=
  s ← objects g !! p;
  match ph s with
  | Stored => Some (mkManager (<[p := set_ph Announced s]> (objects g)) (sessions g) (callbacks g ++ [(p, true)]) (cleaners g))
  | _ => None
  end.

(** [func (sm *SessionManager) RemoveSession], called by the closing function. *)
Definition remove_delete (p : nat) (g : Manager) : option Manager :=
  s ← objects g !! p;
  match stg s with
  | Disconnected =>
      Some (mkManager (<[p := set_stg Removed s]> (objects g)) (delete (sid s) (sessions g)) (callbacks g) (cleaners g))
  | _ => None
  end.

Definition remove_notify (p : nat) (g : Manager) : option Manager :=
  s ← objects g !! p;
  match stg s with
  | Removed => Some (mkManager (<[p := set_stg Closed s]> (objects g)) (sessions g) (callbacks g ++ [(p, false)]) (cleaners g))
  | _ => None
  end.

(** [func (sm *SessionManager) Clean()]: the [Range] visits at least the sessions
    present when it starts, closing each and waiting for that; a session stored
    meanwhile may be visited too; then [Clear]. *)
Definition clean_begin (g : Manager) : option Manager :=
  Some (mkManager (objects g) (sessions g) (callbacks g) (cleaners g ++ [map snd (map_to_list (sessions g))])).

Definition registered (p : nat) (g : Manager) : bool :=
  match objects g !! p with
  | Some s => bool_decide (sessions g !! sid s = Some p)
  | None => false
  end.

Definition clean_visit (i p : nat) (g : Manager) : option Manager :=
  _ ← cleaners g !! i;
  if registered p g then on_session close_begin p g else None.

Definition clean_clear (i : nat) (g : Manager) : option Manager :=
  todo ← cleaners g !! i;
  if existsb (fun p => registered p g) todo then None
  else Some (mkManager (objects g) ∅ (callbacks g) (delete i (cleaners g))).

(** [func (sm *SessionManager) Count() int] and [GetSession] *)
Definition Count (g : Manager) : nat := size (sessions g).
Definition GetSession (id : string) (g : Manager) : option nat := sessions g !! id.

(** [func (s *Server) SendRawMessage] *)
Definition SendRawMessage (drop : bool) (id : string) (m : bytes) (g : Manager) : option (option error * Manager) :=
  match GetSession id g with
  | None => Some (Some (Errorf ("session not found: " ++ id)), g)
  | Some p => g' ← on_session (SendMessage drop m) p g; Some (None, g')
  end.

(** [func (s *Server) Broadcast], after the message is marshalled: the sessions
    collected by [RangeSessions], one after the other; [None] while one blocks. *)
Fixpoint broadcast (drop : bool) (ps : list nat) (m : bytes) (g : Manager) : option Manager :=
  match ps with
  | [] => Some g
  | p :: ps' => g' ← on_session (SendMessage drop m) p g; broadcast drop ps' m g'
  end.

Definition Broadcast (drop : bool) (m : bytes) (g : Manager) : option Manager :=
  broadcast drop (map snd (map_to_list (sessions g))) m g.

Inductive event :=
| EMake (channelBufSize p : nat) (id : string) (vars : gmap string (list string))
| EStore (p : nat) | EAnnounce (p : nat)
| ELocal (p : nat) (l : local)
| ERemove (p : nat) | EFarewell (p : nat)
| EClean | EVisit (i p : nat) | EClear (i : nat).

Definition step (e : event) (g : Manager) : option Manager :=
  match e with
  | EMake n p id vars => make_session n p id vars g
  | EStore p => add_store p g
  | EAnnounce p => add_notify p g
  | ELocal p l => on_session (local_step l) p g
  | ERemove p => remove_delete p g
  | EFarewell p => remove_notify p g
  | EClean => clean_begin g
  | EVisit i p => clean_visit i p g
  | EClear i => clean_clear i g
  end.

Definition empty_manager : Manager := mkManager ∅ ∅ [] [].

(** Reachability by the steps. *)
Inductive reachable : Manager -> Prop :=
| reach_empty : reachable empty_manager
| reach_step e g g' : reachable g -> step e g = Some g' -> reachable g'.

Fixpoint run_events (es : list event) (g : Manager) : option Manager :=
  match es with
  | [] => Some g
  | e :: es' => g' ← step e g; run_events es' g'
  end.
End pumps.

(** * [wsHandler], up to the session *)

(** The subprotocols the upgrader offers, and the query values of the session;
    [upgrade] is gorilla's [Upgrade]. *)
Definition wsHandler_token (r : Request) : string := header_Get "Sec-Websocket-Protocol" (req_Header r).

Definition wsHandler {C T} (upgrade : list string -> Request -> C + error) (query : Request -> gmap string (list string))
    (s : Server T) (r : Request) : option (C * gmap string (list string)) :=
  let token := wsHandler_token r in
  let subprotocols := if negb (String.eqb token "") then [token] else [] in
  match upgrade subprotocols r with
  | inr _ => None
  | inl conn =>
      let vars := query r in
      Some (conn, if negb (String.eqb token "") && injectToken s then <[tokenKey s := [token]]> vars else vars)
  end.

(** * Properties *)

Definition held (w : wpump) : list bytes := match w with WHolding m | WConn m => [m] | _ => [] end.

(** The well-formedness of one session: what was accepted is, in order, what was
    written, a stretch of messages lost, what the writer holds and what waits;
    nothing is lost while the connection is there and the writer runs. *)
Record sess_ok (s : Session) : Prop := {
  ok_flow : exists lost,
    written s ++ lost ++ held (wp s) ++ send s = accepted s /\
    (lost <> [] -> conn_nil s = true \/ wp s = WClosing \/ wp s = WExited) /\
    (forall m, wp s = WConn m -> lost = []);
  ok_cap : (length (send s) <= cap s)%nat;
  ok_pumps : ph s <> Listening -> wp s = WNone /\ rp s = RNone;
  ok_started : ph s = Listening -> wp s <> WNone /\ rp s <> RNone;
  ok_closing : stg s <> Open -> (1 <= phase_rank (ph s))%nat
}.

(** What the manager can tell about a session. *)
Definition view (s : Session) : string * bool * bool * bool * bool :=
  (sid s, (1 <=? phase_rank (ph s))%nat, (2 <=? phase_rank (ph s))%nat, (stage_rank (stg s) <=? 3)%nat,
   (5 <=? stage_rank (stg s))%nat).

Lemma conn_nil_mono s g : conn_nil s = true -> (stage_rank (stg s) <= stage_rank g)%nat -> conn_nil (set_stg g s) = true.
Proof. unfold conn_nil. cbn [stg set_stg]. intros H%Nat.leb_le Hg. apply Nat.leb_le. lia. Qed.

(** Closing further keeps a session well formed. *)
Lemma sess_ok_stage s g :
  sess_ok s -> (stage_rank (stg s) <= stage_rank g)%nat -> (1 <= phase_rank (ph s))%nat -> sess_ok (set_stg g s).
Proof.
  intros [(lost&Hf&Hl&Hc) ? ? ? ?] Hg Hp. split; simpl; auto.
  exists lost. repeat split; auto. intros Hne. destruct (Hl Hne) as [H|[H|H]]; auto.
  left. by apply conn_nil_mono.
Qed.

Lemma sess_ok_phase s p :
  sess_ok s -> p <> Listening -> ph s <> Listening -> (phase_rank (ph s) <= phase_rank p)%nat -> sess_ok (set_ph p s).
Proof.
  intros [Hf ? Hp ? Hc] Hn Hn' Hr. split; simpl; auto. intros H%Hc. lia.
Qed.

Lemma sess_ok_new n id vars : sess_ok (NewSession n id vars).
Proof.
  split; simpl; try done; [|lia]. exists []. done.
Qed.

Definition known (payloadType : Z) : Prop := payloadType = PayloadTypeBinary \/ payloadType = PayloadTypeText.

(** The case analysis of a step function. *)
Ltac step_cases H :=
  repeat match type of H with
  | context [match ?x with _ => _ end] => let E := fresh "E" in destruct x eqn:E
  end; simplify_eq.

Lemma sess_ok_rp s r : sess_ok s -> rp s <> RNone -> r <> RNone -> sess_ok (set_rp r s).
Proof.
  intros [? ? Hp Hst ?] H0 Hr. split; simpl; auto.
  - intros n. by destruct (Hp n).
  - intros n. split; [by apply Hst|done].
Qed.

(** Steps of the reader, and the senders, keep a session well formed. *)
Lemma read_ok s s' :
  sess_ok s -> read_check s = Some s' \/ (exists m, read_message m s = Some s') -> sess_ok s'.
Proof.
  intros [Hf ? Hp Hst ?] Hl.
  assert (exists r, r <> RNone /\ rp s <> RNone /\
    (s' = set_rp r s \/ exists d, s' = mkSession (sid s) (queries s) (cap s) (ph s) (stg s) (send s) (wp s) r (accepted s)
                         (written s) (handled s ++ [d]))) as (r&Hr&Hr0&Hs').
  { destruct Hl as [Hl|[m Hl]]; [unfold read_check in Hl|unfold read_message in Hl]; step_cases Hl; eexists;
      (split; [|split; [|by eauto]]); by try case_if. }
  assert (ph s = Listening) by (destruct (decide (ph s = Listening)) as [|n]; [done|by destruct (Hp n)]).
  destruct Hs' as [->|[d ->]]; split; simpl; auto; try congruence; intros _; split; auto; by apply Hst.
Qed.

Lemma SendMessage_ok drop m s s' : sess_ok s -> SendMessage drop m s = Some s' -> sess_ok s'.
Proof.
  intros Hs Hl. pose proof Hs as [(lost&Hf&Hlost&Hconn) Hcap Hpumps Hst Hclose].
  unfold SendMessage in Hl. step_cases Hl; try done. apply Nat.ltb_lt in E0.
  split; simpl; auto; [|rewrite length_app; simpl; lia].
  exists lost. rewrite <- Hf, !app_assoc. auto.
Qed.

(** Changing the writer's state and the history together keeps a session well
    formed when the flow does. *)
Lemma sess_ok_flow s q w wr lost :
  sess_ok s -> wp s <> WNone -> w <> WNone -> (length q <= cap s)%nat ->
  wr ++ lost ++ held w ++ q = accepted s ->
  (lost <> [] -> conn_nil s = true \/ w = WClosing \/ w = WExited) ->
  (forall m, w = WConn m -> lost = []) ->
  sess_ok (mkSession (sid s) (queries s) (cap s) (ph s) (stg s) q w (rp s) (accepted s) wr (handled s)).
Proof.
  intros [_ ? Hp Hst ?] Hw0 Hw Hq Hf Hl Hc. split; simpl; eauto.
  - intros n. by destruct (Hp n).
  - intros n. split; [done|]. by apply Hst.
Qed.

Lemma write_ok payloadType l s s' :
  known payloadType -> l = LTake \/ l = LWriteDone \/ l = LConn \/ (exists ok, l = LWrite ok) ->
  sess_ok s -> local_step payloadType l s = Some s' -> sess_ok s'.
Proof.
  intros Hpt Hl Hs Hst. pose proof Hs as [(lost&Hf&Hlost&Hconn) Hcap _ _ _].
  assert ((payloadType =? PayloadTypeBinary)%Z || (payloadType =? PayloadTypeText)%Z = true) as Hk
    by (by destruct Hpt as [->| ->]).
  destruct Hl as [->|[->|[->|[ok ->]]]]; cbn [local_step] in Hst.
  - unfold write_take in Hst. step_cases Hst. simpl in *.
    apply (sess_ok_flow _ _ _ _ lost); auto; try congruence; [lia|].
    intros Hne. destruct (Hlost Hne) as [|[|]]; auto; congruence.
  - unfold write_done in Hst. step_cases Hst.
    apply (sess_ok_flow _ (send s) WClosing (written s) lost); auto; congruence.
  - unfold write_conn in Hst. rewrite Hk in Hst. step_cases Hst; simpl in *.
    + apply (sess_ok_flow _ (send s) WIdle (written s) (lost ++ [m])); auto; try congruence.
      rewrite <- Hf, <- !app_assoc. done.
    + apply (sess_ok_flow _ (send s) (WConn m) (written s) lost); auto; try congruence.
      * intros Hne. destruct (Hlost Hne) as [|[|]]; congruence.
      * intros m' [= <-]. destruct lost; [done|]. destruct Hlost as [|[|]]; congruence.
  - unfold write_message in Hst. step_cases Hst; simpl in *.
    + rewrite (Hconn m eq_refl) in Hf.
      apply (sess_ok_flow _ (send s) WIdle (written s ++ [m]) []); auto; try congruence.
      rewrite <- Hf, <- !app_assoc. done.
    + apply (sess_ok_flow _ (send s) WClosing (written s) (lost ++ [m])); auto; try congruence.
      rewrite <- Hf, <- !app_assoc. done.
Qed.

(** Every step of a session keeps it well formed. *)
Lemma local_step_ok payloadType l s s' :
  known payloadType -> sess_ok s -> local_step payloadType l s = Some s' -> sess_ok s'.
Proof.
  intros Hpt Hs Hl. pose proof Hs as [(lost&Hf&Hlost&Hconn) Hcap Hpumps Hst Hclose].
  destruct l; try (eapply write_ok; [done| |done|done]; eauto; fail); cbn [local_step] in Hl;
    eauto using SendMessage_ok, read_ok.
  - unfold Listen in Hl. step_cases Hl. destruct Hpumps as [Hw Hr]; [congruence|].
    split; simpl; auto; try done; try lia. rewrite Hw in Hf, Hlost. exists lost. split; [done|].
    split; [|congruence]. intros Hne. destruct (Hlost Hne) as [|[|]]; auto; congruence.
  - destruct (pump_closes s) eqn:Ep; [|done]. unfold close_begin in Hl. step_cases Hl.
    apply sess_ok_stage; auto; [rewrite E; simpl; lia|]. destruct (ph s) eqn:E'; simpl; try lia;
      destruct Hpumps as [Hw Hr]; try congruence; unfold pump_closes in Ep; by rewrite Hw, Hr in Ep.
  - unfold close_detach in Hl. step_cases Hl. apply sess_ok_stage; auto; rewrite ?E; simpl; lia.
  - unfold close_disconnect in Hl. step_cases Hl. apply sess_ok_stage; auto; rewrite ?E; simpl; lia.
  - unfold pump_exit in Hl. step_cases Hl; try (apply sess_ok_rp; [done|congruence|done]).
    apply (sess_ok_flow _ (send s) WExited (written s) lost); auto; congruence.
Qed.

(** The manager cannot tell the steps of a session apart, closing included, up
    to the deletion from its map. *)
Lemma local_step_view payloadType l s s' : local_step payloadType l s = Some s' -> view s' = view s.
Proof.
  destruct l; cbn [local_step]; unfold Listen, SendMessage, write_take, write_done, write_conn, write_message, read_check,
    read_message, close_begin, close_detach, close_disconnect, pump_exit; intros H; step_cases H; try done;
    unfold view; simpl; congruence || by rewrite ?E, ?E0, ?E1.
Qed.

(** How often the observer was told that [p] connected, or disconnected, and how
    often it is due. *)
Definition calls (p : nat) (b : bool) (cs : list (nat * bool)) : nat := length (filter (fun c => c = (p, b)) cs).

Definition due (o : option Session) (b : bool) : nat :=
  match o with
  | None => 0
  | Some s =>
      let '(_, _, announced, _, closed) := view s in if (if b then announced else closed) then 1 else 0
  end.

Definition live (s : Session) : Prop := (1 <= phase_rank (ph s))%nat /\ (stage_rank (stg s) <= 3)%nat.

Record inv (g : Manager) : Prop := {
  inv_ok : map_Forall (fun _ s => sess_ok s) (objects g);
  inv_ids : forall p q s t, objects g !! p = Some s -> objects g !! q = Some t -> sid s = sid t -> p = q;
  inv_reg : forall id p, sessions g !! id = Some p -> exists s, objects g !! p = Some s /\ sid s = id /\ live s;
  inv_calls : forall p b, calls p b (callbacks g) = due (objects g !! p) b
}.

Lemma view_live s s' : view s' = view s -> live s -> live s'.
Proof.
  intros H [H1%Nat.leb_le H2%Nat.leb_le].
  pose proof (f_equal (fun '(_, a, _, _, _) => a) H) as E1. pose proof (f_equal (fun '(_, _, _, b, _) => b) H) as E2.
  unfold view in E1, E2. split; apply Nat.leb_le; congruence.
Qed.

Lemma view_sid s s' : view s' = view s -> sid s' = sid s.
Proof. intros H. exact (f_equal (fun '(i, _, _, _, _) => i) H). Qed.

Lemma calls_snoc p b cs q c : calls p b (cs ++ [(q, c)]) = (calls p b cs + if decide ((q, c) = (p, b)) then 1 else 0)%nat.
Proof. unfold calls. rewrite filter_app, length_app, filter_cons, filter_nil. by case_decide. Qed.

(** Replacing an object: what the manager knows of it is unchanged, or changes
    together with the map and the callbacks. *)
Lemma inv_replace g p s s' ss cbs cl :
  inv g -> objects g !! p = Some s -> sess_ok s' -> sid s' = sid s ->
  (forall id q, ss !! id = Some q ->
     (q = p /\ id = sid s' /\ live s') \/ (q <> p /\ sessions g !! id = Some q)) ->
  (forall q b, q <> p -> calls q b cbs = calls q b (callbacks g)) ->
  (forall b, calls p b cbs = due (Some s') b) ->
  inv (mkManager (<[p := s']> (objects g)) ss cbs cl).
Proof.
  intros [Hok Hids Hreg Hcalls] Hp Hs' Hsid Hss Hc Hcp. split; cbn [objects sessions callbacks].
  - intros q t. rewrite lookup_insert_Some. intros [[<- <-]|[_ ?]]; [done|by eapply Hok].
  - intros q r t u. rewrite !lookup_insert_Some.
    intros [[<- <-]|[? Ht]] [[<- <-]|[? Hu]] E; try done; rewrite ?Hsid in E.
    + by eapply (Hids p r).
    + symmetry in E. symmetry. by eapply (Hids p q).
    + by eapply Hids.
  - intros id q Hq. destruct (Hss _ _ Hq) as [(->&->&Hl)|[Hne Hq']].
    + exists s'. by rewrite lookup_insert_eq.
    + rewrite lookup_insert_ne by done. by apply Hreg.
  - intros q b. destruct (decide (q = p)) as [->|Hne].
    + rewrite lookup_insert_eq. apply Hcp.
    + rewrite lookup_insert_ne by done. rewrite Hc by done. apply Hcalls.
Qed.

(** The entry of [p] in the manager's map is under its own identifier. *)
Lemma inv_reg_at g p s id q :
  inv g -> objects g !! p = Some s -> sessions g !! id = Some q ->
  (q = p /\ id = sid s /\ live s) \/ q <> p.
Proof.
  intros [_ _ Hreg _] Hp Hq. destruct (decide (q = p)) as [->|]; [left|by right].
  destruct (Hreg _ _ Hq) as (t&Ht&<-&Hl). rewrite Hp in Ht. injection Ht as <-. done.
Qed.

Lemma inv_view g p s s' cl :
  inv g -> objects g !! p = Some s -> sess_ok s' -> view s' = view s ->
  inv (mkManager (<[p := s']> (objects g)) (sessions g) (callbacks g) cl).
Proof.
  intros Hi Hp Hs' Hv. eapply inv_replace; eauto using view_sid.
  - intros id q Hq. destruct (inv_reg_at _ _ _ _ _ Hi Hp Hq) as [(->&->&Hl)|]; [left|by right].
    eauto using view_sid, eq_sym, view_live.
  - intros b. rewrite (inv_calls _ Hi), Hp. unfold due. by rewrite Hv.
Qed.

Lemma inv_same_objects g ss cl :
  inv g -> ss ⊆ sessions g -> inv (mkManager (objects g) ss (callbacks g) cl).
Proof. intros [? ? Hreg ?] Hss. split; simpl; auto. intros id p H. eapply Hreg, lookup_weaken; eauto. Qed.

Lemma on_session_inv f p g g' :
  (forall s s', sess_ok s -> f s = Some s' -> sess_ok s') -> (forall s s', f s = Some s' -> view s' = view s) ->
  inv g -> on_session f p g = Some g' -> inv g'.
Proof.
  intros Hok Hv Hi H. unfold on_session in H. apply bind_Some in H as (s&Hp&H). apply bind_Some in H as (s'&Hf&[= <-]).
  eapply inv_view; eauto. eapply Hok; [|done]. by eapply (inv_ok _ Hi).
Qed.

(** A session in the manager's map can be closed. *)
Lemma registered_live p g : inv g -> registered p g = true -> exists s, objects g !! p = Some s /\ live s.
Proof.
  unfold registered. intros Hi. destruct (objects g !! p) as [s|] eqn:Hp; [|done]. intros H%bool_decide_eq_true.
  destruct (inv_reg_at _ _ _ _ _ Hi Hp H) as [(_&_&Hl)|]; [eauto|done].
Qed.

Lemma make_session_inv n p id vars g g' : inv g -> make_session n p id vars g = Some g' -> inv g'.
Proof.
  intros [Hok Hids Hreg Hcalls] H. unfold make_session in H. case_decide as Hf; [|done]. injection H as <-.
  destruct Hf as [Hp Hfresh]. split; cbn [objects sessions callbacks].
  - apply map_Forall_insert_2; auto using sess_ok_new.
  - intros q r t u. rewrite !lookup_insert_Some. intros [[<- <-]|[? Ht]] [[<- <-]|[? Hu]] E; try done.
    + by destruct (Hfresh _ _ Hu).
    + by destruct (Hfresh _ _ Ht).
    + by eapply Hids.
  - intros i q Hq. destruct (Hreg _ _ Hq) as (s&Hs&?&?). exists s.
    rewrite lookup_insert_ne by congruence. done.
  - intros q b. rewrite Hcalls. destruct (decide (q = p)) as [->|]; [|by rewrite lookup_insert_ne].
    rewrite Hp, lookup_insert_eq. by destruct b.
Qed.

Lemma add_store_inv p g g' : inv g -> add_store p g = Some g' -> inv g'.
Proof.
  intros Hi H. unfold add_store in H. apply bind_Some in H as (s&Hp&H). destruct (ph s) eqn:Ep; simplify_eq.
  pose proof (inv_ok _ Hi _ _ Hp) as Hs.
  assert (stg s = Open) as Eo.
  { destruct (decide (stg s = Open)) as [|n]; [done|]. apply (ok_closing _ Hs) in n. rewrite Ep in n. simpl in n. lia. }
  eapply inv_replace; eauto.
  - apply sess_ok_phase; rewrite ?Ep; simpl; auto; done.
  - intros id q. rewrite lookup_insert_Some. intros [[<- <-]|[Hne Hq]].
    + left. unfold live. simpl. rewrite Eo. simpl. split; [done|split; [done|lia]].
    + destruct (inv_reg_at _ _ _ _ _ Hi Hp Hq) as [(->&->&Hl)|]; [done|by right].
  - intros b. rewrite (inv_calls _ Hi), Hp. unfold due, view. simpl. by rewrite Ep.
Qed.

Lemma add_notify_inv p g g' : inv g -> add_notify p g = Some g' -> inv g'.
Proof.
  intros Hi H. unfold add_notify in H. apply bind_Some in H as (s&Hp&H). destruct (ph s) eqn:Ep; simplify_eq.
  pose proof (inv_ok _ Hi _ _ Hp) as Hs. eapply inv_replace; eauto.
  - apply sess_ok_phase; rewrite ?Ep; simpl; auto; done || lia.
  - intros id q Hq. destruct (inv_reg_at _ _ _ _ _ Hi Hp Hq) as [(->&->&Hl)|]; [left|by right].
    destruct Hl. repeat split; simpl; auto.
  - intros q b Hne. rewrite calls_snoc, decide_False by congruence. lia.
  - intros b. rewrite calls_snoc, (inv_calls _ Hi), Hp. unfold due, view. simpl. rewrite Ep. simpl.
    destruct b; [rewrite decide_True by done|rewrite decide_False by congruence]; simpl; lia.
Qed.

Lemma remove_delete_inv p g g' : inv g -> remove_delete p g = Some g' -> inv g'.
Proof.
  intros Hi H. unfold remove_delete in H. apply bind_Some in H as (s&Hp&H). destruct (stg s) eqn:Es; simplify_eq.
  pose proof (inv_ok _ Hi _ _ Hp) as Hs. eapply inv_replace; eauto.
  - apply sess_ok_stage; rewrite ?Es; simpl; auto. apply (ok_closing _ Hs). congruence.
  - intros id q. rewrite lookup_delete_Some. intros [Hne Hq].
    destruct (inv_reg_at _ _ _ _ _ Hi Hp Hq) as [(->&->&Hl)|]; [done|by right].
  - intros b. rewrite (inv_calls _ Hi), Hp. unfold due, view. simpl. by rewrite Es.
Qed.

Lemma remove_notify_inv p g g' : inv g -> remove_notify p g = Some g' -> inv g'.
Proof.
  intros Hi H. unfold remove_notify in H. apply bind_Some in H as (s&Hp&H). destruct (stg s) eqn:Es; simplify_eq.
  pose proof (inv_ok _ Hi _ _ Hp) as Hs. eapply inv_replace; eauto.
  - apply sess_ok_stage; rewrite ?Es; simpl; auto. apply (ok_closing _ Hs). congruence.
  - intros id q Hq. destruct (inv_reg_at _ _ _ _ _ Hi Hp Hq) as [(->&->&_&Hl)|]; [|by right].
    rewrite Es in Hl. simpl in Hl. lia.
  - intros q b Hne. rewrite calls_snoc, decide_False by congruence. lia.
  - intros b. rewrite calls_snoc, (inv_calls _ Hi), Hp. unfold due, view. simpl. rewrite Es. simpl.
    destruct b; [rewrite decide_False by congruence|rewrite decide_True by done]; simpl; lia.
Qed.

Lemma clean_visit_inv i p g g' : inv g -> clean_visit i p g = Some g' -> inv g'.
Proof.
  intros Hi H. unfold clean_visit in H. apply bind_Some in H as (todo&_&H). destruct (registered p g) eqn:Hr; [|done].
  destruct (registered_live _ _ Hi Hr) as (s&Hp&Hl). unfold on_session in H. rewrite Hp in H. simpl in H.
  unfold close_begin in H. destruct (stg s) eqn:Es; simplify_eq/=.
  eapply inv_view; eauto.
  - apply sess_ok_stage; [by eapply (inv_ok _ Hi)|rewrite Es; simpl; lia|apply Hl].
  - unfold view. simpl. by rewrite Es.
Qed.

(** The invariant of the sessions and their manager. *)
Lemma ws_step_inv payloadType e g g' : known payloadType -> inv g -> step payloadType e g = Some g' -> inv g'.
Proof.
  intros Hk Hi H. destruct e; cbn [step] in H;
    eauto using make_session_inv, add_store_inv, add_notify_inv, remove_delete_inv, remove_notify_inv, clean_visit_inv.
  - eapply on_session_inv; eauto using local_step_ok, local_step_view.
  - injection H as <-. by apply inv_same_objects.
  - unfold clean_clear in H. apply bind_Some in H as (todo&_&H). case_match; simplify_eq.
    apply inv_same_objects; [done|apply map_empty_subseteq].
Qed.

Lemma inv_empty : inv empty_manager.
Proof. split; try done. Qed.

Lemma ws_reachable_inv payloadType g : known payloadType -> reachable payloadType g -> inv g.
Proof. intros Hk. induction 1; eauto using inv_empty, ws_step_inv. Qed.

Lemma run_events_reachable payloadType es g g' :
  reachable payloadType g -> run_events payloadType es g = Some g' -> reachable payloadType g'.
Proof.
  revert g. induction es as [|e es IH]; intros g Hg H; [by injection H as <-|].
  apply bind_Some in H as (g1&H1&H2). eauto using reach_step.
Qed.

(** Until a [Clear], the manager's map has every session that was stored and not
    removed again. *)
Definition complete (g : Manager) : Prop :=
  forall p s, objects g !! p = Some s -> live s -> sessions g !! sid s = Some p.

Lemma complete_replace g p s s' ss cbs cl :
  complete g -> objects g !! p = Some s ->
  (live s' -> ss !! sid s' = Some p) ->
  (forall q t, q <> p -> objects g !! q = Some t -> sessions g !! sid t = Some q -> ss !! sid t = Some q) ->
  complete (mkManager (<[p := s']> (objects g)) ss cbs cl).
Proof.
  intros Hc Hp Hs Hother q t. cbn [objects sessions]. rewrite lookup_insert_Some. intros [[<- <-]|[Hne Ht]] Hl; auto.
Qed.

Lemma view_back s s' : view s' = view s -> live s' -> live s.
Proof. intros H. apply view_live. done. Qed.

Lemma complete_view g p s s' cl :
  complete g -> objects g !! p = Some s -> view s' = view s ->
  complete (mkManager (<[p := s']> (objects g)) (sessions g) (callbacks g) cl).
Proof.
  intros Hc Hp Hv. eapply complete_replace; eauto. intros Hl. rewrite (view_sid _ _ Hv). apply Hc; eauto using view_back.
Qed.

Lemma step_complete payloadType e g g' :
  inv g -> complete g -> (forall i, e <> EClear i) -> step payloadType e g = Some g' -> complete g'.
Proof.
  intros Hi Hc He H. destruct e as [n p id vars|p|p|p l|p|p| |i p|i]; cbn [step] in H.
  - unfold make_session in H. case_decide as Hf; simplify_eq. destruct Hf as [Hp Hfresh].
    intros q t. cbn [objects sessions]. rewrite lookup_insert_Some. intros [[<- <-]|[Hne Ht]] Hl; [|auto].
    destruct Hl as [Hl _]. simpl in Hl. lia.
  - unfold add_store in H. apply bind_Some in H as (s&Hp&H). destruct (ph s); simplify_eq.
    eapply complete_replace; eauto.
    + intros _. by rewrite lookup_insert_eq.
    + intros q t Hne Ht Hq. rewrite lookup_insert_ne; [done|]. intros E. destruct Hne. symmetry. by eapply (inv_ids _ Hi).
  - unfold add_notify in H. apply bind_Some in H as (s&Hp&H). destruct (ph s) eqn:Ep; simplify_eq.
    eapply complete_replace; eauto. intros [_ Hl]. apply (Hc p s); auto. split; [rewrite Ep; simpl; lia|done].
  - unfold on_session in H. apply bind_Some in H as (s&Hp&H). apply bind_Some in H as (s'&Hf&[= <-]).
    eauto using complete_view, local_step_view.
  - unfold remove_delete in H. apply bind_Some in H as (s&Hp&H). destruct (stg s); simplify_eq.
    eapply complete_replace; eauto.
    + intros [_ Hl]. simpl in Hl. lia.
    + intros q t Hne Ht Hq. rewrite lookup_delete_ne; [done|]. intros E. destruct Hne. symmetry. by eapply (inv_ids _ Hi).
  - unfold remove_notify in H. apply bind_Some in H as (s&Hp&H). destruct (stg s); simplify_eq.
    eapply complete_replace; eauto. intros [_ Hl]. simpl in Hl. lia.
  - by injection H as <-.
  - unfold clean_visit in H. apply bind_Some in H as (todo&_&H). destruct (registered p g); [|done].
    unfold on_session in H. apply bind_Some in H as (s&Hp&H). apply bind_Some in H as (s'&Hf&[= <-]).
    eapply complete_view; eauto. unfold close_begin in Hf. destruct (stg s) eqn:Es; simplify_eq.
    unfold view. simpl. by rewrite Es.
  - by destruct (He i).
Qed.

Lemma run_complete payloadType es g g' :
  known payloadType -> inv g -> complete g -> (forall i, EClear i ∉ es) ->
  run_events payloadType es g = Some g' -> inv g' /\ complete g'.
Proof.
  intros Hk. revert g. induction es as [|e es IH]; intros g Hi Hc He H; [by injection H as <-|].
  apply bind_Some in H as (g1&H1&H2). apply (IH g1); eauto using ws_step_inv.
  - eapply step_complete; eauto. intros i ->. apply (He i). left.
  - intros i Hin. apply (He i). by right.
Qed.

(** C35: whatever the interleaving of senders, pumps, closers and [Clean], what
    has been written to a session's connection is a prefix of what [SendMessage]
    accepted, in order and without repetition; while the connection is open and
    the writer runs nothing is lost, every accepted message being written, in the
    writer's hand or queued; and the queue never exceeds its capacity. *)
Theorem ws_session_delivery payloadType g p s :
  known payloadType -> reachable payloadType g -> objects g !! p = Some s ->
  written s `prefix_of` accepted s /\ (length (send s) <= cap s)%nat /\
  (conn_nil s = false -> wp s <> WClosing -> wp s <> WExited -> written s ++ held (wp s) ++ send s = accepted s).
Proof.
  intros Hk Hr Hp. destruct (inv_ok _ (ws_reachable_inv _ _ Hk Hr) _ _ Hp) as [(lost&Hf&Hl&_) Hcap _ _ _].
  split; [by eexists|]. split; [done|]. intros Hn Hw1 Hw2. destruct lost as [|m lost]; [done|].
  destruct Hl as [|[|]]; congruence.
Qed.

(** Each session is announced to the connect handler at most once and its
    disconnection at most once, the latter exactly when its closing has run to
    the end, after it left the manager's map; what the map holds is stored and
    not yet removed, under its own identifier; and until a [Clean] clears the
    map, it holds exactly those sessions. *)
Theorem ws_session_registry payloadType es g :
  known payloadType -> run_events payloadType es empty_manager = Some g ->
  (forall p s, objects g !! p = Some s ->
     calls p true (callbacks g) = (if bool_decide (2 <= phase_rank (ph s))%nat then 1 else 0)%nat /\
     calls p false (callbacks g) = (if bool_decide (stg s = Closed) then 1 else 0)%nat) /\
  (forall id p, GetSession id g = Some p -> exists s, objects g !! p = Some s /\ sid s = id /\ live s) /\
  ((forall i, EClear i ∉ es) -> forall p s, objects g !! p = Some s -> (GetSession (sid s) g = Some p <-> live s)).
Proof.
  intros Hk Hrun.
  assert (inv g) as Hi by (eapply ws_reachable_inv, run_events_reachable; eauto using reach_empty).
  split_and!.
  - intros p s Hp. rewrite !(inv_calls _ Hi), Hp. unfold due, view. destruct (ph s), (stg s); done.
  - apply (inv_reg _ Hi).
  - intros He p s Hp. split.
    + intros H. destruct (inv_reg _ Hi _ _ H) as (t&Ht&_&?). congruence.
    + intros Hl. assert (complete empty_manager) as Hc by done.
      destruct (run_complete _ _ _ _ Hk inv_empty Hc He Hrun) as [_ Hc']. by apply Hc'.
Qed.

(** Closing moves forward only, and each of its steps is enabled as soon as the
    one before it is done: once begun it needs at most four more steps. *)
Lemma close_progress payloadType g p s :
  objects g !! p = Some s -> stg s <> Open -> stg s <> Closed ->
  exists e g' s', step payloadType e g = Some g' /\ objects g' !! p = Some s' /\
    stage_rank (stg s') = S (stage_rank (stg s)).
Proof.
  intros Hp Ho Hc.
  assert (forall e f ss cbs, step payloadType e g = Some (mkManager (<[p := set_stg f s]> (objects g)) ss cbs (cleaners g)) ->
    stage_rank f = S (stage_rank (stg s)) ->
    exists e g' s', step payloadType e g = Some g' /\ objects g' !! p = Some s' /\ stage_rank (stg s') = S (stage_rank (stg s))) as Hfire.
  { intros e f ss cbs He Hf. do 3 eexists. split; [exact He|]. cbn [objects]. by rewrite lookup_insert_eq. }
  destruct (stg s) eqn:Es; try done;
    [eapply (Hfire (ELocal p LDetach) Detached)|eapply (Hfire (ELocal p LDisconnect) Disconnected)
    |eapply (Hfire (ERemove p) Removed)|eapply (Hfire (EFarewell p) Closed)]; try done; simpl;
    unfold on_session, remove_delete, remove_notify; rewrite Hp; simpl; unfold close_detach, close_disconnect; by rewrite Es.
Qed.

(** C36: closing a session, once begun by anyone, completes: from every state
    at most four more of its own steps take it to the end, with the session out of
    the manager's map and its disconnection announced exactly once; and those
    steps are enabled whatever the other goroutines do. *)
Theorem ws_close_terminates payloadType g p s :
  known payloadType -> reachable payloadType g -> objects g !! p = Some s -> stg s <> Open ->
  exists es g' s', (length es <= 4)%nat /\ run_events payloadType es g = Some g' /\ objects g' !! p = Some s' /\
    stg s' = Closed /\ calls p false (callbacks g') = 1%nat /\ (forall id, GetSession id g' <> Some p).
Proof.
  intros Hk Hr Hp Ho.
  cut (exists es g' s', (length es + stage_rank (stg s) <= 5)%nat /\ run_events payloadType es g = Some g' /\
    objects g' !! p = Some s' /\ stg s' = Closed).
  { intros (es&g'&s'&Hlen&Hrun&Hp'&Hcl). exists es, g', s'.
    assert (inv g') as Hi by (eapply ws_reachable_inv; [done|]; by eapply run_events_reachable).
    assert (1 <= stage_rank (stg s))%nat by (destruct (stg s); simpl; lia || done).
    split_and!; auto; [lia| |].
    - rewrite (inv_calls _ Hi), Hp'. unfold due, view. by rewrite Hcl.
    - intros id Hid. destruct (inv_reg _ Hi _ _ Hid) as (t&Ht&_&_&Hl). simplify_eq. rewrite Hcl in Hl. simpl in Hl. lia. }
  clear Hk Hr. remember (5 - stage_rank (stg s))%nat as k eqn:Ek. revert g s Hp Ho Ek.
  induction k as [|k IH]; intros g s Hp Ho Ek.
  - exists [], g, s. simpl. assert (stg s = Closed) as E by (destruct (stg s); simpl in Ek; done || lia).
    rewrite E. split_and!; auto.
  - destruct (decide (stg s = Closed)) as [E|E]; [rewrite E in Ek; simpl in Ek; lia|].
    destruct (close_progress payloadType g p s Hp Ho E) as (e&g1&s1&He&Hp1&Hr1).
    destruct (IH g1 s1 Hp1) as (es&g'&s'&Hlen&Hrun&Hp'&Hcl); [intros Hs1; rewrite Hs1 in Hr1; done|lia|].
    exists (e :: es), g', s'. split_and!; auto; [simpl; lia|]. simpl. by rewrite He.
Qed.

Definition hello : bytes := String.list_ascii_of_string "hello".

Definition demo_events : list event :=
  [EMake 2 0 "a" ∅; EStore 0; EAnnounce 0; ELocal 0 LListen; ELocal 0 (LSend false hello); ELocal 0 (LSend false []);
   ELocal 0 LTake; ELocal 0 LConn; ELocal 0 (LWrite true); ELocal 0 LTake; ELocal 0 LConn; ELocal 0 (LWrite false);
   ELocal 0 LPumpClose; ELocal 0 LDetach; ELocal 0 LDisconnect; ERemove 0; EFarewell 0; ELocal 0 LExit].

Definition demo : Manager := default empty_manager (run_events PayloadTypeBinary demo_events empty_manager).
Definition demo_session : Session :=
  mkSession "a" ∅ 2 Listening Closed [] WExited RIdle [hello; []] [hello] [].

Lemma ws_session_delivery_witness :
  objects demo !! 0%nat = Some demo_session /\ written demo_session `prefix_of` accepted demo_session.
Proof.
  assert (run_events PayloadTypeBinary demo_events empty_manager = Some demo) as Hrun by (vm_compute; reflexivity).
  assert (objects demo !! 0%nat = Some demo_session) as Hp by (vm_compute; reflexivity).
  split; [exact Hp|].
  exact (proj1 (ws_session_delivery PayloadTypeBinary demo 0 demo_session (or_introl eq_refl)
    (run_events_reachable _ _ _ _ (reach_empty _) Hrun) Hp)).
Defined.

Lemma ws_session_registry_witness :
  run_events PayloadTypeBinary demo_events empty_manager = Some demo /\
  objects demo !! 0%nat = Some demo_session /\ calls 0 true (callbacks demo) = 1%nat /\ calls 0 false (callbacks demo) = 1%nat.
Proof.
  assert (run_events PayloadTypeBinary demo_events empty_manager = Some demo) as Hrun by (vm_compute; reflexivity).
  assert (objects demo !! 0%nat = Some demo_session) as Hp by (vm_compute; reflexivity).
  split; [exact Hrun|]. split; [exact Hp|].
  exact (proj1 (ws_session_registry PayloadTypeBinary demo_events demo (or_introl eq_refl) Hrun) 0%nat demo_session Hp).
Defined.

Lemma ws_close_terminates_witness :
  let es0 := take 13 demo_events in
  let g := default empty_manager (run_events PayloadTypeBinary es0 empty_manager) in
  exists es g' s', (length es <= 4)%nat /\ run_events PayloadTypeBinary es g = Some g' /\ objects g' !! 0%nat = Some s' /\
    stg s' = Closed /\ calls 0 false (callbacks g') = 1%nat /\ (forall id, GetSession id g' <> Some 0%nat).
Proof.
  intros es0 g.
  assert (run_events PayloadTypeBinary es0 empty_manager = Some g) as Hrun by (vm_compute; reflexivity).
  assert (objects g !! 0%nat = Some (mkSession "a" ∅ 2 Listening Quit [] WClosing RIdle [hello; []] [hello] [])) as Hp
    by (vm_compute; reflexivity).
  exact (ws_close_terminates PayloadTypeBinary g 0 _ (or_introl eq_refl)
    (run_events_reachable _ _ _ _ (reach_empty _) Hrun) Hp ltac:(discriminate)).
Defined.

(** A [Clean] that runs between the store and the announcement makes the connect
    handler hear of the disconnection first. *)
Example disconnect_before_connect :
  callbacks <$> run_events PayloadTypeBinary
    [EMake 2 0 "a" ∅; EStore 0; EClean; EVisit 0 0; ELocal 0 LDetach; ELocal 0 LDisconnect; ERemove 0; EFarewell 0;
     EClear 0; EAnnounce 0; ELocal 0 LListen] empty_manager
  = Some [(0%nat, false); (0%nat, true)].
Proof. vm_compute. reflexivity. Qed.

(** A session stored after [Clean]'s [Range] and before its [Clear] is forgotten
    with its connection open: no later [Clean] reaches it. *)
Example clear_forgets_session :
  (fun g => (Count g, stg <$> objects g !! 0%nat)) <$> run_events PayloadTypeBinary
    [EMake 2 0 "a" ∅; EClean; EStore 0; EClear 0; EAnnounce 0; ELocal 0 LListen; EClean; EClear 0] empty_manager
  = Some (0%nat, Some Open).
Proof. vm_compute. reflexivity. Qed.
