(* ===== verification/WebRtcSfu.v ===== *)
(** [transport/webrtc], media: [media_track.go], [sfu_router.go] and the server
    methods that drive them.

    Tracks are shared objects, held by the router's map and by their forwarding
    goroutine: [media] is their store.  The operations that change the router hold its lock,
    except [Subscribe], which writes the map of the subscriptions while it holds the read
    lock only; what then happens between two calls is the machine of the section on
    interleavings.  Tracks have a lock of their own. *)
From Stdlib Require Import ZArith Lia.
From S2P Require Import Prelude GoErrors.
From stdpp Require Import base gmap strings list fin_maps fin_sets.
Open Scope string_scope.
Open Scope list_scope.

Abbreviation SessionID := string.

(** * [media_track.go] *)

(** A [*webrtc.TrackLocalStaticRTP] of a subscriber. *)
Abbreviation LocalTrack := nat.

(** [type MediaTrack struct]; the subscriber map becomes nil on [Close]. *)
Record MediaTrack := mkTrack {
  id : string;
  sessionID : SessionID;
  subscribers : option (gmap SessionID LocalTrack);
  closed : bool
}.

Definition NewMediaTrack (s : SessionID) (trackID : string) : MediaTrack := mkTrack trackID s (Some ∅) false.

(** [func (m *MediaTrack) AddSubscriber] *)
Definition AddSubscriber (subscriberID : SessionID) (local : LocalTrack) (m : MediaTrack) : MediaTrack :=
  if closed m then m
  else mkTrack (id m) (sessionID m) (Some (<[subscriberID := local]> (default ∅ (subscribers m)))) (closed m).

(** [func (m *MediaTrack) RemoveSubscriber]: deleting from a nil map does nothing. *)
Definition RemoveSubscriber (subscriberID : SessionID) (m : MediaTrack) : MediaTrack :=
  mkTrack (id m) (sessionID m) (delete subscriberID <$> subscribers m) (closed m).

(** [func (m *MediaTrack) GetSubscribers] *)
Definition GetSubscribers (m : MediaTrack) : gmap SessionID LocalTrack :=
  map_fold (fun k v acc => <[k := v]> acc) ∅ (default ∅ (subscribers m)).

(** [func (m *MediaTrack) Close()] *)
Definition track_Close (m : MediaTrack) : MediaTrack :=
  if closed m then m else mkTrack (id m) (sessionID m) None true.

(** One round of the loop of [forwardRTP]: what [m.track.Read] returned, the
    packet written to each subscriber, and whether the loop goes on. *)
Definition forwardRTP {P : Type} (read : P + error) (m : MediaTrack) : MediaTrack * list (LocalTrack * P) * bool :=
  match read with
  | inr _ => (track_Close m, [], false)
  | inl packet =>
      if closed m then (m, [], false)
      else (m, map (fun '(_, local) => (local, packet)) (map_to_list (default ∅ (subscribers m))), true)
  end.

(** * [sfu_router.go] *)

(** [type SFURouter struct], and the store of the tracks. *)
Record SFURouter := mkRouter {
  tracks : gmap SessionID (gmap string nat);
  subscriptions : gmap SessionID (list string);
  media : gmap nat MediaTrack
}.

Definition NewSFURouter : SFURouter := mkRouter ∅ ∅ ∅.

(** [func (r *SFURouter) AddTrack]: the new track is a new object, and replaces
    the publisher's track of the same id if there is one. *)
Definition AddTrack (s : SessionID) (trackID : string) (r : SFURouter) : nat * SFURouter :=
  let p := fresh (dom (media r)) in
  (p, mkRouter (<[s := <[trackID := p]> (default ∅ (tracks r !! s))]> (tracks r)) (subscriptions r)
        (<[p := NewMediaTrack s trackID]> (media r))).

(** The subscriptions without a track id; a subscriber left with none is deleted. *)
Definition drop_subscription (trackID : string) (subs : gmap SessionID (list string)) : gmap SessionID (list string) :=
  omap (fun l => match filter (fun tid => tid <> trackID) l with [] => None | l' => Some l' end) subs.

(** [func (r *SFURouter) RemoveTrack] *)
Definition RemoveTrack (s : SessionID) (trackID : string) (r : SFURouter) : SFURouter :=
  match tracks r !! s with
  | None => r
  | Some ts =>
      let '(ts', subs, med) :=
        match ts !! trackID with
        | None => (ts, subscriptions r, media r)
        | Some p => (delete trackID ts, drop_subscription trackID (subscriptions r), alter track_Close p (media r))
        end in
      mkRouter (if (size ts' =? 0)%nat then delete s (tracks r) else <[s := ts']> (tracks r)) subs med
  end.

(** [func (r *SFURouter) RemoveSessionTracks] *)
Definition RemoveSessionTracks (s : SessionID) (r : SFURouter) : SFURouter :=
  match tracks r !! s with
  | None => mkRouter (tracks r) (delete s (subscriptions r)) (media r)
  | Some ts =>
      mkRouter (delete s (tracks r)) (delete s (subscriptions r))
        (foldr (alter track_Close) (media r) (map snd (map_to_list ts)))
  end.

(** [func (r *SFURouter) Subscribe], the publisher's tracks in the order of
    [range], as a call that meets no other; see [sub_write] for the writes under the read
    lock. *)
Definition Subscribe (subscriberID publisherID : SessionID) (r : SFURouter) : list nat * SFURouter :=
  match tracks r !! publisherID with
  | None => ([], r)
  | Some ts =>
      let entries := map_to_list ts in
      (map snd entries,
       if (length entries =? 0)%nat then r
       else mkRouter (tracks r)
              (<[subscriberID := default [] (subscriptions r !! subscriberID) ++ map fst entries]> (subscriptions r))
              (media r))
  end.

(** [func (r *SFURouter) Unsubscribe] *)
Definition Unsubscribe (subscriberID publisherID : SessionID) (r : SFURouter) : SFURouter :=
  match subscriptions r !! subscriberID with
  | None => r
  | Some trackIDs =>
      let ts := default ∅ (tracks r !! publisherID) in
      let remaining := filter (fun tid => ts !! tid = None) trackIDs in
      let removed := omap (fun tid => ts !! tid) trackIDs in
      mkRouter (tracks r)
        (match remaining with
         | [] => delete subscriberID (subscriptions r)
         | _ => <[subscriberID := remaining]> (subscriptions r)
         end)
        (foldr (alter (RemoveSubscriber subscriberID)) (media r) removed)
  end.

(** [func (r *SFURouter) GetPublisherTracks] and [GetAllPublishers] *)
Definition GetPublisherTracks (publisherID : SessionID) (r : SFURouter) : list nat :=
  map snd (map_to_list (default ∅ (tracks r !! publisherID))).
Definition GetAllPublishers (r : SFURouter) : list SessionID := map fst (map_to_list (tracks r)).

(** [func (r *SFURouter) CreateLocalTrackForSubscriber]: [local] is the result of
    [webrtc.NewTrackLocalStaticRTP] and [pc.AddTrack]. *)
Definition CreateLocalTrackForSubscriber (subscriberID : SessionID) (p : nat) (local : LocalTrack + error)
    (r : SFURouter) : (LocalTrack + error) * SFURouter :=
  match local with
  | inr err => (inr err, r)
  | inl l => (inl l, mkRouter (tracks r) (subscriptions r) (alter (AddSubscriber subscriberID l) p (media r)))
  end.

(** * The server's methods *)

(** The loop of [SubscribeToPublisher]; [create] is what pion returns for a
    track.  The renegotiation that follows changes nothing here. *)
Fixpoint subscribe_tracks (create : nat -> LocalTrack + error) (subscriberID : SessionID) (ps : list nat) (r : SFURouter) : SFURouter :=
  match ps with
  | [] => r
  | p :: ps' => subscribe_tracks create subscriberID ps' (snd (CreateLocalTrackForSubscriber subscriberID p (create p) r))
  end.

(** [func (s *Server) SubscribeToPublisher]: [session] is the subscriber's session,
    if the manager has one, and whether its peer connection is there. *)
Definition SubscribeToPublisher (session : option bool) (create : nat -> LocalTrack + error)
    (subscriberID publisherID : SessionID) (r : SFURouter) : option error * SFURouter :=
  match session with
  | None => (Some (Errorf "subscriber session not found"), r)
  | Some false => (Some (Errorf "peer connection not found"), r)
  | Some true =>
      match GetPublisherTracks publisherID r with
      | [] => (None, r)
      | ps => (None, subscribe_tracks create subscriberID ps r)
      end
  end.

(** [func (s *Server) UnsubscribeFromPublisher] *)
Definition UnsubscribeFromPublisher (subscriberID publisherID : SessionID) (r : SFURouter) : SFURouter :=
  Unsubscribe subscriberID publisherID r.

(** [func (s *Server) OnSessionRemoved], the media part. *)
Definition OnSessionRemoved (s : SessionID) (r : SFURouter) : SFURouter := RemoveSessionTracks s r.

(** What a running server does to its router: [OnTrack], the subscription
    methods, the end of a session, and the end of a track's forwarding loop. *)
Inductive op :=
| OTrack (s : SessionID) (trackID : string)
| OSubscribe (session : option bool) (create : nat -> LocalTrack + error) (subscriberID publisherID : SessionID)
| OUnsubscribe (subscriberID publisherID : SessionID)
| ORemoved (s : SessionID)
| OReadError (p : nat) (err : error)
(** router methods no server method calls *)
| ORouterSubscribe (subscriberID publisherID : SessionID)
| ORemoveTrack (s : SessionID) (trackID : string).

Definition apply_op (o : op) (r : SFURouter) : SFURouter :=
  match o with
  | OTrack s tid => snd (AddTrack s tid r)
  | OSubscribe session create sub pub => snd (SubscribeToPublisher session create sub pub r)
  | OUnsubscribe sub pub => UnsubscribeFromPublisher sub pub r
  | ORemoved s => OnSessionRemoved s r
  | OReadError p err =>
      mkRouter (tracks r) (subscriptions r) (alter (fun m => fst (fst (forwardRTP (P := unit) (inr err) m))) p (media r))
  | ORouterSubscribe sub pub => snd (Subscribe sub pub r)
  | ORemoveTrack s tid => RemoveTrack s tid r
  end.

Definition server_op (o : op) : bool :=
  match o with
  | ORouterSubscribe _ _ | ORemoveTrack _ _ => false
  | _ => true
  end.

Definition run_ops (ops : list op) : SFURouter := fold_left (fun r o => apply_op o r) ops NewSFURouter.

(** * Interleavings

    The router's lock excludes the operations that hold it from each other and from every
    reader.  Calls of [Subscribe] hold the read lock together: each writes its entries to
    the map of the subscriptions one by one, and two writes at the same time are a data race,
    which the runtime may answer by ending the process ("concurrent map writes"); if it does
    not, the map may hold anything afterwards ([ECorrupt]).  [SubscribeToPublisher] holds the read lock for the list of the
    tracks only, and then adds the subscriber to one track after the other, between which
    anything may happen ([EAttach], on any track). *)

(** A call of [Subscribe]: the track ids still to be recorded, and whether it is writing. *)
Record sub_call := mkSubCall { sc_subscriber : SessionID; sc_rest : list string; sc_writing : bool }.
Record World := mkWorld { router : SFURouter; readers : gmap nat sub_call; raced : bool }.
Definition new_world : World := mkWorld NewSFURouter ∅ false.

(** The operations that hold the lock, from begin to end. *)
Definition exclusive (o : op) : bool :=
  match o with
  | OTrack _ _ | OUnsubscribe _ _ | ORemoved _ | ORemoveTrack _ _ => true
  | OSubscribe _ _ _ _ | OReadError _ _ | ORouterSubscribe _ _ => false
  end.

Definition sub_begin (i : nat) (subscriberID publisherID : SessionID) (w : World) : option World :=
  match readers w !! i with
  | Some _ => None
  | None =>
      Some (mkWorld (router w)
        (<[i := mkSubCall subscriberID (map fst (map_to_list (default ∅ (tracks (router w) !! publisherID)))) false]> (readers w)) (raced w))
  end.

(** The write of one entry begins, and ends: the list is extended, made first if there is
    none. *)
Definition sub_write (i : nat) (w : World) : option World :=
  match readers w !! i with
  | Some (mkSubCall sub (tid :: rest) false) =>
      Some (mkWorld (router w) (<[i := mkSubCall sub (tid :: rest) true]> (readers w))
              (raced w || bool_decide (map_Exists (fun _ c => sc_writing c = true) (readers w))))
  | _ => None
  end.
Definition record_subscription (sub : SessionID) (tid : string) (r : SFURouter) : SFURouter :=
  mkRouter (tracks r) (<[sub := default [] (subscriptions r !! sub) ++ [tid]]> (subscriptions r)) (media r).
Definition sub_written (i : nat) (w : World) : option World :=
  match readers w !! i with
  | Some (mkSubCall sub (tid :: rest) true) =>
      Some (mkWorld (record_subscription sub tid (router w)) (<[i := mkSubCall sub rest false]> (readers w)) (raced w))
  | _ => None
  end.
Definition sub_return (i : nat) (w : World) : option World :=
  match readers w !! i with
  | Some (mkSubCall _ [] false) => Some (mkWorld (router w) (delete i (readers w)) (raced w))
  | _ => None
  end.

Inductive event :=
| ELocked (o : op) | EReadError (p : nat) (err : error) | EAttach (subscriberID : SessionID) (p : nat) (local : LocalTrack + error)
| ESubBegin (i : nat) (subscriberID publisherID : SessionID) | ESubWrite (i : nat) | ESubWritten (i : nat) | ESubReturn (i : nat)
| ECorrupt (subs : gmap SessionID (list string)).

Definition step (e : event) (w : World) : option World :=
  let on_router f := mkWorld (f (router w)) (readers w) (raced w) in
  match e with
  | ELocked o => if exclusive o && bool_decide (readers w = ∅) then Some (on_router (apply_op o)) else None
  | EReadError p err => Some (on_router (apply_op (OReadError p err)))
  | EAttach sub p local => Some (on_router (fun r => snd (CreateLocalTrackForSubscriber sub p local r)))
  | ESubBegin i sub pub => sub_begin i sub pub w
  | ESubWrite i => sub_write i w
  | ESubWritten i => sub_written i w
  | ESubReturn i => sub_return i w
  | ECorrupt subs => if raced w then Some (on_router (fun r => mkRouter (tracks r) subs (media r))) else None
  end.
Fixpoint run (es : list event) (w : World) : option World :=
  match es with
  | [] => Some w
  | e :: es' => w' ← step e w; run es' w'
  end.

(** * Properties *)

(** The track a publisher has under an id, and who receives its packets. *)
Definition slot (r : SFURouter) (pub : SessionID) (tid : string) : option nat := ts ← tracks r !! pub; ts !! tid.
Definition listeners (r : SFURouter) (pub : SessionID) (tid : string) : gmap SessionID LocalTrack :=
  default ∅ (p ← slot r pub tid; m ← media r !! p; subscribers m).

(** The router's well-formedness: no publisher without track, every track filed
    under its owner and id, no subscriber without subscription, and the
    subscriber map present exactly while a track is open. *)
Record ok (r : SFURouter) : Prop := {
  ok_nonempty : forall s ts, tracks r !! s = Some ts -> ts <> ∅;
  ok_filed : forall s tid p, slot r s tid = Some p -> exists m, media r !! p = Some m /\ id m = tid /\ sessionID m = s;
  ok_subs : forall s l, subscriptions r !! s = Some l -> l <> [];
  ok_media : forall p m, media r !! p = Some m -> (subscribers m = None <-> closed m = true)
}.

Lemma slot_inj r s1 t1 s2 t2 p : ok r -> slot r s1 t1 = Some p -> slot r s2 t2 = Some p -> s1 = s2 /\ t1 = t2.
Proof.
  intros Hok H1 H2. destruct (ok_filed _ Hok _ _ _ H1) as (m&Hm&<-&<-).
  destruct (ok_filed _ Hok _ _ _ H2) as (m'&Hm'&<-&<-). by simplify_eq.
Qed.

Lemma slot_entry r s tid p : slot r s tid = Some p <-> exists ts, tracks r !! s = Some ts /\ ts !! tid = Some p.
Proof. unfold slot. by rewrite bind_Some. Qed.

(** An update of track objects that keeps their identity and the meaning of
    [closed]. *)
Definition tame (f : MediaTrack -> MediaTrack) : Prop :=
  forall m, id (f m) = id m /\ sessionID (f m) = sessionID m /\
    ((subscribers m = None <-> closed m = true) -> (subscribers (f m) = None <-> closed (f m) = true)).

Lemma tame_Close : tame track_Close.
Proof. intros m. unfold track_Close. destruct (closed m) eqn:E; simpl; rewrite ?E; tauto. Qed.

Lemma tame_Add sub l : tame (AddSubscriber sub l).
Proof. intros m. unfold AddSubscriber. destruct (closed m) eqn:E; simpl; rewrite ?E; [tauto|]. naive_solver. Qed.

Lemma tame_Remove sub : tame (RemoveSubscriber sub).
Proof. intros m. unfold RemoveSubscriber. simpl. rewrite fmap_None. tauto. Qed.

Create HintDb sfu.
#[export] Hint Resolve tame_Close tame_Add tame_Remove : sfu.

Lemma ok_alter f p r : tame f -> ok r -> ok (mkRouter (tracks r) (subscriptions r) (alter f p (media r))).
Proof.
  intros Hf [? Hfiled ? Hmed]. split; cbn [tracks subscriptions media]; auto.
  - intros s tid q Hq. destruct (Hfiled s tid q Hq) as (m&Hm&Hi&Hs). destruct (decide (q = p)) as [->|].
    + exists (f m). rewrite lookup_alter_eq, Hm. destruct (Hf m) as (->&->&_). done.
    + exists m. by rewrite lookup_alter_ne.
  - intros q m. rewrite lookup_alter_Some. intros [(->&m0&Hm0&->)|[_ Hm]]; [|by eapply Hmed].
    apply Hf. by eapply Hmed.
Qed.

Lemma ok_alters f ps r : tame f -> ok r -> ok (mkRouter (tracks r) (subscriptions r) (foldr (alter f) (media r) ps)).
Proof.
  intros Hf Hok. induction ps as [|p ps IH]; simpl; [by destruct r|]. exact (ok_alter f p _ Hf IH).
Qed.

(** The maps may lose entries, and lists elements, as long as none is left
    empty. *)
Lemma ok_shrink r ts subs :
  ok r -> (forall s t, ts !! s = Some t -> t <> ∅ /\ exists t0, tracks r !! s = Some t0 /\ t ⊆ t0) ->
  (forall s l, subs !! s = Some l -> l <> []) -> ok (mkRouter ts subs (media r)).
Proof.
  intros [? Hfiled ? Hmed] Hts Hsubs. split; cbn [tracks subscriptions media]; auto.
  - intros s t Ht. by apply (Hts s).
  - intros s tid p. rewrite slot_entry. intros (t&Ht&Hp). destruct (Hts _ _ Ht) as (_&t0&H0&Hsub).
    apply Hfiled. rewrite slot_entry. eauto using lookup_weaken.
Qed.

Lemma AddTrack_ok s tid r : ok r -> ok (snd (AddTrack s tid r)).
Proof.
  intros [Hn Hfiled ? Hmed]. unfold AddTrack. simpl. set (p := fresh (dom (media r))).
  assert (media r !! p = None) as Hp by (apply not_elem_of_dom, is_fresh).
  split; cbn [tracks subscriptions media]; auto.
  - intros s' t. rewrite lookup_insert_Some. intros [[<- <-]|[_ ?]]; [apply insert_non_empty|eauto].
  - intros s' tid' q. rewrite slot_entry. cbn [tracks]. intros (t&Ht&Hq). revert Ht. rewrite lookup_insert_Some.
    assert (forall s, slot r s tid' = Some q -> exists m, <[p:=NewMediaTrack s' tid]> (media r) !! q = Some m /\ id m = tid' /\ sessionID m = s) as Hold.
    { intros s0 H0. destruct (Hfiled _ _ _ H0) as (m&Hm&?&?). exists m. rewrite lookup_insert_ne by congruence. done. }
    intros [[<- <-]|[Hne Ht]].
    + revert Hq. rewrite lookup_insert_Some. intros [[<- <-]|[_ Hq]].
      * exists (NewMediaTrack s tid). by rewrite lookup_insert_eq.
      * apply Hold. rewrite slot_entry. destruct (tracks r !! s) eqn:E; simpl in Hq; [eauto|by rewrite lookup_empty in Hq].
    + destruct (Hfiled s' tid' q) as (m&Hm&?&?); [by rewrite slot_entry; eauto|]. exists m.
      rewrite lookup_insert_ne by congruence. done.
  - intros q m. rewrite lookup_insert_Some. intros [[<- <-]|[_ Hm]]; [done|eauto].
Qed.

Lemma drop_subscription_nonempty tid subs s l : drop_subscription tid subs !! s = Some l -> l <> [].
Proof.
  unfold drop_subscription. rewrite lookup_omap. intros (l0&_&H)%bind_Some.
  destruct (filter _ l0); [done|]. by injection H as <-.
Qed.

Lemma RemoveTrack_ok s tid r : ok r -> ok (RemoveTrack s tid r).
Proof.
  intros Hok. unfold RemoveTrack. destruct (tracks r !! s) as [ts|] eqn:Ht; [|done].
  assert (forall ts' subs, ts' ⊆ ts -> (forall s l, subs !! s = Some l -> l <> []) ->
    ok (mkRouter (if (size ts' =? 0)%nat then delete s (tracks r) else <[s := ts']> (tracks r)) subs (media r))) as H.
  { intros ts' subs Hsub Hs. apply ok_shrink; auto. intros s' t. destruct (Nat.eqb_spec (size ts') 0) as [Hz|Hz].
    - rewrite lookup_delete_Some. intros [_ Ht']. eauto using ok_nonempty.
    - rewrite lookup_insert_Some. intros [[<- <-]|[_ Ht']]; [|eauto using ok_nonempty].
      split; [|eauto]. intros ->. by rewrite map_size_empty in Hz. }
  destruct (ts !! tid) as [p|] eqn:Hp.
  - apply (ok_alter track_Close p (mkRouter _ _ (media r))); [apply tame_Close|].
    apply H; [apply delete_subseteq|]. apply drop_subscription_nonempty.
  - apply H; [done|]. apply (ok_subs _ Hok).
Qed.

Lemma RemoveSessionTracks_ok s r : ok r -> ok (RemoveSessionTracks s r).
Proof.
  intros Hok. assert (forall s' l, delete s (subscriptions r) !! s' = Some l -> l <> []) as Hs.
  { intros s' l. rewrite lookup_delete_Some. intros [_ H]. by apply (ok_subs _ Hok s'). }
  unfold RemoveSessionTracks. destruct (tracks r !! s) as [ts|] eqn:Ht.
  - refine (ok_alters track_Close (map snd (map_to_list ts)) (mkRouter (delete s (tracks r)) (delete s (subscriptions r)) (media r)) tame_Close _).
    apply ok_shrink; [done| |done].
    intros s' t [_ H]%lookup_delete_Some. eauto using ok_nonempty.
  - apply ok_shrink; auto. intros s' t H. eauto using ok_nonempty.
Qed.

Lemma Subscribe_ok sub pub r : ok r -> ok (snd (Subscribe sub pub r)).
Proof.
  intros Hok. unfold Subscribe. destruct (tracks r !! pub) as [ts|] eqn:Ht; [|done]. cbn [snd].
  destruct (Nat.eqb_spec (length (map_to_list ts)) 0) as [|Hne]; [done|]. apply ok_shrink; auto.
  - intros s t H. eauto using ok_nonempty.
  - intros s l. rewrite lookup_insert_Some. intros [[<- <-]|[_ H]]; [|by apply (ok_subs _ Hok s)].
    intros [_ E]%app_eq_nil. apply Hne. by rewrite <- (length_map fst), E.
Qed.

Lemma Unsubscribe_ok sub pub r : ok r -> ok (Unsubscribe sub pub r).
Proof.
  intros Hok. unfold Unsubscribe. destruct (subscriptions r !! sub) as [l|] eqn:Hl; [|done]. cbv zeta.
  match goal with |- ok (mkRouter _ ?subs _) => set (ss := subs) end.
  refine (ok_alters (RemoveSubscriber sub) _ (mkRouter (tracks r) ss (media r)) (tame_Remove sub) _).
  apply ok_shrink; [done|intros s t H; eauto using ok_nonempty|]. unfold ss. clear ss. case_match.
  - intros s' l' [_ H']%lookup_delete_Some. by apply (ok_subs _ Hok s').
  - intros s' l' [[<- <-]|[_ H']]%lookup_insert_Some; [done|]. by apply (ok_subs _ Hok s').
Qed.

Lemma subscribe_tracks_ok create sub ps r : ok r -> ok (subscribe_tracks create sub ps r).
Proof.
  revert r. induction ps as [|p ps IH]; intros r Hok; [done|]. simpl. apply IH.
  unfold CreateLocalTrackForSubscriber. destruct (create p); [|done]. by apply ok_alter; auto with sfu.
Qed.

Lemma apply_op_ok o r : ok r -> ok (apply_op o r).
Proof.
  intros Hok. destruct o as [s tid|session create sub pub|sub pub|s|p err|sub pub|s tid]; cbn [apply_op];
    auto using AddTrack_ok, RemoveSessionTracks_ok, Subscribe_ok, RemoveTrack_ok.
  - unfold SubscribeToPublisher. destruct session as [[]|]; [|done..]. destruct (GetPublisherTracks pub r); [done|].
    by apply subscribe_tracks_ok.
  - by apply Unsubscribe_ok.
  - apply ok_alter; [apply tame_Close|done].
Qed.

Lemma ok_new : ok NewSFURouter.
Proof.
  split; unfold slot; cbn [NewSFURouter tracks subscriptions media]; intros *; rewrite ?lookup_empty; done.
Qed.

Lemma run_ops_ok ops : ok (run_ops ops).
Proof.
  unfold run_ops. generalize ok_new. generalize NewSFURouter.
  induction ops as [|o ops IH]; intros r Hr; [done|]. simpl. apply IH. by apply apply_op_ok.
Qed.

(** ** Who receives what *)

Lemma listeners_slot r pub tid p m :
  slot r pub tid = Some p -> media r !! p = Some m -> listeners r pub tid = default ∅ (subscribers m).
Proof. intros Hs Hm. unfold listeners. rewrite Hs. simpl. by rewrite Hm. Qed.

(** Updates of several track objects, each idempotent. *)
Lemma lookup_alters f (ps : list nat) (med : gmap nat MediaTrack) q :
  (forall m, f (f m) = f m) -> foldr (alter f) med ps !! q = if decide (q ∈ ps) then f <$> med !! q else med !! q.
Proof.
  intros Hf. induction ps as [|p ps IH]; cbn [foldr]; [done|]. destruct (decide (q = p)) as [->|Hne].
  - rewrite lookup_alter_eq, IH, (decide_True (P := p ∈ p :: ps)) by left.
    case_decide; [|done]. destruct (med !! p); simpl; [|done]. by rewrite Hf.
  - rewrite lookup_alter_ne, IH by done. apply decide_ext. set_solver.
Qed.

Lemma track_Close_idemp m : track_Close (track_Close m) = track_Close m.
Proof. unfold track_Close. by destruct (closed m) eqn:E; simpl; rewrite ?E. Qed.

Lemma RemoveSubscriber_idemp sub m : RemoveSubscriber sub (RemoveSubscriber sub m) = RemoveSubscriber sub m.
Proof. unfold RemoveSubscriber. simpl. f_equal. destruct (subscribers m); simpl; [|done]. by rewrite delete_delete_eq. Qed.

Lemma AddSubscriber_idemp sub l m : AddSubscriber sub l (AddSubscriber sub l m) = AddSubscriber sub l m.
Proof.
  unfold AddSubscriber. destruct (closed m) eqn:E; simpl; rewrite ?E; [done|]. by rewrite insert_insert_eq.
Qed.

Lemma track_Close_subscribers m : (subscribers m = None <-> closed m = true) -> subscribers (track_Close m) = None.
Proof. unfold track_Close. destruct (closed m) eqn:E; simpl; tauto. Qed.

(** The tracks a publisher has are those of its slots. *)
Lemma elem_of_tracks r pub p : p ∈ GetPublisherTracks pub r <-> exists tid, slot r pub tid = Some p.
Proof.
  unfold GetPublisherTracks. rewrite list_elem_of_fmap. setoid_rewrite slot_entry. split.
  - intros ([tid q]&->&H%elem_of_map_to_list). exists tid. destruct (tracks r !! pub); simpl in H; [eauto|by rewrite lookup_empty in H].
  - intros (tid&ts&Ht&Hp). exists (tid, p). rewrite Ht. simpl. by rewrite elem_of_map_to_list.
Qed.

(** The listeners of a slot, by its object. *)
Lemma listeners_media r r' pub tid :
  slot r' pub tid = slot r pub tid ->
  (forall p, slot r pub tid = Some p -> media r' !! p = media r !! p) -> listeners r' pub tid = listeners r pub tid.
Proof.
  intros Hs Hm. unfold listeners. rewrite Hs. destruct (slot r pub tid) as [p|] eqn:E; [|done]. simpl. by rewrite Hm.
Qed.

Lemma listeners_AddTrack s tid r pub tid' :
  ok r ->
  listeners (snd (AddTrack s tid r)) pub tid' = if decide ((s, tid) = (pub, tid')) then ∅ else listeners r pub tid'.
Proof.
  intros Hok. unfold AddTrack. simpl. set (p := fresh (dom (media r))).
  assert (media r !! p = None) as Hp by (apply not_elem_of_dom, is_fresh).
  case_decide as E.
  - injection E as <- <-. unfold listeners, slot. cbn [tracks media]. rewrite lookup_insert_eq. simpl.
    rewrite lookup_insert_eq. simpl. by rewrite lookup_insert_eq.
  - apply listeners_media.
    + unfold slot. cbn [tracks]. destruct (decide (s = pub)) as [<-|]; [|by rewrite lookup_insert_ne].
      rewrite lookup_insert_eq. simpl. rewrite lookup_insert_ne by congruence. by destruct (tracks r !! s).
    + intros q Hq. cbn [media]. destruct (ok_filed _ Hok _ _ _ Hq) as (m&Hm&_). by rewrite lookup_insert_ne by congruence.
Qed.

Lemma listeners_RemoveSession s r pub tid :
  ok r -> listeners (OnSessionRemoved s r) pub tid = if decide (pub = s) then ∅ else listeners r pub tid.
Proof.
  intros Hok. unfold OnSessionRemoved, RemoveSessionTracks. destruct (tracks r !! s) as [ts|] eqn:Ht; case_decide as E.
  - subst. unfold listeners, slot. cbn [tracks]. by rewrite lookup_delete_eq.
  - apply listeners_media.
    + unfold slot. cbn [tracks]. by rewrite lookup_delete_ne.
    + intros p Hp. cbn [media]. rewrite lookup_alters by apply track_Close_idemp. rewrite decide_False; [done|].
      intros ([tid' q]&Hq&Hin%elem_of_map_to_list)%list_elem_of_fmap. simpl in Hq. subst q.
      destruct (slot_inj r pub tid s tid' p Hok Hp) as [? _]; [by rewrite slot_entry; eauto|done].
  - subst. unfold listeners, slot. cbn [tracks]. by rewrite Ht.
  - by apply listeners_media.
Qed.

Lemma listeners_Unsubscribe sub pub r pub' tid :
  ok r ->
  listeners (Unsubscribe sub pub r) pub' tid =
    if decide (pub' = pub /\ tid ∈ default [] (subscriptions r !! sub))
    then delete sub (listeners r pub' tid) else listeners r pub' tid.
Proof.
  intros Hok. unfold Unsubscribe. destruct (subscriptions r !! sub) as [l|] eqn:Hl; cbn [default]; [|by rewrite decide_False by set_solver].
  unfold listeners. change (slot (mkRouter _ _ _) pub' tid) with (slot r pub' tid). cbn [media].
  destruct (slot r pub' tid) as [p|] eqn:Hp; simpl; [|case_decide; [by rewrite delete_empty|done]].
  rewrite lookup_alters by apply RemoveSubscriber_idemp.
  assert (p ∈ omap (fun tid => default ∅ (tracks r !! pub) !! tid) l <-> pub' = pub /\ tid ∈ l) as Hiff.
  { rewrite list_elem_of_omap. split.
    - intros (tid'&Hin&H). destruct (tracks r !! pub) as [ts|] eqn:Ht; simpl in H; [|by rewrite lookup_empty in H].
      destruct (slot_inj r pub' tid pub tid' p Hok Hp) as [-> ->]; [by rewrite slot_entry; eauto|done].
    - intros [-> Hin]. exists tid. split; [done|]. apply slot_entry in Hp as (ts&->&H). done. }
  rewrite (decide_ext _ _ _ _ Hiff). case_decide; [|done].
  destruct (media r !! p) as [m|]; simpl; [|by rewrite delete_empty]. destruct (subscribers m); simpl; [done|by rewrite delete_empty].
Qed.

Lemma listeners_RemoveTrack s tid r pub tid' :
  ok r -> listeners (RemoveTrack s tid r) pub tid' = if decide ((s, tid) = (pub, tid')) then ∅ else listeners r pub tid'.
Proof.
  intros Hok. unfold RemoveTrack. destruct (tracks r !! s) as [ts|] eqn:Ht.
  2:{ case_decide as E; [|done]. injection E as <- <-. unfold listeners, slot. by rewrite Ht. }
  assert (forall ts' subs med s' t, slot (mkRouter (if (size ts' =? 0)%nat then delete s (tracks r) else <[s := ts']> (tracks r)) subs med) s' t
    = if decide (s' = s) then ts' !! t else slot r s' t) as Hslot.
  { intros ts' subs med s' t. unfold slot. cbn [tracks]. destruct (Nat.eqb_spec (size ts') 0) as [Hz%map_size_empty_inv|_]; case_decide.
    - subst. rewrite lookup_delete_eq, lookup_empty. done.
    - by rewrite lookup_delete_ne.
    - subst. by rewrite lookup_insert_eq.
    - by rewrite lookup_insert_ne. }
  assert (forall t, slot r s t = ts !! t) as Hs0 by (intros t; unfold slot; by rewrite Ht).
  destruct (ts !! tid) as [p|] eqn:Hp.
  - case_decide as E.
    + injection E as <- <-. unfold listeners. rewrite Hslot, decide_True, lookup_delete_eq by done. done.
    + apply listeners_media.
      * rewrite Hslot. case_decide; [subst|done]. rewrite Hs0, lookup_delete_ne by congruence. done.
      * intros q Hq. cbn [media]. rewrite lookup_alter_ne; [done|]. intros ->.
        destruct (slot_inj r s tid pub tid' q Hok) as [-> ->]; [by rewrite Hs0|done|done].
  - case_decide as E; [injection E as <- <-|].
    + unfold listeners. rewrite Hslot, decide_True, Hp by done. done.
    + apply listeners_media; [|done]. rewrite Hslot. case_decide; [subst; by rewrite Hs0|done].
Qed.

(** The effect of the subscription loop on one track object. *)
Lemma subscribe_tracks_frame create sub ps r :
  tracks (subscribe_tracks create sub ps r) = tracks r /\
  subscriptions (subscribe_tracks create sub ps r) = subscriptions r /\
  forall p, media (subscribe_tracks create sub ps r) !! p =
    if decide (p ∈ ps) then match create p with inl l => AddSubscriber sub l <$> media r !! p | inr _ => media r !! p end
    else media r !! p.
Proof.
  revert r. induction ps as [|q ps IH]; intros r; [done|]. cbn [subscribe_tracks].
  destruct (IH (snd (CreateLocalTrackForSubscriber sub q (create q) r))) as (->&->&Hm).
  unfold CreateLocalTrackForSubscriber in *. destruct (create q) as [l|err] eqn:Eq; cbn [snd tracks subscriptions media] in *.
  - split; [done|]. split; [done|]. intros p. rewrite Hm. destruct (decide (p = q)) as [->|Hne].
    + rewrite (decide_True (P := q ∈ q :: ps)) by left. rewrite Eq, lookup_alter_eq. case_decide; [|done].
      destruct (media r !! q); simpl; [|done]. by rewrite AddSubscriber_idemp.
    + rewrite lookup_alter_ne by done. apply decide_ext. set_solver.
  - split; [done|]. split; [done|]. intros p. rewrite Hm. destruct (decide (p = q)) as [->|Hne].
    + rewrite Eq. by repeat case_decide.
    + apply decide_ext. set_solver.
Qed.

Definition is_open (r : SFURouter) (p : nat) : bool :=
  match media r !! p with Some m => negb (closed m) | None => false end.

Lemma listeners_Subscribe create sub pub r pub' tid :
  ok r ->
  listeners (snd (SubscribeToPublisher (Some true) create sub pub r)) pub' tid =
    match slot r pub' tid with
    | Some p =>
        if decide (pub' = pub /\ is_open r p = true)
        then match create p with inl l => <[sub := l]> (listeners r pub' tid) | inr _ => listeners r pub' tid end
        else listeners r pub' tid
    | None => ∅
    end.
Proof.
  intros Hok. set (ps := GetPublisherTracks pub r).
  assert (snd (SubscribeToPublisher (Some true) create sub pub r) = subscribe_tracks create sub ps r) as ->.
  { unfold SubscribeToPublisher. fold ps. by destruct ps. }
  destruct (subscribe_tracks_frame create sub ps r) as (Ht&_&Hm). unfold listeners.
  assert (slot (subscribe_tracks create sub ps r) pub' tid = slot r pub' tid) as -> by (unfold slot; by rewrite Ht).
  destruct (slot r pub' tid) as [p|] eqn:Hp; [|done]. simpl. rewrite Hm.
  assert (p ∈ ps <-> pub' = pub) as Hin.
  { unfold ps. rewrite elem_of_tracks. split; [|intros ->; eauto]. intros [tid' H']. by destruct (slot_inj r pub' tid pub tid' p Hok Hp H'). }
  destruct (ok_filed _ Hok _ _ _ Hp) as (m&Hmm&_&_). pose proof (ok_media _ Hok _ _ Hmm) as Hcl.
  unfold is_open. rewrite Hmm. simpl. destruct (decide (p ∈ ps)) as [Hi|Hi].
  - destruct (closed m) eqn:Ec.
    + rewrite decide_False by naive_solver. destruct (create p); [|done]. simpl. unfold AddSubscriber. by rewrite Ec.
    + rewrite decide_True by naive_solver. destruct (create p); [|done]. simpl. unfold AddSubscriber. by rewrite Ec.
  - rewrite decide_False by naive_solver. done.
Qed.

(** A packet goes once to each listener of its track. *)
Lemma forward_listeners {P} (packet : P) r pub tid p m :
  ok r -> slot r pub tid = Some p -> media r !! p = Some m ->
  forwardRTP (inl packet) m =
    (m, map (fun '(_, local) => (local, packet)) (map_to_list (listeners r pub tid)), is_open r p).
Proof.
  intros Hok Hs Hm. rewrite (listeners_slot _ _ _ _ _ Hs Hm). unfold is_open, forwardRTP. rewrite Hm.
  pose proof (ok_media _ Hok _ _ Hm) as Hc. destruct (closed m); [|done].
  destruct (subscribers m) as [subs|]; [|done]. discriminate (proj2 Hc eq_refl).
Qed.

(** ** Interleavings *)

Lemma record_subscription_ok sub tid r : ok r -> ok (record_subscription sub tid r).
Proof.
  intros Hok. apply ok_shrink; [done|intros s t Ht; eauto using ok_nonempty|].
  intros s l [[<- <-]|[_ Hl]]%lookup_insert_Some; [by destruct (default [] _)|by apply (ok_subs _ Hok s)].
Qed.

Lemma sfu_step_ok e w w' :
  (raced w = false -> ok (router w)) -> step e w = Some w' -> raced w' = false -> ok (router w').
Proof.
  intros Hok. destruct e as [o|p err|sub p local|i sub pub|i|i|i|subs]; cbn [step].
  - destruct (exclusive o && _); [|done]. intros [= <-] Hr. by apply apply_op_ok, Hok.
  - intros [= <-] Hr. apply (apply_op_ok (OReadError p err)). by apply Hok.
  - intros [= <-] Hr. cbn. specialize (Hok Hr). destruct local; [by apply ok_alter; auto with sfu|done].
  - unfold sub_begin. destruct (readers w !! i); [done|]. by intros [= <-].
  - unfold sub_write. destruct (readers w !! i) as [[? [] []]|]; try done; intros [= <-] [Hr _]%orb_false_iff; by apply Hok.
  - unfold sub_written. destruct (readers w !! i) as [[? [] []]|]; try done; intros [= <-] Hr. by apply record_subscription_ok, Hok.
  - unfold sub_return. destruct (readers w !! i) as [[? [] []]|]; try done; by intros [= <-].
  - destruct (raced w) eqn:Er; [|done]. intros [= <-]. cbn. congruence.
Qed.
Lemma sfu_run_ok es w w' : (raced w = false -> ok (router w)) -> run es w = Some w' -> raced w' = false -> ok (router w').
Proof.
  revert w. induction es as [|e es IH]; intros w Hok; [by intros [= <-]|]. intros (w1&H1&H2)%bind_Some.
  eapply IH; [|exact H2]. by eapply sfu_step_ok.
Qed.

(** While no two calls of [Subscribe] hold the read lock, there is no race. *)
Definition serial (w : World) : Prop := forall i j, is_Some (readers w !! i) -> is_Some (readers w !! j) -> i = j.
Lemma sfu_step_raced e w w' : serial w -> raced w = false -> step e w = Some w' -> raced w' = false.
Proof.
  intros Hs Hr. destruct e as [o|p err|sub p local|i sub pub|i|i|i|subs]; cbn [step].
  - destruct (exclusive o && _); [|done]. by intros [= <-].
  - by intros [= <-].
  - by intros [= <-].
  - unfold sub_begin. destruct (readers w !! i); [done|]. by intros [= <-].
  - unfold sub_write. destruct (readers w !! i) as [[? [] []]|] eqn:Hi; try done. intros [= <-]. cbn. rewrite Hr.
    apply bool_decide_eq_false. intros (j&c&Hj&Hc). rewrite <- (Hs i j) in Hj by eauto. rewrite Hi in Hj. by injection Hj as <-.
  - unfold sub_written. destruct (readers w !! i) as [[? [] []]|]; try done; by intros [= <-].
  - unfold sub_return. destruct (readers w !! i) as [[? [] []]|]; try done; by intros [= <-].
  - by rewrite Hr.
Qed.
Lemma sfu_run_raced es w w' :
  (forall es1 es2 w1, es = es1 ++ es2 -> run es1 w = Some w1 -> serial w1) -> raced w = false -> run es w = Some w' -> raced w' = false.
Proof.
  revert w. induction es as [|e es IH]; intros w Hs Hr; [by intros [= <-]|]. intros (w1&H1&H2)%bind_Some.
  eapply (IH w1); [|eapply sfu_step_raced; [|exact Hr|exact H1]; by apply (Hs [] (e :: es))|exact H2].
  intros es1 es2 w2 -> Hrun. apply (Hs (e :: es1) es2); [done|]. cbn [run]. by rewrite H1.
Qed.

(** A call of [Subscribe] that runs to its end alone does what [Subscribe] says. *)
Lemma sub_entries sub tids i r ra :
  run (concat (map (fun _ => [ESubWrite i; ESubWritten i]) tids)) (mkWorld r {[i := mkSubCall sub tids false]} ra) =
  Some (mkWorld (foldl (fun r tid => record_subscription sub tid r) r tids) {[i := mkSubCall sub [] false]} ra).
Proof.
  revert r. induction tids as [|tid tids IH]; intros r; [done|]. cbn [map concat app run step].
  unfold sub_write at 1. cbn [readers]. rewrite lookup_singleton_eq. cbn [mbind option_bind router raced].
  unfold sub_written at 1. cbn [readers]. rewrite lookup_insert_eq. cbn [mbind option_bind router raced].
  rewrite !insert_insert_eq, insert_singleton_eq.
  rewrite bool_decide_false, orb_false_r; [apply IH|]. intros (j&c&Hj&Hc). apply lookup_singleton_Some in Hj as [_ <-]. done.
Qed.
Lemma record_all sub tids r : tids <> [] ->
  foldl (fun r tid => record_subscription sub tid r) r tids =
  mkRouter (tracks r) (<[sub := default [] (subscriptions r !! sub) ++ tids]> (subscriptions r)) (media r).
Proof.
  revert r. induction tids as [|tid tids IH]; intros r Hne; [done|]. cbn [foldl]. destruct tids as [|tid' tids]; [done|].
  rewrite IH by done. unfold record_subscription. cbn [tracks subscriptions media]. rewrite lookup_insert_eq, insert_insert_eq. simpl.
  by rewrite <- app_assoc.
Qed.
Lemma subscribe_alone i sub pub w :
  readers w = ∅ ->
  exists es, run (ESubBegin i sub pub :: es) w = Some (mkWorld (snd (Subscribe sub pub (router w))) ∅ (raced w)).
Proof.
  intros Hr. destruct w as [r rs ra]. cbn in Hr. subst rs.
  set (tids := map fst (map_to_list (default ∅ (tracks r !! pub)))).
  exists (concat (map (fun _ => [ESubWrite i; ESubWritten i]) tids) ++ [ESubReturn i]).
  assert (forall es1 es2 w0, run (es1 ++ es2) w0 = (w1 ← run es1 w0; run es2 w1)) as Happ.
  { intros es1. induction es1 as [|e es1 IH]; intros es2 w0; [done|]. cbn. destruct (step e w0); [cbn; apply IH|done]. }
  cbn [run step]. unfold sub_begin. cbn [readers router raced]. rewrite lookup_empty. cbn [mbind option_bind]. fold tids.
  rewrite Happ, insert_empty, sub_entries. cbn [mbind option_bind run step]. unfold sub_return. cbn [readers router raced].
  rewrite lookup_singleton_eq. cbn [mbind option_bind]. rewrite delete_singleton_eq. f_equal. f_equal.
  unfold Subscribe. subst tids. destruct (tracks r !! pub) as [ts|]; [|done]. change (default ∅ (Some ts)) with ts. cbn [snd].
  destruct (Nat.eqb_spec (length (map_to_list ts)) 0) as [E|E]; [by apply nil_length_inv in E as ->|].
  apply record_all. by destruct (map_to_list ts).
Qed.

(** C37: however the calls interleave (tracks arriving, subscribers attached to one track
    after the other, unsubscriptions, sessions ending, read errors, and router
    subscriptions), unless two calls of the router's [Subscribe] wrote to the map of the
    subscriptions at the same time, the router stays well formed: no empty entry,
    every track filed under its publisher and id, a subscriber map exactly in the
    open tracks.  Such a race needs two calls of [Subscribe] in progress: while there is
    never more than one, and so in the server, which makes none, none happens. *)
Theorem sfu_router_invariant es w :
  run es new_world = Some w ->
  (raced w = false -> ok (router w)) /\
  ((forall es1 es2 w1, es = es1 ++ es2 -> run es1 new_world = Some w1 -> serial w1) -> raced w = false).
Proof.
  intros Hrun. split; [by apply (sfu_run_ok es new_world w (fun _ => ok_new))|]. intros Hs. by apply (sfu_run_raced es new_world w).
Qed.

(** Two subscribers of one publisher, whose calls write at the same time. *)
Definition two_subscribers : list event :=
  [ELocked (OTrack "alice" "cam"); ESubBegin 0 "bob" "alice"; ESubBegin 1 "carol" "alice"; ESubWrite 0; ESubWrite 1].
Example sfu_subscribe_race : raced <$> run two_subscribers new_world = Some true.
Proof. reflexivity. Qed.

Lemma sfu_router_invariant_witness :
  exists w, run [ELocked (OTrack "alice" "cam"); ESubBegin 0 "bob" "alice"; EAttach "bob" 0 (inl 7%nat); ESubWrite 0; ESubWritten 0; ESubReturn 0] new_world = Some w /\
    raced w = false /\ subscriptions (router w) = {["bob" := ["cam"]]} /\ ok (router w).
Proof.
  set (es := [ELocked (OTrack "alice" "cam"); ESubBegin 0 "bob" "alice"; EAttach "bob" 0 (inl 7%nat); ESubWrite 0; ESubWritten 0; ESubReturn 0]).
  destruct (run es new_world) as [w|] eqn:E; [|by vm_compute in E]. exists w. split; [done|].
  assert (raced w = false /\ subscriptions (router w) = {["bob" := ["cam"]]}) as [Hr Hs] by (vm_compute in E; by injection E as <-).
  split; [done|]. split; [done|]. exact (proj1 (sfu_router_invariant es w E) Hr).
Defined.

(** In every state the operations reach, who receives the packets of a
    publisher's track is exactly: nobody after the track is added, or removed, or
    its session ends; the subscriber in addition after a successful
    [SubscribeToPublisher], on every open track of that publisher for which pion
    made a local track; the subscriber no more after [Unsubscribe] when its
    recorded subscriptions name the track; and no other track is affected.  A
    packet goes once to each receiver. *)
Theorem sfu_listeners (ops : list op) pub tid :
  let r := run_ops ops in
  (forall s t, listeners (snd (AddTrack s t r)) pub tid = if decide ((s, t) = (pub, tid)) then ∅ else listeners r pub tid) /\
  (forall s t, listeners (RemoveTrack s t r) pub tid = if decide ((s, t) = (pub, tid)) then ∅ else listeners r pub tid) /\
  (forall s, listeners (OnSessionRemoved s r) pub tid = if decide (pub = s) then ∅ else listeners r pub tid) /\
  (forall create sub pub', listeners (snd (SubscribeToPublisher (Some true) create sub pub' r)) pub tid =
    match slot r pub tid with
    | Some p =>
        if decide (pub = pub' /\ is_open r p = true)
        then match create p with inl l => <[sub := l]> (listeners r pub tid) | inr _ => listeners r pub tid end
        else listeners r pub tid
    | None => ∅
    end) /\
  (forall sub pub', listeners (Unsubscribe sub pub' r) pub tid =
    if decide (pub = pub' /\ tid ∈ default [] (subscriptions r !! sub))
    then delete sub (listeners r pub tid) else listeners r pub tid) /\
  (forall p m (packet : list nat), slot r pub tid = Some p -> media r !! p = Some m ->
    snd (fst (forwardRTP (inl packet) m)) = map (fun '(_, local) => (local, packet)) (map_to_list (listeners r pub tid))).
Proof.
  intros r. pose proof (run_ops_ok ops) as Hok. fold r in Hok.
  split_and!; intros; rewrite ?listeners_AddTrack, ?listeners_RemoveTrack, ?listeners_RemoveSession, ?listeners_Subscribe,
    ?listeners_Unsubscribe by done; try done.
  by erewrite forward_listeners.
Qed.

Lemma server_ops_subscriptions ops r :
  forallb server_op ops = true -> subscriptions r = ∅ -> subscriptions (fold_left (fun r o => apply_op o r) ops r) = ∅.
Proof.
  revert r. induction ops as [|o ops IH]; intros r H Hr; [done|]. simpl in H. apply andb_prop in H as [Ho H].
  simpl. apply IH; [done|]. destruct o as [s tid|session create sub pub|sub pub|s|p err|sub pub|s tid]; try done; cbn [apply_op].
  - unfold SubscribeToPublisher. destruct session as [[]|]; [|done..]. destruct (GetPublisherTracks pub r); [done|].
    destruct (subscribe_tracks_frame create sub (n :: l) r) as (_&E&_). simpl in *. congruence.
  - unfold UnsubscribeFromPublisher, Unsubscribe. by rewrite Hr, lookup_empty.
  - unfold OnSessionRemoved, RemoveSessionTracks. destruct (tracks r !! s); simpl; by rewrite Hr, delete_empty.
Qed.

(** The server never records a subscription, so its [UnsubscribeFromPublisher]
    does nothing: after any history of server operations, a subscriber that asked
    to be unsubscribed still receives every packet it received before. *)
Theorem sfu_unsubscribe_noop ops sub pub :
  forallb server_op ops = true -> UnsubscribeFromPublisher sub pub (run_ops ops) = run_ops ops.
Proof.
  intros H. unfold UnsubscribeFromPublisher, Unsubscribe, run_ops.
  by rewrite (server_ops_subscriptions ops NewSFURouter H), lookup_empty.
Qed.

Lemma sfu_unsubscribe_noop_witness :
  let ops := [OTrack "alice" "cam"; OSubscribe (Some true) (fun p => inl (p + 7)%nat) "bob" "alice"] in
  UnsubscribeFromPublisher "bob" "alice" (run_ops ops) = run_ops ops /\
  listeners (UnsubscribeFromPublisher "bob" "alice" (run_ops ops)) "alice" "cam" = {["bob" := 7%nat]}.
Proof.
  intros ops. assert (UnsubscribeFromPublisher "bob" "alice" (run_ops ops) = run_ops ops) as E
    by (apply (sfu_unsubscribe_noop ops); reflexivity).
  split; [exact E|]. vm_compute. reflexivity.
Defined.
