(* ===== verification/WebRtcMessage.v ===== *)
(** [transport/webrtc], messages: [message.go], [types.go], the message half of
    [server.go] and of [client.go], with their options.  The two ends use the
    packet formats of [NetPacket] and the body encoding of [broker]. *)
From Stdlib Require Import ZArith Lia Ascii.
From S2P Require Import Prelude GoErrors NetPacket Encoding Broker BrokerCodec.
From stdpp Require Import base gmap strings list fin_maps pretty.
Open Scope string_scope.
Open Scope list_scope.
Open Scope Z_scope.

(** [type PayloadType uint8] and its constants *)
Definition PayloadTypeBinary : Z := 0.
Definition PayloadTypeText : Z := 1.

(** [type TextNetPacket struct] *)
Record TextNetPacket := mkText { txt_Type : Z; txt_Payload : bytes }.

Section messages.
(** The application's message types; [encoding/gob], which [broker] uses without a
    codec; [encoding/json] on the text packet. *)
Context {T : Type}
  (gob_Encode : value T -> bytes + error) (gob_Decode : bytes -> value T -> option error * value T)
  (json_Marshal : TextNetPacket -> bytes + error)
  (json_Unmarshal : bytes -> TextNetPacket -> option error * TextNetPacket).

(** [MessagePayload]: nil, or a value; raw payloads are byte slices. *)
Abbreviation MessagePayload := (value T).
Abbreviation codec_t := (option (Codec (value T))).

(** [type MessageHandlerData struct] *)
Record MessageHandlerData := mkHandlerData {
  Handler : string -> MessagePayload -> option error;
  Creator : option (unit -> option (gv T))
}.

(** [func (h *MessageHandlerData) Create() any] *)
Definition Create (h : MessageHandlerData) : option (gv T) :=
  match Creator h with
  | Some c => c tt
  | None => None
  end.

(** * Packets, as both ends make and read them *)

(** [broker.Marshal] of the message, in the packet of the mode. *)
Definition marshal_packet (payloadType : Z) (codec : codec_t) (messageType : Z) (message : option MessagePayload) :
    bytes + error :=
  if payloadType =? PayloadTypeBinary then
    match Marshal gob_Encode codec message with
    | inr err => inr err
    | inl payload => NetPacket.Marshal (mkPacket messageType payload)
    end
  else if payloadType =? PayloadTypeText then
    match Marshal gob_Encode codec message with
    | inr err => inr err
    | inl payload => json_Marshal (mkText messageType payload)
    end
  else inr (Errorf ("unsupported payload type: " ++ pretty payloadType)).

(** The packet's type and raw payload in a known mode; [None] in another. *)
Definition unpack (payloadType : Z) (buf : bytes) : option (Z * bytes + error) :=
  if payloadType =? PayloadTypeBinary then
    Some match NetPacket.Unmarshal (mkPacket 0 []) buf with
         | (Some err, _) => inr err
         | (None, m) => inl (pkt_Type m, pkt_Payload m)
         end
  else if payloadType =? PayloadTypeText then
    Some match json_Unmarshal buf (mkText 0 []) with
         | (Some err, _) => inr err
         | (None, m) => inl (txt_Type m, txt_Payload m)
         end
  else None.

(** [broker.Unmarshal(codec, raw, &payload)] with [payload] an interface variable
    holding [v0]: what it holds afterwards.  A nil slice is [None]. *)
Definition unmarshal_into (codec : codec_t) (raw : option bytes) (v0 : gv T) : MessagePayload + error :=
  match Unmarshal gob_Decode codec raw (Some (TPtr (AValue (GPtrAny v0)))) with
  | (Some err, _) => inr err
  | (None, Some (TPtr (AValue (GPtrAny v)))) => inl (AValue v)
  | (None, Some (TPtr v)) => inl v
  | (None, Some (TBytes b)) => inl (AValue (GBytes b))
  | (None, Some (TString s)) => inl (AString s)
  | (None, None) => inl (AValue v0)
  end.

(** * The server's messages *)

(** The fields of [Server] the messages depend on; the function fields are nil
    until [init] defaults them to the server's methods. *)
Record Server := mkServer {
  payloadType : Z;
  codec : codec_t;
  messageHandlers : gmap Z MessageHandlerData;
  netPacketMarshaler : option (Z -> option MessagePayload -> bytes + error);
  netPacketUnmarshaler : option (bytes -> MessageHandlerData * MessagePayload + error);
  socketRawDataHandler : option (string -> bytes -> option error)
}.

Definition with_handlers (m : gmap Z MessageHandlerData) (s : Server) : Server :=
  mkServer (payloadType s) (codec s) m (netPacketMarshaler s) (netPacketUnmarshaler s) (socketRawDataHandler s).

(** [func (s *Server) RegisterMessageHandler] *)
Definition RegisterMessageHandler (messageType : Z) (handler : string -> MessagePayload -> option error)
    (binder : option (unit -> option (gv T))) (s : Server) : Server :=
  match messageHandlers s !! messageType with
  | Some _ => s
  | None => with_handlers (<[messageType := mkHandlerData handler binder]> (messageHandlers s)) s
  end.

(** [payload.(type)] with [case *T], for the application's own type. *)
Definition as_ptr (payload : MessagePayload) : option T :=
  match payload with
  | AValue (GPtr t) => Some t
  | _ => None
  end.

(** [func RegisterServerMessageHandler[T any]]; [zero] is the zero value of [T]. *)
Definition RegisterServerMessageHandler (zero : T) (messageType : Z) (handler : string -> T -> option error) (s : Server) : Server :=
  RegisterMessageHandler messageType
    (fun sessionId payload =>
      match as_ptr payload with
      | Some t => handler sessionId t
      | None => Some (Errorf "invalid payload struct type")
      end)
    (Some (fun _ => Some (GPtr zero))) s.

(** [func (s *Server) DeregisterMessageHandler] *)
Definition DeregisterMessageHandler (messageType : Z) (s : Server) : Server :=
  with_handlers (delete messageType (messageHandlers s)) s.

(** [func (s *Server) GetMessageHandler] *)
Definition GetMessageHandler (messageType : Z) (s : Server) : option MessageHandlerData :=
  messageHandlers s !! messageType.

(** [func (s *Server) defaultMarshalNetPacket] *)
Definition defaultMarshalNetPacket (s : Server) (messageType : Z) (message : option MessagePayload) : bytes + error :=
  marshal_packet (payloadType s) (codec s) messageType message.

(** [func (s *Server) marshalMessage] *)
Definition marshalMessage (s : Server) (messageType : Z) (message : option MessagePayload) : bytes + error :=
  match netPacketMarshaler s with
  | None => defaultMarshalNetPacket s messageType message
  | Some f => f messageType message
  end.

(** [func (s *Server) defaultUnmarshalNetPacket]: an unknown mode leaves the zero
    type and the nil payload. *)
Definition defaultUnmarshalNetPacket (s : Server) (buf : bytes) : MessageHandlerData * MessagePayload + error :=
  let dispatch messageType rawPayload :=
    match GetMessageHandler messageType s with
    | None => inr (Errorf "message handler not found")
    | Some handler =>
        match Create handler with
        | None => inl (handler, AValue (GBytes (default [] rawPayload)))
        | Some payload =>
            match unmarshal_into (codec s) rawPayload payload with
            | inr err => inr err
            | inl payload => inl (handler, payload)
            end
        end
    end in
  match unpack (payloadType s) buf with
  | None => dispatch 0 None
  | Some (inr err) => inr err
  | Some (inl (messageType, rawPayload)) => dispatch messageType (Some rawPayload)
  end.

(** [func (s *Server) unmarshalNetPacket] *)
Definition unmarshalNetPacket (s : Server) (buf : bytes) : MessageHandlerData * MessagePayload + error :=
  match netPacketUnmarshaler s with
  | Some f => f buf
  | None => defaultUnmarshalNetPacket s buf
  end.

(** [func (s *Server) defaultHandleSocketRawData] *)
Definition defaultHandleSocketRawData (s : Server) (sessionId : string) (buf : bytes) : option error :=
  match unmarshalNetPacket s buf with
  | inr err => Some err
  | inl (handler, payload) => Handler handler sessionId payload
  end.

(** [func (s *Server) handleSocketRawData] *)
Definition handleSocketRawData (s : Server) (sessionId : string) (buf : bytes) : option error :=
  match socketRawDataHandler s with
  | Some f => f sessionId buf
  | None => defaultHandleSocketRawData s sessionId buf
  end.

(** Options on these fields, and the codec [init] chooses. *)
Definition WithCodec (cs : codecs (value T)) (c : string) : Server -> Server := fun s =>
  if String.eqb c "" then s
  else mkServer (payloadType s) (GetCodec c cs) (messageHandlers s) (netPacketMarshaler s) (netPacketUnmarshaler s)
         (socketRawDataHandler s).
Definition WithPayloadType (t : Z) : Server -> Server := fun s =>
  mkServer t (codec s) (messageHandlers s) (netPacketMarshaler s) (netPacketUnmarshaler s) (socketRawDataHandler s).
Definition WithMessageMarshaler (m : option (Z -> option MessagePayload -> bytes + error)) : Server -> Server := fun s =>
  mkServer (payloadType s) (codec s) (messageHandlers s) m (netPacketUnmarshaler s) (socketRawDataHandler s).
Definition WithMessageUnmarshaler (m : option (bytes -> MessageHandlerData * MessagePayload + error)) : Server -> Server := fun s =>
  mkServer (payloadType s) (codec s) (messageHandlers s) (netPacketMarshaler s) m (socketRawDataHandler s).
Definition WithSocketRawDataHandler (h : option (string -> bytes -> option error)) : Server -> Server := fun s =>
  match h with
  | None => s
  | Some _ => mkServer (payloadType s) (codec s) (messageHandlers s) (netPacketMarshaler s) (netPacketUnmarshaler s) h
  end.

Definition init_codec (cs : codecs (value T)) (s : Server) : Server :=
  match codec s with
  | Some _ => s
  | None =>
      mkServer (payloadType s)
        (match GetCodec "json" cs with Some c => Some c | None => GetCodec "bytes" cs end)
        (messageHandlers s) (netPacketMarshaler s) (netPacketUnmarshaler s) (socketRawDataHandler s)
  end.

(** * The client's messages *)

(** [type ClientHandlerData struct]; the handler may be nil. *)
Record ClientHandlerData := mkClientHandler {
  cl_Handler : option (MessagePayload -> option error);
  cl_Creator : option (unit -> gv T)
}.

Record Client := mkClient {
  cl_payloadType : Z;
  cl_codec : codec_t;
  cl_messageHandlers : gmap Z ClientHandlerData
}.

(** [func NewClient(opts ...ClientOption) *Client], the message fields. *)
Definition NewClient (cs : codecs (value T)) (opts : list (Client -> Client)) : Client :=
  let c := apply_opts opts (mkClient PayloadTypeBinary (GetCodec "json" cs) ∅) in
  match cl_codec c with
  | Some _ => c
  | None => mkClient (cl_payloadType c) (GetCodec "json" cs) (cl_messageHandlers c)
  end.

Definition WithClientCodec (cs : codecs (value T)) (name : string) : Client -> Client := fun c =>
  if String.eqb name "" then c else mkClient (cl_payloadType c) (GetCodec name cs) (cl_messageHandlers c).
Definition WithClientPayloadType (t : Z) : Client -> Client := fun c =>
  mkClient t (cl_codec c) (cl_messageHandlers c).

(** [func (c *Client) RegisterMessageHandler] *)
Definition client_RegisterMessageHandler (messageType : Z) (handler : option (MessagePayload -> option error))
    (binder : option (unit -> gv T)) (c : Client) : Client :=
  match cl_messageHandlers c !! messageType with
  | Some _ => c
  | None =>
      mkClient (cl_payloadType c) (cl_codec c) (<[messageType := mkClientHandler handler binder]> (cl_messageHandlers c))
  end.

(** [func RegisterClientMessageHandler[T any]] *)
Definition RegisterClientMessageHandler (zero : T) (messageType : Z) (handler : T -> option error) (c : Client) : Client :=
  client_RegisterMessageHandler messageType
    (Some (fun payload =>
      match as_ptr payload with
      | Some t => handler t
      | None => Some (Errorf "invalid payload struct type")
      end))
    (Some (fun _ => GPtr zero)) c.

(** [func (c *Client) DeregisterMessageHandler] *)
Definition client_DeregisterMessageHandler (messageType : Z) (c : Client) : Client :=
  mkClient (cl_payloadType c) (cl_codec c) (delete messageType (cl_messageHandlers c)).

(** [func (c *Client) marshalMessage] *)
Definition client_marshalMessage (c : Client) (messageType : Z) (message : option MessagePayload) : bytes + error :=
  marshal_packet (cl_payloadType c) (cl_codec c) messageType message.

(** [func (c *Client) unmarshalMessage] *)
Definition unmarshalMessage (c : Client) (buf : bytes) : ClientHandlerData * MessagePayload + error :=
  match unpack (cl_payloadType c) buf with
  | None => inr (Errorf ("unsupported payload type: " ++ pretty (cl_payloadType c)))
  | Some (inr err) => inr err
  | Some (inl (messageType, rawPayload)) =>
      match cl_messageHandlers c !! messageType with
      | None => inr (Errorf ("message handler not found: " ++ pretty messageType))
      | Some handler =>
          match cl_Creator handler with
          | None => inl (handler, AValue (GBytes rawPayload))
          | Some creator =>
              match unmarshal_into (cl_codec c) (Some rawPayload) (creator tt) with
              | inr err => inr err
              | inl payload => inl (handler, payload)
              end
          end
      end
  end.

(** [func (c *Client) messageHandler(buf []byte) error] *)
Definition messageHandler (c : Client) (buf : bytes) : option error :=
  match unmarshalMessage c buf with
  | inr err => Some err
  | inl (handler, payload) =>
      match cl_Handler handler with
      | None => None
      | Some h => h payload
      end
  end.

(** [func (c *Client) SendMessage]: [dc] is the data channel, if there is one, as
    what its [SendText] and [Send] answer; the buffer handed to it is the second
    component.  (The metrics are not modelled.) *)
Definition client_SendMessage (dc : option (bool -> bytes -> option error)) (c : Client) (messageType : Z)
    (message : option MessagePayload) : option error * option (bool * bytes) :=
  match client_marshalMessage c messageType message with
  | inr err => (Some err, None)
  | inl buf =>
      match dc with
      | None => (Some (Errorf "data channel is nil"), None)
      | Some channel => let text := cl_payloadType c =? PayloadTypeText in (channel text buf, Some (text, buf))
      end
  end.
End messages.
Arguments MessageHandlerData : clear implicits.
Arguments Server : clear implicits.
Arguments ClientHandlerData : clear implicits.
Arguments Client : clear implicits.

(** * Properties *)

Section message_facts.
Context {T : Type}
  (gob_Encode : value T -> bytes + error) (gob_Decode : bytes -> value T -> option error * value T)
  (json_Marshal : TextNetPacket -> bytes + error)
  (json_Unmarshal : bytes -> TextNetPacket -> option error * TextNetPacket).
Implicit Types (s : Server T) (c : Client T) (t : Z).

(** The first registration of a type wins until it is deregistered, and other
    types are not affected, at both ends. *)
Lemma webrtc_handler_register t t' h b s :
  GetMessageHandler t' (RegisterMessageHandler t h b s) =
    if decide (t = t') then Some (default (mkHandlerData h b) (GetMessageHandler t s)) else GetMessageHandler t' s.
Proof.
  unfold RegisterMessageHandler, GetMessageHandler. destruct (messageHandlers s !! t) eqn:E; simpl.
  - by destruct (decide (t = t')) as [<-|].
  - destruct (decide (t = t')) as [<-|]; [by rewrite lookup_insert_eq|by rewrite lookup_insert_ne].
Qed.

(** [encoding/json] decodes what it encoded, for strings of valid UTF-8. *)
Definition json_text_laws (text_ok : bytes -> bool) : Prop :=
  forall t p buf, in_uint32 t -> text_ok p = true -> json_Marshal (mkText t p) = inl buf ->
    json_Unmarshal buf (mkText 0 []) = (None, mkText t p).

Lemma webrtc_unpack_marshal text_ok mode codec t v p buf :
  json_text_laws text_ok -> in_uint32 t -> (mode = PayloadTypeText -> text_ok p = true) ->
  Marshal gob_Encode codec v = inl p -> marshal_packet gob_Encode json_Marshal mode codec t v = inl buf ->
  unpack json_Unmarshal mode buf = Some (inl (t, p)).
Proof.
  intros Hj Ht Hok Hp. unfold marshal_packet, unpack. rewrite Hp.
  destruct (mode =? PayloadTypeBinary) eqn:Eb.
  - intros Hm. by rewrite (unmarshal_marshal (mkPacket t p) (mkPacket 0 []) buf Ht Hm).
  - destruct (mode =? PayloadTypeText) eqn:Et; [|done]. apply Z.eqb_eq in Et.
    intros Hm. by rewrite (Hj _ _ _ Ht (Hok Et) Hm).
Qed.

(** A packet that could be made has a body that could be encoded. *)
Lemma marshal_packet_body mode codec t v buf :
  marshal_packet gob_Encode json_Marshal mode codec t v = inl buf -> exists p, Marshal gob_Encode codec v = inl p.
Proof.
  unfold marshal_packet. destruct (Marshal gob_Encode codec v); [eauto|].
  destruct (mode =? PayloadTypeBinary); [done|]. by destruct (mode =? PayloadTypeText).
Qed.

(** A message crosses the data channel in both directions.  What a client's
    [SendMessage] puts on the channel, a server of the same mode dispatches to the
    one handler registered for the type, with the body its codec decodes into the
    handler's fresh instance (the body itself without creator); what the server
    marshals, a client of the same mode handles in the same way.  Errors of the
    codec reach the caller, and no other handler runs. *)
Theorem webrtc_message_round_trip text_ok s c t v p buf sessionId :
  json_text_laws text_ok -> in_uint32 t -> cl_payloadType c = payloadType s ->
  (payloadType s = PayloadTypeText -> text_ok p = true) ->
  netPacketMarshaler s = None -> netPacketUnmarshaler s = None -> socketRawDataHandler s = None ->
  (forall h channel, Marshal gob_Encode (cl_codec c) v = inl p -> GetMessageHandler t s = Some h ->
     snd (client_SendMessage gob_Encode json_Marshal (Some channel) c t v) = Some (cl_payloadType c =? PayloadTypeText, buf) ->
     handleSocketRawData gob_Decode json_Unmarshal s sessionId buf =
       match Create h with
       | None => Handler h sessionId (AValue (GBytes p))
       | Some v0 =>
           match unmarshal_into gob_Decode (codec s) (Some p) v0 with
           | inr err => Some err
           | inl v' => Handler h sessionId v'
           end
       end) /\
  (forall h f, Marshal gob_Encode (codec s) v = inl p -> cl_messageHandlers c !! t = Some h -> cl_Handler h = Some f ->
     marshalMessage gob_Encode json_Marshal s t v = inl buf ->
     messageHandler gob_Decode json_Unmarshal c buf =
       match cl_Creator h with
       | None => f (AValue (GBytes p))
       | Some creator =>
           match unmarshal_into gob_Decode (cl_codec c) (Some p) (creator tt) with
           | inr err => Some err
           | inl v' => f v'
           end
       end).
Proof.
  intros Hj Ht Hmode Hok Hm Hu Hr. split.
  - intros h channel Hp Hh Hsend. unfold client_SendMessage, client_marshalMessage in Hsend.
    destruct (marshal_packet _ _ _ _ t v) as [b|] eqn:E; [|done]. simpl in Hsend. injection Hsend as ->.
    rewrite Hmode in E. pose proof (webrtc_unpack_marshal _ _ _ _ _ _ _ Hj Ht Hok Hp E) as Hpk.
    unfold handleSocketRawData, defaultHandleSocketRawData, unmarshalNetPacket, defaultUnmarshalNetPacket.
    rewrite Hr, Hu, Hpk, Hh. destruct (Create h) as [v0|]; [|done]. by destruct (unmarshal_into _ _ _ v0).
  - intros h f Hp Hh Hf Hmar. unfold marshalMessage, defaultMarshalNetPacket in Hmar. rewrite Hm in Hmar.
    pose proof (webrtc_unpack_marshal _ _ _ _ _ _ _ Hj Ht Hok Hp Hmar) as Hpk.
    unfold messageHandler, unmarshalMessage. rewrite Hmode, Hpk, Hh.
    destruct (cl_Creator h) as [creator|]; [destruct (unmarshal_into _ _ _ (creator tt)); [|done]|]; by rewrite Hf.
Qed.

(** In a mode that is neither binary nor text, the server takes every packet for
    type 0: it fails for want of a handler, or of data, or calls the handler of
    type 0 with nothing, where the client reports the mode. *)
Lemma unknown_mode_dispatch s c buf sessionId :
  payloadType s <> PayloadTypeBinary -> payloadType s <> PayloadTypeText ->
  socketRawDataHandler s = None -> netPacketUnmarshaler s = None -> cl_payloadType c = payloadType s ->
  handleSocketRawData gob_Decode json_Unmarshal s sessionId buf =
    match GetMessageHandler 0 s with
    | None => Some (Errorf "message handler not found")
    | Some h => if Create h then Some (Errorf "inputData is nil") else Handler h sessionId (AValue (GBytes []))
    end /\
  messageHandler gob_Decode json_Unmarshal c buf = Some (Errorf ("unsupported payload type: " ++ pretty (payloadType s))).
Proof.
  intros Hb Ht Hr Hu Hmode.
  assert (unpack json_Unmarshal (payloadType s) buf = None) as Hn.
  { unfold unpack. by rewrite (proj2 (Z.eqb_neq _ _) Hb), (proj2 (Z.eqb_neq _ _) Ht). }
  unfold handleSocketRawData, defaultHandleSocketRawData, unmarshalNetPacket, defaultUnmarshalNetPacket,
    messageHandler, unmarshalMessage. rewrite Hr, Hu, Hmode, Hn. split; [|done].
  destruct (GetMessageHandler 0 s) as [h|]; [|done]. by destruct (Create h).
Qed.
End message_facts.

(** Witness: JSON for the packets of type 7, a codec for strings. *)
Definition toy_text (p : bytes) : bytes := String.list_ascii_of_string "{type:7}" ++ p.
Definition toy_marshal (m : TextNetPacket) : bytes + error :=
  if txt_Type m =? 7 then inl (toy_text (txt_Payload m)) else inr (Errorf "type").
Definition toy_unmarshal (b : bytes) (m : TextNetPacket) : option error * TextNetPacket :=
  if decide (take 8 b = toy_text []) then (None, mkText 7 (drop 8 b)) else (Some (Errorf "bad"), m).
Definition toy_codec : Codec (value string) :=
  mkCodec
    (fun v => match v with AValue (GPtr x) => inl (String.list_ascii_of_string x) | _ => inr (Errorf "type") end)
    (fun b v => (None, AValue (GPtrAny (GPtr (String.string_of_list_ascii b))))) "json".
Definition no_gob_encode : value string -> bytes + error := fun _ => inr (Errorf "gob").
Definition no_gob_decode : bytes -> value string -> option error * value string := fun _ v => (Some (Errorf "gob"), v).
Definition greet (sid x : string) : option error := if String.eqb x "hi" then None else Some (Errorf sid).

Lemma webrtc_message_round_trip_witness :
  let s := RegisterServerMessageHandler "" 7 greet
             (init_codec {["json" := toy_codec]} (mkServer PayloadTypeText None ∅ None None None)) in
  let c := NewClient {["json" := toy_codec]} [WithClientPayloadType PayloadTypeText] in
  client_SendMessage no_gob_encode toy_marshal (Some (fun _ _ => None)) c 7 (Some (AValue (GPtr "hi"))) =
    (None, Some (true, toy_text (String.list_ascii_of_string "hi"))) /\
  handleSocketRawData no_gob_decode toy_unmarshal s "sid" (toy_text (String.list_ascii_of_string "hi")) = None.
Proof.
  intros s c. split; [reflexivity|].
  assert (json_text_laws toy_marshal toy_unmarshal (fun _ => true)) as Hj.
  { intros t p buf _ _. unfold toy_marshal. cbn [txt_Type txt_Payload]. destruct (Z.eqb_spec t 7) as [->|]; [|done].
    intros [= <-]. unfold toy_unmarshal. rewrite decide_True; reflexivity. }
  assert (in_uint32 7) as Ht by (unfold in_uint32; lia).
  etransitivity; [refine (proj1 (webrtc_message_round_trip no_gob_encode no_gob_decode toy_marshal toy_unmarshal (fun _ => true)
    s c 7 (Some (AValue (GPtr "hi"))) (String.list_ascii_of_string "hi") _ "sid" Hj Ht eq_refl _ eq_refl eq_refl eq_refl)
    _ (fun _ _ => None) eq_refl eq_refl eq_refl); reflexivity|reflexivity].
Defined.
