(* ===== verification/WebRtcSession.v ===== *)
(** [transport/webrtc], sessions: [session.go], [session_manager.go] and the
    server's use of them, as interleaved steps of the goroutines that share a
    session (pion's callbacks, its write pump, senders, whoever closes it, and
    [Stop]), together with the media router of [WebRtcSfu]. *)
From Stdlib Require Import ZArith Lia Ascii.
From S2P Require Import Prelude GoErrors NetPacket WebRtcSfu WebRtcMessage.
From stdpp Require Import base gmap strings list fin_maps fin_sets.
Open Scope string_scope.
Open Scope list_scope.

(** * A session *)

(** How far the function under [openOnce] has run: not at all, [LoadOrStore],
    [OnSessionAdded], [Listen]. *)
Inductive phase := Made | Stored | Announced | Listening.

(** How far the function under [closeOnce] has run: [close(s.done)], the channel
    and the connection set to nil, both closed, [LoadAndDelete], the connect
    handler, [RemoveSessionTracks]; [Closed false] when [LoadAndDelete] found no
    entry. *)
Inductive stage := Open | Quit | Detached | Disconnected | Removed | Told | Closed (found : bool).

(** [writePump]: not started, in its select, with a message, with a message and
    the channel, in the deferred [Close], returned. *)
Inductive wpump := WNone | WIdle | WHolding (m : bytes) | WSending (m : bytes) | WClosing | WExited.

#[export] Instance phase_eq_dec : EqDecision phase.
Proof. solve_decision. Defined.
#[export] Instance stage_eq_dec : EqDecision stage.
Proof. solve_decision. Defined.
#[export] Instance wpump_eq_dec : EqDecision wpump.
Proof. solve_decision. Defined.

(** [type Session struct], with its history: the messages [SendMessage] accepted,
    those the channel took, the data received. *)
Record Session := mkSession {
  queries : gmap string (list string);
  cap : nat;
  dc : bool;
  ph : phase;
  stg : stage;
  send : list bytes;
  wp : wpump;
  accepted : list bytes;
  written : list bytes;
  received : list bytes
}.

(** [func NewSession]: panics without a peer connection; the channel's capacity is
    the package's [channelBufSize] at this moment. *)
Definition NewSession (channelBufSize : nat) (pc : bool) (vars : gmap string (list string)) : result Session :=
  if pc then Returned (mkSession vars channelBufSize false Made Open [] WNone [] [] []) else Panicked.

Definition set_ph p s := mkSession (queries s) (cap s) (dc s) p (stg s) (send s) (wp s) (accepted s) (written s) (received s).
Definition set_wp w s := mkSession (queries s) (cap s) (dc s) (ph s) (stg s) (send s) w (accepted s) (written s) (received s).
Definition set_stg g s := mkSession (queries s) (cap s) (dc s) (ph s) g (send s) (wp s) (accepted s) (written s) (received s).
Definition set_dc d s := mkSession (queries s) (cap s) d (ph s) (stg s) (send s) (wp s) (accepted s) (written s) (received s).

(** [s.done] is closed; [s.pc] is there. *)
Definition is_done (s : Session) : bool := negb (bool_decide (stg s = Open)).
Definition has_pc (s : Session) : bool := match stg s with Open | Quit => true | _ => false end.

(** [func (s *Session) BindDataChannel]: stores the channel; a nil one is ignored. *)
Definition BindDataChannel (channel : bool) (s : Session) : Session := if channel then set_dc true s else s.

(** The callback of [dc.OnMessage] *)
Definition on_message (d : bytes) (s : Session) : Session :=
  mkSession (queries s) (cap s) (dc s) (ph s) (stg s) (send s) (wp s) (accepted s) (written s) (received s ++ [d]).

(** [func (s *Session) SendMessage(message []byte)]: with both cases of the select
    ready, [drop] is the choice; [None] while the call blocks. *)
Definition SendMessage (drop : bool) (m : bytes) (s : Session) : option Session :=
  if is_done s && drop then Some s
  else if (length (send s) <? cap s)%nat then
    Some (mkSession (queries s) (cap s) (dc s) (ph s) (stg s) (send s ++ [m]) (wp s) (accepted s ++ [m]) (written s) (received s))
  else if is_done s then Some s
  else None.

(** ** [func (s *Session) writePump()] *)

(** [case msg := <-s.send] *)
Definition write_take (s : Session) : option Session :=
  match wp s, send s with
  | WIdle, m :: q =>
      Some (mkSession (queries s) (cap s) (dc s) (ph s) (stg s) q (WHolding m) (accepted s) (written s) (received s))
  | _, _ => None
  end.

(** [case <-s.done: return] *)
Definition write_done (s : Session) : option Session :=
  match wp s with
  | WIdle => if is_done s then Some (set_wp WClosing s) else None
  | _ => None
  end.

(** [dc := s.DataChannel()], and the return without one *)
Definition write_channel (s : Session) : option Session :=
  match wp s with
  | WHolding m => Some (set_wp (if dc s then WSending m else WClosing) s)
  | _ => None
  end.

(** [dc.SendText] or [dc.Send], with its result *)
Definition write_message (ok : bool) (s : Session) : option Session :=
  match wp s with
  | WSending m =>
      if ok then
        Some (mkSession (queries s) (cap s) (dc s) (ph s) (stg s) (send s) WIdle (accepted s) (written s ++ [m]) (received s))
      else Some (set_wp WClosing s)
  | _ => None
  end.

(** The deferred [Close] waits for the one run of the closing function. *)
Definition write_exit (s : Session) : option Session :=
  match wp s, stg s with
  | WClosing, Closed _ => Some (set_wp WExited s)
  | _, _ => None
  end.

(** [func (s *Session) Listen()], the last call of the function under [openOnce] *)
Definition Listen (s : Session) : option Session :=
  match ph s with
  | Announced => Some (set_wp WIdle (set_ph Listening s))
  | _ => None
  end.

(** ** [func (s *Session) Close()], and [closeConnection] *)

Definition close_begin (s : Session) : option Session :=
  match stg s with Open => Some (set_stg Quit s) | _ => None end.
Definition close_detach (s : Session) : option Session :=
  match stg s with Quit => Some (set_dc false (set_stg Detached s)) | _ => None end.
Definition close_disconnect (s : Session) : option Session :=
  match stg s with Detached => Some (set_stg Disconnected s) | _ => None end.

(** [func (s *Session) Wait()]: the counter of the pumps is zero. *)
Definition Wait_ready (s : Session) : bool := bool_decide (wp s = WNone \/ wp s = WExited).

(** The steps of a session that touch nothing else; anyone may close it: the
    callbacks of the channel and of the connection, the pump, the signalling
    handler. *)
Inductive local :=
| LBind (channel : bool) | LMessage (d : bytes) | LSend (drop : bool) (m : bytes) | LListen
| LTake | LDone | LChannel | LWrite (ok : bool) | LExit
| LClose | LDetach | LDisconnect.

Definition local_step (l : local) (s : Session) : option Session :=
  match l with
  | LBind channel => Some (BindDataChannel channel s)
  | LMessage d => Some (on_message d s)
  | LSend drop m => SendMessage drop m s
  | LListen => Listen s
  | LTake => write_take s
  | LDone => write_done s
  | LChannel => write_channel s
  | LWrite ok => write_message ok s
  | LExit => write_exit s
  | LClose => close_begin s
  | LDetach => close_detach s
  | LDisconnect => close_disconnect s
  end.

(** * The server *)

(** [func (sm *SessionManager) closeAllAndWait()]: the sessions of its first
    snapshot with those still to be closed, then also those of the second still
    to be waited for. *)
Inductive stopper := SIdle | SClosing (all todo : list SessionID) | SWaiting (all todo : list SessionID) | SDone (all : list SessionID).

(** The session objects by their identifier (a fresh UUID each), the manager's
    map (the identifiers it holds), the router, the calls of the connect handler
    in order, and the run of [closeAllAndWait]. *)
Record World := mkWorld {
  objects : gmap SessionID Session;
  sessions : gset SessionID;
  router : SFURouter;
  callbacks : list (SessionID * bool);
  stop : stopper
}.

Definition empty_world : World := mkWorld ∅ ∅ NewSFURouter [] SIdle.

Definition set_session (id : SessionID) (s : Session) (w : World) : World :=
  mkWorld (<[id := s]> (objects w)) (sessions w) (router w) (callbacks w) (stop w).
Definition set_router (r : SFURouter) (w : World) : World :=
  mkWorld (objects w) (sessions w) r (callbacks w) (stop w).
Definition set_stop (st : stopper) (w : World) : World :=
  mkWorld (objects w) (sessions w) (router w) (callbacks w) st.

Definition on_session (f : Session -> option Session) (id : SessionID) (w : World) : option World :=
  s ← objects w !! id;
  s' ← f s;
  Some (set_session id s' w).

(** The session [signalHandler] makes. *)
Definition make_session (channelBufSize : nat) (id : SessionID) (vars : gmap string (list string)) (w : World) : option World :=
  match objects w !! id, NewSession channelBufSize true vars with
  | None, Returned s => Some (set_session id s w)
  | _, _ => None
  end.

(** [func (sm *SessionManager) addSession], run once by [OnOpen]: [LoadOrStore],
    then the observer unless an entry was there. *)
Definition addSession_store (id : SessionID) (w : World) : option World :=
  s ← objects w !! id;
  match ph s with
  | Made =>
      Some (if bool_decide (id ∈ sessions w) then set_session id (set_ph Announced s) w
            else mkWorld (<[id := set_ph Stored s]> (objects w)) ({[id]} ∪ sessions w) (router w) (callbacks w) (stop w))
  | _ => None
  end.

(** [func (s *Server) OnSessionAdded] *)
Definition OnSessionAdded (id : SessionID) (w : World) : option World :=
  s ← objects w !! id;
  match ph s with
  | Stored =>
      Some (mkWorld (<[id := set_ph Announced s]> (objects w)) (sessions w) (router w) (callbacks w ++ [(id, true)]) (stop w))
  | _ => None
  end.

(** [func (sm *SessionManager) removeSession], the last call of the closing
    function: [LoadAndDelete], then the observer if an entry was there. *)
Definition removeSession (id : SessionID) (w : World) : option World :=
  s ← objects w !! id;
  match stg s with
  | Disconnected =>
      Some (if bool_decide (id ∈ sessions w) then
              mkWorld (<[id := set_stg Removed s]> (objects w)) (sessions w ∖ {[id]}) (router w) (callbacks w) (stop w)
            else set_session id (set_stg (Closed false) s) w)
  | _ => None
  end.

(** [func (s *Server) OnSessionRemoved]: the connect handler, then the tracks. *)
Definition OnSessionRemoved_tell (id : SessionID) (w : World) : option World :=
  s ← objects w !! id;
  match stg s with
  | Removed =>
      Some (mkWorld (<[id := set_stg Told s]> (objects w)) (sessions w) (router w) (callbacks w ++ [(id, false)]) (stop w))
  | _ => None
  end.

Definition OnSessionRemoved_untrack (id : SessionID) (w : World) : option World :=
  s ← objects w !! id;
  match stg s with
  | Told => Some (set_router (OnSessionRemoved id (router w)) (set_session id (set_stg (Closed true) s) w))
  | _ => None
  end.

(** [func (sm *SessionManager) getSession], [count], [snapshot] *)
Definition getSession (id : SessionID) (w : World) : option Session :=
  if bool_decide (id ∈ sessions w) then objects w !! id else None.
Definition count (w : World) : nat := size (sessions w).
Definition snapshot (w : World) : list SessionID := elements (sessions w).

(** [pc.OnTrack]: the router's new track; the announcement is [broadcastTrackAvailable]. *)
Definition OnTrack (id : SessionID) (trackID : string) (w : World) : option World :=
  match objects w !! id with
  | Some _ => Some (set_router (snd (AddTrack id trackID (router w))) w)
  | None => None
  end.

(** [func (s *Server) SubscribeToPublisher], with the session the manager has. *)
Definition subscribe (create : nat -> LocalTrack + error) (sub pub : SessionID) (w : World) : option error * World :=
  let '(err, r) := SubscribeToPublisher (has_pc <$> getSession sub w) create sub pub (router w) in (err, set_router r w).

(** [closeAllAndWait]: each session of the snapshot is closed, the caller waiting
    for whoever closes it; then those of a second snapshot are waited for. *)
Definition stop_step (w : World) : option World :=
  match stop w with
  | SIdle | SDone _ => Some (set_stop (SClosing (snapshot w) (snapshot w)) w)
  | SClosing all [] => Some (set_stop (SWaiting all (snapshot w)) w)
  | SClosing all (id :: todo) =>
      s ← objects w !! id;
      match stg s with
      | Open => Some (set_session id (set_stg Quit s) w)
      | Closed _ => Some (set_stop (SClosing all todo) w)
      | _ => None
      end
  | SWaiting all [] => Some (set_stop (SDone all) w)
  | SWaiting all (id :: todo) =>
      s ← objects w !! id;
      if Wait_ready s then Some (set_stop (SWaiting all todo) w) else None
  end.

Inductive event :=
| EMake (channelBufSize : nat) (id : SessionID) (vars : gmap string (list string))
| ELocal (id : SessionID) (l : local)
| EStore (id : SessionID) | EAnnounce (id : SessionID)
| ERemove (id : SessionID) | ETell (id : SessionID) | EUntrack (id : SessionID)
| ETrack (id : SessionID) (trackID : string)
| ESubscribe (create : nat -> LocalTrack + error) (sub pub : SessionID)
| EUnsubscribe (sub pub : SessionID)
| EReadError (p : nat) (err : error)
| EStop.

Definition step (e : event) (w : World) : option World :=
  match e with
  | EMake n id vars => make_session n id vars w
  | ELocal id l => on_session (local_step l) id w
  | EStore id => addSession_store id w
  | EAnnounce id => OnSessionAdded id w
  | ERemove id => removeSession id w
  | ETell id => OnSessionRemoved_tell id w
  | EUntrack id => OnSessionRemoved_untrack id w
  | ETrack id tid => OnTrack id tid w
  | ESubscribe create sub pub => Some (snd (subscribe create sub pub w))
  | EUnsubscribe sub pub => Some (set_router (UnsubscribeFromPublisher sub pub (router w)) w)
  | EReadError p err => Some (set_router (apply_op (OReadError p err) (router w)) w)
  | EStop => stop_step w
  end.

Inductive reachable : World -> Prop :=
| reach_empty : reachable empty_world
| reach_step e w w' : reachable w -> step e w = Some w' -> reachable w'.

Fixpoint run_events (es : list event) (w : World) : option World :=
  match es with
  | [] => Some w
  | e :: es' => w' ← step e w; run_events es' w'
  end.

(** * Sending through the server *)

(** [func (s *Server) SendRawMessage]; [None] while the session's queue is full. *)
Definition SendRawMessage (drop : bool) (id : SessionID) (m : bytes) (w : World) : option (option error * World) :=
  match getSession id w with
  | None => Some (Some (Errorf "session not found"), w)
  | Some _ => w' ← on_session (SendMessage drop m) id w; Some (None, w')
  end.

(** [rangeSessions] with a function that sends: the snapshot, in order. *)
Fixpoint send_each (drop : bool) (m : bytes) (ids : list SessionID) (w : World) : option World :=
  match ids with
  | [] => Some w
  | id :: ids' => w' ← on_session (SendMessage drop m) id w; send_each drop m ids' w'
  end.

Section server_messages.
Context {T : Type} (marshal : Z -> option T -> bytes + error).

(** [func (s *Server) SendMessage] *)
Definition server_SendMessage (drop : bool) (id : SessionID) (messageType : Z) (message : option T) (w : World) :
    option (option error * World) :=
  match marshal messageType message with
  | inr err => Some (Some err, w)
  | inl buf => SendRawMessage drop id buf w
  end.

(** [func (s *Server) Broadcast] *)
Definition Broadcast (drop : bool) (messageType : Z) (message : option T) (w : World) : option World :=
  match marshal messageType message with
  | inr _ => Some w
  | inl buf => send_each drop buf (snapshot w) w
  end.
End server_messages.

(** [func (s *Server) broadcastTrackAvailable]: [payload] is the encoded
    announcement; every session but the publisher's gets it. *)
Definition broadcastTrackAvailable (drop : bool) (publisherID : SessionID) (payload : bytes + error) (w : World) : option World :=
  match payload with
  | inr _ => Some w
  | inl m => send_each drop m (filter (fun id => id <> publisherID) (snapshot w)) w
  end.

(** * Properties *)

Definition held (p : wpump) : list bytes := match p with WHolding m | WSending m => [m] | _ => [] end.
Definition stored (s : Session) : bool := negb (bool_decide (ph s = Made)).
Definition announced (s : Session) : bool := match ph s with Announced | Listening => true | _ => false end.
Definition removed (s : Session) : bool := match stg s with Removed | Told | Closed true => true | _ => false end.
Definition told (s : Session) : bool := match stg s with Told | Closed true => true | _ => false end.
Definition calls (id : SessionID) (b : bool) (cbs : list (SessionID * bool)) : nat := length (filter (fun c => c = (id, b)) cbs).

(** The well-formedness of one session: what was accepted is, in order, what the
    channel took, at most one message lost by the pump as it returned, what the
    pump holds and what waits. *)
Record sess_ok (s : Session) : Prop := {
  ok_flow : exists lost, accepted s = written s ++ lost ++ held (wp s) ++ send s /\ (length lost <= 1)%nat /\
    (lost <> [] -> wp s = WClosing \/ wp s = WExited);
  ok_cap : (length (send s) <= cap s)%nat;
  ok_wp : wp s <> WNone <-> ph s = Listening;
  ok_exit : wp s = WExited -> exists b, stg s = Closed b;
  ok_removed : removed s = true -> stored s = true
}.

(** What the manager and the connect handler know of a session. *)
Definition view (s : Session) : bool * bool * bool * bool := (stored s, announced s, removed s, told s).

Lemma channel_step_view l s s' : local_step l s = Some s' -> view s' = view s.
Proof.
  destruct l; cbn [local_step]; unfold SendMessage, Listen, write_take, write_done, write_channel, write_message, write_exit,
    close_begin, close_detach, close_disconnect, BindDataChannel; intros H;
    repeat case_match; simplify_eq; unfold view, stored, announced, removed, told; simpl; try done;
    repeat match goal with E : ph s = _ |- _ => rewrite E | E : stg s = _ |- _ => rewrite E end; try done.
Qed.

Lemma sess_ok_stg g s :
  sess_ok s -> (forall b, stg s <> Closed b) -> (removed (set_stg g s) = true -> stored s = true) -> sess_ok (set_stg g s).
Proof.
  intros [Hf Hc Hw He Hr] Hn Hr'. split; auto. intros E. destruct (He E) as [b Hb]. by destruct (Hn b).
Qed.

Lemma sess_ok_wp_stop w s :
  sess_ok s -> (wp s = WIdle \/ exists m, wp s = WHolding m \/ wp s = WSending m) -> w = WClosing -> sess_ok (set_wp w s).
Proof.
  intros [(lost&Hf&Hl&Hn) Hc Hw He Hr] Hp ->. split; simpl; auto; try done.
  - exists (lost ++ held (wp s)). split_and!; [by rewrite <- (assoc app)| |auto].
    destruct lost; [|destruct (Hn ltac:(done)) as [E|E]; destruct Hp as [|(m&[|])]; congruence].
    destruct Hp as [->|(m&[->| ->])]; simpl; lia.
  - rewrite <- Hw. split; [|done]. intros _. destruct Hp as [->|(m&[->| ->])]; done.
Qed.

Lemma channel_step_ok l s s' : local_step l s = Some s' -> sess_ok s -> sess_ok s'.
Proof.
  intros Hs Hok. pose proof Hok as [Hflow Hcap Hwp Hexit Hrem]. destruct l; cbn [local_step] in Hs.
  - injection Hs as <-. unfold BindDataChannel. destruct channel; by split.
  - injection Hs as <-. by split.
  - unfold SendMessage in Hs. repeat case_match; simplify_eq; try done. split; simpl; auto.
    + destruct Hflow as (lost&Hf&?&?). exists lost. rewrite Hf, <- !(assoc app). auto.
    + rewrite length_app. simpl. match goal with H : (_ <? _)%nat = true |- _ => apply Nat.ltb_lt in H end. lia.
  - unfold Listen in Hs. destruct (ph s) eqn:Ep; simplify_eq. assert (wp s = WNone) as Ew.
    { destruct (decide (wp s = WNone)) as [|Hn]; [done|]. apply Hwp in Hn. congruence. }
    split; simpl; auto; try done. rewrite Ew in Hflow. destruct Hflow as (lost&Hf&Hl&Hn). exists lost.
    split_and!; auto. intros H. destruct (Hn H); congruence.
  - unfold write_take in Hs. destruct (wp s) eqn:Ew; try done. destruct (send s) as [|m q] eqn:Eq; simplify_eq.
    split; simpl; auto; try done.
    + destruct Hflow as (lost&Hf&Hl&Hn). exists lost. split_and!; auto. intros H. destruct (Hn H); congruence.
    + simpl in Hcap. lia.
    + rewrite <- Hwp. done.
  - unfold write_done in Hs. destruct (wp s) eqn:Ew; try done. destruct (is_done s); simplify_eq.
    apply sess_ok_wp_stop; [done|auto|done].
  - unfold write_channel in Hs. destruct (wp s) eqn:Ew; try done. destruct (dc s) eqn:Ed; simplify_eq.
    + split; simpl; auto; try done; [|by rewrite <- Hwp].
      destruct Hflow as (lost&Hf&Hl&Hn). exists lost. split_and!; auto. intros H. destruct (Hn H); congruence.
    + apply sess_ok_wp_stop; [done|eauto|done].
  - unfold write_message in Hs. destruct (wp s) eqn:Ew; try done. destruct ok; simplify_eq.
    + split; simpl; auto; try done; [|by rewrite <- Hwp].
      destruct Hflow as (lost&Hf&Hl&Hn). assert (lost = []) as -> by
        (destruct lost; [done|]; destruct (Hn ltac:(done)); congruence).
      exists []. rewrite Hf. simpl. rewrite <- (assoc app). split; [done|]. split; [lia|]. intros H. by destruct H.
    + apply sess_ok_wp_stop; [done|eauto|done].
  - unfold write_exit in Hs. destruct (wp s) eqn:Ew; try done. destruct (stg s) eqn:Es; try done. injection Hs as <-.
    split; simpl; eauto; [|by rewrite <- Hwp]. destruct Hflow as (lost&Hf&Hl&Hn). exists lost. auto.
  - unfold close_begin in Hs. destruct (stg s) eqn:Es; simplify_eq. apply sess_ok_stg; [done| |done]. congruence.
  - unfold close_detach in Hs. destruct (stg s) eqn:Es; simplify_eq.
    assert (sess_ok (set_stg Detached s)) as [] by (apply sess_ok_stg; [done| |done]; congruence). by split.
  - unfold close_disconnect in Hs. destruct (stg s) eqn:Es; simplify_eq. apply sess_ok_stg; [done| |done]. congruence.
Qed.

(** How a session may change in a step: a finished closing stays finished, a
    stored session stays stored. *)
Definition evolves (s s' : Session) : Prop :=
  (forall b, stg s = Closed b -> stg s' = Closed b) /\ (stored s = true -> stored s' = true).

Lemma evolves_refl s : evolves s s.
Proof. by split. Qed.

Lemma local_step_evolves l s s' : local_step l s = Some s' -> evolves s s'.
Proof.
  intros H. split; [|intros E; pose proof (channel_step_view l s s' H) as Hv; unfold view in Hv; congruence].
  intros b Hb. destruct l; cbn [local_step] in H; unfold SendMessage, Listen, write_take, write_done, write_channel,
    write_message, write_exit, close_begin, close_detach, close_disconnect, BindDataChannel in H;
    repeat case_match; simplify_eq; simpl; congruence.
Qed.

Lemma evolves_ph p s : stored (set_ph p s) = true -> evolves s (set_ph p s).
Proof. intros H. by split. Qed.
Lemma evolves_stg g s : (forall b, stg s <> Closed b) -> evolves s (set_stg g s).
Proof. intros H. split; [intros b Hb; by destruct (H b)|done]. Qed.

Create HintDb webrtc.
#[export] Hint Resolve evolves_refl evolves_ph evolves_stg local_step_evolves : webrtc.

(** The shape of a step: one object at most changes, as [evolves] allows. *)
Lemma step_objects e w w' :
  step e w = Some w' ->
  objects w' = objects w \/
  (exists n id vars, e = EMake n id vars /\ objects w !! id = None /\ objects w' = <[id := mkSession vars n false Made Open [] WNone [] [] []]> (objects w)) \/
  (exists id s s', objects w !! id = Some s /\ objects w' = <[id := s']> (objects w) /\ evolves s s').
Proof.
  intros H. destruct e as [n id vars|id l|id|id|id|id|id|id tid|create sub pub|sub pub|p err|]; cbn [step] in H.
  - right. left. unfold make_session in H. destruct (objects w !! id) eqn:E; [done|]. injection H as <-. eauto 10.
  - right. right. unfold on_session in H. apply bind_Some in H as (s&Hs&H). apply bind_Some in H as (s'&Hf&[= <-]).
    exists id, s, s'. eauto with webrtc.
  - right. right. unfold addSession_store in H. apply bind_Some in H as (s&Hs&H). destruct (ph s) eqn:E; try done.
    injection H as <-. case_bool_decide; do 3 eexists; (split; [exact Hs|]; split; [done|]; apply evolves_ph; done).
  - right. right. unfold OnSessionAdded in H. apply bind_Some in H as (s&Hs&H). destruct (ph s) eqn:E; try done.
    injection H as <-. do 3 eexists. split; [exact Hs|]. split; [done|]. by apply evolves_ph.
  - right. right. unfold removeSession in H. apply bind_Some in H as (s&Hs&H). destruct (stg s) eqn:E; try done.
    injection H as <-. case_bool_decide; do 3 eexists; (split; [exact Hs|]; split; [done|]; apply evolves_stg; congruence).
  - right. right. unfold OnSessionRemoved_tell in H. apply bind_Some in H as (s&Hs&H). destruct (stg s) eqn:E; try done.
    injection H as <-. do 3 eexists. split; [exact Hs|]. split; [done|]. apply evolves_stg; congruence.
  - right. right. unfold OnSessionRemoved_untrack in H. apply bind_Some in H as (s&Hs&H). destruct (stg s) eqn:E; try done.
    injection H as <-. do 3 eexists. split; [exact Hs|]. split; [done|]. apply evolves_stg; congruence.
  - left. unfold OnTrack in H. destruct (objects w !! id); simplify_eq. done.
  - left. unfold subscribe in H. destruct (SubscribeToPublisher _ _ _ _ _). by simplify_eq.
  - left. by simplify_eq.
  - left. by simplify_eq.
  - unfold stop_step in H. destruct (stop w) as [|all [|id todo]|all [|id todo]|]; try (left; by simplify_eq).
    + apply bind_Some in H as (s&Hs&H). destruct (stg s) eqn:E; try done; [|left; by simplify_eq].
      right. right. injection H as <-. do 3 eexists. split; [exact Hs|]. split; [done|]. apply evolves_stg; congruence.
    + left. apply bind_Some in H as (s&Hs&H). destruct (Wait_ready s); by simplify_eq.
Qed.

Lemma step_evolves e w w' id s :
  step e w = Some w' -> objects w !! id = Some s -> exists s', objects w' !! id = Some s' /\ evolves s s'.
Proof.
  intros H Hs. destruct (step_objects e w w' H) as [->|[(n&id0&vars&_&Hn&->)|(id0&s0&s0'&H0&->&He)]]; eauto with webrtc.
  - rewrite lookup_insert_ne by congruence. eauto with webrtc.
  - destruct (decide (id0 = id)) as [->|]; [|rewrite lookup_insert_ne by done; eauto with webrtc].
    simplify_eq. rewrite lookup_insert_eq. eauto.
Qed.

Lemma run_evolves es w w' id s :
  run_events es w = Some w' -> objects w !! id = Some s -> exists s', objects w' !! id = Some s' /\ evolves s s'.
Proof.
  revert w s. induction es as [|e es IH]; intros w s H Hs; [injection H as <-; eauto with webrtc|].
  apply bind_Some in H as (w1&H1&H2). destruct (step_evolves _ _ _ _ _ H1 Hs) as (s1&Hs1&Hc1&Hst1).
  destruct (IH _ _ H2 Hs1) as (s2&Hs2&Hc2&Hst2). exists s2. split; [done|]. split; auto.
Qed.

(** The registry's invariant at one identifier: the manager holds it exactly when
    the session was stored and not removed; the connect handler has been called
    once for each announcement. *)
Definition inv_at (w : World) (id : SessionID) : Prop :=
  match objects w !! id with
  | None => id ∉ sessions w /\ (forall b, calls id b (callbacks w) = 0%nat)
  | Some s =>
      sess_ok s /\ (id ∈ sessions w <-> stored s = true /\ removed s = false) /\
      calls id true (callbacks w) = Nat.b2n (announced s) /\ calls id false (callbacks w) = Nat.b2n (told s)
  end.

Lemma inv_at_frame w w' id :
  objects w' !! id = objects w !! id -> (id ∈ sessions w' <-> id ∈ sessions w) ->
  (forall b, calls id b (callbacks w') = calls id b (callbacks w)) -> inv_at w id -> inv_at w' id.
Proof.
  intros Ho Hs Hc. unfold inv_at. rewrite Ho. destruct (objects w !! id) as [s|].
  - rewrite !Hc, Hs. done.
  - intros [Hn Hz]. split; [by rewrite Hs|]. intros b. by rewrite Hc.
Qed.

Lemma channel_calls_snoc id b cbs c : calls id b (cbs ++ [c]) = (calls id b cbs + if decide (c = (id, b)) then 1 else 0)%nat.
Proof. unfold calls. rewrite filter_app, length_app, filter_cons. by case_decide. Qed.

(** One object and its own entries change: the invariant is only to be shown there. *)
Lemma inv_at_update w id s' ss r cbs st :
  (forall id', inv_at w id') ->
  (forall id', id' <> id -> id' ∈ ss <-> id' ∈ sessions w) ->
  (forall id' b, id' <> id -> calls id' b cbs = calls id' b (callbacks w)) ->
  sess_ok s' -> (id ∈ ss <-> stored s' = true /\ removed s' = false) ->
  calls id true cbs = Nat.b2n (announced s') -> calls id false cbs = Nat.b2n (told s') ->
  forall id', inv_at (mkWorld (<[id := s']> (objects w)) ss r cbs st) id'.
Proof.
  intros Hi Hs Hc Hok Hr Ht Hf id'. destruct (decide (id' = id)) as [->|Hne].
  - unfold inv_at. cbn [objects sessions callbacks]. by rewrite lookup_insert_eq.
  - apply (inv_at_frame w); cbn [objects sessions callbacks]; auto. by rewrite lookup_insert_ne.
Qed.

Lemma inv_at_view w id s s' r st :
  (forall id', inv_at w id') -> objects w !! id = Some s -> sess_ok s' -> view s' = view s ->
  forall id', inv_at (mkWorld (<[id := s']> (objects w)) (sessions w) r (callbacks w) st) id'.
Proof.
  intros Hi Hs Hok Hv. pose proof (Hi id) as H. unfold inv_at in H. rewrite Hs in H. destruct H as (_&Hr&Ht&Hf).
  unfold view in Hv. injection Hv as Hv1 Hv2 Hv3 Hv4. apply inv_at_update; auto; rewrite ?Hv1, ?Hv2, ?Hv3, ?Hv4; done.
Qed.

Lemma inv_at_same w r st : (forall id, inv_at w id) -> forall id, inv_at (mkWorld (objects w) (sessions w) r (callbacks w) st) id.
Proof. intros Hi id. by apply (inv_at_frame w). Qed.

Lemma new_session_ok n vars : sess_ok (mkSession vars n false Made Open [] WNone [] [] []).
Proof. split; simpl; try done; try lia. exists []. simpl. split; [done|]. split; [lia|done]. Qed.

Lemma sess_ok_ph p s : sess_ok s -> ph s <> Listening -> p <> Listening -> p <> Made -> sess_ok (set_ph p s).
Proof.
  intros [] Hn Hp Hm. split; simpl; auto.
  - tauto.
  - unfold stored. simpl. by rewrite bool_decide_false.
Qed.

Section step_invariants.
Context (w w' : World) (Hi : forall id, inv_at w id).

Lemma inv_at_get id s :
  objects w !! id = Some s ->
  sess_ok s /\ (id ∈ sessions w <-> stored s = true /\ removed s = false) /\
  calls id true (callbacks w) = Nat.b2n (announced s) /\ calls id false (callbacks w) = Nat.b2n (told s).
Proof. intros Hs. pose proof (Hi id) as H. unfold inv_at in H. by rewrite Hs in H. Qed.

Lemma store_inv id : addSession_store id w = Some w' -> forall id', inv_at w' id'.
Proof.
  intros H. unfold addSession_store in H. apply bind_Some in H as (s&Hs&H). destruct (ph s) eqn:E; try done. injection H as <-.
  destruct (inv_at_get _ _ Hs) as (Hok&Hr&Ht&Hf).
  assert (stored s = false) as Hst by (unfold stored; by rewrite E).
  assert (removed s = false) as Hrm by (destruct (removed s) eqn:Er; [|done]; apply (ok_removed _ Hok) in Er; congruence).
  rewrite bool_decide_false by (rewrite Hr, Hst; naive_solver).
  apply inv_at_update; auto.
  - intros id' Hne. set_solver.
  - apply sess_ok_ph; congruence.
  - split; [done|]. intros _. set_solver.
  - unfold announced in *. simpl. by rewrite E in Ht.
Qed.

Lemma added_inv id : OnSessionAdded id w = Some w' -> forall id', inv_at w' id'.
Proof.
  intros H. unfold OnSessionAdded in H. apply bind_Some in H as (s&Hs&H). destruct (ph s) eqn:E; try done. injection H as <-.
  destruct (inv_at_get _ _ Hs) as (Hok&Hr&Ht&Hf).
  unfold announced in Ht. rewrite E in Ht. unfold stored in Hr. rewrite E in Hr. apply inv_at_update; auto.
  - intros id' b Hne. rewrite channel_calls_snoc, decide_False by congruence. lia.
  - apply sess_ok_ph; congruence.
  - rewrite channel_calls_snoc, decide_True, Ht by done. done.
  - rewrite channel_calls_snoc, decide_False, Hf by congruence. unfold told. simpl. lia.
Qed.

Lemma remove_inv id : removeSession id w = Some w' -> forall id', inv_at w' id'.
Proof.
  intros H. unfold removeSession in H. apply bind_Some in H as (s&Hs&H). destruct (stg s) eqn:E; try done. injection H as <-.
  destruct (inv_at_get _ _ Hs) as (Hok&Hr&Ht&Hf).
  unfold told in Hf. rewrite E in Hf. assert (removed s = false) as Hrm by (unfold removed; by rewrite E).
  case_bool_decide as Hin.
  - apply Hr in Hin as Hst. apply inv_at_update; auto.
    + intros id' Hne. set_solver.
    + apply sess_ok_stg; [done|congruence|intros _; apply Hst].
    + split; [set_solver|]. by intros [_ H].
  - apply inv_at_update; auto; [apply sess_ok_stg; [done|congruence|done]|]. by rewrite Hr, Hrm.
Qed.

Lemma tell_inv id : OnSessionRemoved_tell id w = Some w' -> forall id', inv_at w' id'.
Proof.
  intros H. unfold OnSessionRemoved_tell in H. apply bind_Some in H as (s&Hs&H). destruct (stg s) eqn:E; try done. injection H as <-.
  destruct (inv_at_get _ _ Hs) as (Hok&Hr&Ht&Hf).
  unfold told in Hf. rewrite E in Hf. assert (removed s = true) as Hrm by (unfold removed; by rewrite E).
  apply inv_at_update; auto.
  - intros id' b Hne. rewrite channel_calls_snoc, decide_False by congruence. lia.
  - apply sess_ok_stg; [done|congruence|intros _; by apply (ok_removed _ Hok)].
  - by rewrite Hr, Hrm.
  - rewrite channel_calls_snoc, decide_False, Ht by congruence. unfold announced. simpl. lia.
  - rewrite channel_calls_snoc, decide_True, Hf by done. done.
Qed.

Lemma untrack_inv id : OnSessionRemoved_untrack id w = Some w' -> forall id', inv_at w' id'.
Proof.
  intros H. unfold OnSessionRemoved_untrack in H. apply bind_Some in H as (s&Hs&H). destruct (stg s) eqn:E; try done. injection H as <-.
  destruct (inv_at_get _ _ Hs) as (Hok&_). assert (removed s = true) as Hrm by (unfold removed; by rewrite E).
  refine (inv_at_view w id s _ _ _ Hi Hs _ _); [apply sess_ok_stg; [done|congruence|intros _; by apply (ok_removed _ Hok)]|].
  unfold view, stored, announced, removed, told. simpl. by rewrite E.
Qed.

Lemma stop_inv : stop_step w = Some w' -> forall id', inv_at w' id'.
Proof.
  intros H. unfold stop_step in H. destruct (stop w) as [|all [|id todo]|all [|id todo]|]; try (simplify_eq; by apply inv_at_same).
  - apply bind_Some in H as (s&Hs&H). destruct (stg s) eqn:E; try done; simplify_eq; [|by apply inv_at_same].
    destruct (inv_at_get _ _ Hs) as (Hok&_).
    eapply inv_at_view; eauto; [|unfold view, removed, told; simpl; by rewrite E]. apply sess_ok_stg; [done|congruence|done].
  - apply bind_Some in H as (s&Hs&H). destruct (Wait_ready s); simplify_eq. by apply inv_at_same.
Qed.

Lemma step_inv_at e : step e w = Some w' -> forall id, inv_at w' id.
Proof.
  intros H. destruct e as [n id vars|id l|id|id|id|id|id|id tid|create sub pub|sub pub|p err|]; cbn [step] in H;
    eauto using store_inv, added_inv, remove_inv, tell_inv, untrack_inv, stop_inv.
  - unfold make_session in H. destruct (objects w !! id) eqn:E; [done|]. injection H as <-.
    pose proof (Hi id) as Hid. unfold inv_at in Hid. rewrite E in Hid. destruct Hid as [Hn Hz].
    apply inv_at_update; auto using new_session_ok. split; [done|]. by intros [H _].
  - unfold on_session in H. apply bind_Some in H as (s&Hs&H). apply bind_Some in H as (s'&Hf&[= <-]).
    eapply inv_at_view; eauto using channel_step_view. eapply channel_step_ok; eauto. by apply (inv_at_get id).
  - unfold OnTrack in H. destruct (objects w !! id); simplify_eq. by apply inv_at_same.
  - unfold subscribe in H. destruct (SubscribeToPublisher _ _ _ _ _). simplify_eq. by apply inv_at_same.
  - simplify_eq. by apply inv_at_same.
  - simplify_eq. by apply inv_at_same.
Qed.
End step_invariants.

(** Every session of [closeAllAndWait]'s first snapshot that is no longer to be
    closed has been closed to the end; its lists name existing sessions. *)
Definition closed_at (w : World) (id : SessionID) : Prop := exists s b, objects w !! id = Some s /\ stg s = Closed b.
Definition stop_ok (w : World) : Prop :=
  match stop w with
  | SIdle => True
  | SClosing all todo => Forall (fun id => id ∈ todo \/ closed_at w id) all /\ Forall (fun id => is_Some (objects w !! id)) todo
  | SWaiting all todo => Forall (closed_at w) all /\ Forall (fun id => is_Some (objects w !! id)) todo
  | SDone all => Forall (closed_at w) all
  end.

Lemma closed_at_mono e w w' id : step e w = Some w' -> closed_at w id -> closed_at w' id.
Proof.
  intros H (s&b&Hs&Hb). destruct (step_evolves _ _ _ _ _ H Hs) as (s'&Hs'&Hc&_). exists s', b. auto.
Qed.

Lemma some_mono e w w' id : step e w = Some w' -> is_Some (objects w !! id) -> is_Some (objects w' !! id).
Proof. intros H [s Hs]. destruct (step_evolves _ _ _ _ _ H Hs) as (s'&Hs'&_). eauto. Qed.

Lemma stop_ok_mono e w w' : step e w = Some w' -> stop w' = stop w -> stop_ok w -> stop_ok w'.
Proof.
  intros H E. unfold stop_ok. rewrite E. destruct (stop w); auto.
  - intros [Ha Ht]. split; eapply Forall_impl; eauto; [|eauto using some_mono]. intros id [|]; eauto using closed_at_mono.
  - intros [Ha Ht]. split; eapply Forall_impl; eauto using some_mono, closed_at_mono.
  - intros Ha. eapply Forall_impl; eauto using closed_at_mono.
Qed.

Lemma snapshot_known w : (forall id, inv_at w id) -> Forall (fun id => is_Some (objects w !! id)) (snapshot w).
Proof.
  intros Hi. apply Forall_forall. intros id Hin. apply (elem_of_elements (sessions w)) in Hin. specialize (Hi id). unfold inv_at in Hi.
  destruct (objects w !! id); [eauto|]. by destruct Hi.
Qed.

Lemma step_stop_ok e w w' : (forall id, inv_at w id) -> step e w = Some w' -> stop_ok w -> stop_ok w'.
Proof.
  intros Hi H Hok. assert (stop w' = stop w \/ e = EStop) as [E| ->].
  { destruct e; cbn [step] in H; auto; left;
      unfold make_session, on_session, addSession_store, OnSessionAdded, removeSession, OnSessionRemoved_tell, OnSessionRemoved_untrack,
        OnTrack, subscribe, mbind, option_bind in H; repeat case_match; by simplify_eq. }
  - by eapply stop_ok_mono.
  - cbn [step] in H. unfold stop_ok in Hok. pose proof (snapshot_known w Hi) as Hsn.
    pose proof H as Hstep. unfold stop_step in H. destruct (stop w) as [|all [|id todo]|all [|id todo]|all] eqn:Es.
    + injection H as <-. split; [|done]. apply Forall_forall. auto.
    + injection H as <-. destruct Hok as [Ha _]. split; [|done]. eapply Forall_impl; eauto. intros id' [Hin|]; [|done].
      by apply not_elem_of_nil in Hin.
    + apply bind_Some in H as (s&Hs&H). destruct (stg s) eqn:E; try done; injection H as <-.
      * eapply (stop_ok_mono EStop); [exact Hstep|done|]. unfold stop_ok. by rewrite Es.
      * destruct Hok as [Ha Ht]. inversion Ht; subst. split; [|done]. eapply Forall_impl; eauto. intros id' [Hin|]; [|by right].
        apply elem_of_cons in Hin as [->|]; [right; exists s, found; done|by left].
    + injection H as <-. apply Hok.
    + apply bind_Some in H as (s&Hs&H). destruct (Wait_ready s); simplify_eq. destruct Hok as [Ha Ht]. by inversion Ht; subst.
    + injection H as <-. split; [|done]. apply Forall_forall. auto.
Qed.

Definition inv (w : World) : Prop := (forall id, inv_at w id) /\ stop_ok w /\ ok (router w).

Lemma step_router e w w' : step e w = Some w' -> router w' = router w \/ exists o, server_op o = true /\ router w' = apply_op o (router w).
Proof.
  intros H. destruct e as [n id vars|id l|id|id|id|id|id|id tid|create sub pub|sub pub|p err|]; cbn [step] in H.
  all: try (left; unfold make_session, on_session, addSession_store, OnSessionAdded, removeSession, OnSessionRemoved_tell, stop_step,
      mbind, option_bind in H; repeat case_match; simplify_eq; done).
  - right. unfold OnSessionRemoved_untrack in H. apply bind_Some in H as (s&Hs&H). destruct (stg s); simplify_eq.
    by exists (ORemoved id).
  - right. unfold OnTrack in H. destruct (objects w !! id); simplify_eq. by exists (OTrack id tid).
  - right. unfold subscribe in H. destruct (SubscribeToPublisher _ _ _ _ _) as [err r] eqn:E. simplify_eq.
    exists (OSubscribe (has_pc <$> getSession sub w) create sub pub). simpl. by rewrite E.
  - right. simplify_eq. by exists (OUnsubscribe sub pub).
  - right. simplify_eq. by exists (OReadError p err).
Qed.

Lemma webrtc_step_inv e w w' : inv w -> step e w = Some w' -> inv w'.
Proof.
  intros (Hi&Hs&Hr) H. split_and!; [by eapply step_inv_at|by eapply step_stop_ok|].
  destruct (step_router e w w' H) as [->|(o&_&->)]; [done|by apply apply_op_ok].
Qed.

Lemma inv_empty_world : inv empty_world.
Proof. split_and!; [|done|apply ok_new]. intros id. unfold inv_at. simpl. rewrite lookup_empty. split; [set_solver|done]. Qed.

Lemma webrtc_reachable_inv w : reachable w -> inv w.
Proof. induction 1; eauto using inv_empty_world, webrtc_step_inv. Qed.

Lemma run_reachable es w w' : reachable w -> run_events es w = Some w' -> reachable w'.
Proof.
  revert w. induction es as [|e es IH]; intros w Hw H; [by injection H as <-|].
  apply bind_Some in H as (w1&H1&H2). eauto using reach_step.
Qed.

(** Whatever the interleaving of senders, callbacks, the write pump, closers
    and [Stop], the messages a session's channel took are a prefix of those
    [SendMessage] accepted, in order and without repetition; while the pump runs
    nothing is lost, every accepted message being taken, in the pump's hand or
    queued; a pump that returns loses at most the message it held; and the queue
    never exceeds its capacity. *)
Theorem webrtc_session_delivery w id s :
  reachable w -> objects w !! id = Some s ->
  (length (send s) <= cap s)%nat /\
  (exists lost, accepted s = written s ++ lost ++ held (wp s) ++ send s /\ (length lost <= 1)%nat /\
     (wp s <> WClosing -> wp s <> WExited -> lost = [])).
Proof.
  intros Hr Hs. destruct (webrtc_reachable_inv w Hr) as (Hi&_). destruct (inv_at_get _ Hi _ _ Hs) as ([(lost&Hf&Hl&Hn) Hc _ _ _]&_).
  split; [done|]. exists lost. split_and!; auto. intros H1 H2. destruct lost as [|m lost]; [done|].
  by destruct (Hn ltac:(done)).
Qed.

(** C38: in every reachable state the manager holds exactly the sessions that
    were stored and not removed; the connect handler has heard of each session's
    arrival at most once, and of its departure at most once, exactly when it was
    taken out of the manager; a removed session had been stored. *)
Theorem webrtc_session_registry w id s :
  reachable w -> objects w !! id = Some s ->
  (getSession id w = Some s <-> stored s = true /\ removed s = false) /\
  calls id true (callbacks w) = Nat.b2n (announced s) /\
  calls id false (callbacks w) = Nat.b2n (told s) /\ (removed s = true -> stored s = true).
Proof.
  intros Hr Hs. destruct (webrtc_reachable_inv w Hr) as (Hi&_). destruct (inv_at_get _ Hi _ _ Hs) as (Hok&Hreg&Ht&Hf).
  split_and!; auto; [|apply (ok_removed _ Hok)]. rewrite <- Hreg. unfold getSession. case_bool_decide; [done|]. naive_solver.
Qed.

(** ** [closeAllAndWait] *)

Definition close_rank (g : stage) : nat :=
  match g with Open => 6 | Quit => 5 | Detached => 4 | Disconnected => 3 | Removed => 2 | Told => 1 | Closed _ => 0 end.

(** Each step of a closing is enabled as soon as the one before it is done. *)
Lemma channel_close_progress w id s :
  objects w !! id = Some s -> stg s <> Open -> (forall b, stg s <> Closed b) ->
  exists e w' s', step e w = Some w' /\ objects w' !! id = Some s' /\ stg s' <> Open /\
    (close_rank (stg s') < close_rank (stg s))%nat /\ stop w' = stop w.
Proof.
  intros Hs Ho Hc.
  assert (forall e w' s', step e w = Some w' -> objects w' = <[id := s']> (objects w) -> stop w' = stop w ->
    stg s' <> Open -> (close_rank (stg s') < close_rank (stg s))%nat ->
    exists e w' s', step e w = Some w' /\ objects w' !! id = Some s' /\ stg s' <> Open /\
      (close_rank (stg s') < close_rank (stg s))%nat /\ stop w' = stop w) as Hfire.
  { intros e w' s' He Hw Hst Hs' Hl. exists e, w', s'. rewrite Hw, lookup_insert_eq. auto. }
  destruct (stg s) eqn:E; try done.
  - eapply (Hfire (ELocal id LDetach)); [cbn [step]; unfold on_session; rewrite Hs; simpl; unfold close_detach; rewrite E; done|done..|simpl; lia].
  - eapply (Hfire (ELocal id LDisconnect)); [cbn [step]; unfold on_session; rewrite Hs; simpl; unfold close_disconnect; rewrite E; done|done..|simpl; lia].
  - eapply (Hfire (ERemove id) _ (set_stg (if bool_decide (id ∈ sessions w) then Removed else Closed false) s));
      [cbn [step]; unfold removeSession; rewrite Hs; simpl; rewrite E; done|case_bool_decide; done..|].
    case_bool_decide; simpl; lia.
  - eapply (Hfire (ETell id)); [cbn [step]; unfold OnSessionRemoved_tell; rewrite Hs; simpl; rewrite E; done|done..|simpl; lia].
  - eapply (Hfire (EUntrack id)); [cbn [step]; unfold OnSessionRemoved_untrack; rewrite Hs; simpl; rewrite E; done|done..|simpl; lia].
  - by destruct (Hc found).
Qed.

Lemma run_snoc es e w w1 w2 : run_events es w = Some w1 -> step e w1 = Some w2 -> run_events (es ++ [e]) w = Some w2.
Proof.
  revert w. induction es as [|e' es IH]; intros w H H2; simpl in *; [injection H as ->; by rewrite H2|].
  apply bind_Some in H as (w0&H0&H). rewrite H0. simpl. auto.
Qed.

Lemma run_events_app es es' w w1 w2 : run_events es w = Some w1 -> run_events es' w1 = Some w2 -> run_events (es ++ es') w = Some w2.
Proof.
  revert w. induction es as [|e es IH]; intros w H H2; simpl in *; [by injection H as ->|].
  apply bind_Some in H as (w0&H0&H). rewrite H0. simpl. auto.
Qed.

(** A closing once begun runs to its end, whoever runs it. *)
Lemma close_run w id s :
  objects w !! id = Some s -> stg s <> Open ->
  exists es w', (length es <= close_rank (stg s))%nat /\ run_events es w = Some w' /\ closed_at w' id /\ stop w' = stop w.
Proof.
  remember (close_rank (stg s)) as k eqn:Ek. revert w s Ek. induction k as [k IH] using lt_wf_ind. intros w s -> Hs Ho.
  destruct (decide (close_rank (stg s) = 0%nat)) as [Hz|Hz].
  - exists [], w. split_and!; auto; [simpl; lia|]. destruct (stg s) eqn:E; try done. exists s, found. done.
  - destruct (channel_close_progress w id s Hs Ho) as (e&w1&s1&He&Hs1&Ho1&Hl&Hst); [intros b E; rewrite E in Hz; done|].
    destruct (IH _ Hl w1 s1 eq_refl Hs1 Ho1) as (es&w2&Hlen&Hrun&Hc&Hst2).
    exists (e :: es), w2. split_and!; [simpl; lia|simpl; by rewrite He|done|congruence].
Qed.

Lemma stop_head w all id todo :
  inv w -> stop w = SClosing all (id :: todo) ->
  exists es w', (length es <= 7)%nat /\ run_events es w = Some w' /\ stop w' = SClosing all todo.
Proof.
  intros (Hi&Hok&_) Hst. unfold stop_ok in Hok. rewrite Hst in Hok. destruct Hok as [_ Ht].
  inversion Ht as [|? ? [s Hs] _]; subst.
  assert (forall w1 s1, objects w1 !! id = Some s1 -> stg s1 <> Open -> stop w1 = stop w ->
    exists es w', (length es <= 6)%nat /\ run_events es w1 = Some w' /\ stop w' = SClosing all todo) as Hfin.
  { intros w1 s1 Hs1 Ho1 Hst1. destruct (close_run w1 id s1 Hs1 Ho1) as (es&w2&Hlen&Hrun&(s2&b&Hs2&Hb)&Hst2).
    exists (es ++ [EStop]), (set_stop (SClosing all todo) w2). rewrite length_app. split_and!.
    - assert (close_rank (stg s1) <= 5)%nat by (destruct (stg s1); done || simpl; lia). simpl. lia.
    - eapply run_snoc; [done|]. cbn [step]. unfold stop_step. rewrite Hst2, Hst1, Hst, Hs2. simpl. by rewrite Hb.
    - done. }
  destruct (decide (stg s = Open)) as [Eo|Eo]; [|destruct (Hfin w s Hs Eo eq_refl) as (es&w'&?&?&?); exists es, w'; split_and!; auto; lia].
  destruct (Hfin (set_session id (set_stg Quit s) w) (set_stg Quit s)) as (es&w'&Hlen&Hrun&Hst'); [simpl; apply lookup_insert_eq|done..|].
  exists (EStop :: es), w'. split_and!; [simpl; lia| |done]. cbn [run_events step]. unfold stop_step at 1. rewrite Hst, Hs. simpl. by rewrite Eo.
Qed.

(** [Stop]'s closing loop ends: from every reachable state in which it has
    sessions left to close, at most seven steps for each, all of them enabled
    without help from the peers, bring it to its waiting loop; and there, and
    when it has returned, every session of its snapshot is closed to the end. *)
Theorem webrtc_stop_closes w :
  reachable w ->
  (forall all todo, stop w = SClosing all todo ->
     exists es w', (length es <= 7 * length todo + 1)%nat /\ run_events es w = Some w' /\
       stop w' = SWaiting all (snapshot w')) /\
  (forall all todo, stop w = SWaiting all todo \/ stop w = SDone all -> Forall (closed_at w) all).
Proof.
  intros Hr. split.
  - intros all todo. revert w Hr. induction todo as [|id todo IH]; intros w Hr Hst.
    + exists [EStop], (set_stop (SWaiting all (snapshot w)) w). split_and!; [simpl; lia| |done].
      cbn [run_events step]. unfold stop_step. by rewrite Hst.
    + destruct (stop_head w all id todo (webrtc_reachable_inv w Hr) Hst) as (es1&w1&Hl1&Hr1&Hst1).
      destruct (IH w1) as (es2&w2&Hl2&Hr2&Hst2); [by eapply run_reachable|done|].
      exists (es1 ++ es2), w2. split_and!; [rewrite length_app; simpl; lia|by eapply run_events_app|done].
  - intros all todo Hst. destruct (webrtc_reachable_inv w Hr) as (_&Hok&_). unfold stop_ok in Hok.
    destruct Hst as [Hst|Hst]; rewrite Hst in Hok; apply Hok.
Qed.

(** ** Tracks *)

Lemma step_tracks e w w' id :
  step e w = Some w' -> (forall tid, e <> ETrack id tid) -> e <> EUntrack id -> tracks (router w') !! id = tracks (router w) !! id.
Proof.
  intros H Ht Hu. destruct e as [n id' vars|id' l|id'|id'|id'|id'|id'|id' tid|create sub pub|sub pub|p err|]; cbn [step] in H.
  all: try (unfold make_session, on_session, addSession_store, OnSessionAdded, removeSession, OnSessionRemoved_tell, stop_step,
      mbind, option_bind in H; repeat case_match; simplify_eq; done).
  - unfold OnSessionRemoved_untrack in H. apply bind_Some in H as (s&Hs&H). destruct (stg s); simplify_eq. simpl.
    assert (id' <> id) by congruence. unfold OnSessionRemoved, RemoveSessionTracks.
    destruct (tracks (router w) !! id'); simpl; [by rewrite lookup_delete_ne|done].
  - unfold OnTrack in H. destruct (objects w !! id'); simplify_eq. simpl. rewrite lookup_insert_ne; [done|]. intros ->. by destruct (Ht tid).
  - unfold subscribe in H. destruct (SubscribeToPublisher _ _ _ _ _) as [err r] eqn:E. simplify_eq. simpl.
    unfold SubscribeToPublisher in E. destruct (has_pc <$> getSession sub w) as [[]|]; simplify_eq; try done.
    destruct (GetPublisherTracks pub (router w)) as [|p ps]; simplify_eq; [done|].
    by destruct (subscribe_tracks_frame create sub (p :: ps) (router w)) as (->&_).
  - simplify_eq. simpl. unfold UnsubscribeFromPublisher, Unsubscribe. by destruct (subscriptions (router w) !! sub).
Qed.

Lemma run_tracks es w w' id :
  run_events es w = Some w' -> (forall tid, ETrack id tid ∉ es) ->
  tracks (router w') !! id = tracks (router w) !! id \/ tracks (router w') !! id = None.
Proof.
  revert w. induction es as [|e es IH]; intros w H Ht; [injection H as <-; by left|].
  apply bind_Some in H as (w1&H1&H2).
  assert (tracks (router w1) !! id = tracks (router w) !! id \/ tracks (router w1) !! id = None) as Hone.
  { destruct (decide (tracks (router w1) !! id = tracks (router w) !! id)) as [|Hn]; [by left|]. right.
    assert (~ e <> EUntrack id) as He.
    { intros He. apply Hn. eapply step_tracks; [done| |done]. intros tid ->. apply (Ht tid). left. }
    assert (e = EUntrack id) as ->.
    { destruct e as [| | | | | |id'| | | | |]; try (destruct He; congruence). destruct (decide (id' = id)); [congruence|]. destruct He. congruence. }
    cbn [step] in H1. unfold OnSessionRemoved_untrack in H1. apply bind_Some in H1 as (s&Hs&H1). destruct (stg s); simplify_eq. simpl.
    unfold OnSessionRemoved, RemoveSessionTracks. destruct (tracks (router w) !! id) eqn:E; simpl; [apply lookup_delete_eq|done]. }
  destruct (IH w1 H2) as [E|E]; [intros tid Hin; apply (Ht tid); by right| |by right].
  destruct Hone as [E1|E1]; [left; congruence|right; congruence].
Qed.

(** The end of a session that the manager knew clears its media: from the
    moment [OnSessionRemoved] has run until the peer adds another track, the
    router has no track of the session and nobody listens to one, whatever else
    happens; and the router is well formed throughout. *)
Theorem webrtc_session_tracks w w1 es w2 id :
  reachable w -> step (EUntrack id) w = Some w1 -> run_events es w1 = Some w2 -> (forall tid, ETrack id tid ∉ es) ->
  ok (router w2) /\ GetPublisherTracks id (router w2) = [] /\ (forall tid, listeners (router w2) id tid = ∅).
Proof.
  intros Hr H1 H2 Ht.
  assert (inv w2) as (_&_&Hok) by (eapply webrtc_reachable_inv, run_reachable; [|exact H2]; by eapply reach_step).
  assert (tracks (router w1) !! id = None) as Hn.
  { cbn [step] in H1. unfold OnSessionRemoved_untrack in H1. apply bind_Some in H1 as (s&Hs&H1). destruct (stg s); simplify_eq. simpl.
    unfold OnSessionRemoved, RemoveSessionTracks. destruct (tracks (router w) !! id) eqn:E; simpl; [apply lookup_delete_eq|done]. }
  assert (tracks (router w2) !! id = None) as Hn2 by (destruct (run_tracks es w1 w2 id H2 Ht) as [->|]; done).
  split_and!; [done|by unfold GetPublisherTracks; rewrite Hn2|]. intros tid. unfold listeners, slot. by rewrite Hn2.
Qed.

(** A session that ends before its data channel opened is not known to the
    manager, so its tracks stay with the router for ever, and go on being offered
    to subscribers. *)
Theorem webrtc_unopened_tracks_stay es w w' id s :
  run_events es w = Some w' -> objects w !! id = Some s -> stg s = Closed false ->
  is_Some (tracks (router w) !! id) -> is_Some (tracks (router w') !! id).
Proof.
  revert w s. induction es as [|e es IH]; intros w s H Hs Hc Htr; [by injection H as <-|].
  apply bind_Some in H as (w1&H1&H2). destruct (step_evolves _ _ _ _ _ H1 Hs) as (s1&Hs1&Hc1&_).
  apply (IH w1 s1); auto.
  destruct e as [| | | | | |id'|id' tid| | | |] eqn:E; subst; try (erewrite step_tracks; [exact Htr|exact H1|done..]).
  - destruct (decide (id' = id)) as [->|Hne]; [|erewrite step_tracks; [exact Htr|exact H1|done|congruence]].
    cbn [step] in H1. unfold OnSessionRemoved_untrack in H1. rewrite Hs in H1. simpl in H1. by rewrite Hc in H1.
  - cbn [step] in H1. unfold OnTrack in H1. destruct (objects w !! id'); simplify_eq. simpl.
    destruct (decide (id' = id)) as [->|]; [rewrite lookup_insert_eq; eauto|by rewrite lookup_insert_ne].
Qed.

(** A channel that opens after the session was closed registers it for good: it
    stays in the manager, closed, whatever happens afterwards. *)
Theorem webrtc_late_open_stays es w w' id s :
  reachable w -> run_events es w = Some w' -> objects w !! id = Some s -> stg s = Closed false -> stored s = true ->
  exists s', getSession id w' = Some s' /\ stg s' = Closed false.
Proof.
  intros Hr Hrun Hs Hc Hst. destruct (run_evolves es w w' id s Hrun Hs) as (s'&Hs'&Hc'&Hst').
  exists s'. split; [|auto]. assert (inv w') as (Hi&_) by (eapply webrtc_reachable_inv, run_reachable; eauto).
  destruct (inv_at_get _ Hi _ _ Hs') as (_&Hreg&_). unfold getSession. rewrite bool_decide_true; [done|].
  apply Hreg. split; [auto|]. unfold removed. by rewrite (Hc' _ Hc).
Qed.

(** ** Witnesses *)

Definition ping : bytes := String.list_ascii_of_string "ping".

Definition opening (id : SessionID) : list event :=
  [EMake 2 id ∅; ELocal id (LBind true); EStore id; EAnnounce id; ELocal id LListen].

(** Two sessions; the first publishes a track, gets two messages, writes one and
    fails at the second; then [Stop]. *)
Definition demo_events : list event :=
  opening "a" ++ opening "b" ++
  [ETrack "a" "cam"; ESubscribe (fun p => inl (p + 7)%nat) "b" "a"; ELocal "a" (LSend false ping); ELocal "a" (LSend false []);
   ELocal "a" LTake; ELocal "a" LChannel; ELocal "a" (LWrite true); ELocal "a" LTake; ELocal "a" LChannel; ELocal "a" (LWrite false);
   EStop].
Definition closing (id : SessionID) : list event :=
  [ELocal id LDetach; ELocal id LDisconnect; ERemove id; ETell id; EUntrack id].
Definition demo_stop : list event :=
  [EStop] ++ closing "a" ++ [EStop; EStop] ++ closing "b" ++ [EStop; EStop; ELocal "a" LExit; ELocal "b" LDone; ELocal "b" LExit; EStop].

Definition after (es : list event) : World := default empty_world (run_events es empty_world).
Definition demo_a : Session := mkSession ∅ 2 true Listening Open [] WClosing [ping; []] [ping] [].

Lemma webrtc_session_delivery_witness :
  objects (after demo_events) !! "a" = Some demo_a /\
  (length (send demo_a) <= cap demo_a)%nat /\ accepted demo_a = written demo_a ++ [[]].
Proof.
  assert (run_events demo_events empty_world = Some (after demo_events)) as Hrun by (vm_compute; reflexivity).
  assert (objects (after demo_events) !! "a" = Some demo_a) as Ha by (vm_compute; reflexivity).
  split; [exact Ha|].
  destruct (webrtc_session_delivery (after demo_events) "a" demo_a (run_reachable _ _ _ reach_empty Hrun) Ha) as [Hc _].
  split; [exact Hc|reflexivity].
Defined.

Lemma webrtc_session_registry_witness :
  objects (after demo_events) !! "a" = Some demo_a /\ getSession "a" (after demo_events) = Some demo_a /\
  calls "a" true (callbacks (after demo_events)) = 1%nat /\ calls "a" false (callbacks (after demo_events)) = 0%nat.
Proof.
  assert (run_events demo_events empty_world = Some (after demo_events)) as Hrun by (vm_compute; reflexivity).
  assert (objects (after demo_events) !! "a" = Some demo_a) as Ha by (vm_compute; reflexivity).
  split; [exact Ha|].
  destruct (webrtc_session_registry (after demo_events) "a" demo_a (run_reachable _ _ _ reach_empty Hrun) Ha) as (H1&H2&H3&_).
  split; [apply H1; split; reflexivity|]. split; [exact H2|exact H3].
Defined.

Lemma webrtc_stop_closes_witness :
  stop (after demo_events) = SClosing ["a"; "b"] ["a"; "b"] /\
  (exists es w', (length es <= 15)%nat /\ run_events es (after demo_events) = Some w' /\ stop w' = SWaiting ["a"; "b"] (snapshot w')) /\
  stop (after (demo_events ++ demo_stop)) = SDone ["a"; "b"] /\ Forall (closed_at (after (demo_events ++ demo_stop))) ["a"; "b"].
Proof.
  assert (run_events demo_events empty_world = Some (after demo_events)) as Hrun by (vm_compute; reflexivity).
  assert (stop (after demo_events) = SClosing ["a"; "b"] ["a"; "b"]) as Hst by (vm_compute; reflexivity).
  assert (run_events (demo_events ++ demo_stop) empty_world = Some (after (demo_events ++ demo_stop))) as Hrun2 by (vm_compute; reflexivity).
  assert (stop (after (demo_events ++ demo_stop)) = SDone ["a"; "b"]) as Hst2 by (vm_compute; reflexivity).
  split; [exact Hst|]. split; [exact (proj1 (webrtc_stop_closes _ (run_reachable _ _ _ reach_empty Hrun)) _ _ Hst)|].
  split; [exact Hst2|]. exact (proj2 (webrtc_stop_closes _ (run_reachable _ _ _ reach_empty Hrun2)) _ [] (or_intror Hst2)).
Defined.

Lemma webrtc_session_tracks_witness :
  let w := after (demo_events ++ take 5 demo_stop) in
  exists w1 w2, step (EUntrack "a") w = Some w1 /\ run_events (EStop :: EStop :: closing "b") w1 = Some w2 /\
    listeners (router w) "a" "cam" = {["b" := 7%nat]} /\ listeners (router w2) "a" "cam" = ∅.
Proof.
  intros w. set (w1 := default w (step (EUntrack "a") w)). set (w2 := default w (run_events (EStop :: EStop :: closing "b") w1)).
  assert (run_events (demo_events ++ take 5 demo_stop) empty_world = Some w) as Hrun by (vm_compute; reflexivity).
  assert (step (EUntrack "a") w = Some w1) as H1 by (vm_compute; reflexivity).
  assert (run_events (EStop :: EStop :: closing "b") w1 = Some w2) as H2 by (vm_compute; reflexivity).
  exists w1, w2. split; [exact H1|]. split; [exact H2|]. split; [vm_compute; reflexivity|].
  assert (forall tid, ETrack "a" tid ∉ EStop :: EStop :: closing "b") as Hno by
    (intros tid Hin; repeat (apply elem_of_cons in Hin as [Hin|Hin]; [discriminate Hin|]); by apply not_elem_of_nil in Hin).
  exact (proj2 (proj2 (webrtc_session_tracks w w1 _ w2 "a" (run_reachable _ _ _ reach_empty Hrun) H1 H2 Hno)) "cam").
Defined.

(** A session whose channel opens between the two snapshots of [closeAllAndWait]
    is waited for without having been closed: [Stop] hangs until its peer ends
    it. *)
Example stop_waits_for_late_session :
  (fun w => (stop w, stg <$> objects w !! "b", stop_step w)) <$>
    run_events ([EMake 2 "b" ∅; EStop] ++ [ELocal "b" (LBind true); EStore "b"; EAnnounce "b"; ELocal "b" LListen; EStop]) empty_world
  = Some (SWaiting [] ["b"], Some Open, None).
Proof. vm_compute. reflexivity. Qed.

(** The sessions [Stop] closed are not in its second snapshot: it returns while a
    pump is still in its last call. *)
Example stop_does_not_wait_for_pumps :
  (fun w => (stop w, wp <$> objects w !! "a")) <$>
    run_events (opening "a" ++ [EStop; EStop] ++ closing "a" ++ [EStop; EStop; EStop]) empty_world
  = Some (SDone ["a"], Some WIdle).
Proof. vm_compute. reflexivity. Qed.

(** The late opening of a closed session, and the track of one that never opened. *)
Example late_open :
  (fun w => (count w, stg <$> getSession "a" w)) <$>
    run_events ([EMake 2 "a" ∅; ELocal "a" (LBind true); ELocal "a" LClose; ELocal "a" LDetach; ELocal "a" LDisconnect; ERemove "a";
                 EStore "a"; EAnnounce "a"; ELocal "a" LListen; ELocal "a" LDone; ELocal "a" LExit; EStop; EStop; EStop; EStop; EStop]) empty_world
  = Some (1%nat, Some (Closed false)).
Proof. vm_compute. reflexivity. Qed.

Example unopened_track :
  (fun w => (count w, length (GetPublisherTracks "a" (router w)))) <$>
    run_events [EMake 2 "a" ∅; ETrack "a" "cam"; ELocal "a" LClose; ELocal "a" LDetach; ELocal "a" LDisconnect; ERemove "a"] empty_world
  = Some (0%nat, 1%nat).
Proof. vm_compute. reflexivity. Qed.
