(* ===== verification/WebRtcSignal.v ===== *)
(** [transport/webrtc], signalling: [signaling.go], the HTTP half of [server.go]
    with its options and its [Start] and [Stop], and the connecting half of
    [client.go].  pion's peer connection is a parameter: what its calls return. *)
From Stdlib Require Import ZArith Lia Ascii.
From S2P Require Import Prelude GoErrors Http NetPacket Servers.
From stdpp Require Import base gmap strings list fin_maps pretty.
Open Scope string_scope.
Open Scope list_scope.
Open Scope Z_scope.

Abbreviation SessionID := string.

(** * Messages of the signalling protocol *)

(** [webrtc.SessionDescription]; type 0 is the zero value. *)
Record SessionDescription := mkSD { sd_Type : Z; sd_SDP : string }.

#[export] Instance SessionDescription_eq_dec : EqDecision SessionDescription.
Proof. solve_decision. Defined.

Record signalRequest := mkReq {
  Offer : option SessionDescription;
  Candidate : option string;
  ReqAnswer : option SessionDescription
}.

Record signalResponse := mkResp {
  Answer : SessionDescription;
  resp_SessionID : SessionID;
  resp_Candidate : option string;
  MessageType : string
}.

(** [encoding/json] on these types. *)
Record Json := mkJson {
  decode_request : string -> signalRequest + error;
  decode_description : string -> SessionDescription -> option error * SessionDescription;
  encode_response : signalResponse -> string + error;
  encode_error : string -> string + error;
  encode_offer : SessionDescription -> string + error;
  decode_response : string -> signalResponse + error
}.

(** What the calls on one peer connection return. *)
Record Pion := mkPion {
  NewPeerConnection : option error;
  CreateDataChannel : option error;
  SetRemoteDescription : SessionDescription -> option error;
  CreateDescription : SessionDescription + error;
  SetLocalDescription : SessionDescription -> option error;
  LocalDescription : option SessionDescription
}.

Section signalling.
Context (json : Json).

Definition valid_offer (o : SessionDescription) : bool := negb ((sd_Type o =? 0) || String.eqb (sd_SDP o) "").

(** [func decodeSignalRequest(req *http.Request, offer *webrtc.SessionDescription) error]:
    a nil request or body is [None]; the offer is written in place. *)
Definition decodeSignalRequest (body : option (string + error)) (offer : SessionDescription) : option error * SessionDescription :=
  match body with
  | None => (Some (Errorf "empty request body"), offer)
  | Some (inr err) => (Some err, offer)
  | Some (inl b) =>
      if String.eqb b "" then (Some (Errorf "empty request body"), offer)
      else
        match decode_request json b with
        | inl (mkReq (Some o) _ _) => (if valid_offer o then None else Some (Errorf "invalid offer"), o)
        | _ =>
            match decode_description json b offer with
            | (Some err, o) => (Some err, o)
            | (None, o) => (if valid_offer o then None else Some (Errorf "invalid offer"), o)
            end
        end
  end.

(** [json.NewEncoder(w).Encode(v)] *)
Definition encode_to (v : string + error) : io (option error) :=
  match v with
  | inr err => Ret (Some err)
  | inl b => Write (b ++ newline) (fun '(_, err) => Ret err)
  end.

(** [func encodeSignalResponse], [func writeSignalError] *)
Definition encodeSignalResponse (resp : option signalResponse) : io (option error) :=
  match resp with
  | None => Ret (Some (Errorf "nil response"))
  | Some r => encode_to (encode_response json r)
  end.

Definition writeSignalError (err : option string) : io (option error) :=
  encode_to (encode_error json (default "unknown signaling error" err)).

(** * The server *)

Record Cors := mkCors { enableCORS : bool; corsAllowOrigin : string; corsAllowMethods : string; corsAllowHeaders : string }.

(** The fields of [Server] the signalling depends on. *)
Record Server := mkServer {
  network : string;
  address : string;
  path : string;
  injectToken : bool;
  tokenKey : string;
  checkOrigin : option (Request -> bool);
  cors : Cors;
  dataChannelLabel : string;
  allowAnyDataLabel : bool
}.

(** What [NewServer] starts from. *)
Definition default_server : Server :=
  mkServer "tcp" ":0" "/signal" true "token" (Some (fun _ => true))
    (mkCors true "*" "POST, OPTIONS" "Content-Type, Authorization") "wind" true.

Definition set_cors (c : Cors) (s : Server) : Server :=
  mkServer (network s) (address s) (path s) (injectToken s) (tokenKey s) (checkOrigin s) c (dataChannelLabel s) (allowAnyDataLabel s).

(** The options on these fields. *)
Definition WithNetwork (n : string) : Server -> Server := fun s =>
  if String.eqb n "" then s else
  mkServer n (address s) (path s) (injectToken s) (tokenKey s) (checkOrigin s) (cors s) (dataChannelLabel s) (allowAnyDataLabel s).
Definition WithAddress (a : string) : Server -> Server := fun s =>
  if String.eqb a "" then s else
  mkServer (network s) a (path s) (injectToken s) (tokenKey s) (checkOrigin s) (cors s) (dataChannelLabel s) (allowAnyDataLabel s).
Definition WithPath (p : string) : Server -> Server := fun s =>
  if String.eqb p "" then s else
  mkServer (network s) (address s) p (injectToken s) (tokenKey s) (checkOrigin s) (cors s) (dataChannelLabel s) (allowAnyDataLabel s).
Definition WithCheckOriginFunc (fn : option (Request -> bool)) : Server -> Server := fun s =>
  match fn with
  | None => s
  | Some _ =>
      mkServer (network s) (address s) (path s) (injectToken s) (tokenKey s) fn (cors s) (dataChannelLabel s) (allowAnyDataLabel s)
  end.
Definition WithCheckOrigin (domain : string) : Server -> Server := fun s =>
  mkServer (network s) (address s) (path s) (injectToken s) (tokenKey s)
    (Some (fun r => String.eqb (header_Get "Origin" (req_Header r)) domain)) (cors s) (dataChannelLabel s) (allowAnyDataLabel s).
Definition WithEnableCORS (enable : bool) : Server -> Server := fun s =>
  set_cors (mkCors enable (corsAllowOrigin (cors s)) (corsAllowMethods (cors s)) (corsAllowHeaders (cors s))) s.
Definition WithCORS (allowOrigin allowMethods allowHeaders : string) : Server -> Server := fun s =>
  let pick new old := if String.eqb new "" then old else new in
  set_cors (mkCors (enableCORS (cors s)) (pick allowOrigin (corsAllowOrigin (cors s)))
              (pick allowMethods (corsAllowMethods (cors s))) (pick allowHeaders (corsAllowHeaders (cors s)))) s.
Definition WithInjectTokenToQuery (enable : bool) (key : string) : Server -> Server := fun s =>
  mkServer (network s) (address s) (path s) enable key (checkOrigin s) (cors s) (dataChannelLabel s) (allowAnyDataLabel s).
Definition WithDataChannelLabel (label : string) : Server -> Server := fun s =>
  mkServer (network s) (address s) (path s) (injectToken s) (tokenKey s) (checkOrigin s) (cors s) label (allowAnyDataLabel s).
Definition WithAllowAnyDataChannelLabel (allow : bool) : Server -> Server := fun s =>
  mkServer (network s) (address s) (path s) (injectToken s) (tokenKey s) (checkOrigin s) (cors s) (dataChannelLabel s) allow.

(** [func (s *Server) writeCORSHeaders] *)
Definition writeCORSHeaders (c : Cors) (h : Header) : Header :=
  let allowOrigin := if String.eqb (corsAllowOrigin c) "" then "*" else corsAllowOrigin c in
  header_Add "Vary" "Access-Control-Request-Headers"
    (header_Add "Vary" "Access-Control-Request-Method"
      (header_Add "Vary" "Origin"
        (header_Set "Access-Control-Allow-Headers" (corsAllowHeaders c)
          (header_Set "Access-Control-Allow-Methods" (corsAllowMethods c)
            (header_Set "Access-Control-Allow-Origin" allowOrigin h))))).

(** [func (s *Server) handleICECandidate]: the candidate is not used. *)
Definition quoted (t : string) : string := String "034" (t ++ String "034" "").
Definition handleICECandidate (candidate : string) : io unit :=
  WriteHeader 200 (Write ("{" ++ quoted "status" ++ ":" ++ quoted "ok" ++ "}") (fun _ => Ret tt)).

(** The callback of [pc.OnDataChannel]: whether the channel is bound or closed. *)
Definition accepts_label (s : Server) (label : string) : bool :=
  negb (negb (allowAnyDataLabel s) && negb (String.eqb (dataChannelLabel s) "") && negb (String.eqb label (dataChannelLabel s))).

(** The session a request leaves behind: its query values, and whether it was
    closed again. *)
Record Made := mkMade { made_vars : gmap string (list string); made_closed : bool }.

(** [res.WriteHeader(code)] and [writeSignalError], the session closed before. *)
Definition fail (code : Z) (err : string) (made : option Made) : io (option Made) :=
  WriteHeader code (writeSignalError (Some err) ;; Ret made).

(** The queries of the new session. *)
Definition session_vars (s : Server) (query : gmap string (list string)) (r : Request) : gmap string (list string) :=
  let token := header_Get "Authorization" (req_Header r) in
  if negb (String.eqb token "") && injectToken s then <[tokenKey s := [token]]> query else query.

Section handler.
Context (error_text : error -> string) (pion : Pion) (newID : SessionID).

(** [signalHandler] from the offer on. *)
Definition answer_offer (s : Server) (query : gmap string (list string)) (r : Request) (offer : SessionDescription) : io (option Made) :=
  let vars := session_vars s query r in
  match NewPeerConnection pion with
  | Some err => fail 500 (error_text err) None
  | None =>
      match SetRemoteDescription pion offer with
      | Some err => fail 400 (error_text err) (Some (mkMade vars true))
      | None =>
          match CreateDescription pion with
          | inr err => fail 500 (error_text err) (Some (mkMade vars true))
          | inl answer =>
              match SetLocalDescription pion answer with
              | Some err => fail 500 (error_text err) (Some (mkMade vars true))
              | None =>
                  match LocalDescription pion with
                  | None => fail 500 "local description is nil" (Some (mkMade vars true))
                  | Some local =>
                      HeaderMap (header_Set "Content-Type" "application/json")
                        (err ← encodeSignalResponse (Some (mkResp local newID None ""));
                         Ret (Some (mkMade vars (match err with Some _ => true | None => false end))))
                  end
              end
          end
      end
  end.

(** [func (s *Server) signalHandler(res http.ResponseWriter, req *http.Request)];
    [body] is what reading the request's body gives. *)
Definition signalHandler (s : Server) (body : string + error) (query : gmap string (list string)) (r : Request) : io (option Made) :=
  HeaderMap (if enableCORS (cors s) then writeCORSHeaders (cors s) else id)
    (if String.eqb (Method r) "OPTIONS" then WriteHeader 204 (Ret None)
     else if negb (String.eqb (Method r) "POST") then WriteHeader 405 (Ret None)
     else if match checkOrigin s with Some f => negb (f r) | None => false end then WriteHeader 403 (Ret None)
     else
       match body with
       | inr err => fail 400 (error_text err) None
       | inl b =>
           match decode_request json b with
           | inr err => fail 400 (error_text err) None
           | inl req =>
               match Candidate req with
               | Some c => handleICECandidate c ;; Ret None
               | None =>
                   match Offer req with
                   | Some o => if valid_offer o then answer_offer s query r o else fail 400 "invalid offer" None
                   | None => fail 400 "invalid offer" None
                   end
               end
           end
       end).

(** [func (s *Server) sendRenegotiation]: [encode] is [broker.Marshal] of the
    message, [send] what the session does with it. *)
Definition sendRenegotiation (encode : SessionDescription -> bytes + error) : bytes + error :=
  match CreateDescription pion with
  | inr err => inr err
  | inl answer =>
      match SetLocalDescription pion answer with
      | Some err => inr err
      | None =>
          match LocalDescription pion with
          | None => inr (Errorf "local description is nil")
          | Some local => encode local
          end
      end
  end.
End handler.

(** * [Start], [Stop] and [Endpoint] *)

(** The listener, the endpoint, the running mark, and net/http's server: whether
    it was shut down, after which it serves no more. *)
Record Life := mkLife { lis : option bytes; ep : option string; running : bool; shut : bool }.

(** The path of a URL with a host, in its text; escaping is not modelled. *)
Definition url_path (p : string) : string :=
  match p with
  | EmptyString | String "/"%char _ => p
  | _ => "/" ++ p
  end.

(** [func (s *Server) listenAndEndpoint() error] *)
Definition listenAndEndpoint (s : Server) (listen : bytes + error) (l : Life) : option error * Life :=
  match (match lis l with Some a => inl a | None => listen end) with
  | inr err => (Some err, l)
  | inl a =>
      let e :=
        match ep l with
        | Some e => e
        | None => (endpoint "http" ("http://" ++ text a) a ++ url_path (path s))%string
        end in
      (None, mkLife (Some a) (Some e) (running l) (shut l))
  end.

(** [func (s *Server) Endpoint() string] *)
Definition Endpoint (s : Server) (listen : bytes + error) (l : Life) : string * Life :=
  match listenAndEndpoint s listen l with
  | (Some _, l') => ("", l')
  | (None, l') => (default "" (ep l'), l')
  end.

(** [func (s *Server) Start(ctx)] up to [Serve]: [inl] is what it returns at once;
    [inr] that it serves.  A server that was shut down serves nothing:
    [http.ErrServerClosed] becomes nil. *)
Definition Start (s : Server) (listen : bytes + error) (l : Life) : (option error + unit) * Life :=
  if running l then (inl None, l)
  else
    match listenAndEndpoint s listen l with
    | (Some err, l') => (inl (Some err), l')
    | (None, l') =>
        if shut l' then (inl None, mkLife (lis l') (ep l') false (shut l'))
        else (inr tt, mkLife (lis l') (ep l') true (shut l'))
    end.

(** [Serve] returned, and [Start] after it; [None] is [http.ErrServerClosed]. *)
Definition Start_end (err : option error) (l : Life) : option error * Life := (err, mkLife (lis l) (ep l) false (shut l)).

(** [func (s *Server) Stop(ctx)], with the result of [Shutdown]; the sessions are
    closed in between (see [WebRtcSession]). *)
Definition Stop (r : option error) (l : Life) : option error * Life :=
  if running l then (r, mkLife (lis l) (ep l) false true) else (None, l).

(** * The client *)

Record Client := mkClient {
  signalURL : string;
  authorization : string;
  cl_label : string
}.

Definition WithSignalURL (uri : string) : Client -> Client := fun c => mkClient uri (authorization c) (cl_label c).
Definition WithAuthorization (token : string) : Client -> Client := fun c => mkClient (signalURL c) token (cl_label c).
Definition WithClientDataChannelLabel (label : string) : Client -> Client := fun c =>
  if String.eqb label "" then c else mkClient (signalURL c) (authorization c) label.
Definition NewClient (opts : list (Client -> Client)) : Client := apply_opts opts (mkClient "" "" "wind").

(** The request [sendOffer] makes. *)
Definition offer_request (c : Client) : Request :=
  let h := header_Set "Content-Type" "application/json" ∅ in
  mkRequest "POST" (signalURL c)
    (if String.eqb (authorization c) "" then h else header_Set "Authorization" (authorization c) h) [].

(** [func (c *Client) sendOffer]: [do] is the round trip of [http.DefaultClient],
    giving status and body. *)
Definition sendOffer (do : Request -> string -> (Z * string) + error) (c : Client) (offer : SessionDescription) : SessionDescription + error :=
  match encode_offer json offer with
  | inr err => inr err
  | inl body =>
      match do (offer_request c) body with
      | inr err => inr err
      | inl (status, respBody) =>
          if (status <? 200) || (300 <=? status) then
            inr (Errorf ("signal request failed: status=" ++ pretty status ++ " body=" ++ respBody))
          else
            match (match decode_response json respBody with
                   | inl w => if negb (sd_Type (Answer w) =? 0) then Some (Answer w) else None
                   | inr _ => None
                   end) with
            | Some answer => inl answer
            | None =>
                match decode_description json respBody (mkSD 0 "") with
                | (Some err, _) => inr err
                | (None, answer) =>
                    if sd_Type answer =? 0 then inr (Errorf "invalid answer from signaling server") else inl answer
                end
            end
      end
  end.

(** The client's connection: whether [c.pc] and [c.dc] are there. *)
Record Conn := mkConn { c_pc : bool; c_dc : bool }.

(** [func (c *Client) Connect() error]: what it returns, whether it closed the
    peer connection it made (if it made one), and the client's connection
    afterwards.  [opened] tells which of the two channels of the last select was
    ready first; the errors of the closing calls are dropped. *)
Definition Connect (do : Request -> string -> (Z * string) + error) (pion : Pion) (opened : bool) (c : Client) (st : Conn) :
    option error * option bool * Conn :=
  if String.eqb (signalURL c) "" then (Some (Errorf "signal url is empty"), None, st)
  else
    match NewPeerConnection pion with
    | Some err => (Some err, None, st)
    | None =>
        let give_back err := (Some err, Some true, st) in
        match CreateDataChannel pion with
        | Some err => give_back err
        | None =>
            match CreateDescription pion with
            | inr err => give_back err
            | inl offer =>
                match SetLocalDescription pion offer with
                | Some err => give_back err
                | None =>
                    match LocalDescription pion with
                    | None => give_back (Errorf "local description is nil")
                    | Some local =>
                        match sendOffer do c local with
                        | inr err => give_back err
                        | inl answer =>
                            match SetRemoteDescription pion answer with
                            | Some err => give_back err
                            | None =>
                                if opened then (None, Some false, mkConn true true)
                                else (Some (Errorf "wait data channel open timeout"), Some true, mkConn false false)
                            end
                        end
                    end
                end
            end
        end
    end.

(** [func (c *Client) Disconnect() error]: the results of the two closings; the
    first error is kept. *)
Definition Disconnect (close_dc close_pc : option error) (st : Conn) : option error * Conn :=
  let e1 := if c_dc st then close_dc else None in
  let e2 := if c_pc st then close_pc else None in
  (match e1 with Some err => Some err | None => e2 end, mkConn false false).
End signalling.

(** The media of the client: [AddLocalTrack], [RemoveLocalTrack], the callback of
    [OnTrack], and [GetRemoteTracks]. *)
Record Media := mkMedia { localTracks : gmap string nat; remoteTracks : gmap string nat }.
Definition AddLocalTrack (pc : option (nat -> option error)) (trackID : string) (track : nat) (m : Media) : option error * Media :=
  match pc with
  | None => (Some (Errorf "peer connection not established"), m)
  | Some add =>
      match add track with
      | Some err => (Some err, m)
      | None => (None, mkMedia (<[trackID := track]> (localTracks m)) (remoteTracks m))
      end
  end.
Definition RemoveLocalTrack (trackID : string) (m : Media) : Media :=
  match localTracks m !! trackID with
  | Some _ => mkMedia (delete trackID (localTracks m)) (remoteTracks m)
  | None => m
  end.
Definition client_OnTrack (trackID : string) (track : nat) (m : Media) : Media :=
  mkMedia (localTracks m) (<[trackID := track]> (remoteTracks m)).
Definition GetRemoteTracks (m : Media) : gmap string nat := map_fold (fun k v acc => <[k := v]> acc) ∅ (remoteTracks m).

(** * Properties *)

Section signal_facts.
Context (json : Json) (error_text : error -> string) (pion : Pion) (newID : SessionID).
Implicit Types (s : Server) (r : Request).

(** A request that may create a session: a POST from an allowed origin whose
    body carries a valid offer and no candidate. *)
Definition admissible s (body : string + error) r : Prop :=
  Method r = "POST" /\ (forall f, checkOrigin s = Some f -> f r = true) /\
  exists b req o, body = inl b /\ decode_request json b = inl req /\ Candidate req = None /\ Offer req = Some o /\ valid_offer o = true.

(** The response to a request. *)
Definition respond s (body : string + error) query r := run (signalHandler json error_text pion newID s body query r) fresh_response.

(** The CORS headers, when enabled, are in the map from the first instruction on. *)
Definition cors_header s : Header := (if enableCORS (cors s) then writeCORSHeaders (cors s) else id) ∅.

Lemma cors_origin s :
  enableCORS (cors s) = true ->
  header_Get "Access-Control-Allow-Origin" (cors_header s) = (if String.eqb (corsAllowOrigin (cors s)) "" then "*" else corsAllowOrigin (cors s)).
Proof.
  intros H. unfold cors_header, writeCORSHeaders, header_Get, header_Add, header_Set. rewrite H.
  rewrite !lookup_insert_ne by (vm_compute; done). by rewrite lookup_insert_eq.
Qed.

(** What a failing request gets: the status with the headers so far. *)
Definition refused (code : Z) (h : Header) (resp : Response) : Prop := sent resp = Some (code, h) /\ code <> 200.

Lemma run_fail code err made (h : Header) :
  (100 <=? code) && (code <=? 199) = false -> code <> 200 ->
  exists resp, run (fail json code err made) (mkResponse h None "") = (made, resp) /\ refused code h resp.
Proof.
  intros Hc Hne. unfold fail, writeSignalError, encode_to, refused. cbn [from_option id].
  assert (rw_WriteHeader code (mkResponse h None "") = mkResponse h (Some (code, h)) "") as Hw
    by (unfold rw_WriteHeader; cbn; by rewrite Hc).
  destruct (encode_error json err) as [b|e]; cbn -[rw_WriteHeader rw_Write]; rewrite Hw; [|eexists; split; [reflexivity|done]].
  unfold rw_Write. cbn [sent]. destruct (String.eqb (b ++ newline) ""); [eexists; split; [reflexivity|done]|].
  destruct (bodyAllowedForStatus code); (eexists; split; [reflexivity|done]).
Qed.

(** The two outcomes of an offer: refused, the session (if one was made) closed;
    or answered with the local description, the session left open.  An answer that
    cannot be encoded closes the session and sends nothing. *)
Definition answered s query r (h : Header) (made : option Made) (resp : Response) : Prop :=
  (exists code, refused code h resp /\ forall m, made = Some m -> m = mkMade (session_vars s query r) true) \/
  (exists local t, LocalDescription pion = Some local /\ encode_response json (mkResp local newID None "") = inl t /\
     made = Some (mkMade (session_vars s query r) false) /\
     sent resp = Some (200, header_Set "Content-Type" "application/json" h) /\ body resp = (t ++ newline)%string) \/
  (sent resp = None /\ made = Some (mkMade (session_vars s query r) true)).

Lemma run_answer s query r o (h : Header) :
  let '(made, resp) := run (answer_offer json error_text pion newID s query r o) (mkResponse h None "") in answered s query r h made resp.
Proof.
  unfold answer_offer.
  assert (forall code err made, (100 <=? code) && (code <=? 199) = false -> code <> 200 ->
    (forall m, made = Some m -> m = mkMade (session_vars s query r) true) ->
    let '(made', resp) := run (fail json code err made) (mkResponse h None "") in answered s query r h made' resp) as Hfail.
  { intros code err made Hc Hne Hm. destruct (run_fail code err made h Hc Hne) as (resp&->&Hr). left. eauto. }
  destruct (NewPeerConnection pion) as [err|]; [by apply Hfail|].
  destruct (SetRemoteDescription pion o) as [err|]; [apply Hfail; [done|done|]; by intros m [= <-]|].
  destruct (CreateDescription pion) as [answer|err]; [|apply Hfail; [done|done|]; by intros m [= <-]].
  destruct (SetLocalDescription pion answer) as [err|]; [apply Hfail; [done|done|]; by intros m [= <-]|].
  destruct (LocalDescription pion) as [local|] eqn:El; [|apply Hfail; [done|done|]; by intros m [= <-]].
  unfold encodeSignalResponse, encode_to. destruct (encode_response json (mkResp local newID None "")) as [t|e] eqn:Et.
  - cbn -[String.append]. assert (String.eqb (t ++ newline) "" = false) as E by (destruct t; reflexivity).
    unfold rw_Write. cbn -[String.append]. rewrite E. right. left. exists local, t. done.
  - right. right. done.
Qed.

(** A request that is turned away before a peer connection is made. *)
Definition turned_away s (made : option Made) (resp : Response) : Prop := made = None /\ exists code, sent resp = Some (code, cors_header s).

Lemma respond_cases s body query r :
  let '(made, resp) := respond s body query r in
  (admissible s body r /\ answered s query r (cors_header s) made resp) \/ (~ admissible s body r /\ turned_away s made resp).
Proof.
  unfold respond, signalHandler, fresh_response. cbn [run live sent Http.body]. fold (cors_header s).
  assert (forall code err, (100 <=? code) && (code <=? 199) = false -> code <> 200 ->
    let '(made, resp) := run (fail json code err None) (mkResponse (cors_header s) None "") in turned_away s made resp) as Hfail.
  { intros code err Hc Hne. destruct (run_fail code err None (cors_header s) Hc Hne) as (resp&->&Hr&_). split; [done|eauto]. }
  assert (forall (p : option Made * Response) (P : Prop), ~ P -> (let '(made, resp) := p in turned_away s made resp) ->
    let '(made, resp) := p in (P /\ answered s query r (cors_header s) made resp) \/ (~ P /\ turned_away s made resp)) as Hno
    by (intros [made resp] P HP Ht; by right).
  destruct (String.eqb_spec (Method r) "OPTIONS") as [E|_].
  { apply Hno; [intros (H&_); congruence|]. cbn. split; [done|eauto]. }
  destruct (String.eqb_spec (Method r) "POST") as [Epost|E]; cbn [negb].
  2: { apply Hno; [by intros (H&_)|]. cbn. split; [done|eauto]. }
  destruct (match checkOrigin s with Some f => negb (f r) | None => false end) eqn:Eorg.
  { apply Hno; [|cbn; split; [done|eauto]]. intros (_&Ho&_). destruct (checkOrigin s) as [f|]; [|done]. by rewrite (Ho f eq_refl) in Eorg. }
  destruct body as [b|err]; [|apply Hno; [intros (_&_&b&req&o&H&_); done|by apply Hfail]].
  destruct (decode_request json b) as [req|err] eqn:Ed;
    [|apply Hno; [intros (_&_&b'&req'&o&[= <-]&H&_); congruence|by apply Hfail]].
  destruct (Candidate req) as [cand|] eqn:Ec.
  { apply Hno; [intros (_&_&b'&req'&o&[= <-]&H&H'&_); congruence|]. cbn. split; [done|eauto]. }
  destruct (Offer req) as [o|] eqn:Eo;
    [|apply Hno; [intros (_&_&b'&req'&o&[= <-]&H&_&H'&_); congruence|by apply Hfail]].
  destruct (valid_offer o) eqn:Ev; [|apply Hno; [intros (_&_&b'&req'&o'&[= <-]&H&_&H'&?); congruence|by apply Hfail]].
  pose proof (run_answer s query r o (cors_header s)) as Hans.
  destruct (run (answer_offer _ _ _ _ s query r o) _) as [made resp]. left. split; [|done].
  split; [done|]. split; [|exists b, req, o; done]. intros f Hf. rewrite Hf in Eorg. by destruct (f r).
Qed.

(** What signalling answers.  A session is made only for a POST from an
    allowed origin with a valid offer; everything else is turned away with one
    response and no peer connection.  An offer is answered with status 200 and
    the encoded local description exactly when the session is left open: every
    failure closes the session it had made.  With CORS enabled every response
    sent carries the configured origin. *)
Theorem webrtc_signal_responses s body query r :
  let '(made, resp) := respond s body query r in
  (made <> None -> admissible s body r) /\
  (forall m, made = Some m -> made_vars m = session_vars s query r /\
     (made_closed m = false <-> exists local t h, LocalDescription pion = Some local /\
        encode_response json (mkResp local newID None "") = inl t /\ sent resp = Some (200, h) /\ Http.body resp = (t ++ newline)%string)) /\
  (enableCORS (cors s) = true -> forall code h, sent resp = Some (code, h) ->
     header_Get "Access-Control-Allow-Origin" h = (if String.eqb (corsAllowOrigin (cors s)) "" then "*" else corsAllowOrigin (cors s))).
Proof.
  pose proof (respond_cases s body query r) as H. destruct (respond s body query r) as [made resp].
  destruct H as [[Ha Hans]|[Hn [Hm [code Hs]]]]; split_and!; try done.
  - intros m Hm. destruct Hans as [(code&[Hs Hne]&Hm')|[(local&t&Hl&Ht&Hm'&Hs&Hb)|[Hs Hm']]].
    + rewrite (Hm' _ Hm). split; [done|]. split; [done|]. intros (?&?&?&_&_&Hs'&_). congruence.
    + simplify_eq. split; [done|]. split; [|done]. intros _. by exists local, t, (header_Set "Content-Type" "application/json" (cors_header s)).
    + simplify_eq. split; [done|]. split; [done|]. intros (?&?&?&_&_&Hs'&_). congruence.
  - intros He code h Hs. rewrite <- (cors_origin s He).
    destruct Hans as [(code'&[Hs' _]&_)|[(local&t&_&_&_&Hs'&_)|[Hs' _]]]; rewrite Hs' in Hs; [by simplify_eq| |done].
    simplify_eq. unfold header_Get, header_Set. by rewrite lookup_insert_ne by (vm_compute; done).
  - subst made. intros m. by intros [=].
  - intros He code' h Hs'. rewrite Hs in Hs'. simplify_eq. by apply cors_origin.
Qed.

(** [encoding/json] decodes what it encoded, on the messages the two ends send. *)
Record json_laws : Prop := {
  law_offer o b : encode_offer json o = inl b -> decode_request json b = inl (mkReq (Some o) None None);
  law_response resp t : encode_response json resp = inl t -> decode_response json (t ++ newline) = inl resp
}.

(** The client's HTTP round trip, against a server's handler. *)
Definition round_trip s query (req : Request) (body : string) : (Z * string) + error :=
  let '(_, resp) := respond s (inl body) query req in
  inl (match sent resp with Some (code, _) => code | None => 200 end, Http.body resp).

(** The two ends agree.  When an allowed client offers a valid description
    and the server's peer connection accepts it, the client's [sendOffer] returns
    exactly the server's local description, the session stays open, and it holds
    the client's authorization under the server's token key. *)
Theorem webrtc_handshake s c query offer answer local b t :
  json_laws -> (forall f, checkOrigin s = Some f -> f (offer_request c) = true) -> valid_offer offer = true ->
  NewPeerConnection pion = None -> SetRemoteDescription pion offer = None -> CreateDescription pion = inl answer ->
  SetLocalDescription pion answer = None -> LocalDescription pion = Some local -> sd_Type local <> 0 ->
  encode_offer json offer = inl b -> encode_response json (mkResp local newID None "") = inl t ->
  sendOffer json (round_trip s query) c offer = inl local /\
  exists vars, fst (respond s (inl b) query (offer_request c)) = Some (mkMade vars false) /\
    (authorization c <> "" -> injectToken s = true -> vars !! tokenKey s = Some [authorization c]).
Proof.
  intros [Lo Lr] Horg Hv Hn Hr Hc Hs Hl Hty Hb Ht. specialize (Lo _ _ Hb). specialize (Lr _ _ Ht).
  assert (respond s (inl b) query (offer_request c) =
    (Some (mkMade (session_vars s query (offer_request c)) false),
     mkResponse (header_Set "Content-Type" "application/json" (cors_header s))
       (Some (200, header_Set "Content-Type" "application/json" (cors_header s))) (t ++ newline))) as Hresp.
  { unfold respond, signalHandler, fresh_response. cbn [run live sent Http.body]. fold (cors_header s).
    assert (match checkOrigin s with Some f => negb (f (offer_request c)) | None => false end = false) as Ho
      by (destruct (checkOrigin s) as [f|]; [|done]; by rewrite (Horg f eq_refl)).
    cbn [Method offer_request]. cbn [String.eqb Ascii.eqb Bool.eqb negb]. rewrite Ho, Lo. cbn [Candidate Offer]. rewrite Hv.
    unfold answer_offer. rewrite Hn, Hr, Hc, Hs, Hl. unfold encodeSignalResponse, encode_to. rewrite Ht. cbn -[String.append].
    assert (String.eqb (t ++ newline) "" = false) as E by (destruct t; reflexivity). unfold rw_Write. cbn -[String.append]. by rewrite E. }
  split.
  - unfold sendOffer, round_trip. rewrite Hb, Hresp. cbn [sent Http.body]. cbn [Z.ltb Z.leb Z.compare Pos.compare Pos.compare_cont orb].
    rewrite Lr. cbn [Answer]. by rewrite (proj2 (Z.eqb_neq _ _) Hty).
  - rewrite Hresp. eexists. split; [done|]. intros Ha Hi. unfold session_vars.
    assert (header_Get "Authorization" (req_Header (offer_request c)) = authorization c) as ->.
    { unfold offer_request. destruct (String.eqb_spec (authorization c) "") as [|_]; [done|]. cbn [req_Header].
      unfold header_Get, header_Set. by rewrite lookup_insert_eq. }
    destruct (String.eqb_spec (authorization c) ""); [done|]. rewrite Hi. cbn [negb andb]. apply lookup_insert_eq.
Qed.
End signal_facts.

(** The client gives back what it took: when [Connect] fails, the peer connection
    it had made is closed and the client holds none of it; when it succeeds, the
    client holds it. *)
Theorem webrtc_connect_releases json do pion opened c st err made st' :
  Connect json do pion opened c st = (err, made, st') ->
  match err with
  | None => made = Some false /\ st' = mkConn true true
  | Some _ => made <> Some false /\ (st' = st \/ st' = mkConn false false)
  end.
Proof. unfold Connect. intros H. repeat case_match; simplify_eq; auto. Qed.

(** A server that was stopped does not start again, and does not say so: its
    [http.Server] is spent, and [Start] returns nil without serving. *)
Theorem webrtc_restart s listen listen' r l l1 :
  Start s listen l = (inr tt, l1) -> fst (Start s listen' (snd (Stop r l1))) = inl None.
Proof.
  unfold Start. intros H. destruct (running l); [done|].
  destruct (listenAndEndpoint s listen l) as [[err|] l'] eqn:E; [done|]. destruct (shut l'); [done|].
  injection H as <-. unfold Stop. cbn [running snd].
  assert (is_Some (lis l')) as [a Ha].
  { unfold listenAndEndpoint in E. destruct (lis l) as [a|]; [|destruct listen as [a|]; [|done]]; injection E as <-; by exists a. }
  unfold listenAndEndpoint. cbn [lis]. rewrite Ha. reflexivity.
Qed.

Definition toy_json : Json :=
  mkJson
    (fun b => if String.eqb b "offer" then inl (mkReq (Some (mkSD 1 "v=0")) None None)
              else if String.eqb b "candidate" then inl (mkReq None (Some "c") None) else inr (Errorf "json"))
    (fun _ o => (Some (Errorf "json"), o))
    (fun r => if decide (resp_SessionID r = "id" /\ resp_Candidate r = None /\ MessageType r = "" /\ Answer r = mkSD 3 "v=1")
              then inl "answer" else inr (Errorf "json"))
    (fun e => inl e)
    (fun o => if decide (sd_Type o = 1 /\ sd_SDP o = "v=0") then inl "offer" else inr (Errorf "json"))
    (fun b => if String.eqb b ("answer" ++ newline) then inl (mkResp (mkSD 3 "v=1") "id" None "") else inr (Errorf "json")).

Definition toy_pion : Pion :=
  mkPion None None (fun _ => None) (inl (mkSD 3 "v=1")) (fun _ => None) (Some (mkSD 3 "v=1")).

Lemma toy_json_laws : json_laws toy_json.
Proof.
  split.
  - intros o b. simpl. destruct (decide _) as [[H1 H2]|]; [|done]. intros [= <-]. destruct o. simpl in *. by subst.
  - intros [a i c m] t. simpl. destruct (decide _) as [(H1&H2&H3&H4)|]; [|done]. intros [= <-]. simpl in *. by subst.
Qed.

Lemma webrtc_handshake_witness :
  let c := NewClient [WithSignalURL "http://x/signal"; WithAuthorization "secret"] in
  sendOffer toy_json (round_trip toy_json (fun _ => "") toy_pion "id" default_server ∅) c (mkSD 1 "v=0") = inl (mkSD 3 "v=1").
Proof.
  intros c.
  exact (proj1 (webrtc_handshake toy_json (fun _ => "") toy_pion "id" default_server c ∅ (mkSD 1 "v=0") (mkSD 3 "v=1") (mkSD 3 "v=1")
    "offer" "answer" toy_json_laws ltac:(intros f [= <-]; reflexivity) eq_refl eq_refl eq_refl eq_refl eq_refl eq_refl
    ltac:(discriminate) eq_refl eq_refl)).
Defined.

(** An ICE candidate is answered with success and dropped: the handler's outcome
    does not depend on it. *)
Lemma candidates_ignored json error_text pion newID s query r b1 b2 req1 req2 c1 c2 :
  decode_request json b1 = inl req1 -> decode_request json b2 = inl req2 -> Candidate req1 = Some c1 -> Candidate req2 = Some c2 ->
  respond json error_text pion newID s (inl b1) query r = respond json error_text pion newID s (inl b2) query r.
Proof. intros H1 H2 H3 H4. unfold respond, signalHandler. by rewrite H1, H2, H3, H4. Qed.
