(* ===== verification/WebTransport.v ===== *)
(** [transport/webtransport]: packets and dispatch, the framed stream of a
    session, the sessions a server accounts for, and the client. *)
From Stdlib Require Import ZArith Lia Ascii.
From S2P Require Import Prelude GoErrors Http NetPacket Servers Encoding Broker BrokerCodec.
From stdpp Require Import base gmap strings list fin_maps.
Open Scope string_scope.
Open Scope list_scope.
Open Scope Z_scope.

(** [type Message struct]: the packets of [NetPacket] under another name. *)
Abbreviation Message := BinaryNetPacket.

Section messages.
Context {T : Type}
  (gob_Encode : value T -> bytes + error) (gob_Decode : bytes -> value T -> option error * value T).

(** [type HandlerData struct] *)
Record HandlerData := mkHandlerData { Handler : Z -> value T -> option error; Binder : option (unit -> gv T) }.

(** [func (h *HandlerData) Create() any] *)
Definition Create (h : HandlerData) : option (gv T) := (fun b => b tt) <$> Binder h.

Record Server := mkServer { codec : option (Codec (value T)); messageHandlers : gmap Z HandlerData }.

(** [func (s *Server) RegisterMessageHandler], [DeregisterMessageHandler] *)
Definition RegisterMessageHandler (messageType : Z) (handler : Z -> value T -> option error) (binder : option (unit -> gv T)) (s : Server) : Server :=
  match messageHandlers s !! messageType with
  | Some _ => s
  | None => mkServer (codec s) (<[messageType := mkHandlerData handler binder]> (messageHandlers s))
  end.
Definition DeregisterMessageHandler (messageType : Z) (s : Server) : Server :=
  mkServer (codec s) (delete messageType (messageHandlers s)).

(** [func (s *Server) marshalMessage] *)
Definition marshalMessage (s : Server) (messageType : Z) (message : option (value T)) : bytes + error :=
  match Marshal gob_Encode (codec s) message with
  | inr err => inr err
  | inl body => NetPacket.Marshal (mkPacket messageType body)
  end.

(** [func (s *Server) messageHandler(sessionId SessionID, buf []byte) error];
    [decode_body] is the binder and [broker.Unmarshal]. *)
Definition messageHandler (s : Server) (sessionId : Z) (buf : bytes) : option error :=
  match NetPacket.Unmarshal (mkPacket 0 []) buf with
  | (Some err, _) => Some err
  | (None, msg) =>
      match messageHandlers s !! pkt_Type msg with
      | None => Some (Errorf "message handler not found")
      | Some handlerData =>
          match decode_body gob_Decode (codec s) (Binder handlerData) (pkt_Payload msg) with
          | inr err => Some err
          | inl payload => Handler handlerData sessionId payload
          end
      end
  end.

(** ** The client *)

Record Client := mkClient { cl_codec : option (Codec (value T)); cl_messageHandlers : gmap Z HandlerData }.

(** [func (c *Client) RegisterMessageHandler], [DeregisterMessageHandler],
    [messageHandler]; its handlers take no session. *)
Definition client_RegisterMessageHandler (messageType : Z) (handler : value T -> option error) (binder : option (unit -> gv T)) (c : Client) : Client :=
  match cl_messageHandlers c !! messageType with
  | Some _ => c
  | None => mkClient (cl_codec c) (<[messageType := mkHandlerData (fun _ => handler) binder]> (cl_messageHandlers c))
  end.
Definition client_DeregisterMessageHandler (messageType : Z) (c : Client) : Client :=
  mkClient (cl_codec c) (delete messageType (cl_messageHandlers c)).
Definition client_messageHandler (c : Client) (buf : bytes) : option error :=
  messageHandler (mkServer (cl_codec c) (cl_messageHandlers c)) 0 buf.

(** [func (c *Client) SendRawData(data []byte) error]: nothing is written. *)
Definition SendRawData (data : bytes) : option error := None.

(** [func (c *Client) SendMessage]: the error of [broker.Marshal] is dropped. *)
Definition client_SendMessage (c : Client) (messageType : Z) (message : option (value T)) : option error :=
  let body := match Marshal gob_Encode (cl_codec c) message with inl b => b | inr _ => [] end in
  match NetPacket.Marshal (mkPacket (messageType mod 2 ^ 32) body) with
  | inr err => Some err
  | inl buff => SendRawData buff
  end.
End messages.
Arguments HandlerData : clear implicits.
Arguments Server : clear implicits.
Arguments Client : clear implicits.

(** * [func (s *Server) serveSession]: the framed stream *)

(** [io.ReadFull(stream, buf)] for a buffer of [n] bytes: the bytes and what is
    left; [None] when the stream ends before. *)
Definition ReadFull (n : nat) (stream : bytes) : option (bytes * bytes) :=
  if (n <=? length stream)%nat then Some (take n stream, drop n stream) else None.

(** [uint(sizeBuf[0]) | uint(sizeBuf[1])<<8 | ...] *)
Definition frame_size (sizeBuf : bytes) : Z :=
  match sizeBuf with
  | [b0; b1; b2; b3] =>
      Z.lor (Z.lor (Z.lor (Z_of_byte b0) (Z.shiftl (Z_of_byte b1) 8)) (Z.shiftl (Z_of_byte b2) 16)) (Z.shiftl (Z_of_byte b3) 24)
  | _ => 0
  end.

(** The loop, for at most [fuel] frames: the messages handed to the handler.  The
    buffer is copied by [Unmarshal] before the next frame is read into it. *)
Fixpoint read_frames (fuel : nat) (stream : bytes) : list bytes :=
  match fuel with
  | O => []
  | S fuel' =>
      match ReadFull 4 stream with
      | None => []
      | Some (sizeBuf, rest) =>
          let msgLen := frame_size sizeBuf in
          if msgLen =? 0 then read_frames fuel' rest
          else
            match ReadFull (Z.to_nat msgLen) rest with
            | None => []
            | Some (data, rest') => data :: read_frames fuel' rest'
            end
      end
  end.

(** A stream of [n] bytes has fewer than [n + 1] frames. *)
Definition frames (stream : bytes) : list bytes := read_frames (S (length stream)) stream.

(** The session: each message handled in order, its error logged only. *)
Definition serveSession (handle : bytes -> option error) (stream : bytes) : list (option error) := map handle (frames stream).

(** * Sessions *)

(** [sessionCount], the calls of the connect handler, and the sessions whose
    goroutine runs ([refCount]). *)
Record Sessions := mkSessions { sessionCount : Z; connects : list (Z * bool); refs : list Z }.

(** [func (s *Server) addHandler]: the response, and the session if one begins;
    [stream] is the hijacked stream's id, [None] if the writer has none. *)
Definition addHandler (proto : string) (stream : option Z) (r : Request) (st : Sessions) : io Sessions :=
  if negb (String.eqb (Method r) "CONNECT") then http_Error "expected CONNECT request" 405 ;; Ret st
  else if negb (String.eqb proto "webtransport") then http_Error "invalid protocol" 400 ;; Ret st
  else
    WriteHeader 200
      (match stream with
       | None => http_Error "stream hijacking not supported" 500 ;; Ret st
       | Some sid => Ret (mkSessions (add64 (sessionCount st) 1) (connects st ++ [(sid, true)]) (refs st ++ [sid]))
       end).

(** The goroutine's deferred calls, when [serveSession] has returned. *)
Definition end_session (i : nat) (st : Sessions) : option Sessions :=
  sid ← refs st !! i;
  Some (mkSessions (sub64 (sessionCount st) 1) (connects st ++ [(sid, false)]) (delete i (refs st))).

(** [func (s *Server) Stop]: after cancelling and closing, [refCount.Wait()]. *)
Definition Stop_ready (st : Sessions) : bool := (length (refs st) =? 0)%nat.

Inductive session_event := EConnect (sid : Z) | EEnd (i : nat).
Definition session_step (e : session_event) (st : Sessions) : option Sessions :=
  match e with
  | EConnect sid => Some (fst (run (addHandler "webtransport" (Some sid) (mkRequest "CONNECT" "" ∅ []) st) fresh_response))
  | EEnd i => end_session i st
  end.
Fixpoint session_run (es : list session_event) (st : Sessions) : option Sessions :=
  match es with
  | [] => Some st
  | e :: es' => st' ← session_step e st; session_run es' st'
  end.
Definition no_sessions : Sessions := mkSessions 0 [] [].

(** [func (s *Server) listenAndEndpoint]: the endpoint's host, here without the
    brackets of an IPv6 address. *)
Definition listenAndEndpoint (addr : bytes) : bytes + error :=
  match SplitHostPort addr with
  | inr err => inr err
  | inl (host, port) => inl (local_host host ++ ":"%char :: port)
  end.

(** [func checkSameOrigin], [func equalASCIIFold] on ASCII strings; [host_of] is
    [url.Parse] and the host. *)
Fixpoint equalASCIIFold (s t : string) : bool :=
  match s, t with
  | String a s', String b t' => Ascii.eqb (lower_char a) (lower_char b) && equalASCIIFold s' t'
  | EmptyString, EmptyString => true
  | _, _ => false
  end.
Definition checkSameOrigin (host_of : string -> option string) (host : string) (r : Request) : bool :=
  let origin := header_Get "Origin" (req_Header r) in
  if String.eqb origin "" then true
  else match host_of origin with
       | None => false
       | Some h => equalASCIIFold h host
       end.

(** * Properties *)

(** How a peer frames a message. *)
Definition frame (m : bytes) : bytes := le_put 4 (Z.of_nat (length m)) ++ m.

Lemma frame_size_le_get bs : length bs = 4%nat -> frame_size bs = le_get bs.
Proof.
  destruct bs as [|b0 [|b1 [|b2 [|b3 [|? ?]]]]]; try done. intros _. cbn [frame_size le_get].
  pose proof (Z_of_byte_range b0). pose proof (Z_of_byte_range b1). pose proof (Z_of_byte_range b2). pose proof (Z_of_byte_range b3).
  rewrite Z.shiftl_0_l, Z.lor_0_r, !Z.shiftl_lor, !Z.shiftl_shiftl by lia. cbn [Z.add Pos.add Pos.succ].
  by rewrite !Z.lor_assoc.
Qed.

Lemma ReadFull_app n a b : length a = n -> ReadFull n (a ++ b) = Some (a, b).
Proof.
  intros <-. unfold ReadFull. rewrite length_app. replace (length a <=? length a + length b)%nat with true by (symmetry; apply Nat.leb_le; lia).
  by rewrite take_app_length, drop_app_length.
Qed.

(** The loop with enough fuel does not depend on it. *)
Lemma read_frames_fuel n m stream : (length stream < n)%nat -> (length stream < m)%nat -> read_frames n stream = read_frames m stream.
Proof.
  revert m stream. induction n as [|n IH]; intros [|m] stream Hn Hm; try lia. cbn [read_frames].
  destruct (ReadFull 4 stream) as [[sb rest]|] eqn:E; [|done].
  assert (length rest + 4 <= length stream)%nat as Hl.
  { unfold ReadFull in E. destruct (4 <=? length stream)%nat eqn:E4; [|done]. simplify_eq. rewrite length_drop. apply Nat.leb_le in E4. lia. }
  destruct (frame_size sb =? 0); [apply IH; lia|].
  destruct (ReadFull (Z.to_nat (frame_size sb)) rest) as [[data rest']|] eqn:E'; [|done]. f_equal.
  assert (length rest' <= length rest)%nat.
  { unfold ReadFull in E'. destruct (_ <=? length rest)%nat; [|done]. simplify_eq. rewrite length_drop. lia. }
  apply IH; lia.
Qed.

(** One frame at the head of the stream; an empty one is skipped. *)
Lemma frames_cons m stream :
  Z.of_nat (length m) < 2 ^ 32 -> frames (frame m ++ stream) = (if (length m =? 0)%nat then [] else [m]) ++ frames stream.
Proof.
  intros Hm. unfold frames at 1. unfold frame at 2. rewrite <- (assoc app). cbn [read_frames].
  rewrite ReadFull_app by apply le_put_length. rewrite frame_size_le_get by apply le_put_length.
  rewrite le_get_put, Z.mod_small by (simpl; lia).
  assert (length stream < length (frame m ++ stream))%nat as Hl by (unfold frame; rewrite !length_app, le_put_length; lia).
  destruct (Nat.eqb_spec (length m) 0) as [E|E].
  - apply nil_length_inv in E as ->. cbn [length Z.of_nat Z.eqb app]. apply read_frames_fuel; lia.
  - replace (Z.of_nat (length m) =? 0) with false by (symmetry; apply Z.eqb_neq; lia).
    rewrite Nat2Z.id, ReadFull_app by done. cbn [app]. f_equal. apply read_frames_fuel; lia.
Qed.

(** A stream cut before a frame is complete. *)
Definition cut (tail : bytes) : Prop := (length tail < 4)%nat \/ exists m k, tail = take k (frame m) /\ (k < length (frame m))%nat /\
  Z.of_nat (length m) < 2 ^ 32.

Lemma frames_cut tail : cut tail -> frames tail = [].
Proof.
  unfold frames, cut. intros [Hl|(m&k&->&Hk&Hm)]; cbn [read_frames].
  - unfold ReadFull. replace (4 <=? length tail)%nat with false by (symmetry; apply Nat.leb_gt; lia). done.
  - destruct (le_lt_dec 4 k) as [H4|H4].
    + assert (take k (frame m) = le_put 4 (Z.of_nat (length m)) ++ take (k - 4) m) as ->.
      { unfold frame. rewrite take_app, le_put_length, take_ge; [done|]. rewrite le_put_length. lia. }
      rewrite ReadFull_app by apply le_put_length. rewrite frame_size_le_get by apply le_put_length.
      rewrite le_get_put, Z.mod_small by (simpl; lia).
      assert (k - 4 < length m)%nat as Hk' by (unfold frame in Hk; rewrite length_app, le_put_length in Hk; lia).
      replace (Z.of_nat (length m) =? 0) with false by (symmetry; apply Z.eqb_neq; lia).
      unfold ReadFull. rewrite Nat2Z.id. replace (length m <=? length (take (k - 4) m))%nat with false; [done|].
      symmetry. apply Nat.leb_gt. rewrite length_take. lia.
    + unfold ReadFull. replace (4 <=? length (take k (frame m)))%nat with false; [done|].
      symmetry. apply Nat.leb_gt. rewrite length_take. lia.
Qed.

Section session_facts.
Context {T : Type}
  (gob_Encode : value T -> bytes + error) (gob_Decode : bytes -> value T -> option error * value T).

(** What handling a typed message means: its handler, with the decoded body. *)
Definition delivers (s : Server T) (sid t : Z) (body : bytes) : option error :=
  match messageHandlers s !! t with
  | None => Some (Errorf "message handler not found")
  | Some h =>
      match decode_body gob_Decode (codec s) (Binder h) body with
      | inr err => Some err
      | inl payload => Handler h sid payload
      end
  end.

(** What handling one frame means: the type is its first four bytes, and a frame
    shorter than that is an error of that frame only. *)
Definition outcome (s : Server T) (sid : Z) (p : bytes) : option error :=
  if (length p <? 4)%nat then Some io_ErrUnexpectedEOF else delivers s sid (le_get (take 4 p)) (drop 4 p).

Lemma messageHandler_outcome s sid p : p <> [] -> messageHandler gob_Decode s sid p = outcome s sid p.
Proof.
  intros Hp. unfold messageHandler, outcome, delivers, NetPacket.Unmarshal.
  destruct (Nat.eqb_spec (length p) 0) as [E|_]; [by apply nil_length_inv in E|]. by destruct (length p <? 4)%nat.
Qed.

Lemma outcome_message s sid t body : in_uint32 t -> outcome s sid (le_put 4 t ++ body) = delivers s sid t body.
Proof.
  intros Ht. unfold outcome. rewrite length_app, le_put_length.
  replace (4 + length body <? 4)%nat with false by (symmetry; apply Nat.ltb_ge; lia).
  rewrite take_app_length', drop_app_length', le_get_put, Z.mod_small by first [by rewrite le_put_length|exact Ht]. done.
Qed.

(** C39: a session delivers.  Whatever frames a peer writes to its stream, of any
    content and length, the message handler runs once for each frame that is not
    empty, in order: an empty frame is skipped and does not end the session, a
    frame too short for a message type is an error of its own, and for the others
    the handler registered for the type is called with the body its codec decodes;
    no error, of a short frame, an unregistered type, a body that cannot be decoded
    or a handler, stops the session, and a stream cut in the middle of a frame
    delivers exactly the complete frames before.  A message of type [t] as the
    packet format encodes it is handled as type [t] with exactly its body. *)
Theorem webtransport_session s sid (ps : list bytes) tail :
  Forall (fun p => Z.of_nat (length p) < 2 ^ 32) ps -> cut tail ->
  serveSession (messageHandler gob_Decode s sid) (concat (map frame ps) ++ tail) =
    map (outcome s sid) (filter (fun p => p <> []) ps) /\
  forall t body, in_uint32 t -> outcome s sid (le_put 4 t ++ body) = delivers s sid t body.
Proof.
  intros Hp Hc. split; [|intros; by apply outcome_message]. unfold serveSession. induction Hp as [|p ps Hl _ IH].
  - simpl. by rewrite frames_cut.
  - cbn [map concat]. rewrite <- (assoc app), frames_cons, filter_cons by done.
    destruct p as [|b p]; [by rewrite decide_False by (intros H; by apply H)|].
    rewrite decide_True by done. cbn [length Nat.eqb app map]. by rewrite messageHandler_outcome, IH.
Qed.

(** The client reports success for every message and sends none. *)
Theorem webtransport_client_sends_nothing (c : Client T) t message : client_SendMessage gob_Encode c t message = None.
Proof. unfold client_SendMessage, SendRawData. by destruct (Marshal gob_Encode (cl_codec c) message). Qed.
End session_facts.

(** An empty frame, a message, a frame of two bytes, a message of an unknown type,
    and a cut frame. *)
Lemma webtransport_session_witness :
  let s := RegisterMessageHandler 7 (fun sid v => match v with AValue (GBytes b) => Some (Errorf (text b)) | _ => None end) None
             (mkServer (T := unit) None ∅) in
  let no_gob := fun (_ : bytes) (v : value unit) => (None, v) in
  serveSession (messageHandler no_gob s 1)
    (concat (map frame [[]; le_put 4 7 ++ chars "hi"; chars "ab"; le_put 4 8]) ++ chars "x") =
    [Some (Errorf "hi"); Some io_ErrUnexpectedEOF; Some (Errorf "message handler not found")].
Proof.
  intros s no_gob.
  refine (eq_trans (proj1 (webtransport_session no_gob s 1 [[]; le_put 4 7 ++ chars "hi"; chars "ab"; le_put 4 8] (chars "x") _ _)) _);
    [| |reflexivity].
  - repeat constructor; vm_compute; congruence.
  - left. vm_compute. lia.
Defined.

(** ** The accounting of sessions *)

Definition count_calls (sid : Z) (b : bool) (l : list (Z * bool)) : nat := length (filter (fun c => c = (sid, b)) l).
Definition running_of (sid : Z) (l : list Z) : nat := length (filter (fun s => s = sid) l).

Record sessions_ok (st : Sessions) : Prop := {
  so_count : sessionCount st = wrap64 (Z.of_nat (length (refs st)));
  so_calls sid : count_calls sid true (connects st) = (count_calls sid false (connects st) + running_of sid (refs st))%nat
}.

Lemma count_calls_snoc sid b l c : count_calls sid b (l ++ [c]) = (count_calls sid b l + if decide (c = (sid, b)) then 1 else 0)%nat.
Proof. unfold count_calls. rewrite filter_app, length_app, filter_cons. by case_decide. Qed.

Lemma session_step_ok e st st' : sessions_ok st -> session_step e st = Some st' -> sessions_ok st'.
Proof.
  intros [Hc Hcalls] H. destruct e as [sid|i]; cbn [session_step] in H.
  - injection H as <-. cbn. split; cbn [sessionCount connects refs].
    + rewrite Hc, length_app. unfold add64. rewrite wrap64_add. f_equal. simpl. lia.
    + intros sid'. rewrite !count_calls_snoc, Hcalls. unfold running_of. rewrite filter_app, length_app, filter_cons, filter_nil.
      destruct (decide (sid = sid')) as [->|Hne].
      * rewrite (decide_True (P := (sid', true) = (sid', true))), (decide_False (P := (sid', true) = (sid', false))) by done.
        simpl. lia.
      * rewrite !decide_False by congruence. simpl. lia.
  - unfold end_session in H. apply bind_Some in H as (sid&Hi&[= <-]). split; cbn [sessionCount connects refs].
    + rewrite Hc, length_delete by eauto. apply lookup_lt_Some in Hi. unfold sub64. rewrite <- Z.add_opp_r, wrap64_add. f_equal. lia.
    + intros sid'. rewrite !count_calls_snoc, Hcalls.
      assert (running_of sid' (refs st) = (running_of sid' (delete i (refs st)) + if decide (sid = sid') then 1 else 0)%nat) as ->.
      { rewrite (delete_take_drop (refs st) i). rewrite <- (take_drop_middle (refs st) i sid Hi) at 1. unfold running_of.
        rewrite !filter_app, !length_app, filter_cons. case_decide; simpl; lia. }
      rewrite (decide_False (P := (sid, false) = (sid', true))) by congruence.
      destruct (decide (sid = sid')) as [->|]; [rewrite decide_True by done|rewrite decide_False by congruence]; lia.
Qed.

(** The server accounts for its sessions: at every moment the counter is the
    number of sessions whose goroutine runs, the connect handler has been told of
    each session's end as often as of its beginning, less those still running,
    and [Stop] stops waiting exactly when none is. *)
Theorem webtransport_accounting es st :
  session_run es no_sessions = Some st ->
  sessions_ok st /\ (Stop_ready st = true <-> forall sid, count_calls sid true (connects st) = count_calls sid false (connects st)).
Proof.
  intros Hrun.
  assert (sessions_ok st) as Hok.
  { assert (sessions_ok no_sessions) as H0 by (by split). revert H0 Hrun. generalize no_sessions. induction es as [|e es IH]; intros s0 H0 Hrun.
    - by injection Hrun as <-.
    - apply bind_Some in Hrun as (s1&H1&H2). eauto using session_step_ok. }
  split; [done|]. unfold Stop_ready. rewrite Nat.eqb_eq. split.
  - intros Hz. apply nil_length_inv in Hz. intros sid. rewrite (so_calls _ Hok), Hz. simpl. change (running_of sid []) with 0%nat. lia.
  - intros Heq. destruct (refs st) as [|sid l] eqn:E; [done|]. specialize (Heq sid). rewrite (so_calls _ Hok), E in Heq.
    unfold running_of in Heq. rewrite filter_cons, decide_True in Heq by done. simpl in Heq. lia.
Qed.

Lemma webtransport_accounting_witness :
  exists st, session_run [EConnect 4; EConnect 8; EEnd 0] no_sessions = Some st /\ sessionCount st = 1 /\ Stop_ready st = false /\
    count_calls 4 true (connects st) = count_calls 4 false (connects st).
Proof.
  set (st := default no_sessions (session_run [EConnect 4; EConnect 8; EEnd 0] no_sessions)).
  assert (session_run [EConnect 4; EConnect 8; EEnd 0] no_sessions = Some st) as Hrun by reflexivity.
  exists st. split; [exact Hrun|]. split; [reflexivity|]. split; [reflexivity|].
  destruct (webtransport_accounting _ st Hrun) as [Hok _]. rewrite (so_calls _ Hok 4). reflexivity.
Defined.

(** The published host of an IPv6 address cannot be split again. *)
Example ipv6_endpoint_broken :
  listenAndEndpoint (chars "[::1]:443") = inl (chars "::1:443") /\
  SplitHostPort (chars "::1:443") = inr (Errorf "address ::1:443: too many colons in address").
Proof. split; reflexivity. Qed.
