(* ===== verification/MessageServer.v ===== *)
(** The servers of [transport/kafka], [mqtt], [nats], [rabbitmq], [redis] and
    [rocketmq], with the options of [broker/subscribe_options.go] they build.

    The six [server.go] files are one program with different names and different
    ways to register a subscriber: [Start], [Stop], [doRegisterSubscriber],
    [doRegisterSubscriberMap] and [wrapHandler] have the same text and are modelled
    once, with the server's name as argument; a module per package has what
    differs.  The broker of a package is behind the interface [broker.Broker],
    here the class [Broker] over the state of the broker object; which
    subscriptions are live is what its laws speak about.  [RegisterSubscriber]
    holds the server's lock and [Start] and [Stop] do not; calls are taken one
    after the other. *)
From Stdlib Require Import ZArith Lia.
From S2P Require Import Prelude Float64 GoTime GoErrors Broker BrokerCodec.
From stdpp Require Import base gmap strings list fin_maps.
Open Scope string_scope.
Open Scope list_scope.
Open Scope Z_scope.

(** * [broker/subscribe_options.go] *)

Module subscribe_options.
Section options.
Context {C MW : Type} (Background : C).

(** [type SubscribeOptions struct]; a nil context is [None]. *)
Record SubscribeOptions := mkSubscribeOptions {
  so_Context : option C;
  AutoAck : bool;
  Queue : string;
  Concurrency : Z;
  MaxRetries : Z;
  RetryDelay : Duration;
  Middlewares : list MW
}.

Abbreviation SubscribeOption := (SubscribeOptions -> SubscribeOptions).

(** [func NewSubscribeOptions(opts ...SubscribeOption) SubscribeOptions], with
    [Apply] *)
Definition NewSubscribeOptions (opts : list SubscribeOption) : SubscribeOptions :=
  apply_opts opts (mkSubscribeOptions (Some Background) true "" 1 0 0 []).

(** The setters; [with_value] is [context.WithValue(ctx, k, v)]. *)
Definition SubscribeContextWithValue (with_value : C -> C) : SubscribeOption := fun o =>
  mkSubscribeOptions (Some (with_value (default Background (so_Context o)))) (AutoAck o) (Queue o) (Concurrency o)
    (MaxRetries o) (RetryDelay o) (Middlewares o).

Definition WithSubscribeAutoAck (b : bool) : SubscribeOption := fun o =>
  mkSubscribeOptions (so_Context o) b (Queue o) (Concurrency o) (MaxRetries o) (RetryDelay o) (Middlewares o).

Definition DisableAutoAck : SubscribeOption := fun o =>
  mkSubscribeOptions (so_Context o) false (Queue o) (Concurrency o) (MaxRetries o) (RetryDelay o) (Middlewares o).

Definition WithSubscribeQueueName (name : string) : SubscribeOption := fun o =>
  mkSubscribeOptions (so_Context o) (AutoAck o) name (Concurrency o) (MaxRetries o) (RetryDelay o) (Middlewares o).

Definition WithSubscribeGroupID (id : string) : SubscribeOption := WithSubscribeQueueName id.

Definition WithSubscribeContext (ctx : option C) : SubscribeOption := fun o =>
  mkSubscribeOptions ctx (AutoAck o) (Queue o) (Concurrency o) (MaxRetries o) (RetryDelay o) (Middlewares o).

Definition WithSubscribeConcurrency (n : Z) : SubscribeOption := fun o =>
  mkSubscribeOptions (so_Context o) (AutoAck o) (Queue o) n (MaxRetries o) (RetryDelay o) (Middlewares o).

Definition WithSubscribeRetry (maxRetries : Z) (delay : Duration) : SubscribeOption := fun o =>
  mkSubscribeOptions (so_Context o) (AutoAck o) (Queue o) (Concurrency o) maxRetries delay (Middlewares o).

Definition WithSubscribeMiddlewares (mws : list MW) : SubscribeOption := fun o =>
  mkSubscribeOptions (so_Context o) (AutoAck o) (Queue o) (Concurrency o) (MaxRetries o) (RetryDelay o)
    (Middlewares o ++ mws).
End options.
Arguments SubscribeOptions : clear implicits.
End subscribe_options.
Import subscribe_options.

(** * [broker.Broker], as the servers use it

    [Sub] are the subscribers, [H] the handlers, [Bd] the binders and [SO] the
    subscribe options. *)
Class Broker (B Sub H Bd SO : Type) := {
  Init : B -> option error * B;
  Connect : B -> option error * B;
  Disconnect : B -> option error * B;
  Subscribe : string -> H -> Bd -> list SO -> B -> (Sub + error) * B;
  Unsubscribe : Sub -> bool -> B -> option error * B
}.

(** Which subscriptions count as live, as the calls decide it: a successful [Subscribe]
    adds a new one, a failed one adds none; an [Unsubscribe] that returns no error ends its
    own; no other call starts one.  [ledger] below has these laws for every driver, of the
    subscriptions the driver has answered for.  Whether such a subscription receives
    messages is the driver's matter; the MQTT driver and the RocketMQ v5 driver may have
    lost one they did not report ([Mqtt], [Rocket]). *)
Class BrokerLaws {B Sub H Bd SO} (ops : Broker B Sub H Bd SO) (live : B -> Sub -> Prop) := {
  live_Init b x : live (snd (Init b)) x <-> live b x;
  live_Connect b x : live (snd (Connect b)) x <-> live b x;
  live_Disconnect b x : live (snd (Disconnect b)) x -> live b x;
  live_Subscribe topic h bd opts b :
    match Subscribe topic h bd opts b with
    | (inl s, b') => ~ live b s /\ forall x, live b' x <-> x = s \/ live b x
    | (inr _, b') => forall x, live b' x <-> live b x
    end;
  live_Unsubscribe s r b x : x <> s -> live (snd (Unsubscribe s r b)) x <-> live b x;
  live_Unsubscribed s r b : fst (Unsubscribe s r b) = None -> ~ live (snd (Unsubscribe s r b)) s;
  live_Unsubscribe_old s r b : live (snd (Unsubscribe s r b)) s -> live b s
}.

(** * Metrics and typed handlers *)

(** [metrics.Metrics], as far as the servers call it, over a store [X]. *)
Record Metrics (C X : Type) := mkMetrics {
  Counter : C -> string -> float64 -> gmap string string -> Go X unit;
  Histogram : C -> string -> float64 -> gmap string string -> Go X unit
}.
Arguments mkMetrics {C X}.
Arguments Counter {C X}.
Arguments Histogram {C X}.

Definition go_Now {X} `{Runtime X} : Go X Time := fun x => let '(t, x') := time_Now x in (Returned t, x').

Section handlers.
Context {T C X : Type} `{Runtime X} (tname : string).

Abbreviation Handler := (C -> Event (T := T) -> Go X (option error)).

(** [func (s *Server) wrapHandler(topic string, handler broker.Handler) broker.Handler];
    [name] is [s.Name()]. *)
Definition wrapHandler (name : string) (m : option (Metrics C X)) (topic : string) (handler : Handler) : Handler :=
  match m with
  | None => handler
  | Some m => fun ctx event =>
      startTime ← go_Now;
      let labels := <["broker" := name]> {["topic" := topic]} in
      Counter m ctx "broker.messages.received" (f_of_Z 1) labels ;;
      err ← handler ctx event;
      now ← go_Now;
      Histogram m ctx "broker.message.duration" (Seconds (time_sub now startTime)) labels ;;
      (match err with
       | Some _ =>
           Counter m ctx "broker.messages.errors" (f_of_Z 1)
             (<["broker" := name]> (<["topic" := topic]> {["error" := "true"]}))
       | None => mret tt
       end) ;;
      mret err
  end.

(** The handler and the binder [func RegisterSubscriber[T any]] passes on: a nil
    message is a nil dereference, a nil body prints as [<nil>]. *)
Definition typed_handler (handler : C -> string -> option Headers -> T -> Go X (option error)) : Handler := fun ctx event =>
  match evt_Message event with
  | None => go_panic
  | Some msg =>
      match Body msg with
      | Some (AValue (GPtr t)) =>
          err ← handler ctx (evt_Topic event) (msg_Headers msg) t;
          match err with
          | Some e => mret (Some e)
          | None => mret None
          end
      | Some v => mret (Some (Errorf ("unsupported type: " ++ value_text tname v)))
      | None => mret (Some (Errorf "unsupported type: <nil>"))
      end
  end.

Definition typed_binder (zero : T) : unit -> gv T := fun _ => GPtr zero.
End handlers.

(** * The server *)

Section server.
Context {B Sub T C X MW BO : Type} `{Runtime X}.

Abbreviation Handler := (C -> Event (T := T) -> Go X (option error)).
Abbreviation Binder := (option (unit -> gv T)).
Abbreviation SubOpts := (SubscribeOptions C MW).

(** [transport.SubscribeOption] *)
Record SubscribeOption := mkSubscribeOption {
  so_Handler : Handler;
  so_Binder : Binder;
  so_SubscribeOptions : list (SubOpts -> SubOpts)
}.

(** [type Server struct] *)
Record Server := mkServer {
  srv_Broker : B;
  brokerOpts : list BO;
  m : option (Metrics C X);
  subscribers : gmap string Sub;
  subscriberOpts : gmap string SubscribeOption;
  started : bool;
  baseCtx : option C;
  err : option error
}.

Definition set_Broker (b : B) (s : Server) : Server :=
  mkServer b (brokerOpts s) (m s) (subscribers s) (subscriberOpts s) (started s) (baseCtx s) (err s).
Definition set_err (e : option error) (s : Server) : Server :=
  mkServer (srv_Broker s) (brokerOpts s) (m s) (subscribers s) (subscriberOpts s) (started s) (baseCtx s) e.
Definition set_subscribers (x : gmap string Sub) (s : Server) : Server :=
  mkServer (srv_Broker s) (brokerOpts s) (m s) x (subscriberOpts s) (started s) (baseCtx s) (err s).
Definition set_subscriberOpts (x : gmap string SubscribeOption) (s : Server) : Server :=
  mkServer (srv_Broker s) (brokerOpts s) (m s) (subscribers s) x (started s) (baseCtx s) (err s).
Definition set_started (x : bool) (s : Server) : Server :=
  mkServer (srv_Broker s) (brokerOpts s) (m s) (subscribers s) (subscriberOpts s) x (baseCtx s) (err s).
Definition set_baseCtx (x : option C) (s : Server) : Server :=
  mkServer (srv_Broker s) (brokerOpts s) (m s) (subscribers s) (subscriberOpts s) (started s) x (err s).
Definition set_brokerOpts (x : list BO) (s : Server) : Server :=
  mkServer (srv_Broker s) x (m s) (subscribers s) (subscriberOpts s) (started s) (baseCtx s) (err s).
Definition set_m (x : option (Metrics C X)) (s : Server) : Server :=
  mkServer (srv_Broker s) (brokerOpts s) x (subscribers s) (subscriberOpts s) (started s) (baseCtx s) (err s).

Context {ops : Broker B Sub Handler Binder (SubOpts -> SubOpts)}.

(** [range] on a map: any order of its entries. *)
Context (range : forall A, gmap string A -> list (string * A)).
Context (name : string).

(** [func (s *Server) doRegisterSubscriber] *)
Definition doRegisterSubscriber (topic : string) (handler : Handler) (binder : Binder) (opts : list (SubOpts -> SubOpts))
    (s : Server) : option error * Server :=
  let handler := wrapHandler name (m s) topic handler in
  match Subscribe topic handler binder opts (srv_Broker s) with
  | (inr e, b) => (Some e, set_Broker b s)
  | (inl sub, b) => (None, set_subscribers (<[topic := sub]> (subscribers s)) (set_Broker b s))
  end.

Fixpoint register_loop (pending : list (string * SubscribeOption)) (errs : list error) (s : Server) : list error * Server :=
  match pending with
  | [] => (errs, s)
  | (topic, opt) :: pending' =>
      match doRegisterSubscriber topic (so_Handler opt) (so_Binder opt) (so_SubscribeOptions opt) s with
      | (Some e, s') => register_loop pending' (errs ++ [e]) s'
      | (None, s') => register_loop pending' errs s'
      end
  end.

(** [func (s *Server) doRegisterSubscriberMap() error] *)
Definition doRegisterSubscriberMap (s : Server) : option error * Server :=
  let '(errs, s1) := register_loop (range _ (subscriberOpts s)) [] s in
  (errors_Join (map Some errs), set_subscriberOpts ∅ s1).

(** [func (s *Server) Start(ctx context.Context) error] *)
Definition Start (ctx : C) (s : Server) : option error * Server :=
  match err s with
  | Some e => (Some e, s)
  | None =>
      if started s then (None, s)
      else
        let '(e1, b1) := Init (srv_Broker s) in
        let s1 := set_err e1 (set_Broker b1 s) in
        match e1 with
        | Some e => (Some e, s1)
        | None =>
            let '(e2, b2) := Connect (srv_Broker s1) in
            let s2 := set_err e2 (set_Broker b2 s1) in
            match e2 with
            | Some e => (Some e, s2)
            | None =>
                let '(e3, s3) := doRegisterSubscriberMap s2 in
                match e3 with
                | Some e => (Some e, set_err e3 s3)
                | None => (None, set_started true (set_baseCtx (Some ctx) (set_err e3 s3)))
                end
            end
        end
  end.

Fixpoint unsubscribe_all (subs : list (string * Sub)) (b : B) : B :=
  match subs with
  | [] => b
  | (_, v) :: subs' => unsubscribe_all subs' (snd (Unsubscribe v false b))
  end.

(** [func (s *Server) Stop(ctx context.Context) error] *)
Definition Stop (s : Server) : option error * Server :=
  if negb (started s) then (None, s)
  else
    let s1 := set_Broker (unsubscribe_all (range _ (subscribers s)) (srv_Broker s)) s in
    let s2 := set_started false (set_subscriberOpts ∅ (set_subscribers ∅ s1)) in
    let '(e, b) := Disconnect (srv_Broker s2) in
    (e, set_err None (set_Broker b s2)).

(** The end of every [RegisterSubscriber], the options being complete. *)
Definition register (topic : string) (handler : Handler) (binder : Binder) (opts : list (SubOpts -> SubOpts))
    (s : Server) : option error * Server :=
  if started s then doRegisterSubscriber topic handler binder opts s
  else (None, set_subscriberOpts (<[topic := mkSubscribeOption handler binder opts]> (subscriberOpts s)) s).

(** The [Server] literal of the constructors, before the options are applied and
    the broker is made. *)
Definition zero_server (Background : C) (b : B) : Server := mkServer b [] None ∅ ∅ false (Some Background) None.

(** [func (s *Server) init(opts ...ServerOption)] *)
Definition init (NewBroker : list BO -> B) (opts : list (Server -> Server)) (s : Server) : Server :=
  let s1 := apply_opts opts s in set_Broker (NewBroker (brokerOpts s1)) s1.
End server.
Arguments SubscribeOption : clear implicits.
Arguments Server : clear implicits.

(** * The six packages *)

Section register_variants.
Context {B Sub T C X MW BO : Type} `{Runtime X}.
Context {ops : Broker B Sub (C -> Event (T := T) -> Go X (option error)) (option (unit -> gv T)) (SubscribeOptions C MW -> SubscribeOptions C MW)}.
Abbreviation Srv := (Server B Sub T C X MW BO).
Abbreviation Opt := (SubscribeOptions C MW -> SubscribeOptions C MW).

(** [func WithBrokerOptions(opts ...broker.Option) ServerOption]; the other options
    of the packages append options of their own in the same way. *)
Definition WithBrokerOptions (opts : list BO) : Srv -> Srv := fun s => set_brokerOpts (brokerOpts s ++ opts) s.

(** [func WithMetrics(m metrics.Metrics) ServerOption] *)
Definition WithMetrics (x : option (Metrics C X)) : Srv -> Srv := set_m x.

(** [transport/kafka]: [RegisterSubscriber] *)
Definition kafka_RegisterSubscriber (ctx : option C) (topic queue : string) (disableAutoAck : bool) handler binder
    (opts : list Opt) (s : Srv) : option error * Srv :=
  let opts := opts ++ [WithSubscribeQueueName queue] in
  let opts := if disableAutoAck then opts ++ [WithSubscribeAutoAck false] else opts in
  let opts := [WithSubscribeContext ctx] ++ opts in
  register "kafka" topic handler binder opts s.

(** [transport/mqtt] *)
Definition mqtt_RegisterSubscriber (ctx : option C) (topic : string) handler binder (opts : list Opt) (s : Srv) :
    option error * Srv :=
  let opts := [WithSubscribeContext ctx] ++ opts in
  register "mqtt" topic handler binder opts s.

(** [transport/nats] *)
Definition nats_RegisterSubscriber (topic : string) handler binder (opts : list Opt) (s : Srv) : option error * Srv :=
  register "nats" topic handler binder opts s.

(** [transport/redis] *)
Definition redis_RegisterSubscriber (topic : string) handler binder (opts : list Opt) (s : Srv) : option error * Srv :=
  register "redis" topic handler binder opts s.

(** [transport/rabbitmq]: a nil context is replaced by the server's. *)
Definition rabbitmq_RegisterSubscriber (Background : C) (ctx : option C) (routingKey : string) handler binder (opts : list Opt)
    (s : Srv) : option error * Srv :=
  let s := match baseCtx s with None => set_baseCtx (Some Background) s | Some _ => s end in
  let ctx := match ctx with None => baseCtx s | Some _ => ctx end in
  let opts := [WithSubscribeContext ctx] ++ opts in
  register "rabbitmq" routingKey handler binder opts s.

(** [transport/rocketmq] *)
Definition rocketmq_RegisterSubscriber (Background : C) (ctx : option C) (topic groupName : string) handler binder (opts : list Opt)
    (s : Srv) : option error * Srv :=
  let s := match baseCtx s with None => set_baseCtx (Some Background) s | Some _ => s end in
  let ctx := match ctx with None => baseCtx s | Some _ => ctx end in
  let opts := opts ++ [WithSubscribeQueueName groupName] in
  let opts := [WithSubscribeContext ctx] ++ opts in
  register "rocketmq" topic handler binder opts s.
End register_variants.

(** The constructors: what a package makes its broker from. *)
Section constructors.
Context {B Sub T C X MW BO : Type} (Background : C) (nil_broker : B).
Abbreviation Srv := (Server B Sub T C X MW BO).

Definition kafka_NewServer (NewBroker : list BO -> B) (opts : list (Srv -> Srv)) : Srv :=
  init NewBroker opts (zero_server Background nil_broker).

Definition mqtt_NewServer (NewBroker : list BO -> B) (opts : list (Srv -> Srv)) : Srv :=
  init NewBroker opts (zero_server Background nil_broker).

Definition rabbitmq_NewServer (NewBroker : list BO -> B) (opts : list (Srv -> Srv)) : Srv :=
  init NewBroker opts (zero_server Background nil_broker).

(** [useJetStream] is one more field of the server, set by an option. *)
Definition nats_NewServer (NewBroker NewJetStreamBroker : list BO -> B) (useJetStream : bool) (opts : list (Srv -> Srv)) : Srv :=
  init (fun bo => if useJetStream then NewJetStreamBroker bo else NewBroker bo) opts (zero_server Background nil_broker).

(** [WithReadTimeout] and [WithIdleTimeout] of [broker/redis]; the driver type is
    one more field, set by an option. *)
Definition redis_NewServer {D} (NewBroker : D -> list BO -> B) (WithReadTimeout WithIdleTimeout : Duration -> BO) (driverType : D)
    (opts : list (Srv -> Srv)) : Srv :=
  let hours24 := 24 * 3600 * Second in
  let opts := opts ++ [WithBrokerOptions [WithReadTimeout hours24]] in
  let opts := opts ++ [WithBrokerOptions [WithIdleTimeout hours24]] in
  init (NewBroker driverType) opts (zero_server Background nil_broker).

Definition rocketmq_NewServer {D} (NewBroker : D -> list BO -> B) (driverType : D) (opts : list (Srv -> Srv)) : Srv :=
  init (NewBroker driverType) opts (zero_server Background nil_broker).
End constructors.

(** The operations with a common text, for the servers of the other packages. *)
Section common.
Context {B Sub T C X MW BO : Type} `{Runtime X}.
Context {ops : Broker B Sub (C -> Event (T := T) -> Go X (option error)) (option (unit -> gv T)) (SubscribeOptions C MW -> SubscribeOptions C MW)}.
Context (range : forall A, gmap string A -> list (string * A)).
Abbreviation Srv := (Server B Sub T C X MW BO).

Definition mqtt_Start : C -> Srv -> option error * Srv := Start range "mqtt".
Definition nats_Start : C -> Srv -> option error * Srv := Start range "nats".
Definition rabbitmq_Start : C -> Srv -> option error * Srv := Start range "rabbitmq".
Definition redis_Start : C -> Srv -> option error * Srv := Start range "redis".
Definition rocketmq_Start : C -> Srv -> option error * Srv := Start range "rocketmq".
Definition mqtt_Stop : Srv -> option error * Srv := Stop range.
Definition nats_Stop : Srv -> option error * Srv := Stop range.
Definition rabbitmq_Stop : Srv -> option error * Srv := Stop range.
Definition redis_Stop : Srv -> option error * Srv := Stop range.
Definition rocketmq_Stop : Srv -> option error * Srv := Stop range.
End common.

(** * Properties *)

(** ** Subscribe options *)

Section option_facts.
Context {C MW : Type} (Background : C).
Abbreviation Opt := (SubscribeOptions C MW -> SubscribeOptions C MW).


(** The queue that is passed to [RegisterSubscriber] wins over the options, as does
    [disableAutoAck]; the context is the one passed, unless an option changes it. *)
Lemma kafka_options (ctx : option C) queue (disable : bool) (opts : list Opt) :
  let o := NewSubscribeOptions Background
    ([WithSubscribeContext ctx] ++
     (if disable then (opts ++ [WithSubscribeQueueName queue]) ++ [WithSubscribeAutoAck false] else opts ++ [WithSubscribeQueueName queue])) in
  Queue o = queue /\ (disable = true -> AutoAck o = false) /\
  (Forall (fun opt : Opt => forall o, so_Context (opt o) = so_Context o) opts -> so_Context o = ctx).
Proof.
  intros o. subst o. unfold NewSubscribeOptions. rewrite apply_opts_app. cbn [apply_opts fold_left].
  set (o0 := WithSubscribeContext ctx _). split_and!.
  - destruct disable; by rewrite !apply_opts_app.
  - intros ->. by rewrite !apply_opts_app.
  - intros Ho. assert (so_Context (apply_opts opts o0) = ctx) as E.
    { apply (apply_opts_preserves (fun o => so_Context o = ctx)); [|done].
      eapply Forall_impl; [exact Ho|]. intros opt Hk o <-. apply Hk. }
    destruct disable; rewrite !apply_opts_app; exact E.
Qed.
End option_facts.

(** ** Subscriptions *)

Section facts.
Context {B Sub T C X MW BO : Type} `{Runtime X} `{EqDecision Sub}.
Context {ops : Broker B Sub (C -> Event (T := T) -> Go X (option error)) (option (unit -> gv T)) (SubscribeOptions C MW -> SubscribeOptions C MW)}.
Context {live : B -> Sub -> Prop} {laws : BrokerLaws ops live}.
Context (range : forall A, gmap string A -> list (string * A)).
Context (range_entries : forall A (x : gmap string A), range A x ≡ₚ map_to_list x).
Context (name : string).
Abbreviation Srv := (Server B Sub T C X MW BO).
Abbreviation Opt := (SubscribeOptions C MW -> SubscribeOptions C MW).

(** The calls a client makes. *)
Inductive op :=
| OpRegister (topic : string) (handler : C -> Event (T := T) -> Go X (option error)) (binder : option (unit -> gv T)) (opts : list Opt)
| OpStart (ctx : C)
| OpStop.

Definition apply_op (o : op) (s : Srv) : option error * Srv :=
  match o with
  | OpRegister topic handler binder opts => register name topic handler binder opts s
  | OpStart ctx => Start range name ctx s
  | OpStop => Stop range s
  end.

(** The subscriptions the server forgets without ending them: the one a started
    server has for a topic that is registered again successfully, and those whose
    [Unsubscribe] fails. *)
Fixpoint failed (subs : list (string * Sub)) (b : B) : list Sub :=
  match subs with
  | [] => []
  | (_, v) :: subs' =>
      let '(e, b') := Unsubscribe v false b in
      match e with Some _ => v :: failed subs' b' | None => failed subs' b' end
  end.

Definition lost (o : op) (s : Srv) : list Sub :=
  match o with
  | OpRegister topic _ _ _ =>
      if started s then match fst (apply_op o s) with None => option_list (subscribers s !! topic) | Some _ => [] end else []
  | OpStart _ => []
  | OpStop => if started s then failed (range _ (subscribers s)) (srv_Broker s) else []
  end.

Fixpoint run_ops (os : list op) (s : Srv) (dropped : list Sub) : Srv * list Sub :=
  match os with
  | [] => (s, dropped)
  | o :: os' => run_ops os' (snd (apply_op o s)) (dropped ++ lost o s)
  end.

Lemma doRegister_accounted topic h bd opts (s : Srv) dropped :
  tracks_live (live (srv_Broker s)) (subscribers s) dropped ->
  let '(e, s') := doRegisterSubscriber name topic h bd opts s in
  tracks_live (live (srv_Broker s')) (subscribers s')
    (dropped ++ match e with None => option_list (subscribers s !! topic) | Some _ => [] end) /\
  match e with Some _ => subscribers s' = subscribers s | None => exists x, subscribers s' = <[topic := x]> (subscribers s) end /\
  started s' = started s /\ subscriberOpts s' = subscriberOpts s /\ err s' = err s.
Proof.
  intros Ha. unfold doRegisterSubscriber.
  pose proof (live_Subscribe topic (wrapHandler name (m s) topic h) bd opts (srv_Broker s)) as Hs.
  destruct (Subscribe _ _ _ _ _) as [[x|e] b]; cbn.
  - destruct Hs as [Hnew Hs]. split; [|eauto]. by eapply tracks_insert.
  - split; [|done]. rewrite app_nil_r. by eapply tracks_ext.
Qed.

Lemma register_loop_accounted pending errs (s : Srv) dropped :
  tracks_live (live (srv_Broker s)) (subscribers s) dropped -> NoDup (map fst pending) ->
  (forall t, t ∈ map fst pending -> subscribers s !! t = None) ->
  let '(errs', s') := register_loop name pending errs s in
  tracks_live (live (srv_Broker s')) (subscribers s') dropped /\
  (exists more, errs' = errs ++ more /\ (length more <= length pending)%nat /\
    (more = [] -> forall t, is_Some (subscribers s' !! t) <-> is_Some (subscribers s !! t) \/ t ∈ map fst pending)) /\
  started s' = started s /\ err s' = err s.
Proof.
  revert errs s. induction pending as [|[t o] pending IH]; intros errs s Ha Hn Hf; simpl.
  - split; [done|]. split; [|done]. exists []. rewrite app_nil_r. split_and!; [done..|]. intros _ t. set_solver.
  - apply NoDup_cons in Hn as [Hno Hn].
    pose proof (doRegister_accounted t (so_Handler o) (so_Binder o) (so_SubscribeOptions o) s dropped Ha) as Hd.
    rewrite (Hf t) in Hd by (simpl; set_solver).
    destruct (doRegisterSubscriber _ _ _ _ _ _) as [e s1].
    replace (match e with None => option_list None | Some _ => [] end) with (@nil Sub) in Hd by (by destruct e). rewrite app_nil_r in Hd. destruct Hd as (Ha1&Hs1&Est&_&Eerr).
    assert (Hf1 : forall u, u ∈ map fst pending -> subscribers s1 !! u = None).
    { intros u Hu. assert (subscribers s !! u = None) as Eu by (apply Hf; simpl; set_solver).
      destruct e; [by rewrite Hs1|]. destruct Hs1 as [x ->]. rewrite lookup_insert_ne; [done|]. intros ->. done. }
    destruct e as [e|]; [specialize (IH (errs ++ [e]) s1 Ha1 Hn Hf1)|specialize (IH errs s1 Ha1 Hn Hf1)];
      destruct (register_loop name pending _ s1) as [errs' s']; destruct IH as (Ha'&(more&->&Hlen&Hall)&Est'&Eerr');
      (split; [done|]; split; [|split; congruence]).
    + exists (e :: more). rewrite <- app_assoc. split_and!; [done|simpl; lia|done].
    + exists more. split_and!; [done|lia|]. intros Hm u. rewrite (Hall Hm u). destruct Hs1 as [x ->].
      destruct (decide (u = t)) as [->|Hne]; [rewrite lookup_insert_eq; simpl; set_solver|].
      rewrite lookup_insert_ne by done. simpl. set_solver.
Qed.

Lemma range_topics A (x : gmap string A) : NoDup (map fst (range A x)) /\ forall t, t ∈ map fst (range A x) <-> is_Some (x !! t).
Proof.
  split; [rewrite range_entries; apply NoDup_fst_map_to_list|]. intros t. rewrite range_entries. split.
  - intros ([k a]&->&Hk)%list_elem_of_fmap. apply elem_of_map_to_list in Hk. eauto.
  - intros [a Ha]. apply list_elem_of_fmap. exists (t, a). split; [done|]. by apply elem_of_map_to_list.
Qed.

(** What every reachable server satisfies: a server that is not started and has no
    error has no subscribers. *)
Definition server_ok (s : Srv) (dropped : list Sub) : Prop :=
  tracks_live (live (srv_Broker s)) (subscribers s) dropped /\ (started s = false -> err s = None -> subscribers s = ∅) /\
  (started s = true -> err s = None).

Lemma errors_Join_none (es : list error) : errors_Join (map Some es) = None -> es = [].
Proof. destruct es as [|e es]; [done|]. unfold errors_Join. by destruct es. Qed.

Lemma Start_spec ctx (s : Srv) dropped :
  server_ok s dropped -> started s = false -> err s = None ->
  let '(e, s') := Start range name ctx s in
  server_ok s' dropped /\ err s' = e /\
  (e = None -> started s' = true /\ subscriberOpts s' = ∅ /\
     forall t, is_Some (subscribers s' !! t) <-> is_Some (subscriberOpts s !! t)).
Proof.
  intros (Ha&Hempty&_) Hst Herr. specialize (Hempty Hst Herr). unfold Start. rewrite Herr, Hst.
  pose proof (live_Init (srv_Broker s)) as HI. destruct (Init (srv_Broker s)) as [[e|] b1]; cbn in HI |- *.
  { split; [|done]. split; [by eapply tracks_ext|]. split; [done|]. cbn. congruence. }
  pose proof (live_Connect b1) as HC. destruct (Connect b1) as [[e|] b2]; cbn in HC |- *.
  { split; [|done]. split; [eapply tracks_ext; [exact HC|]; by eapply tracks_ext|]. split; [done|]. cbn. congruence. }
  unfold doRegisterSubscriberMap. cbn [subscriberOpts].
  set (s2 := set_err None (set_Broker b2 _)). assert (Ha2 : tracks_live (live (srv_Broker s2)) (subscribers s2) dropped).
  { eapply tracks_ext; [exact HC|]. by eapply tracks_ext. }
  destruct (range_topics _ (subscriberOpts s2)) as [Hnd Hin].
  pose proof (register_loop_accounted (range _ (subscriberOpts s2)) [] s2 dropped Ha2 Hnd) as Hl.
  destruct (register_loop name _ [] s2) as [errs s3].
  destruct Hl as (Ha3&(more&->&_&Hall)&Est&Eerr). { intros t _. cbn. by rewrite Hempty. }
  cbn [app]. cbn in Est, Eerr. destruct (errors_Join (map Some more)) as [e|] eqn:Ej; cbn.
  - split; [|done]. split; [done|]. split; [done|]. cbn. congruence.
  - split; [split; [done|by split]|]. split; [done|]. intros _. split_and!; [done..|]. intros t.
    rewrite (Hall (errors_Join_none _ Ej)), Hin. cbn. rewrite Hempty, lookup_empty. split; [intros [[]%is_Some_None|]; done|auto].
Qed.

Lemma unsubscribe_all_live subs b x :
  live (unsubscribe_all subs b) x -> live b x /\ (x ∈ map snd subs -> NoDup (map snd subs) -> x ∈ failed subs b).
Proof.
  revert b. induction subs as [|[t v] subs IH]; intros b Hx; simpl in *; [split; [done|set_solver]|].
  apply IH in Hx as [Hx Hf]. destruct (decide (x = v)) as [->|Hne].
  - split; [by eapply live_Unsubscribe_old|]. intros _ [Hno _]%NoDup_cons.
    destruct (Unsubscribe v false b) as [[e|] b'] eqn:E; [set_solver|].
    destruct (live_Unsubscribed v false b); rewrite E; done.
  - split; [by eapply live_Unsubscribe|]. intros Hin [_ Hn]%NoDup_cons.
    destruct (Unsubscribe v false b) as [[e|] b']; set_solver.
Qed.

Lemma range_subs (subs : gmap string Sub) :
  (forall t1 t2 x, subs !! t1 = Some x -> subs !! t2 = Some x -> t1 = t2) ->
  NoDup (map snd (range _ subs)) /\ forall t x, subs !! t = Some x -> x ∈ map snd (range _ subs).
Proof.
  intros Hinj. split.
  - rewrite range_entries. apply NoDup_fmap_2_strong; [|apply NoDup_map_to_list].
    intros [t1 x1] [t2 x2] H1%elem_of_map_to_list H2%elem_of_map_to_list. simpl. intros ->. f_equal. eauto.
  - intros t x Hx. rewrite range_entries. apply list_elem_of_fmap. exists (t, x). split; [done|]. by apply elem_of_map_to_list.
Qed.

Lemma Stop_ok (s : Srv) dropped :
  server_ok s dropped -> server_ok (snd (Stop range s)) (dropped ++ lost OpStop s).
Proof.
  intros (Ha&Hempty&Herr). unfold Stop, lost. destruct (started s) eqn:Est; simpl.
  - pose proof (live_Disconnect (unsubscribe_all (range _ (subscribers s)) (srv_Broker s))) as HD.
    destruct (Disconnect _) as [e b]. cbn in HD |- *. split; [|done].
    eapply tracks_clear; [|exact Ha]. intros x Hx%HD. apply unsubscribe_all_live in Hx as [Hx Hf]. split; [done|].
    intros [t Ht]. destruct (range_subs (subscribers s)) as [Hn Hin]; [by eapply acc_inj|]. eauto.
  - rewrite app_nil_r. unfold server_ok. rewrite Est. by split_and!.
Qed.

Lemma apply_op_server_ok o (s : Srv) dropped :
  server_ok s dropped -> server_ok (snd (apply_op o s)) (dropped ++ lost o s).
Proof.
  intros Hok. destruct o as [topic h bd opts|ctx|]; simpl.
  - unfold register. destruct Hok as (Ha&He&Hs). destruct (started s) eqn:Est.
    + pose proof (doRegister_accounted topic h bd opts s dropped Ha) as Hd.
      destruct (doRegisterSubscriber _ _ _ _ _ _) as [e s'] eqn:Ed. destruct Hd as (Ha'&_&Est'&_&Eerr). simpl.
      split; [done|]. rewrite Est', Eerr, Est. split; [done|auto].
    + rewrite app_nil_r. split; [done|]. cbn. rewrite Est. done.
  - rewrite app_nil_r. destruct (err s) eqn:Eerr; [unfold Start; by rewrite Eerr|].
    destruct (started s) eqn:Est; [unfold Start; by rewrite Eerr, Est|].
    pose proof (Start_spec ctx s dropped Hok Est Eerr) as Hs. destruct (Start _ _ _ _). by destruct Hs.
  - by apply Stop_ok.
Qed.

Lemma run_ops_server_ok os (s : Srv) dropped :
  server_ok s dropped -> let '(s', dropped') := run_ops os s dropped in server_ok s' dropped'.
Proof.
  revert s dropped. induction os as [|o os IH]; intros s dropped Hok; simpl; [done|]. apply IH. by apply apply_op_server_ok.
Qed.

(** The options of the packages. *)
Inductive server_option : (Srv -> Srv) -> Prop :=
| option_broker bo : server_option (WithBrokerOptions bo)
| option_metrics x : server_option (WithMetrics x).

Lemma init_fresh NewBroker opts Background nb :
  Forall server_option opts ->
  let s := init NewBroker opts (zero_server Background nb) in
  subscribers s = ∅ /\ subscriberOpts s = ∅ /\ started s = false /\ err s = None /\ srv_Broker s = NewBroker (brokerOpts s).
Proof.
  intros Ho. unfold init. cbn. split_and!; try done.
  all: apply (apply_opts_preserves (fun s : Srv => _ s = _)); [|done]; (eapply Forall_impl; [exact Ho|]);
    intros opt [] c Hc; exact Hc.
Qed.

(** A property of the broker that its calls keep. *)
Section broker_invariant.
Context (P : B -> Prop).
Hypothesis keeps : (forall b, P b -> P (snd (Init b))) /\ (forall b, P b -> P (snd (Connect b))) /\
  (forall b, P b -> P (snd (Disconnect b))) /\ (forall t h bd o b, P b -> P (snd (Subscribe t h bd o b))) /\
  (forall x r b, P b -> P (snd (Unsubscribe x r b))).

Lemma doRegister_keeps t h bd o (s : Srv) : P (srv_Broker s) -> P (srv_Broker (snd (doRegisterSubscriber name t h bd o s))).
Proof.
  intros HP. unfold doRegisterSubscriber. destruct keeps as (_&_&_&HS&_). specialize (HS t (wrapHandler name (m s) t h) bd o _ HP).
  by destruct (Subscribe _ _ _ _ _) as [[]].
Qed.
Lemma register_loop_keeps pending errs (s : Srv) : P (srv_Broker s) -> P (srv_Broker (snd (register_loop name pending errs s))).
Proof.
  revert errs s. induction pending as [|[t o] pending IH]; intros errs s HP; [done|]. simpl.
  pose proof (doRegister_keeps t (so_Handler o) (so_Binder o) (so_SubscribeOptions o) s HP).
  destruct (doRegisterSubscriber _ _ _ _ _ _) as [[] s1]; by apply IH.
Qed.
Lemma unsubscribe_all_keeps subs b : P b -> P (unsubscribe_all subs b).
Proof. revert b. induction subs as [|[t v] subs IH]; intros b HP; [done|]. apply IH. by apply keeps. Qed.
Lemma apply_op_keeps o (s : Srv) : P (srv_Broker s) -> P (srv_Broker (snd (apply_op o s))).
Proof.
  intros HP. destruct keeps as (HI&HC&HD&_&_). destruct o as [t h bd opts|ctx|]; simpl.
  - unfold register. destruct (started s); [by apply doRegister_keeps|done].
  - unfold Start. destruct (err s); [done|]. destruct (started s); [done|].
    specialize (HI _ HP). destruct (Init _) as [[] b1]; [done|]. cbn. specialize (HC _ HI). destruct (Connect _) as [[] b2]; [done|].
    unfold doRegisterSubscriberMap. cbn [subscriberOpts].
    match goal with |- context [register_loop name ?p [] ?s1] => pose proof (register_loop_keeps p [] s1 HC) as Hl; destruct (register_loop name p [] s1) as [errs s3] end.
    cbn in Hl |- *. by destruct (errors_Join _).
  - unfold Stop. destruct (negb (started s)); [done|]. cbn.
    specialize (HD _ (unsubscribe_all_keeps (range _ (subscribers s)) _ HP)). by destruct (Disconnect _).
Qed.
Lemma run_ops_keeps os (s : Srv) dropped : P (srv_Broker s) -> P (srv_Broker (fst (run_ops os s dropped))).
Proof. revert s dropped. induction os as [|o os IH]; intros s dropped HP; [done|]. apply IH. by apply apply_op_keeps. Qed.
End broker_invariant.

Lemma register_loop_started pending errs (s : Srv) : started (snd (register_loop name pending errs s)) = started s.
Proof.
  revert errs s. induction pending as [|[t o] pending IH]; intros errs s; simpl; [done|].
  unfold doRegisterSubscriber. by destruct (Subscribe _ _ _ _ _) as [[]]; rewrite IH.
Qed.

Lemma stuck_op o (s : Srv) e :
  err s = Some e -> started s = false ->
  err (snd (apply_op o s)) = Some e /\ started (snd (apply_op o s)) = false /\
  srv_Broker (snd (apply_op o s)) = srv_Broker s /\ subscribers (snd (apply_op o s)) = subscribers s.
Proof.
  intros He Hs. destruct o as [topic h bd opts|ctx|]; simpl.
  - unfold register. rewrite Hs. by cbn.
  - unfold Start. by rewrite He.
  - unfold Stop. by rewrite Hs.
Qed.

(** A [Start] that fails is final: whatever is called afterwards, every [Start]
    returns the same error, [Stop] returns at once without an error, and the broker
    is never called again: it stays connected, and the subscriptions made before
    the failure stay live. *)
Theorem message_server_failed_start ctx (s : Srv) e os ctx' dropped :
  started s = false -> fst (Start range name ctx s) = Some e ->
  let s1 := snd (Start range name ctx s) in
  let s2 := fst (run_ops os s1 dropped) in
  fst (Start range name ctx' s2) = Some e /\ Stop range s2 = (None, s2) /\
  srv_Broker s2 = srv_Broker s1 /\ subscribers s2 = subscribers s1.
Proof.
  intros Hst Hf. set (s1 := snd (Start range name ctx s)).
  assert (err s1 = Some e /\ started s1 = false) as [He Hs1].
  { subst s1. revert Hf. unfold Start. destruct (err s) eqn:Ee; [simpl; intros [= ->]; by rewrite Ee, Hst|]. rewrite Hst.
    destruct (Init _) as [[e1|] b1]; [by intros [= ->]|]. destruct (Connect _) as [[e2|] b2]; [by intros [= ->]|].
    unfold doRegisterSubscriberMap. pose proof (register_loop_started (range _ (subscriberOpts s)) []) as Hk. cbn [subscriberOpts].
    specialize (Hk (set_err None (set_Broker b2 (set_err None (set_Broker b1 s))))). cbn in Hk |- *.
    destruct (register_loop _ _ _ _) as [errs s3]. destruct (errors_Join _); [|done]. intros [= ->]. by rewrite <- Hst. }
  cbv zeta. generalize dependent dropped. clearbody s1. revert s1 He Hs1. induction os as [|o os IH]; intros s1 He Hs1 dropped; simpl.
  - split_and!; [|unfold Stop; by rewrite Hs1|done..]. unfold Start. by rewrite He.
  - destruct (stuck_op o s1 e He Hs1) as (He'&Hs'&Eb&Es). destruct (IH _ He' Hs' (dropped ++ lost o s1)) as (?&?&E1&E2).
    split_and!; [done..| |]; congruence.
Qed.
End facts.

(** ** What a driver has answered

    The broker of a package together with the list of the subscriptions it has answered
    for: those [Subscribe] returned and whose [Unsubscribe] has not yet returned nil.  The
    list records the driver's answers and does not change them. *)
Definition ledger_ops {B Sub H Bd SO} `{EqDecision Sub} (ops : Broker B Sub H Bd SO) : Broker (B * list Sub) Sub H Bd SO := {|
  Init := fun '(b, l) => let '(e, b') := Init b in (e, (b', l));
  Connect := fun '(b, l) => let '(e, b') := Connect b in (e, (b', l));
  Disconnect := fun '(b, l) => let '(e, b') := Disconnect b in (e, (b', l));
  Subscribe := fun topic h bd opts '(b, l) =>
    match Subscribe topic h bd opts b with
    | (inl x, b') => (inl x, (b', x :: l))
    | (inr e, b') => (inr e, (b', l))
    end;
  Unsubscribe := fun x r '(b, l) =>
    match Unsubscribe x r b with
    | (None, b') => (None, (b', filter (fun y => y <> x) l))
    | (Some e, b') => (Some e, (b', l))
    end
|}.

(** What the drivers have in common: [Subscribe] returns an object it has just made.
    [issued] are those returned so far. *)
Class NewSubscribers {B Sub H Bd SO} (ops : Broker B Sub H Bd SO) (issued : B -> Sub -> Prop) := {
  issued_Init b x : issued (snd (Init b)) x <-> issued b x;
  issued_Connect b x : issued (snd (Connect b)) x <-> issued b x;
  issued_Disconnect b x : issued (snd (Disconnect b)) x <-> issued b x;
  issued_Subscribe topic h bd opts b :
    match Subscribe topic h bd opts b with
    | (inl s, b') => ~ issued b s /\ forall x, issued b' x <-> x = s \/ issued b x
    | (inr _, b') => forall x, issued b' x <-> issued b x
    end;
  issued_Unsubscribe s r b x : issued (snd (Unsubscribe s r b)) x <-> issued b x
}.

Section ledger.
Context {B Sub H Bd SO : Type} `{EqDecision Sub} {ops : Broker B Sub H Bd SO} {issued : B -> Sub -> Prop} {fresh : NewSubscribers ops issued}.

(** The subscriptions on the list, all of them issued. *)
Definition answered_for (bl : B * list Sub) (x : Sub) : Prop := x ∈ snd bl /\ issued (fst bl) x.
Definition all_issued (bl : B * list Sub) : Prop := forall x, x ∈ snd bl -> issued (fst bl) x.

#[local] Instance ledger_laws : BrokerLaws (ledger_ops ops) answered_for.
Proof.
  split; unfold answered_for.
  - intros [b l] x. cbn. pose proof (issued_Init b x). destruct (Init b). cbn in *. tauto.
  - intros [b l] x. cbn. pose proof (issued_Connect b x). destruct (Connect b). cbn in *. tauto.
  - intros [b l] x. cbn. pose proof (issued_Disconnect b x). destruct (Disconnect b). cbn in *. tauto.
  - intros topic h bd opts [b l]. cbn. pose proof (issued_Subscribe topic h bd opts b) as HS.
    destruct (Subscribe _ _ _ _ b) as [[x|e] b']; cbn.
    + destruct HS as [Hn Hi]. split; [tauto|]. intros y. rewrite Hi, elem_of_cons. tauto.
    + intros x. by rewrite HS.
  - intros s r [b l] x Hne. cbn. pose proof (issued_Unsubscribe s r b x) as HU. destruct (Unsubscribe s r b) as [[e|] b']; cbn in *; [tauto|].
    rewrite list_elem_of_filter. tauto.
  - intros s r [b l]. cbn. destruct (Unsubscribe s r b) as [[e|] b']; cbn; [done|]. intros _ [[Hs _]%list_elem_of_filter _]. done.
  - intros s r [b l]. cbn. pose proof (issued_Unsubscribe s r b s) as HU. destruct (Unsubscribe s r b) as [[e|] b']; cbn in *; [tauto|].
    rewrite list_elem_of_filter. tauto.
Qed.

Lemma ledger_keeps :
  (forall bl, all_issued bl -> all_issued (snd (Init (Broker := ledger_ops ops) bl))) /\
  (forall bl, all_issued bl -> all_issued (snd (Connect (Broker := ledger_ops ops) bl))) /\
  (forall bl, all_issued bl -> all_issued (snd (Disconnect (Broker := ledger_ops ops) bl))) /\
  (forall t h bd o bl, all_issued bl -> all_issued (snd (Subscribe (Broker := ledger_ops ops) t h bd o bl))) /\
  (forall x r bl, all_issued bl -> all_issued (snd (Unsubscribe (Broker := ledger_ops ops) x r bl))).
Proof.
  unfold all_issued. split_and!.
  - intros [b l] Hb. cbn. pose proof (issued_Init b). destruct (Init b). cbn in *. naive_solver.
  - intros [b l] Hb. cbn. pose proof (issued_Connect b). destruct (Connect b). cbn in *. naive_solver.
  - intros [b l] Hb. cbn. pose proof (issued_Disconnect b). destruct (Disconnect b). cbn in *. naive_solver.
  - intros t h bd o [b l] Hb. cbn. pose proof (issued_Subscribe t h bd o b) as HS.
    destruct (Subscribe _ _ _ _ b) as [[x|e] b']; cbn in *; intros y; rewrite ?elem_of_cons; naive_solver.
  - intros x r [b l] Hb. cbn. pose proof (issued_Unsubscribe x r b) as HU. destruct (Unsubscribe x r b) as [[e|] b']; cbn in *; intros y; rewrite ?list_elem_of_filter; naive_solver.
Qed.
End ledger.

(** C28: A message server and its broker agree on the subscriptions, whichever driver the
    broker is, as long as the driver returns a new subscriber each time: after any calls
    of [RegisterSubscriber], [Start] and [Stop] on a new server, taken one after the other,
    the subscribers it holds are ones the driver has answered for, one per topic, and a
    subscription the driver has answered for and the server does not hold is
    one it has dropped: replaced by a second, successful registration of the topic while the
    server was running, or one whose [Unsubscribe] failed.  A stopped server holds
    none, and a [Start] that succeeds subscribes exactly the topics registered
    before it.  (Answered for: returned by [Subscribe], and no [Unsubscribe] of it has
    returned nil; whether its messages arrive is the driver's matter.) *)
Theorem message_server_subscriptions {B Sub T C X MW BO : Type} `{Runtime X} `{EqDecision Sub}
    {ops : Broker B Sub (C -> Event (T := T) -> Go X (option error)) (option (unit -> gv T)) (SubscribeOptions C MW -> SubscribeOptions C MW)}
    (issued : B -> Sub -> Prop) {fresh : NewSubscribers ops issued}
    (range : forall A, gmap string A -> list (string * A)) name
    (NewBroker : list BO -> B) (opts : list (Server (B * list Sub) Sub T C X MW BO -> Server (B * list Sub) Sub T C X MW BO)) Background nb os ctx :
  (forall A (x : gmap string A), range A x ≡ₚ map_to_list x) -> Forall server_option opts ->
  let '(s, dropped) := run_ops (ops := ledger_ops ops) range name os (init (fun bo => (NewBroker bo, [])) opts (zero_server Background nb)) [] in
  (forall t x, subscribers s !! t = Some x -> x ∈ snd (srv_Broker s)) /\
  (forall t1 t2 x, subscribers s !! t1 = Some x -> subscribers s !! t2 = Some x -> t1 = t2) /\
  (forall x, x ∈ snd (srv_Broker s) -> (exists t, subscribers s !! t = Some x) \/ x ∈ dropped) /\
  (started s = false -> err s = None -> subscribers s = ∅ /\
     let '(e, s') := Start (ops := ledger_ops ops) range name ctx s in
     err s' = e /\
     (e = None -> started s' = true /\ subscriberOpts s' = ∅ /\
        forall t, is_Some (subscribers s' !! t) <-> is_Some (subscriberOpts s !! t))).
Proof.
  intros Hrange Ho. destruct (init_fresh (fun bo => (NewBroker bo, [])) opts Background nb Ho) as (E1&_&E3&E4&E5).
  set (s0 := init _ opts (zero_server Background nb)) in *.
  assert (server_ok (live := answered_for (issued := issued)) s0 []) as Hok0.
  { split; [|split; [done|by rewrite E3]]. rewrite E1, E5. apply tracks_empty. intros x [Hx _]. by apply elem_of_nil in Hx. }
  pose proof (run_ops_keeps (ops := ledger_ops ops) range name (all_issued (issued := issued)) ledger_keeps os s0 []) as Hall.
  pose proof (run_ops_server_ok (laws := ledger_laws) range Hrange name os s0 [] Hok0) as Hok. destruct (run_ops _ _ os s0 []) as [s dropped].
  cbn [fst] in Hall. pose proof Hok as ([H1 H2 H3]&Hempty&_). split_and!; [|done| |].
  - intros t x Hx. by apply (H1 t x).
  - intros x Hx. apply H3. split; [done|]. apply Hall; [|done]. rewrite E5. intros y Hy. by apply elem_of_nil in Hy.
  - intros Hst Herr. split; [auto|].
    pose proof (Start_spec (laws := ledger_laws) range Hrange name ctx s dropped Hok Hst Herr) as Hs. destruct (Start _ _ _ _). by destruct Hs.
Qed.

(** The read and idle timeouts of a redis server are those of the constructor,
    whatever options it is given: they come last. *)
Lemma redis_timeouts_last {B Sub T C X MW BO D : Type} (Background : C) (nb : B) (NewBroker : D -> list BO -> B)
    (WithReadTimeout WithIdleTimeout : Duration -> BO) d (opts : list (Server B Sub T C X MW BO -> Server B Sub T C X MW BO)) :
  exists given, brokerOpts (redis_NewServer Background nb NewBroker WithReadTimeout WithIdleTimeout d opts) =
    given ++ [WithReadTimeout (24 * 3600 * Second); WithIdleTimeout (24 * 3600 * Second)].
Proof.
  unfold redis_NewServer, init. cbn. rewrite <- app_assoc, apply_opts_app. cbn.
  rewrite <- app_assoc. by eexists.
Qed.

(** ** Metrics *)

(** A call of the metrics interface. *)
Inductive metric := MCounter (name : string) (labels : gmap string string) | MHistogram (name : string) (labels : gmap string string).

(** With metrics that record the calls, a wrapped handler returns what the handler
    returns and leaves one received message and one duration, and an error when
    there is one; a handler that panics leaves the received message alone. *)
Lemma wrapHandler_metrics {T C Y} `{RY : Runtime Y} name topic (handler : C -> Event (T := T) -> Go Y (option error)) ctx event (y : Y) :
  let recorded : Metrics C (Y * list metric) := mkMetrics
    (fun _ n _ l => go_modify (fun '(y, log) => (y, log ++ [MCounter n l])))
    (fun _ n _ l => go_modify (fun '(y, log) => (y, log ++ [MHistogram n l]))) in
  let labels := <["broker" := name]> {["topic" := topic]} in
  let RX : Runtime (Y * list metric) :=
    {| time_Now := fun '(y, l) => let '(t, y') := time_Now y in (t, (y', l));
       rand_Float64 := fun '(y, l) => let '(t, y') := rand_Float64 y in (t, (y', l)) |} in
  let '(r, (_, log)) := wrapHandler name (Some recorded) topic (fun ctx e => go_fst (handler ctx e)) ctx event (y, []) in
  let '(r', _) := handler ctx event (snd (time_Now y)) in
  r = r' /\
  log = MCounter "broker.messages.received" labels ::
    match r' with
    | Panicked => []
    | Returned None => [MHistogram "broker.message.duration" labels]
    | Returned (Some _) => [MHistogram "broker.message.duration" labels;
        MCounter "broker.messages.errors" (<["broker" := name]> (<["topic" := topic]> {["error" := "true"]}))]
    end.
Proof.
  cbn. unfold mbind, Go_bind, go_Now, go_modify, go_fst, mret, Go_ret. cbn. destruct (time_Now y) as [t0 y0]. cbn.
  destruct (handler ctx event y0) as [[[e|]|] y1]; cbn; [| |done]; destruct (time_Now y1) as [t1 y2]; cbn; done.
Qed.

(** ** An instance *)

Module model.
(** A broker that numbers its subscriptions and refuses some topics. *)
Record broker := mkBroker { next : nat; subs : list nat; refused : list string }.

#[global] Instance broker_ops {H Bd SO} : Broker broker nat H Bd SO := {|
  Init b := (None, b);
  Connect b := (None, b);
  Disconnect b := (None, b);
  Subscribe topic _ _ _ b :=
    if bool_decide (topic ∈ refused b) then (inr (Errorf "refused"), b)
    else (inl (next b), mkBroker (S (next b)) (next b :: subs b) (refused b));
  Unsubscribe s _ b := (None, mkBroker (next b) (filter (fun x => x <> s) (subs b)) (refused b))
|}.

Definition issued (b : broker) (x : nat) : Prop := (x < next b)%nat.

#[global] Instance new_subscribers {H Bd SO} : NewSubscribers (@broker_ops H Bd SO) issued.
Proof.
  split; unfold issued; cbn; try done.
  intros topic h bd opts b. case_bool_decide; cbn; [done|]. split; [lia|]. intros x. lia.
Qed.

#[global] Instance still : Runtime unit := {| time_Now u := (zeroTime, u); rand_Float64 u := (f_of_Z 0, u) |}.

Definition handler : unit -> Event (T := unit) -> Go unit (option error) := fun _ _ => mret None.
Definition range (A : Type) (x : gmap string A) : list (string * A) := map_to_list x.
Definition fresh (refused : list string) (bo : list unit) : broker := mkBroker 0 [] refused.
Definition server (refused : list string) : Server broker nat unit unit unit unit unit :=
  kafka_NewServer tt (mkBroker 0 [] []) (fresh refused) [].
Definition audited (refused : list string) : Server (broker * list nat) nat unit unit unit unit unit :=
  kafka_NewServer tt (mkBroker 0 [] [], []) (fun bo => (fresh refused bo, [])) [].
Definition reg (topic : string) : op (T := unit) (C := unit) (X := unit) (MW := unit) := OpRegister topic handler None [].
End model.

Lemma message_server_subscriptions_witness :
  let calls := [model.reg "a"; model.reg "b"; OpStart tt; model.reg "a"; model.reg "c"; OpStop; model.reg "d"] in
  let '(s, dropped) := run_ops (ops := ledger_ops model.broker_ops) model.range "kafka" calls (model.audited ["c"]) [] in
  length dropped = 1%nat /\ snd (srv_Broker s) = dropped /\ subscribers s = ∅ /\ started s = false /\
  forall x, x ∈ snd (srv_Broker s) -> x ∈ dropped.
Proof.
  pose proof (message_server_subscriptions model.issued model.range "kafka" (model.fresh ["c"]) [] tt (model.mkBroker 0 [] [], [])
    [model.reg "a"; model.reg "b"; OpStart tt; model.reg "a"; model.reg "c"; OpStop; model.reg "d"] tt (fun _ _ => Permutation_refl _) (Forall_nil_2 _)) as H.
  unfold model.audited, kafka_NewServer. cbv zeta. destruct (run_ops _ _ _ _ _) as [s d] eqn:E. vm_compute in E. injection E as <- <-.
  cbn in *. destruct H as (_&_&H3&H). split; [done|]. split; [done|]. destruct (H eq_refl eq_refl) as [-> _]. split; [done|]. split; [done|].
  intros x Hx. destruct (H3 x Hx) as [[t Ht]|]; [change ((∅ : gmap string nat) !! t = Some x) in Ht; by rewrite lookup_empty in Ht|done].
Defined.

Lemma message_server_failed_start_witness :
  let s0 := snd (apply_op model.range "kafka" (model.reg "a") (snd (apply_op model.range "kafka" (model.reg "b") (model.server ["b"])))) in
  let s1 := snd (Start model.range "kafka" tt s0) in
  exists e, fst (Start model.range "kafka" tt s0) = Some e /\
    fst (Start model.range "kafka" tt (fst (run_ops model.range "kafka" [OpStop; OpStart tt; OpStop] s1 []))) = Some e /\ model.subs (srv_Broker s1) = [0%nat].
Proof.
  cbv zeta. eexists. split; [vm_compute; reflexivity|]. split.
  - apply (message_server_failed_start model.range "kafka" tt _ _ [OpStop; OpStart tt; OpStop] tt []); vm_compute; reflexivity.
  - vm_compute. reflexivity.
Defined.
