(* ===== verification/Lifecycle.v ===== *)
(** Servers whose [Start] blocks under the server's mutex.

    [transport/asynq] and [transport/cron] share a shape: [Start] takes [s.mu], does
    its work, waits for its context and shuts down, all under [defer s.mu.Unlock()];
    [Stop] takes the same mutex.  The machine here runs any number of such calls
    over a shared store: a call's code under the mutex is one step, except that
    [Start] gives up the processor, and not the mutex, while it waits. *)
From Stdlib Require Import ZArith Lia.
From S2P Require Import Prelude GoErrors.
From stdpp Require Import base list sets.
Open Scope Z_scope.

(** The code of the calls, over a store [S]: [start_begin] is [Start] up to
    [<-ctx.Done()] ([Some r] when it returns before), [start_finish] the rest;
    [stop_body] is [Stop], whose context may expire first. *)
Record Service (S : Type) := mkService {
  start_begin : S -> option (option error) * S;
  start_finish : S -> option error * S;
  stop_body : bool -> S -> option error * S
}.
Arguments mkService {S}.
Arguments start_begin {S}.
Arguments start_finish {S}.
Arguments stop_body {S}.

Section machine.
Context {S : Type} (service : Service S).

Inductive call := CStart | CStop.

(** A call waits for the mutex, waits for its context with the mutex held, or has
    returned. *)
Inductive progress := Waiting | Serving | Done (r : option error).

Record machine := mkMachine {
  store : S;
  owner : option nat;
  cancelled : list nat;
  calls : list (call * progress)
}.

Inductive event :=
| Call (c : call)
| CancelCtx (i : nat)
| Run (i : nat) (expired : bool).

Definition set_call (i : nat) (p : progress) (own : option nat) (st : S) (g : machine) : machine :=
  mkMachine st own (cancelled g) (alter (fun cp => (fst cp, p)) i (calls g)).

Definition step (e : event) (g : machine) : option machine :=
  match e with
  | Call c => Some (mkMachine (store g) (owner g) (cancelled g) (calls g ++ [(c, Waiting)]))
  | CancelCtx i => Some (mkMachine (store g) (owner g) (i :: cancelled g) (calls g))
  | Run i expired =>
      match calls g !! i, owner g with
      | Some (CStart, Waiting), None =>
          match start_begin service (store g) with
          | (Some r, st) => Some (set_call i (Done r) None st g)
          | (None, st) => Some (set_call i Serving (Some i) st g)
          end
      | Some (CStart, Serving), _ =>
          if bool_decide (i ∈ cancelled g) then
            let '(r, st) := start_finish service (store g) in Some (set_call i (Done r) None st g)
          else None
      | Some (CStop, Waiting), None =>
          let '(r, st) := stop_body service expired (store g) in Some (set_call i (Done r) None st g)
      | _, _ => None
      end
  end.

Fixpoint run (es : list event) (g : machine) : option machine :=
  match es with
  | [] => Some g
  | e :: es' => g' ← step e g; run es' g'
  end.


(** While a [Start] serves and its context is not cancelled, the store stays as it
    is and every other call that has not returned waits. *)
Lemma serving_step i e g g' :
  owner g = Some i -> i ∉ cancelled g -> e <> CancelCtx i ->
  (forall j, calls g !! j = Some (CStart, Serving) -> j = i) ->
  step e g = Some g' ->
  owner g' = Some i /\ i ∉ cancelled g' /\ (forall j, calls g' !! j = Some (CStart, Serving) -> j = i) /\
  store g' = store g /\ exists more, calls g' = calls g ++ more /\ Forall (fun cp => cp.2 = Waiting) more.
Proof.
  intros Ho Hc Hne Hall. destruct e as [c|k|k expired]; simpl.
  - intros [= <-]. cbn. split_and!; [done..| |done|exists [(c, Waiting)]; by repeat constructor].
    intros j [Hj|[_ Hj]]%lookup_app_Some; [auto|]. apply list_lookup_singleton_Some in Hj as [_ [=]].
  - intros [= <-]. cbn. split_and!; [done| |done..|exists []; by rewrite app_nil_r].
    intros [->|]%elem_of_cons; [by destruct Hne|done].
  - rewrite Ho. destruct (calls g !! k) as [[[] [| |r]]|] eqn:Ek; try done.
    rewrite (Hall k Ek), bool_decide_false by done. done.
Qed.

Lemma serving_run i es g g' :
  owner g = Some i -> i ∉ cancelled g -> CancelCtx i ∉ es ->
  (forall j, calls g !! j = Some (CStart, Serving) -> j = i) ->
  run es g = Some g' ->
  owner g' = Some i /\ store g' = store g /\ exists more, calls g' = calls g ++ more /\ Forall (fun cp => cp.2 = Waiting) more.
Proof.
  revert g. induction es as [|e es IH]; intros g Ho Hc Hes Hall; simpl.
  - intros [= <-]. split_and!; [done..|]. exists []. by rewrite app_nil_r.
  - apply not_elem_of_cons in Hes as [Hne Hes]. intros (g1&H1&H2)%bind_Some.
    destruct (serving_step i e g g1 Ho Hc (not_eq_sym Hne) Hall H1) as (Ho1&Hc1&Hall1&Es1&m1&Ec1&Hm1).
    destruct (IH g1 Ho1 Hc1 Hes Hall1 H2) as (Ho2&Es2&m2&Ec2&Hm2). split_and!; [done|congruence|].
    exists (m1 ++ m2). rewrite Ec2, Ec1, <- app_assoc. split; [done|]. by apply Forall_app.
Qed.

(** Mutual exclusion: the mutex is held exactly by the call that serves. *)
Definition exclusive (g : machine) : Prop := forall j, (exists c, calls g !! j = Some (c, Serving)) <-> owner g = Some j.

Lemma exclusive_done g i r st : exclusive g -> (owner g = None \/ owner g = Some i) -> exclusive (set_call i (Done r) None st g).
Proof.
  intros He Ho j. split; [|done]. cbn. intros [c Hc]. destruct (decide (j = i)) as [->|Hne].
  - rewrite list_lookup_alter_eq in Hc. destruct (calls g !! i); by simplify_eq/=.
  - rewrite list_lookup_alter_ne in Hc by done. assert (owner g = Some j) as E by (apply He; eauto). destruct Ho; congruence.
Qed.

Lemma step_exclusive e g g' : exclusive g -> step e g = Some g' -> exclusive g'.
Proof.
  intros He. destruct e as [c|k|k expired]; simpl.
  - intros [= <-] j. cbn. rewrite <- (He j). split; intros [c' Hc'].
    + apply lookup_app_Some in Hc' as [Hc'|[_ Hc']]; [eauto|]. by apply list_lookup_singleton_Some in Hc' as [_ [=]].
    + exists c'. by apply lookup_app_l_Some.
  - by intros [= <-].
  - destruct (calls g !! k) as [[[] [| |r]]|] eqn:Ek; try done.
    + destruct (owner g) eqn:Eo; [done|]. destruct (start_begin service (store g)) as [[r|] st]; intros [= <-].
      * apply exclusive_done; auto.
      * intros j. cbn. destruct (decide (j = k)) as [->|Hne].
        { rewrite list_lookup_alter_eq, Ek. split; [done|]. simpl. eauto. }
        rewrite list_lookup_alter_ne by done. rewrite (He j), Eo. split; [done|]. by intros [= ->].
    + case_bool_decide; [|done]. destruct (start_finish service (store g)) as [r st]. intros [= <-].
      apply exclusive_done; [done|]. right. apply He. eauto.
    + destruct (owner g) eqn:Eo; [done|]. destruct (stop_body service expired (store g)) as [r st]. intros [= <-].
      apply exclusive_done; auto.
Qed.

Lemma run_exclusive es g g' : exclusive g -> run es g = Some g' -> exclusive g'.
Proof.
  revert g. induction es as [|e es IH]; intros g He; simpl; [by intros [= <-]|].
  intros (g1&H1&H2)%bind_Some. eauto using step_exclusive.
Qed.

(** A server on which nothing was called yet. *)
Definition idle (st : S) : machine := mkMachine st None [] [].

(** While a [Start] serves and its context is not cancelled, no other call makes
    progress, whatever is called. *)
Lemma start_excludes st es0 g i es g' :
  run es0 (idle st) = Some g -> calls g !! i = Some (CStart, Serving) -> i ∉ cancelled g ->
  run es g = Some g' -> CancelCtx i ∉ es ->
  store g' = store g /\ exists more, calls g' = calls g ++ more /\ Forall (fun cp => cp.2 = Waiting) more.
Proof.
  intros H0 Hi Hc Hr Hes. assert (exclusive g) as He by (eapply run_exclusive; [|exact H0]; by intros j; split; [intros [? [=]]|]).
  assert (owner g = Some i) as Ho by (apply He; eauto).
  eapply serving_run in Hr; [|done..|]; [tauto|]. intros j Hj. assert (owner g = Some j) by (apply He; eauto). congruence.
Qed.

(** Once the context is cancelled the [Start] returns and a waiting [Stop] can run
    to its end. *)
Lemma stop_after_cancel st es0 g i j expired :
  run es0 (idle st) = Some g -> calls g !! i = Some (CStart, Serving) -> calls g !! j = Some (CStop, Waiting) ->
  let '(r1, st1) := start_finish service (store g) in
  let '(r2, st2) := stop_body service expired st1 in
  exists g', run [CancelCtx i; Run i expired; Run j expired] g = Some g' /\ store g' = st2 /\ owner g' = None /\
    calls g' !! i = Some (CStart, Done r1) /\ calls g' !! j = Some (CStop, Done r2).
Proof.
  intros H0 Hi Hj. assert (i <> j) as Hne by congruence. simpl. rewrite Hi, bool_decide_true by set_solver.
  destruct (start_finish service (store g)) as [r1 st1]. simpl. rewrite list_lookup_alter_ne, Hj by done.
  destruct (stop_body service expired st1) as [r2 st2]. simpl. eexists. split; [done|]. cbn. split_and!; [done..| |].
  - by rewrite list_lookup_alter_ne, list_lookup_alter_eq, Hi.
  - by rewrite list_lookup_alter_eq, list_lookup_alter_ne, Hj.
Qed.
End machine.
Arguments machine : clear implicits.
