(* ===== verification/Asynq.v ===== *)
(** [transport/asynq]: the task queue server.

    The asynq library is a parameter: its server, client, scheduler and inspector
    live in a world [W], and since a [Server] creates each of them at most once its
    pointers to them are booleans (nil or not).  A method call on a nil pointer of
    the library is a panic. *)
From Stdlib Require Import ZArith Lia Ascii.
From S2P Require Import Prelude GoTime GoErrors NetPacket Encoding Lifecycle.
From stdpp Require Import base gmap strings list fin_maps.
Open Scope string_scope.
Open Scope list_scope.
Open Scope Z_scope.

(** * Redis connection options *)

Section redis.
(** [*tls.Config] *)
Context {TLS : Type}.

Record RedisClientOpt := mkRedisClientOpt {
  c_Network : string; c_Addr : string; c_Username : string; c_Password : string; c_DB : Z; c_PoolSize : Z;
  c_DialTimeout : Duration; c_ReadTimeout : Duration; c_WriteTimeout : Duration; c_TLSConfig : option TLS
}.

Record RedisClusterClientOpt := mkRedisClusterClientOpt {
  k_Addrs : list string; k_MaxRedirects : Z; k_Username : string; k_Password : string;
  k_DialTimeout : Duration; k_ReadTimeout : Duration; k_WriteTimeout : Duration; k_TLSConfig : option TLS
}.

Record RedisFailoverClientOpt := mkRedisFailoverClientOpt {
  f_MasterName : string; f_SentinelAddrs : list string; f_SentinelUsername : string; f_SentinelPassword : string;
  f_Username : string; f_Password : string; f_DB : Z; f_PoolSize : Z;
  f_DialTimeout : Duration; f_ReadTimeout : Duration; f_WriteTimeout : Duration; f_TLSConfig : option TLS
}.

(** [asynq.RedisConnOpt], by its dynamic type: a pointer to an option struct, the
    struct itself, or another implementation. *)
Inductive RedisConnOpt :=
| PClient (o : RedisClientOpt) | VClient (o : RedisClientOpt)
| PCluster (o : RedisClusterClientOpt) | VCluster (o : RedisClusterClientOpt)
| PFailover (o : RedisFailoverClientOpt) | VFailover (o : RedisFailoverClientOpt)
| OtherConn.

(** The connection parameters of [Server]; nil pointers are [None]. *)
Record RedisParams := mkParams {
  addresses : list string;
  username : option string; password : option string; db : option Z; poolSize : option Z;
  dialTimeout : option Duration; readTimeout : option Duration; writeTimeout : option Duration;
  tlsConfig : option TLS; maxRedirects : option Z; masterName : option string;
  sentinelUsername : option string; sentinelPassword : option string; network : option string
}.

Definition no_params : RedisParams :=
  mkParams [] None None None None None None None None None None None None None.

(** [func (s *Server) updateRedisClientOpt(opt *asynq.RedisClientOpt)] *)
Definition updateRedisClientOpt (p : RedisParams) (opt : RedisClientOpt) : RedisClientOpt :=
  mkRedisClientOpt
    (default (c_Network opt) (network p))
    (match addresses p with a :: _ => a | [] => c_Addr opt end)
    (default (c_Username opt) (username p))
    (default (c_Password opt) (password p))
    (default (c_DB opt) (db p))
    (default (c_PoolSize opt) (poolSize p))
    (default (c_DialTimeout opt) (dialTimeout p))
    (default (c_ReadTimeout opt) (readTimeout p))
    (default (c_WriteTimeout opt) (writeTimeout p))
    (match tlsConfig p with Some t => Some t | None => c_TLSConfig opt end).

(** [func (s *Server) updateRedisClusterClientOpt(opt *asynq.RedisClusterClientOpt)] *)
Definition updateRedisClusterClientOpt (p : RedisParams) (opt : RedisClusterClientOpt) : RedisClusterClientOpt :=
  mkRedisClusterClientOpt
    (match addresses p with [] => k_Addrs opt | a => a end)
    (default (k_MaxRedirects opt) (maxRedirects p))
    (default (k_Username opt) (username p))
    (default (k_Password opt) (password p))
    (default (k_DialTimeout opt) (dialTimeout p))
    (default (k_ReadTimeout opt) (readTimeout p))
    (default (k_WriteTimeout opt) (writeTimeout p))
    (match tlsConfig p with Some t => Some t | None => k_TLSConfig opt end).

(** [func (s *Server) updateRedisFailoverClientOpt(opt *asynq.RedisFailoverClientOpt)] *)
Definition updateRedisFailoverClientOpt (p : RedisParams) (opt : RedisFailoverClientOpt) : RedisFailoverClientOpt :=
  mkRedisFailoverClientOpt
    (default (f_MasterName opt) (masterName p))
    (match addresses p with [] => f_SentinelAddrs opt | a => a end)
    (default (f_SentinelUsername opt) (sentinelUsername p))
    (default (f_SentinelPassword opt) (sentinelPassword p))
    (default (f_Username opt) (username p))
    (default (f_Password opt) (password p))
    (default (f_DB opt) (db p))
    (default (f_PoolSize opt) (poolSize p))
    (default (f_DialTimeout opt) (dialTimeout p))
    (default (f_ReadTimeout opt) (readTimeout p))
    (default (f_WriteTimeout opt) (writeTimeout p))
    (match tlsConfig p with Some t => Some t | None => f_TLSConfig opt end).

(** [func (s *Server) applyRedisOptions()]: in the cases of the struct types [v] is a
    copy, so the update is of the copy and [s.redisConnOpt] stays as it is. *)
Definition applyRedisOptions (p : RedisParams) (conn : RedisConnOpt) : RedisConnOpt :=
  match conn with
  | PClient v => PClient (updateRedisClientOpt p v)
  | VClient v => let _copy := updateRedisClientOpt p v in VClient v
  | PCluster v => PCluster (updateRedisClusterClientOpt p v)
  | VCluster v => let _copy := updateRedisClusterClientOpt p v in VCluster v
  | PFailover v => PFailover (updateRedisFailoverClientOpt p v)
  | VFailover v => let _copy := updateRedisFailoverClientOpt p v in VFailover v
  | OtherConn => OtherConn
  end.

Definition defaultRedisAddress : string := "127.0.0.1:6379".

(** [newRedisClientOpt], [newRedisClusterClientOpt], [newRedisFailoverClientOpt] *)
Definition newRedisClientOpt : RedisConnOpt := PClient (mkRedisClientOpt "" defaultRedisAddress "" "" 0 0 0 0 0 None).
Definition newRedisClusterClientOpt : RedisConnOpt := PCluster (mkRedisClusterClientOpt [defaultRedisAddress] 0 "" "" 0 0 0 None).
Definition newRedisFailoverClientOpt : RedisConnOpt :=
  PFailover (mkRedisFailoverClientOpt "mymaster" [defaultRedisAddress] "" "" "" "" 0 0 0 0 0 None).

(** [fmt.Sprintf("%v", addrs)] *)
Definition addrs_text (addrs : list string) : string := "[" ++ String.concat " " addrs ++ "]".

(** [func (s *Server) Endpoint() string] *)
Definition Endpoint (conn : RedisConnOpt) : string :=
  match conn with
  | PClient v | VClient v => "asynq://" ++ c_Addr v
  | PCluster v | VCluster v => "asynq://cluster:" ++ addrs_text (k_Addrs v)
  | PFailover v | VFailover v => "asynq://" ++ f_MasterName v ++ "@" ++ addrs_text (f_SentinelAddrs v)
  | OtherConn => "asynq://unknown"
  end.
End redis.
Arguments RedisConnOpt : clear implicits.
Arguments RedisParams : clear implicits.

(** * The server and its options *)

(** [*asynq.Task] and [*asynq.TaskInfo]; the states the code tells apart. *)
Record Task := mkTask { task_Type : string; task_Payload : bytes }.

Inductive TaskState := TaskStateCompleted | TaskStateArchived | TaskStateRetry | TaskStateOther (name : string).

Definition state_text (st : TaskState) : string :=
  match st with
  | TaskStateCompleted => "completed"
  | TaskStateArchived => "archived"
  | TaskStateRetry => "retry"
  | TaskStateOther n => n
  end.

Record TaskInfo := mkTaskInfo { info_ID : string; info_Queue : string; info_State : TaskState }.

Section server.
Context {TLS V : Type}.

(** [type Server struct]; of [asynqConfig] the fields the code reads itself. *)
Record Server := mkServer {
  started : bool;
  server : bool; client : bool; scheduler : bool; inspector : bool;
  serverEnabled : bool; clientEnabled : bool; schedulerEnabled : bool;
  asynq_Concurrency : Z; asynq_Queues : option (gmap string Z);
  redisConnOpt : RedisConnOpt TLS;
  params : RedisParams TLS;
  gracefullyShutdown : bool;
  codec : option (Codec V);
  entryIDs : gmap string string;
  typeNameMap : gset string
}.

Definition set_started (x : bool) (s : Server) : Server :=
  mkServer x (server s) (client s) (scheduler s) (inspector s) (serverEnabled s) (clientEnabled s) (schedulerEnabled s)
    (asynq_Concurrency s) (asynq_Queues s) (redisConnOpt s) (params s) (gracefullyShutdown s) (codec s) (entryIDs s) (typeNameMap s).
Definition set_objects (srv cl sch ins : bool) (s : Server) : Server :=
  mkServer (started s) srv cl sch ins (serverEnabled s) (clientEnabled s) (schedulerEnabled s)
    (asynq_Concurrency s) (asynq_Queues s) (redisConnOpt s) (params s) (gracefullyShutdown s) (codec s) (entryIDs s) (typeNameMap s).
Definition set_enabled (srv cl sch : bool) (s : Server) : Server :=
  mkServer (started s) (server s) (client s) (scheduler s) (inspector s) srv cl sch
    (asynq_Concurrency s) (asynq_Queues s) (redisConnOpt s) (params s) (gracefullyShutdown s) (codec s) (entryIDs s) (typeNameMap s).
Definition set_config (c : Z) (q : option (gmap string Z)) (g : bool) (s : Server) : Server :=
  mkServer (started s) (server s) (client s) (scheduler s) (inspector s) (serverEnabled s) (clientEnabled s) (schedulerEnabled s)
    c q (redisConnOpt s) (params s) g (codec s) (entryIDs s) (typeNameMap s).
Definition set_conn (x : RedisConnOpt TLS) (s : Server) : Server :=
  mkServer (started s) (server s) (client s) (scheduler s) (inspector s) (serverEnabled s) (clientEnabled s) (schedulerEnabled s)
    (asynq_Concurrency s) (asynq_Queues s) x (params s) (gracefullyShutdown s) (codec s) (entryIDs s) (typeNameMap s).
Definition set_params (f : RedisParams TLS -> RedisParams TLS) (s : Server) : Server :=
  mkServer (started s) (server s) (client s) (scheduler s) (inspector s) (serverEnabled s) (clientEnabled s) (schedulerEnabled s)
    (asynq_Concurrency s) (asynq_Queues s) (redisConnOpt s) (f (params s)) (gracefullyShutdown s) (codec s) (entryIDs s) (typeNameMap s).
Definition set_codec (x : option (Codec V)) (s : Server) : Server :=
  mkServer (started s) (server s) (client s) (scheduler s) (inspector s) (serverEnabled s) (clientEnabled s) (schedulerEnabled s)
    (asynq_Concurrency s) (asynq_Queues s) (redisConnOpt s) (params s) (gracefullyShutdown s) x (entryIDs s) (typeNameMap s).
Definition set_entryIDs (x : gmap string string) (s : Server) : Server :=
  mkServer (started s) (server s) (client s) (scheduler s) (inspector s) (serverEnabled s) (clientEnabled s) (schedulerEnabled s)
    (asynq_Concurrency s) (asynq_Queues s) (redisConnOpt s) (params s) (gracefullyShutdown s) (codec s) x (typeNameMap s).
Definition set_typeNameMap (x : gset string) (s : Server) : Server :=
  mkServer (started s) (server s) (client s) (scheduler s) (inspector s) (serverEnabled s) (clientEnabled s) (schedulerEnabled s)
    (asynq_Concurrency s) (asynq_Queues s) (redisConnOpt s) (params s) (gracefullyShutdown s) (codec s) (entryIDs s) x.

(** ** [options.go]

    An option that panics is [None]. *)
Abbreviation Option := (Server -> option Server).

Definition WithRedisType (redisType : string) : Option := fun s =>
  if String.eqb redisType "single" then Some (set_conn newRedisClientOpt s)
  else if String.eqb redisType "cluster" then Some (set_conn newRedisClusterClientOpt s)
  else if String.eqb redisType "sentinel" then Some (set_conn newRedisFailoverClientOpt s)
  else None.

Definition WithRedisConnOpt (conn : RedisConnOpt TLS) : Option := fun s => Some (set_conn conn s).

(** [asynq.ParseRedisURI] is the library's. *)
Definition WithRedisURI (ParseRedisURI : string -> RedisConnOpt TLS + error) (uri : string) : Option := fun s =>
  match ParseRedisURI uri with
  | inr _ => None
  | inl conn => Some (set_conn conn s)
  end.

Definition WithRedisAddresses (a : list string) : Option := fun s => Some (set_params (fun p =>
  mkParams a (username p) (password p) (db p) (poolSize p) (dialTimeout p) (readTimeout p) (writeTimeout p) (tlsConfig p)
    (maxRedirects p) (masterName p) (sentinelUsername p) (sentinelPassword p) (network p)) s).

Definition WithRedisAddress (address : string) : Option := WithRedisAddresses [address].

Definition WithRedisUsername (x : string) : Option := fun s => Some (set_params (fun p =>
  mkParams (addresses p) (Some x) (password p) (db p) (poolSize p) (dialTimeout p) (readTimeout p) (writeTimeout p) (tlsConfig p)
    (maxRedirects p) (masterName p) (sentinelUsername p) (sentinelPassword p) (network p)) s).

Definition WithRedisPassword (x : string) : Option := fun s => Some (set_params (fun p =>
  mkParams (addresses p) (username p) (Some x) (db p) (poolSize p) (dialTimeout p) (readTimeout p) (writeTimeout p) (tlsConfig p)
    (maxRedirects p) (masterName p) (sentinelUsername p) (sentinelPassword p) (network p)) s).

Definition WithRedisAuth (u x : string) : Option := fun s => Some (set_params (fun p =>
  mkParams (addresses p) (Some u) (Some x) (db p) (poolSize p) (dialTimeout p) (readTimeout p) (writeTimeout p) (tlsConfig p)
    (maxRedirects p) (masterName p) (sentinelUsername p) (sentinelPassword p) (network p)) s).

Definition WithRedisDB (x : Z) : Option := fun s => Some (set_params (fun p =>
  mkParams (addresses p) (username p) (password p) (Some x) (poolSize p) (dialTimeout p) (readTimeout p) (writeTimeout p) (tlsConfig p)
    (maxRedirects p) (masterName p) (sentinelUsername p) (sentinelPassword p) (network p)) s).

Definition WithMasterName (x : option string) : Option := fun s => Some (set_params (fun p =>
  mkParams (addresses p) (username p) (password p) (db p) (poolSize p) (dialTimeout p) (readTimeout p) (writeTimeout p) (tlsConfig p)
    (maxRedirects p) x (sentinelUsername p) (sentinelPassword p) (network p)) s).

Definition WithSentinelAuth (u x : option string) : Option := fun s => Some (set_params (fun p =>
  mkParams (addresses p) (username p) (password p) (db p) (poolSize p) (dialTimeout p) (readTimeout p) (writeTimeout p) (tlsConfig p)
    (maxRedirects p) (masterName p) u x (network p)) s).

Definition WithConcurrency (concurrency : Z) : Option := fun s =>
  Some (set_config concurrency (asynq_Queues s) (gracefullyShutdown s) s).

(** [func WithQueues(queues map[string]int32) Option] *)
Definition WithQueues (queues : gmap string Z) : Option := fun s =>
  let q := default ∅ (asynq_Queues s) in
  let q' :=
    if (size queues =? 0)%nat then
      if (size q =? 0)%nat then
        let weight := if 0 <? asynq_Concurrency s then asynq_Concurrency s else 1 in
        <["default" := weight]> q
      else q
    else map_fold (fun k v q => <[k := v]> q) q queues in
  Some (set_config (asynq_Concurrency s) (Some q') (gracefullyShutdown s) s).

Definition WithGracefullyShutdown (enable : bool) : Option := fun s =>
  Some (set_config (asynq_Concurrency s) (asynq_Queues s) enable s).

Definition WithCodec (cs : gmap string (Codec V)) (name : string) : Option := fun s =>
  if negb (String.eqb name "") then Some (set_codec (GetCodec name cs) s) else Some s.

Definition WithServerEnabled (enabled : bool) : Option := fun s => Some (set_enabled enabled (clientEnabled s) (schedulerEnabled s) s).
Definition WithClientEnabled (enabled : bool) : Option := fun s => Some (set_enabled (serverEnabled s) enabled (schedulerEnabled s) s).
Definition WithSchedulerEnabled (enabled : bool) : Option := fun s => Some (set_enabled (serverEnabled s) (clientEnabled s) enabled s).
End server.
Arguments Server : clear implicits.

(** * The library *)

(** What the server calls of [hibiken/asynq], over a world [W]; [AO] are the
    library's own options.  A constructor tells whether it returned a pointer;
    [server_Shutdown] tells whether it returned before the context was done. *)
Class Library (TLS AO W : Type) := {
  NewAsynqServer : RedisConnOpt TLS -> W -> bool * W;
  NewClient : RedisConnOpt TLS -> W -> bool * W;
  NewScheduler : RedisConnOpt TLS -> W -> bool * W;
  NewInspector : RedisConnOpt TLS -> W -> bool * W;
  asynq_NewTask : string -> bytes -> list AO -> option Task;
  scheduler_Start : W -> option error * W;
  scheduler_Shutdown : W -> W;
  scheduler_Register : string -> Task -> list AO -> W -> (string + error) * W;
  scheduler_Unregister : string -> W -> option error * W;
  server_Run : W -> W;
  server_Shutdown : W -> bool * W;
  server_Stop : W -> W;
  client_Enqueue : Task -> list AO -> W -> (TaskInfo + error) * W;
  client_Close : W -> option error * W;
  inspector_Close : W -> option error * W;
  GetTaskInfo : string -> string -> W -> (TaskInfo + error) * W;
  time_Sleep : Duration -> W -> W
}.

Section operations.
Context {TLS V AO W : Type} `{L : Library TLS AO W} `{R : Runtime W}.
Context (range : forall A, gmap string A -> list (string * A)).

Abbreviation Srv := (Server TLS V).
Abbreviation St := (Srv * W)%type.

(** A call of the library. *)
Definition lib {A} (f : W -> A * W) : Go St A := fun '(s, w) => let '(a, w') := f w in (Returned a, (s, w')).
Definition lib_ (f : W -> W) : Go St unit := fun '(s, w) => (Returned tt, (s, f w)).
Definition self : Go St Srv := fun '(s, w) => (Returned s, (s, w)).
Definition update (f : Srv -> Srv) : Go St unit := fun '(s, w) => (Returned tt, (f s, w)).

(** ** [createAsynqServer], [createAsynqClient], [createAsynqScheduler],
    [createAsynqInspector] *)

Definition createAsynqServer : Go St (option error) :=
  s ← self;
  if negb (serverEnabled s) || server s then mret None
  else
    ok ← lib (NewAsynqServer (redisConnOpt s));
    update (fun s => set_objects ok (client s) (scheduler s) (inspector s) s) ;;
    mret (if ok : bool then None else Some (Errorf "create asynq server failed")).

Definition createAsynqClient : Go St (option error) :=
  s ← self;
  if negb (clientEnabled s) || client s then mret None
  else
    ok ← lib (NewClient (redisConnOpt s));
    update (fun s => set_objects (server s) ok (scheduler s) (inspector s) s) ;;
    mret (if ok : bool then None else Some (Errorf "create asynq client failed")).

Definition createAsynqScheduler : Go St (option error) :=
  s ← self;
  if negb (schedulerEnabled s) || scheduler s then mret None
  else
    ok ← lib (NewScheduler (redisConnOpt s));
    update (fun s => set_objects (server s) (client s) ok (inspector s) s) ;;
    mret (if ok : bool then None else Some (Errorf "create asynq scheduler failed")).

Definition createAsynqInspector : Go St (option error) :=
  s ← self;
  if inspector s then mret None
  else
    ok ← lib (NewInspector (redisConnOpt s));
    update (fun s => set_objects (server s) (client s) (scheduler s) ok s) ;;
    mret (if ok : bool then None else Some (Errorf "create asynq inspector failed")).

(** ** [NewServer] and [init] *)

Definition literal (cs : gmap string (Codec V)) : Srv :=
  mkServer false false false false false true true true 20 None newRedisClientOpt no_params false (GetCodec "json" cs) ∅ ∅.

Fixpoint apply_options (opts : list (Srv -> option Srv)) (s : Srv) : option Srv :=
  match opts with
  | [] => Some s
  | o :: opts' => s' ← o s; apply_options opts' s'
  end.

(** Errors of the creations are logged. *)
Definition NewServer (cs : gmap string (Codec V)) (opts : list (Srv -> option Srv)) (w : W) : result Srv * W :=
  match apply_options opts (literal cs) with
  | None => (Panicked, w)
  | Some s =>
      let s := set_conn (applyRedisOptions (params s) (redisConnOpt s)) s in
      let '(r, (s', w')) := (createAsynqServer ;; createAsynqClient ;; createAsynqScheduler) (s, w) in
      match r with Returned _ => (Returned s', w') | Panicked => (Panicked, w') end
  end.

(** ** Periodic tasks *)

(** [func (s *Server) QueryPeriodicTaskEntryID(taskId string) string] *)
Definition QueryPeriodicTaskEntryID (taskId : string) (s : Srv) : string := default "" (entryIDs s !! taskId).

(** [addPeriodicTaskEntryID] and [removePeriodicTaskEntryID] *)
Definition addPeriodicTaskEntryID (taskId entryId : string) : Go St unit :=
  update (fun s => set_entryIDs (<[taskId := entryId]> (entryIDs s)) s).
Definition removePeriodicTaskEntryID (taskId : string) : Go St unit :=
  update (fun s => set_entryIDs (delete taskId (entryIDs s)) s).

(** [func (s *Server) unregisterPeriodicTask(entryId string) error] *)
Definition unregisterPeriodicTask (entryId : string) : Go St (option error) :=
  s ← self;
  if negb (scheduler s) then mret None else lib (scheduler_Unregister entryId).

(** A method call on a pointer that may be nil. *)
Definition on_object {A} (present : bool) (m : Go St A) : Go St A := if present then m else go_panic.

(** [s.codec.Marshal(msg)] *)
Definition marshal (msg : V) : Go St (bytes + error) :=
  s ← self;
  match codec s with
  | None => go_panic
  | Some c => mret (codec_Marshal c msg)
  end.

(** [func (s *Server) NewPeriodicTask], in three parts: the scheduler made on demand,
    the registration of the marshalled task, and the whole. *)
Definition demand_scheduler : Go St (option error) :=
  s ← self;
  if scheduler s then mret None
  else
    e ← createAsynqScheduler;
    match e with
    | Some err => mret (Some err)
    | None =>
        update (fun s => if schedulerEnabled s then s else set_enabled (serverEnabled s) (clientEnabled s) true s) ;;
        mret None
    end.

Definition register_entry (cronSpec typeName : string) (task : Task) (opts : list AO) : Go St (string + error) :=
  r ← lib (scheduler_Register cronSpec task opts);
  match r with
  | inr err => mret (inr (Wrapf ("[" ++ typeName ++ "] register periodic task failed: ") err))
  | inl entryID => addPeriodicTaskEntryID typeName entryID ;; mret (inl entryID)
  end.

Definition register_periodic (cronSpec typeName : string) (msg : V) (opts : list AO) : Go St (string + error) :=
  p ← marshal msg;
  match p with
  | inr err => mret (inr err)
  | inl payload =>
      match asynq_NewTask typeName payload opts with
      | None => mret (inr (Errorf "new task failed"))
      | Some task => s ← self; on_object (scheduler s) (register_entry cronSpec typeName task opts)
      end
  end.

Definition NewPeriodicTask (cronSpec typeName : string) (msg : V) (opts : list AO) : Go St (string + error) :=
  if String.eqb cronSpec "" then mret (inr (Errorf "cronSpec cannot be empty"))
  else if String.eqb typeName "" then mret (inr (Errorf "typeName cannot be empty"))
  else
    created ← demand_scheduler;
    match created with
    | Some err => mret (inr err)
    | None => register_periodic cronSpec typeName msg opts
    end.

(** [func (s *Server) RemovePeriodicTask(taskId string) error] *)
Definition RemovePeriodicTask (taskId : string) : Go St (option error) :=
  s ← self;
  let entryId := QueryPeriodicTaskEntryID taskId s in
  if String.eqb entryId "" then mret (Some (Errorf ("[" ++ taskId ++ "] periodic task not found")))
  else
    e ← unregisterPeriodicTask entryId;
    match e with
    | Some err => mret (Some err)
    | None => removePeriodicTaskEntryID taskId ;; mret None
    end.

Fixpoint unregister_all (ids : list (string * string)) : Go St unit :=
  match ids with
  | [] => mret tt
  | (_, v) :: ids' => unregisterPeriodicTask v ;; unregister_all ids'
  end.

(** [removeAllPeriodicTaskInternal], which [RemoveAllPeriodicTask] calls *)
Definition RemoveAllPeriodicTask : Go St unit :=
  s ← self;
  let ids := entryIDs s in
  update (set_entryIDs ∅) ;;
  unregister_all (range _ ids).

(** ** Start and stop *)

(** [func (s *Server) stopInternal(ctx context.Context) error]; the last error wins. *)
Definition stopInternal : Go St (option error) :=
  RemoveAllPeriodicTask ;;
  s ← self;
  (if scheduler s then lib_ scheduler_Shutdown else mret tt) ;;
  (if server s then
     if gracefullyShutdown s then
       finished ← lib server_Shutdown;
       if finished : bool then mret tt else lib_ server_Stop
     else lib_ server_Stop
   else mret tt) ;;
  e1 ← (if client s then lib client_Close else mret None);
  e2 ← (if inspector s then lib inspector_Close else mret None);
  mret (match e2 with Some e => Some e | None => e1 end).

(** [Start] up to [<-ctx.Done()] *)
Definition Start_begin : Go St (option (option error)) :=
  s ← self;
  if started s then mret (Some None)
  else
    e1 ← (if server s then mret None else createAsynqServer);
    match e1 with
    | Some err => mret (Some (Some err))
    | None =>
        s ← self;
        e2 ← (if scheduler s then mret None else createAsynqScheduler);
        match e2 with
        | Some err => mret (Some (Some err))
        | None =>
            update (set_started true) ;;
            s ← self;
            e3 ← (if schedulerEnabled s && scheduler s then lib scheduler_Start else mret None);
            match e3 with
            | Some err => update (set_started false) ;; mret (Some (Some (Wrapf "asynq scheduler start failed: " err)))
            | None =>
                (if serverEnabled s && server s then lib_ server_Run else mret tt) ;;
                mret None
            end
        end
    end.

(** [Start] after [<-ctx.Done()] *)
Definition Start_finish : Go St (option error) := update (set_started false) ;; stopInternal.

(** [func (s *Server) Stop(ctx context.Context) error] *)
Definition Stop : Go St (option error) :=
  s ← self;
  if negb (started s) then stopInternal else update (set_started false) ;; stopInternal.

(** ** Tasks *)

Definition defaultWaitResultPollInterval : Duration := 1 * Second.
Definition defaultWaitResultTimeout : Duration := 5 * 60 * Second.

(** [Time.After], on the monotonic readings when both times carry one. *)
Definition After (t u : Time) : bool :=
  match mono t, mono u with
  | Some a, Some b => b <? a
  | _, _ => wall u <? wall t
  end.

(** The passes of [func waitResult]'s loop; [None] when the fuel is used up. *)
Fixpoint wait_loop (fuel : nat) (info : TaskInfo) (deadline : Time) (w : W) : option ((TaskInfo + error) * W) :=
  match fuel with
  | O => None
  | S fuel' =>
      let '(r, w1) := GetTaskInfo (info_Queue info) (info_ID info) w in
      match r with
      | inr err => Some (inr err, w1)
      | inl taskInfo =>
          match info_State taskInfo with
          | TaskStateCompleted => Some (inl taskInfo, w1)
          | TaskStateArchived | TaskStateRetry =>
              Some (inr (Errorf ("task state is " ++ state_text (info_State taskInfo))), w1)
          | TaskStateOther _ =>
              let '(now, w2) := time_Now w1 in
              if After now deadline then
                Some (inr (Errorf ("wait result timed out after 5m0s (task state: " ++ state_text (info_State taskInfo) ++ ")")), w2)
              else wait_loop fuel' info deadline (time_Sleep defaultWaitResultPollInterval w2)
          end
      end
  end.

Definition waitResult (fuel : nat) (info : TaskInfo) (w : W) : option ((TaskInfo + error) * W) :=
  let '(t, w1) := time_Now w in
  wait_loop fuel info (time_after t defaultWaitResultTimeout) w1.

(** What [NewTask] and [NewWaitResultTask] begin with. *)
Definition enqueue (typeName : string) (msg : V) (opts : list AO) : Go St (TaskInfo + error) :=
  if String.eqb typeName "" then mret (inr (Errorf "typeName cannot be empty"))
  else
    s ← self;
    created ← (if client s then mret None else createAsynqClient);
    match created with
    | Some err => mret (inr err)
    | None =>
        p ← marshal msg;
        match p with
        | inr err => mret (inr err)
        | inl payload =>
            match asynq_NewTask typeName payload opts with
            | None => mret (inr (Errorf "new task failed"))
            | Some task =>
                s ← self;
                r ← on_object (client s) (lib (client_Enqueue task opts));
                match r with
                | inr err => mret (inr (Wrapf ("[" ++ typeName ++ "] enqueue failed: ") err))
                | inl taskInfo => mret (inl taskInfo)
                end
            end
        end
    end.

(** [func (s *Server) NewTask(typeName string, msg any, opts ...asynq.Option) error] *)
Definition NewTask (typeName : string) (msg : V) (opts : list AO) : Go St (option error) :=
  r ← enqueue typeName msg opts;
  mret (match r with inl _ => None | inr err => Some err end).

Definition wait (fuel : nat) (info : TaskInfo) : Go St (option (TaskInfo + error)) := fun '(s, w) =>
  match waitResult fuel info w with
  | None => (Returned None, (s, w))
  | Some (r, w') => (Returned (Some r), (s, w'))
  end.

(** [func (s *Server) NewWaitResultTask]; [None] when the fuel of the wait is used
    up. *)
Definition NewWaitResultTask (fuel : nat) (typeName : string) (msg : V) (opts : list AO) : Go St (option (option error)) :=
  r ← enqueue typeName msg opts;
  match r with
  | inr err => mret (Some (Some err))
  | inl taskInfo =>
      s ← self;
      created ← (if inspector s then mret None else createAsynqInspector);
      match created with
      | Some err => mret (Some (Some err))
      | None =>
          w ← wait fuel taskInfo;
          match w with
          | None => mret None
          | Some (inr err) => mret (Some (Some (Wrapf ("[" ++ typeName ++ "] wait result failed: ") err)))
          | Some (inl _) => mret (Some None)
          end
      end
  end.
End operations.

(** ** Handlers *)

(** [asynq.ServeMux], a parameter: [HandleFunc] panics ([None]) on a pattern it has
    or on an empty one; a task goes to the handler of the closest pattern. *)
Class Mux (M H : Type) := {
  HandleFunc : string -> H -> M -> option M;
  mux_Handler : M -> string -> option H;
  mux_patterns : M -> gmap string H;
  HandleFunc_spec m m' p h :
    HandleFunc p h m = Some m' -> p <> "" /\ mux_patterns m !! p = None /\ mux_patterns m' = <[p := h]> (mux_patterns m);
  mux_Handler_exact m p h : mux_patterns m !! p = Some h -> mux_Handler m p = Some h
}.

Section handlers.
Context {TLS V X M C : Type} (raw : bytes -> V).
(** A task handler runs with the context of the library and the server's codec,
    over a store [X] of the application. *)
Abbreviation TaskHandler := (C -> option (Codec V) -> Task -> Go X (option error)).
Abbreviation MessageHandler := (string -> V -> Go X (option error)).
Context `{mux : Mux M TaskHandler}.
Abbreviation Srv := (Server TLS V).

(** The function [RegisterSubscriberWithCtx] gives to the mux; the one of
    [RegisterSubscriber] has the same text and does not pass the context on. *)
Definition task_handler (handler : C -> MessageHandler) (creator : option (unit -> V)) : TaskHandler := fun ctx codec task =>
  match creator with
  | Some create =>
      match codec with
      | None => go_panic
      | Some c =>
          match codec_Unmarshal c (task_Payload task) (create tt) with
          | (Some err, _) => mret (Some err)
          | (None, payload) => handler ctx (task_Type task) payload
          end
      end
  | None => handler ctx (task_Type task) (raw (task_Payload task))
  end.

(** [func (s *Server) RegisterSubscriberWithCtx] *)
Definition RegisterSubscriberWithCtx (taskType : string) (handler : C -> MessageHandler) (creator : option (unit -> V)) :
    Go (Srv * M) (option error) := fun '(s, m) =>
  if started s then (Returned (Some (Errorf "cannot register handler, server already started")), (s, m))
  else
    match HandleFunc taskType (task_handler handler creator) m with
    | None => (Panicked, (s, m))
    | Some m' => (Returned None, (set_typeNameMap ({[taskType]} ∪ typeNameMap s) s, m'))
    end.

(** [func (s *Server) RegisterSubscriber(taskType string, handler MessageHandler, creator Creator) error] *)
Definition RegisterSubscriber (taskType : string) (handler : MessageHandler) (creator : option (unit -> V)) :
    Go (Srv * M) (option error) := fun '(s, m) =>
  if started s then (Returned (Some (Errorf "cannot register handler, server already started")), (s, m))
  else
    match HandleFunc taskType (task_handler (fun _ => handler) creator) m with
    | None => (Panicked, (s, m))
    | Some m' => (Returned None, (set_typeNameMap ({[taskType]} ∪ typeNameMap s) s, m'))
    end.

(** The handler of the generic [RegisterSubscriber[T any]]; [as_ptr] is the type
    assertion to [*T], [type_of] the text of [%T]. *)
Definition typed_task_handler {T} (as_ptr : V -> option T) (type_of : V -> string) (handler : string -> T -> Go X (option error)) :
    MessageHandler := fun taskType payload =>
  match as_ptr payload with
  | Some t => handler taskType t
  | None => mret (Some (Errorf ("invalid payload struct type: " ++ type_of payload)))
  end.

(** [TaskTypeExists] and [GetRegisteredTaskTypes] *)
Definition TaskTypeExists (taskType : string) (s : Srv) : bool := bool_decide (taskType ∈ typeNameMap s).
Definition GetRegisteredTaskTypes (s : Srv) : list string := elements (typeNameMap s).
End handlers.

(** * Properties *)

(** ** Waiting for a result *)

(** A clock that does not go back: [now] is the monotonic reading. *)
Class Clock (TLS AO W : Type) `{Library TLS AO W} `{Runtime W} := {
  now : W -> Z;
  now_Now w : mono (fst (time_Now w)) = Some (now w) /\ now w <= now (snd (time_Now w));
  now_Sleep d w : now w + d <= now (time_Sleep d w);
  now_GetTaskInfo q i w : now w <= now (snd (GetTaskInfo q i w))
}.

Section waiting.
Context {TLS AO W : Type} `{Clock TLS AO W}.

Lemma wait_loop_returns fuel info deadline d w :
  mono deadline = Some d -> d - now w < (Z.of_nat fuel - 1) * Second -> (0 < fuel)%nat ->
  exists r w', wait_loop fuel info deadline w = Some (r, w') /\
    (forall fuel', (fuel <= fuel')%nat -> wait_loop fuel' info deadline w = Some (r, w')) /\
    (forall ti, r = inl ti -> info_State ti = TaskStateCompleted).
Proof.
  intros Hd. revert w. induction fuel as [|fuel IH]; intros w Hw Hf; [lia|]. simpl.
  pose proof (now_GetTaskInfo (info_Queue info) (info_ID info) w) as Hg.
  destruct (GetTaskInfo (info_Queue info) (info_ID info) w) as [[ti|e] w1] eqn:Eg; simpl in Hg.
  2: { do 2 eexists. split_and!; [done| |done]. intros [|f] Hle; [lia|]. simpl. by rewrite Eg. }
  destruct (info_State ti) eqn:Est.
  1-3: do 2 eexists; (split_and!; [done| |]); [|congruence]; intros [|f] Hle; [lia|]; simpl; by rewrite Eg, Est.
  pose proof (now_Now w1) as [Hm Hle1]. destruct (time_Now w1) as [t w2] eqn:Et. simpl in Hm, Hle1.
  destruct (After t deadline) eqn:Ea.
  - do 2 eexists. split_and!; [done| |done]. intros [|f] Hle; [lia|]. simpl. by rewrite Eg, Est, Et, Ea.
  - unfold After in Ea. rewrite Hm, Hd in Ea. apply Z.ltb_ge in Ea.
    pose proof (now_Sleep defaultWaitResultPollInterval w2) as Hs. unfold defaultWaitResultPollInterval, Second in *.
    destruct (IH (time_Sleep (1 * Second) w2)) as (r&w'&E&Hmore&Hok); [unfold Second in *; lia|lia|].
    exists r, w'. split_and!; [exact E| |done]. intros [|f] Hle; [lia|]. simpl. rewrite Eg, Est, Et. unfold After.
    rewrite Hm, Hd. replace (d <? now w1) with false by lia. apply Hmore. lia.
Qed.

(** C31: Waiting for a task ends: with a clock that does not go back and a poll every
    second, [waitResult] returns after at most 302 polls whatever the inspector
    answers, with the task only when it is completed and otherwise with an error;
    more fuel gives the same result. *)
Theorem asynq_wait_terminates info (w : W) :
  exists r w', (forall fuel, (302 <= fuel)%nat -> waitResult fuel info w = Some (r, w')) /\
    match r with
    | inl ti => info_State ti = TaskStateCompleted
    | inr _ => True
    end.
Proof.
  unfold waitResult. pose proof (now_Now w) as [Hm Hle]. destruct (time_Now w) as [t w1]. simpl in Hm, Hle.
  destruct (wait_loop_returns 302 info (time_after t defaultWaitResultTimeout) (now w + defaultWaitResultTimeout) w1) as (r&w'&_&Hf&Hok).
  - unfold time_after. simpl. by rewrite Hm.
  - unfold defaultWaitResultTimeout, Second. lia.
  - lia.
  - exists r, w'. split; [exact Hf|]. destruct r; auto.
Qed.
End waiting.

(** ** Periodic tasks *)

(** The entries of the library's scheduler, by id: a successful [Register] adds a new
    one under a non-empty id, [Unregister] removes the one it is given and fails
    only when there is none. *)
Class SchedulerLaws (TLS AO W : Type) `{Library TLS AO W} (entry : W -> string -> Prop) : Prop := {
  entry_New c w x : entry (snd (NewScheduler c w)) x <-> entry w x;
  entry_Register c t o w :
    match scheduler_Register c t o w with
    | (inl id, w') => id <> "" /\ ~ entry w id /\ forall x, entry w' x <-> x = id \/ entry w x
    | (inr _, w') => forall x, entry w' x <-> entry w x
    end;
  entry_Unregister id w x : entry (snd (scheduler_Unregister id w)) x <-> x <> id /\ entry w x;
  Unregister_ok id w : entry w id -> fst (scheduler_Unregister id w) = None
}.

Section periodic.
Context {TLS V AO W : Type} `{L : Library TLS AO W} {entry : W -> string -> Prop} `{!SchedulerLaws TLS AO W entry}.
Context (range : forall A, gmap string A -> list (string * A)).
Context (range_entries : forall A (x : gmap string A), range A x ≡ₚ map_to_list x).
Abbreviation Srv := (Server TLS V).
Abbreviation St := (Srv * W)%type.

Inductive periodic_op :=
| NewPeriodic (cronSpec typeName : string) (msg : V) (opts : list AO)
| RemovePeriodic (taskId : string)
| RemoveAllPeriodic.

(** The state after a call, also when the call panics. *)
Definition apply_periodic (o : periodic_op) (st : St) : St :=
  match o with
  | NewPeriodic c t m opts => snd (NewPeriodicTask c t m opts st)
  | RemovePeriodic t => snd (RemovePeriodicTask t st)
  | RemoveAllPeriodic => snd (RemoveAllPeriodicTask range st)
  end.

(** A registration with result [r] when the type had the entry [old]: the entry that is
    forgotten, and the ids afterwards. *)
Definition superseded (r : result (string + error)) (old : option string) : list string :=
  match r with Returned (inl _) => option_list old | _ => [] end.
Definition ids_after (r : result (string + error)) (t : string) (ids : gmap string string) : gmap string string :=
  match r with Returned (inl id) => <[t := id]> ids | _ => ids end.

(** The entry a second, successful registration of a type replaces. *)
Definition replaced (o : periodic_op) (st : St) : list string :=
  match o with
  | NewPeriodic c t m opts => superseded (fst (NewPeriodicTask c t m opts st)) (entryIDs (fst st) !! t)
  | _ => []
  end.

Fixpoint run_periodic (os : list periodic_op) (st : St) (dropped : list string) : St * list string :=
  match os with
  | [] => (st, dropped)
  | o :: os' => run_periodic os' (apply_periodic o st) (dropped ++ replaced o st)
  end.

(** The ids the server keeps are non-empty and the entries of its scheduler; without
    a scheduler it keeps none; what it dropped is still an entry, and not kept. *)
Definition periodic_ok (st : St) (dropped : list string) : Prop :=
  tracks_live (entry (snd st)) (entryIDs (fst st)) dropped /\
  (forall t id, entryIDs (fst st) !! t = Some id -> id <> "") /\
  (scheduler (fst st) = false -> entryIDs (fst st) = ∅) /\
  (forall d, d ∈ dropped -> entry (snd st) d /\ forall u, entryIDs (fst st) !! u <> Some d).

Lemma createAsynqScheduler_ok (st : St) dropped :
  periodic_ok st dropped ->
  exists e st', createAsynqScheduler st = (Returned e, st') /\ periodic_ok st' dropped /\
    entryIDs (fst st') = entryIDs (fst st) /\ (scheduler (fst st) = true -> scheduler (fst st') = true).
Proof.
  destruct st as [s w]. intros (Ht&Hne&Hs&Hd). unfold createAsynqScheduler, mbind, Go_bind, self.
  destruct (negb (schedulerEnabled s) || scheduler s) eqn:Ec.
  - do 2 eexists. by split_and!.
  - apply orb_false_iff in Ec as [_ Ec]. unfold lib, update, mret, Go_ret.
    pose proof (entry_New (redisConnOpt s) w) as HN. destruct (NewScheduler (redisConnOpt s) w) as [ok w']. simpl in *.
    do 2 eexists. split_and!; [done| |done|congruence]. split_and!; [by eapply tracks_ext|done|simpl; auto|].
    intros d Hdd. destruct (Hd d Hdd). split; [by apply HN|done].
Qed.

(** What a registration does, by its result. *)
Definition registration_ok (t : string) (st : St) (dropped : list string) (out : result (string + error) * St) : Prop :=
  let '(r, st') := out in
  periodic_ok st' (dropped ++ superseded r (entryIDs (fst st) !! t)) /\ entryIDs (fst st') = ids_after r t (entryIDs (fst st)).

Lemma registration_refused t (st : St) dropped r :
  periodic_ok st dropped -> match r with Returned (inl _) => False | _ => True end -> registration_ok t st dropped (r, st).
Proof. intros Hok Hr. split; [|by destruct r as [[]|]]. destruct r as [[]|]; [done|..]; cbn; by rewrite app_nil_r. Qed.

Lemma register_entry_ok (st : St) dropped typeName c t o :
  periodic_ok st dropped -> scheduler (fst st) = true ->
  registration_ok typeName st dropped (register_entry c typeName t o st).
Proof.
  destruct st as [s w]. intros (Ht&Hne&Hs&Hd) Hsch. unfold register_entry, mbind, Go_bind, lib, addPeriodicTaskEntryID, update, mret, Go_ret.
  pose proof (entry_Register c t o w) as HR. destruct (scheduler_Register c t o w) as [[id|e] w']; simpl in *.
  - destruct HR as (Hid&Hnew&HR). split; [|done]. split_and!; simpl; [by eapply tracks_insert| |congruence|].
    + intros u x [[_ <-]|[_ Hx]]%lookup_insert_Some; eauto.
    + intros d [Hdd|Hold]%elem_of_app.
      * destruct (Hd d Hdd) as [Hw Hu]. split; [apply HR; auto|]. intros u [[_ ->]|[_ Hx]]%lookup_insert_Some; [done|by apply (Hu u)].
      * destruct (entryIDs s !! typeName) as [old|] eqn:Eold; [|by apply elem_of_nil in Hold]. apply list_elem_of_singleton in Hold. subst d.
        pose proof (acc_live _ _ _ Ht _ _ Eold) as Hw. split; [apply HR; auto|].
        intros u [[_ ->]|[Hne' Hx]]%lookup_insert_Some; [done|]. apply Hne'. by eapply (acc_inj _ _ _ Ht).
  - split; [|done]. cbn. rewrite app_nil_r. split_and!; [by eapply tracks_ext|done|done|].
    intros d Hdd. destruct (Hd d Hdd). split; [by apply HR|done].
Qed.

Lemma demand_scheduler_ok (st : St) dropped :
  periodic_ok st dropped ->
  exists e st', demand_scheduler st = (Returned e, st') /\ periodic_ok st' dropped /\ entryIDs (fst st') = entryIDs (fst st).
Proof.
  intros Hok. destruct st as [s w]. unfold demand_scheduler. unfold mbind at 1, Go_bind at 1, self.
  destruct (scheduler s); [by do 2 eexists|].
  destruct (createAsynqScheduler_ok (s, w) dropped Hok) as (e&[s1 w1]&E&Hok1&Eids&_).
  rewrite (go_bind_returned _ _ _ _ _ E). destruct e; [by do 2 eexists|]. do 2 eexists. split; [done|]. simpl.
  destruct (schedulerEnabled s1); [done|]. split; [|done]. exact Hok1.
Qed.

Lemma register_periodic_ok c t msg opts (st : St) dropped :
  periodic_ok st dropped -> registration_ok t st dropped (register_periodic c t msg opts st).
Proof.
  intros Hok. destruct st as [s w]. unfold register_periodic, marshal, mbind, Go_bind, self.
  destruct (codec s) as [cd|]; [|by apply registration_refused]. simpl.
  destruct (codec_Marshal cd msg) as [payload|]; [|by apply registration_refused].
  destruct (asynq_NewTask t payload opts) as [task|]; [|by apply registration_refused].
  unfold on_object. destruct (scheduler s) eqn:Es; [|by apply registration_refused].
  by apply (register_entry_ok (s, w)).
Qed.

Lemma NewPeriodicTask_ok c t msg opts (st : St) dropped :
  periodic_ok st dropped -> registration_ok t st dropped (NewPeriodicTask c t msg opts st).
Proof.
  intros Hok. unfold NewPeriodicTask. destruct (String.eqb c ""); [by apply registration_refused|].
  destruct (String.eqb t ""); [by apply registration_refused|].
  destruct (demand_scheduler_ok st dropped Hok) as (e&st1&E1&Hok1&Eids). rewrite (go_bind_returned _ _ _ _ _ E1). unfold registration_ok.
  rewrite <- Eids. destruct e as [err|]; [by apply registration_refused|]. by apply register_periodic_ok.
Qed.

Lemma RemovePeriodicTask_ok t (st : St) dropped :
  periodic_ok st dropped ->
  exists e st', RemovePeriodicTask t st = (Returned e, st') /\ periodic_ok st' dropped /\
    match e with
    | None => exists id, entryIDs (fst st) !! t = Some id /\ entryIDs (fst st') = delete t (entryIDs (fst st)) /\ ~ entry (snd st') id
    | Some _ => entryIDs (fst st) !! t = None /\ st' = st
    end.
Proof.
  destruct st as [s w]. intros (Ht&Hne&Hs&Hd). unfold RemovePeriodicTask, mbind, Go_bind, self, QueryPeriodicTaskEntryID.
  simpl in *. destruct (entryIDs s !! t) as [id|] eqn:Et; simpl.
  2: { do 2 eexists. split; [done|]. by split. }
  replace (String.eqb id "") with false by (symmetry; apply String.eqb_neq; eauto).
  unfold unregisterPeriodicTask, mbind, Go_bind, self. destruct (scheduler s) eqn:Es; simpl.
  2: { by rewrite Hs in Et. }
  unfold lib. pose proof (entry_Unregister id w) as HU. pose proof (Unregister_ok id w (acc_live _ _ _ Ht _ _ Et)) as Hok.
  destruct (scheduler_Unregister id w) as [e w']. simpl in *. subst e. unfold removePeriodicTaskEntryID, update, mret, Go_ret.
  do 2 eexists. split; [done|]. simpl. assert (~ entry w' id) by (intros [? _]%HU; done). split; [|eauto].
  split_and!; simpl; [| |congruence|].
  - eapply tracks_delete; [exact Et|done| |exact Ht]. intros x Hx. rewrite HU. tauto.
  - intros u x [_ Hx]%lookup_delete_Some. eauto.
  - intros d Hdd. destruct (Hd d Hdd) as [Hw Hu]. split.
    + apply HU. split; [|done]. intros ->. by apply (Hu t).
    + intros u [_ Hx]%lookup_delete_Some. by apply (Hu u).
Qed.

Lemma unregister_all_ok ids s w :
  scheduler s = true ->
  exists w', unregister_all ids (s, w) = (Returned tt, ((s : Srv), w')) /\ forall x, entry w' x <-> x ∉ map snd ids /\ entry w x.
Proof.
  intros Hs. revert w. induction ids as [|[t id] ids IH]; intros w; simpl.
  - exists w. split; [done|]. set_solver.
  - unfold unregisterPeriodicTask, mbind, Go_bind, self, lib. rewrite Hs. simpl.
    pose proof (entry_Unregister id w) as HU. destruct (scheduler_Unregister id w) as [e w1]. simpl in HU.
    destruct (IH w1) as (w'&E&H). exists w'. split; [exact E|]. intros x. rewrite H, HU. set_solver.
Qed.

Lemma unregister_none ids s w : scheduler s = false -> unregister_all ids (s, w) = (Returned tt, ((s : Srv), w)).
Proof.
  intros Hs. induction ids as [|[t id] ids IH]; simpl; [done|].
  unfold mbind, Go_bind, unregisterPeriodicTask, mbind, Go_bind, self. by rewrite Hs.
Qed.

Lemma RemoveAllPeriodicTask_ok (st : St) dropped :
  periodic_ok st dropped ->
  exists st', RemoveAllPeriodicTask range st = (Returned tt, st') /\ periodic_ok st' dropped /\ entryIDs (fst st') = ∅.
Proof.
  destruct st as [s w]. intros (Ht&Hne&Hs&Hd). unfold RemoveAllPeriodicTask, mbind, Go_bind, self, update. simpl in *.
  destruct (scheduler s) eqn:Es.
  - destruct (unregister_all_ok (range _ (entryIDs s)) (set_entryIDs ∅ s) w) as (w'&->&HU); [done|].
    eexists. split; [done|]. split; [|done]. split_and!; simpl; [|set_solver|done|].
    2: { intros d Hdd. destruct (Hd d Hdd) as [Hw Hu]. split; [|set_solver]. apply HU. split; [|done].
         rewrite range_entries. intros ([u x]&->&Hin)%list_elem_of_fmap. apply elem_of_map_to_list in Hin. by apply (Hu u). }
    rewrite <- (app_nil_r dropped). eapply tracks_clear; [|exact Ht]. intros x [Hx Hw]%HU. split; [done|].
    intros [t Et]. destruct Hx. rewrite range_entries. apply list_elem_of_fmap. exists (t, x). split; [done|].
    by apply elem_of_map_to_list.
  - rewrite unregister_none by done. eexists. split; [done|]. rewrite (Hs eq_refl) in Ht. split; [|done]. split_and!; [exact Ht|set_solver|done|].
    intros d Hdd. split; [apply (Hd d Hdd)|set_solver].
Qed.

Lemma run_periodic_ok os (st : St) dropped :
  periodic_ok st dropped -> let '(st', dropped') := run_periodic os st dropped in periodic_ok st' dropped'.
Proof.
  revert st dropped. induction os as [|o os IH]; intros st dropped Hok; simpl; [done|]. apply IH. destruct o as [c t msg opts|t|]; simpl.
  - pose proof (NewPeriodicTask_ok c t msg opts st dropped Hok) as Hr. destruct (NewPeriodicTask c t msg opts st). apply Hr.
  - destruct (RemovePeriodicTask_ok t st dropped Hok) as (e&st'&->&H&_). by rewrite app_nil_r.
  - destruct (RemoveAllPeriodicTask_ok st dropped Hok) as (st'&->&H&_). by rewrite app_nil_r.
Qed.

(** C30: The ids of periodic tasks: on a server whose scheduler has no entries, after
    any registrations and removals, one after the other, the ids the server keeps are entries
    of the scheduler, one per task type.  An entry it does not keep was replaced by a
    second, successful registration of its type; it stays in the scheduler, and no call
    removes it any more, removing all included.  A registration that succeeds makes its id
    the one of the type, and one that does not (or panics) leaves the ids as they were.
    Removing a type that is kept succeeds and ends its entry, and only an unknown type is an
    error; removing all leaves no id, and no entry but the replaced ones. *)
Theorem asynq_periodic_tasks os (s : Srv) w t :
  (forall x, ~ entry w x) -> entryIDs s = ∅ ->
  let '(st, dropped) := run_periodic os (s, w) [] in
  (forall u id, entryIDs (fst st) !! u = Some id -> entry (snd st) id) /\
  (forall u1 u2 id, entryIDs (fst st) !! u1 = Some id -> entryIDs (fst st) !! u2 = Some id -> u1 = u2) /\
  (forall x, entry (snd st) x <-> (exists u, entryIDs (fst st) !! u = Some x) \/ x ∈ dropped) /\
  (forall u x, entryIDs (fst st) !! u = Some x -> x ∉ dropped) /\
  (forall c msg opts, let '(r, st') := NewPeriodicTask c t msg opts st in entryIDs (fst st') = ids_after r t (entryIDs (fst st))) /\
  (exists e st', RemovePeriodicTask t st = (Returned e, st') /\
     match e with
     | None => exists id, entryIDs (fst st) !! t = Some id /\ entryIDs (fst st') = delete t (entryIDs (fst st)) /\ ~ entry (snd st') id
     | Some _ => entryIDs (fst st) !! t = None /\ st' = st
     end) /\
  (exists st', RemoveAllPeriodicTask range st = (Returned tt, st') /\ entryIDs (fst st') = ∅ /\
     forall x, entry (snd st') x <-> x ∈ dropped).
Proof.
  intros Hn He. assert (periodic_ok (s, w) []) as H0.
  { split_and!; simpl; rewrite ?He; [by apply tracks_empty|set_solver|done|intros d Hdd; by apply elem_of_nil in Hdd]. }
  pose proof (run_periodic_ok os (s, w) [] H0) as Hok. destruct (run_periodic os (s, w) []) as [st dropped].
  pose proof Hok as ([H1 H2 H3]&_&_&Hd). split_and!; [done|done| | | | |].
  - intros x. split; [apply H3|]. intros [[u Hu]|Hx]; [by eapply H1|by apply Hd].
  - intros u x Hu Hx. by apply (proj2 (Hd x Hx) u).
  - intros c msg opts. pose proof (NewPeriodicTask_ok c t msg opts st dropped Hok) as Hr. destruct (NewPeriodicTask c t msg opts st). apply Hr.
  - destruct (RemovePeriodicTask_ok t st dropped Hok) as (e&st'&E&_&H). eauto.
  - destruct (RemoveAllPeriodicTask_ok st dropped Hok) as (st'&E&([_ _ H3']&_&_&Hd')&Ee). exists st'. split_and!; [done..|].
    intros x. split; [|apply Hd']. intros Hx. destruct (H3' x Hx) as [[u Hu]|]; [|done]. by rewrite Ee in Hu.
Qed.

(** A server made without a scheduler enables it only after the attempt to create
    it: the first [NewPeriodicTask] panics on the nil scheduler, and leaves the
    scheduler enabled. *)
Lemma periodic_disabled_panics c t msg opts (s : Srv) w :
  c <> "" -> t <> "" -> scheduler s = false -> schedulerEnabled s = false ->
  (exists cd p task, codec s = Some cd /\ codec_Marshal cd msg = inl p /\ asynq_NewTask t p opts = Some task) ->
  exists s', NewPeriodicTask c t msg opts (s, w) = (Panicked, (s', w)) /\ schedulerEnabled s' = true /\ scheduler s' = false.
Proof.
  intros Hc Ht Hs Hen (cd&p&task&Ecd&Ep&Etask). unfold NewPeriodicTask.
  apply String.eqb_neq in Hc, Ht. rewrite Hc, Ht.
  unfold demand_scheduler, createAsynqScheduler, register_periodic, marshal, mbind, Go_bind, self, update. rewrite Hs, Hen. simpl.
  rewrite Hen. cbn [codec set_enabled]. rewrite Ecd. simpl. rewrite Ep, Etask. simpl. rewrite Hs. simpl. eexists. split; [reflexivity|]. by simpl.
Qed.
End periodic.

(** ** Start and stop *)

Section lifecycle.
Context {TLS V AO W : Type} `{L : Library TLS AO W}.
Context (range : forall A, gmap string A -> list (string * A)).
Abbreviation Srv := (Server TLS V).
Abbreviation St := (Srv * W)%type.

(** Code that does not panic. *)
Definition returns {A} (m : Go St A) : Prop := forall st, exists a st', m st = (Returned a, st').

Lemma returns_ret {A} (a : A) : returns (mret a).
Proof. intros st. by do 2 eexists. Qed.

Lemma returns_bind {A B} (m : Go St A) (f : A -> Go St B) : returns m -> (forall a, returns (f a)) -> returns (m ≫= f).
Proof. intros Hm Hf st. destruct (Hm st) as (a&st'&E). destruct (Hf a st') as (b&st''&E'). exists b, st''. by rewrite (go_bind_returned _ _ _ _ _ E). Qed.

Lemma returns_self : returns self.
Proof. intros [s w]. by do 2 eexists. Qed.

Lemma returns_update f : returns (update f).
Proof. intros [s w]. by do 2 eexists. Qed.

Lemma returns_lib {A} (f : W -> A * W) : returns (lib f).
Proof. intros [s w]. unfold lib. destruct (f w). by do 2 eexists. Qed.

Lemma returns_lib_ f : returns (lib_ f).
Proof. intros [s w]. by do 2 eexists. Qed.

(** Follows the structure of a definition down to the calls. *)
Local Ltac all_return :=
  repeat first
    [ apply returns_ret | apply returns_self | apply returns_update | apply returns_lib | apply returns_lib_
    | apply returns_bind; [|intros ?]
    | match goal with
      | |- returns (if ?b then _ else _) => destruct b
      | |- returns (match ?x with _ => _ end) => destruct x
      end ].

Lemma returns_unregister_all ids : returns (unregister_all ids).
Proof. induction ids as [|[t id] ids IH]; simpl; [all_return|]. apply returns_bind; [unfold unregisterPeriodicTask; all_return|done]. Qed.

Lemma returns_stopInternal : returns (stopInternal range).
Proof.
  unfold stopInternal. apply returns_bind; [|intros _; all_return]. unfold RemoveAllPeriodicTask.
  do 2 (apply returns_bind; [all_return|intros ?]). apply returns_unregister_all.
Qed.

Lemma returns_create : returns createAsynqServer /\ returns createAsynqScheduler.
Proof. split; unfold createAsynqServer, createAsynqScheduler; all_return. Qed.

Lemma returns_Start_begin : returns Start_begin.
Proof. unfold Start_begin. destruct returns_create as [H1 H2]. repeat (exact H1 || exact H2 || (progress all_return)). Qed.

Lemma returns_Stop : returns (Stop range).
Proof. unfold Stop. apply returns_bind; [all_return|intros s]. destruct (negb (started s)); [apply returns_stopInternal|]. apply returns_bind; [all_return|intros _; apply returns_stopInternal]. Qed.

(** The result and the state of code that does not panic. *)
Definition plain {A} (d : A) (m : Go St A) (st : St) : A * St :=
  match m st with
  | (Returned a, st') => (a, st')
  | (Panicked, st') => (d, st')
  end.

(** The calls under the mutex; [stopInternal]'s wait for its context is in
    [server_Shutdown]. *)
Definition asynq_service : Service St := mkService
  (plain None Start_begin) (plain None (Start_finish range)) (fun _ => plain None (Stop range)).

(** [Stop] does not stop a server that runs: while a [Start] waits for its
    context it holds the mutex, so no call of [Stop], made before or later, returns
    or changes anything until that context is cancelled.  Once it is, [Start] shuts
    the server down and returns, and the [Stop] that waited shuts it down again. *)
Theorem asynq_stop_waits (st : St) es0 g i es g' j :
  run asynq_service es0 (idle st) = Some g -> calls g !! i = Some (CStart, Serving) -> i ∉ cancelled g ->
  run asynq_service es g = Some g' -> CancelCtx i ∉ es ->
  calls g !! j = Some (CStop, Waiting) ->
  (store g' = store g /\ exists more, calls g' = calls g ++ more /\ Forall (fun cp => cp.2 = Waiting) more) /\
  exists e1 st1 e2 st2 g2,
    Start_finish range (store g) = (Returned e1, st1) /\ Stop range st1 = (Returned e2, st2) /\
    run asynq_service [CancelCtx i; Run i false; Run j false] g = Some g2 /\ store g2 = st2 /\
    calls g2 !! i = Some (CStart, Lifecycle.Done e1) /\ calls g2 !! j = Some (CStop, Lifecycle.Done e2).
Proof.
  intros H0 Hi Hc Hr Hes Hj. split; [by eapply start_excludes|].
  assert (returns (Start_finish range)) as Hf by (apply returns_bind; [apply returns_update|intros _; apply returns_stopInternal]).
  destruct (Hf (store g)) as (e1&st1&E1). destruct (returns_Stop st1) as (e2&st2&E2).
  pose proof (stop_after_cancel asynq_service st es0 g i j false H0 Hi Hj) as Hs. cbn [start_finish stop_body asynq_service] in Hs.
  unfold plain at 1 in Hs. rewrite E1 in Hs. cbn iota in Hs. unfold plain at 1 in Hs. rewrite E2 in Hs. cbn iota in Hs.
  destruct Hs as (g2&Hr2&Est&_&Hi2&Hj2). exists e1, st1, e2, st2, g2. by split_and!.
Qed.
End lifecycle.

(** ** From a task to its handler *)

Section round_trip.
Context {TLS V AO W X M C : Type} `{L : Library TLS AO W} (raw : bytes -> V).
Context `{mux : Mux M (C -> option (Codec V) -> Task -> Go X (option error))}.
Abbreviation Srv := (Server TLS V).

Lemma createAsynqClient_frame (s : Srv) w : exists e b w', createAsynqClient (s, w) = (Returned e, (set_objects (server s) b (scheduler s) (inspector s) s, w')).
Proof.
  unfold createAsynqClient, mbind, Go_bind, self, lib, update. destruct (negb (clientEnabled s) || client s).
  - exists None, (client s), w. by destruct s.
  - destruct (NewClient (redisConnOpt s) w) as [ok w']. by do 3 eexists.
Qed.

(** A call that enqueues reaches the library with the marshalled message. *)
Lemma enqueue_inv t msg opts (s s' : Srv) w w' info :
  enqueue t msg opts (s, w) = (Returned (inl info), (s', w')) ->
  codec s' = codec s /\
  exists c p task w1, codec s = Some c /\ codec_Marshal c msg = inl p /\ asynq_NewTask t p opts = Some task /\
    client_Enqueue task opts w1 = (inl info, w').
Proof.
  unfold enqueue. destruct (String.eqb t ""); [done|]. unfold mbind at 1, Go_bind at 1, self at 1.
  assert (exists e b w1, (if client s then mret None else createAsynqClient) (s, w) =
    (Returned e, (set_objects (server s) b (scheduler s) (inspector s) s, w1))) as (e&b&w1&E).
  { destruct (client s) eqn:Ec; [exists None, true, w; rewrite <- Ec; by destruct s|]. apply createAsynqClient_frame. }
  rewrite (go_bind_returned _ _ _ _ _ E). destruct e as [err|]; [done|].
  unfold marshal, mbind, Go_bind, self. cbn [codec set_objects]. destruct (codec s) as [c|] eqn:Ec; [|done]. simpl.
  destruct (codec_Marshal c msg) as [p|err] eqn:Ep; [|done]. destruct (asynq_NewTask t p opts) as [task|] eqn:Et; [|done]. simpl.
  destruct b; [|done]. unfold lib. simpl. destruct (client_Enqueue task opts w1) as [[i|e] w2] eqn:Eq; [|done].
  intros [= -> <- <-]. split; [exact Ec|]. by exists c, p, task, w1.
Qed.

(** C29: A message reaches its handler: after a handler was registered for a task
    type, a [NewTask] of that type that succeeds has enqueued a task which, when the
    library delivers it, is dispatched to the handler with the message itself,
    provided the codec decodes what it encodes and the library's constructor keeps
    type and payload. *)
Theorem asynq_task_round_trip (s s1 s2 : Srv) (m m1 : M) w w2 taskType (handler : string -> V -> Go X (option error)) create msg opts c :
  (forall t p, asynq_NewTask t p opts = Some (mkTask t p)) ->
  codec s = Some c ->
  (forall data, codec_Marshal c msg = inl data -> codec_Unmarshal c data (create tt) = (None, msg)) ->
  RegisterSubscriber raw taskType handler (Some create) (s, m) = (Returned None, (s1, m1)) ->
  NewTask taskType msg opts (s1, w) = (Returned None, (s2, w2)) ->
  TaskTypeExists taskType s1 = true /\
  exists h task info w1, client_Enqueue task opts w1 = (inl info, w2) /\ mux_Handler m1 (task_Type task) = Some h /\
    forall ctx x, h ctx (codec s2) task x = handler taskType msg x.
Proof.
  intros HN Hc Hrt HR HT. unfold RegisterSubscriber in HR. destruct (started s); [done|].
  destruct (HandleFunc taskType _ m) as [m'|] eqn:Em; [|done]. injection HR as <- <-.
  split; [apply bool_decide_true; simpl; set_solver|].
  unfold NewTask, mbind, Go_bind in HT. destruct (enqueue taskType msg opts _) as [[[info|e]|] [s' w']] eqn:E; try done.
  injection HT as <- <-. apply enqueue_inv in E as [Ecodec (c'&p&task&w1&Hc'&Hp&Ht&Hq)]. simpl in Ecodec, Hc'.
  assert (c' = c) as -> by congruence. rewrite HN in Ht. injection Ht as <-.
  apply HandleFunc_spec in Em as (_&_&Ep).
  assert (mux_patterns m' !! taskType = Some (task_handler raw (fun _ => handler) (Some create))) as Hh
    by (rewrite Ep; apply lookup_insert_eq).
  apply mux_Handler_exact in Hh. do 4 eexists. split_and!; [exact Hq|exact Hh|].
  intros ctx x. unfold task_handler. rewrite Ecodec, Hc. simpl. by rewrite (Hrt p Hp).
Qed.
End round_trip.

(** ** Connection options *)

(** The connection parameters replace those of a pointer option, and are lost when
    the option is a struct, as [ParseRedisURI] returns. *)
Lemma redis_options {TLS} (p : RedisParams TLS) (o : RedisClientOpt) :
  applyRedisOptions p (VClient o) = VClient o /\
  exists o', applyRedisOptions p (PClient o) = PClient o' /\
    (forall x, password p = Some x -> c_Password o' = x) /\ (password p = None -> c_Password o' = c_Password o) /\
    (forall a l, addresses p = a :: l -> c_Addr o' = a).
Proof.
  split; [done|]. eexists. split; [done|]. unfold updateRedisClientOpt. cbn [c_Password c_Addr].
  split_and!; [by intros x ->|by intros ->|by intros a l ->].
Qed.

(** ** An instance *)

Module model.
(** A library that keeps entries and enqueued tasks, and reports one task state. *)
Record world := mkWorld { clock : Z; entries : list string; next : nat; queue : list Task; reported : TaskState }.

Fixpoint id_of (n : nat) : string := match n with O => "" | S n' => "x" ++ id_of n' end.

Lemma id_of_inj n m : id_of n = id_of m -> n = m.
Proof. revert m. induction n as [|n IH]; intros [|m]; simpl; intros [=]; auto. Qed.

#[global] Instance library : Library unit unit world := {|
  NewAsynqServer _ w := (true, w);
  NewClient _ w := (true, w);
  NewScheduler _ w := (true, w);
  NewInspector _ w := (true, w);
  asynq_NewTask t p _ := Some (mkTask t p);
  scheduler_Start w := (None, w);
  scheduler_Shutdown w := w;
  scheduler_Register c _ _ w :=
    if String.eqb c "bad" then (inr (Errorf "bad spec"), w)
    else (inl (id_of (S (next w))), mkWorld (clock w) (id_of (S (next w)) :: entries w) (S (next w)) (queue w) (reported w));
  scheduler_Unregister id w :=
    (if bool_decide (id ∈ entries w) then None else Some (Errorf "no entry"),
     mkWorld (clock w) (filter (fun x => x <> id) (entries w)) (next w) (queue w) (reported w));
  server_Run w := w;
  server_Shutdown w := (true, w);
  server_Stop w := w;
  client_Enqueue t _ w := (inl (mkTaskInfo "1" "default" (reported w)), mkWorld (clock w) (entries w) (next w) (queue w ++ [t]) (reported w));
  client_Close w := (None, w);
  inspector_Close w := (None, w);
  GetTaskInfo q i w := (inl (mkTaskInfo i q (reported w)), w);
  time_Sleep d w := mkWorld (clock w + d) (entries w) (next w) (queue w) (reported w)
|}.

#[global] Instance runtime : Runtime world := {|
  time_Now w := (mkTime (clock w) (Some (clock w)), w);
  rand_Float64 w := (Float64.f_of_Z 0, w)
|}.

#[global] Program Instance monotonic : Clock unit unit world := {| now := clock |}.
Solve Obligations with (simpl; intros; lia || (split; [done|lia])).

Definition entry (w : world) (x : string) : Prop := x ∈ entries w /\ exists n, x = id_of n /\ (n <= next w)%nat.

#[global] Instance scheduler_laws : SchedulerLaws unit unit world entry.
Proof.
  split; unfold entry; try done.
  - intros c t o w. cbn [scheduler_Register library]. destruct (String.eqb c "bad"); [done|].
    set (k := S (next w)). split_and!; [done| |].
    + intros [_ (n&E%id_of_inj&Hn)]. lia.
    + intros x. cbn [entries next]. split.
      * intros [[->|Hx]%elem_of_cons (n&En&Hn)]; [by left|]. destruct (decide (n = k)) as [->|Hne]; [by left|].
        right. split; [done|]. exists n. split; [done|lia].
      * intros [->|[Hx (n&En&Hn)]]; (split; [by constructor|]); [by exists k|]. exists n. split; [done|lia].
  - intros id w x. simpl. rewrite list_elem_of_filter. naive_solver.
  - intros id w [Hid _]. simpl. by rewrite bool_decide_true.
Qed.

(** Messages are bytes and the codec is the identity. *)
Definition bytes_codec : Codec bytes := mkCodec (fun b => inl b) (fun d _ => (None, d)) "json".

Definition empty (st : TaskState) : world := mkWorld 0 [] 0 [] st.

Definition fresh (cs : gmap string (Codec bytes)) : Server unit bytes :=
  match NewServer (AO := unit) cs [] (empty TaskStateCompleted) with
  | (Returned s, _) => s
  | (Panicked, _) => literal cs
  end.

Definition srv : Server unit bytes := fresh {["json" := bytes_codec]}.

(** A mux that dispatches on the exact type. *)
#[global] Program Instance exact_mux {H} : Mux (gmap string H) H := {|
  HandleFunc p h m := if String.eqb p "" then None else match m !! p with Some _ => None | None => Some (<[p := h]> m) end;
  mux_Handler m p := m !! p;
  mux_patterns m := m
|}.
Next Obligation.
  simpl. intros H m m' p h. destruct (String.eqb p "") eqn:Ep; [done|]. destruct (m !! p) eqn:Em; [done|].
  intros [= <-]. split_and!; [by apply String.eqb_neq|done..].
Qed.
Next Obligation. done. Qed.

Definition echo : string -> bytes -> Go (list bytes) (option error) := fun _ b l => (Returned None, l ++ [b]).
Definition range (A : Type) (x : gmap string A) : list (string * A) := map_to_list x.
End model.

Lemma asynq_wait_terminates_witness :
  exists r w', waitResult 302 (mkTaskInfo "1" "default" (TaskStateOther "active")) (model.empty (TaskStateOther "active")) = Some (r, w').
Proof.
  destruct (asynq_wait_terminates (mkTaskInfo "1" "default" (TaskStateOther "active")) (model.empty (TaskStateOther "active"))) as (r&w'&H&_).
  exists r, w'. apply H. lia.
Defined.

(** The bound is reached: a task that stays active is polled 302 times. *)
Lemma wait_polls_exact :
  waitResult 301 (mkTaskInfo "1" "default" (TaskStateOther "active")) (model.empty (TaskStateOther "active")) = None.
Proof. vm_compute. reflexivity. Qed.

Lemma asynq_periodic_tasks_witness :
  let os := [NewPeriodic "@daily" "mail" [] []; NewPeriodic "@hourly" "mail" [] []; NewPeriodic "bad" "x" [] []; RemovePeriodic "mail"] in
  let '(st, dropped) := run_periodic model.range os (model.srv, model.empty TaskStateCompleted) [] in
  (exists st', RemoveAllPeriodicTask model.range st = (Returned tt, st') /\ forall x, model.entry (snd st') x <-> x ∈ dropped) /\
  dropped = ["x"] /\ model.entries (snd st) = ["x"].
Proof.
  cbv zeta. set (os := [NewPeriodic "@daily" "mail" [] []; _; _; _]).
  assert (forall x, ~ model.entry (model.empty TaskStateCompleted) x) as Hn by (intros x [Hx _]; by apply elem_of_nil in Hx).
  pose proof (asynq_periodic_tasks (entry := model.entry) model.range (fun _ _ => Permutation_refl _) os model.srv (model.empty TaskStateCompleted) "mail" Hn) as H.
  assert (entryIDs model.srv = ∅) as He by reflexivity. specialize (H He).
  destruct (run_periodic _ _ _ _) as [st dropped] eqn:E. destruct H as (_&_&_&_&_&_&(st'&E'&_&H)). split; [eauto|].
  assert (snd (run_periodic model.range os (model.srv, model.empty TaskStateCompleted) []) = ["x"] /\
    model.entries (snd (fst (run_periodic model.range os (model.srv, model.empty TaskStateCompleted) []))) = ["x"]) as [H1 H2]
    by (vm_compute; done). rewrite E in H1, H2. done.
Defined.

Lemma asynq_stop_waits_witness :
  let svc := asynq_service (AO := unit) model.range in
  exists g g', run svc [Call CStart; Run 0 false; Call CStop] (idle (model.srv, model.empty TaskStateCompleted)) = Some g /\
    run svc [Call CStop; Call CStart] g = Some g' /\ store g' = store g.
Proof.
  cbv zeta. destruct (run _ [Call CStart; Run 0 false; Call CStop] _) as [g|] eqn:E; [|by vm_compute in E].
  destruct (run (asynq_service (AO := unit) model.range) [Call CStop; Call CStart] g) as [g'|] eqn:E'; [|by destruct g].
  exists g, g'. split_and!; [done..|].
  assert (calls g = [(CStart, Serving); (CStop, Waiting)] /\ cancelled g = []) as [Ec Ek] by (vm_compute in E; by injection E as <-).
  apply (asynq_stop_waits model.range (model.srv, model.empty TaskStateCompleted) [Call CStart; Run 0 false; Call CStop] g 0 [Call CStop; Call CStart] g' 1).
  - exact E.
  - by rewrite Ec.
  - rewrite Ek. apply not_elem_of_nil.
  - exact E'.
  - set_solver.
  - by rewrite Ec.
Defined.

Lemma asynq_task_round_trip_witness :
  exists (s1 : Server unit bytes) m1 s2 w2 h task,
    RegisterSubscriber (C := unit) id "mail" model.echo (Some (fun _ => [])) (model.srv, (∅ : gmap string (unit -> option (Codec bytes) -> Task -> Go (list bytes) (option error)))) = (Returned None, (s1, m1)) /\
    NewTask (AO := unit) "mail" ["a"%char] [] (s1, model.empty TaskStateCompleted) = (Returned None, (s2, w2)) /\
    mux_Handler m1 (task_Type task) = Some h /\ h tt (codec s2) task [] = model.echo "mail" ["a"%char] [].
Proof.
  destruct (RegisterSubscriber (C := unit) id "mail" model.echo (Some (fun _ => [])) (model.srv, ∅)) as [r [s1 m1]] eqn:ER.
  assert (r = Returned None) as -> by (vm_compute in ER; by injection ER).
  destruct (NewTask (AO := unit) "mail" ["a"%char] [] (s1, model.empty TaskStateCompleted)) as [r [s2 w2]] eqn:ET.
  assert (r = Returned None) as ->.
  { vm_compute in ER. injection ER as <- <-. vm_compute in ET. by injection ET. }
  destruct (asynq_task_round_trip id model.srv s1 s2 ∅ m1 (model.empty TaskStateCompleted) w2 "mail" model.echo (fun _ => []) ["a"%char] [] model.bytes_codec)
    as (_&h&task&_&_&_&Hm&Hh).
  - intros t p. reflexivity.
  - reflexivity.
  - intros data [= <-]. reflexivity.
  - exact ER.
  - exact ET.
  - exists s1, m1, s2, w2, h, task. split_and!; [done..|]. apply Hh.
Defined.
