(* ===== verification/Cron.v ===== *)
(** [transport/cron]: the timer server on [robfig/cron].

    The cron library is a parameter over a world [W]; of the scheduler's
    configuration the model keeps what the options choose. *)
From Stdlib Require Import ZArith Lia.
From S2P Require Import Prelude GoErrors Lifecycle.
From stdpp Require Import base gmap strings list fin_maps.
Open Scope string_scope.
Open Scope list_scope.
Open Scope Z_scope.

(** What the server calls of the library: [AddFunc] parses the spec and gives an id,
    [Remove] of an unknown id does nothing; [Stop] tells whether the running jobs
    ended before the context of the caller. *)
Class CronLib (J W : Type) := {
  AddFunc : string -> J -> W -> (Z + error) * W;
  Remove : Z -> W -> W;
  cron_Start : W -> W;
  cron_Stop : bool -> W -> W;
  Entries : W -> list Z
}.

Section server.
Context {J W : Type} `{L : CronLib J W}.
(** [range] on a map of ids. *)
Context (range : gmap Z string -> list (Z * string)).

(** How the scheduler was made: with which location and logger, and whether jobs run
    under [cron.Recover]. *)
Record scheduler_config := mkConfig { location : option string; logger : option string; recovers : bool }.

Record Server := mkServer {
  started : bool;
  stopping : bool;
  cronScheduler : scheduler_config;
  entryIDs : gmap Z string;
  gracefullyShutdown : bool
}.

Definition set_started (x : bool) (s : Server) : Server := mkServer x (stopping s) (cronScheduler s) (entryIDs s) (gracefullyShutdown s).
Definition set_stopping (x : bool) (s : Server) : Server := mkServer (started s) x (cronScheduler s) (entryIDs s) (gracefullyShutdown s).
Definition set_entryIDs (x : gmap Z string) (s : Server) : Server := mkServer (started s) (stopping s) (cronScheduler s) x (gracefullyShutdown s).
Definition set_scheduler (x : scheduler_config) (s : Server) : Server := mkServer (started s) (stopping s) x (entryIDs s) (gracefullyShutdown s).

(** ** [options.go] *)

Definition WithGracefullyShutdown (enable : bool) (s : Server) : Server :=
  mkServer (started s) (stopping s) (cronScheduler s) (entryIDs s) enable.

(** [WithLocation] and [WithLogger] make a new scheduler. *)
Definition WithLocation (loc : string) (s : Server) : Server := set_scheduler (mkConfig (Some loc) None false) s.
Definition WithLogger (l : string) (s : Server) : Server := set_scheduler (mkConfig None (Some l) false) s.
Definition WithSeconds (enable : bool) (s : Server) : Server := s.

(** [func NewServer(opts ...Option) *Server], with [init] *)
Definition NewServer (opts : list (Server -> Server)) : Server :=
  apply_opts opts (mkServer false false (mkConfig None None true) ∅ true).

(** ** Jobs *)

(** [func (s *Server) NewTimerJob(spec string, cmd func()) (cron.EntryID, error)] *)
Definition NewTimerJob (quote : string -> string) (spec : string) (cmd : J) (st : Server * W) : (Z + error) * (Server * W) :=
  let '(s, w) := st in
  match AddFunc spec cmd w with
  | (inr err, w') => (inr (Wrapf ("cron: add job failed (spec=" ++ quote spec ++ "): ") err), (s, w'))
  | (inl entryID, w') => (inl entryID, (set_entryIDs (<[entryID := spec]> (entryIDs s)) s, w'))
  end.

(** [func (s *Server) RemoveTimerJob(entryID cron.EntryID)] *)
Definition RemoveTimerJob (entryID : Z) (st : Server * W) : Server * W :=
  let '(s, w) := st in (set_entryIDs (delete entryID (entryIDs s)) s, Remove entryID w).

Definition remove_each (ids : list (Z * string)) (w : W) : W := fold_left (fun w e => Remove (fst e) w) ids w.

(** [func (s *Server) RemoveAllJobs()] *)
Definition RemoveAllJobs (st : Server * W) : Server * W :=
  let '(s, w) := st in (set_entryIDs ∅ s, remove_each (range (entryIDs s)) w).

(** [func (s *Server) GetJobCount() int] *)
Definition GetJobCount (s : Server) : Z := Z.of_nat (length (range (entryIDs s))).

(** [func (s *Server) GetEntries() []cron.Entry], by their ids *)
Definition GetEntries (st : Server * W) : list Z := Entries (snd st).

(** ** Start and stop *)

(** [func (s *Server) stopInternal(ctx context.Context) error]; [expired] tells which
    case of the select is taken. *)
Definition stopInternal (expired : bool) (st : Server * W) : option error * (Server * W) :=
  let '(s, w) := st in
  if stopping s then (None, (s, w))
  else
    let s := set_stopping true s in
    let w := cron_Stop expired w in
    (None, (set_stopping false s, w)).

(** [Start] up to [<-ctx.Done()], and the rest, which waits for the jobs without a
    deadline. *)
Definition Start_begin (st : Server * W) : option (option error) * (Server * W) :=
  let '(s, w) := st in
  if started s then (Some None, (s, w)) else (None, (set_started true s, cron_Start w)).

Definition Start_finish (st : Server * W) : option error * (Server * W) :=
  let '(s, w) := st in stopInternal false (set_started false s, w).

(** [func (s *Server) Stop(ctx context.Context) error] *)
Definition Stop (expired : bool) (st : Server * W) : option error * (Server * W) :=
  let '(s, w) := st in
  if negb (started s) && negb (stopping s) then stopInternal expired (s, w)
  else stopInternal expired (set_started false s, w).

(** [func (s *Server) Endpoint() string] *)
Definition Endpoint : string := "cron://scheduler".

Definition cron_service : Service (Server * W) := mkService Start_begin Start_finish Stop.

(** * Properties *)

(** The library's entries: [AddFunc] adds a new id, [Remove] removes it. *)
Class CronLaws : Prop := {
  AddFunc_entries spec j w :
    match AddFunc spec j w with
    | (inl id, w') => id ∉ Entries w /\ forall x, x ∈ Entries w' <-> x = id \/ x ∈ Entries w
    | (inr _, w') => forall x, x ∈ Entries w' <-> x ∈ Entries w
    end;
  Remove_entries id w x : x ∈ Entries (Remove id w) <-> x <> id /\ x ∈ Entries w;
  Start_entries w x : x ∈ Entries (cron_Start w) <-> x ∈ Entries w;
  Stop_entries b w x : x ∈ Entries (cron_Stop b w) <-> x ∈ Entries w
}.

Context (quote : string -> string) {laws : CronLaws}.
Context (range_entries : forall m, range m ≡ₚ map_to_list m).

(** Jobs, and the code of [Start] and [Stop] between which they are called. *)
Inductive job_step : Server * W -> Server * W -> Prop :=
| step_new spec j st : job_step st (snd (NewTimerJob quote spec j st))
| step_remove id st : job_step st (RemoveTimerJob id st)
| step_remove_all st : job_step st (RemoveAllJobs st)
| step_begin st : job_step st (snd (Start_begin st))
| step_finish st : job_step st (snd (Start_finish st))
| step_stop expired st : job_step st (snd (Stop expired st)).

(** The server's ids are the entries of the scheduler. *)
Definition jobs_agree (st : Server * W) : Prop := forall id, is_Some (entryIDs (fst st) !! id) <-> id ∈ Entries (snd st).

Lemma remove_each_entries ids w x : x ∈ Entries (remove_each ids w) <-> x ∉ map fst ids /\ x ∈ Entries w.
Proof.
  unfold remove_each. revert w. induction ids as [|[id s] ids IH]; intros w; simpl; [set_solver|].
  rewrite IH, Remove_entries. set_solver.
Qed.

Lemma range_keys m x : x ∈ map fst (range m) <-> is_Some (m !! x).
Proof.
  rewrite range_entries, list_elem_of_fmap. split.
  - intros ([k v]&->&Hk). apply elem_of_map_to_list in Hk. eauto.
  - intros [v Hv]. exists (x, v). split; [done|]. by apply elem_of_map_to_list.
Qed.

Lemma stopInternal_agrees expired st : jobs_agree st -> jobs_agree (snd (stopInternal expired st)).
Proof.
  destruct st as [s w]. intros H. unfold stopInternal. destruct (stopping s); [done|]. intros id. simpl. rewrite Stop_entries. apply H.
Qed.

Lemma job_step_agrees st st' : job_step st st' -> jobs_agree st -> jobs_agree st'.
Proof.
  intros Hstep H0. destruct Hstep as [spec j [s v]|id [s v]|[s v]|[s v]|[s v]|b [s v]].
  - unfold NewTimerJob. pose proof (AddFunc_entries spec j v) as HA. destruct (AddFunc spec j v) as [[id|e] v']; intros x; simpl.
    + destruct HA as [_ HA]. rewrite HA, <- (H0 x). simpl. destruct (decide (x = id)) as [->|Hne].
      * rewrite lookup_insert_eq. naive_solver.
      * rewrite lookup_insert_ne by done. naive_solver.
    + rewrite HA. apply H0.
  - intros x. simpl. rewrite Remove_entries, <- (H0 x). simpl. destruct (decide (x = id)) as [->|Hne].
    + rewrite lookup_delete_eq. split; [intros []%is_Some_None|naive_solver].
    + rewrite lookup_delete_ne by done. naive_solver.
  - intros x. simpl. rewrite remove_each_entries, range_keys, <- (H0 x). simpl. rewrite lookup_empty.
    split; [intros []%is_Some_None|naive_solver].
  - unfold Start_begin. destruct (started s); [done|]. intros x. simpl. rewrite Start_entries. apply H0.
  - by apply stopInternal_agrees.
  - unfold Stop. case_match; by apply stopInternal_agrees.
Qed.

Lemma NewServer_agrees opts w :
  Forall (fun o => forall s, entryIDs (o s) = entryIDs s) opts -> Entries w = [] -> jobs_agree (NewServer opts, w).
Proof.
  intros Ho He id. simpl. rewrite He. unfold NewServer.
  rewrite (apply_opts_preserves (fun s => entryIDs s = ∅)); [|eapply Forall_impl; [exact Ho|]; intros o Hk s <-; apply Hk|done].
  rewrite lookup_empty. split; [intros []%is_Some_None|by intros ?%elem_of_nil].
Qed.

(** Jobs are accounted for: after any sequence of additions, removals, starts
    and stops on a new server and an empty scheduler, the ids the server keeps are
    exactly the scheduler's entries, and [GetJobCount] is their number; removing all
    jobs leaves none. *)
Theorem cron_jobs opts w st :
  Forall (fun o => forall s, entryIDs (o s) = entryIDs s) opts -> Entries w = [] ->
  rtc job_step (NewServer opts, w) st ->
  (forall id, is_Some (entryIDs (fst st) !! id) <-> id ∈ Entries (snd st)) /\
  GetJobCount (fst st) = Z.of_nat (size (entryIDs (fst st))) /\
  (forall id, id ∉ Entries (snd (RemoveAllJobs st))).
Proof.
  intros Ho He Hst. assert (jobs_agree st) as Ha.
  { pose proof (NewServer_agrees opts w Ho He) as H0. revert H0. clear He Ho.
    induction Hst as [|x y z Hstep _ IH]; eauto using job_step_agrees. }
  split; [exact Ha|]. destruct st as [s v]. split.
  - unfold GetJobCount. rewrite range_entries. by rewrite length_map_to_list.
  - intros id. simpl. rewrite remove_each_entries, range_keys, <- (Ha id). simpl. tauto.
Qed.

(** [Start] holds the mutex while it waits: as long as its context is not cancelled
    no call of [Stop] returns or has an effect, whatever its own context does. *)
Theorem cron_stop_waits st es0 g i es g' :
  run cron_service es0 (idle st) = Some g -> calls g !! i = Some (CStart, Serving) -> i ∉ cancelled g ->
  run cron_service es g = Some g' -> CancelCtx i ∉ es ->
  store g' = store g /\ exists more, calls g' = calls g ++ more /\ Forall (fun cp => cp.2 = Waiting) more.
Proof. intros. by eapply start_excludes. Qed.

(** The option for a graceful shutdown has no effect: no operation reads it. *)
Lemma graceful_unused expired st b :
  let '(s, w) := st in
  let '(e, (s1, w1)) := Stop expired (s, w) in
  Stop expired (WithGracefullyShutdown b s, w) = (e, (WithGracefullyShutdown b s1, w1)).
Proof. destruct st as [s w]. unfold Stop, stopInternal. simpl. by destruct (started s), (stopping s). Qed.

(** A server given a location or a logger runs its jobs without [cron.Recover]. *)
Lemma location_drops_recover opts loc : recovers (cronScheduler (NewServer (opts ++ [WithLocation loc]))) = false.
Proof. unfold NewServer, apply_opts. by rewrite fold_left_app. Qed.
End server.

Module model.
(** A library whose world is the list of entries. *)
Definition fresh (w : list Z) : Z := 1 + foldr Z.max 0 w.

Lemma fresh_max w x : x ∈ w -> x < fresh w.
Proof.
  unfold fresh. induction w as [|y w IH]; [by intros ?%elem_of_nil|]. intros [->|Hx]%elem_of_cons; simpl; [lia|].
  specialize (IH Hx). lia.
Qed.

#[global] Instance lib : CronLib unit (list Z) := {|
  AddFunc spec _ w := if String.eqb spec "" then (inr (Errorf "empty spec string"), w) else (inl (fresh w), fresh w :: w);
  Remove id w := filter (fun x => x <> id) w;
  cron_Start w := w;
  cron_Stop _ w := w;
  Entries w := w
|}.

#[global] Instance laws : CronLaws.
Proof.
  split; simpl; try done.
  - intros spec j w. destruct (String.eqb spec ""); simpl; [done|]. split; [|set_solver]. intros H%fresh_max. lia.
  - intros id w x. rewrite list_elem_of_filter. done.
Qed.
End model.

Lemma cron_jobs_witness :
  let st1 := snd (NewTimerJob id "@daily" tt (NewServer [WithSeconds true], [])) in
  let st2 := snd (Start_begin st1) in
  let st3 := snd (NewTimerJob id "@hourly" tt st2) in
  let st := RemoveTimerJob 1 st3 in
  GetJobCount map_to_list (fst st) = 1 /\ forall x, is_Some (entryIDs (fst st) !! x) <-> x ∈ Entries (snd st).
Proof.
  cbv zeta. match goal with |- GetJobCount _ (fst ?x) = _ /\ _ => set (st := x) end.
  destruct (cron_jobs map_to_list id (fun m => Permutation_refl _) [WithSeconds true] [] st) as (H1&H2&_).
  - repeat constructor.
  - done.
  - eapply rtc_l; [apply (step_new _ _ "@daily" tt)|]. eapply rtc_l; [apply step_begin|].
    eapply rtc_l; [apply (step_new _ _ "@hourly" tt)|]. eapply rtc_l; [apply (step_remove _ _ 1)|]. apply rtc_refl.
  - split; [rewrite H2; by vm_compute|exact H1].
Defined.
