(* ===== verification/Log.v ===== *)
(** [log]: the level filter and the fan-out logger ([level_filter.go],
    [multi_logger.go]).

    Loggers are trees: the leaves are loggers of other packages, of which only the
    [Logger] interface is known ([Backend]), over a store [X]; a leaf may panic.
    Levels are numbers in the order of severity. *)
From Stdlib Require Import ZArith Lia.
From S2P Require Import Prelude.
From stdpp Require Import base list strings.
Open Scope list_scope.
Open Scope Z_scope.

(** [lululog.Logger], of a leaf: one method per level, here the level is an
    argument. *)
Class Backend (L Args X : Type) := {
  leaf_log : L -> Z -> string -> Args -> Go X unit;
  leaf_Enabled : L -> Z -> bool;
  leaf_With : Args -> L -> L
}.

Section loggers.
Context {L Args X : Type} `{Backend L Args X}.

Inductive Logger :=
| Leaf (l : L)
| LevelFilter (logger : Logger) (level : Z)
| MultiLogger (loggers : list Logger).

(** [func (f LevelFilter) Enabled(level lululog.Level) bool], given the answer of the
    wrapped logger *)
Definition LevelFilter_Enabled (min level : Z) (inner : bool) : bool := (min <=? level) && inner.

(** [Debug], [Info], [Warn] and [Error] of [LevelFilter] *)
Definition LevelFilter_log (enabled : bool) (inner : Go X unit) : Go X unit := if enabled then inner else mret tt.

(** [Enabled] of both types *)
Fixpoint Enabled (lg : Logger) (level : Z) : bool :=
  match lg with
  | Leaf l => leaf_Enabled l level
  | LevelFilter inner min => LevelFilter_Enabled min level (Enabled inner level)
  | MultiLogger ls =>
      (fix all (ls : list Logger) : bool :=
         match ls with
         | [] => true
         | l :: ls' => if negb (Enabled l level) then false else all ls'
         end) ls && (0 <? length ls)%nat
  end.

(** [With] of both types *)
Fixpoint With (args : Args) (lg : Logger) : Logger :=
  match lg with
  | Leaf l => Leaf (leaf_With args l)
  | LevelFilter inner min => LevelFilter (With args inner) min
  | MultiLogger ls => MultiLogger (map (With args) ls)
  end.

(** A call under [defer recover()]: what it changed stays. *)
Definition recovered (m : Go X unit) : Go X unit := fun x => (Returned tt, snd (m x)).

(** [Debug], [Info], [Warn] and [Error] of both types, with [fanOut] *)
Fixpoint log (level : Z) (msg : string) (args : Args) (lg : Logger) : Go X unit :=
  match lg with
  | Leaf l => leaf_log l level msg args
  | LevelFilter inner min => LevelFilter_log (Enabled (LevelFilter inner min) level) (log level msg args inner)
  | MultiLogger ls =>
      (fix fanOut (ls : list Logger) : Go X unit :=
         match ls with
         | [] => mret tt
         | l :: ls' => recovered (log level msg args l) ;; fanOut ls'
         end) ls
  end.

(** Induction on trees. *)
Fixpoint logger_ind (P : Logger -> Prop) (HL : forall l, P (Leaf l)) (HF : forall inner min, P inner -> P (LevelFilter inner min))
    (HM : forall ls, Forall P ls -> P (MultiLogger ls)) (lg : Logger) : P lg :=
  match lg with
  | Leaf l => HL l
  | LevelFilter inner min => HF inner min (logger_ind P HL HF HM inner)
  | MultiLogger ls =>
      HM ls ((fix go (ls : list Logger) : Forall P ls :=
        match ls with
        | [] => Forall_nil_2 _
        | l :: ls' => Forall_cons_2 _ _ _ (logger_ind P HL HF HM l) (go ls')
        end) ls)
  end.

(** * Properties *)

(** The leaves below a logger, and those a record of a level reaches: a filter lets
    it through when the level is at least its own and every leaf below it is
    enabled. *)
Fixpoint leaves (lg : Logger) : list L :=
  match lg with
  | Leaf l => [l]
  | LevelFilter inner _ => leaves inner
  | MultiLogger ls => flat_map leaves ls
  end.

Fixpoint reached (level : Z) (lg : Logger) : list L :=
  match lg with
  | Leaf l => [l]
  | LevelFilter inner min => if Enabled (LevelFilter inner min) level then reached level inner else []
  | MultiLogger ls => flat_map (reached level) ls
  end.

Lemma Enabled_multi ls level : Enabled (MultiLogger ls) level = forallb (fun l => Enabled l level) ls && (0 <? length ls)%nat.
Proof. simpl. f_equal. induction ls as [|l ls IH]; simpl; [done|]. destruct (Enabled l level); simpl; [done|]. done. Qed.

(** A record is written by exactly the loggers it reaches, in order: a leaf that
    panics does not keep it from the others, and a fan-out never panics.  [w] is
    what a leaf does to the store, whether or not it panics afterwards. *)
Theorem log_delivery (level : Z) msg args (w : L -> X -> X) (lg : Logger) x :
  (forall l x, snd (leaf_log l level msg args x) = w l x) ->
  snd (log level msg args lg x) = fold_left (fun x l => w l x) (reached level lg) x /\
  (fst (log level msg args lg x) = Panicked ->
     match lg with
     | MultiLogger _ => False
     | _ => exists l y, reached level lg = [l] /\ fst (leaf_log l level msg args y) = Panicked
     end).
Proof.
  intros Hw. revert x. induction lg as [l|inner min IH|ls IH] using logger_ind; intros x.
  - simpl. split; [apply Hw|]. eauto.
  - cbn [log reached]. unfold LevelFilter_log. destruct (Enabled (LevelFilter inner min) level); [|by split].
    destruct (IH x) as [E1 E2]. split; [done|]. intros Hp. specialize (E2 Hp). by destruct inner.
  - simpl. induction IH as [|l ls Hl _ IHs] in x |- *; simpl; [by split|].
    destruct (Hl x) as [E _]. unfold mbind, Go_bind, recovered. cbn [snd]. rewrite fold_left_app, <- E. apply IHs.
Qed.

(** [With] keeps the thresholds: it changes leaves only. *)
Lemma With_leaves args lg : leaves (With args lg) = map (leaf_With args) (leaves lg).
Proof.
  induction lg as [l|inner min IH|ls IH] using logger_ind; simpl; [done..|].
  induction IH as [|l ls Hl _ IHs]; simpl; [done|]. by rewrite Hl, IHs, map_app.
Qed.

(** A filter over a fan-out drops a record for every logger as soon as one of them
    has its level disabled. *)
Lemma filter_over_multi level min ls l :
  l ∈ ls -> Enabled l level = false -> reached level (LevelFilter (MultiLogger ls) min) = [].
Proof.
  intros Hl He. change (reached level (LevelFilter (MultiLogger ls) min))
    with (if (min <=? level) && Enabled (MultiLogger ls) level then reached level (MultiLogger ls) else []).
  rewrite Enabled_multi. replace (forallb (fun l => Enabled l level) ls) with false; [by rewrite andb_false_r|].
  symmetry. apply not_true_iff_false. rewrite forallb_forall. intros Ha. specialize (Ha l). rewrite He in Ha.
  discriminate Ha. by apply list_elem_of_In.
Qed.
End loggers.
