(* ===== verification/Argo.v ===== *)
(** [workflow/argo]: the client of the Argo Workflows REST interface ([client.go]) and
    its data ([options.go]).

    The HTTP client and JSON are parameters: [Do] takes a request to a status and a body
    (or the errors of sending and of reading), contexts and logging are left out. *)
From Stdlib Require Import ZArith Lia Ascii.
From S2P Require Import Prelude GoTime GoErrors GoStrings GoUrl.
From stdpp Require Import base gmap strings list fin_maps.
Open Scope list_scope.
Open Scope string_scope.
Open Scope Z_scope.

(** * Data *)

Record ClientOptions := mkClientOptions { ServerURL : string; Namespace : string; Token : string; InsecureSkipVerify : bool }.
Record SubmitOptions := mkSubmitOptions { sub_Namespace : string; ServerDryRun : bool; Parameters : list string }.
Record ListOptions := mkListOptions { list_Namespace : string; LabelSelector : string; FieldSelector : string; Limit : Z; Offset : Z }.

(** [type Phase string] *)
Definition Phase : Type := string.
Definition PhasePending : Phase := "Pending".
Definition PhaseRunning : Phase := "Running".
Definition PhaseSucceeded : Phase := "Succeeded".
Definition PhaseFailed : Phase := "Failed".
Definition PhaseError : Phase := "Error".
Definition IsTerminal (p : Phase) : bool := String.eqb p PhaseSucceeded || String.eqb p PhaseFailed || String.eqb p PhaseError.

Definition defaultServerURL : string := "https://localhost:2746".
Definition defaultNamespace : string := "default".
Definition apiPathPrefix : string := "/api/v1/workflows".

(** A nil map is [None]. *)
Record ObjectMeta := mkObjectMeta {
  Name : string; GenerateName : string; meta_Namespace : string; UID : string;
  Labels : option (gmap string string); Annotations : option (gmap string string); CreationTimestamp : Time
}.
Record Parameter_ := mkParameter { param_Name : string; param_Value : string }.
Record Arguments_ := mkArguments { arg_Parameters : list Parameter_ }.
Record Container := mkContainer { c_Image : string; c_Command : list string; c_Args : list string }.
Record Script := mkScript { s_Image : string; s_Command : list string; s_Source : string }.
Record DAGTask := mkDAGTask { dag_Name : string; dag_Template : string; dag_Arguments : Arguments_; dag_Dependencies : list string }.
Record DAGTemplate := mkDAGTemplate { Tasks : list DAGTask }.
Record Step := mkStep { step_Name : string; step_Template : string; step_Arguments : Arguments_ }.
Record Template := mkTemplate {
  t_Name : string; t_Container : option Container; t_Script : option Script; t_DAG : option DAGTemplate; t_Steps : list Step
}.
Record WorkflowSpec := mkSpec { Entrypoint : string; Templates : list Template; spec_Arguments : Arguments_; ServiceAccountName : string }.
Record NodeStatus := mkNode {
  node_ID : string; node_Name : string; node_TemplateName : string; node_Phase : Phase; node_StartedAt : option Time;
  node_FinishedAt : option Time; node_Message : string
}.
Record WorkflowStatus := mkStatus {
  st_Phase : Phase; st_StartedAt : option Time; st_FinishedAt : option Time; st_Message : string; st_Nodes : option (gmap string NodeStatus)
}.
Record Workflow := mkWorkflow { APIVersion : string; Kind : string; Metadata : ObjectMeta; Spec : WorkflowSpec; Status : option WorkflowStatus }.
Record WorkflowList := mkWorkflowList { Items : list Workflow }.

(** * The client *)

(** [type WorkflowClient struct]; whether certificates are checked is the transport's. *)
Record WorkflowClient := mkClient { options : ClientOptions; skipVerify : bool; baseURL : string; running : bool }.

(** [func NewClient(opts ClientOptions) ( *WorkflowClient, error)] *)
Definition NewClient (opts : ClientOptions) : WorkflowClient :=
  let opts := mkClientOptions (if String.eqb (ServerURL opts) "" then defaultServerURL else ServerURL opts)
    (if String.eqb (Namespace opts) "" then defaultNamespace else Namespace opts) (Token opts) (InsecureSkipVerify opts) in
  mkClient opts (InsecureSkipVerify opts) (trim_slashes (ServerURL opts)) true.

(** [func (wc *WorkflowClient) Close() error] *)
Definition Close (wc : WorkflowClient) : WorkflowClient := mkClient (options wc) (skipVerify wc) (baseURL wc) false.

(** A request: method, URL, headers, body. *)
Record Request := mkRequest { method : string; url : string; headers : gmap string string; body : option string }.
(** What [client.Do] and reading the body give. *)
Record Response := mkResponse { StatusCode : Z; data : string + error }.

Section client.
Context {W : Type} (Do : Request -> Go W (Response + error)).
(** [json.Marshal] and [json.Unmarshal], and whether [http.NewRequest] takes a URL. *)
Context (marshal_workflow : option Workflow -> string + error) (marshal_map : gmap string string -> string + error).
Context (unmarshal_workflow : string -> Workflow + error) (unmarshal_list : string -> WorkflowList + error).
Context (zero_workflow : Workflow).
Context (bad_url : string -> option error).

(** [func (wc *WorkflowClient) newRequest]; [body] is the marshalled body, if any. *)
Definition newRequest (wc : WorkflowClient) (method path : string) (body : option (string + error)) : Request + error :=
  match body with
  | Some (inr e) => inr (Wrapf "marshal request body error: " e)
  | _ =>
      let u := baseURL wc ++ path in
      match bad_url u with
      | Some e => inr (Wrapf "create request error: " e)
      | None =>
          let h : gmap string string := {["Content-Type" := "application/json"; "Accept" := "application/json"]} in
          inl (mkRequest method u
            (if String.eqb (Token (options wc)) "" then h else <["Authorization" := "Bearer " ++ Token (options wc)]> h)
            (match body with Some (inl d) => Some d | _ => None end))
      end
  end.

(** [func (wc *WorkflowClient) doRequest]: [result] decodes the body; without one the
    body is ignored, and an empty body leaves the zero value. *)
Definition doRequest {A} (result : option (string -> A + error)) (zero : A) (req : Request) : Go W (A + error) :=
  r ← Do req;
  mret (match r with
    | inr e => inr (Wrapf "HTTP request error: " e)
    | inl resp =>
        match data resp with
        | inr e => inr (Wrapf "read response error: " e)
        | inl d =>
            if (StatusCode resp <? 200) || (300 <=? StatusCode resp) then inr (Errorf ("HTTP " ++ Itoa (StatusCode resp) ++ ": " ++ d))
            else match result with
              | Some dec =>
                  if String.eqb d "" then inl zero
                  else match dec d with inl a => inl a | inr e => inr (Wrapf "unmarshal response error: " e) end
              | None => inl zero
              end
        end
    end).

(** [func (wc *WorkflowClient) namespace(optsNamespace string) string] *)
Definition namespace (wc : WorkflowClient) (optsNamespace : string) : string :=
  if String.eqb optsNamespace "" then Namespace (options wc) else optsNamespace.

(** A request that is made and sent, the error wrapped. *)
Definition perform {A} (wc : WorkflowClient) (m path : string) (b : option (string + error)) (result : option (string -> A + error)) (zero : A) (what : string) : Go W (A + error) :=
  match newRequest wc m path b with
  | inr e => mret (inr e)
  | inl req =>
      r ← doRequest result zero req;
      mret (match r with inl a => inl a | inr e => inr (Wrapf what e) end)
  end.

Definition with_query (path : string) (params : Values) : string := if bool_decide (params = ∅) then path else path ++ "?" ++ Encode params.
Definition collection (ns : string) : string := apiPathPrefix ++ "/" ++ ns.
Definition member (ns name : string) : string := collection ns ++ "/" ++ name.

(** [func (wc *WorkflowClient) SubmitWorkflow] *)
Definition submit_params (o : SubmitOptions) : Values :=
  fold_left (fun m p => Values_Add "entrypointParameters" p m) (Parameters o) (if ServerDryRun o then Values_Set "serverDryRun" "true" ∅ else ∅).
Definition SubmitWorkflow (wc : WorkflowClient) (wf : option Workflow) (opts : option SubmitOptions) : Go W (Workflow + error) :=
  let ns := match opts with Some o => namespace wc (sub_Namespace o) | None => Namespace (options wc) end in
  let path := match opts with Some o => with_query (collection ns) (submit_params o) | None => collection ns end in
  perform wc "POST" path (Some (marshal_workflow wf)) (Some unmarshal_workflow) zero_workflow "submit workflow error: ".

(** [func (wc *WorkflowClient) GetWorkflow] *)
Definition GetWorkflow (wc : WorkflowClient) (name optsNamespace : string) : Go W (Workflow + error) :=
  perform wc "GET" (member (namespace wc optsNamespace) name) None (Some unmarshal_workflow) zero_workflow "get workflow error: ".

(** [func (wc *WorkflowClient) ListWorkflows] *)
Definition list_params (o : ListOptions) : Values :=
  let m : Values := if String.eqb (LabelSelector o) "" then ∅ else Values_Set "labelSelector" (LabelSelector o) ∅ in
  let m := if String.eqb (FieldSelector o) "" then m else Values_Set "fieldSelector" (FieldSelector o) m in
  let m := if 0 <? Limit o then Values_Set "limit" (Itoa (Limit o)) m else m in
  if 0 <? Offset o then Values_Set "offset" (Itoa (Offset o)) m else m.
Definition ListWorkflows (wc : WorkflowClient) (opts : option ListOptions) : Go W (WorkflowList + error) :=
  let ns := match opts with Some o => namespace wc (list_Namespace o) | None => Namespace (options wc) end in
  let path := match opts with Some o => with_query (collection ns) (list_params o) | None => collection ns end in
  perform wc "GET" path None (Some unmarshal_list) (mkWorkflowList []) "list workflows error: ".

(** [DeleteWorkflow], and the operations on a workflow that return nothing *)
Definition DeleteWorkflow (wc : WorkflowClient) (name optsNamespace : string) : Go W (unit + error) :=
  perform wc "DELETE" (member (namespace wc optsNamespace) name) None None tt "delete workflow error: ".
Definition SuspendWorkflow (wc : WorkflowClient) (name optsNamespace : string) : Go W (unit + error) :=
  perform wc "PUT" (member (namespace wc optsNamespace) name ++ "/suspend") None None tt "suspend workflow error: ".
Definition ResumeWorkflow (wc : WorkflowClient) (name optsNamespace : string) : Go W (unit + error) :=
  perform wc "PUT" (member (namespace wc optsNamespace) name ++ "/resume") None None tt "resume workflow error: ".
Definition TerminateWorkflow (wc : WorkflowClient) (name optsNamespace : string) : Go W (unit + error) :=
  perform wc "PUT" (member (namespace wc optsNamespace) name ++ "/terminate") None None tt "terminate workflow error: ".
Definition StopWorkflow (wc : WorkflowClient) (name optsNamespace message : string) : Go W (unit + error) :=
  let b : gmap string string := if String.eqb message "" then ∅ else {["message" := message]} in
  perform wc "PUT" (member (namespace wc optsNamespace) name ++ "/stop") (Some (marshal_map b)) None tt "stop workflow error: ".

(** [ResubmitWorkflow], [RetryWorkflow] *)
Definition ResubmitWorkflow (wc : WorkflowClient) (name optsNamespace : string) : Go W (Workflow + error) :=
  perform wc "PUT" (member (namespace wc optsNamespace) name ++ "/resubmit") None (Some unmarshal_workflow) zero_workflow "resubmit workflow error: ".
Definition RetryWorkflow (wc : WorkflowClient) (name optsNamespace : string) : Go W (Workflow + error) :=
  perform wc "PUT" (member (namespace wc optsNamespace) name ++ "/retry") None (Some unmarshal_workflow) zero_workflow "retry workflow error: ".

(** [func (wc *WorkflowClient) GetWorkflowLogs]: the status is not looked at. *)
Definition logs_path (ns name podName : string) : string :=
  with_query (member ns name ++ "/log") (if String.eqb podName "" then ∅ else Values_Set "podName" podName ∅).
Definition GetWorkflowLogs (wc : WorkflowClient) (name optsNamespace podName : string) : Go W (string + error) :=
  match newRequest wc "GET" (logs_path (namespace wc optsNamespace) name podName) None with
  | inr e => mret (inr e)
  | inl req =>
      r ← Do req;
      mret (match r with
        | inr e => inr (Wrapf "get workflow logs error: " e)
        | inl resp => match data resp with inr e => inr (Wrapf "read logs error: " e) | inl d => inl d end
        end)
  end.
End client.

(** * Properties *)

(** ** What the interface understands *)

(** The calls of the REST interface, and the one that a method and a target are. *)
Inductive call :=
| CSubmit (ns : string) (params : Values) | CList (ns : string) (params : Values) | CGet (ns name : string) | CDelete (ns name : string)
| CLogs (ns name : string) (params : Values) | CPut (ns name verb : string).
Definition route (m target : string) : option call :=
  let '(path, query) := match cut "?" target with Some pq => pq | None => (target, "") end in
  match Split path "/" with
  | e :: a :: v :: w :: rest =>
      if bool_decide ([e; a; v; w] = [""; "api"; "v1"; "workflows"]) then
        match rest with
        | [ns] => if String.eqb m "POST" then Some (CSubmit ns (ParseQuery query)) else if String.eqb m "GET" then Some (CList ns (ParseQuery query)) else None
        | [ns; name] => if String.eqb m "GET" then Some (CGet ns name) else if String.eqb m "DELETE" then Some (CDelete ns name) else None
        | [ns; name; verb] =>
            if String.eqb m "PUT" then Some (CPut ns name verb)
            else if String.eqb m "GET" && String.eqb verb "log" then Some (CLogs ns name (ParseQuery query)) else None
        | _ => None
        end
      else None
  | _ => None
  end.

(** A text that is one segment of a path. *)
Definition segment (s : string) : bool := lacks "/" s && lacks "?" s.

Lemma split_collection ns : lacks "/" ns = true -> Split (collection ns) "/" = [""; "api"; "v1"; "workflows"; ns].
Proof.
  intros H. rewrite Split_char. change (collection ns) with (("" ++ String "/" ("api" ++ String "/" ("v1" ++ String "/" ("workflows" ++ String "/" ns))))%string).
  rewrite !split_char_cut by done. by rewrite split_char_lacking.
Qed.
Lemma split_member ns name : lacks "/" ns = true -> lacks "/" name = true -> Split (member ns name) "/" = [""; "api"; "v1"; "workflows"; ns; name].
Proof.
  intros H1 H2. rewrite Split_char. unfold member. change ("/" ++ name)%string with (String "/" name). rewrite split_char_app, <- Split_char.
  rewrite split_collection by done. by rewrite split_char_lacking.
Qed.
Lemma split_verb ns name verb : lacks "/" ns = true -> lacks "/" name = true -> lacks "/" verb = true ->
  Split (member ns name ++ String "/" verb) "/" = [""; "api"; "v1"; "workflows"; ns; name; verb].
Proof. intros H1 H2 H3. rewrite Split_char, split_char_app, <- Split_char, split_member by done. by rewrite split_char_lacking. Qed.

Lemma lacks_member ns name : lacks "?" ns = true -> lacks "?" name = true -> lacks "?" (member ns name) = true.
Proof. intros H1 H2. unfold member, collection. by rewrite !lacks_app, H1, H2. Qed.

(** The query is read back from a target. *)
Lemma target_query path (m : Values) :
  lacks "?" path = true -> (forall k, m !! k <> Some []) ->
  exists query, match cut "?" (with_query path m) with Some pq => pq | None => (with_query path m, "") end = (path, query) /\ ParseQuery query = m.
Proof.
  intros Hp Hm. unfold with_query. case_bool_decide as E.
  - exists "". by rewrite cut_lacks.
  - exists (Encode m). change ("?" ++ Encode m)%string with (String "?" (Encode m)). rewrite cut_app by done.
    split; [done|]. by apply values_round_trip.
Qed.

Lemma values_nonempty k v (m : Values) : (forall k, m !! k <> Some []) -> forall k', Values_Set k v m !! k' <> Some [].
Proof. intros Hm k'. unfold Values_Set. destruct (decide (k = k')) as [<-|]; [by rewrite lookup_insert_eq|by rewrite lookup_insert_ne]. Qed.

Lemma no_values k : (∅ : Values) !! k <> Some [].
Proof. by rewrite lookup_empty. Qed.

Lemma submit_params_nonempty o k : submit_params o !! k <> Some [].
Proof.
  unfold submit_params. assert (forall l (m : Values), (forall k, m !! k <> Some []) -> fold_left (fun m p => Values_Add "entrypointParameters" p m) l m !! k <> Some []) as H.
  { induction l as [|p l IH]; intros m Hm; [done|]. cbn [fold_left]. apply IH. intros k'. unfold Values_Add.
    destruct (decide ("entrypointParameters" = k')) as [<-|]; [rewrite lookup_insert_eq; by destruct (default [] _)|by rewrite lookup_insert_ne]. }
  apply H. destruct (ServerDryRun o); [apply values_nonempty|]; apply no_values.
Qed.
Lemma list_params_nonempty o k : list_params o !! k <> Some [].
Proof.
  unfold list_params. destruct (0 <? Offset o), (0 <? Limit o), (String.eqb (FieldSelector o) ""), (String.eqb (LabelSelector o) "");
    repeat apply values_nonempty; apply no_values.
Qed.

(** ** Every operation sends the request it means *)

Inductive op :=
| OSubmit (wf : option Workflow) (opts : option SubmitOptions) | OGet (name ns : string) | OList (opts : option ListOptions) | ODelete (name ns : string)
| OSuspend (name ns : string) | OResume (name ns : string) | OTerminate (name ns : string) | OResubmit (name ns : string) | ORetry (name ns : string)
| OStop (name ns message : string) | OLogs (name ns podName : string).

Section requests.
Context (answer : Request -> Response + error).
Context (marshal_workflow : option Workflow -> string + error) (marshal_map : gmap string string -> string + error).
Context (unmarshal_workflow : string -> Workflow + error) (unmarshal_list : string -> WorkflowList + error) (zero : Workflow) (wc : WorkflowClient).
Hypothesis marshals : forall wf, exists d, marshal_workflow wf = inl d.
Hypothesis marshals_map : forall m, exists d, marshal_map m = inl d.

(** Requests are recorded, and answered. *)
Definition recorded (req : Request) : Go (list Request) (Response + error) := fun w => (Returned (answer req), (w ++ [req])%list).
Definition err_of {A} (m : Go (list Request) (A + error)) : Go (list Request) (option error) := r ← m; mret (match r with inl _ => None | inr e => Some e end).
Abbreviation good_url := (fun _ => None).

Definition run_op (o : op) : Go (list Request) (option error) :=
  match o with
  | OSubmit wf opts => err_of (SubmitWorkflow recorded marshal_workflow unmarshal_workflow zero good_url wc wf opts)
  | OGet name ns => err_of (GetWorkflow recorded unmarshal_workflow zero good_url wc name ns)
  | OList opts => err_of (ListWorkflows recorded unmarshal_list good_url wc opts)
  | ODelete name ns => err_of (DeleteWorkflow recorded good_url wc name ns)
  | OSuspend name ns => err_of (SuspendWorkflow recorded good_url wc name ns)
  | OResume name ns => err_of (ResumeWorkflow recorded good_url wc name ns)
  | OTerminate name ns => err_of (TerminateWorkflow recorded good_url wc name ns)
  | OResubmit name ns => err_of (ResubmitWorkflow recorded unmarshal_workflow zero good_url wc name ns)
  | ORetry name ns => err_of (RetryWorkflow recorded unmarshal_workflow zero good_url wc name ns)
  | OStop name ns msg => err_of (StopWorkflow recorded marshal_map good_url wc name ns msg)
  | OLogs name ns pod => err_of (GetWorkflowLogs recorded good_url wc name ns pod)
  end.

(** The namespace an operation is about, and the call it means. *)
Definition submit_ns (opts : option SubmitOptions) : string := match opts with Some o => namespace wc (sub_Namespace o) | None => Namespace (options wc) end.
Definition list_ns (opts : option ListOptions) : string := match opts with Some o => namespace wc (list_Namespace o) | None => Namespace (options wc) end.
Definition meant (o : op) : call :=
  match o with
  | OSubmit _ opts => CSubmit (submit_ns opts) (match opts with Some o => submit_params o | None => ∅ end)
  | OGet name ns => CGet (namespace wc ns) name
  | OList opts => CList (list_ns opts) (match opts with Some o => list_params o | None => ∅ end)
  | ODelete name ns => CDelete (namespace wc ns) name
  | OSuspend name ns => CPut (namespace wc ns) name "suspend"
  | OResume name ns => CPut (namespace wc ns) name "resume"
  | OTerminate name ns => CPut (namespace wc ns) name "terminate"
  | OResubmit name ns => CPut (namespace wc ns) name "resubmit"
  | ORetry name ns => CPut (namespace wc ns) name "retry"
  | OStop name ns _ => CPut (namespace wc ns) name "stop"
  | OLogs name ns pod => CLogs (namespace wc ns) name (if String.eqb pod "" then ∅ else {["podName" := [pod]]})
  end.
Definition segments (o : op) : bool :=
  match o with
  | OSubmit _ opts => segment (submit_ns opts)
  | OList opts => segment (list_ns opts)
  | OGet name ns | ODelete name ns | OSuspend name ns | OResume name ns | OTerminate name ns | OResubmit name ns | ORetry name ns
  | OStop name ns _ | OLogs name ns _ => segment (namespace wc ns) && segment name
  end.

(** The method and the target of an operation's request. *)
Definition target (o : op) : string * string :=
  match o with
  | OSubmit _ opts => ("POST", match opts with Some o => with_query (collection (submit_ns opts)) (submit_params o) | None => collection (submit_ns opts) end)
  | OGet name ns => ("GET", member (namespace wc ns) name)
  | OList opts => ("GET", match opts with Some o => with_query (collection (list_ns opts)) (list_params o) | None => collection (list_ns opts) end)
  | ODelete name ns => ("DELETE", member (namespace wc ns) name)
  | OSuspend name ns => ("PUT", member (namespace wc ns) name ++ "/suspend")
  | OResume name ns => ("PUT", member (namespace wc ns) name ++ "/resume")
  | OTerminate name ns => ("PUT", member (namespace wc ns) name ++ "/terminate")
  | OResubmit name ns => ("PUT", member (namespace wc ns) name ++ "/resubmit")
  | ORetry name ns => ("PUT", member (namespace wc ns) name ++ "/retry")
  | OStop name ns _ => ("PUT", member (namespace wc ns) name ++ "/stop")
  | OLogs name ns pod => ("GET", logs_path (namespace wc ns) name pod)
  end.

Lemma perform_sends {A} m path b (result : option (string -> A + error)) zero' what w :
  match b with Some (inr _) => False | _ => True end ->
  exists req r, err_of (perform recorded good_url wc m path b result zero' what) w = (Returned r, (w ++ [req])%list) /\
    method req = m /\ url req = baseURL wc ++ path.
Proof.
  intros Hb. unfold err_of, perform, newRequest, mbind, Go_bind. destruct b as [[d|e]|]; [|done|]; do 2 eexists; (split; [reflexivity|done]).
Qed.

Lemma run_op_sends o : exists req r, run_op o [] = (Returned r, [req]) /\ method req = (target o).1 /\ url req = baseURL wc ++ (target o).2.
Proof.
  destruct o; cbn [run_op target fst snd];
    try (unfold GetWorkflow, ListWorkflows, DeleteWorkflow, SuspendWorkflow, ResumeWorkflow, TerminateWorkflow, ResubmitWorkflow, RetryWorkflow;
         by apply (perform_sends _ _ None)).
  - unfold SubmitWorkflow. destruct (marshals wf) as [d ->]. by apply (perform_sends _ _ (Some (inl d))).
  - unfold StopWorkflow. destruct (marshals_map (if String.eqb message "" then ∅ else {["message" := message]})) as [d ->]. by apply (perform_sends _ _ (Some (inl d))).
  - unfold GetWorkflowLogs, newRequest, err_of, mbind, Go_bind. do 2 eexists. split; [reflexivity|done].
Qed.

Lemma segment_parts s : segment s = true -> lacks "/" s = true /\ lacks "?" s = true.
Proof. apply andb_true_iff. Qed.

Lemma route_collection m ns (q : Values) :
  segment ns = true -> (forall k, q !! k <> Some []) ->
  route m (with_query (collection ns) q) =
    if String.eqb m "POST" then Some (CSubmit ns q) else if String.eqb m "GET" then Some (CList ns q) else None.
Proof.
  intros [Hs Hq]%segment_parts Hne. destruct (target_query (collection ns) q) as (query&E&<-); [by unfold collection; rewrite !lacks_app, Hq|done|].
  unfold route. rewrite E, split_collection by done. by rewrite bool_decide_true.
Qed.
Lemma route_member m ns name : segment ns = true -> segment name = true ->
  route m (member ns name) = if String.eqb m "GET" then Some (CGet ns name) else if String.eqb m "DELETE" then Some (CDelete ns name) else None.
Proof.
  intros [H1 H2]%segment_parts [H3 H4]%segment_parts. unfold route. rewrite cut_lacks by (by apply lacks_member). rewrite split_member by done.
  by rewrite bool_decide_true.
Qed.
Lemma route_verb m ns name verb (q : Values) :
  segment ns = true -> segment name = true -> segment verb = true -> (forall k, q !! k <> Some []) ->
  route m (with_query (member ns name ++ String "/" verb) q) =
    if String.eqb m "PUT" then Some (CPut ns name verb)
    else if String.eqb m "GET" && String.eqb verb "log" then Some (CLogs ns name q) else None.
Proof.
  intros [H1 H2]%segment_parts [H3 H4]%segment_parts [H5 H6]%segment_parts Hne.
  destruct (target_query (member ns name ++ String "/" verb) q) as (query&E&<-); [rewrite lacks_app, lacks_member by done; by cbn; rewrite H6|done|].
  unfold route. rewrite E, split_verb by done. by rewrite bool_decide_true.
Qed.
Lemma with_no_query path : with_query path ∅ = path.
Proof. unfold with_query. by rewrite bool_decide_true. Qed.

Lemma route_put ns name verb : segment ns = true -> segment name = true -> segment verb = true ->
  route "PUT" (member ns name ++ String "/" verb) = Some (CPut ns name verb).
Proof. intros H1 H2 H3. rewrite <- (with_no_query (member ns name ++ String "/" verb)). by rewrite route_verb by (done || apply no_values). Qed.

(** An operation sends one request, whatever the answer; its target is understood as
    the call that is meant, with the namespace, the name and the parameters given, as
    long as the names are single segments of a path. *)
Theorem argo_requests o :
  segments o = true ->
  exists req r t, run_op o [] = (Returned r, [req]) /\ url req = baseURL wc ++ t /\ route (method req) t = Some (meant o).
Proof.
  intros Hs. destruct (run_op_sends o) as (req&r&Hrun&Hm&Hu). exists req, r, (target o).2. split; [done|]. split; [done|]. rewrite Hm.
  destruct o; cbn [target meant fst snd segments] in *; lazymatch type of Hs with (_ && _)%bool = true => apply andb_true_iff in Hs as [H1 H2] | _ => idtac end;
    try (by rewrite route_member); try (by apply route_put).
  - destruct opts as [o|]; [|rewrite <- (with_no_query (collection _))];
      rewrite route_collection by (done || apply submit_params_nonempty || apply no_values); done.
  - destruct opts as [o|]; [|rewrite <- (with_no_query (collection _))];
      rewrite route_collection by (done || apply list_params_nonempty || apply no_values); done.
  - unfold logs_path. change (member ?a ?b ++ "/log")%string with (member a b ++ String "/" "log")%string.
    rewrite route_verb; [|done..|]; [by destruct (String.eqb podName "")|].
    intros k. destruct (String.eqb podName ""); [apply no_values|]. apply values_nonempty, no_values.
Qed.

(** ** Results *)

(** An operation that decodes a result succeeds exactly when the server answers with a
    2xx status and a body that is empty or can be decoded. *)
Lemma doRequest_result {A} (result : option (string -> A + error)) zero' req w :
  exists x, doRequest recorded result zero' req w = (Returned x, (w ++ [req])%list) /\
    ((exists a, x = inl a) <->
     exists code d, answer req = inl (mkResponse code (inl d)) /\ 200 <= code < 300 /\
       match result with Some dec => d = "" \/ exists a, dec d = inl a | None => True end).
Proof.
  eexists. split; [unfold doRequest, recorded, mbind, Go_bind; reflexivity|]. destruct (answer req) as [[code [d|e]]|e]; cbn.
  - destruct ((code <? 200) || (300 <=? code)) eqn:Ec.
    + split; [by intros [a ?]|]. intros (c&d'&[= -> ->]&Hc&_). apply orb_true_iff in Ec. lia.
    + apply orb_false_iff in Ec. assert (200 <= code < 300) as Hc by lia. destruct result as [dec|].
      * destruct (String.eqb d "") eqn:Ed; [apply String.eqb_eq in Ed as ->; split; [intros _; exists code, ""; eauto|by eexists]|].
        apply String.eqb_neq in Ed. destruct (dec d) as [a|e] eqn:Edec.
        -- split; [intros _; exists code, d; split; [done|]; split; [done|right; by exists a]|by eexists].
        -- split; [by intros [a ?]|]. intros (c&d'&[= <- <-]&_&[?|[a ?]]); congruence.
      * split; [intros _; exists code, d; done|by eexists].
  - split; [by intros [a ?]|by intros (c&d&?&_)].
  - split; [by intros [a ?]|by intros (c&d&?&_)].
Qed.

(** The logs are the body of the answer whatever its status: a message of the server that
    there is no such workflow is returned as that workflow's logs. *)
Lemma logs_unchecked name ns pod code d w :
  (forall req, answer req = inl (mkResponse code (inl d))) ->
  fst (GetWorkflowLogs recorded good_url wc name ns pod w) = Returned (inl d).
Proof. intros Ha. unfold GetWorkflowLogs, newRequest, recorded, mbind, Go_bind. cbn. by rewrite Ha. Qed.

(** A name is put into the path as it is: asking for the workflow ["x/log"] asks for the
    logs of [x]. *)
Lemma name_in_path name ns :
  snd (run_op (OGet (name ++ "/log") ns) []) = snd (run_op (OLogs name ns "") []).
Proof.
  unfold run_op, GetWorkflow, GetWorkflowLogs, perform, doRequest, recorded, newRequest, logs_path, err_of, mbind, Go_bind. cbn -[member].
  rewrite with_no_query. assert (forall n, (member n (name ++ "/log") = member n name ++ "/log")%string) as E; [|by rewrite E].
  intros n. unfold member. generalize (collection n). intros s. induction s as [|c s IH]; cbn; [done|]. exact (f_equal (String c) IH).
Qed.
End requests.
