(* ===== verification/RabbitOptions.v ===== *)
(** [broker/rabbitmq], configuration: the options of [options.go] and what the driver
    makes of them ([NewBroker], [Init], [Connect], [Disconnect] and [Subscribe] of
    [rabbitmq.go]), and the channel of [channel.go].

    An option stores a value under a key of its own in the options' context; the driver
    reads it with a type assertion.  Callbacks and contexts are known by numbers. *)
From Stdlib Require Import ZArith Lia.
From S2P Require Import Prelude GoTime GoErrors NetPacket Encoding Broker BrokerCodec BrokerOptions Rabbit.
From stdpp Require Import base gmap strings list fin_maps.
Open Scope string_scope.
Open Scope list_scope.
Open Scope Z_scope.

(** * [options.go] *)

Inductive key :=
| exchangeDurableKey | exchangeNameKey | exchangeKindKey | prefetchCountKey | prefetchSizeKey |
prefetchGlobalKey | externalAuthKey | exchangesKey | defaultExchangeNameKey | confirmModeKey | onReturnKey |
onConfirmKey | durableQueueKey | autoDeleteQueueKey | subscribeBindArgsKey | subscribeQueueArgsKey |
requeueOnErrorKey | subscribeContextKey | ackSuccessKey | subscribeExchangeKey | deliveryModeKey | priorityKey
| contentTypeKey | contentEncodingKey | correlationIDKey | replyToKey | expirationKey | messageIDKey |
timestampKey | messageTypeKey | userIDKey | appIDKey | publishHeadersKey | publishDeclareQueueKey |
mandatoryKey | publishExchangeKey.
#[export] Instance key_eq : EqDecision key.
Proof. solve_decision. Defined.

(** The dynamic values. *)
Inductive val :=
| VBool (b : bool) | VString (s : string) | VInt (n : Z) | VUint8 (n : Z) | VTime (t : Time) | VTable (h : Table)
| VExternalAuth | VExchanges (l : list Exchange) | VReturnHandler (n : nat) | VConfirmHandler (n : nat) | VContext (n : nat)
| VDeclare (i : DeclarePublishQueueInfo).

Abbreviation ctx_t := (OptContext key val).

(** The type assertions [v, ok := ctx.Value(k).(T)]. *)
Definition as_bool (v : option val) : option bool := match v with Some (VBool b) => Some b | _ => None end.
Definition as_str (v : option val) : option string := match v with Some (VString s) => Some s | _ => None end.
Definition as_int (v : option val) : option Z := match v with Some (VInt n) => Some n | _ => None end.
Definition as_uint8 (v : option val) : option Z := match v with Some (VUint8 n) => Some n | _ => None end.
Definition as_time (v : option val) : option Time := match v with Some (VTime t) => Some t | _ => None end.
Definition as_table (v : option val) : option Table := match v with Some (VTable h) => Some h | _ => None end.
Definition as_exchanges (v : option val) : option (list Exchange) := match v with Some (VExchanges l) => Some l | _ => None end.
Definition as_declare (v : option val) : option DeclarePublishQueueInfo := match v with Some (VDeclare i) => Some i | _ => None end.
Definition as_return (v : option val) : option nat := match v with Some (VReturnHandler n) => Some n | _ => None end.
Definition as_confirm (v : option val) : option nat := match v with Some (VConfirmHandler n) => Some n | _ => None end.
Definition as_auth (v : option val) : bool := match v with Some VExternalAuth => true | _ => false end.

Section options.
Context {T H M P : Type}.
Abbreviation Options := (BrokerOptions.Options key val T H M P).

Definition WithDurableExchange : Options -> Options := OptionContextWithValue exchangeDurableKey (VBool true).
Definition WithExchangeName (name : string) : Options -> Options := OptionContextWithValue exchangeNameKey (VString name).
Definition WithExchangeType (kind : string) : Options -> Options := OptionContextWithValue exchangeKindKey (VString kind).
Definition WithPrefetchCount (cnt : Z) : Options -> Options := OptionContextWithValue prefetchCountKey (VInt cnt).
Definition WithPrefetchSize (size : Z) : Options -> Options := OptionContextWithValue prefetchSizeKey (VInt size).
Definition WithPrefetchGlobal : Options -> Options := OptionContextWithValue prefetchGlobalKey (VBool true).
Definition WithExternalAuth : Options -> Options := OptionContextWithValue externalAuthKey VExternalAuth.
Definition WithExchanges (exchanges : list Exchange) : Options -> Options := OptionContextWithValue exchangesKey (VExchanges exchanges).
Definition WithDefaultExchange (name : string) : Options -> Options := OptionContextWithValue defaultExchangeNameKey (VString name).
Definition WithConfirmMode : Options -> Options := OptionContextWithValue confirmModeKey (VBool true).
Definition WithOnReturn (handler : nat) : Options -> Options := OptionContextWithValue onReturnKey (VReturnHandler handler).
Definition WithOnConfirm (handler : nat) : Options -> Options := OptionContextWithValue onConfirmKey (VConfirmHandler handler).
End options.

(** [broker.SubscribeOptions], as the driver uses it, and [SubscribeContextWithValue]. *)
Record SubscribeOptions := mkSubscribeOptions { AutoAck : bool; Queue : string; so_Context : option ctx_t }.
Definition SubscribeContextWithValue (k : key) (v : val) : SubscribeOptions -> SubscribeOptions := fun o =>
  mkSubscribeOptions (AutoAck o) (Queue o) (ContextWithValue k v (so_Context o)).

Definition WithDurableQueue : SubscribeOptions -> SubscribeOptions := SubscribeContextWithValue durableQueueKey (VBool true).
Definition WithAutoDeleteQueue : SubscribeOptions -> SubscribeOptions := SubscribeContextWithValue autoDeleteQueueKey (VBool true).
Definition WithBindArguments (args : Table) : SubscribeOptions -> SubscribeOptions := SubscribeContextWithValue subscribeBindArgsKey (VTable args).
Definition WithQueueArguments (args : Table) : SubscribeOptions -> SubscribeOptions := SubscribeContextWithValue subscribeQueueArgsKey (VTable args).
Definition WithRequeueOnError : SubscribeOptions -> SubscribeOptions := SubscribeContextWithValue requeueOnErrorKey (VBool true).
Definition WithSubscribeContext (ctx : nat) : SubscribeOptions -> SubscribeOptions := SubscribeContextWithValue subscribeContextKey (VContext ctx).
Definition WithAckOnSuccess : SubscribeOptions -> SubscribeOptions := SubscribeContextWithValue ackSuccessKey (VBool true).
Definition WithSubscribeExchange (name : string) : SubscribeOptions -> SubscribeOptions := SubscribeContextWithValue subscribeExchangeKey (VString name).

Abbreviation PubOptions := (PublishOptions key val).

Definition WithDeliveryMode (v : Z) : PubOptions -> PubOptions := PublishContextWithValue deliveryModeKey (VUint8 v).
Definition WithPriority (v : Z) : PubOptions -> PubOptions := PublishContextWithValue priorityKey (VUint8 v).
Definition WithContentType (v : string) : PubOptions -> PubOptions := PublishContextWithValue contentTypeKey (VString v).
Definition WithContentEncoding (v : string) : PubOptions -> PubOptions := PublishContextWithValue contentEncodingKey (VString v).
Definition WithCorrelationID (v : string) : PubOptions -> PubOptions := PublishContextWithValue correlationIDKey (VString v).
Definition WithReplyTo (v : string) : PubOptions -> PubOptions := PublishContextWithValue replyToKey (VString v).
Definition WithExpiration (v : string) : PubOptions -> PubOptions := PublishContextWithValue expirationKey (VString v).
Definition WithMessageId (v : string) : PubOptions -> PubOptions := PublishContextWithValue messageIDKey (VString v).
Definition WithTimestamp (v : Time) : PubOptions -> PubOptions := PublishContextWithValue timestampKey (VTime v).
Definition WithTypeMsg (v : string) : PubOptions -> PubOptions := PublishContextWithValue messageTypeKey (VString v).
Definition WithUserID (v : string) : PubOptions -> PubOptions := PublishContextWithValue userIDKey (VString v).
Definition WithAppID (v : string) : PubOptions -> PubOptions := PublishContextWithValue appIDKey (VString v).
Definition WithPublishHeaders (h : Table) : PubOptions -> PubOptions := PublishContextWithValue publishHeadersKey (VTable h).
Definition WithPublishDeclareQueue (queueName : string) (durableQueue autoDelete : bool) (queueArgs bindArgs : Table) : PubOptions -> PubOptions := PublishContextWithValue publishDeclareQueueKey (VDeclare (mkDeclareQueue queueArgs bindArgs durableQueue autoDelete queueName)).
Definition WithMandatory : PubOptions -> PubOptions := PublishContextWithValue mandatoryKey (VBool true).
Definition WithPublishExchange (name : string) : PubOptions -> PubOptions := PublishContextWithValue publishExchangeKey (VString name).

(** * What the driver reads *)

(** [init] of a connection: the values it asks the context for, and the callbacks. *)
Definition conn_values_of (c : ctx_t) : conn_values :=
  mkConnValues (as_str (Value c exchangeNameKey)) (as_str (Value c exchangeKindKey)) (as_bool (Value c exchangeDurableKey))
    (as_exchanges (Value c exchangesKey)) (as_str (Value c defaultExchangeNameKey))
    (as_int (Value c prefetchCountKey)) (as_int (Value c prefetchSizeKey)) (as_bool (Value c prefetchGlobalKey))
    (as_bool (Value c confirmModeKey)).
Definition callbacks_of (c : ctx_t) : option nat * option nat := (as_return (Value c onReturnKey), as_confirm (Value c onConfirmKey)).

(** [publish]: the values it asks the publish options' context for. *)
Definition publish_values_of (c : ctx_t) : publish_values :=
  mkPublishValues (as_uint8 (Value c deliveryModeKey)) (as_uint8 (Value c priorityKey)) (as_str (Value c contentTypeKey))
    (as_str (Value c contentEncodingKey)) (as_str (Value c correlationIDKey)) (as_str (Value c replyToKey))
    (as_str (Value c expirationKey)) (as_str (Value c messageIDKey)) (as_time (Value c timestampKey))
    (as_str (Value c messageTypeKey)) (as_str (Value c userIDKey)) (as_str (Value c appIDKey)) (as_table (Value c publishHeadersKey))
    (as_str (Value c publishExchangeKey)) (as_declare (Value c publishDeclareQueueKey)) (as_bool (Value c mandatoryKey)).

(** * Channels *)

(** [type rabbitChannel struct]: its tag and the AMQP channel, nil until [Connect]. *)
Record rabbitChannel := mkChannel { uuid : string; channel : option nat }.

Section channels.
Context {W : Type} (new_channel : Go W (nat + error)) (Qos_ : nat -> Qos -> Go W (option error)).
Context (close_channel : nat -> Go W (option error)) (PublishWithContext : nat -> string -> string -> bool -> Publishing -> Go W (option error))
  (Confirm_ : nat -> Go W (option error)).

(** [func (r *rabbitChannel) Connect] *)
Definition channel_Connect (q : Qos) (r : rabbitChannel) : Go W (option error * rabbitChannel) :=
  c ← new_channel;
  match c with
  | inr e => mret (Some e, mkChannel (uuid r) None)
  | inl n => err ← Qos_ n q; mret (err, mkChannel (uuid r) (Some n))
  end.

(** [func newRabbitChannel(conn *amqp.Connection, qos Qos) ( *rabbitChannel, error)] *)
Definition newRabbitChannel (id : string) (q : Qos) : Go W (rabbitChannel + error) :=
  '(err, r) ← channel_Connect q (mkChannel id None);
  mret (match err with Some e => inr e | None => inl r end).

(** [Close], [Publish] and [Confirm]: a channel that was never opened is an error. *)
Definition nil_channel : error := Errorf "channel is nil".
Definition on_channel (f : nat -> Go W (option error)) (r : rabbitChannel) : Go W (option error) :=
  match channel r with
  | None => mret (Some nil_channel)
  | Some n => f n
  end.
Definition channel_Close : rabbitChannel -> Go W (option error) := on_channel close_channel.
Definition channel_Publish (exchangeName key : string) (mandatory : bool) (message : Publishing) : rabbitChannel -> Go W (option error) :=
  on_channel (fun n => PublishWithContext n exchangeName key mandatory message).
Definition channel_Confirm : rabbitChannel -> Go W (option error) := on_channel Confirm_.
End channels.

(** * The broker *)

Section broker.
Context {T H P : Type} {Hd : Type}.
Abbreviation Options := (BrokerOptions.Options key val T H (option (Hd -> Hd)) P).

(** [type rabbitBroker struct]: of its connection the settings and the callbacks. *)
Record rabbitBroker := mkBroker {
  conn : option (settings * (option nat * option nat));
  b_options : Options;
  subscribers : SubscriberSyncMap
}.

(** [func NewBroker(opts ...broker.Option) broker.Broker] *)
Definition NewBroker (cs : codecs (value T)) (opts : list (Options -> Options)) : rabbitBroker :=
  mkBroker None (NewOptionsAndApply cs opts) NewSubscriberSyncMap.

(** [func (b *rabbitBroker) Address() string] *)
Definition Address (b : rabbitBroker) : string := default "" (head (Addrs (b_options b))).

(** [func (b *rabbitBroker) Init(opts ...broker.Option) error]; its tracers are in
    [BrokerTracing]. *)
Definition Init (opts : list (Options -> Options)) (b : rabbitBroker) : rabbitBroker :=
  let o := apply_opts opts (b_options b) in
  mkBroker (conn b) (BrokerOptions.WithAddress (Init_addrs (Addrs o)) o) (subscribers b).

(** [func (b *rabbitBroker) Connect() error]: the connection is made once, from the
    options of that time; [dial] is [conn.Connect], told the settings, whether to use
    TLS, the external authentication and the TLS configuration. *)
Definition Connect (dial : settings -> bool -> bool -> option nat -> option error) (b : rabbitBroker) : result (option error * rabbitBroker) :=
  match Context_ (b_options b) with
  | None => Panicked
  | Some c =>
      let k := default (init (Addrs (b_options b)) (conn_values_of c), callbacks_of c) (conn b) in
      Returned (dial (fst k) (Secure (b_options b)) (as_auth (Value c externalAuthKey)) (TLSConfig (b_options b)),
                mkBroker (Some k) (b_options b) (subscribers b))
  end.

(** [func (b *rabbitBroker) Disconnect() error]; [lib] is what closing the connection
    returns. *)
Definition Disconnect (lib : option error) (b : rabbitBroker) : option error * rabbitBroker :=
  match conn b with
  | None => (Some (Errorf "connection is nil"), b)
  | Some _ => (lib, mkBroker (conn b) (b_options b) (Broker.Clear (subscribers b)))
  end.

(** [func (b *rabbitBroker) Request] *)
Definition Request : option error := Some (Errorf "not implemented").

(** [type subscriber struct], with what its [fn] was closed over. *)
Record subscriber := mkSubscriber {
  s_topic : string;
  s_options : SubscribeOptions;
  s_exchange : string;
  s_durable : bool;
  s_autoDelete : bool;
  s_bindArgs : option Table;
  s_queueArgs : option Table;
  s_handler : Hd;
  s_requeue : bool;
  s_ackSuccess : bool
}.

(** [func (b *rabbitBroker) Subscribe]; [id] is the address of the new subscriber. *)
Definition Subscribe (id : nat) (routingKey : string) (handler : Hd) (opts : list (SubscribeOptions -> SubscribeOptions)) (b : rabbitBroker) :
    result ((subscriber + error) * rabbitBroker) :=
  match conn b with
  | None => Returned (inr (Errorf "not connected"), b)
  | Some (s, _) =>
      let o := apply_opts opts (mkSubscribeOptions true "" (Some [])) in
      let handler := match SubscriberMiddlewares (b_options b) with [] => handler | mws => ChainSubscriberMiddleware handler mws end in
      match so_Context o with
      | None => Panicked
      | Some c =>
          let requeue := default false (as_bool (Value c requeueOnErrorKey)) in
          let '(auto, ackSuccess) := ack_options (AutoAck o) (as_bool (Value c ackSuccessKey)) in
          let exchange := match as_str (Value c subscribeExchangeKey) with
            | Some x => if negb (String.eqb x "") then x else defaultExchangeName s
            | None => defaultExchangeName s end in
          let '(dur, del) := queue_options (as_bool (Value c durableQueueKey)) (as_bool (Value c autoDeleteQueueKey)) in
          let sub := mkSubscriber routingKey (mkSubscribeOptions auto (Queue o) (so_Context o)) exchange dur del
            (as_table (Value c subscribeBindArgsKey)) (as_table (Value c subscribeQueueArgsKey)) handler requeue ackSuccess in
          Returned (inl sub, mkBroker (conn b) (b_options b) (Broker.Add routingKey id (subscribers b)))
      end
  end.

(** [func (s *subscriber) Unsubscribe(removeFromManager bool) error]: [ch] is what
    closing its channel returns, when it has one. *)
Definition Unsubscribe (ch : option (option error)) (s : subscriber) (removeFromManager : bool) (b : rabbitBroker) : option error * rabbitBroker :=
  (default None ch,
   if removeFromManager then mkBroker (conn b) (b_options b) (snd (Broker.RemoveOnly (s_topic s) (subscribers b))) else b).
End broker.

(** * Properties *)

(** The options as data: what each stores. *)
Section stored.
Context {O : Type} (key_of : O -> key) (val_of : O -> val).

Definition stored (opts : list O) (c : ctx_t) : ctx_t := fold_left (fun c o => (key_of o, val_of o) :: c) opts c.

(** The last option of a kind, if there is one. *)
Definition last_of {A} (sel : O -> option A) (opts : list O) : option A := last (omap sel opts).

(** The last option under a key is the one read. *)
Lemma stored_value k opts c :
  Value (stored opts c) k = match last_of (fun o => if decide (key_of o = k) then Some (val_of o) else None) opts with
                            | Some v => Some v | None => Value c k end.
Proof.
  induction opts as [|o opts IH] using rev_ind; [done|]. unfold stored, last_of in *. rewrite fold_left_app, omap_app. cbn [fold_left Value omap list_omap].
  destruct (decide (key_of o = k)); [by rewrite last_snoc|by rewrite app_nil_r].
Qed.

Lemma stored_as {A} (as_ : option val -> option A) (sel : O -> option A) k opts :
  as_ None = None -> (forall o, sel o = if decide (key_of o = k) then as_ (Some (val_of o)) else None) ->
  (forall o, key_of o = k -> is_Some (as_ (Some (val_of o)))) ->
  as_ (Value (stored opts []) k) = last_of sel opts.
Proof.
  intros H0 Hsel Hsome. rewrite stored_value. cbn [Value]. unfold last_of.
  induction opts as [|o opts IH] using rev_ind; [done|]. rewrite !omap_app. cbn [omap list_omap]. rewrite Hsel.
  destruct (decide (key_of o = k)) as [E|E]; [|by rewrite !app_nil_r].
  destruct (Hsome o E) as [a Ea]. rewrite Ea. by rewrite !last_snoc.
Qed.
End stored.

Lemma last_of_flag {O} (p : O -> bool) (opts : list O) :
  last_of (fun o => if p o then Some true else None) opts = if existsb p opts then Some true else None.
Proof.
  induction opts as [|o opts IH] using rev_ind; [done|]. unfold last_of in *. rewrite omap_app, existsb_app. cbn [omap list_omap existsb].
  rewrite orb_false_r. destruct (p o); [by rewrite last_snoc, orb_true_r|by rewrite app_nil_r, orb_false_r].
Qed.

(** A field of the values read: the last option that sets it. *)
Ltac stored_fields :=
  f_equal; (eapply stored_as; [done|intros []; done|intros []; cbn; (done || eauto)]).

(** ** Options of the broker *)

Inductive conn_opt :=
| ODurableExchange | OExchangeName (name : string) | OExchangeType (kind : string) | OPrefetchCount (n : Z) | OPrefetchSize (n : Z)
| OPrefetchGlobal | OExternalAuth | OExchanges (l : list Exchange) | ODefaultExchange (name : string) | OConfirmMode
| OOnReturn (h : nat) | OOnConfirm (h : nat).

Section conn_options.
Context {T H P Hd : Type}.
Abbreviation Options := (BrokerOptions.Options key val T H (option (Hd -> Hd)) P).

Definition conn_option (o : conn_opt) : Options -> Options :=
  match o with
  | ODurableExchange => WithDurableExchange | OExchangeName n => WithExchangeName n | OExchangeType k => WithExchangeType k
  | OPrefetchCount n => WithPrefetchCount n | OPrefetchSize n => WithPrefetchSize n | OPrefetchGlobal => WithPrefetchGlobal
  | OExternalAuth => WithExternalAuth | OExchanges l => WithExchanges l | ODefaultExchange n => WithDefaultExchange n
  | OConfirmMode => WithConfirmMode | OOnReturn h => WithOnReturn h | OOnConfirm h => WithOnConfirm h
  end.
Definition conn_key (o : conn_opt) : key :=
  match o with
  | ODurableExchange => exchangeDurableKey | OExchangeName _ => exchangeNameKey | OExchangeType _ => exchangeKindKey
  | OPrefetchCount _ => prefetchCountKey | OPrefetchSize _ => prefetchSizeKey | OPrefetchGlobal => prefetchGlobalKey
  | OExternalAuth => externalAuthKey | OExchanges _ => exchangesKey | ODefaultExchange _ => defaultExchangeNameKey
  | OConfirmMode => confirmModeKey | OOnReturn _ => onReturnKey | OOnConfirm _ => onConfirmKey
  end.
Definition conn_val (o : conn_opt) : val :=
  match o with
  | ODurableExchange | OPrefetchGlobal | OConfirmMode => VBool true
  | OExchangeName s | OExchangeType s | ODefaultExchange s => VString s
  | OPrefetchCount n | OPrefetchSize n => VInt n
  | OExternalAuth => VExternalAuth | OExchanges l => VExchanges l
  | OOnReturn h => VReturnHandler h | OOnConfirm h => VConfirmHandler h
  end.

Lemma conn_options_stored opts (o : Options) c :
  Context_ o = Some c -> apply_opts (conn_option <$> opts) o = set_Context (Some (stored conn_key conn_val opts c)) o.
Proof.
  unfold apply_opts, stored. revert o c. induction opts as [|x opts IH]; intros o c E; cbn.
  - destruct o; cbn in *. by subst.
  - rewrite (IH _ ((conn_key x, conn_val x) :: c)); [|by destruct x; cbn; unfold ContextWithValue; rewrite E]. by destruct x.
Qed.

(** The values of the options, each that of the last option which gives it. *)
Definition chosen (opts : list conn_opt) : conn_values :=
  mkConnValues (last_of (fun o => match o with OExchangeName s => Some s | _ => None end) opts)
    (last_of (fun o => match o with OExchangeType s => Some s | _ => None end) opts)
    (last_of (fun o => match o with ODurableExchange => Some true | _ => None end) opts)
    (last_of (fun o => match o with OExchanges l => Some l | _ => None end) opts)
    (last_of (fun o => match o with ODefaultExchange s => Some s | _ => None end) opts)
    (last_of (fun o => match o with OPrefetchCount n => Some n | _ => None end) opts)
    (last_of (fun o => match o with OPrefetchSize n => Some n | _ => None end) opts)
    (last_of (fun o => match o with OPrefetchGlobal => Some true | _ => None end) opts)
    (last_of (fun o => match o with OConfirmMode => Some true | _ => None end) opts).

Lemma conn_values_chosen opts : conn_values_of (stored conn_key conn_val opts []) = chosen opts.
Proof. unfold conn_values_of, chosen. stored_fields. Qed.

(** The options of a broker take effect when it connects, the last of each kind
    counting: the connection is made with the settings chosen and the callbacks, and
    keeps them when the broker connects again; what is given to [Init] later only
    changes the addresses and options that a new connection would use. *)
Theorem rabbit_connection_options cs opts dial dial' more :
  let b := NewBroker (T := T) (H := H) (P := P) (Hd := Hd) cs (conn_option <$> opts) in
  let s := init [] (chosen opts) in
  let handlers := (last_of (fun o => match o with OOnReturn h => Some h | _ => None end) opts,
                   last_of (fun o => match o with OOnConfirm h => Some h | _ => None end) opts) in
  let auth := existsb (fun o => match o with OExternalAuth => true | _ => false end) opts in
  exists b1, Connect dial b = Returned (dial s false auth None, b1) /\ conn b1 = Some (s, handlers) /\
    exists b2, Connect dial' (Init (conn_option <$> more) b1) = Returned (dial' s false
      (auth || existsb (fun o => match o with OExternalAuth => true | _ => false end) more) None, b2) /\ conn b2 = Some (s, handlers).
Proof.
  assert (forall l c, as_auth (Value (stored conn_key conn_val l c) externalAuthKey) =
    (as_auth (Value c externalAuthKey) || existsb (fun o => match o with OExternalAuth => true | _ => false end) l)) as Hauth.
  { intros l c. rewrite stored_value. unfold last_of. induction l as [|o l IH] using rev_ind; [by rewrite orb_false_r|].
    rewrite omap_app, existsb_app. cbn [omap list_omap existsb]. rewrite orb_false_r, orb_assoc, <- IH.
    destruct (decide (conn_key o = externalAuthKey)) as [E|E].
    - destruct o; try done. by rewrite last_snoc, orb_true_r.
    - rewrite app_nil_r. destruct o; try done; by rewrite orb_false_r. }
  intros b s handlers auth. subst b. unfold NewBroker, NewOptionsAndApply. rewrite (conn_options_stored _ _ []) by done.
  unfold Connect at 1. cbn -[conn_values_of callbacks_of stored Value init]. rewrite conn_values_chosen. eexists. split.
  - rewrite Hauth. cbn [Value as_auth orb]. reflexivity.
  - cbn [conn]. assert (callbacks_of (stored conn_key conn_val opts []) = handlers) as Hcb by (unfold callbacks_of, handlers; stored_fields).
    split; [by rewrite Hcb|]. unfold Init, Connect. cbn -[conn_values_of callbacks_of stored Value init].
    rewrite (conn_options_stored _ _ (stored conn_key conn_val opts [])) by done. cbn -[conn_values_of callbacks_of stored Value init].
    eexists. split; [rewrite !Hauth; reflexivity|cbn [conn]; by rewrite Hcb].
Qed.
End conn_options.

(** ** Options of a publish *)

Inductive pub_opt :=
| PDeliveryMode (n : Z) | PPriority (n : Z) | PContentType (s : string) | PContentEncoding (s : string) | PCorrelationID (s : string)
| PReplyTo (s : string) | PExpiration (s : string) | PMessageId (s : string) | PTimestamp (t : Time) | PTypeMsg (s : string)
| PUserID (s : string) | PAppID (s : string) | PHeaders (h : Table) | PDeclareQueue (queue : string) (durable autoDelete : bool) (queueArgs bindArgs : Table)
| PMandatory | PExchange (name : string).

Definition pub_option (o : pub_opt) : PubOptions -> PubOptions :=
  match o with
  | PDeliveryMode n => WithDeliveryMode n | PPriority n => WithPriority n | PContentType s => WithContentType s
  | PContentEncoding s => WithContentEncoding s | PCorrelationID s => WithCorrelationID s | PReplyTo s => WithReplyTo s
  | PExpiration s => WithExpiration s | PMessageId s => WithMessageId s | PTimestamp t => WithTimestamp t | PTypeMsg s => WithTypeMsg s
  | PUserID s => WithUserID s | PAppID s => WithAppID s | PHeaders h => WithPublishHeaders h
  | PDeclareQueue q d a qa ba => WithPublishDeclareQueue q d a qa ba | PMandatory => WithMandatory | PExchange n => WithPublishExchange n
  end.
Definition pub_key (o : pub_opt) : key :=
  match o with
  | PDeliveryMode _ => deliveryModeKey | PPriority _ => priorityKey | PContentType _ => contentTypeKey | PContentEncoding _ => contentEncodingKey
  | PCorrelationID _ => correlationIDKey | PReplyTo _ => replyToKey | PExpiration _ => expirationKey | PMessageId _ => messageIDKey
  | PTimestamp _ => timestampKey | PTypeMsg _ => messageTypeKey | PUserID _ => userIDKey | PAppID _ => appIDKey
  | PHeaders _ => publishHeadersKey | PDeclareQueue _ _ _ _ _ => publishDeclareQueueKey | PMandatory => mandatoryKey | PExchange _ => publishExchangeKey
  end.
Definition pub_val (o : pub_opt) : val :=
  match o with
  | PDeliveryMode n | PPriority n => VUint8 n
  | PContentType s | PContentEncoding s | PCorrelationID s | PReplyTo s | PExpiration s | PMessageId s | PTypeMsg s | PUserID s | PAppID s | PExchange s =>
      VString s
  | PTimestamp t => VTime t | PHeaders h => VTable h | PMandatory => VBool true
  | PDeclareQueue q d a qa ba => VDeclare (mkDeclareQueue qa ba d a q)
  end.

Lemma pub_options_stored opts (o : PubOptions) c :
  po_Context o = Some c -> po_Context (apply_opts (pub_option <$> opts) o) = Some (stored pub_key pub_val opts c).
Proof.
  unfold apply_opts, stored. revert o c. induction opts as [|x opts IH]; intros o c E; cbn; [done|].
  apply (IH _ ((pub_key x, pub_val x) :: c)). destruct x; cbn; unfold ContextWithValue; by rewrite E.
Qed.

(** The values a publish uses: each that of the last option which gives it. *)
Theorem rabbit_publish_options opts (c : ctx_t) :
  po_Context (publish_options (Some []) (pub_option <$> opts)) = Some c ->
  publish_values_of c =
    mkPublishValues (last_of (fun o => match o with PDeliveryMode n => Some n | _ => None end) opts)
      (last_of (fun o => match o with PPriority n => Some n | _ => None end) opts)
      (last_of (fun o => match o with PContentType s => Some s | _ => None end) opts)
      (last_of (fun o => match o with PContentEncoding s => Some s | _ => None end) opts)
      (last_of (fun o => match o with PCorrelationID s => Some s | _ => None end) opts)
      (last_of (fun o => match o with PReplyTo s => Some s | _ => None end) opts)
      (last_of (fun o => match o with PExpiration s => Some s | _ => None end) opts)
      (last_of (fun o => match o with PMessageId s => Some s | _ => None end) opts)
      (last_of (fun o => match o with PTimestamp t => Some t | _ => None end) opts)
      (last_of (fun o => match o with PTypeMsg s => Some s | _ => None end) opts)
      (last_of (fun o => match o with PUserID s => Some s | _ => None end) opts)
      (last_of (fun o => match o with PAppID s => Some s | _ => None end) opts)
      (last_of (fun o => match o with PHeaders h => Some h | _ => None end) opts)
      (last_of (fun o => match o with PExchange s => Some s | _ => None end) opts)
      (last_of (fun o => match o with PDeclareQueue q d a qa ba => Some (mkDeclareQueue qa ba d a q) | _ => None end) opts)
      (last_of (fun o => match o with PMandatory => Some true | _ => None end) opts).
Proof.
  unfold publish_options. rewrite (pub_options_stored _ _ []) by done. intros [= <-]. unfold publish_values_of. stored_fields.
Qed.

(** ** Options of a subscription *)

Inductive sub_opt :=
| SDurableQueue | SAutoDeleteQueue | SBindArguments (h : Table) | SQueueArguments (h : Table) | SRequeueOnError | SContext (n : nat)
| SAckOnSuccess | SExchange (name : string).
Definition sub_option (o : sub_opt) : SubscribeOptions -> SubscribeOptions :=
  match o with
  | SDurableQueue => WithDurableQueue | SAutoDeleteQueue => WithAutoDeleteQueue | SBindArguments h => WithBindArguments h
  | SQueueArguments h => WithQueueArguments h | SRequeueOnError => WithRequeueOnError | SContext n => WithSubscribeContext n
  | SAckOnSuccess => WithAckOnSuccess | SExchange n => WithSubscribeExchange n
  end.
Definition sub_key (o : sub_opt) : key :=
  match o with
  | SDurableQueue => durableQueueKey | SAutoDeleteQueue => autoDeleteQueueKey | SBindArguments _ => subscribeBindArgsKey
  | SQueueArguments _ => subscribeQueueArgsKey | SRequeueOnError => requeueOnErrorKey | SContext _ => subscribeContextKey
  | SAckOnSuccess => ackSuccessKey | SExchange _ => subscribeExchangeKey
  end.
Definition sub_val (o : sub_opt) : val :=
  match o with
  | SBindArguments h | SQueueArguments h => VTable h
  | SContext n => VContext n | SExchange n => VString n
  | _ => VBool true
  end.
Definition is_auto_delete (o : sub_opt) : bool := match o with SAutoDeleteQueue => true | _ => false end.
Definition is_requeue (o : sub_opt) : bool := match o with SRequeueOnError => true | _ => false end.
Definition is_ack (o : sub_opt) : bool := match o with SAckOnSuccess => true | _ => false end.
Definition is_durable (o : sub_opt) : bool := match o with SDurableQueue => true | _ => false end.

Lemma sub_options_stored opts o c :
  so_Context o = Some c ->
  apply_opts (sub_option <$> opts) o = mkSubscribeOptions (AutoAck o) (Queue o) (Some (stored sub_key sub_val opts c)).
Proof.
  unfold apply_opts, stored. revert o c. induction opts as [|x opts IH]; intros o c E; cbn; [destruct o; cbn in *; by subst|].
  rewrite (IH _ ((sub_key x, sub_val x) :: c)); [by destruct x|]. destruct x; cbn; unfold ContextWithValue; by rewrite E.
Qed.

Lemma sub_flag k (p : sub_opt -> bool) opts :
  (forall o, p o = true -> sub_key o = k /\ sub_val o = VBool true) -> (forall o, sub_key o = k -> p o = true) ->
  as_bool (Value (stored sub_key sub_val opts []) k) = if existsb p opts then Some true else None.
Proof.
  intros H1 H2. rewrite <- last_of_flag. apply stored_as; [done| |].
  - intros o. destruct (p o) eqn:E; [destruct (H1 o E) as [-> ->]; by rewrite decide_True|]. rewrite decide_False; [done|].
    intros Hk. apply H2 in Hk. congruence.
  - intros o Hk. apply H2 in Hk. destruct (H1 o Hk) as [_ ->]. by eexists.
Qed.
Ltac sub_flags := intros []; cbn; intros ?; (done || by split).

(** What a subscription is made of, whatever the order of its options: its queue
    survives restarts unless it is to delete itself; messages are acknowledged by the
    broker unless they are on success; the queue is bound to the exchange of the last
    option that names one, if that is not empty, and to the default one otherwise; a
    context given with [WithSubscribeContext] has no effect. *)
Theorem rabbit_subscribe_options {T H P Hd : Type} id routingKey (handler : Hd) opts (b : rabbitBroker (T := T) (H := H) (P := P) (Hd := Hd)) s cb :
  conn b = Some (s, cb) ->
  exists sub b', Subscribe id routingKey handler (sub_option <$> opts) b = Returned (inl sub, b') /\
    sm_m (subscribers b') = <[routingKey := id]> (sm_m (subscribers b)) /\
    s_topic sub = routingKey /\
    s_durable sub = negb (existsb is_auto_delete opts) /\ s_autoDelete sub = existsb is_auto_delete opts /\
    AutoAck (s_options sub) = negb (existsb is_ack opts) /\ s_ackSuccess sub = existsb is_ack opts /\
    s_requeue sub = existsb is_requeue opts /\
    s_exchange sub = (let x := default "" (last_of (fun o => match o with SExchange n => Some n | _ => None end) opts) in
                      if String.eqb x "" then defaultExchangeName s else x) /\
    s_bindArgs sub = last_of (fun o => match o with SBindArguments h => Some h | _ => None end) opts /\
    s_queueArgs sub = last_of (fun o => match o with SQueueArguments h => Some h | _ => None end) opts.
Proof.
  intros Hc. unfold Subscribe. rewrite Hc, (sub_options_stored _ _ []) by done. cbn [so_Context AutoAck Queue].
  rewrite (sub_flag requeueOnErrorKey is_requeue), (sub_flag ackSuccessKey is_ack), (sub_flag durableQueueKey is_durable),
    (sub_flag autoDeleteQueueKey is_auto_delete) by sub_flags.
  rewrite (stored_as sub_key sub_val as_str (fun o => match o with SExchange n => Some n | _ => None end) subscribeExchangeKey),
    (stored_as sub_key sub_val as_table (fun o => match o with SBindArguments h => Some h | _ => None end) subscribeBindArgsKey),
    (stored_as sub_key sub_val as_table (fun o => match o with SQueueArguments h => Some h | _ => None end) subscribeQueueArgsKey)
    by (done || (intros []; cbn; (done || eauto))).
  destruct (existsb is_requeue opts), (existsb is_ack opts), (existsb is_durable opts), (existsb is_auto_delete opts); cbn;
    (eexists _, _; split; [done|]); cbn; repeat split;
    destruct (last_of _ opts) as [x|]; cbn; done || by destruct (String.eqb x "").
Qed.
