(* ===== verification/BrokerTracing.v ===== *)
(** [tracer/otlp/tracer.go] and the spans of the broker drivers: [kafka/tracer.go], the
    span functions of [rabbitmq.go], [nats.go], [jetstream.go] and of the three RocketMQ
    drivers, with the carriers of their [message.go].

    Tracers, propagators and the client libraries' messages are third-party: a tracer
    and a propagator are the records of [HttpObserve], a message of a library that
    hides its properties is a type with its accessors. *)
From Stdlib Require Import ZArith Lia.
From S2P Require Import Prelude GoErrors GoStrings Encoding Broker BrokerCodec BrokerOptions GrpcContext HttpObserve Kafka Nats Rabbit Rocket.
From stdpp Require Import base gmap strings list fin_maps.
Open Scope string_scope.
Open Scope list_scope.
Open Scope Z_scope.

Abbreviation attribute := (string * arg)%type.

(** [propagation.TextMapCarrier] over a message; [Set] may panic. *)
Class Carrier (M : Type) := {
  carrier_get : M -> string -> string;
  carrier_set : string -> string -> M -> result M;
  carrier_keys : M -> list string
}.

(** The keys of [Inject], set one after the other. *)
Fixpoint set_all {M} `{CR : Carrier M} (pairs : list (string * string)) (m : M) : result M :=
  match pairs with
  | [] => Returned m
  | (k, v) :: rest => match carrier_set k v m with Returned m' => set_all rest m' | Panicked => Panicked end
  end.
Definition lift {W A} (r : result A) : Go W A := fun w => (r, w).

(** * [otlp] *)
Module otlp.

Section tracer.
Context {C Sp W P : Type} (otel_Tracer : P -> string -> Tracer C Sp W) (error_text : error -> string).

(** [type tracerOptions struct], [type Tracer struct] *)
Record tracerOptions := mkTracerOptions { propagator : Propagator C; kind : SpanKind; tracerName : string; spanName : string }.
Record OtlpTracer := mkOtlpTracer { tracer : Tracer C Sp W; opt : tracerOptions }.

(** [type TracerOption func( *tracerOptions)]; the process's tracer provider is the
    state beside the options. *)
Definition TracerOption : Type := tracerOptions * P -> tracerOptions * P.
Definition WithTracerName (name : string) : TracerOption := fun '(o, p) => (mkTracerOptions (propagator o) (kind o) name (spanName o), p).
Definition WithPropagator (pr : Propagator C) : TracerOption := fun '(o, p) => (mkTracerOptions pr (kind o) (tracerName o) (spanName o), p).
Definition WithTracerProvider (provider : P) : TracerOption := fun '(o, _) => (o, provider).

(** [func NewTracer(kind trace.SpanKind, spanName string, opts ...TracerOption) *Tracer];
    [composite] is the propagator of baggage and trace context. *)
Definition NewTracer (composite : Propagator C) (k : SpanKind) (name : string) (opts : list TracerOption) (p : P) : OtlpTracer * P :=
  let '(o, p) := fold_left (fun st f => f st) opts (mkTracerOptions composite k "lulu" "", p) in
  let o := mkTracerOptions (propagator o) (kind o) (tracerName o) name in
  (mkOtlpTracer (otel_Tracer p (tracerName o)) o, p).

(** [func (t *Tracer) Start]: the context and span, and the carrier's message. *)
Definition Start_ {M} `{CR : Carrier M} (t : OtlpTracer) (ctx : C) (m : M) (attrs : list attribute) : Go W (C * Sp * M) :=
  let ctx := match kind (opt t) with
    | SpanKindServer | SpanKindConsumer => Extract (propagator (opt t)) ctx (carrier_get m) (carrier_keys m)
    | _ => ctx end in
  '(ctx, span) ← Start (tracer t) ctx (spanName (opt t)) (kind (opt t)) attrs;
  m ← lift (match kind (opt t) with
    | SpanKindClient | SpanKindProducer => set_all (Inject (propagator (opt t)) ctx) m
    | _ => Returned m end);
  mret (ctx, span, m).

(** [func (t *Tracer) End]; a nil span is [None]. *)
Definition End (t : OtlpTracer) (span : option Sp) (err : option error) (attrs : list attribute) : Go W unit :=
  match span with
  | None => mret tt
  | Some sp =>
      recording ← IsRecording (tracer t) sp;
      if negb recording then mret tt
      else
        SetAttributes (tracer t) sp attrs ;;
        (match err with Some e => SetError (tracer t) sp (error_text e) | None => mret tt end) ;;
        End_ (tracer t) sp
  end.

(** [func (t *Tracer) Inject] *)
Definition Inject_ {M} `{CR : Carrier M} (t : OtlpTracer) (ctx : C) (m : M) : result M := set_all (Inject (propagator (opt t)) ctx) m.
End tracer.
End otlp.
Import otlp.

(** * Carriers *)

(** Kafka: the headers of a message. *)
Definition kafka_carrier : Carrier KMessage := {|
  carrier_get m k := Kafka.carrier_Get k (k_Headers m);
  carrier_set k v m := Returned (mkKMessage (k_Topic m) (k_Value m) (k_Key m) (k_Offset m) (k_Partition m) (Kafka.carrier_Set k v (k_Headers m)));
  carrier_keys m := Kafka.carrier_Keys (k_Headers m)
|}.
#[export] Existing Instance kafka_carrier.

(** NATS: [Header.Get] is the first value of a key, [Header.Set] makes it the only one;
    a nil header and an empty one are not told apart. *)
Definition nats_carrier : Carrier natsMsg := {|
  carrier_get m k := match default [] (Nats.Header m !! k) with [] => "" | v :: _ => v end;
  carrier_set k v m := Returned (mkNatsMsg (Subject m) (<[k := [v]]> (Nats.Header m)) (Data m) (Reply m));
  carrier_keys m := (map_to_list (Nats.Header m)).*1
|}.
#[export] Existing Instance nats_carrier.

(** [func formatHeaderValue(v any) string] *)
Definition formatHeaderValue (v : hval) : string :=
  match v with
  | HBytes b => String.string_of_list_ascii b
  | HString s => s
  | HInt z => Itoa z
  | HFloat text => text
  | HElse => ""
  end.

(** RabbitMQ, [ProducerMessageCarrier] over a table that may be nil, and
    [ConsumerMessageCarrier]. *)
Definition table_get (h : Table) (k : string) : string := match h !! k with Some v => formatHeaderValue v | None => "" end.
Definition producer_table_set (k v : string) (h : option Table) : result (option Table) :=
  match h with Some h => Returned (Some (<[k := HString v]> h)) | None => Panicked end.
Definition set_headers (h : Table) (p : Publishing) : Publishing :=
  mkPublishing (p_Body p) h (p_DeliveryMode p) (p_Priority p) (p_ContentType p) (p_ContentEncoding p) (p_CorrelationId p) (p_ReplyTo p)
    (p_Expiration p) (p_MessageId p) (p_Timestamp p) (p_Type p) (p_UserId p) (p_AppId p).
Definition rabbit_producer_carrier : Carrier Publishing := {|
  carrier_get m k := table_get (p_Headers m) k;
  carrier_set k v m :=
    match producer_table_set k v (Some (p_Headers m)) with
    | Returned (Some h) => Returned (set_headers h m)
    | _ => Panicked
    end;
  carrier_keys m := (map_to_list (p_Headers m)).*1
|}.
#[export] Existing Instance rabbit_producer_carrier.
Definition rabbit_consumer_carrier : Carrier Delivery := {|
  carrier_get m k := table_get (d_Headers m) k;
  carrier_set k v m := Returned (mkDelivery (d_Body m) (<[k := HString v]> (d_Headers m)) (d_RoutingKey m) (d_MessageId m));
  carrier_keys m := (map_to_list (d_Headers m)).*1
|}.
#[export] Existing Instance rabbit_consumer_carrier.

(** RocketMQ 4: [primitive.Message], which [primitive.MessageExt] embeds. *)
Class PrimitiveMessage (M : Type) := {
  GetProperty : string -> M -> string;
  WithProperty : string -> string -> M -> M;
  GetProperties : M -> gmap string string;
  prim_Topic : M -> string;
  prim_GetTags : M -> string;
  prim_GetKeys : M -> string
}.
Definition primitive_carrier {M} `{PrimitiveMessage M} : Carrier M := {|
  carrier_get m k := GetProperty k m;
  carrier_set k v m := Returned (WithProperty k v m);
  carrier_keys m := (map_to_list (GetProperties m)).*1
|}.
#[export] Existing Instance primitive_carrier.

(** RocketMQ 5: [rmqClient.Message], and [rmqClient.MessageView], whose properties are a
    map that is read and written in place; it may be nil. *)
Class RmqMessage (M : Type) := {
  rmq_GetProperties : M -> gmap string string;
  AddProperty : string -> string -> M -> M;
  rmq_Topic : M -> string;
  rmq_GetTag : M -> option string;
  rmq_GetKeys : M -> list string;
  GetMessageGroup : M -> option string;
  GetDeliveryTimestamp : M -> option Z
}.
Definition rmq_producer_carrier {M} `{RmqMessage M} : Carrier M := {|
  carrier_get m k := default "" (rmq_GetProperties m !! k);
  carrier_set k v m := Returned (AddProperty k v m);
  carrier_keys m := (map_to_list (rmq_GetProperties m)).*1
|}.
Record MessageView := mkMessageView {
  view_Properties : option (gmap string string);
  view_Topic : string; view_MessageId : string; view_Tag : option string; view_Keys : list string
}.
Definition rmq_consumer_carrier : Carrier MessageView := {|
  carrier_get m k := default "" (default ∅ (view_Properties m) !! k);
  carrier_set k v m :=
    match view_Properties m with
    | Some ps => Returned (mkMessageView (Some (<[k := v]> ps)) (view_Topic m) (view_MessageId m) (view_Tag m) (view_Keys m))
    | None => Panicked
    end;
  carrier_keys m := (map_to_list (default ∅ (view_Properties m))).*1
|}.
#[export] Existing Instance rmq_consumer_carrier.

(** Alibaba Cloud: the properties of a request, whose nil map cannot be written, and
    those of a consumed entry. *)
Definition aliyun_producer_carrier : Carrier Aliyun.PublishMessageRequest := {|
  carrier_get m k := default "" (default ∅ (Aliyun.Properties m) !! k);
  carrier_set k v m :=
    match Aliyun.Properties m with
    | Some ps => Returned (Aliyun.mkReq (Aliyun.MessageBody m) (Some (<[k := v]> ps)) (Aliyun.StartDeliverTime m) (Aliyun.MessageTag m)
        (Aliyun.MessageKey m) (Aliyun.ShardingKey m))
    | None => Panicked
    end;
  carrier_keys m := (map_to_list (default ∅ (Aliyun.Properties m))).*1
|}.
#[export] Existing Instance aliyun_producer_carrier.
Definition aliyun_consumer_carrier : Carrier Aliyun.Entry := {|
  carrier_get m k := default "" (Aliyun.e_Properties m !! k);
  carrier_set k v m := Returned (Aliyun.mkEntry (Aliyun.e_Message m) (<[k := v]> (Aliyun.e_Properties m)) (Aliyun.e_Body m) (Aliyun.e_Receipt m)
    (Aliyun.e_MessageId m) (Aliyun.e_MessageTag m) (Aliyun.e_MessageKey m));
  carrier_keys m := (map_to_list (Aliyun.e_Properties m)).*1
|}.
#[export] Existing Instance aliyun_consumer_carrier.

(** * Spans of the drivers *)

(** The names of [semconv] v1.12.0 and of [rmqClient] that the drivers use. *)
Class SemConv := {
  MessagingSystemKey : string; MessagingDestinationKey : string; MessagingMessageIDKey : string; MessagingKafkaPartitionKey : string;
  MessagingRabbitmqRoutingKeyKey : string; MessagingProtocolKey : string; MessagingProtocolVersionKey : string;
  MessagingRocketmqNamespaceKey : string; MessagingRocketmqClientGroupKey : string; MessagingRocketmqClientIDKey : string;
  MessagingRocketmqMessageTagKey : string; MessagingRocketmqMessageKeysKey : string; MessagingOperationKey : string;
  MessagingDestinationKindTopic : attribute; MessagingDestinationKindQueue : attribute; MessagingOperationReceive : attribute;
  MessagingRocketmqMessageTypeDelay : attribute; MessagingRocketmqMessageTypeFifo : attribute;
  MessagingRocketmqMessageTypeTransaction : attribute; MessagingRocketmqMessageTypeNormal : attribute;
  RMQ_MESSAGING_SYSTEM : string; RMQ_MESSAGING_PROTOCOL : string; RMQ_MESSAGING_PROTOCOL_VERSION : string;
  RMQ_SEND_OPERATION : string; RMQ_RECEIVE_OPERATION : string
}.

Section spans.
Context {C Sp W P : Type} `{SemConv} (error_text : error -> string).
(** [otel.GetTextMapPropagator()], the process's propagator. *)
Context (global : Propagator C).
Abbreviation tracer_t := (OtlpTracer (C := C) (Sp := Sp) (W := W)).

(** What the drivers share.  A span is started for a message that is not nil, when
    there is a tracer; the producer's context is injected by the tracer's propagator
    and then by the process's, and extracted by them in the other order. *)
Definition start_producer {M} `{CR : Carrier M} (tr : option tracer_t) (ctx : C) (msg : option M) (attrs : M -> list attribute) : Go W (C * option Sp * option M) :=
  match tr, msg with
  | Some t, Some m =>
      '(ctx, span, m) ← Start_ t ctx m (attrs m);
      m ← lift (set_all (Inject global ctx) m);
      mret (ctx, Some span, Some m)
  | _, _ => mret (ctx, None, msg)
  end.
Definition start_consumer {M} `{CR : Carrier M} (tr : option tracer_t) (ctx : C) (m : M) (attrs : M -> list attribute) : Go W (C * option Sp * M) :=
  match tr with
  | None => mret (ctx, None, m)
  | Some t =>
      let ctx := Extract global ctx (carrier_get m) (carrier_keys m) in
      '(ctx, span, m) ← Start_ t ctx m (attrs m);
      mret (ctx, Some span, m)
  end.
Definition finish_span (tr : option tracer_t) (span : option Sp) (err : option error) (attrs : list attribute) : Go W unit :=
  match tr with
  | None => mret tt
  | Some t => End error_text t span err attrs
  end.

(** The tracers that [Init] makes when there are tracing options. *)
Definition init_tracers (otel_Tracer : P -> string -> Tracer C Sp W) (composite : Propagator C) (producer consumer : string) (tracings : list (TracerOption (C := C) (P := P))) (p : P) :
    option tracer_t * option tracer_t * P :=
  match tracings with
  | [] => (None, None, p)
  | _ =>
      let '(t1, p) := NewTracer otel_Tracer composite SpanKindProducer producer tracings p in
      let '(t2, p) := NewTracer otel_Tracer composite SpanKindConsumer consumer tracings p in
      (Some t1, Some t2, p)
  end.

(** ** Kafka *)

Definition kafka_newProducerTracer (otel_Tracer : P -> string -> Tracer C Sp W) (composite : Propagator C) :=
  NewTracer otel_Tracer composite SpanKindProducer "kafka-producer".
Definition kafka_newConsumerTracer (otel_Tracer : P -> string -> Tracer C Sp W) (composite : Propagator C) :=
  NewTracer otel_Tracer composite SpanKindConsumer "kafka-consumer".
Definition kafka_startProducerSpan (tr : option tracer_t) (ctx : C) (msg : option KMessage) : Go W (C * option Sp * option KMessage) :=
  start_producer tr ctx msg (fun m =>
    [(MessagingSystemKey, AStr "kafka"); MessagingDestinationKindTopic; (MessagingDestinationKey, AStr (k_Topic m))]).
Definition kafka_finishProducerSpan (tr : option tracer_t) (span : option Sp) (partition offset : Z) (err : option error) : Go W unit :=
  finish_span tr span err [(MessagingMessageIDKey, AStr (Itoa offset)); (MessagingKafkaPartitionKey, AInt partition)].
Definition kafka_startConsumerSpan (tr : option tracer_t) (ctx : C) (msg : option KMessage) : Go W (C * option Sp * option KMessage) :=
  match tr, msg with
  | Some _, Some m =>
      '(ctx, span, m) ← start_consumer tr ctx m (fun m =>
        [(MessagingSystemKey, AStr "kafka"); MessagingDestinationKindTopic; (MessagingDestinationKey, AStr (k_Topic m)); MessagingOperationReceive;
         (MessagingMessageIDKey, AStr (Itoa (k_Offset m))); (MessagingKafkaPartitionKey, AInt (k_Partition m))]);
      mret (ctx, span, Some m)
  | _, _ => mret (ctx, None, msg)
  end.
Definition kafka_finishConsumerSpan (tr : option tracer_t) (span : option Sp) (err : option error) : Go W unit := finish_span tr span err [].

(** ** RabbitMQ *)

Definition rabbit_startProducerSpan (tr : option tracer_t) (ctx : C) (routingKey : string) (msg : option Publishing) : Go W (C * option Sp * option Publishing) :=
  start_producer tr ctx msg (fun m =>
    [(MessagingSystemKey, AStr "rabbitmq"); MessagingDestinationKindTopic; (MessagingDestinationKey, AStr routingKey);
     (MessagingMessageIDKey, AStr (p_MessageId m)); (MessagingProtocolKey, AStr "AMQP"); (MessagingProtocolVersionKey, AStr "0.9.1")]).
Definition rabbit_finishProducerSpan (tr : option tracer_t) (span : option Sp) (routingKey : string) (err : option error) : Go W unit :=
  finish_span tr span err [(MessagingRabbitmqRoutingKeyKey, AStr routingKey)].
Definition rabbit_startConsumerSpan (tr : option tracer_t) (ctx : C) (queueName : string) (msg : Delivery) : Go W (C * option Sp * Delivery) :=
  start_consumer tr ctx msg (fun m =>
    [(MessagingSystemKey, AStr "rabbitmq"); MessagingDestinationKindQueue; (MessagingDestinationKey, AStr queueName); MessagingOperationReceive;
     (MessagingMessageIDKey, AStr (d_MessageId m)); (MessagingRabbitmqRoutingKeyKey, AStr (d_RoutingKey m));
     (MessagingProtocolKey, AStr "AMQP"); (MessagingProtocolVersionKey, AStr "0.9.1")]).
Definition rabbit_finishConsumerSpan (tr : option tracer_t) (span : option Sp) (err : option error) : Go W unit := finish_span tr span err [].

(** ** NATS: the core and the JetStream driver *)

Definition nats_producer_attrs (system : string) (m : natsMsg) : list attribute :=
  [(MessagingSystemKey, AStr system); MessagingDestinationKindTopic; (MessagingDestinationKey, AStr (Subject m))].
Definition nats_startProducerSpan (tr : option tracer_t) (ctx : C) (msg : option natsMsg) := start_producer tr ctx msg (nats_producer_attrs "nats").
Definition nats_finishProducerSpan (tr : option tracer_t) (span : option Sp) (err : option error) : Go W unit := finish_span tr span err [].
Definition nats_startConsumerSpan (tr : option tracer_t) (ctx : C) (msg : natsMsg) :=
  start_consumer tr ctx msg (fun m => nats_producer_attrs "nats" m ++ [MessagingOperationReceive]).
Definition nats_finishConsumerSpan (tr : option tracer_t) (span : option Sp) (err : option error) : Go W unit := finish_span tr span err [].
Definition js_startProducerSpan (tr : option tracer_t) (ctx : C) (msg : option natsMsg) := start_producer tr ctx msg (nats_producer_attrs "nats-jetstream").
Definition js_finishProducerSpan (tr : option tracer_t) (span : option Sp) (err : option error) : Go W unit := finish_span tr span err [].
Definition js_startConsumerSpan (tr : option tracer_t) (ctx : C) (msg : natsMsg) :=
  start_consumer tr ctx msg (fun m => nats_producer_attrs "nats-jetstream" m ++ [MessagingOperationReceive]).
Definition js_finishConsumerSpan (tr : option tracer_t) (span : option Sp) (err : option error) : Go W unit := finish_span tr span err [].

(** ** RocketMQ *)

(** The settings of a broker that its spans carry. *)
Definition client_attrs (s : Settings) : list attribute :=
  [(MessagingRocketmqNamespaceKey, AStr (namespace s)); (MessagingRocketmqClientGroupKey, AStr (groupName s));
   (MessagingRocketmqClientIDKey, AStr (instanceName s))].

(** The 4.x client. *)
Definition v2_startProducerSpan {M} `{PrimitiveMessage M} (s : Settings) (tr : option tracer_t) (ctx : C) (msg : option M) : Go W (C * option Sp * option M) :=
  start_producer tr ctx msg (fun m =>
    (MessagingSystemKey, AStr "rocketmq") :: client_attrs s ++ [MessagingDestinationKindTopic; (MessagingDestinationKey, AStr (prim_Topic m));
     (MessagingRocketmqMessageTagKey, AStr (prim_GetTags m)); (MessagingRocketmqMessageKeysKey, AStr (prim_GetKeys m))]).
Definition v2_finishProducerSpan (s : Settings) (tr : option tracer_t) (span : option Sp) (messageId : string) (err : option error) : Go W unit :=
  finish_span tr span err [(MessagingMessageIDKey, AStr messageId); (MessagingRocketmqNamespaceKey, AStr (namespace s));
    (MessagingRocketmqClientGroupKey, AStr (groupName s))].
Definition v2_startConsumerSpan {M} `{PrimitiveMessage M} (MsgId : M -> string) (tr : option tracer_t) (ctx : C) (msg : M) : Go W (C * option Sp * M) :=
  start_consumer tr ctx msg (fun m =>
    [(MessagingSystemKey, AStr "rocketmq"); MessagingDestinationKindTopic; (MessagingDestinationKey, AStr (prim_Topic m)); MessagingOperationReceive;
     (MessagingMessageIDKey, AStr (MsgId m))]).
Definition v2_finishConsumerSpan (tr : option tracer_t) (span : option Sp) (err : option error) : Go W unit := finish_span tr span err [].

(** The 5.x client. *)
Definition rmq_attrs (s : Settings) : list attribute :=
  (MessagingSystemKey, AStr RMQ_MESSAGING_SYSTEM) :: (MessagingProtocolKey, AStr RMQ_MESSAGING_PROTOCOL) ::
  (MessagingProtocolVersionKey, AStr RMQ_MESSAGING_PROTOCOL_VERSION) :: client_attrs s ++ [MessagingDestinationKindTopic].
Definition message_type {M} `{RmqMessage M} (m : M) (transaction : bool) : attribute :=
  if bool_decide (GetDeliveryTimestamp m <> None) then MessagingRocketmqMessageTypeDelay
  else if match GetMessageGroup m with Some g => String.eqb (ToLower g) "fifo" | None => false end then MessagingRocketmqMessageTypeFifo
  else if transaction then MessagingRocketmqMessageTypeTransaction
  else MessagingRocketmqMessageTypeNormal.
Definition tag_attrs (tag : option string) (keys : list string) : list attribute :=
  option_list ((fun t => (MessagingRocketmqMessageTagKey, AStr t)) <$> tag) ++
  match keys with [] => [] | _ => [(MessagingRocketmqMessageKeysKey, AStrs keys)] end.
Definition v5_startProducerSpan {M} `{RmqMessage M} (s : Settings) (tr : option tracer_t) (ctx : C) (msg : option M) (transaction : bool) :
    Go W (C * option Sp * option M) :=
  start_producer (CR := rmq_producer_carrier) tr ctx msg (fun m =>
    rmq_attrs s ++ [(MessagingOperationKey, AStr RMQ_SEND_OPERATION); (MessagingDestinationKey, AStr (rmq_Topic m)); message_type m transaction] ++
    tag_attrs (rmq_GetTag m) (rmq_GetKeys m)).
Definition v5_finishProducerSpan (s : Settings) (tr : option tracer_t) (span : option Sp) (receipt : option string) (err : option error) : Go W unit :=
  finish_span tr span err [(MessagingMessageIDKey, AStr (default "" receipt)); (MessagingRocketmqNamespaceKey, AStr (namespace s));
    (MessagingRocketmqClientGroupKey, AStr (groupName s))].
Definition v5_startConsumerSpan (s : Settings) (tr : option tracer_t) (ctx : C) (msg : MessageView) : Go W (C * option Sp * MessageView) :=
  start_consumer tr ctx msg (fun m =>
    rmq_attrs s ++ [(MessagingOperationKey, AStr RMQ_RECEIVE_OPERATION); (MessagingDestinationKey, AStr (view_Topic m)); (MessagingMessageIDKey, AStr (view_MessageId m))] ++
    tag_attrs (view_Tag m) (view_Keys m)).
Definition v5_finishConsumerSpan (tr : option tracer_t) (span : option Sp) (err : option error) : Go W unit := finish_span tr span err [].

(** Alibaba Cloud; the consumer's destination is the entry's [Message] field. *)
Definition nonempty_attr (key v : string) : list attribute := if String.eqb v "" then [] else [(key, AStr v)].
Definition aliyun_startProducerSpan (s : Settings) (tr : option tracer_t) (ctx : C) (topicName : string) (msg : option Aliyun.PublishMessageRequest) :
    Go W (C * option Sp * option Aliyun.PublishMessageRequest) :=
  start_producer tr ctx msg (fun m =>
    [(MessagingSystemKey, AStr "rocketmq"); MessagingDestinationKindTopic] ++ client_attrs s ++ [(MessagingDestinationKey, AStr topicName)] ++
    nonempty_attr MessagingRocketmqMessageTagKey (Aliyun.MessageTag m) ++ nonempty_attr MessagingRocketmqMessageKeysKey (Aliyun.MessageKey m)).
Definition aliyun_finishProducerSpan (tr : option tracer_t) (span : option Sp) (messageId : string) (err : option error) : Go W unit :=
  finish_span tr span err [(MessagingMessageIDKey, AStr messageId)].
Definition aliyun_startConsumerSpan (tr : option tracer_t) (ctx : C) (msg : Aliyun.Entry) : Go W (C * option Sp * Aliyun.Entry) :=
  start_consumer tr ctx msg (fun m =>
    [(MessagingSystemKey, AStr "rocketmq"); MessagingDestinationKindTopic; (MessagingDestinationKey, AStr (Aliyun.e_Message m)); MessagingOperationReceive;
     (MessagingMessageIDKey, AStr (Aliyun.e_MessageId m))] ++
    nonempty_attr MessagingRocketmqMessageTagKey (Aliyun.e_MessageTag m) ++ nonempty_attr MessagingRocketmqMessageKeysKey (Aliyun.e_MessageKey m)).
Definition aliyun_finishConsumerSpan (tr : option tracer_t) (span : option Sp) (err : option error) : Go W unit := finish_span tr span err [].

(** ** The sends of the 5.x client, with their spans *)

Section sends.
Context {M : Type} `{RmqMessage M} (s : Settings) (tr : option tracer_t).

(** A list of receipts is indexed: an empty one panics. *)
Definition finish_sent (span : option Sp) (receipts : list string) : Go W unit :=
  match receipts with
  | [] => go_panic
  | r :: _ => v5_finishProducerSpan s tr span (Some r) None
  end.

(** [func (b *rocketmqBroker) doSend] *)
Definition doSend (send : C -> option M -> Go W (list string + error)) (ctx : C) (rMsg : option M) : Go W (option error) :=
  '(ctx, span, rMsg) ← v5_startProducerSpan s tr ctx rMsg false;
  r ← send ctx rMsg;
  match r with
  | inr e => v5_finishProducerSpan s tr span None (Some e) ;; mret (Some e)
  | inl receipts => finish_sent span receipts ;; mret None
  end.

(** [func (b *rocketmqBroker) doSendAsync]: the message is handed over with the callback. *)
Definition doSendAsync (send : C -> option M -> (list string + error -> Go W unit) -> Go W unit) (ctx : C) (rMsg : option M) : Go W (option error) :=
  '(ctx, span, rMsg) ← v5_startProducerSpan s tr ctx rMsg false;
  send ctx rMsg (fun r => match r with inr e => v5_finishProducerSpan s tr span None (Some e) | inl receipts => finish_sent span receipts end) ;;
  mret None.

(** [func (b *rocketmqBroker) doSendTransaction] *)
Definition doSendTransaction (begin_ : Go W unit) (send : C -> option M -> Go W (list string + error)) (commit : Go W (option error)) (ctx : C) (rMsg : option M) :
    Go W (option error) :=
  '(ctx, span, rMsg) ← v5_startProducerSpan s tr ctx rMsg true;
  begin_ ;;
  r ← send ctx rMsg;
  match r with
  | inr e => v5_finishProducerSpan s tr span None (Some e) ;; mret (Some e)
  | inl receipts =>
      err ← commit;
      match err with
      | Some e => v5_finishProducerSpan s tr span None (Some e) ;; mret (Some e)
      | None => finish_sent span receipts ;; mret None
      end
  end.
End sends.
End spans.

(** * Properties *)

(** ** Propagation *)

(** A carrier on the messages [ok]: what is set is what is read, and nothing else
    changes. *)
Class CarrierLaws (M : Type) `{CR : Carrier M} (ok : M -> Prop) :=
  carrier_get_set k v m : ok m -> exists m', carrier_set k v m = Returned m' /\ ok m' /\
    forall k', carrier_get m' k' = if decide (k = k') then v else carrier_get m k'.

Lemma set_all_get {M} `{CarrierLaws M ok} pairs : forall m, ok m ->
  exists m', set_all pairs m = Returned m' /\ ok m' /\
    (forall k, k ∉ pairs.*1 -> carrier_get m' k = carrier_get m k) /\
    (forall k v, (k, v) ∈ pairs -> (forall v', (k, v') ∈ pairs -> v' = v) -> carrier_get m' k = v).
Proof.
  induction pairs as [|[k v] pairs IH]; intros m Hok.
  - exists m. repeat split; [done..|]. intros k v Hin. by apply elem_of_nil in Hin.
  - destruct (carrier_get_set k v m Hok) as (m1&E&Hok1&Hget). destruct (IH m1 Hok1) as (m2&E2&Hok2&Hother&Hin2).
    exists m2. simpl. rewrite E. repeat split; [done..| |].
    + intros k' Hk'. apply not_elem_of_cons in Hk' as [Hne Hni]. rewrite Hother by done. rewrite Hget. by rewrite decide_False by done.
    + intros k' v' Hin Huniq. destruct (decide (k' ∈ pairs.*1)) as [Hp|Hp].
      * apply list_elem_of_fmap in Hp as ([k1 v1]&->&Hp). simpl in *. assert (v1 = v') as -> by (apply Huniq; by right).
        apply Hin2; [done|]. intros v2 Hv2. apply Huniq. by right.
      * rewrite Hother by done. apply elem_of_cons in Hin as [[= -> ->]|Hin]; [by rewrite Hget, decide_True|].
        destruct Hp. apply list_elem_of_fmap. by exists (k', v').
Qed.

(** A propagator of trace contexts: the keys it injects are different, and a carrier
    that has them gives the span context back. *)
Record propagates {C SC} (span_context : C -> SC) (valid : C -> Prop) (p : Propagator C) : Prop := {
  inject_once ctx : NoDup (Inject p ctx).*1;
  extract_inject ctx ctx0 get keys : valid ctx -> (forall k v, (k, v) ∈ Inject p ctx -> get k = v) ->
    span_context (Extract p ctx0 get keys) = span_context ctx
}.

(** A second propagator that does not overwrite what the first one injects: one that
    injects the same, or under other keys, or nothing. *)
Definition agrees {C} (p g : Propagator C) (ctx : C) : Prop :=
  forall k v, (k, v) ∈ Inject g ctx -> k ∈ (Inject p ctx).*1 -> (k, v) ∈ Inject p ctx.

Section propagation.
Context {C SC Sp W P : Type} (span_context : C -> SC) (valid : C -> Prop).
Context {M M' : Type} `{CLP : CarrierLaws M ok} {CR' : Carrier M'}.

Lemma inject_both (p g : Propagator C) ctx m :
  propagates span_context valid p -> agrees p g ctx -> ok m ->
  exists m1 m2, set_all (Inject p ctx) m = Returned m1 /\ set_all (Inject g ctx) m1 = Returned m2 /\
    forall k v, (k, v) ∈ Inject p ctx -> carrier_get m2 k = v.
Proof.
  intros Hp Hg Hok. destruct (set_all_get (Inject p ctx) m Hok) as (m1&E1&Hok1&_&Hin1).
  destruct (set_all_get (Inject g ctx) m1 Hok1) as (m2&E2&_&Hother&Hin2). exists m1, m2. split; [done|]. split; [done|].
  assert (forall k v v', (k, v) ∈ Inject p ctx -> (k, v') ∈ Inject p ctx -> v' = v) as Hf.
  { intros k v v' H1 H2. apply (elem_of_list_to_map_1 (M := gmap string)) in H1, H2; [congruence|apply (inject_once _ _ _ Hp)..]. }
  intros k v Hkv. destruct (decide (k ∈ (Inject g ctx).*1)) as [Hk|Hk].
  - apply list_elem_of_fmap in Hk as ([k1 v1]&->&Hk). simpl in *.
    assert (forall v', (k1, v') ∈ Inject g ctx -> v' = v) as Hsame.
    { intros v' Hv'. apply (Hf k1); [done|]. apply Hg; [done|]. apply list_elem_of_fmap. by exists (k1, v). }
    assert (v1 = v) as -> by (by apply Hsame). by apply Hin2.
  - rewrite Hother by done. apply Hin1; [done|]. intros v'. by apply Hf.
Qed.

(** C22: The trace goes on across a broker.  A producer's span that starts leaves its span
    context in the message; whenever the message that arrives reads the same under the
    keys injected, the consumer's span is started in a context with that span context,
    whatever the processes' own propagators are, as long as the producer's does not
    overwrite what its tracer injects. *)
Theorem broker_trace (g g' : Propagator C) (tp tc : OtlpTracer (C := C) (Sp := Sp) (W := W)) ctx m attrs w ctx1 sp w1 ctx0 m2 attrs' w2 :
  kind (opt tp) = SpanKindProducer -> kind (opt tc) = SpanKindConsumer -> propagator (opt tc) = propagator (opt tp) ->
  propagates span_context valid (propagator (opt tp)) -> ok m ->
  Start (tracer tp) ctx (spanName (opt tp)) SpanKindProducer (attrs m) w = (Returned (ctx1, sp), w1) ->
  valid ctx1 -> agrees (propagator (opt tp)) g ctx1 ->
  exists m1, start_producer g (Some tp) ctx (Some m) attrs w = (Returned (ctx1, Some sp, Some m1), w1) /\
    ((forall k, k ∈ (Inject (propagator (opt tp)) ctx1).*1 -> carrier_get (M := M') m2 k = carrier_get m1 k) ->
     exists c, span_context c = span_context ctx1 /\
       start_consumer g' (Some tc) ctx0 m2 attrs' w2 =
         ('(c', sp') ← Start (tracer tc) c (spanName (opt tc)) SpanKindConsumer (attrs' m2); mret (c', Some sp', m2)) w2).
Proof.
  intros Hkp Hkc Hpr Hlaw Hok Hs Hv Ha. destruct (inject_both _ g ctx1 m Hlaw Ha Hok) as (m1&m3&E1&E2&Hget). exists m3. split.
  - unfold start_producer, Start_. rewrite Hkp. unfold mbind, Go_bind, lift. rewrite Hs, E1. cbn. by rewrite E2.
  - intros Ht. eexists (Extract (propagator (opt tp)) (Extract g' ctx0 (carrier_get m2) (carrier_keys m2)) (carrier_get m2) (carrier_keys m2)).
    split.
    + apply (extract_inject _ _ _ Hlaw); [done|]. intros k v Hkv. rewrite Ht; [by apply Hget|]. apply list_elem_of_fmap. by exists (k, v).
    + unfold start_consumer, Start_. rewrite Hkc, Hpr. unfold mbind, Go_bind, lift.
      by destruct (Start (tracer tc) _ _ _ _ w2) as [[[]|] ?].
Qed.
End propagation.

(** The drivers' carriers are lawful: Kafka's, NATS's and RabbitMQ's on all messages;
    the Alibaba Cloud one on requests with properties. *)
#[export] Instance kafka_laws : CarrierLaws KMessage (fun _ => True).
Proof. intros k v m _. eexists. split; [done|]. split; [done|]. intros k'. apply carrier_Get_Set. Qed.

#[export] Instance nats_laws : CarrierLaws natsMsg (fun _ => True).
Proof.
  intros k v m _. eexists. split; [done|]. split; [done|]. intros k'. cbn. case_decide; subst; [by rewrite lookup_insert_eq|by rewrite lookup_insert_ne].
Qed.

Lemma table_get_insert k v h k' : table_get (<[k := HString v]> h) k' = if decide (k = k') then v else table_get h k'.
Proof. unfold table_get. case_decide; subst; [by rewrite lookup_insert_eq|by rewrite lookup_insert_ne]. Qed.
#[export] Instance rabbit_producer_laws : CarrierLaws Publishing (fun _ => True).
Proof. intros k v m _. eexists. split; [done|]. split; [done|]. intros k'. apply table_get_insert. Qed.
#[export] Instance rabbit_consumer_laws : CarrierLaws Delivery (fun _ => True).
Proof. intros k v m _. eexists. split; [done|]. split; [done|]. intros k'. apply table_get_insert. Qed.

Lemma default_lookup_insert k v (h : gmap string string) k' : default "" (<[k := v]> h !! k') = if decide (k = k') then v else default "" (h !! k').
Proof. case_decide; subst; [by rewrite lookup_insert_eq|by rewrite lookup_insert_ne]. Qed.
#[export] Instance aliyun_producer_laws : CarrierLaws Aliyun.PublishMessageRequest (fun r => Aliyun.Properties r <> None).
Proof.
  intros k v m Hm. cbn. destruct (Aliyun.Properties m) as [ps|] eqn:E; [|done]. eexists. split; [done|]. split; [done|].
  intros k'. apply default_lookup_insert.
Qed.
#[export] Instance aliyun_consumer_laws : CarrierLaws Aliyun.Entry (fun _ => True).
Proof. intros k v m _. eexists. split; [done|]. split; [done|]. intros k'. apply default_lookup_insert. Qed.
#[export] Instance view_laws : CarrierLaws MessageView (fun v => view_Properties v <> None).
Proof.
  intros k v m Hm. cbn. destruct (view_Properties m) as [ps|] eqn:E; [|done]. eexists. split; [done|]. split; [done|].
  intros k'. apply default_lookup_insert.
Qed.

(** A request without properties (a message without headers, and no properties in the
    options) makes the Alibaba Cloud driver panic when it traces. *)
Lemma aliyun_traced_panics {C Sp W} `{SemConv} (g : Propagator C) s (t : OtlpTracer (C := C) (Sp := Sp) (W := W)) ctx topic data c w ctx1 sp w1 :
  kind (opt t) = SpanKindProducer ->
  Value c PropertiesKey = None ->
  let r := Aliyun.build data None c in
  Start (tracer t) ctx (spanName (opt t)) SpanKindProducer
    ([(MessagingSystemKey, AStr "rocketmq"); MessagingDestinationKindTopic] ++ client_attrs s ++ [(MessagingDestinationKey, AStr topic)] ++
     nonempty_attr MessagingRocketmqMessageTagKey (Aliyun.MessageTag r) ++ nonempty_attr MessagingRocketmqMessageKeysKey (Aliyun.MessageKey r)) w
    = (Returned (ctx1, sp), w1) ->
  Inject (propagator (opt t)) ctx1 <> [] ->
  aliyun_startProducerSpan g s (Some t) ctx topic (Some r) w = (Panicked, w1).
Proof.
  intros Hk Hc r Hs Hi. unfold aliyun_startProducerSpan, start_producer, Start_. rewrite Hk. unfold mbind, Go_bind, lift. rewrite Hs.
  destruct (Inject (propagator (opt t)) ctx1) as [|[k v] ps]; [done|]. cbn. unfold Aliyun.build in r. by rewrite Hc.
Qed.

(** ** Spans end once *)

Section recorded.
Context {C W : Type} `{SemConv} (error_text : error -> string) (mark : nat -> C -> C).
Abbreviation rec := (recorder (W := W) mark).

(** What the end of a span records. *)
Definition end_events (id : nat) (err : option error) (attrs : list attribute) : list span_event :=
  EAttributes id attrs :: option_list ((fun e => EError id (error_text e)) <$> err) ++ [EEnd id].

(** A span that has not ended is ended with its attributes and its error; ending it
    again, or ending no span, does nothing. *)
Lemma End_events o id err attrs w es :
  End error_text (mkOtlpTracer rec o) (Some id) err attrs (w, es) =
    (Returned tt, (w, if existsb (is_end id) es then es else es ++ end_events id err attrs)).
Proof.
  unfold End, mbind, Go_bind. cbn. destruct (existsb (is_end id) es); [done|]. unfold trace_event, go_modify, end_events. cbn.
  destruct err; cbn; by rewrite <- ?app_assoc.
Qed.

Lemma End_twice o id err attrs err' attrs' w es :
  let t := mkOtlpTracer rec o in
  (End error_text t (Some id) err attrs ;; End error_text t (Some id) err' attrs') (w, es) = End error_text t (Some id) err attrs (w, es).
Proof.
  cbv zeta. unfold mbind at 1, Go_bind at 1. rewrite !End_events. destruct (existsb (is_end id) es) eqn:E; [by rewrite E|].
  rewrite existsb_app. replace (existsb (is_end id) (end_events id err attrs)) with true; [by rewrite orb_true_r|].
  unfold end_events. destruct err; cbn; by rewrite Nat.eqb_refl.
Qed.

(** Events name spans that were started. *)
Definition event_id (e : span_event) : nat := match e with EStart i _ _ _ | EAttributes i _ | EError i _ | EEnd i => i end.
Definition started (es : list span_event) : Prop := Forall (fun e => (event_id e < length es)%nat) es.

Lemma started_fresh es tl : started es -> existsb (is_end (length es)) tl = false -> existsb (is_end (length es)) (es ++ tl) = false.
Proof.
  intros Hs Ht. rewrite existsb_app, Ht, orb_false_r. clear Ht. unfold started in Hs. revert Hs. generalize (length es) as n.
  intros n Hs. apply not_true_is_false. intros (e&Hin%list_elem_of_In&He)%existsb_exists. rewrite Forall_forall in Hs. specialize (Hs e Hin).
  destruct e; try done. cbn in *. apply Nat.eqb_eq in He. lia.
Qed.

Section sends.
Context {M : Type} `{RmqMessage M} (g : Propagator C) (s : Settings) (o : tracerOptions (C := C)).
Hypothesis Hkind : kind o = SpanKindProducer.
Abbreviation tr := (Some (mkOtlpTracer rec o)).

(** The message with what both propagators inject. *)
Definition injected (ctx : C) (m : M) : M := fold_left (fun m '(k, v) => AddProperty k v m) (Inject (propagator o) ctx ++ Inject g ctx) m.
Definition send_attrs (m : M) (transaction : bool) : list attribute :=
  rmq_attrs s ++ [(MessagingOperationKey, AStr RMQ_SEND_OPERATION); (MessagingDestinationKey, AStr (rmq_Topic m)); message_type m transaction] ++
  tag_attrs (rmq_GetTag m) (rmq_GetKeys m).

Lemma rmq_set_all pairs m : set_all (CR := rmq_producer_carrier) pairs m = Returned (fold_left (fun m '(k, v) => AddProperty k v m) pairs m).
Proof. revert m. induction pairs as [|[k v] l IH]; intros m; [done|]. apply IH. Qed.

Lemma v5_start_events ctx m b w es :
  v5_startProducerSpan g s tr ctx (Some m) b (w, es) =
    let id := length es in
    (Returned (mark id ctx, Some id, Some (injected (mark id ctx) m)), (w, es ++ [EStart id (spanName o) SpanKindProducer (send_attrs m b)])).
Proof.
  unfold v5_startProducerSpan, start_producer, Start_, mbind, Go_bind, lift. cbn. rewrite Hkind, rmq_set_all. cbn. rewrite rmq_set_all.
  unfold injected. by rewrite fold_left_app.
Qed.

(** The attributes and the error a send's span ends with. *)
Definition sent_attrs (id : string) : list attribute :=
  [(MessagingMessageIDKey, AStr id); (MessagingRocketmqNamespaceKey, AStr (namespace s)); (MessagingRocketmqClientGroupKey, AStr (groupName s))].
Definition sent_events (id : nat) (r : list string + error) : list span_event :=
  match r with
  | inr e => end_events id (Some e) (sent_attrs "")
  | inl (rc :: _) => end_events id None (sent_attrs rc)
  | inl [] => []
  end.
Definition sent_result (r : list string + error) : result (option error) :=
  match r with inr e => Returned (Some e) | inl (_ :: _) => Returned None | inl [] => Panicked end.

(** What [doSend] and [doSendTransaction] do once the library has answered. *)
Lemma finish_events (r : list string + error) id w es :
  existsb (is_end id) es = false ->
  (match r with
   | inr e => v5_finishProducerSpan error_text s tr (Some id) None (Some e) ;; mret (Some e)
   | inl receipts => finish_sent error_text s tr (Some id) receipts ;; mret None
   end) (w, es) = (sent_result r, (w, es ++ sent_events id r)).
Proof.
  intros E. destruct r as [[|rc l]|e]; unfold mbind, Go_bind, finish_sent, v5_finishProducerSpan, finish_span; [by cbn; rewrite app_nil_r| |];
    by rewrite End_events, E.
Qed.

(** The span of a message that is sent ends once, after the send, with the receipt's
    identifier or with the error that is returned; only a success without receipts
    panics and leaves it open. *)
Theorem v5_send_spans send ctx m w es :
  started es ->
  let id := length es in
  let '(r, w1) := send (mark id ctx) (Some (injected (mark id ctx) m)) w in
  doSend error_text g s tr (fun c m => go_fst (send c m)) ctx (Some m) (w, es) =
    match r with
    | Panicked => (Panicked, (w1, es ++ [EStart id (spanName o) SpanKindProducer (send_attrs m false)]))
    | Returned r => (sent_result r, (w1, es ++ EStart id (spanName o) SpanKindProducer (send_attrs m false) :: sent_events id r))
    end.
Proof.
  intros Hst id. unfold doSend. unfold mbind at 1, Go_bind at 1. rewrite v5_start_events. cbv zeta. fold id.
  unfold mbind at 1, Go_bind at 1, go_fst. destruct (send _ _ w) as [[r|] w1]; [|done].
  rewrite finish_events by (by apply started_fresh). by rewrite <- app_assoc.
Qed.

Theorem v5_transaction_spans begin_ send commit ctx m w es :
  started es ->
  let id := length es in
  let c := mark id ctx in
  let '(b, w0) := begin_ w in
  let '(r, w1) := send c (Some (injected c m)) w0 in
  let '(x, w2) := commit w1 in
  b = Returned tt ->
  let start := EStart id (spanName o) SpanKindProducer (send_attrs m true) in
  doSendTransaction error_text g s tr (go_fst begin_) (fun c m => go_fst (send c m)) (go_fst commit) ctx (Some m) (w, es) =
    match r, x with
    | Panicked, _ => (Panicked, (w1, es ++ [start]))
    | Returned (inr e), _ => (Returned (Some e), (w1, es ++ start :: sent_events id (inr e)))
    | Returned (inl _), Panicked => (Panicked, (w2, es ++ [start]))
    | Returned (inl _), Returned (Some e) => (Returned (Some e), (w2, es ++ start :: sent_events id (inr e)))
    | Returned (inl l), Returned None => (sent_result (inl l), (w2, es ++ start :: sent_events id (inl l)))
    end.
Proof.
  intros Hst id c. destruct (begin_ w) as [b w0] eqn:Eb. destruct (send c _ w0) as [r w1] eqn:Es. destruct (commit w1) as [x w2] eqn:Ex.
  intros -> start. unfold doSendTransaction. unfold mbind at 1, Go_bind at 1. rewrite v5_start_events. cbv zeta. fold id c start.
  unfold mbind at 1, Go_bind at 1, go_fst. rewrite Eb. unfold mbind at 1, Go_bind at 1, go_fst. rewrite Es.
  assert (existsb (is_end id) (es ++ [start]) = false) as Hf by (by apply started_fresh).
  destruct r as [[l|e]|]; [|pose proof (finish_events (inr e) id w1 (es ++ [start]) Hf) as Hfin; rewrite <- app_assoc in Hfin; exact Hfin|done].
  unfold mbind at 1, Go_bind at 1, go_fst. rewrite Ex. destruct x as [[e|]|]; [| |done].
  - pose proof (finish_events (inr e) id w2 (es ++ [start]) Hf) as Hfin. by rewrite <- app_assoc in Hfin.
  - pose proof (finish_events (inl l) id w2 (es ++ [start]) Hf) as Hfin. by rewrite <- app_assoc in Hfin.
Qed.
End sends.
End recorded.

(** * A propagator of one header *)
Module TraceSample.
(** Contexts are span numbers; the header is the number. *)
Definition traceparent : Propagator Z :=
  mkPropagator (fun c get _ => match Atoi (get "traceparent") with (n, None) => n | _ => c end) (fun c => [("traceparent", Itoa c)]).
Definition valid (c : Z) : Prop := in_int64 c.

Lemma traceparent_propagates : propagates id valid traceparent.
Proof.
  split; [intros ctx; apply NoDup_singleton|]. intros ctx ctx0 get keys Hv Hget. cbn. rewrite (Hget "traceparent" (Itoa ctx)) by (by left).
  by rewrite Atoi_Itoa.
Qed.

Definition spans : Tracer Z nat (traced unit) := recorder (fun id _ => 7 + Z.of_nat id).
Definition tracer_of (k : SpanKind) : OtlpTracer (C := Z) (Sp := nat) (W := traced unit) :=
  mkOtlpTracer spans (mkTracerOptions traceparent k "lulu" "span").
Definition message : KMessage := mkKMessage "orders" [] [] 3 0 [].

(** A Kafka message, sent in a process whose own propagator does nothing and received
    where it is the same one: the consumer's span starts in the producer's context. *)
Lemma broker_trace_witness :
  let none := mkPropagator (fun c _ _ => c) (fun _ => []) in
  exists m1, start_producer none (Some (tracer_of SpanKindProducer)) 0 (Some message) (fun _ => []) (tt, []) =
      (Returned (7, Some 0%nat, Some m1), (tt, [EStart 0 "span" SpanKindProducer []])) /\
    exists c, c = 7 /\
      start_consumer traceparent (Some (tracer_of SpanKindConsumer)) 0 m1 (fun _ => []) (tt, []) =
        ('(c', sp') ← Start spans c "span" SpanKindConsumer []; mret (c', Some sp', m1)) (tt, []).
Proof.
  cbv zeta. set (none := mkPropagator _ _).
  destruct (broker_trace id valid (M := KMessage) (M' := KMessage) none traceparent (tracer_of SpanKindProducer) (tracer_of SpanKindConsumer)
    0 message (fun _ => []) (tt, []) 7 0%nat (tt, [EStart 0 "span" SpanKindProducer []]) 0
    (mkKMessage "orders" [] [] 3 0 [mkKHeader "traceparent" (String.list_ascii_of_string "7")]) (fun _ => []) (tt, [])
    eq_refl eq_refl eq_refl traceparent_propagates I eq_refl ltac:(vm_compute; by split) ltac:(by intros k v Hin%elem_of_nil)) as (m1&E&Hc).
  exists m1. split; [exact E|]. assert (m1 = mkKMessage "orders" [] [] 3 0 [mkKHeader "traceparent" (String.list_ascii_of_string "7")]) as -> by (vm_compute in E; injection E as <-; vm_compute; reflexivity).
  apply Hc. reflexivity.
Defined.
End TraceSample.
