(* ===== verification/Workflow.v ===== *)
(** [workflow/goworkflows], [workflow/temporal] and [workflow/conductor]: clients and
    workers of the three engines, a module each.

    The engines' SDKs are outside: their calls are parameters, on a world where they
    matter to the order of things.  Functions, instances and backends are known by
    numbers; contexts that are only handed on, and logging, are left out. *)
From Stdlib Require Import ZArith Lia.
From S2P Require Import Prelude GoTime GoErrors GoStrings NetPacket HttpObserve BrokerTracing.
From stdpp Require Import base gmap strings list fin_maps.
Open Scope string_scope.
Open Scope list_scope.
Open Scope Z_scope.

(** An SDK call behind a nil check, its error wrapped. *)
Definition guarded {W A} (present : bool) (nil_error : string) (what : string) (call : Go W (A + error)) : Go W (A + error) :=
  if negb present then mret (inr (Errorf nil_error))
  else r ← call; mret (match r with inl a => inl a | inr e => inr (Wrapf what e) end).

(** * [goworkflows] *)
Module goworkflows.

(** [type CreateWorkflowOptions struct], [type WorkerOptions struct] *)
Record CreateWorkflowOptions := mkCreate { InstanceID : string; Queue : string }.
Record WorkerOptions := mkWorkerOptions {
  WorkflowPollers : Z; MaxParallelWorkflowTasks : Z; WorkflowHeartbeatInterval : Duration; WorkflowPollingInterval : Duration;
  WorkflowExecutorCacheSize : Z; WorkflowExecutorCacheTTL : Duration; WorkflowQueues : list string;
  ActivityPollers : Z; MaxParallelActivityTasks : Z; ActivityHeartbeatInterval : Duration; ActivityPollingInterval : Duration;
  ActivityQueues : list string; SingleWorkerMode : bool
}.

(** [worker.Options] of the engine has these fields too; [def] is its [DefaultOptions]. *)
Definition positive_or (x def : Z) : Z := if 0 <? x then x else def.
Definition nonempty_or (l def : list string) : list string := match l with [] => def | _ => l end.
Definition toWorkerOptions (def : WorkerOptions) (wo : option WorkerOptions) : WorkerOptions :=
  match wo with
  | None => def
  | Some o =>
      mkWorkerOptions (positive_or (WorkflowPollers o) (WorkflowPollers def))
        (positive_or (MaxParallelWorkflowTasks o) (MaxParallelWorkflowTasks def))
        (positive_or (WorkflowHeartbeatInterval o) (WorkflowHeartbeatInterval def))
        (positive_or (WorkflowPollingInterval o) (WorkflowPollingInterval def))
        (positive_or (WorkflowExecutorCacheSize o) (WorkflowExecutorCacheSize def))
        (positive_or (WorkflowExecutorCacheTTL o) (WorkflowExecutorCacheTTL def))
        (nonempty_or (WorkflowQueues o) (WorkflowQueues def))
        (positive_or (ActivityPollers o) (ActivityPollers def))
        (positive_or (MaxParallelActivityTasks o) (MaxParallelActivityTasks def))
        (positive_or (ActivityHeartbeatInterval o) (ActivityHeartbeatInterval def))
        (positive_or (ActivityPollingInterval o) (ActivityPollingInterval def))
        (nonempty_or (ActivityQueues o) (ActivityQueues def)) (SingleWorkerMode o)
  end.
Definition defaultWaitTimeout : Duration := 20 * Second.

(** ** The client *)

Section client.
Context {W Inst : Type}.

(** [type WorkflowClient struct] *)
Record WorkflowClient := mkClient { backend : option nat; client : option nat }.

(** [func NewClient(b backend.Backend) ( *WorkflowClient, error)]; [made] is the engine's client. *)
Definition NewClient (b : option nat) (made : nat) : WorkflowClient + error :=
  match b with
  | None => inr (Errorf "backend is nil")
  | Some _ => inl (mkClient b (Some made))
  end.
Definition Close (close_backend : nat -> Go W (option error)) (wc : WorkflowClient) : Go W (option error) :=
  match backend wc with
  | Some b => close_backend b
  | None => mret None
  end.
Abbreviation has_client wc := (bool_decide (client wc <> None)).

(** [CreateWorkflowInstance], [CancelWorkflowInstance], [SignalWorkflow],
    [GetWorkflowInstanceState], [WaitForWorkflowInstance], [RemoveWorkflowInstance] and
    [RemoveWorkflowInstances] *)
Definition CreateWorkflowInstance (create : string -> string -> Go W (Inst + error)) (wc : WorkflowClient) (opts : CreateWorkflowOptions) : Go W (Inst + error) :=
  if negb (has_client wc) then mret (inr (Errorf "client is nil"))
  else if String.eqb (InstanceID opts) "" then mret (inr (Errorf "InstanceID must be set in CreateWorkflowOptions"))
  else guarded true "client is nil" "create workflow instance error: " (create (InstanceID opts) (Queue opts)).
Definition CancelWorkflowInstance (cancel : Inst -> Go W (unit + error)) (wc : WorkflowClient) (i : Inst) : Go W (unit + error) :=
  guarded (has_client wc) "client is nil" "cancel workflow instance error: " (cancel i).
Definition SignalWorkflow {A} (signal : string -> string -> A -> Go W (unit + error)) (wc : WorkflowClient) (instanceID name : string) (arg : A) : Go W (unit + error) :=
  guarded (has_client wc) "client is nil" "signal workflow error: " (signal instanceID name arg).
(** An error comes with the state [Active]; the error is what callers look at. *)
Definition GetWorkflowInstanceState {St} (state : Inst -> Go W (St + error)) (wc : WorkflowClient) (i : Inst) : Go W (St + error) :=
  guarded (has_client wc) "client is nil" "get workflow state error: " (state i).
Definition WaitForWorkflowInstance (wait : Inst -> Duration -> Go W (unit + error)) (wc : WorkflowClient) (i : Inst) (timeout : Duration) : Go W (unit + error) :=
  guarded (has_client wc) "client is nil" "wait for workflow instance error: " (wait i (if timeout <=? 0 then defaultWaitTimeout else timeout)).
Definition RemoveWorkflowInstance (remove : Inst -> Go W (unit + error)) (wc : WorkflowClient) (i : Inst) : Go W (unit + error) :=
  guarded (has_client wc) "client is nil" "remove workflow instance error: " (remove i).
Definition RemoveWorkflowInstances {O} (remove : list O -> Go W (unit + error)) (wc : WorkflowClient) (opts : list O) : Go W (unit + error) :=
  guarded (has_client wc) "client is nil" "remove workflow instances error: " (remove opts).
End client.

(** ** The worker *)

(** [type WorkflowWorker struct] and its calls of [Start], by numbers: waiting in the
    engine's [Start] with a context, or returned.  Contexts are numbered as they are
    made; [cancelled] are those whose [cancel] was called. *)
Inductive start_call := Starting (ctx : nat) | Returned_ (err : option error).
Record WorkflowWorker := mkWorker {
  running : bool;
  cancel : option nat;
  contexts : nat;
  cancelled : gset nat;
  calls : gmap nat start_call
}.

(** [NewWorker], [NewWorkflowOnlyWorker] and [NewActivityOnlyWorker]; [K] is the engine's
    worker, made by its constructor. *)
Definition new_worker : WorkflowWorker := mkWorker false None 0 ∅ ∅.
Definition NewWorker {K} (engine : nat -> WorkerOptions -> K) (def : WorkerOptions) (b : option nat) (opts : option WorkerOptions) : (K * WorkflowWorker) + error :=
  match b with
  | None => inr (Errorf "backend is nil")
  | Some b => inl (engine b (toWorkerOptions def opts), new_worker)
  end.
Definition NewWorkflowOnlyWorker {K} (engine : nat -> option WorkerOptions -> K) (def : WorkerOptions) (b : option nat) (opts : option WorkerOptions) : (K * WorkflowWorker) + error :=
  match b with
  | None => inr (Errorf "backend is nil")
  | Some b => inl (engine b ((fun o => toWorkerOptions def (Some o)) <$> opts), new_worker)
  end.
Definition NewActivityOnlyWorker {K} (engine : nat -> option WorkerOptions -> K) (def : WorkerOptions) (b : option nat) (opts : option WorkerOptions) : (K * WorkflowWorker) + error :=
  NewWorkflowOnlyWorker engine def b opts.

(** [RegisterWorkflow], [RegisterActivity] *)
Definition RegisterWorkflow {W F} (register : F -> Go W (unit + error)) (wf : F) : Go W (unit + error) := guarded true "" "register workflow error: " (register wf).
Definition RegisterActivity {W F} (register : F -> Go W (unit + error)) (a : F) : Go W (unit + error) := guarded true "" "register activity error: " (register a).

(** [func (ww *WorkflowWorker) Start(ctx context.Context) error], up to the engine's
    [Start], and what follows when that returns. *)
Definition Start_begin (id : nat) (w : WorkflowWorker) : WorkflowWorker :=
  if running w then mkWorker true (cancel w) (contexts w) (cancelled w) (<[id := Returned_ (Some (Errorf "worker is already running"))]> (calls w))
  else mkWorker true (Some (contexts w)) (S (contexts w)) (cancelled w) (<[id := Starting (contexts w)]> (calls w)).
Definition Start_end (id : nat) (err : option error) (w : WorkflowWorker) : option WorkflowWorker :=
  match calls w !! id with
  | Some (Starting _) =>
      match err with
      | None => Some (mkWorker (running w) (cancel w) (contexts w) (cancelled w) (<[id := Returned_ None]> (calls w)))
      | Some e =>
          match cancel w with
          | None => None
          | Some c => Some (mkWorker false (cancel w) (contexts w) ({[c]} ∪ cancelled w) (<[id := Returned_ (Some (Wrapf "start worker error: " e))]> (calls w)))
          end
      end
  | _ => None
  end.

(** [func (ww *WorkflowWorker) Stop()], [IsRunning] *)
Definition Stop (w : WorkflowWorker) : WorkflowWorker :=
  mkWorker false (cancel w) (contexts w) (match cancel w with Some c => {[c]} ∪ cancelled w | None => cancelled w end) (calls w).
Definition IsRunning (w : WorkflowWorker) : bool := running w.

Inductive event := EStart (id : nat) | EStarted (id : nat) (err : option error) | EStop.
Definition step (e : event) (w : WorkflowWorker) : option WorkflowWorker :=
  match e with
  | EStart id => match calls w !! id with None => Some (Start_begin id w) | Some _ => None end
  | EStarted id err => Start_end id err w
  | EStop => Some (Stop w)
  end.
Fixpoint run (es : list event) (w : WorkflowWorker) : option WorkflowWorker :=
  match es with
  | [] => Some w
  | e :: es' => w' ← step e w; run es' w'
  end.

(** In every reachable state the worker says it is running exactly when the context of
    the last [Start] has not been cancelled, and every earlier one has been: at most one
    run of the engine is not told to stop. *)
Definition one_run (w : WorkflowWorker) : Prop :=
  (running w = true <-> exists c, cancel w = Some c /\ c ∉ cancelled w) /\
  (forall c, (c < contexts w)%nat -> c ∉ cancelled w -> cancel w = Some c) /\
  (forall c, c ∈ cancelled w -> (c < contexts w)%nat) /\
  (forall c, cancel w = Some c -> (c < contexts w)%nat).

Lemma one_run_stop calls' w : one_run w -> one_run (mkWorker false (cancel w) (contexts w) (match cancel w with Some c => {[c]} ∪ cancelled w | None => cancelled w end) calls').
Proof.
  intros (H1&H2&H3&H4). split; [|split; [|split]]; cbn.
  - split; [done|]. intros (c&Hc&Hn). rewrite Hc in Hn. set_solver.
  - intros c Hc Hn. apply H2; [done|]. destruct (cancel w); set_solver.
  - intros c. destruct (cancel w) as [d|] eqn:E; [|by apply H3]. intros [->%elem_of_singleton|Hc]%elem_of_union; [by apply H4|by apply H3].
  - done.
Qed.

Lemma one_run_step e w w' : one_run w -> step e w = Some w' -> one_run w'.
Proof.
  intros Hw. destruct e as [id|id err|]; cbn.
  - destruct (calls w !! id); [done|]. intros [= <-]. unfold Start_begin. destruct Hw as (H1&H2&H3&H4). destruct (running w) eqn:Er.
    + split; [exact H1|done].
    + split; [|split; [|split]]; cbn.
      * split; [|done]. intros _. exists (contexts w). split; [done|]. intros Hc. apply H3 in Hc. lia.
      * intros c Hc Hn. destruct (decide (c = contexts w)) as [->|]; [done|]. exfalso.
        assert (cancel w = Some c) as E by (apply H2; [lia|done]). destruct H1 as [_ H1]. discriminate H1. by exists c.
      * intros c Hc. apply H3 in Hc. lia.
      * intros c [= <-]. lia.
  - unfold Start_end. destruct (calls w !! id) as [[c|]|]; try done. destruct err as [e|]; [|intros [= <-]; exact Hw].
    destruct (cancel w) as [d|] eqn:E; [|done]. intros [= <-].
    pose proof (one_run_stop (<[id:=Returned_ (Some (Wrapf "start worker error: " e))]> (calls w)) w Hw) as H. by rewrite E in H.
  - intros [= <-]. unfold Stop. by apply one_run_stop.
Qed.

Theorem goworkflows_one_run es w : run es new_worker = Some w -> one_run w.
Proof.
  assert (one_run new_worker) as H0 by (split; [split; [done|by intros (c&?&_)]|split; [cbn; lia|split; [cbn; set_solver|done]]]).
  revert H0. generalize new_worker. induction es as [|e es IH]; intros w0 H0 Hr; cbn in Hr; [by injection Hr as <-|].
  destruct (step e w0) as [w1|] eqn:E; [|done]. apply (IH w1); [by eapply one_run_step|done].
Qed.

(** A [Start] that fails late, after a [Stop] and a new [Start] that succeeded, cancels
    the new run. *)
Lemma late_failure_cancels_next e :
  exists w, run [EStart 0; EStop; EStart 1; EStarted 1 None; EStarted 0 (Some e)] new_worker = Some w /\
    calls w !! 1%nat = Some (Returned_ None) /\ running w = false /\ 1%nat ∈ cancelled w.
Proof. eexists. split; [reflexivity|]. split; [by vm_compute|]. split; [done|]. cbn. set_solver. Qed.

End goworkflows.

(** * [temporal] *)
Module temporal.

(** [options.go]; of [client.StartWorkflowOptions] the fields that are set. *)
Record ClientOptions := mkClientOptions { HostPort : string; Namespace : string }.
Definition WithClientHostPort (hostPort : string) : ClientOptions -> ClientOptions := fun o => mkClientOptions hostPort (Namespace o).
Definition WithClientNamespace (namespace : string) : ClientOptions -> ClientOptions := fun o => mkClientOptions (HostPort o) namespace.

Record ExecuteOptions := mkExecuteOptions {
  TaskQueue : string; WorkflowID : string; WorkflowFn : option nat; RunTimeout : Duration; ExecutionTimeout : Duration; TaskTimeout : Duration;
  RetryPolicy : option nat; CronSchedule : string; IDReusePolicy : Z
}.
Record StartWorkflowOptions := mkStartOptions {
  swo_TaskQueue : string; swo_ID : string; WorkflowRunTimeout : Duration; WorkflowExecutionTimeout : Duration; WorkflowTaskTimeout : Duration;
  swo_RetryPolicy : option nat; swo_CronSchedule : string; WorkflowIDReusePolicy : Z
}.
(** [func toStartWorkflowOptions(opts ExecuteOptions) client.StartWorkflowOptions] *)
Definition toStartWorkflowOptions (o : ExecuteOptions) : StartWorkflowOptions :=
  let positive d := if 0 <? d then d else 0 in
  mkStartOptions (TaskQueue o) (WorkflowID o) (positive (RunTimeout o)) (positive (ExecutionTimeout o)) (positive (TaskTimeout o))
    (RetryPolicy o) (CronSchedule o) (IDReusePolicy o).

(** ** The client *)

Section client.
Context {C Sp W : Type} `{SemConv} (error_text : error -> string) (RecordError : Sp -> error -> Go W unit).

(** [type WorkflowClient struct]; a nil client and a nil tracer are [None]. *)
Record WorkflowClient := mkClient { client : option nat; options : ClientOptions; tracer : option (Tracer C Sp W) }.

(** [func NewClient(opts ...func( *ClientOptions)) ( *WorkflowClient, error)] *)
Definition NewClient (dial : string -> string -> nat + error) (opts : list (ClientOptions -> ClientOptions)) : WorkflowClient + error :=
  let o := apply_opts opts (mkClientOptions "localhost:7233" "default") in
  match dial (HostPort o) (Namespace o) with
  | inr e => inr (Wrapf ("failed to connect to temporal server at " ++ HostPort o ++ ": ") e)
  | inl c => inl (mkClient (Some c) o None)
  end.
Definition WithTracing (otel_Tracer : string -> Tracer C Sp W) (wc : WorkflowClient) : WorkflowClient :=
  mkClient (client wc) (options wc) (Some (otel_Tracer "lulu-ext/workflow/temporal")).
Definition Close (close_client : nat -> Go W unit) (wc : WorkflowClient) : Go W (option error) :=
  match client wc with
  | Some c => close_client c ;; mret None
  | None => mret None
  end.

(** [startProducerSpan], [finishProducerSpan], [startConsumerSpan], [finishConsumerSpan] *)
Definition topic_attrs (topic : string) : list attribute :=
  [(MessagingSystemKey, AStr "temporal"); MessagingDestinationKindTopic; (MessagingDestinationKey, AStr topic)].
Definition start_span (wc : WorkflowClient) (ctx : C) (name : string) (k : SpanKind) (attrs : list attribute) : Go W (C * option Sp) :=
  match tracer wc with
  | None => mret (ctx, None)
  | Some t => '(ctx, sp) ← Start t ctx name k attrs; mret (ctx, Some sp)
  end.
Definition startProducerSpan (wc : WorkflowClient) (ctx : C) (topic : string) : Go W (C * option Sp) :=
  start_span wc ctx "temporal-producer" SpanKindProducer (topic_attrs topic).
Definition startConsumerSpan (wc : WorkflowClient) (ctx : C) (topic : string) : Go W (C * option Sp) :=
  start_span wc ctx "temporal-consumer" SpanKindConsumer (topic_attrs topic ++ [MessagingOperationReceive]).
Definition finishProducerSpan (wc : WorkflowClient) (span : option Sp) (err : option error) : Go W unit :=
  match span, tracer wc with
  | Some sp, Some t =>
      (match err with Some e => RecordError sp e ;; SetError t sp (error_text e) | None => mret tt end) ;;
      End_ t sp
  | _, _ => mret tt
  end.
Definition finishConsumerSpan (wc : WorkflowClient) (span : option Sp) (err : option error) : Go W unit := finishProducerSpan wc span err.

(** The workflow that is run when the options name none. *)
Context (BrokerMessageWorkflow : nat).

Section execute.
Context {Args Run : Type} (ExecuteWorkflow : C -> StartWorkflowOptions -> nat -> Args -> Go W (Run + error)) (GetRunID : Run -> string)
  (Get : Run -> C -> Go W (bytes + error)).

(** [func (wc *WorkflowClient) Execute], [ExecuteSync] *)
Definition not_connected : error := Errorf "temporal client is not connected".
Definition Execute (wc : WorkflowClient) (ctx : C) (args : Args) (opts : ExecuteOptions) : Go W (string + error) :=
  match client wc with
  | None => mret (inr not_connected)
  | Some _ =>
      '(ctx, span) ← startProducerSpan wc ctx (TaskQueue opts);
      we ← ExecuteWorkflow ctx (toStartWorkflowOptions opts) (default BrokerMessageWorkflow (WorkflowFn opts)) args;
      finishProducerSpan wc span (match we with inr e => Some e | inl _ => None end) ;;
      mret (match we with inr e => inr (Wrapf "execute workflow error: " e) | inl r => inl (GetRunID r) end)
  end.
Definition ExecuteSync (wc : WorkflowClient) (ctx : C) (args : Args) (opts : ExecuteOptions) : Go W (bytes + error) :=
  match client wc with
  | None => mret (inr not_connected)
  | Some _ =>
      '(ctx, span) ← startProducerSpan wc ctx (TaskQueue opts);
      we ← ExecuteWorkflow ctx (toStartWorkflowOptions opts) (default BrokerMessageWorkflow (WorkflowFn opts)) args;
      match we with
      | inr e => finishProducerSpan wc span (Some e) ;; mret (inr (Wrapf "execute workflow error: " e))
      | inl r =>
          res ← Get r ctx;
          match res with
          | inr e => finishProducerSpan wc span (Some e) ;; mret (inr (Wrapf "get workflow result error: " e))
          | inl b => finishProducerSpan wc span None ;; mret (inl b)
          end
      end
  end.
End execute.

(** [Signal], [Query], [Cancel], [Describe]: the engine's own error. *)
Definition delegated {A} (wc : WorkflowClient) (call : Go W (A + error)) : Go W (A + error) :=
  match client wc with
  | None => mret (inr not_connected)
  | Some _ => call
  end.
Definition Signal {A} (signal : string -> string -> string -> A -> Go W (unit + error)) (wc : WorkflowClient) (workflowID runID signalName : string) (arg : A) :=
  delegated wc (signal workflowID runID signalName arg).
Definition Query {A R} (query : string -> string -> string -> A -> Go W (R + error)) (wc : WorkflowClient) (workflowID runID queryType : string) (arg : A) :=
  delegated wc (query workflowID runID queryType arg).
Definition Cancel (cancel : string -> string -> Go W (unit + error)) (wc : WorkflowClient) (workflowID runID : string) :=
  delegated wc (cancel workflowID runID).
Definition Describe {R} (describe : string -> string -> Go W (R + error)) (wc : WorkflowClient) (workflowID runID : string) : Go W (option error) :=
  r ← delegated wc (describe workflowID runID);
  mret (match r with inr e => Some e | inl _ => None end).

(** [func (a *processMessageActivity) ProcessMessage]: the span is finished without an
    error, whatever the handler returns. *)
Definition ProcessMessage (handler : C -> bytes -> Go W (option error)) (wc : WorkflowClient) (topic : string) (ctx : C) (body : bytes) : Go W (option error) :=
  '(ctx, span) ← startConsumerSpan wc ctx topic;
  go_deferred (handler ctx body) (finishConsumerSpan wc span None).
End client.

(** ** The worker *)

(** [type WorkerOptions struct]; functions are known by numbers. *)
Record WorkerOptions := mkWorkerOptions { wo_TaskQueue : string; Workflows : list nat; Activities : list nat }.

(** The calls on the engine's worker, in order; [type WorkflowWorker struct]. *)
Inductive sdk_call := KRegisterWorkflow (f : nat) | KRegisterActivity (f : nat) | KStart | KStop.
Record WorkflowWorker := mkWorker { w_queue : string; closed : bool; sdk : list sdk_call }.

(** [func (wc *WorkflowClient) NewWorker] *)
Definition NewWorker (BrokerMessageWorkflow : nat) (connected : bool) (opts : WorkerOptions) : WorkflowWorker + error :=
  if negb connected then inr not_connected
  else inl (mkWorker (wo_TaskQueue opts) false
    (KRegisterWorkflow BrokerMessageWorkflow :: map KRegisterWorkflow (Workflows opts) ++ map KRegisterActivity (Activities opts))).

Definition called (c : sdk_call) (w : WorkflowWorker) : WorkflowWorker := mkWorker (w_queue w) (closed w) (sdk w ++ [c]).
Definition RegisterWorkflow (f : nat) : WorkflowWorker -> WorkflowWorker := called (KRegisterWorkflow f).
Definition RegisterActivity (f : nat) : WorkflowWorker -> WorkflowWorker := called (KRegisterActivity f).

(** [Start], whose engine call returns [err], [Stop], [IsRunning] *)
Definition Start_ (err : option error) (w : WorkflowWorker) : option error * WorkflowWorker :=
  if closed w then (Some (Errorf "worker is already stopped"), w)
  else (match err with
        | Some e => Some (Wrapf ("failed to start temporal worker for task queue " ++ w_queue w ++ ": ") e)
        | None => None end, called KStart w).
Definition Stop (w : WorkflowWorker) : WorkflowWorker :=
  if closed w then w else mkWorker (w_queue w) true (sdk w ++ [KStop]).
Definition IsRunning (w : WorkflowWorker) : bool := negb (closed w).

(** [func (wc *WorkflowClient) StartSimpleWorker] *)
Definition StartSimpleWorker (BrokerMessageWorkflow activity : nat) (connected : bool) (taskQueue : string) (opts : list (WorkerOptions -> WorkerOptions)) (err : option error) :
    (WorkflowWorker + error) :=
  match NewWorker BrokerMessageWorkflow connected (apply_opts opts (mkWorkerOptions taskQueue [] [])) with
  | inr e => inr e
  | inl w =>
      match Start_ err (RegisterActivity activity w) with
      | (Some e, _) => inr e
      | (None, w) => inl w
      end
  end.

(** A sequence of calls on a worker. *)
Inductive worker_call := WStart (err : option error) | WStop | WRegisterWorkflow (f : nat) | WRegisterActivity (f : nat).
Definition apply_call (w : WorkflowWorker) (c : worker_call) : WorkflowWorker :=
  match c with
  | WStart err => snd (Start_ err w)
  | WStop => Stop w
  | WRegisterWorkflow f => RegisterWorkflow f w
  | WRegisterActivity f => RegisterActivity f w
  end.
Definition is_stop (c : sdk_call) : bool := match c with KStop => true | _ => false end.
Definition is_start (c : sdk_call) : bool := match c with KStart => true | _ => false end.

(** The engine's worker is stopped at most once and never started afterwards; the worker
    says it is running until then, started or not. *)
Theorem temporal_worker cs w0 :
  closed w0 = false -> Forall (fun c => is_stop c = false) (sdk w0) ->
  let w := fold_left apply_call cs w0 in
  if IsRunning w then Forall (fun c => is_stop c = false) (sdk w)
  else exists before after, sdk w = before ++ KStop :: after /\ Forall (fun c => is_stop c = false) before /\
    Forall (fun c => is_stop c = false /\ is_start c = false) after.
Proof.
  intros H1 H2. cbv zeta. induction cs as [|c cs IH] using rev_ind; [cbn; unfold IsRunning; by rewrite H1|]. rewrite fold_left_app. cbn [fold_left].
  set (w := fold_left apply_call cs w0) in *. unfold IsRunning in *. destruct (closed w) eqn:Ec; cbn in IH.
  - destruct IH as (b&a&Es&Hb&Ha).
    assert (closed (apply_call w c) = true /\ exists a', sdk (apply_call w c) = b ++ KStop :: a' /\ Forall (fun c => is_stop c = false /\ is_start c = false) a') as (Hc&a'&Es'&Ha').
    { destruct c; cbn; unfold Start_, Stop; rewrite ?Ec; cbn.
      - by eauto.
      - by eauto.
      - rewrite Es. split; [done|]. exists (a ++ [KRegisterWorkflow f]). split; [by rewrite <- app_assoc|]. apply Forall_app. split; [done|]. by repeat constructor.
      - rewrite Es. split; [done|]. exists (a ++ [KRegisterActivity f]). split; [by rewrite <- app_assoc|]. apply Forall_app. split; [done|]. by repeat constructor. }
    rewrite Hc. cbn. by eauto.
  - destruct c; cbn; unfold Start_, Stop; rewrite ?Ec; cbn; rewrite ?Ec; cbn; [|by exists (sdk w), []| |];
      apply Forall_app; (split; [done|]); by repeat constructor.
Qed.
(** ** Spans *)

Section recorded.
Context {C W : Type} `{SemConv} (error_text : error -> string) (mark : nat -> C -> C) (c : nat) (o : ClientOptions) (fn : nat).
Abbreviation traced_client := (mkClient (Some c) o (Some (recorder (W := W) mark))).
Definition record_error (id : nat) (e : error) : Go (traced W) unit := trace_event (EAttributes id [("exception", AStr (error_text e))]).

Definition finish_events (id : nat) (err : option error) : list span_event :=
  match err with Some e => [EAttributes id [("exception", AStr (error_text e))]; EError id (error_text e)] | None => [] end ++ [EEnd id].

Lemma finish_recorded id err w es :
  finishProducerSpan error_text record_error traced_client (Some id) err (w, es) = (Returned tt, (w, es ++ finish_events id err)).
Proof.
  unfold finishProducerSpan, finish_events, record_error, trace_event, go_modify, mbind, Go_bind. destruct err; cbn; unfold trace_event, go_modify; [by rewrite <- !app_assoc|done].
Qed.

(** A synchronous execution: its span covers the start of the workflow and the wait for
    its result, and ends once, with the error that is returned if there is one; only a
    panic of the engine leaves it open. *)
Theorem temporal_execute_sync {Args Run} (exec : C -> StartWorkflowOptions -> nat -> Args -> Go W (Run + error)) get ctx args opts w es :
  let id := length es in
  let started := EStart id "temporal-producer" SpanKindProducer (topic_attrs (TaskQueue opts)) in
  let '(we, w1) := exec (mark id ctx) (toStartWorkflowOptions opts) (default fn (WorkflowFn opts)) args w in
  ExecuteSync error_text record_error fn (fun c o f a => go_fst (exec c o f a)) (fun r c => go_fst (get r c)) traced_client ctx args opts (w, es) =
    match we with
    | Panicked => (Panicked, (w1, es ++ [started]))
    | Returned (inr e) => (Returned (inr (Wrapf "execute workflow error: " e)), (w1, es ++ started :: finish_events id (Some e)))
    | Returned (inl r) =>
        let '(res, w2) := get r (mark id ctx) w1 in
        match res with
        | Panicked => (Panicked, (w2, es ++ [started]))
        | Returned (inr e) => (Returned (inr (Wrapf "get workflow result error: " e)), (w2, es ++ started :: finish_events id (Some e)))
        | Returned (inl b) => (Returned (inl b), (w2, es ++ started :: finish_events id None))
        end
    end.
Proof.
  cbv zeta. unfold ExecuteSync. cbn [client]. unfold startProducerSpan, start_span. cbn [tracer]. unfold mbind, Go_bind, go_fst, mret, Go_ret. cbn -[finishProducerSpan].
  destruct (exec _ _ _ args w) as [[[r|e]|] w1]; [|rewrite finish_recorded; by rewrite <- app_assoc|done].
  destruct (get r _ w1) as [[[b|e]|] w2]; [| |done]; rewrite finish_recorded; by rewrite <- app_assoc.
Qed.

(** A message's span is ended without an error also when its handler fails. *)
Lemma process_message_silent handler topic ctx body w es :
  let id := length es in
  let '(r, w1) := handler (mark id ctx) body w in
  ProcessMessage error_text record_error (fun c b => go_fst (handler c b)) traced_client topic ctx body (w, es) =
    (r, (w1, es ++ [EStart id "temporal-consumer" SpanKindConsumer (topic_attrs topic ++ [MessagingOperationReceive]); EEnd id])).
Proof.
  cbv zeta. unfold ProcessMessage, startConsumerSpan, start_span. cbn [tracer]. unfold mbind, Go_bind, go_fst, go_deferred, mret, Go_ret. cbn -[finishProducerSpan].
  destruct (handler _ body w) as [r w1]. unfold finishConsumerSpan. rewrite finish_recorded. by rewrite <- app_assoc.
Qed.
End recorded.
End temporal.

(** * [conductor] *)
Module conductor.

(** [options.go] *)
Record ClientOptions := mkClientOptions { ServerURL : string; AuthKey : string; AuthSecret : string }.
Record StartWorkflowOptions := mkStartOptions {
  Name : string; Version : option Z; Input : option nat; CorrelationID : string; Priority : option Z
}.
Record WorkerConfig := mkWorkerConfig { TaskType : string; Concurrency : Z; PollInterval : Duration; Domain : string }.
Definition defaultServerURL : string := "http://localhost:8080/api".
Definition defaultConcurrency : Z := 1.
Definition defaultPollInterval : Duration := 100 * Millisecond.

(** [model.StartWorkflowRequest], as [toStartWorkflowRequest] fills it *)
Record StartWorkflowRequest := mkStartRequest { req_Name : string; req_Version : Z; req_Input : option nat; req_CorrelationId : string; req_Priority : Z }.
Definition toStartWorkflowRequest (o : StartWorkflowOptions) : StartWorkflowRequest :=
  mkStartRequest (Name o) (default 0 (Version o)) (Input o) (CorrelationID o) (default 0 (Priority o)).

(** [type WorkflowClient struct]; the API client is known by its server and its keys. *)
Record WorkflowClient := mkClient {
  apiClient : option (string * option (string * string));
  workflowExecutor : bool;
  workflowClient : bool;
  options : ClientOptions;
  running : bool
}.

(** [func NewClient(opts ClientOptions) ( *WorkflowClient, error)], [Close] *)
Definition NewClient (opts : ClientOptions) : WorkflowClient :=
  let opts := mkClientOptions (if String.eqb (ServerURL opts) "" then defaultServerURL else ServerURL opts) (AuthKey opts) (AuthSecret opts) in
  let auth := if negb (String.eqb (AuthKey opts) "") && negb (String.eqb (AuthSecret opts) "") then Some (AuthKey opts, AuthSecret opts) else None in
  mkClient (Some (ServerURL opts, auth)) true true opts true.
Definition Close (wc : WorkflowClient) : WorkflowClient := mkClient (apiClient wc) (workflowExecutor wc) (workflowClient wc) (options wc) false.

Section operations.
Context {W : Type}.

(** [StartWorkflow], [StartWorkflowSync], [GetWorkflow], [Terminate], [Pause], [Resume],
    [Restart], [Retry]; [MonitorExecution] returns the engine's own error. *)
Definition StartWorkflow (start : StartWorkflowRequest -> Go W (string + error)) (wc : WorkflowClient) (opts : StartWorkflowOptions) :=
  guarded (workflowExecutor wc) "workflow executor is nil" "start workflow error: " (start (toStartWorkflowRequest opts)).
Definition StartWorkflowSync {R} (execute : StartWorkflowRequest -> string -> Go W (R + error)) (wc : WorkflowClient) (opts : StartWorkflowOptions) (waitUntilTask : string) :=
  guarded (workflowExecutor wc) "workflow executor is nil" "execute workflow error: " (execute (toStartWorkflowRequest opts) waitUntilTask).
Definition MonitorExecution {R} (monitor : string -> Go W (R + error)) (wc : WorkflowClient) (workflowID : string) : Go W (R + error) :=
  if negb (workflowExecutor wc) then mret (inr (Errorf "workflow executor is nil")) else monitor workflowID.
Definition GetWorkflow {R} (status : string -> bool -> Go W (R + error)) (wc : WorkflowClient) (workflowID : string) (includeTasks : bool) :=
  guarded (workflowClient wc) "workflow client is nil" "get workflow error: " (status workflowID includeTasks).
Definition Terminate (terminate : string -> string -> bool -> Go W (unit + error)) (wc : WorkflowClient) (workflowID reason : string) :=
  guarded (workflowClient wc) "workflow client is nil" "terminate workflow error: " (terminate workflowID reason false).
Definition Pause (pause : string -> Go W (unit + error)) (wc : WorkflowClient) (workflowID : string) :=
  guarded (workflowClient wc) "workflow client is nil" "pause workflow error: " (pause workflowID).
Definition Resume (resume : string -> Go W (unit + error)) (wc : WorkflowClient) (workflowID : string) :=
  guarded (workflowClient wc) "workflow client is nil" "resume workflow error: " (resume workflowID).
Definition Restart (restart : string -> bool -> Go W (unit + error)) (wc : WorkflowClient) (workflowID : string) (useLatestDef : bool) :=
  guarded (workflowClient wc) "workflow client is nil" "restart workflow error: " (restart workflowID useLatestDef).
Definition Retry (retry : string -> bool -> Go W (unit + error)) (wc : WorkflowClient) (workflowID : string) (resumeSubworkflowTasks : bool) :=
  guarded (workflowClient wc) "workflow client is nil" "retry workflow error: " (retry workflowID resumeSubworkflowTasks).

(** [type TaskWorker struct] *)
Record TaskWorker := mkTaskWorker { config : WorkerConfig; stopped : bool }.

(** [func (wc *WorkflowClient) StartWorker], [StartWorkerWithConfig]: the engine's runner
    is told the type, the number of threads and the interval. *)
Definition StartWorkerWithConfig (runner : string -> Z -> Duration -> Go W unit) (wc : WorkflowClient) (cfg : WorkerConfig) : Go W (TaskWorker + error) :=
  match apiClient wc with
  | None => mret (inr (Errorf "api client is nil"))
  | Some _ =>
      let cfg := mkWorkerConfig (TaskType cfg) (if Concurrency cfg <=? 0 then defaultConcurrency else Concurrency cfg)
        (if PollInterval cfg <=? 0 then defaultPollInterval else PollInterval cfg) (Domain cfg) in
      runner (TaskType cfg) (Concurrency cfg) (PollInterval cfg) ;;
      mret (inl (mkTaskWorker cfg false))
  end.
Definition StartWorker (runner : string -> Z -> Duration -> Go W unit) (wc : WorkflowClient) (taskType : string) (concurrency : Z) (pollInterval : Duration) : Go W (TaskWorker + error) :=
  match apiClient wc with
  | None => mret (inr (Errorf "api client is nil"))
  | Some _ =>
      let concurrency := if concurrency <=? 0 then defaultConcurrency else concurrency in
      let pollInterval := if pollInterval <=? 0 then defaultPollInterval else pollInterval in
      runner taskType concurrency pollInterval ;;
      mret (inl (mkTaskWorker (mkWorkerConfig taskType concurrency pollInterval "") false))
  end.

(** [Stop], [IsRunning]: a mark on the worker; the engine is not told. *)
Definition Stop (w : TaskWorker) : TaskWorker := mkTaskWorker (config w) true.
Definition IsRunning (w : TaskWorker) : bool := negb (stopped w).

(** Every worker that is started polls with at least one thread and a positive interval. *)
Lemma conductor_worker runner wc cfg w tw w' :
  StartWorkerWithConfig runner wc cfg w = (Returned (inl tw), w') ->
  0 < Concurrency (config tw) /\ 0 < PollInterval (config tw) /\ IsRunning tw = true /\
  runner (TaskType cfg) (Concurrency (config tw)) (PollInterval (config tw)) w = (Returned tt, w').
Proof.
  unfold StartWorkerWithConfig, mbind, Go_bind. destruct (apiClient wc); [|done]. cbn -[Z.leb].
  destruct (runner _ _ _ w) as [[[]|] w1] eqn:E; [|done]. intros [= <- <-]. cbn -[Z.leb].
  split; [destruct (Z.leb_spec (Concurrency cfg) 0); unfold defaultConcurrency; lia|].
  split; [destruct (Z.leb_spec (PollInterval cfg) 0); [by vm_compute|done]|]. done.
Qed.

(** The domain of a configuration has no effect: the runner is told the same. *)
Lemma domain_unused runner wc cfg d w :
  snd (StartWorkerWithConfig runner wc (mkWorkerConfig (TaskType cfg) (Concurrency cfg) (PollInterval cfg) d) w) = snd (StartWorkerWithConfig runner wc cfg w).
Proof. unfold StartWorkerWithConfig, mbind, Go_bind. destruct (apiClient wc); [|done]. cbn -[Z.leb]. by destruct (runner _ _ _ w) as [[]]. Qed.
End operations.
End conductor.
