(* ===== verification/Mcp.v ===== *)
(** [transport/mcp]: the server of the Model Context Protocol ([server.go]), its options
    and the checks of tool descriptions ([utils.go]).

    The protocol library is outside: a server that was started is a goroutine that may end
    with an error.  [Start] reads the error and the flag before it sets the flag, so calls
    interleave between the two. *)
From Stdlib Require Import ZArith Lia.
From S2P Require Import Prelude GoErrors.
From stdpp Require Import base gmap strings list fin_maps.
Open Scope string_scope.
Open Scope list_scope.

(** * Options *)

(** [type ServerType string] and its values *)
Definition ServerTypeSSE : string := "SSE".
Definition ServerTypeHTTP : string := "HTTP".
Definition ServerTypeStdio : string := "STDIO".
Definition ServerTypeInProcess : string := "IN_PROCESS".

(** [type Server struct], what [NewServer] sets; [O] is the library's options, the
    endpoint is a URL's scheme and host. *)
Record Server (O : Type) := mkServer {
  serverName : string;
  serverVersion : string;
  mcpOpts : list O;
  serverType : string;
  serverAddr : string;
  endpoint : option (string * string);
  mcpServer : bool
}.
Arguments mkServer {O}.
Arguments serverName {O}.
Arguments serverVersion {O}.
Arguments mcpOpts {O}.
Arguments serverType {O}.
Arguments serverAddr {O}.
Arguments endpoint {O}.
Arguments mcpServer {O}.

Section options.
Context {O : Type}.
Abbreviation ServerOption := (Server O -> Server O).

Definition WithServerName (name : string) : ServerOption := fun s =>
  mkServer name (serverVersion s) (mcpOpts s) (serverType s) (serverAddr s) (endpoint s) (mcpServer s).
Definition WithServerVersion (version : string) : ServerOption := fun s =>
  mkServer (serverName s) version (mcpOpts s) (serverType s) (serverAddr s) (endpoint s) (mcpServer s).
Definition WithMCPServerOptions (opts : list O) : ServerOption := fun s =>
  mkServer (serverName s) (serverVersion s) (mcpOpts s ++ opts) (serverType s) (serverAddr s) (endpoint s) (mcpServer s).
Definition WithMCPServeType (t : string) : ServerOption := fun s =>
  mkServer (serverName s) (serverVersion s) (mcpOpts s) t (serverAddr s) (endpoint s) (mcpServer s).
Definition WithMCPServeAddress (addr : string) : ServerOption := fun s =>
  mkServer (serverName s) (serverVersion s) (mcpOpts s) (serverType s) addr (endpoint s) (mcpServer s).

Definition DefaultMCPServerAddress : string := ":8080".
Definition known_type (t : string) : bool := bool_decide (t ∈ [ServerTypeSSE; ServerTypeHTTP; ServerTypeInProcess; ServerTypeStdio]).

(** [func (s *Server) init(opts ...ServerOption)] *)
Definition init (opts : list ServerOption) (s : Server O) : Server O :=
  let s := apply_opts opts s in
  let t := if known_type (serverType s) then serverType s else ServerTypeStdio in
  let host := if String.eqb (serverAddr s) "" then DefaultMCPServerAddress else serverAddr s in
  let host := if String.prefix ":" host then ("localhost" ++ host)%string else host in
  mkServer (serverName s) (serverVersion s) (mcpOpts s) t (serverAddr s) (match endpoint s with Some e => Some e | None => Some ("http", host) end) true.

(** [func NewServer(opts ...ServerOption) *Server] *)
Definition NewServer (opts : list ServerOption) : Server O :=
  init opts (mkServer "MCP Server" "1.0.0" [] ServerTypeStdio DefaultMCPServerAddress None false).

(** [func (s *Server) Endpoint() string]; [text] is [URL.String]. *)
Definition Endpoint (text : string * string -> string) (s : Server O) : string := match endpoint s with None => "" | Some u => text u end.

(** [RegisterHandler], [RegisterHandlerWithJsonSchema]; [add] is the library's [AddTool]. *)
Definition RegisterHandler {W Tool Hd} (add : Tool -> Hd -> Go W unit) (s : Server O) (tool : Tool) (handler : Hd) : Go W (option error) :=
  if negb (mcpServer s) then mret (Some (Errorf "mcp server is nil")) else add tool handler ;; mret None.
Definition RegisterHandlerWithJsonSchema {W Tool Hd} (add : Tool -> Hd -> Go W unit) (raw_tool : string -> string -> string -> Tool) (s : Server O)
    (name description schema : string) (handler : Hd) : Go W (option error) :=
  RegisterHandler add s (raw_tool name description schema) handler.

(** [func (s *Server) startMCPServer() error], where the library's [serve] blocks until the
    server ends. *)
Definition startMCPServer {W} (error_text : error -> string) (serve : string -> string -> Go W (option error)) (s : Server O) : Go W (option error) :=
  if negb (mcpServer s) then mret (Some (Errorf "MCP server instance is nil"))
  else if bool_decide (serverType s ∈ [ServerTypeStdio; ServerTypeSSE; ServerTypeHTTP]) then
    err ← serve (serverType s) (serverAddr s);
    mret (match err with Some e => Some (Errorf ("start MCP server: " ++ error_text e)%string) | None => None end)
  else if String.eqb (serverType s) ServerTypeInProcess then mret None
  else mret (Some (Errorf ("unsupported MCP server type: " ++ serverType s)%string)).
End options.

(** * Tool descriptions *)

(** [mcp.ToolInputSchema]: its type, and whether its properties are there. *)
Record ToolInputSchema := mkSchema { Type_ : string; Properties : bool }.

(** [func ValidateToolInputSchema(schema mcp.ToolInputSchema) error] *)
Definition ValidateToolInputSchema (schema : ToolInputSchema) : option error :=
  if String.eqb (Type_ schema) "" then Some (Errorf "InputSchema.type 不能为空（必须是 object）")
  else if negb (String.eqb (Type_ schema) "object") then Some (Errorf ("InputSchema.type 必须为 object（当前：" ++ Type_ schema ++ "）")%string)
  else if negb (Properties schema) then Some (Errorf "InputSchema.properties 不能为空")
  else None.

(** [func LoadToolFromJsonString(jsonStr string) (mcp.Tool, error)]: a tool that is not
    valid is returned with the error; [RegisterHandlerWithJsonString] *)
Definition LoadToolFromJsonString {Tool} (parse : string -> Tool + error) (error_text : error -> string) (schema : Tool -> ToolInputSchema) (zero : Tool)
    (json : string) : Tool * option error :=
  match parse json with
  | inr e => (zero, Some (Errorf ("JSON 反序列化失败：" ++ error_text e)%string))
  | inl t => (t, ValidateToolInputSchema (schema t))
  end.
Definition RegisterHandlerWithJsonString {O W Tool Hd} parse error_text schema (zero : Tool) (add : Tool -> Hd -> Go W unit) (s : Server O) (json : string) (handler : Hd) :
    Go W (option error) :=
  if negb (mcpServer s) then mret (Some (Errorf "mcp server is nil"))
  else match LoadToolFromJsonString parse error_text schema zero json with
       | (_, Some e) => mret (Some e)
       | (t, None) => RegisterHandler add s t handler
       end.

(** * Running *)

(** The state the calls share: the flag, the joined errors, the servers' goroutines
    (running or ended), and the calls of [Start] that have read but not yet set the flag. *)
Record World := mkWorld { started : bool; err : option error; servers : list bool; starting : gset nat }.
Definition new_world : World := mkWorld false None [] ∅.

(** [func (s *Server) setErr(err error)] *)
Definition setErr (e : option error) (w : World) : World :=
  match e with
  | None => w
  | Some _ => mkWorld (started w) (errors_Join [err w; e]) (servers w) (starting w)
  end.

(** [func (s *Server) Start(ctx context.Context) error]: the reads, which may end it, and
    the rest. *)
Definition Start_read (id : nat) (w : World) : option (option error) * World :=
  match err w with
  | Some e => (Some (Some e), w)
  | None =>
      if started w then (Some None, w)
      else (None, mkWorld (started w) (err w) (servers w) ({[id]} ∪ starting w))
  end.
Definition Start_go (id : nat) (w : World) : option World :=
  if bool_decide (id ∈ starting w) then Some (mkWorld true (err w) (servers w ++ [true]) (starting w ∖ {[id]})) else None.

(** A server's goroutine ends. *)
Definition server_ends (i : nat) (e : option error) (w : World) : option World :=
  match servers w !! i with
  | Some true => Some (setErr e (mkWorld (started w) (err w) (<[i := false]> (servers w)) (starting w)))
  | _ => None
  end.

(** [func (s *Server) Stop(ctx context.Context) error] *)
Definition Stop (w : World) : option error * World :=
  if negb (started w) then (None, w) else (err w, mkWorld false (err w) (servers w) (starting w)).

Inductive event := ERead (id : nat) | EGo (id : nat) | EEnds (i : nat) (e : option error) | EStop.
Definition step (e : event) (w : World) : option World :=
  match e with
  | ERead id => Some (snd (Start_read id w))
  | EGo id => Start_go id w
  | EEnds i e => server_ends i e w
  | EStop => Some (snd (Stop w))
  end.
Fixpoint run (es : list event) (w : World) : option World :=
  match es with
  | [] => Some w
  | e :: es' => w' ← step e w; run es' w'
  end.

(** ** Properties *)

Lemma step_err e w w' x : err w = Some x -> step e w = Some w' -> exists y, err w' = Some y.
Proof.
  intros Hx. destruct e as [id|id|i e|]; cbn.
  - intros [= <-]. unfold Start_read. rewrite Hx. by exists x.
  - unfold Start_go. case_bool_decide; [|done]. intros [= <-]. by exists x.
  - unfold server_ends. destruct (servers w !! i) as [[]|]; try done. intros [= <-]. destruct e as [e|]; [|by exists x]. cbn. rewrite Hx. cbn. by eexists.
  - intros [= <-]. unfold Stop. destruct (negb (started w)); by exists x.
Qed.

(** Once a server has failed, no [Start] starts another: each returns the errors, whatever
    happens in between, [Stop] included. *)
Theorem mcp_error_sticks es w w' x :
  err w = Some x -> run es w = Some w' -> exists y, err w' = Some y /\ forall id, Start_read id w' = (Some (Some y), w').
Proof.
  revert w x. induction es as [|e es IH]; intros w x Hx Hr; cbn in Hr.
  - injection Hr as <-. exists x. split; [done|]. intros id. unfold Start_read. by rewrite Hx.
  - destruct (step e w) as [w1|] eqn:E; [|done]. destruct (step_err e w w1 x Hx E) as [y Hy]. by apply (IH w1 y).
Qed.

(** [Stop] stops no server: after a start, a stop and a start two servers run; and two
    calls of [Start] at once start two. *)
Lemma stop_leaves_server :
  exists w, run [ERead 0; EGo 0; EStop; ERead 1; EGo 1] new_world = Some w /\ servers w = [true; true].
Proof. eexists. split; vm_compute; reflexivity. Qed.
Lemma two_starts :
  exists w, run [ERead 0; ERead 1; EGo 0; EGo 1] new_world = Some w /\ servers w = [true; true] /\ started w = true.
Proof. eexists. split; [vm_compute; reflexivity|done]. Qed.

(** Servers only end by themselves: the number that were started never shrinks, and is
    the number of [Start]s that went on. *)
Lemma mcp_servers es w w' :
  run es w = Some w' -> length (servers w') = (length (servers w) + length (List.filter (fun e => match e with EGo _ => true | _ => false end) es))%nat.
Proof.
  revert w. induction es as [|e es IH]; intros w Hr; cbn in Hr; [injection Hr as <-; cbn; lia|].
  destruct (step e w) as [w1|] eqn:E; [|done]. rewrite (IH w1 Hr). destruct e as [id|id|i e|]; cbn in *.
  - injection E as <-. unfold Start_read. destruct (err w), (started w); cbn; lia.
  - unfold Start_go in E. case_bool_decide; [|done]. injection E as <-. cbn. rewrite length_app. cbn. lia.
  - unfold server_ends in E. destruct (servers w !! i) as [[]|]; try done. injection E as <-. destruct e; cbn; rewrite length_insert; lia.
  - injection E as <-. unfold Stop. destruct (negb (started w)); cbn; lia.
Qed.

(** A new server has a known type and an endpoint. *)
Theorem mcp_new {O} (opts : list (Server O -> Server O)) :
  known_type (serverType (NewServer opts)) = true /\ endpoint (NewServer opts) <> None /\ mcpServer (NewServer opts) = true.
Proof.
  unfold NewServer, init. cbn. split; [|by destruct (endpoint _)]. destruct (known_type (serverType _)) eqn:E; [done|]. by vm_compute.
Qed.
