(* ===== verification/Fluent.v ===== *)
(** [log/fluent] and [log/slog_logger.go]: the loggers that write to fluentd and to the
    standard library's [slog], as leaves of the loggers of [Log].

    fluentd's client and [slog] are outside: what is posted, and the records that [slog]
    is asked to write, go to the store. *)
From Stdlib Require Import ZArith Lia.
From S2P Require Import Prelude GoTime GoErrors GoStrings Log.
From stdpp Require Import base gmap strings list fin_maps.
Open Scope string_scope.
Open Scope list_scope.
Open Scope Z_scope.

(** * [options.go] *)

Record options := mkOptions {
  timeout : Duration; writeTimeout : Duration; bufferLimit : Z; retryWait : Z; maxRetry : Z; maxRetryWait : Z;
  tagPrefix : string; async : bool; forceStopAsyncSend : bool
}.
Abbreviation Option := (options -> options).
Definition WithTimeout (x : Duration) : Option := fun o => mkOptions x (writeTimeout o) (bufferLimit o) (retryWait o) (maxRetry o) (maxRetryWait o) (tagPrefix o) (async o) (forceStopAsyncSend o).
Definition WithWriteTimeout (x : Duration) : Option := fun o => mkOptions (timeout o) x (bufferLimit o) (retryWait o) (maxRetry o) (maxRetryWait o) (tagPrefix o) (async o) (forceStopAsyncSend o).
Definition WithBufferLimit (x : Z) : Option := fun o => mkOptions (timeout o) (writeTimeout o) x (retryWait o) (maxRetry o) (maxRetryWait o) (tagPrefix o) (async o) (forceStopAsyncSend o).
Definition WithRetryWait (x : Z) : Option := fun o => mkOptions (timeout o) (writeTimeout o) (bufferLimit o) x (maxRetry o) (maxRetryWait o) (tagPrefix o) (async o) (forceStopAsyncSend o).
Definition WithMaxRetry (x : Z) : Option := fun o => mkOptions (timeout o) (writeTimeout o) (bufferLimit o) (retryWait o) x (maxRetryWait o) (tagPrefix o) (async o) (forceStopAsyncSend o).
Definition WithMaxRetryWait (x : Z) : Option := fun o => mkOptions (timeout o) (writeTimeout o) (bufferLimit o) (retryWait o) (maxRetry o) x (tagPrefix o) (async o) (forceStopAsyncSend o).
Definition WithTagPrefix (x : string) : Option := fun o => mkOptions (timeout o) (writeTimeout o) (bufferLimit o) (retryWait o) (maxRetry o) (maxRetryWait o) x (async o) (forceStopAsyncSend o).
Definition WithAsync (x : bool) : Option := fun o => mkOptions (timeout o) (writeTimeout o) (bufferLimit o) (retryWait o) (maxRetry o) (maxRetryWait o) (tagPrefix o) x (forceStopAsyncSend o).
Definition WithForceStopAsyncSend (x : bool) : Option := fun o => mkOptions (timeout o) (writeTimeout o) (bufferLimit o) (retryWait o) (maxRetry o) (maxRetryWait o) (tagPrefix o) (async o) x.

(** * [fluent.go] *)

(** [fluent.Config]: the options, and where to send. *)
Inductive network := Tcp (host : string) (port : Z) | Unix (path : string).
Record Config := mkConfig { c_options : options; c_network : network }.

(** [any] values are given by what [fmt.Sprint] makes of them. *)
Record FluentLogger := mkLogger { opts : options; client : Config; extra : list string }.

(** [func NewFluentLogger(addr string, opts ...Option) ( *Logger, error)]: [parse] is
    [url.Parse] (scheme, host and path), [split] is [net.SplitHostPort], [connect] is
    [fluent.New]. *)
Definition NewFluentLogger (parse : string -> (string * string * string) + error) (split : string -> (string * string) + error) (connect : Config -> option error)
    (addr : string) (os : list Option) : FluentLogger + error :=
  let option := apply_opts os (mkOptions 0 0 0 0 0 0 "" false false) in
  match parse addr with
  | inr e => inr e
  | inl (scheme, host, path) =>
      let made n := let c := mkConfig option n in
        match connect c with Some e => inr e | None => inl (mkLogger option c []) end in
      if String.eqb scheme "tcp" then
        match split host with
        | inr e => inr e
        | inl (h, port) =>
            match Atoi port with
            | (_, Some e) => inr e
            | (p, None) => made (Tcp h p)
            end
        end
      else if String.eqb scheme "unix" then made (Unix path)
      else inr (Errorf ("unknown network: " ++ scheme)%string)
  end.

(** [With] *)
Definition fluent_With (keyvals : list string) (l : FluentLogger) : FluentLogger := mkLogger (opts l) (client l) (extra l ++ keyvals).

(** The pairs of [post]'s loop: an odd value at the end is left out. *)
Fixpoint pairs_of (all : list string) : list (string * string) :=
  match all with
  | k :: v :: rest => (k, v) :: pairs_of rest
  | _ => []
  end.

(** [func (l *Logger) post(tag, msg string, keyvals []any)]: what is posted. *)
Definition post_data (tag msg : string) (all : list string) : gmap string string :=
  fold_left (fun m '(k, v) => <[k := v]> m) (pairs_of all) (<["msg" := msg]> (<["level" := tag]> ∅)).

(** What the client was asked to send, in order; an error is written to standard error
    and nothing else happens. *)
Abbreviation posts := (list (string * gmap string string)).
Definition post (l : FluentLogger) (tag msg : string) (keyvals : list string) : Go posts unit :=
  go_modify (fun ps => ps ++ [(tag, post_data tag msg (extra l ++ keyvals))]).

(** [Debug], [Info], [Warn], [Error] by the numbers of their levels *)
Definition tag_of (level : Z) : string :=
  if level =? 0 then "DEBUG" else if level =? 1 then "INFO" else if level =? 2 then "WARN" else "ERROR".
#[export] Instance fluent_backend : Backend FluentLogger (list string) posts := {
  leaf_log l level msg kvs := post l (tag_of level) msg kvs;
  leaf_Enabled l level := true;
  leaf_With := fluent_With
}.

(** ** Properties *)

Lemma fold_pairs_lookup ps (m : gmap string string) k :
  fold_left (fun m '(k, v) => <[k := v]> m) ps m !! k =
    match last (omap (fun '(k', v) => if String.eqb k' k then Some v else None) ps) with Some v => Some v | None => m !! k end.
Proof.
  induction ps as [|[k' v] ps IH] using rev_ind; [done|]. rewrite fold_left_app, omap_app. cbn. destruct (String.eqb_spec k' k) as [->|Hk].
  - by rewrite lookup_insert_eq, last_snoc.
  - rewrite lookup_insert_ne by done. by rewrite app_nil_r.
Qed.

(** A record posted: under each key the last value given for it, by [With] or by the
    call; the level and the message otherwise. *)
Theorem fluent_record l tag msg kvs ps k :
  let all := pairs_of (extra l ++ kvs) in
  exists data, post l tag msg kvs ps = (Returned tt, ps ++ [(tag, data)]) /\
    data !! k = match last (omap (fun '(k', v) => if String.eqb k' k then Some v else None) all) with
                | Some v => Some v
                | None => if String.eqb k "msg" then Some msg else if String.eqb k "level" then Some tag else None
                end.
Proof.
  eexists. split; [reflexivity|]. unfold post_data. rewrite fold_pairs_lookup. destruct (last _); [done|].
  destruct (String.eqb_spec k "msg") as [->|H1]; [by rewrite lookup_insert_eq|]. rewrite lookup_insert_ne by done.
  destruct (String.eqb_spec k "level") as [->|H2]; [by rewrite lookup_insert_eq|by rewrite lookup_insert_ne].
Qed.

(** Attaching is as good as giving the values with each call. *)
Lemma fluent_with a l level msg kvs : leaf_log (Args := list string) (leaf_With a l) level msg kvs = leaf_log l level msg (a ++ kvs).
Proof. cbn. unfold post, fluent_With. cbn [extra]. by rewrite <- app_assoc. Qed.

(** A key that is called ["msg"] or ["level"] replaces the message or the level; and an odd
    number of attached values shifts the pairs of every call. *)
Lemma reserved_keys_lost l ps : extra l = [] ->
  post l "INFO" "saved" ["msg"; "x"; "level"; "y"] ps = (Returned tt, ps ++ [("INFO", {["msg" := "x"; "level" := "y"]})]).
Proof. intros E. unfold post, go_modify. rewrite E. do 3 f_equal. Qed.
Lemma odd_extra_shifts l ps : extra l = ["module"] ->
  post l "INFO" "saved" ["id"; "7"] ps = (Returned tt, ps ++ [("INFO", {["level" := "INFO"; "msg" := "saved"; "module" := "id"]})]).
Proof. intros E. unfold post, go_modify. rewrite E. do 3 f_equal. Qed.

(** * [slog_logger.go] *)
Module slog.
Section slog.
Context {L C X : Type} (LogContext : L -> C -> Z -> string -> list string -> Go X unit) (slog_Enabled : L -> Z -> bool) (slog_With : list string -> L -> L)
  (Background : C).

(** [slog]'s levels, and [func levelToSlog(level lululog.Level) slog.Level] *)
Definition levelToSlog (level : Z) : Z :=
  if level =? 0 then -4 else if level =? 1 then 0 else if level =? 2 then 4 else if level =? 3 then 8 else 0.
(** [func ensureCtx(ctx context.Context) context.Context] *)
Definition ensureCtx (ctx : option C) : C := default Background ctx.

(** [Debug], [Info], [Warn], [Error], [Enabled], [With] *)
Definition slog_log (l : L) (ctx : option C) (level : Z) (msg : string) (args : list string) : Go X unit :=
  LogContext l (ensureCtx ctx) (if level =? 0 then -4 else if level =? 1 then 0 else if level =? 2 then 4 else 8) msg args.
Definition Enabled (l : L) (level : Z) : bool := slog_Enabled l (levelToSlog level).
Definition With (args : list string) (l : L) : L := slog_With args l.

(** The four levels are mapped in order, and a logger writes at the level it is asked about. *)
Lemma slog_levels a b : 0 <= a <= 3 -> 0 <= b <= 3 -> (levelToSlog a <= levelToSlog b <-> a <= b).
Proof.
  intros Ha Hb. assert (forall x, 0 <= x <= 3 -> levelToSlog x = 4 * x - 4) as E; [|rewrite !E by done; lia].
  intros x Hx. assert (x = 0 \/ x = 1 \/ x = 2 \/ x = 3) as [->|[->|[->| ->]]] by lia; reflexivity.
Qed.
Lemma slog_log_level l ctx level msg args : 0 <= level <= 3 -> slog_log l ctx level msg args = LogContext l (ensureCtx ctx) (levelToSlog level) msg args.
Proof. intros H. assert (level = 0 \/ level = 1 \/ level = 2 \/ level = 3) as [->|[->|[->| ->]]] by lia; reflexivity. Qed.
End slog.
End slog.
