(* ===== verification/Trpc.v ===== *)
(** [transport/trpc]: the server ([server.go], [server_options.go]) and the client
    ([client.go], [client_options.go]) around trpc-go.

    trpc-go is outside: the calls that reach it go to a trace, its servers are known by
    numbers, and its answers are inputs.  Its [Serve] returns when the server ends, so
    other calls come between the two halves of [Start]; what else a call does is taken as
    one step.  Logging is left out. *)
From Stdlib Require Import ZArith Lia.
From S2P Require Import Prelude GoTime GoErrors.
From stdpp Require Import base gmap strings list fin_maps.
Open Scope string_scope.
Open Scope list_scope.
Open Scope Z_scope.

(** * Server options *)

(** The options of [trpcServer] the sources build; [Filter], [Listener] and [Raw] are
    trpc-go's filters, listeners and any other option. *)
Inductive SOpt (Filter Listener Raw : Type) :=
| SNamespace (s : string) | SAddress (s : string) | SEnvName (s : string) | SContainer (s : string)
| SSetName (s : string) | SServiceName (s : string) | SNetwork (s : string) | SProtocol (s : string)
| STimeout (d : Duration) | STLS (certFile keyFile caFile : string) | SIdleTimeout (d : Duration)
| SMaxRoutines (n : Z) | SCloseWaitTime (d : Duration) | SDisableRequestTimeout (b : bool)
| SFilters (fs : list Filter) | SNamedFilter (name : string) (f : Filter) | SListener (l : Listener) | SRaw (o : Raw).
Arguments SNamespace {Filter Listener Raw}.
Arguments SAddress {Filter Listener Raw}.
Arguments SEnvName {Filter Listener Raw}.
Arguments SContainer {Filter Listener Raw}.
Arguments SSetName {Filter Listener Raw}.
Arguments SServiceName {Filter Listener Raw}.
Arguments SNetwork {Filter Listener Raw}.
Arguments SProtocol {Filter Listener Raw}.
Arguments STimeout {Filter Listener Raw}.
Arguments STLS {Filter Listener Raw}.
Arguments SIdleTimeout {Filter Listener Raw}.
Arguments SMaxRoutines {Filter Listener Raw}.
Arguments SCloseWaitTime {Filter Listener Raw}.
Arguments SDisableRequestTimeout {Filter Listener Raw}.
Arguments SFilters {Filter Listener Raw}.
Arguments SNamedFilter {Filter Listener Raw}.
Arguments SListener {Filter Listener Raw}.
Arguments SRaw {Filter Listener Raw}.

Module TrpcServer.
Section server.
Context {Filter Listener Raw Desc Impl : Type}.
(** [strconv.Quote], for the verb [%q] *)
Variable quote : string -> string.
Abbreviation sopt := (SOpt Filter Listener Raw).

(** The calls that reach trpc-go, a server being known by its number. *)
Inductive call :=
| CNew (opts : list sopt)
| CRegister (h : nat) (name : string) (d : Desc) (i : Impl)
| CServe (h : nat)
| CClose (h : nat).

(** [type Server struct], with the calls made, the number of servers made, and the calls
    of [Start] that wait in [Serve], each with its server. *)
Record Server := mkServer {
  trpc : option nat;
  trpcOptions : list sopt;
  address : string;
  filters : list Filter;
  started : bool;
  err : option error;
  calls : list call;
  made : nat;
  serving : gmap nat nat
}.
Abbreviation ServerOption := (Server -> Server).

Definition add_opts (os : list sopt) : ServerOption := fun s =>
  mkServer (trpc s) (trpcOptions s ++ os) (address s) (filters s) (started s) (err s) (calls s) (made s) (serving s).
Definition add_filters (fs : list Filter) : ServerOption := fun s =>
  mkServer (trpc s) (trpcOptions s) (address s) (filters s ++ fs) (started s) (err s) (calls s) (made s) (serving s).

Definition WithNamespace (namespace : string) : ServerOption := add_opts [SNamespace namespace].
Definition WithAddress (addr : string) : ServerOption := fun s =>
  mkServer (trpc s) (trpcOptions s ++ [SAddress addr]) addr (filters s) (started s) (err s) (calls s) (made s) (serving s).
Definition WithEnvName (envName : string) : ServerOption := add_opts [SEnvName envName].
Definition WithContainer (container : string) : ServerOption := add_opts [SContainer container].
Definition WithSetName (setName : string) : ServerOption := add_opts [SSetName setName].
Definition WithServiceName (name : string) : ServerOption := add_opts [SServiceName name].
Definition WithNetwork (network : string) : ServerOption := add_opts [SNetwork network].
Definition WithProtocol (protocol : string) : ServerOption := add_opts [SProtocol protocol].
Definition WithTimeout (timeout : Duration) : ServerOption := add_opts [STimeout timeout].
Definition WithTLS (certFile keyFile caFile : string) : ServerOption := add_opts [STLS certFile keyFile caFile].
Definition WithIdleTimeout (timeout : Duration) : ServerOption := add_opts [SIdleTimeout timeout].
Definition WithMaxRoutines (routines : Z) : ServerOption := add_opts [SMaxRoutines routines].
Definition WithCloseWaitTime (timeout : Duration) : ServerOption := add_opts [SCloseWaitTime timeout].
Definition WithDisableRequestTimeout (disable : bool) : ServerOption := add_opts [SDisableRequestTimeout disable].
Definition WithFilter (f : Filter) : ServerOption := add_filters [f].
Definition WithFilters (fs : list Filter) : ServerOption := add_filters fs.
Definition WithNamedFilter (name : string) (f : Filter) : ServerOption := add_opts [SNamedFilter name f].
Definition WithListener (lis : Listener) : ServerOption := add_opts [SListener lis].
Definition WithTrpcOptions (opts : list Raw) : ServerOption := add_opts (SRaw <$> opts).
(** The TLS configuration is ignored. *)
Definition WithServerTLSConfig {T} (_ : T) : ServerOption := fun s => s.

(** [func NewServer(opts ...ServerOption) *Server], [Endpoint], [Use] *)
Definition empty_server : Server := mkServer None [] "" [] false None [] 0 ∅.
Definition NewServer (opts : list ServerOption) : Server := apply_opts opts empty_server.
Definition Endpoint (s : Server) : string := address s.
Definition Use (fs : list Filter) : ServerOption := add_filters fs.

(** [trpcGo.NewServer]: a new server, or nil where [created] is false. *)
Definition new_trpc (created : bool) (s : Server) : Server :=
  mkServer (if created then Some (made s) else None) (trpcOptions s) (address s) (filters s) (started s) (err s)
    (calls s ++ [CNew (trpcOptions s)]) (if created then S (made s) else made s) (serving s).
Definition log_call (c : call) (s : Server) : Server :=
  mkServer (trpc s) (trpcOptions s) (address s) (filters s) (started s) (err s) (calls s ++ [c]) (made s) (serving s).
Definition set_err (e : option error) (s : Server) : Server :=
  mkServer (trpc s) (trpcOptions s) (address s) (filters s) (started s) e (calls s) (made s) (serving s).
Definition set_started (b : bool) (s : Server) : Server :=
  mkServer (trpc s) (trpcOptions s) (address s) (filters s) b (err s) (calls s) (made s) (serving s).
Definition set_serving (m : gmap nat nat) (s : Server) : Server :=
  mkServer (trpc s) (trpcOptions s) (address s) (filters s) (started s) (err s) (calls s) (made s) m.

(** [func (s *Server) Start(ctx context.Context) error], until it returns ([Some]) or waits
    in [Serve]. *)
Definition Start (id : nat) (created : bool) (s : Server) : option (option error) * Server :=
  match err s with
  | Some e => (Some (Some e), s)
  | None =>
      if started s then (Some None, s)
      else
        let s := if (0 <? length (filters s))%nat then add_opts [SFilters (filters s)] s else s in
        let s := new_trpc created s in
        match trpc s with
        | None => (Some (Some (Errorf "failed to create trpc server")), s)
        | Some h => (None, set_serving (<[id := h]> (serving s)) (log_call (CServe h) s))
        end
  end.
(** The rest of it, when [Serve] has returned [e]. *)
Definition Start_served (id : nat) (e : option error) (s : Server) : option error * Server :=
  let s := set_err e (set_serving (delete id (serving s)) s) in
  match e with
  | Some e => (Some e, s)
  | None => (None, set_started true s)
  end.

(** [func (s *Server) Stop(ctx context.Context) error]; [closed] is what [Close] returns,
    and a nil server panics. *)
Definition Stop (closed : option error) (s : Server) : result (option error) * Server :=
  if negb (started s) then (Returned None, s)
  else
    let s := set_started false s in
    match trpc s with
    | None => (Panicked, s)
    | Some h => (Returned closed, set_err None (log_call (CClose h) s))
    end.

(** [func (s *Server) RegisterService(serviceName string, ...) error]; [found] says if
    trpc-go has a service of that name (it returns nil otherwise, and [Register] panics),
    [reg] is what [Register] returns. *)
Definition RegisterService (name : string) (d : Desc) (i : Impl) (created found : bool) (reg : option error) (s : Server) : result (option error) * Server :=
  if started s then (Returned (Some (Errorf ("cannot register service " ++ quote name ++ " after server started")%string)), s)
  else
    let s := match trpc s with None => new_trpc created s | Some _ => s end in
    match trpc s with
    | None => (Returned (Some (Errorf "failed to create trpc server for service registration")), s)
    | Some h =>
        if negb found then (Panicked, s)
        else
          let s := log_call (CRegister h name d i) s in
          (Returned (match reg with Some e => Some (Wrapf ("register service " ++ quote name ++ " failed: ")%string e) | None => None end), s)
    end.

(** * Runs *)
Inductive event :=
| EUse (fs : list Filter)
| EStart (id : nat) (created : bool)
| EServed (id : nat) (e : option error)
| EStop (closed : option error)
| ERegister (name : string) (d : Desc) (i : Impl) (created found : bool) (reg : option error).
Definition step (e : event) (s : Server) : option Server :=
  match e with
  | EUse fs => Some (Use fs s)
  | EStart id created => if bool_decide (serving s !! id = None) then Some (snd (Start id created s)) else None
  | EServed id e => match serving s !! id with Some _ => Some (snd (Start_served id e s)) | None => None end
  | EStop closed => Some (snd (Stop closed s))
  | ERegister name d i created found reg => Some (snd (RegisterService name d i created found reg s))
  end.
Fixpoint run (es : list event) (s : Server) : option Server :=
  match es with
  | [] => Some s
  | e :: es' => s' ← step e s; run es' s'
  end.

Lemma run_invariant (P : Server -> Prop) es s s' :
  (forall e s1 s2, e ∈ es -> P s1 -> step e s1 = Some s2 -> P s2) -> P s -> run es s = Some s' -> P s'.
Proof.
  revert s. induction es as [|e es IH]; intros s Hstep Hp Hr; cbn in Hr; [by injection Hr as <-|].
  destruct (step e s) as [s1|] eqn:E; [|done]. apply (IH s1); [|apply (Hstep e s s1); [left|done..]|done].
  intros e' s1' s2' Hin. apply Hstep. by right.
Qed.

(** A server that nothing was done with, as [NewServer] makes them. *)
Definition fresh (s : Server) : Prop := trpc s = None /\ started s = false /\ err s = None /\ calls s = [] /\ made s = 0%nat /\ serving s = ∅.
Lemma fresh_NewServer opts :
  Forall (fun o => (exists os, o = add_opts os) \/ (exists fs, o = add_filters fs) \/ (exists a, o = WithAddress a)) opts -> fresh (NewServer opts).
Proof.
  intros H. unfold NewServer. apply (apply_opts_preserves fresh); [|done]. eapply Forall_impl; [done|]. by intros o [[os ->]|[[fs ->]|[a ->]]] s Hs.
Qed.

(** ** Registered services are lost *)

(** The server a call is about. *)
Definition handle (c : call) : option nat :=
  match c with CNew _ => None | CRegister h _ _ _ => Some h | CServe h => Some h | CClose h => Some h end.
Definition bounded (n : nat) (cs : list call) : Prop := forall c h, c ∈ cs -> handle c = Some h -> (h < n)%nat.
(** No server was used before it was served. *)
Definition served_bare (cs : list call) : Prop := forall l1 h l2, cs = l1 ++ CServe h :: l2 -> forall c, c ∈ l1 -> handle c <> Some h.

Lemma bounded_mono n m cs : (n <= m)%nat -> bounded n cs -> bounded m cs.
Proof. intros Hle H c h Hc Hh. specialize (H c h Hc Hh). lia. Qed.
Lemma bounded_snoc n cs c : bounded n cs -> (forall h, handle c = Some h -> (h < n)%nat) -> bounded n (cs ++ [c]).
Proof. intros H Hc c' h [Hin| ->%list_elem_of_singleton]%elem_of_app Hh; [by apply (H c')|by apply Hc]. Qed.
Lemma served_bare_snoc cs c : served_bare cs -> (forall h, c = CServe h -> forall c', c' ∈ cs -> handle c' <> Some h) -> served_bare (cs ++ [c]).
Proof.
  intros H Hc l1 h l2 E. destruct l2 as [|x l2] using rev_ind.
  - apply app_inj_tail in E as [-> ->]. by apply Hc.
  - rewrite app_comm_cons, app_assoc in E. apply app_inj_tail in E as [-> _]. by apply (H l1 h l2).
Qed.

Definition inv (s : Server) : Prop :=
  served_bare (calls s) /\ bounded (made s) (calls s) /\ (forall h, trpc s = Some h -> (h < made s)%nat).

Lemma inv_new_trpc created s : inv s -> inv (new_trpc created s).
Proof.
  intros (Hs & Hb & Ht). split_and!.
  - by apply served_bare_snoc.
  - apply bounded_snoc; [|done]. apply (bounded_mono (made s)); [cbn; destruct created; lia|done].
  - cbn. destruct created; intros h Hh; simplify_eq; lia.
Qed.
Lemma inv_log c s :
  inv s -> (forall h, handle c = Some h -> trpc s = Some h) -> (forall h, c = CServe h -> forall c', c' ∈ calls s -> handle c' <> Some h) -> inv (log_call c s).
Proof.
  intros (Hs & Hb & Ht) Hh Hc. split_and!; [by apply served_bare_snoc| |done].
  apply bounded_snoc; [done|]. intros h E. by apply Ht, Hh.
Qed.
Lemma inv_start id created s : inv s -> inv (snd (Start id created s)).
Proof.
  intros Hi. unfold Start. destruct (err s); [done|]. destruct (started s); [done|]. cbv zeta.
  set (s1 := if (0 <? length (filters s))%nat then _ else s).
  assert (inv s1) as H1 by (unfold s1; by destruct (0 <? length (filters s))%nat).
  destruct created; [|by apply (inv_new_trpc false)].
  cbn [new_trpc trpc snd]. apply (inv_log (CServe (made s1)) (new_trpc true s1)); [by apply inv_new_trpc|by intros h [= <-]|].
  intros h [= <-] c' [Hin| ->%list_elem_of_singleton]%elem_of_app Hh; [|done].
  destruct H1 as (_ & Hb & _). specialize (Hb c' (made s1) Hin Hh). lia.
Qed.
Lemma inv_step e s s' : inv s -> step e s = Some s' -> inv s'.
Proof.
  intros Hi. destruct e as [fs|id created|id e|closed|name d i created found reg]; cbn [step].
  - by intros [= <-].
  - case_bool_decide; [|done]. intros [= <-]. by apply inv_start.
  - destruct (serving s !! id); [|done]. intros [= <-]. by destruct e.
  - intros [= <-]. unfold Stop. destruct (negb (started s)); [done|]. cbn [set_started trpc]. destruct (trpc s) as [h|] eqn:E; [|done].
    apply (inv_log (CClose h) (set_started false s)); [done|by intros h' [= <-]|done].
  - intros [= <-]. unfold RegisterService. destruct (started s); [done|]. cbv zeta.
    set (s1 := match trpc s with None => _ | Some _ => s end).
    assert (inv s1) as H1 by (unfold s1; destruct (trpc s); [done|by apply inv_new_trpc]).
    destruct (trpc s1) as [h|] eqn:E; [|done]. destruct (negb found); [done|].
    apply (inv_log (CRegister h name d i) s1); [done|by intros h' [= <-]|done].
Qed.

(** [Start] serves a server that it has made itself: whatever [RegisterService] registered
    before is on another one, which is never served. *)
Theorem trpc_services_lost es s s' l1 h l2 :
  fresh s -> run es s = Some s' -> calls s' = l1 ++ CServe h :: l2 -> forall name d i, CRegister h name d i ∉ l1.
Proof.
  intros (Ht & _ & _ & Hcs & _) Hr Hl name d i Hin. assert (inv s') as (Hs & _ & _).
  { apply (run_invariant inv es s); [intros; by eapply inv_step| |done].
    unfold inv. rewrite Ht, Hcs. split_and!; [intros l1' h' l2' E; by destruct l1'|intros c h' Hc; by apply elem_of_nil in Hc|done]. }
  by apply (Hs l1 h l2 Hl (CRegister h name d i) Hin).
Qed.

(** ** Stopping *)

(** While every [Serve] waits or has failed, [Stop] does nothing: a server that serves is
    not closed by it. *)
Theorem trpc_stop_idle es s0 s closed :
  fresh s0 -> run es s0 = Some s -> (forall id, EServed id None ∉ es) ->
  Stop closed s = (Returned None, s) /\ forall h, CClose h ∉ calls s.
Proof.
  intros (_ & Hf & _ & Hcs & _) Hr Hes. assert (started s = false /\ forall h, CClose h ∉ calls s) as [Hs Hc].
  { apply (run_invariant (fun s => started s = false /\ forall h, CClose h ∉ calls s) es s0); [|rewrite Hcs; split; [done|intros h; apply not_elem_of_nil]|done].
    clear Hr Hf Hcs s0 s. intros e s s' Hin [Hs Hc]. destruct e as [fs|id created|id e|cl|name d i created found reg]; cbn [step].
    - by intros [= <-].
    - case_bool_decide; [|done]. intros [= <-]. unfold Start. rewrite Hs. destruct (err s), created, (0 <? length (filters s))%nat; (split; [done|]); set_solver.
    - destruct (serving s !! id); [|done]. intros [= <-]. destruct e; [done|]. by apply Hes in Hin.
    - intros [= <-]. unfold Stop. by rewrite Hs.
    - intros [= <-]. unfold RegisterService. rewrite Hs. destruct (trpc s) as [h|] eqn:E; cbv zeta; [rewrite E|destruct created]; destruct found; (split; [done|]); cbn; set_solver. }
  split; [|done]. unfold Stop. by rewrite Hs.
Qed.

(** A [Serve] that failed while no other waits is remembered for ever, as [Stop] only
    forgets it when the server has started: every [Start] returns it. *)
Theorem trpc_error_sticks es s s' e :
  err s = Some e -> started s = false -> serving s = ∅ -> run es s = Some s' ->
  forall id created, Start id created s' = (Some (Some e), s').
Proof.
  intros He Hs Hv Hr. assert (err s' = Some e /\ started s' = false /\ serving s' = ∅) as (He' & _ & _).
  { apply (run_invariant (fun s => err s = Some e /\ started s = false /\ serving s = ∅) es s); [|done..].
    clear. intros ev s s' _ (He & Hs & Hv). destruct ev as [fs|id created|id e'|cl|name d i created found reg]; cbn [step].
    - by intros [= <-].
    - case_bool_decide; [|done]. intros [= <-]. unfold Start. by rewrite He.
    - by rewrite Hv, lookup_empty.
    - intros [= <-]. unfold Stop. by rewrite Hs.
    - intros [= <-]. unfold RegisterService. rewrite Hs. destruct (trpc s) as [h|] eqn:E; cbv zeta; [rewrite E|destruct created]; by destruct found. }
  intros id created. unfold Start. by rewrite He'.
Qed.

(** A server started again gives trpc-go its filters once more. *)
Theorem trpc_filters_again s closed :
  fresh s -> filters s <> [] ->
  exists s', run [EStart 0 true; EServed 0 None; EStop closed; EStart 1 true] s = Some s' /\
    calls s' = [CNew (trpcOptions s ++ [SFilters (filters s)]); CServe 0; CClose 0;
                CNew (trpcOptions s ++ [SFilters (filters s)] ++ [SFilters (filters s)]); CServe 1].
Proof.
  destruct s as [t opts a fs st e cs n sv]. intros (Ht & Hst & He & Hc & Hm & Hv) Hf. cbn in *. subst. destruct fs as [|f fs]; [done|].
  cbn. eexists. split; [reflexivity|]. cbn. by rewrite <- app_assoc.
Qed.
End server.
End TrpcServer.

(** * Client options *)

(** A slice of options that calls append to: its array, of which the first [len] cells are
    its elements, and the rest is spare. *)
Section slice.
Context {A : Type}.
Record slice := mkSlice { cells : list (option A); len : nat }.
Definition elements (s : slice) : list A := omap id (take (len s) (cells s)).
Definition slice_wf (s : slice) : Prop := (len s <= length (cells s))%nat /\ Forall is_Some (take (len s) (cells s)).

(** [append]: in the array where it has room, and otherwise in a new one, of which [grow]
    says how many cells are spare. *)
Definition append (grow : nat -> nat -> nat) (xs : list A) (s : slice) : slice :=
  let n := (len s + length xs)%nat in
  if (n <=? length (cells s))%nat then mkSlice (take (len s) (cells s) ++ (Some <$> xs) ++ drop n (cells s)) n
  else mkSlice (take (len s) (cells s) ++ (Some <$> xs) ++ replicate (grow (length (cells s)) n) None) n.

Lemma omap_Some (xs : list A) : omap id (Some <$> xs) = xs.
Proof. induction xs as [|x xs IH]; [done|]. cbn. by rewrite IH. Qed.
Lemma append_take xs s rest :
  slice_wf s -> take (len s + length xs)%nat (take (len s) (cells s) ++ (Some <$> xs) ++ rest) = take (len s) (cells s) ++ (Some <$> xs).
Proof.
  intros [Hl _]. rewrite app_assoc. apply take_app_length'. rewrite length_app, length_take, length_fmap. lia.
Qed.
Lemma append_wf grow xs s : slice_wf s -> slice_wf (append grow xs s) /\ elements (append grow xs s) = elements s ++ xs.
Proof.
  intros Hw. pose proof Hw as [Hl Hf]. unfold append, elements, slice_wf.
  assert (Forall is_Some (take (len s) (cells s) ++ (Some <$> xs))) as Hf' by (apply Forall_app; split; [done|]; apply Forall_fmap, Forall_true; by eexists).
  destruct (Nat.leb_spec (len s + length xs) (length (cells s))); cbn [cells len]; rewrite append_take by done.
  all: rewrite omap_app, omap_Some; repeat split; [|done].
  all: rewrite !length_app, length_take, length_fmap, ?length_drop, ?length_replicate; lia.
Qed.
End slice.
Arguments slice A : clear implicits.


(** The options of [trpcClient] the sources build. *)
Inductive COpt (Filter Raw : Type) :=
| CTarget (s : string) | CServiceName (s : string) | CNamespace (s : string) | CCallerEnvName (s : string) | CCallerSetName (s : string)
| CTimeout (d : Duration) | CNetwork (s : string) | CProtocol (s : string) | CTLS (certFile keyFile caFile serverName : string)
| CFilters (fs : list Filter) | CMetaData (key : string) (val : list Byte.byte) | CDiscoveryName (s : string) | CBalancerName (s : string)
| CCalleeMethod (s : string) | CRaw (o : Raw).
Arguments CTarget {Filter Raw}.
Arguments CServiceName {Filter Raw}.
Arguments CNamespace {Filter Raw}.
Arguments CCallerEnvName {Filter Raw}.
Arguments CCallerSetName {Filter Raw}.
Arguments CTimeout {Filter Raw}.
Arguments CNetwork {Filter Raw}.
Arguments CProtocol {Filter Raw}.
Arguments CTLS {Filter Raw}.
Arguments CFilters {Filter Raw}.
Arguments CMetaData {Filter Raw}.
Arguments CDiscoveryName {Filter Raw}.
Arguments CBalancerName {Filter Raw}.
Arguments CCalleeMethod {Filter Raw}.
Arguments CRaw {Filter Raw}.

Module TrpcClient.
Section client.
Context {Filter Raw : Type}.
Variable grow : nat -> nat -> nat.
Abbreviation copt := (COpt Filter Raw).

(** [type Client struct] *)
Record Client := mkClient { clientOptions : slice copt; filters : list Filter }.
Abbreviation ClientOption := (Client -> Client).
Definition add_opts (os : list copt) : ClientOption := fun c => mkClient (append grow os (clientOptions c)) (filters c).
Definition add_filters (fs : list Filter) : ClientOption := fun c => mkClient (clientOptions c) (filters c ++ fs).

Definition WithTarget (target : string) : ClientOption := add_opts [CTarget target].
Definition WithClientServiceName (name : string) : ClientOption := add_opts [CServiceName name].
Definition WithClientNamespace (namespace : string) : ClientOption := add_opts [CNamespace namespace].
Definition WithClientEnvName (envName : string) : ClientOption := add_opts [CCallerEnvName envName].
Definition WithClientSetName (setName : string) : ClientOption := add_opts [CCallerSetName setName].
Definition WithClientTimeout (timeout : Duration) : ClientOption := add_opts [CTimeout timeout].
Definition WithClientNetwork (network : string) : ClientOption := add_opts [CNetwork network].
Definition WithClientProtocol (protocol : string) : ClientOption := add_opts [CProtocol protocol].
Definition WithClientTLS (certFile keyFile caFile serverName : string) : ClientOption := add_opts [CTLS certFile keyFile caFile serverName].
Definition WithClientFilter (f : Filter) : ClientOption := add_filters [f].
Definition WithClientFilters (fs : list Filter) : ClientOption := add_filters fs.
Definition WithMetaData (key : string) (val : list Byte.byte) : ClientOption := add_opts [CMetaData key val].
Definition WithDiscoveryName (name : string) : ClientOption := add_opts [CDiscoveryName name].
Definition WithBalancerName (name : string) : ClientOption := add_opts [CBalancerName name].
Definition WithCalleeMethod (method : string) : ClientOption := add_opts [CCalleeMethod method].
Definition WithClientOptions (opts : list Raw) : ClientOption := add_opts (CRaw <$> opts).
(** The TLS configuration is ignored. *)
Definition WithClientTLSConfig {T} (_ : T) : ClientOption := fun c => c.

(** [func NewClient(opts ...ClientOption) *Client], [Use] *)
Definition NewClient (opts : list ClientOption) : Client := apply_opts opts (mkClient (mkSlice [] 0) []).
Definition Use (fs : list Filter) : ClientOption := add_filters fs.

(** A client made with options has a slice within its array. *)
Lemma NewClient_wf opts :
  Forall (fun o => (exists os, o = add_opts os) \/ (exists fs, o = add_filters fs)) opts -> slice_wf (clientOptions (NewClient opts)).
Proof.
  intros H. unfold NewClient. apply (apply_opts_preserves (fun c => slice_wf (clientOptions c))); [|split; [done|constructor]].
  eapply Forall_impl; [done|]. intros o [[os ->]|[fs ->]] c Hc; [by apply append_wf|done].
Qed.

(** * [Invoke], concurrently *)

(** The local [opts] of a call: the client's slice, further along the same array, or a
    slice of the call's own. *)
Inductive local := Shared (n : nat) | Own (l : list copt).
Inductive pc := PFilters | PMethod | PCall.
Record thread := mkThread { method : string; at_ : pc; opts : local }.
(** The client's array and slice, the calls under way, and what trpc-go was given for each
    call that reached it. *)
Record World := mkWorld { array : list (option copt); size_ : nat; fs_ : list Filter; threads : gmap nat thread; sent : list (string * list copt) }.
Definition world (c : Client) : World := mkWorld (cells (clientOptions c)) (len (clientOptions c)) (filters c) ∅ [].

Definition append_local (o : copt) (l : local) (arr : list (option copt)) : local * list (option copt) :=
  match l with
  | Own xs => (Own (xs ++ [o]), arr)
  | Shared n => if (n <? length arr)%nat then (Shared (S n), <[n := Some o]> arr) else (Own (omap id (take n arr) ++ [o]), arr)
  end.
Definition read (l : local) (arr : list (option copt)) : list copt :=
  match l with Own xs => xs | Shared n => omap id (take n arr) end.

Inductive event := EInvoke (id : nat) (m : string) | EStep (id : nat).
(** [func (c *Client) Invoke(ctx context.Context, method string, req, rsp interface{}) error],
    a step at a time. *)
Definition advance (id : nat) (t : thread) (w : World) : World :=
  match at_ t with
  | PFilters =>
      let '(l, arr) := if (0 <? length (fs_ w))%nat then append_local (CFilters (fs_ w)) (opts t) (array w) else (opts t, array w) in
      mkWorld arr (size_ w) (fs_ w) (<[id := mkThread (method t) PMethod l]> (threads w)) (sent w)
  | PMethod =>
      let '(l, arr) := if negb (String.eqb (method t) "") then append_local (CCalleeMethod (method t)) (opts t) (array w) else (opts t, array w) in
      mkWorld arr (size_ w) (fs_ w) (<[id := mkThread (method t) PCall l]> (threads w)) (sent w)
  | PCall => mkWorld (array w) (size_ w) (fs_ w) (delete id (threads w)) (sent w ++ [(method t, read (opts t) (array w))])
  end.
Definition step (e : event) (w : World) : option World :=
  match e with
  | EInvoke id m =>
      if bool_decide (threads w !! id = None) then Some (mkWorld (array w) (size_ w) (fs_ w) (<[id := mkThread m PFilters (Shared (size_ w))]> (threads w)) (sent w))
      else None
  | EStep id => t ← threads w !! id; Some (advance id t w)
  end.
Fixpoint run (es : list event) (w : World) : option World :=
  match es with
  | [] => Some w
  | e :: es' => w' ← step e w; run es' w'
  end.
(** A call with no other under way. *)
Definition Invoke (m : string) (w : World) : option World := run [EInvoke 0 m; EStep 0; EStep 0; EStep 0] w.

(** What a call is to be made with. *)
Definition filter_opts (fs : list Filter) : list copt := if (0 <? length fs)%nat then [CFilters fs] else [].
Definition method_opts (m : string) : list copt := if negb (String.eqb m "") then [CCalleeMethod m] else [].
Definition want (base : list copt) (fs : list Filter) (m : string) : list copt := base ++ filter_opts fs ++ method_opts m.
Definition base (w : World) : list copt := omap id (take (size_ w) (array w)).

(** ** The slice *)

(** What a call has so far, once it has passed [p]. *)
Definition so_far (w : World) (p : pc) (m : string) : list copt :=
  base w ++ match p with PFilters => [] | PMethod => filter_opts (fs_ w) | PCall => filter_opts (fs_ w) ++ method_opts m end.

(** Appending gives what was there and the new option, and keeps the cells before. *)
Definition local_wf (l : local) (arr : list (option copt)) : Prop :=
  match l with Own _ => True | Shared n => (n <= length arr)%nat end.
Lemma append_local_read o l arr :
  local_wf l arr -> let '(l', arr') := append_local o l arr in
  read l' arr' = read l arr ++ [o] /\ local_wf l' arr' /\ length arr' = length arr /\
  (forall k, (match l with Shared n => k <= n | Own _ => True end)%nat -> take k arr' = take k arr).
Proof.
  destruct l as [n|xs]; cbn [append_local read local_wf]; [|done]. intros Hn. destruct (Nat.ltb_spec n (length arr)) as [Hlt|Hge]; [|done]. cbn [read local_wf].
  split_and!; [|rewrite length_insert; lia|by rewrite length_insert|intros k Hk; by rewrite take_insert_ge].
  assert (<[n := Some o]> arr !! n = Some (Some o)) as Hl by (by apply list_lookup_insert_eq).
  rewrite (take_S_r _ _ _ Hl), omap_app, take_insert_ge by lia. done.
Qed.

(** A call's own part of a step: what it has grows as it should where nobody else writes to
    the cells it sees, and the client's own options stay. *)
Definition covers (w : World) (l : local) : Prop := match l with Shared n => (size_ w <= n)%nat | Own _ => True end.
Definition thread_ok (w : World) (t : thread) : Prop :=
  local_wf (opts t) (array w) /\ covers w (opts t) /\ read (opts t) (array w) = so_far w (at_ t) (method t).

Lemma append_local_covers o l w : covers w l -> covers w (fst (append_local o l (array w))).
Proof. destruct l as [n|xs]; cbn [append_local covers]; [|done]. intros Hn. destruct (n <? length (array w))%nat; cbn; [lia|done]. Qed.

(** Every step keeps the client's options and its array's length. *)
Lemma advance_base id t w : local_wf (opts t) (array w) -> covers w (opts t) ->
  base (advance id t w) = base w /\ size_ (advance id t w) = size_ w /\ fs_ (advance id t w) = fs_ w /\ length (array (advance id t w)) = length (array w).
Proof.
  intros Hw Hc. unfold advance, base. destruct (at_ t); [destruct (0 <? length (fs_ w))%nat|destruct (negb (String.eqb (method t) ""))|]; try done.
  all: match goal with |- context [append_local ?o _ _] => pose proof (append_local_read o (opts t) (array w) Hw) as H; destruct (append_local o (opts t) (array w)) as [l arr] end.
  all: destruct H as (_ & _ & Hl & Hk); cbn; rewrite Hk by (destruct (opts t); [exact Hc|done]); done.
Qed.

Definition next (p : pc) : pc := match p with PFilters => PMethod | _ => PCall end.
(** The step of a call that is under way. *)
Lemma advance_ok id t w : thread_ok w t ->
  match at_ t with
  | PCall => sent (advance id t w) = sent w ++ [(method t, want (base w) (fs_ w) (method t))] /\ threads (advance id t w) = delete id (threads w)
  | _ => sent (advance id t w) = sent w /\ exists t', threads (advance id t w) = <[id := t']> (threads w) /\ method t' = method t /\ at_ t' = next (at_ t) /\ thread_ok (advance id t w) t'
  end.
Proof.
  intros (Hw & Hc & Hr). pose proof (advance_base id t w Hw Hc) as (Hb & Hs & Hf & Hl).
  unfold thread_ok, so_far. rewrite Hb, Hf. unfold covers. rewrite Hs. clear Hb Hs Hf Hl. unfold advance, so_far, want in *.
  destruct (at_ t) eqn:E.
  - unfold filter_opts in *. destruct (0 <? length (fs_ w))%nat.
    + pose proof (append_local_read (CFilters (fs_ w)) (opts t) (array w) Hw) as H. pose proof (append_local_covers (CFilters (fs_ w)) (opts t) w Hc) as Hc'.
      destruct (append_local _ _ _) as [l arr]. destruct H as (Hr' & Hw' & _). cbn [fst] in Hc'. cbn [sent threads].
      split; [done|]. eexists. split_and!; [done..|]. cbn [opts at_ method array].
      rewrite Hr', Hr. by rewrite <- app_assoc.
    + cbn. split; [done|]. eexists. split_and!; [done..|]. by cbn.
  - unfold method_opts in *. destruct (negb (String.eqb (method t) "")) eqn:Em.
    + pose proof (append_local_read (CCalleeMethod (method t)) (opts t) (array w) Hw) as H. pose proof (append_local_covers (CCalleeMethod (method t)) (opts t) w Hc) as Hc'.
      destruct (append_local _ _ _) as [l arr]. destruct H as (Hr' & Hw' & _). cbn [fst] in Hc'. cbn [sent threads].
      split; [done|]. eexists. split_and!; [done..|]. cbn [opts at_ method array].
      rewrite Em, Hr', Hr. by rewrite <- app_assoc.
    + cbn [sent threads]. split; [done|]. eexists. split_and!; [done..|]. cbn [opts at_ method array]. rewrite Em, Hr. by rewrite app_nil_r.
  - cbn. by rewrite Hr.
Qed.

(** ** Calls one after another *)

Lemma new_thread_ok w m : (size_ w <= length (array w))%nat -> thread_ok w (mkThread m PFilters (Shared (size_ w))).
Proof. intros Hl. unfold thread_ok, so_far. cbn. by rewrite app_nil_r. Qed.
Lemma step_invoke id m w : threads w !! id = None ->
  step (EInvoke id m) w = Some (mkWorld (array w) (size_ w) (fs_ w) (<[id := mkThread m PFilters (Shared (size_ w))]> (threads w)) (sent w)).
Proof. intros Ht. cbn. by rewrite bool_decide_true. Qed.
Lemma step_one id t w : threads w !! id = Some t -> step (EStep id) w = Some (advance id t w).
Proof. intros Ht. cbn. by rewrite Ht. Qed.


(** The steps a call has left. *)
Definition steps_left (p : pc) : nat := match p with PFilters => 3 | PMethod => 2 | PCall => 1 end.
Definition result_of (w w' : World) (m : string) : Prop :=
  sent w' = sent w ++ [(m, want (base w) (fs_ w) m)] /\ threads w' = ∅ /\
  base w' = base w /\ size_ w' = size_ w /\ fs_ w' = fs_ w /\ length (array w') = length (array w).
Lemma finish_alone id n t w :
  steps_left (at_ t) = n -> threads w = {[id := t]} -> thread_ok w t ->
  exists w', run (replicate n (EStep id)) w = Some w' /\ result_of w w' (method t).
Proof.
  revert t w. induction n as [|n IH]; intros t w Hn Ht Hk; [by destruct (at_ t)|].
  cbn [replicate run]. rewrite (step_one id t) by (rewrite Ht; apply lookup_singleton_eq). cbn [mbind option_bind].
  pose proof Hk as (Hw & Hc & _). pose proof (advance_base id t w Hw Hc) as (Hb & Hs & Hf & Hl). pose proof (advance_ok id t w Hk) as Ha.
  destruct (at_ t) eqn:E; cbn in Hn; injection Hn as <-.
  3:{ destruct Ha as [He Hd]. exists (advance id t w). split; [done|]. unfold result_of. rewrite He, Hd, Ht, delete_singleton_eq. done. }
  all: destruct Ha as (He & t' & Hi & Hm & Ha & Hk'); destruct (IH t' (advance id t w)) as (w' & Hr & H1 & H2 & H3 & H4 & H5 & H6); [by rewrite Ha|by rewrite Hi, Ht, insert_singleton_eq|done|].
  all: exists w'; split; [done|]; unfold result_of; rewrite H1, H2, H3, H4, H5, H6, He, Hb, Hs, Hf, Hl, Hm; done.
Qed.

(** A call that no other overlaps is made with the client's options, the filters and the
    method, and leaves the client's options as they were for the next. *)
Theorem trpc_invoke m w :
  (size_ w <= length (array w))%nat -> threads w = ∅ -> exists w', Invoke m w = Some w' /\ result_of w w' m.
Proof.
  intros Hl Ht. set (w1 := mkWorld (array w) (size_ w) (fs_ w) {[0%nat := mkThread m PFilters (Shared (size_ w))]} (sent w)).
  assert (step (EInvoke 0 m) w = Some w1) as Hs by (rewrite step_invoke by (by rewrite Ht); by rewrite Ht).
  unfold Invoke. cbn [run]. rewrite Hs. cbn [mbind option_bind].
  destruct (finish_alone 0 3 (mkThread m PFilters (Shared (size_ w))) w1) as (w' & Hr & H); [done|done|by apply (new_thread_ok w1)|].
  by exists w'.
Qed.

(** ** Calls at once *)

(** A full array is never written, so calls do not meet. *)
Lemma advance_full id t w : (size_ w = length (array w))%nat -> covers w (opts t) -> array (advance id t w) = array w.
Proof.
  intros Hl Hc. assert (forall o, snd (append_local o (opts t) (array w)) = array w) as Ha.
  { intros o. destruct (opts t) as [n|xs]; [|done]. cbn [append_local]. cbn in Hc. by rewrite (proj2 (Nat.ltb_ge n (length (array w)))) by lia. }
  unfold advance. destruct (at_ t); [destruct (0 <? length (fs_ w))%nat|destruct (negb (String.eqb (method t) ""))|]; try done.
  all: match goal with |- context [append_local ?o _ _] => specialize (Ha o); by destruct (append_local o (opts t) (array w)) end.
Qed.

Definition all_ok (w0 w : World) : Prop :=
  array w = array w0 /\ size_ w = size_ w0 /\ fs_ w = fs_ w0 /\ (forall id t, threads w !! id = Some t -> thread_ok w t) /\
  Forall (fun '(m, os) => os = want (base w0) (fs_ w0) m) (sent w).
Lemma thread_ok_ext w w' t : array w' = array w -> size_ w' = size_ w -> fs_ w' = fs_ w -> thread_ok w t -> thread_ok w' t.
Proof. unfold thread_ok, covers, so_far, base. by intros -> -> ->. Qed.
Lemma all_ok_step w0 e w w' : (size_ w0 = length (array w0))%nat -> all_ok w0 w -> step e w = Some w' -> all_ok w0 w'.
Proof.
  intros Hfull (Harr & Hs & Hf & Ht & He). destruct e as [id m|id]; cbn [step].
  - case_bool_decide; [|done]. intros [= <-]. split_and!; [done..| |done]. cbn [threads]. intros id' t'.
    rewrite lookup_insert_Some. intros [[<- <-]|[_ H']]; eapply (thread_ok_ext w); try done; [|by apply (Ht id')]. apply new_thread_ok. rewrite Harr, Hs. lia.
  - destruct (threads w !! id) as [t|] eqn:E; [|done]. intros [= <-]. pose proof (Ht id t E) as Hk. pose proof Hk as (Hw & Hc & _).
    pose proof (advance_base id t w Hw Hc) as (Hb & Hs' & Hf' & _). pose proof (advance_full id t w ltac:(by rewrite Harr, Hs) Hc) as Harr'.
    pose proof (advance_ok id t w Hk) as Ha. assert (base w = base w0) as Hb0 by (unfold base; by rewrite Harr, Hs).
    split_and!; [congruence..| |].
    + destruct (at_ t).
      3:{ destruct Ha as [_ ->]. intros id' t' [_ H']%lookup_delete_Some. by apply (thread_ok_ext w), (Ht id'). }
      all: destruct Ha as (_ & t1 & -> & _ & _ & Hk1); intros id' t' [[<- <-]|[_ H']]%lookup_insert_Some; [done|by apply (thread_ok_ext w), (Ht id')].
    + destruct (at_ t); [by destruct Ha as [-> _]..|]. destruct Ha as [-> _]. apply Forall_app. split; [done|]. repeat constructor. by rewrite Hb0, Hf.
Qed.

(** Calls that overlap in any way are each made with their own options, where the client's
    slice fills its array. *)
Theorem trpc_invoke_full es w w' :
  size_ w = length (array w) -> threads w = ∅ -> sent w = [] -> run es w = Some w' ->
  Forall (fun '(m, os) => os = want (base w) (fs_ w) m) (sent w').
Proof.
  intros Hl Ht He Hr. assert (all_ok w w) as Hok by (unfold all_ok; rewrite Ht, He; split_and!; try done; intros id t H; by rewrite lookup_empty in H).
  cut (all_ok w w'); [by intros (_ & _ & _ & _ & H)|]. revert Hok Hr. generalize w at 2 3. induction es as [|e es IH]; intros w1 Hok Hr; cbn in Hr; [by injection Hr as <-|].
  destruct (step e w1) as [w2|] eqn:E; [|done]. apply (IH w2); [by apply (all_ok_step w e w1)|done].
Qed.

Ltac crossed_step := erewrite step_one by (cbn [threads]; by simplify_map_eq); cbn [mbind option_bind];
  unfold advance at 1; cbn [at_ fs_ length Nat.ltb Nat.leb array size_ threads sent opts method].

(** Where it does not, a call can be made with another's method: both write to the same
    cell before either is made. *)
Theorem trpc_invoke_crossed w m1 m2 :
  (size_ w < length (array w))%nat -> threads w = ∅ -> sent w = [] -> fs_ w = [] -> m1 <> "" -> m2 <> "" ->
  exists w', run [EInvoke 1 m1; EInvoke 2 m2; EStep 1; EStep 2; EStep 1; EStep 2; EStep 1; EStep 2] w = Some w' /\
    sent w' = [(m1, base w ++ [CCalleeMethod m2]); (m2, base w ++ [CCalleeMethod m2])].
Proof.
  destruct w as [arr n fs ts se]. cbn [size_ array threads sent fs_]. intros Hn -> -> -> Hm1 Hm2.
  apply String.eqb_neq in Hm1, Hm2. assert ((n <? length arr)%nat = true) as Hlt by (by apply Nat.ltb_lt).
  assert (forall m o, read (Shared (S n)) (<[n := Some (CCalleeMethod m)]> (<[n := o]> arr)) = omap id (take n arr) ++ [CCalleeMethod m]) as Hread.
  { intros m o. cbn [read]. rewrite list_insert_insert_eq. assert (<[n := Some (CCalleeMethod m)]> arr !! n = Some (Some (CCalleeMethod m))) as Hl by (by apply list_lookup_insert_eq).
    rewrite (take_S_r _ _ _ Hl), omap_app, take_insert_ge by lia. done. }
  cbn [run]. rewrite step_invoke by done. cbn [mbind option_bind]. rewrite step_invoke by done. cbn [mbind option_bind array size_ fs_ sent threads].
  do 2 crossed_step. crossed_step. rewrite Hm1. cbn [negb append_local]. rewrite Hlt.
  crossed_step. rewrite Hm2. cbn [negb append_local]. rewrite length_insert, Hlt.
  do 2 crossed_step. eexists. split; [reflexivity|]. cbn [sent app]. by rewrite !Hread.
Qed.

(** ** The context of a call *)

(** A context: why it is done, and its deadline. *)
Record Ctx := mkCtx { done_ : option error; deadline : option Z }.
(** [context.WithTimeout], at the time [now] *)
Definition context_WithTimeout (now : Z) (ctx : Ctx) (d : Duration) : Ctx :=
  if match deadline ctx with Some cur => cur <? now + d | None => false end then ctx
  else mkCtx (match done_ ctx with Some e => Some e | None => if d <=? 0 then Some DeadlineExceeded else None end) (Some (now + d)).

(** [func (c *Client) timeout() time.Duration], and the context [Invoke] hands on *)
Definition timeout : Duration := 0.
Definition Invoke_ctx (now : Z) (ctx : Ctx) : Ctx := context_WithTimeout now ctx timeout.

(** Every call is made with a context that is done: with a deadline of its own that has
    passed, unless the caller's is done or has passed. *)
Theorem trpc_invoke_expired now ctx :
  done_ (Invoke_ctx now ctx) <> None \/ (exists cur, deadline ctx = Some cur /\ cur < now).
Proof.
  unfold Invoke_ctx, context_WithTimeout, timeout. rewrite Z.add_0_r.
  destruct (deadline ctx) as [cur|]; [destruct (Z.ltb_spec cur now); [right; by exists cur|]|]; left; by destruct (done_ ctx).
Qed.
End client.

(** The array of a slice grows to twice its size. *)
Definition twice (cap need : nat) : nat := (2 * cap - need)%nat.
(** A client of three options has a spare cell, and two of its calls can be made with one
    method. *)
Example three_options_crossed :
  let c := NewClient [WithTarget twice "ip://10.0.0.1:8000"; WithClientServiceName twice "trpc.app.server.Greeter"; WithClientTimeout twice 1000000000] in
  exists w', run [EInvoke 1 "Get"; EInvoke 2 "Delete"; EStep 1; EStep 2; EStep 1; EStep 2; EStep 1; EStep 2] (@world string string c) = Some w' /\
    snd <$> sent w' = replicate 2 [CTarget "ip://10.0.0.1:8000"; CServiceName "trpc.app.server.Greeter"; CTimeout 1000000000; CCalleeMethod "Delete"].
Proof. eexists. split; [vm_compute; reflexivity|reflexivity]. Qed.
End TrpcClient.

(** A service registered before [Start] is on a server that is not the one served. *)
Example register_then_start :
  exists s, TrpcServer.run id [TrpcServer.ERegister "Greeter" 0%nat 0%nat true true None; TrpcServer.EStart 0 true] (@TrpcServer.empty_server nat nat nat nat nat) = Some s /\
    TrpcServer.calls s = [TrpcServer.CNew []; TrpcServer.CRegister 0 "Greeter" 0 0; TrpcServer.CNew []; TrpcServer.CServe 1]%nat.
Proof. eexists. split; [vm_compute; reflexivity|reflexivity]. Qed.
