(* ===== verification/Oss.v ===== *)
(** [oss/minio] and [oss/s3]: the object stores, a module each, over the way they prepare a
    body, whose text they share.

    The two SDKs are a class of stores with a law on a view of their objects.  A body is a
    reader with a state of its own: it may seek, and it can be read to its end.  Contexts,
    credentials' providers and logging are left out. *)
From Stdlib Require Import ZArith Lia.
From S2P Require Import Prelude GoErrors GoStrings NetPacket HttpCodec.
From stdpp Require Import base gmap strings list fin_maps.
Open Scope string_scope.
Open Scope list_scope.
Open Scope Z_scope.

(** * Bodies *)

Inductive Whence := SeekStart | SeekCurrent | SeekEnd.
(** An [io.Reader] on a state [R]: [Seek] where it is an [io.ReadSeeker], and
    [io.ReadAll] of it. *)
Record Reader (R : Type) := mkReader {
  Seek : option (Z -> Whence -> R -> (Z * option error) * R);
  ReadAll : R -> (bytes * option error) * R
}.
Arguments mkReader {R}.
Arguments Seek {R}.
Arguments ReadAll {R}.

(** The kinds of [reflect] that can be nil; a body is nil, or a reader of a kind and
    whether it is a nil of that kind. *)
Inductive Kind := Chan | Func | Interface | Map | Pointer | Slice | OtherKind.
Inductive Body (R : Type) := NilBody | ABody (k : Kind) (isNil : bool) (r : Reader R).
Arguments NilBody {R}.
Arguments ABody {R}.

(** What is handed to the SDK: the body, or a [bytes.Reader] on what was read of it. *)
Inductive Prepared (R : Type) := Itself (r : Reader R) | Bytes (data : bytes).
Arguments Itself {R}.
Arguments Bytes {R}.
Definition read_prepared {R} (p : Prepared R) (s : R) : (bytes * option error) * R :=
  match p with Itself r => ReadAll r s | Bytes data => ((data, None), s) end.

Section body.
Context {R : Type}.

(** [func isNilReader(body io.Reader) bool] *)
Definition isNilReader (b : Body R) : bool :=
  match b with
  | NilBody => true
  | ABody k isNil _ => match k with OtherKind => false | _ => isNil end
  end.

(** [func readerSize(rs io.ReadSeeker) (int64, error)] *)
Definition readerSize (seek : Z -> Whence -> R -> (Z * option error) * R) (s : R) : (Z * option error) * R :=
  let '((current, err), s) := seek 0 SeekCurrent s in
  match err with
  | Some e => ((0, Some e), s)
  | None =>
      let '((end_, err), s) := seek 0 SeekEnd s in
      match err with
      | Some e => ((0, Some e), s)
      | None =>
          let '((_, err), s) := seek current SeekStart s in
          match err with
          | Some e => ((0, Some e), s)
          | None => ((wrap64 (end_ - current), None), s)
          end
      end
  end.

(** [func prepareBody(body io.Reader) (io.Reader, int64, error)] *)
Definition prepareBody (r : Reader R) (s : R) : (Prepared R * Z + error) * R :=
  match Seek r with
  | Some seek =>
      let '((size, err), s) := readerSize seek s in
      match err with Some e => (inr e, s) | None => (inl (Itself r, size), s) end
  | None =>
      let '((data, err), s) := ReadAll r s in
      match err with Some e => (inr e, s) | None => (inl (Bytes data, wrap64 (Z.of_nat (length data))), s) end
  end.
End body.

(** What [io.Seeker] and [io.Reader] promise, on a view of the reader's content and
    position in the states that it can be in: seeking tells the position and keeps the content, and reading gives what is
    after the position. *)
Record SeekLaws {R} (r : Reader R) (seek : Z -> Whence -> R -> (Z * option error) * R) (ok : R -> Prop) (content : R -> bytes) (pos : R -> Z) : Prop := {
  seeks : Seek r = Some seek;
  pos_range : forall s, ok s -> 0 <= pos s /\ in_int64 (pos s) /\ in_int64 (Z.of_nat (length (content s)));
  seek_current : forall s, ok s -> seek 0 SeekCurrent s = ((pos s, None), s);
  seek_end : forall s, ok s -> exists s', seek 0 SeekEnd s = ((Z.of_nat (length (content s)), None), s') /\ ok s' /\ content s' = content s;
  seek_start : forall p s, 0 <= p -> in_int64 p -> ok s -> exists s', seek p SeekStart s = ((p, None), s') /\ ok s' /\ content s' = content s /\ pos s' = p;
  read_rest : forall s, ok s -> fst (ReadAll r s) = (drop (Z.to_nat (pos s)) (content s), None)
}.

(** A seeking body is handed on where it was, with the number of bytes from there to its
    end, which is less than none where it was past its end. *)
Theorem prepare_seeker {R} (r : Reader R) seek ok content pos s :
  SeekLaws r seek ok content pos -> ok s ->
  exists s', prepareBody r s = (inl (Itself r, Z.of_nat (length (content s)) - pos s), s') /\
    content s' = content s /\ pos s' = pos s /\ fst (ReadAll r s') = fst (ReadAll r s).
Proof.
  intros [H0 H1 H2 H3 H4 H5] Hs. destruct (H1 s Hs) as (Hp & Hp' & Hl).
  destruct (H3 s Hs) as (s1 & E1 & K1 & C1). destruct (H4 (pos s) s1 Hp Hp' K1) as (s2 & E2 & K2 & C2 & P2).
  exists s2. unfold prepareBody, readerSize. rewrite H0, H2, E1, E2 by done.
  rewrite wrap64_id by (unfold in_int64, int64_min, int64_max in *; lia).
  split_and!; [done|congruence|done|]. by rewrite !H5, P2, C2, C1.
Qed.

(** Any other body is read first, and what was read is handed on with its length. *)
Theorem prepare_plain {R} (r : Reader R) s data s' :
  Seek r = None -> ReadAll r s = ((data, None), s') -> in_int64 (Z.of_nat (length data)) ->
  prepareBody r s = (inl (Bytes data, Z.of_nat (length data)), s').
Proof. intros Hn Hr Hl. unfold prepareBody. rewrite Hn, Hr. by rewrite wrap64_id. Qed.

(** So what is handed on gives what the body would have given, and its size is the number
    of those bytes. *)
Definition reads_as {R} (r : Reader R) (s : R) (data : bytes) : Prop :=
  in_int64 (Z.of_nat (length data)) /\
  ((Seek r = None /\ fst (ReadAll r s) = (data, None)) \/
   exists seek ok content pos, SeekLaws r seek ok content pos /\ ok s /\ pos s <= Z.of_nat (length (content s)) /\ data = drop (Z.to_nat (pos s)) (content s)).
Lemma prepare_reads {R} (r : Reader R) s data :
  reads_as r s data -> exists p s', prepareBody r s = (inl (p, Z.of_nat (length data)), s') /\ fst (read_prepared p s') = (data, None).
Proof.
  intros (Hl & [[Hn Hr]|(seek & ok & content & pos & L & Hs & Hp & Hd)]).
  - destruct (ReadAll r s) as [[d e] s'] eqn:E. cbn in Hr. injection Hr as -> ->.
    exists (Bytes data), s'. split; [by apply prepare_plain|done].
  - destruct (prepare_seeker r seek ok content pos s L Hs) as (s' & -> & _ & _ & Hr).
    destruct L as [_ H1 _ _ _ H5]. destruct (H1 s Hs) as [H0 _]. exists (Itself r), s'. split; [|cbn; by rewrite Hr, H5, Hd].
    rewrite Hd, length_drop, Nat2Z.inj_sub by lia. by rewrite Z2Nat.id.
Qed.

(** [bytes.Reader] keeps the promises. *)
Record bytesReader := mkBytesReader { buf : bytes; off : Z }.
Definition bytes_Seek (offset : Z) (whence : Whence) (r : bytesReader) : (Z * option error) * bytesReader :=
  let abs := match whence with SeekStart => offset | SeekCurrent => off r + offset | SeekEnd => Z.of_nat (length (buf r)) + offset end in
  if abs <? 0 then ((0, Some (Errorf "bytes.Reader.Seek: negative position")), r) else ((abs, None), mkBytesReader (buf r) abs).
Definition bytes_ReadAll (r : bytesReader) : (bytes * option error) * bytesReader :=
  ((drop (Z.to_nat (off r)) (buf r), None), mkBytesReader (buf r) (Z.max (off r) (Z.of_nat (length (buf r))))).
Definition bytes_reader : Reader bytesReader := mkReader (Some bytes_Seek) bytes_ReadAll.
Lemma bytes_reader_laws :
  SeekLaws bytes_reader bytes_Seek (fun r => 0 <= off r <= int64_max /\ Z.of_nat (length (buf r)) <= int64_max) buf off.
Proof.
  split; [done| | | | |done]; unfold in_int64, bytes_Seek.
  - intros s Hs. unfold int64_min, int64_max in *. lia.
  - intros s Hs. rewrite Z.add_0_r. destruct (Z.ltb_spec (off s) 0); [lia|by destruct s].
  - intros s Hs. rewrite Z.add_0_r. destruct (Z.ltb_spec (Z.of_nat (length (buf s))) 0); [lia|]. eexists. split; [done|]. cbn. split; [lia|done].
  - intros p s Hp Hp' Hs. destruct (Z.ltb_spec p 0); [lia|]. eexists. split; [done|]. cbn. split_and!; [lia..|done|done].
Qed.

(** * Stores *)

(** The request of an upload: [ContentType] is absent where nothing set it. *)
Record PutInput := mkPut { Bucket : string; Key : string; Size : Z; ContentType : option string }.
(** An SDK on its state [S]: it reads the body that it is given; [Object] is an object
    fetched. *)
Class Sdk (S Out Object : Type) := {
  sdk_put : PutInput -> bytes * option error -> S -> (Out + error) * S;
  sdk_get : string -> string -> S -> (Object + error) * S
}.
(** What is relied on: an upload whose size is that of its body, and that succeeds, puts
    the object into its place; fetching gives what is there. *)
Record SdkLaws {S Out Object} `{Sdk S Out Object} (objects : S -> gmap (string * string) (bytes)) (data_of : Object -> bytes) : Prop := {
  put_stores : forall i data s out s', sdk_put i (data, None) s = (inl out, s') -> Size i = Z.of_nat (length data) ->
    objects s' = <[(Bucket i, Key i) := data]> (objects s);
  get_finds : forall b k s o s', sdk_get b k s = (inl o, s') -> objects s !! (b, k) = Some (data_of o) /\ objects s' = objects s
}.

Section stores.
Context {S Out Object R : Type} `{!Sdk S Out Object}.

(** The part of [PutObject] that the stores share: the body is prepared and uploaded. *)
Definition upload (input : Z -> PutInput) (r : Reader R) (w : S * R) : (Out + error) * (S * R) :=
  let '(p, s) := prepareBody r (snd w) in
  match p with
  | inr e => (inr e, (fst w, s))
  | inl (p, size) =>
      let '(data, s) := read_prepared p s in
      let '(out, st) := sdk_put (input size) data (fst w) in
      (out, (st, s))
  end.

Lemma upload_stores objects data_of input r w data out w' :
  SdkLaws objects data_of -> reads_as r (snd w) data -> (forall n, Size (input n) = n) -> upload input r w = (inl out, w') ->
  objects (fst w') = <[(Bucket (input (Z.of_nat (length data))), Key (input (Z.of_nat (length data)))) := data]> (objects (fst w)).
Proof.
  intros L Hr Hs. unfold upload. destruct (prepare_reads r (snd w) data Hr) as (p & s' & -> & Hp).
  destruct (read_prepared p s') as [d s2]. cbn in Hp. subst d.
  destruct (sdk_put _ _ (fst w)) as [o st] eqn:E. intros [= -> <-]. cbn [fst].
  by apply (put_stores _ _ L _ _ _ out).
Qed.
End stores.

(** * MinIO *)

Module minio.
Definition ErrNilClient : error := Sentinel "minio.ErrNilClient" "minio client is nil".
Definition ErrEmptyBucket : error := Sentinel "minio.ErrEmptyBucket" "minio bucket is empty".
Definition ErrEmptyObjectKey : error := Sentinel "minio.ErrEmptyObjectKey" "minio object key is empty".
Definition ErrNilObjectBody : error := Sentinel "minio.ErrNilObjectBody" "minio object body is nil".

(** [type Config struct] *)
Record Config := mkConfig { Endpoint : string; AccessKey : string; SecretKey : string; Token : string; UseSsl : bool }.
(** [minio.Options], as the source fills it: static credentials, and [Secure]. *)
Record Options := mkOptions { Creds : string * string * string; Secure : bool }.

Section storage.
Context {Client : Type}.
(** [func NewClient(cfg *Config) *minio.Client]; [new] is [minio.New]. *)
Definition NewClient (new : string -> Options -> Client + error) (cfg : option Config) : option Client :=
  match cfg with
  | None => None
  | Some cfg =>
      match new (Endpoint cfg) (mkOptions (AccessKey cfg, SecretKey cfg, Token cfg) (UseSsl cfg)) with
      | inl c => Some c
      | inr _ => None
      end
  end.
(** [type Storage struct]; [func NewStorage(cfg *Config) *Storage]; [SDK] *)
Record Storage := mkStorage { client : option Client }.
Definition NewStorage (new : string -> Options -> Client + error) (cfg : option Config) : Storage := mkStorage (NewClient new cfg).
Definition SDK (s : option Storage) : option Client := match s with None => None | Some s => client s end.

Context {S Out Object R : Type} {sdk : Client -> Sdk S Out Object}.
(** [func (s *Storage) PutObject(ctx, bucket, key string, body io.Reader, contentType string) (minio.UploadInfo, error)] *)
Definition put_input (bucket key contentType : string) (size : Z) : PutInput := mkPut bucket key size (Some contentType).
Definition PutObject (s : option Storage) (bucket key : string) (body : Body R) (contentType : string) (w : S * R) : (Out + error) * (S * R) :=
  match SDK s with
  | None => (inr ErrNilClient, w)
  | Some c =>
      if String.eqb bucket "" then (inr ErrEmptyBucket, w)
      else if String.eqb key "" then (inr ErrEmptyObjectKey, w)
      else if isNilReader body then (inr ErrNilObjectBody, w)
      else match body with
           | NilBody => (inr ErrNilObjectBody, w)
           | ABody _ _ r => @upload S Out Object R (sdk c) (put_input bucket key contentType) r w
           end
  end.
(** [func (s *Storage) GetObject(ctx, bucket, key string) : a minio object or an error] *)
Definition GetObject (s : option Storage) (bucket key : string) (st : S) : (Object + error) * S :=
  match SDK s with
  | None => (inr ErrNilClient, st)
  | Some c =>
      if String.eqb bucket "" then (inr ErrEmptyBucket, st)
      else if String.eqb key "" then (inr ErrEmptyObjectKey, st)
      else @sdk_get S Out Object (sdk c) bucket key st
  end.

(** What was put is what is fetched. *)
Theorem minio_round_trip objects data_of c s bucket key k isNil r ct w data out w1 o st :
  @SdkLaws S Out Object (sdk c) objects data_of -> SDK s = Some c -> reads_as r (snd w) data ->
  PutObject s bucket key (ABody k isNil r) ct w = (inl out, w1) -> GetObject s bucket key (fst w1) = (inl o, st) -> data_of o = data.
Proof.
  intros L Hc Hr. unfold PutObject, GetObject. rewrite Hc. destruct (String.eqb bucket ""); [done|]. destruct (String.eqb key ""); [done|].
  destruct (isNilReader _); [done|]. intros Hp Hg.
  pose proof (upload_stores (Sdk0 := sdk c) objects data_of (put_input bucket key ct) r w data out w1 L Hr (fun _ => eq_refl) Hp) as Ho.
  destruct (get_finds _ _ L _ _ _ _ _ Hg) as [Hf _]. rewrite Ho in Hf. cbn in Hf. rewrite lookup_insert_eq in Hf. by injection Hf as ->.
Qed.
End storage.
Arguments Storage Client : clear implicits.
End minio.

(** * S3 *)

Module s3.
Definition ErrNilClient : error := Sentinel "s3.ErrNilClient" "s3 client is nil".
Definition ErrEmptyBucket : error := Sentinel "s3.ErrEmptyBucket" "s3 bucket is empty".
Definition ErrEmptyObjectKey : error := Sentinel "s3.ErrEmptyObjectKey" "s3 object key is empty".
Definition ErrNilObjectBody : error := Sentinel "s3.ErrNilObjectBody" "s3 object body is nil".

(** [type Config struct] *)
Record Config := mkConfig {
  Endpoint : string; Region : string; AccessKey : string; SecretKey : string; Token : string;
  UseSsl : bool; ForcePathStyle : bool; cfg_Bucket : string
}.

(** [func normalizeEndpoint(endpoint string, useSSL bool) string] *)
Definition normalizeEndpoint (endpoint : string) (useSSL : bool) : string :=
  let endpoint := TrimSpace endpoint in
  if String.eqb endpoint "" then ""
  else if String.prefix "http://" endpoint || String.prefix "https://" endpoint then endpoint
  else let scheme := if useSSL then "https" else "http" in (scheme ++ "://" ++ endpoint)%string.

(** The options of [awsconfig.LoadDefaultConfig] and of [awss3.NewFromConfig]. *)
Inductive LoadOption := WithRegion (r : string) | WithCredentialsProvider (access secret token : string).
Record Options := mkOptions { UsePathStyle : bool; BaseEndpoint : option string }.

Section storage.
Context {Client AwsConfig : Type}.
Definition load_opts (cfg : Config) : list LoadOption :=
  let region := if String.eqb (Region cfg) "" then "us-east-1" else Region cfg in
  WithRegion region ::
  (if negb (String.eqb (AccessKey cfg) "") || negb (String.eqb (SecretKey cfg) "") || negb (String.eqb (Token cfg) "")
   then [WithCredentialsProvider (AccessKey cfg) (SecretKey cfg) (Token cfg)] else []).
(** [func NewClient(cfg *Config) *awss3.Client]; [load] and [new] are the SDK's. *)
Definition NewClient (load : list LoadOption -> AwsConfig + error) (new : AwsConfig -> Options -> Client) (cfg : option Config) : option Client :=
  match cfg with
  | None => None
  | Some cfg =>
      let endpoint := normalizeEndpoint (Endpoint cfg) (UseSsl cfg) in
      match load (load_opts cfg) with
      | inr _ => None
      | inl aws => Some (new aws (mkOptions (ForcePathStyle cfg) (if String.eqb endpoint "" then None else Some endpoint)))
      end
  end.
(** [type Storage struct]; [NewStorage], [SDK] and [Bucket] *)
Record Storage := mkStorage { client : option Client; bucket : string }.
Definition NewStorage (load : list LoadOption -> AwsConfig + error) (new : AwsConfig -> Options -> Client) (cfg : option Config) : option Storage :=
  match cfg with
  | None => None
  | Some c => Some (mkStorage (NewClient load new cfg) (cfg_Bucket c))
  end.
Definition SDK (s : option Storage) : option Client := match s with None => None | Some s => client s end.
Definition Bucket_ (s : option Storage) : string := match s with None => "" | Some s => bucket s end.

Context {S Out Object R : Type} {sdk : Client -> Sdk S Out Object}.
(** [func (s *Storage) PutObject(ctx, key string, body io.Reader, contentType string)] *)
Definition put_input (b key contentType : string) (size : Z) : PutInput :=
  mkPut b key size (if String.eqb contentType "" then None else Some contentType).
Definition PutObject (s : option Storage) (key : string) (body : Body R) (contentType : string) (w : S * R) : (Out + error) * (S * R) :=
  match SDK s with
  | None => (inr ErrNilClient, w)
  | Some c =>
      if String.eqb (Bucket_ s) "" then (inr ErrEmptyBucket, w)
      else if String.eqb key "" then (inr ErrEmptyObjectKey, w)
      else if isNilReader body then (inr ErrNilObjectBody, w)
      else match body with
           | NilBody => (inr ErrNilObjectBody, w)
           | ABody _ _ r => @upload S Out Object R (sdk c) (put_input (Bucket_ s) key contentType) r w
           end
  end.
(** [func (s *Storage) GetObject(ctx, key string)] *)
Definition GetObject (s : option Storage) (key : string) (st : S) : (Object + error) * S :=
  match SDK s with
  | None => (inr ErrNilClient, st)
  | Some c =>
      if String.eqb (Bucket_ s) "" then (inr ErrEmptyBucket, st)
      else if String.eqb key "" then (inr ErrEmptyObjectKey, st)
      else @sdk_get S Out Object (sdk c) (Bucket_ s) key st
  end.

(** What was put is what is fetched, and other keys keep what they had. *)
Theorem s3_round_trip objects data_of c s key k isNil r ct w data out w1 :
  @SdkLaws S Out Object (sdk c) objects data_of -> SDK s = Some c -> reads_as r (snd w) data ->
  PutObject s key (ABody k isNil r) ct w = (inl out, w1) ->
  (forall o st, GetObject s key (fst w1) = (inl o, st) -> data_of o = data) /\
  (forall k' o st, k' <> key -> GetObject s k' (fst w1) = (inl o, st) -> objects (fst w) !! (Bucket_ s, k') = Some (data_of o)).
Proof.
  intros L Hc Hr. unfold PutObject, GetObject. rewrite Hc. destruct (String.eqb (Bucket_ s) ""); [done|]. destruct (String.eqb key ""); [done|].
  destruct (isNilReader _); [done|]. intros Hp.
  pose proof (upload_stores (Sdk0 := sdk c) objects data_of (put_input (Bucket_ s) key ct) r w data out w1 L Hr (fun _ => eq_refl) Hp) as Ho. cbn in Ho. split.
  - intros o st Hg. destruct (get_finds _ _ L _ _ _ _ _ Hg) as [Hf _]. rewrite Ho, lookup_insert_eq in Hf. by injection Hf as ->.
  - intros k' o st Hk. destruct (String.eqb k' ""); [done|]. intros Hg. destruct (get_finds _ _ L _ _ _ _ _ Hg) as [Hf _].
    by rewrite Ho, lookup_insert_ne in Hf by congruence.
Qed.
End storage.
Arguments Storage Client : clear implicits.

(** An endpoint is left out, or has the scheme [http] or [https]. *)
Theorem normalizeEndpoint_spec endpoint ssl :
  let e := normalizeEndpoint endpoint ssl in
  e = "" \/ String.prefix "http://" e = true \/ String.prefix "https://" e = true.
Proof.
  cbv zeta. unfold normalizeEndpoint. destruct (String.eqb _ ""); [by left|]. right.
  destruct (String.prefix "http://" (TrimSpace endpoint)) eqn:E1; cbn [orb]; [by left|].
  destruct (String.prefix "https://" (TrimSpace endpoint)) eqn:E2; [by right|]. destruct ssl; [right|left]; cbn; by destruct (TrimSpace endpoint).
Qed.
End s3.

(** A reader that was moved past its end is uploaded with a size less than none. *)
Example past_the_end :
  fst (prepareBody bytes_reader (mkBytesReader (String.list_ascii_of_string "hello") 6)) = inl (Itself bytes_reader, -1).
Proof. reflexivity. Qed.
(** A store that keeps its objects in a map, and a round trip through it. *)
Definition map_sdk : Sdk (gmap (string * string) bytes) unit bytes := {|
  sdk_put i data st := match data with (d, None) => (inl tt, <[(Bucket i, Key i) := d]> st) | (_, Some e) => (inr e, st) end;
  sdk_get b k st := match st !! (b, k) with Some d => (inl d, st) | None => (inr (Errorf "no such key"), st) end
|}.
Lemma map_sdk_laws : @SdkLaws _ _ _ map_sdk id id.
Proof.
  split.
  - intros i data s out s' [= <- <-]. done.
  - intros b k s o s'. cbn. destruct (s !! (b, k)) eqn:E; [|done]. by intros [= <- <-].
Qed.
Example hello_reads : reads_as bytes_reader (mkBytesReader (String.list_ascii_of_string "hello") 1) (String.list_ascii_of_string "ello").
Proof. split; [by vm_compute|]. right. do 4 eexists. split; [exact bytes_reader_laws|]. by vm_compute. Qed.
Example store_hello :
  let s := Some (s3.mkStorage (Some tt) "assets") in
  let '(out, w1) := s3.PutObject (sdk := fun _ => map_sdk) s "a.txt" (ABody Pointer false bytes_reader) "" (∅, mkBytesReader (String.list_ascii_of_string "hello") 1) in
  out = inl tt /\ fst (s3.GetObject (sdk := fun _ => map_sdk) s "a.txt" (fst w1)) = inl (String.list_ascii_of_string "ello").
Proof. vm_compute. done. Qed.
