(* ===== verification/Clients.v ===== *)
(** Parts that are configuration: the clients of [transport/grpc/client], [ai/openai],
    [ai/eino] and [ai/langchaingo], the tracer provider of [tracer/otlp/otlp.go] and the
    handler of [pprof/handler.go], a module each.

    The libraries that make the connections, models and exporters are parameters; contexts
    are left out. *)
From Stdlib Require Import ZArith Lia.
From S2P Require Import Prelude Float64 GoTime GoErrors GoStrings.
From stdpp Require Import base gmap strings list fin_maps.
Open Scope string_scope.
Open Scope list_scope.
Open Scope Z_scope.

(** * [transport/grpc/client] *)

Module grpcclient.
Section grpcclient.
(** Credentials with those that [insecure.NewCredentials] makes, interceptors of both
    kinds, and the other dial options. *)
Context {Creds Mw SMw Raw : Type}.
Variable insecure : Creds.

(** [grpc.DialOption] *)
Inductive DialOption :=
| WithTransportCredentials_ (c : Creds)
| WithChainUnaryInterceptor (ms : list Mw)
| WithChainStreamInterceptor (ms : list SMw)
| OtherDialOption (o : Raw).

(** [type Client struct]; a connection is known by a number. *)
Record Client := mkClient {
  target : string;
  conn : option nat;
  dialOptions : list DialOption;
  middlewares : list Mw;
  streamMiddlewares : list SMw;
  hasCreds : bool
}.
Abbreviation Option := (Client -> Client).
Definition WithConn (c : nat) : Option := fun s => mkClient (target s) (Some c) (dialOptions s) (middlewares s) (streamMiddlewares s) (hasCreds s).
Definition WithDialOption (opts : list DialOption) : Option := fun s => mkClient (target s) (conn s) (dialOptions s ++ opts) (middlewares s) (streamMiddlewares s) (hasCreds s).
Definition WithTransportCredentials (c : Creds) : Option := fun s =>
  mkClient (target s) (conn s) (dialOptions s ++ [WithTransportCredentials_ c]) (middlewares s) (streamMiddlewares s) true.
Definition WithInsecure : Option := fun s =>
  mkClient (target s) (conn s) (dialOptions s ++ [WithTransportCredentials_ insecure]) (middlewares s) (streamMiddlewares s) true.
Definition WithMiddleware (ms : list Mw) : Option := fun s => mkClient (target s) (conn s) (dialOptions s) (middlewares s ++ ms) (streamMiddlewares s) (hasCreds s).
Definition WithStreamMiddleware (ms : list SMw) : Option := fun s => mkClient (target s) (conn s) (dialOptions s) (middlewares s) (streamMiddlewares s ++ ms) (hasCreds s).

(** [func NewClient(target string, opts ...Option) *Client] *)
Definition NewClient (t : string) (opts : list Option) : Client := apply_opts opts (mkClient t None [] [] [] false).

(** [func (c *Client) buildDialOptions() []grpc.DialOption] *)
Definition buildDialOptions (c : Client) : list DialOption :=
  dialOptions c ++
  (if (0 <? length (middlewares c))%nat then [WithChainUnaryInterceptor (middlewares c)] else []) ++
  (if (0 <? length (streamMiddlewares c))%nat then [WithChainStreamInterceptor (streamMiddlewares c)] else []) ++
  (if hasCreds c then [] else [WithTransportCredentials_ insecure]).

(** The connections that are open, and the number for the next. *)
Record World := mkWorld { open : gset nat; next : nat }.
(** [func (c *Client) Dial(ctx context.Context) error]; [refused] is the error of
    [grpc.NewClient], where it fails. *)
Definition set_conn (x : option nat) (c : Client) : Client := mkClient (target c) x (dialOptions c) (middlewares c) (streamMiddlewares c) (hasCreds c).
Definition Dial (refused : list DialOption -> option error) (c : Client) (w : World) : option error * Client * World :=
  match conn c with
  | Some _ => (None, c, w)
  | None =>
      match refused (buildDialOptions c) with
      | Some e => (Some (Wrapf ("grpc dial " ++ target c ++ ": ")%string e), c, w)
      | None => (None, set_conn (Some (next w)) c, mkWorld ({[next w]} ∪ open w) (S (next w)))
      end
  end.
(** [func (c *Client) Close() error]; [err] is what closing the connection returns. *)
Definition Close (err : option error) (c : Client) (w : World) : option error * Client * World :=
  match conn c with
  | None => (None, c, w)
  | Some h => (err, set_conn None c, mkWorld (open w ∖ {[h]}) (next w))
  end.

Inductive op := ODial (refused : list DialOption -> option error) | OClose (err : option error).
Definition exec (o : op) (cw : Client * World) : Client * World :=
  match o with
  | ODial refused => let '(_, c, w) := Dial refused (fst cw) (snd cw) in (c, w)
  | OClose err => let '(_, c, w) := Close err (fst cw) (snd cw) in (c, w)
  end.

(** A client holds at most one connection, and loses none: however often it is dialled and
    closed, what is open is what was open before and its own connection. *)
Theorem grpc_client_conns ops c w0 :
  conn c = None -> (forall h, h ∈ open w0 -> (h < next w0)%nat) ->
  let '(c', w) := foldl (fun cw o => exec o cw) (c, w0) ops in
  open w = match conn c' with Some h => {[h]} | None => ∅ end ∪ open w0 /\ (forall h, conn c' = Some h -> h ∉ open w0).
Proof.
  intros Hc Hn. set (Inv := fun cw : Client * World => open (snd cw) = match conn (fst cw) with Some h => {[h]} | None => ∅ end ∪ open w0 /\
    (forall h, conn (fst cw) = Some h -> h ∉ open w0) /\ (next w0 <= next (snd cw))%nat).
  assert (Inv (foldl (fun cw o => exec o cw) (c, w0) ops)) as H.
  { assert (Inv (c, w0)) as H0 by (unfold Inv; cbn; rewrite Hc; split_and!; [set_solver|done|lia]).
    revert H0. generalize (c, w0). induction ops as [|o ops IH]; intros [c1 w1] H0; [done|]. apply IH. clear IH.
    pose proof H0 as (Ho & Hf & Hx). cbn in Ho, Hf, Hx. destruct o as [refused|err]; cbn.
    - unfold Dial. destruct (conn c1) as [h|] eqn:E; [exact H0|]. destruct (refused _); [exact H0|].
      unfold Inv. cbn. split_and!; [set_solver| |lia]. intros h [= <-] Hin. specialize (Hn _ Hin). lia.
    - unfold Close. destruct (conn c1) as [h|] eqn:E; [|exact H0]. specialize (Hf h eq_refl). unfold Inv. cbn. split_and!; [set_solver|done|done]. }
  destruct (foldl _ _ _) as [c' w]. by destruct H as (H1 & H2 & _).
Qed.

(** ** Credentials *)

(** Of several options for one thing grpc-go takes the last. *)
Definition creds_of (opts : list DialOption) : option Creds :=
  last (omap (fun o => match o with WithTransportCredentials_ c => Some c | _ => None end) opts).

(** The options, as written. *)
Inductive opt := OConn (h : nat) | ODialOption (os : list DialOption) | OCreds (c : Creds) | OInsecure | OMw (ms : list Mw) | OSMw (ms : list SMw).
Definition denote (o : opt) : Option :=
  match o with
  | OConn h => WithConn h | ODialOption os => WithDialOption os | OCreds c => WithTransportCredentials c
  | OInsecure => WithInsecure | OMw ms => WithMiddleware ms | OSMw ms => WithStreamMiddleware ms
  end.
Definition sets_creds (o : opt) : bool := match o with OCreds _ | OInsecure => true | _ => false end.
Definition dial_of (o : opt) : list DialOption :=
  match o with ODialOption os => os | OCreds c => [WithTransportCredentials_ c] | OInsecure => [WithTransportCredentials_ insecure] | _ => [] end.

Lemma NewClient_fields t os :
  dialOptions (NewClient t (denote <$> os)) = mbind dial_of os /\ hasCreds (NewClient t (denote <$> os)) = existsb sets_creds os.
Proof.
  unfold NewClient. induction os as [|o os IH] using rev_ind; [done|].
  rewrite fmap_app, apply_opts_app, bind_app, existsb_app. destruct IH as [IH1 IH2]. cbn.
  rewrite app_nil_r, orb_false_r. destruct o; cbn; rewrite ?IH1, ?IH2, ?app_nil_r, ?orb_false_r, ?orb_true_r; done.
Qed.

(** A client is secured with what was given last, if [WithTransportCredentials] or
    [WithInsecure] is among the options, and is insecure otherwise, whatever credentials
    the dial options hold. *)
Theorem grpc_client_creds t os :
  creds_of (buildDialOptions (NewClient t (denote <$> os))) =
  if existsb sets_creds os then creds_of (mbind dial_of os) else Some insecure.
Proof.
  destruct (NewClient_fields t os) as [H1 H2]. unfold buildDialOptions. rewrite H1, H2. unfold creds_of. rewrite !omap_app.
  destruct (0 <? length (middlewares _))%nat, (0 <? length (streamMiddlewares _))%nat, (existsb sets_creds os); cbn; rewrite ?app_nil_r, ?last_snoc; done.
Qed.
Corollary dial_option_creds_dropped t c : creds_of (buildDialOptions (NewClient t [WithDialOption [WithTransportCredentials_ c]])) = Some insecure.
Proof. apply (grpc_client_creds t [ODialOption [WithTransportCredentials_ c]]). Qed.
End grpcclient.
End grpcclient.

(** * Models *)

(** [type ModelType int32], [type CloudConfig struct], [type LocalConfig struct] and
    [type Config struct], the same in the three packages but for [Organization]. *)
Definition ModelTypeLocal : Z := 1.
Definition ModelTypeCloud : Z := 2.
Record CloudConfig := mkCloud { ApiKey : string; BaseUrl : string; Organization : string }.
Record LocalConfig := mkLocal { Host : string; Port : Z }.
Record Config := mkConfig { Type_ : Z; ModelName : string; TimeoutSeconds : Z; Cloud : option CloudConfig; Local : option LocalConfig }.

(** The address of a local model, and a configured timeout or the one given. *)
Definition local_address (l : LocalConfig) : string :=
  let host := if String.eqb (Host l) "" then "localhost" else Host l in
  let port := if Port l =? 0 then 11434 else Port l in
  ("http://" ++ host ++ ":" ++ Itoa port)%string.
Definition timeout_or (d : Duration) (cfg : Config) : Duration := if 0 <? TimeoutSeconds cfg then wrap64 (TimeoutSeconds cfg * Second) else d.
(** The switch of the three constructors. *)
Definition by_type {A} (nil : string) (local cloud : Config -> A + error) (cfg : option Config) : A + error :=
  match cfg with
  | None => inr (Errorf nil)
  | Some cfg =>
      if Type_ cfg =? ModelTypeLocal then local cfg
      else if Type_ cfg =? ModelTypeCloud then cloud cfg
      else inr (Errorf ("unsupported ai model type: " ++ Itoa (Type_ cfg))%string)
  end.

(** An [http.Client]: the caller's, or one made with a timeout. *)
Inductive HttpClient := Given (h : nat) | WithTimeout (d : Duration).

Module openai.
(** [openai.ClientConfig], its key and the fields the source sets *)
Record ClientConfig := mkClientConfig { authToken : string; BaseURL : string; OrgID : string; HTTPClient : option HttpClient }.
Record options := mkOptions { httpClient : option nat }.
Definition WithHTTPClient (h : option nat) : options -> options := fun _ => mkOptions h.
Definition applyOptions (opts : list (options -> options)) : options := apply_opts opts (mkOptions None).
(** [func setHTTPClient(cfg *Config, o *options, c *openai.ClientConfig)] *)
Definition setHTTPClient (cfg : Config) (o : options) (c : ClientConfig) : ClientConfig :=
  mkClientConfig (authToken c) (BaseURL c) (OrgID c)
    (Some (match httpClient o with Some h => Given h | None => WithTimeout (timeout_or (30 * Second) cfg) end)).
Section new.
(** [openai.DefaultConfig] *)
Variable DefaultConfig : string -> ClientConfig.
(** [newCloudClient], [newLocalClient]: the configuration the client is made with *)
Definition newCloudClient (o : options) (cfg : Config) : ClientConfig + error :=
  match Cloud cfg with
  | None => inr (Errorf "cloud config is nil")
  | Some cl =>
      let c := DefaultConfig (ApiKey cl) in
      let c := if String.eqb (BaseUrl cl) "" then c else mkClientConfig (authToken c) (BaseUrl cl) (OrgID c) (HTTPClient c) in
      let c := if String.eqb (Organization cl) "" then c else mkClientConfig (authToken c) (BaseURL c) (Organization cl) (HTTPClient c) in
      inl (setHTTPClient cfg o c)
  end.
Definition newLocalClient (o : options) (cfg : Config) : ClientConfig + error :=
  match Local cfg with
  | None => inr (Errorf "local config is nil")
  | Some l =>
      let c := DefaultConfig "none" in
      inl (setHTTPClient cfg o (mkClientConfig (authToken c) (local_address l ++ "/v1")%string (OrgID c) (HTTPClient c)))
  end.
(** [func NewClient(cfg *Config, opts ...Option)], an openai client or an error *)
Definition NewClient (cfg : option Config) (opts : list (options -> options)) : ClientConfig + error :=
  let o := applyOptions opts in by_type "ai config is nil" (newLocalClient o) (newCloudClient o) cfg.
End new.
End openai.

Module eino.
(** [einoOpenai.ChatModelConfig], the fields the source sets *)
Record ChatModelConfig := mkChat { APIKey : string; BaseURL : string; Model : string; Timeout : Duration }.
Record options := mkOptions { configModifier : option (ChatModelConfig -> ChatModelConfig) }.
Definition WithConfigModifier (f : option (ChatModelConfig -> ChatModelConfig)) : options -> options := fun _ => mkOptions f.
Definition applyOptions (opts : list (options -> options)) : options := apply_opts opts (mkOptions None).
(** [func applyConfigModifier(config, o)] *)
Definition applyConfigModifier (config : ChatModelConfig) (o : options) : ChatModelConfig :=
  match configModifier o with Some f => f config | None => config end.
Section new.
Context {M : Type}.
(** [einoOpenai.NewChatModel] *)
Variable make : ChatModelConfig -> M + error.
Definition newCloudChatModel (o : options) (cfg : Config) : M + error :=
  match Cloud cfg with
  | None => inr (Errorf "cloud config is nil")
  | Some cl => make (applyConfigModifier (mkChat (ApiKey cl) (if String.eqb (BaseUrl cl) "" then "" else BaseUrl cl) (ModelName cfg) (timeout_or 0 cfg)) o)
  end.
Definition newOllamaChatModel (o : options) (cfg : Config) : M + error :=
  match Local cfg with
  | None => inr (Errorf "local config is nil")
  | Some l => make (applyConfigModifier (mkChat "ollama" (local_address l ++ "/v1")%string (ModelName cfg) (timeout_or 0 cfg)) o)
  end.
(** [func NewChatModel(ctx context.Context, cfg *Config, opts ...Option) (model.ChatModel, error)] *)
Definition NewChatModel (cfg : option Config) (opts : list (options -> options)) : M + error :=
  let o := applyOptions opts in by_type "ai model config is nil" (newOllamaChatModel o) (newCloudChatModel o) cfg.
End new.
End eino.

Module langchaingo.
Section langchaingo.
(** The packages' other options *)
Context {RawOpenai RawOllama M : Type}.
Inductive OpenaiOption := WithToken (s : string) | WithOpenaiModel (s : string) | WithBaseURL (s : string) | WithOpenaiHTTP (h : HttpClient) | OtherOpenai (o : RawOpenai).
Inductive OllamaOption := WithOllamaModel (s : string) | WithServerURL (s : string) | WithOllamaHTTP (h : HttpClient) | OtherOllama (o : RawOllama).
Record options := mkOptions { openaiOpts : list OpenaiOption; ollamaOpts : list OllamaOption; httpClient : option nat }.
Definition WithOpenaiOptions (os : list OpenaiOption) : options -> options := fun o => mkOptions (openaiOpts o ++ os) (ollamaOpts o) (httpClient o).
Definition WithOllamaOptions (os : list OllamaOption) : options -> options := fun o => mkOptions (openaiOpts o) (ollamaOpts o ++ os) (httpClient o).
Definition WithHTTPClient (h : option nat) : options -> options := fun o => mkOptions (openaiOpts o) (ollamaOpts o) h.
Definition applyOptions (opts : list (options -> options)) : options := apply_opts opts (mkOptions [] [] None).
(** [lcOpenai.New] and [lcOllama.New] *)
Variable make_openai : list OpenaiOption -> M + error.
Variable make_ollama : list OllamaOption -> M + error.
Definition newCloudModel (o : options) (cfg : Config) : M + error :=
  match Cloud cfg with
  | None => inr (Errorf "cloud config is nil")
  | Some cl =>
      make_openai ([WithToken (ApiKey cl); WithOpenaiModel (ModelName cfg)] ++
        (if String.eqb (BaseUrl cl) "" then [] else [WithBaseURL (BaseUrl cl)]) ++
        [WithOpenaiHTTP (match httpClient o with Some h => Given h | None => WithTimeout (timeout_or (30 * Second) cfg) end)] ++ openaiOpts o)
  end.
Definition newOllamaModel (o : options) (cfg : Config) : M + error :=
  match Local cfg with
  | None => inr (Errorf "local config is nil")
  | Some l =>
      make_ollama ([WithOllamaModel (ModelName cfg); WithServerURL (local_address l)] ++
        match httpClient o with Some h => [WithOllamaHTTP (Given h)] | None => [] end ++ ollamaOpts o)
  end.
(** [func NewModel(cfg *Config, opts ...Option) (llms.Model, error)] *)
Definition NewModel (cfg : option Config) (opts : list (options -> options)) : M + error :=
  let o := applyOptions opts in by_type "ai model config is nil" (newOllamaModel o) (newCloudModel o) cfg.
End langchaingo.

(** A local model ignores the timeout that is configured. *)
Theorem local_timeout_ignored {RawOpenai RawOllama M} mo (ml : list (@OllamaOption RawOllama) -> M + error) t n s s' cl l (opts : list (@options RawOpenai RawOllama -> options)) :
  t = ModelTypeLocal ->
  NewModel mo ml (Some (mkConfig t n s cl l)) opts = NewModel mo ml (Some (mkConfig t n s' cl l)) opts.
Proof. by intros ->. Qed.
End langchaingo.

(** A timeout that is configured is the one the model client has: 32-bit seconds do not
    overflow. *)
Theorem openai_timeout DefaultConfig cfg c :
  openai.NewClient DefaultConfig (Some cfg) [] = inl c -> - 2 ^ 31 <= TimeoutSeconds cfg < 2 ^ 31 ->
  openai.HTTPClient c = Some (WithTimeout (if 0 <? TimeoutSeconds cfg then TimeoutSeconds cfg * Second else 30 * Second)).
Proof.
  intros Hn Hr. assert (timeout_or (30 * Second) cfg = if 0 <? TimeoutSeconds cfg then TimeoutSeconds cfg * Second else 30 * Second) as Ht.
  { unfold timeout_or. destruct (0 <? TimeoutSeconds cfg); [|done]. apply wrap64_id. unfold in_int64, int64_min, int64_max, Second, Millisecond, Microsecond, Nanosecond. lia. }
  unfold openai.NewClient, by_type in Hn. destruct (Type_ cfg =? ModelTypeLocal).
  - unfold openai.newLocalClient in Hn. destruct (Local cfg); [|done]. injection Hn as <-. cbn. by rewrite Ht.
  - destruct (Type_ cfg =? ModelTypeCloud); [|done]. unfold openai.newCloudClient in Hn. destruct (Cloud cfg); [|done]. injection Hn as <-. cbn. by rewrite Ht.
Qed.

(** A model of the wrong kind, or without its part of the configuration, is refused before
    a library is called. *)
Theorem models_refused {RawOpenai RawOllama M} DefaultConfig (me : eino.ChatModelConfig -> M + error)
    (mo : list (@langchaingo.OpenaiOption RawOpenai) -> M + error) (ml : list (@langchaingo.OllamaOption RawOllama) -> M + error) cfg o1 o2 o3 :
  (cfg = None \/ exists c, cfg = Some c /\ ((Type_ c <> ModelTypeLocal /\ Type_ c <> ModelTypeCloud) \/
    (Type_ c = ModelTypeLocal /\ Local c = None) \/ (Type_ c = ModelTypeCloud /\ Cloud c = None))) ->
  (exists e, openai.NewClient DefaultConfig cfg o1 = inr e) /\ (exists e, eino.NewChatModel me cfg o2 = inr e) /\ (exists e, langchaingo.NewModel mo ml cfg o3 = inr e).
Proof.
  unfold openai.NewClient, eino.NewChatModel, langchaingo.NewModel, by_type.
  intros [->|(c & -> & [[H1 H2]|[[H1 H2]|[H1 H2]]])]; [by split_and!; eexists|..].
  - rewrite (proj2 (Z.eqb_neq _ _) H1), (proj2 (Z.eqb_neq _ _) H2). by split_and!; eexists.
  - rewrite H1, Z.eqb_refl. unfold openai.newLocalClient, eino.newOllamaChatModel, langchaingo.newOllamaModel. rewrite H2. by split_and!; eexists.
  - rewrite H1. unfold openai.newCloudClient, eino.newCloudChatModel, langchaingo.newCloudModel. rewrite H2. by split_and!; eexists.
Qed.

(** * [tracer/otlp/otlp.go] *)

Module otlpprovider.
(** [type options struct] *)
Record options := mkOptions {
  endpoint : string; serviceName : string; serviceVersion : string; insecure : bool; useHTTP : bool;
  sampleRatio : float64; batchTimeout : Duration; exportTimeout : Duration; headers : gmap string string
}.
Definition defaultOptions : options := mkOptions "localhost:4317" "lulu-service" "v0.0.1" false false (f_of_Z 1) (5 * Second) (30 * Second) ∅.
Abbreviation Option := (options -> options).
Definition WithEndpoint (x : string) : Option := fun o => mkOptions x (serviceName o) (serviceVersion o) (insecure o) (useHTTP o) (sampleRatio o) (batchTimeout o) (exportTimeout o) (headers o).
Definition WithServiceName (x : string) : Option := fun o => mkOptions (endpoint o) x (serviceVersion o) (insecure o) (useHTTP o) (sampleRatio o) (batchTimeout o) (exportTimeout o) (headers o).
Definition WithServiceVersion (x : string) : Option := fun o => mkOptions (endpoint o) (serviceName o) x (insecure o) (useHTTP o) (sampleRatio o) (batchTimeout o) (exportTimeout o) (headers o).
Definition WithInsecure (x : bool) : Option := fun o => mkOptions (endpoint o) (serviceName o) (serviceVersion o) x (useHTTP o) (sampleRatio o) (batchTimeout o) (exportTimeout o) (headers o).
Definition WithHTTP (x : bool) : Option := fun o => mkOptions (endpoint o) (serviceName o) (serviceVersion o) (insecure o) x (sampleRatio o) (batchTimeout o) (exportTimeout o) (headers o).
Definition WithSampleRatio (x : float64) : Option := fun o => mkOptions (endpoint o) (serviceName o) (serviceVersion o) (insecure o) (useHTTP o) x (batchTimeout o) (exportTimeout o) (headers o).
Definition WithBatchTimeout (x : Duration) : Option := fun o => mkOptions (endpoint o) (serviceName o) (serviceVersion o) (insecure o) (useHTTP o) (sampleRatio o) x (exportTimeout o) (headers o).
Definition WithExportTimeout (x : Duration) : Option := fun o => mkOptions (endpoint o) (serviceName o) (serviceVersion o) (insecure o) (useHTTP o) (sampleRatio o) (batchTimeout o) x (headers o).
Definition WithHeaders (x : gmap string string) : Option := fun o => mkOptions (endpoint o) (serviceName o) (serviceVersion o) (insecure o) (useHTTP o) (sampleRatio o) (batchTimeout o) (exportTimeout o) x.

(** The options of an exporter, of either protocol. *)
Inductive ExporterOption := XEndpoint (s : string) | XHeaders (h : gmap string string) | XTimeout (d : Duration) | XInsecure.
Inductive Protocol := HTTP | GRPC.
Inductive Propagator := TraceContext | Baggage.
Section new.
Context {Exporter Resource : Type}.
(** [sdktrace.TracerProvider]: its sampler's ratio, its resource, and the exporter with
    the timeout of its batches. *)
Record TracerProvider := mkProvider { sampler : float64; resource : Resource; exporter : Exporter; batch : Duration }.
(** The globals of package [otel]. *)
Record Globals := mkGlobals { provider : option TracerProvider; propagators : list Propagator }.

(** [otlptrace.New] of a client of either protocol, and [resource.New] *)
Variable new_exporter : Protocol -> list ExporterOption -> Exporter + error.
Variable new_resource : string -> string -> Resource + error.

Definition exporter_opts (cfg : options) : list ExporterOption :=
  [XEndpoint (endpoint cfg); XHeaders (headers cfg); XTimeout (exportTimeout cfg)] ++ (if insecure cfg then [XInsecure] else []).
(** [func New(opts ...Option) : a tracer provider or an error] *)
Definition New (opts : list Option) (g : Globals) : (TracerProvider + error) * Globals :=
  let cfg := apply_opts opts defaultOptions in
  match new_exporter (if useHTTP cfg then HTTP else GRPC) (exporter_opts cfg) with
  | inr e => (inr (Wrapf "failed to create OTLP exporter: " e), g)
  | inl x =>
      match new_resource (serviceName cfg) (serviceVersion cfg) with
      | inr e => (inr (Wrapf "failed to create resource: " e), g)
      | inl res =>
          let tp := mkProvider (sampleRatio cfg) res x (batchTimeout cfg) in
          (inl tp, mkGlobals (Some tp) [TraceContext; Baggage])
      end
  end.

(** The provider that is returned is the global one, with both propagators; a failure
    leaves the globals and says what it was. *)
Theorem otlp_new opts g :
  match New opts g with
  | (inl tp, g') => g' = mkGlobals (Some tp) [TraceContext; Baggage] /\ sampler tp = sampleRatio (apply_opts opts defaultOptions)
  | (inr e, g') => g' = g /\ exists text e', e = Wrapf text e' /\
      ((exists p xs, new_exporter p xs = inr e') \/ (exists n v, new_resource n v = inr e'))
  end.
Proof.
  unfold New. destruct (new_exporter _ _) as [x|e] eqn:Ex; [destruct (new_resource _ _) as [r|e] eqn:Er|]; [done|..].
  all: split; [done|]; do 2 eexists; split; [done|]; eauto.
Qed.
End new.
End otlpprovider.

(** * [pprof/handler.go] *)

Module pprof.
Definition DefaultPrefix : string := "/debug/pprof".
Record options := mkOptions { prefix : string }.
Definition WithPrefix (p : string) : options -> options := fun o => if String.eqb p "" then o else mkOptions (trim_slashes p).

(** The handlers of package [net/http/pprof]. *)
Inductive Profile := Index | Cmdline | CPUProfile | Symbol | Trace | Named (name : string).
(** [func (h *Handler) register(prefix string)]: the patterns of the [http.ServeMux] *)
Definition register (prefix : string) : list (string * Profile) :=
  [((prefix ++ "/")%string, Index); ((prefix ++ "/cmdline")%string, Cmdline); ((prefix ++ "/profile")%string, CPUProfile);
   ((prefix ++ "/symbol")%string, Symbol); ((prefix ++ "/trace")%string, Trace)] ++
  ((fun name => ((prefix ++ "/" ++ name)%string, Named name)) <$> ["allocs"; "block"; "goroutine"; "heap"; "mutex"; "threadcreate"]).
(** [func NewHandler(opts ...Option) *Handler] *)
Definition NewHandler (opts : list (options -> options)) : list (string * Profile) := register (prefix (apply_opts opts (mkOptions DefaultPrefix))).
(** [func (h *Handler) Routes(prefix string) []string] *)
Definition Routes (prefix : string) : list string :=
  (fun r => (prefix ++ r)%string) <$>
  ["/"; "/cmdline"; "/profile"; "/symbol"; "/trace"; "/allocs"; "/block"; "/goroutine"; "/heap"; "/mutex"; "/threadcreate"].

Lemma string_app_inj (p a b : string) : (p ++ a = p ++ b)%string -> a = b.
Proof. induction p as [|c p IH]; cbn; [done|]. intros [= H]. by apply IH. Qed.

(** The routes for the handler's prefix are its patterns, each registered once. *)
Theorem pprof_routes p : fst <$> register p = Routes p /\ NoDup (fst <$> register p).
Proof.
  split; [done|]. change (fst <$> register p) with (Routes p). apply (NoDup_fmap_2_strong (fun r => (p ++ r)%string)).
  - intros x y _ _. apply string_app_inj.
  - by apply (bool_decide_unpack _).
Qed.
(** [Routes] takes the prefix as it is, where [WithPrefix] drops its slashes at the end. *)
Example routes_of_slash : exists r, r ∈ Routes "/admin/" /\ r ∉ (fst <$> NewHandler [WithPrefix "/admin/"]).
Proof. exists "/admin//cmdline". split; by apply (bool_decide_unpack _). Qed.
End pprof.
